(* ===== verification/_CoqProject ===== *)
-Q . S2P
Prelude.v
Str.v
Hex.v
Derivation.v
Assessment.v
Picc.v
AesRef.v
Ndef.v
NtagTypes.v
Cc.v
FileSettings.v
SdmUrl.v
Session.v
Channel.v
Wire.v
Link.v
EmuCard.v
EmuLink.v
Ntag.v
NtagProofs.v
TransportSim.v
Lrp.v
LrpAuth.v
SdmVerify.v
WireFiles.v
HighLevel.v
Provision.v
SdmProofs.v
Tap.v
EmuProofs.v
Cli.v
CliProofs.v
CliTools.v
Transport.v
CliMain.v
CliMainProofs.v
AuditLog.v
AuditClock.v
Console.v
Commands.v
Workflow.v
Ota.v
Esp32.v
Firmware.v
FirmwareProofs.v
Rest.v
RestProofs.v
RestJson.v
Nvs.v
Iso14443.v
Readers.v
ReaderLink.v
Nucula.v
Ble.v
Display.v
Stm32.v
Serial.v
CertGen.v
Boot.v
HwTest.v
