(* ===== verification/Prelude.v ===== *)
(** * bolty-rs verification development

    bolty-rs provisions and resets Bolt Cards (NTAG 424 DNA tags that authorise
    Lightning payments).  A card carries five AES keys, an NDEF file with a URL,
    and the settings of Secure Dynamic Messaging (SDM), which makes the card
    splice an encrypted identifier and a MAC into that URL at every read.  The
    program burns a card (writes URL, settings and keys), wipes it (back to the
    delivery state), inspects it and verifies its messages; it runs as a desktop
    command line and as ESP32 firmware, over several NFC readers.  The costly
    mistakes are physical: a card whose master key is lost is scrap, and a card
    that sees too many failed authentications locks itself.

    ** Parts, files, and the sources they model

    Files are listed in dependency order.

    - [Prelude] (this file): [Result], a state-and-error monad [M] with a
      weakest-precondition predicate [wp] and its rules, byte and list lemmas,
      the hint database [bolty] and the tactics of the development.
    - [Str]: the operations of [core::str] and [heapless::String] the sources
      use, on strings as lists of UTF-8 bytes.
    - [Hex], [Derivation], [Assessment], [Picc]: [crates/bolty-core/src].  The
      hex codec, keys and UIDs ([util.rs], [secret.rs], [uid.rs],
      [constants.rs]); deterministic key derivation ([derivation.rs]);
      configuration, lifecycle classification and the issuer registry
      ([config.rs], [assessment.rs], [issuer.rs], [provenance.rs]); SUN message
      verification ([picc.rs]).
    - [AesRef]: AES-128, CMAC and CBC as an instance of the interface
      [AesCrypto], evaluated on published vectors; it shows that the interface
      laws the other files assume of the cipher can hold.
    - [Ndef], [Ntag], [NtagProofs]: [crates/bolty-ntag/src/lib.rs].  URL
      templates and NDEF parsing; the workflows preflight, [safe_inspect],
      [burn], [wipe], [check_key_versions] and [f5probe]; their theorems.
    - [NtagTypes], [Session]: the types of [vendor/ntag424/src/types] and the
      session interface the workflows program against.
    - [FileSettings], [SdmUrl]: the file settings of [vendor/ntag424/src/types]
      ([file_settings/sdm.rs], [access.rs], [codec.rs]: the checks on SDM
      settings, the decoder of the card's answer, the encoder of the change
      command) and the planner that turns a URL template into an NDEF file and
      SDM settings ([sdm_url.rs]).
    - [Channel], [Wire]: the AES secure channel of [vendor/ntag424/src] (session
      keys, IVs, MACs, CBC, padding, status words: [crypto/suite.rs],
      [commands/secure_channel.rs], [types/response_code.rs]) with its handshake
      ([commands/authenticate/aes.rs]); the commands the workflows send, byte by
      byte ([commands/], [session/]), and with them [wire_device], an
      implementation of the session interface over any transport of APDUs.
    - [Link], [WireFiles]: runs of the channel's operations that end well; the
      remaining commands of a session, ReadData and WriteData in MAC and full mode
      among them ([commands/], [session/authenticated.rs],
      [types/configuration.rs]), with a card that keeps a file under a session.
    - [EmuCard], [EmuLink], [EmuProofs]: the emulated card of
      [apps/bolty-cli/src/mock_transport.rs]; reader and card command by command;
      the workflows run on it.
    - [Lrp], [LrpAuth], [SdmVerify], [SdmProofs]: LRP, and the crate's own side of a
      tap.  The leakage-resilient primitive and its secure-messaging suite
      ([crypto/lrp.rs], the LRP half of [crypto/suite.rs]), with its handshake
      ([commands/authenticate/lrp.rs]) and a card's side of it; the verifier of
      dynamic messages in both crypto modes ([crypto/sdm/]: [verifier.rs],
      [picc.rs], [keys.rs], [hex.rs]); what a tag writes into its file, and that the
      verifier accepts it.
    - [HighLevel], [Provision], [Cc]: key diversification and the application verifier
      with its read counter ([crypto/key_diversification.rs], [high_level/mod.rs],
      [high_level/verification.rs]); the crate's own provisioning and reset of a tag
      ([high_level/provision.rs], [high_level/reset.rs]); the capability container
      ([types/cc.rs]).
    - [Tap]: the parts joined, from [burn] with that planner to the message a
      tapped card serves and its verification, by [Picc] and by [SdmVerify].
    - [Cli], [CliProofs], [CliTools]: [apps/bolty-cli/src].  The burn and wipe
      commands with retry ladder, failure counting and audit events
      ([common.rs], [burn.rs], [wipe.rs]); the other commands ([diagnose.rs],
      [scan_keys.rs], [try_key.rs], [testck.rs], [f5probe.rs], [picc.rs],
      [provision.rs], [uid.rs]).
    - [Transport]: the PC/SC transport and the bench lock of the command line
      ([transport.rs], [bench_lock.rs]).
    - [CliMain], [CliMainProofs]: the entry point, every subcommand and the
      remaining commands ([main.rs], [inspect.rs], [ver.rs], [keyver.rs],
      [set_card_uid.rs]).
    - [AuditLog], [AuditClock]: the lines of the audit log and the budget report
      read back from them; timestamps, calendar, session banner, clock steps and
      the logging transport ([audit.rs], [budget.rs]).
    - [Console], [Commands], [Workflow], [Ota], [Esp32], [Firmware],
      [FirmwareProofs]: [apps/bolty-esp32/src].  Line assembly
      ([console_framing.rs]); the command grammar ([commands.rs]); dispatch,
      rollback gate and button debouncing ([workflow.rs], [service.rs],
      [ota_validity.rs], [button.rs]); firmware updates ([ota_header.rs],
      [ota_server.rs], [ota.rs]); the card service ([firmware/service.rs],
      [firmware/card_operations.rs], [firmware/utils.rs]); the main loop
      ([firmware.rs], [firmware/console_commands.rs], and the job slot of
      [rest.rs]) as a step function over events.
    - [Rest], [RestProofs], [RestJson]: the HTTP server ([rest.rs]): routes,
      tokens, rate limiter, body reader, JSON writer and reader, all handlers.
    - [Nvs]: settings and certificates in flash ([firmware/nvs.rs], [tls.rs]) and
      the stored Wi-Fi credentials ([bolty-core/src/wifi_creds.rs]).
    - [Ble]: the Bluetooth command service ([ble.rs]) and the loop that drains
      its queue.
    - [Display]: the power chip, the screen and the results shown on it
      ([display.rs], [axp192_map.rs], parts of
      [firmware/console_commands.rs]).
    - [Iso14443], [Readers], [ReaderLink]: [crates/iso14443-session],
      [crates/pn532-transport], [crates/bolty-pn532], [crates/bolty-mfrc522].  CRC_A,
      session setup, block exchange with chaining, waiting-time extension and
      recovery; the PN532 device state machine; the activation ladder of the MFRC522;
      both readers as transports under the commands and the workflows.
    - [TransportSim]: no code of its own; what two transports that answer alike, or one
      that keeps an invariant, mean for every workflow above them.
    - [Nucula]: the second firmware with its reader bridge and its Wi-Fi manager
      ([firmware_nucula.rs], [wifi.rs], [crates/bolty-pn7160]).
    - [Stm32]: bus adapters, timer and probe of [apps/bolty-stm32].
    - [Serial]: the serial port and what the console prints on it
      ([firmware/serial_console.rs], [firmware/diagnostics_commands.rs], the
      replies of [firmware/console_commands.rs]), over [Firmware.handle_line].
    - [CertGen]: the self-signed certificate ([cert_gen.rs]) and the command
      that stores it.
    - [Boot]: start-up ([firmware.rs] up to its loop, the reset names of
      [main.rs]): reader discovery, settings restored from flash, the boot
      counter and the crash record, [crashlog], [provision-ota-key].
    - [HwTest]: the hardware self test, the timers of the loop, the heartbeat
      line, the replies to the buttons, the final halt ([firmware.rs],
      [firmware/console_commands.rs]).

    ** How code is modelled

    A byte is a [Z], a [&str] or a slice a [list Z]; arrays carry their length
    as a side condition ([array n l]).  A fallible function returns [result]; a
    function that talks to a card is a [M T E A], that is
    [T → result A E * T], so an error leaves behind whatever state the device
    had reached.  Nothing is rolled back on failure.  Machine integers are kept
    at their width where it matters (saturating counters, the CRC register,
    little-endian counters, the 32-bit sizes of an update header).

    Interfaces separate what is verified from what is not.
    - [AesCrypto] with [AesLaws] ([Derivation]): the block cipher and CMAC.
    - [NtagDevice] with [NtagLaws] and [NtagLive] ([Session]): the card session
      of the protocol crate.  [NtagLaws] says what an operation can do to the
      persistent state of a card; on failure it may or may not have taken
      effect, because the answer can be lost after the card has acted.
      [NtagLive] says that a reachable card answers permitted commands, and is
      used only by the theorems that promise success.  [Session.Sim] is a card
      that satisfies both, with a budget of commands after which the field is
      lost; the witnesses run on it.  [NtagAnswers] ([Session]) is what the
      workflows need in order to run to their end: each command answers, with its
      exact effect, for arguments of the right width.  It follows from [NtagLaws]
      with [NtagLive], and [EmuProofs.emu_answers] proves it for the real commands
      against the emulated card, under [AesLaws] alone.
    - [Apdu] ([Channel]): a transport of APDUs, the trait [Transport] of the
      protocol crate; [EmuCard.mock_apdu], [ReaderLink.pn532_apdu] and
      [ReaderLink.mfrc522_apdu] implement it.  [TransportSim] and [DeviceSim]
      ([TransportSim]) relate two transports, or two session implementations, that
      cannot be told apart by their results; [wire_sim] carries the one to the other.
    - [Iso14443Api] with [Iso14443Laws], [SetupApi] and [AtsView] ([Iso14443]): blocks,
      protocol handler and answer to select of the [iso14443] crate.
    - [BoltyService] ([Workflow]): the Rust trait of that name, implemented by
      [Esp32.esp32_service].
    - [HttpConn] ([Rest]): an HTTP connection.  [NvsApi] with [NvsLaws] ([Nvs]):
      the flash store, with what a read returns and what survives a reset.
      [Host] with [HostLaws] ([Transport]): the smart-card service, the lock file
      and the clock.  [NfcReader], [Pn7160Driver], [WifiDriver], [BlobStore]
      ([Nucula]), [BleStack] ([Ble]), [Pmu] with [PmuLaws] ([Display]), [I2cHal]
      and [SpiHal] ([Stm32]): drivers, most of them answering by the history of
      calls, so that a theorem holds for every behaviour of the hardware.
    - [Stdio] ([Serial]): the serial driver, which may accept part of a write.
      [MbedTls] ([CertGen]): the certificate library; every call is recorded and
      its return code is arbitrary.  [I2cBus] ([Boot]): the bus scanned for
      readers.  [Board] ([HwTest]): clock, delay and pins.  [NvsLive] ([Nvs]): a
      flash store that accepts writes, for the theorems that promise a value.
    - [CmacCrate] ([Lrp]) with [CmacLaws] ([LrpAuth]): the CMAC crate over any block
      cipher, as the LRP modes use it; [ref_cmac] is an instance.  [CounterStore] with
      [CounterLaws] ([HighLevel]): where an application keeps the last read counters.
    - [TagSession] with [TagLaws] ([Provision]): a session in either suite, as
      provisioning and reset use it, and what its operations do to a tag; a ChangeKey
      is accepted exactly when its checksum fits the tag's own key.
    - [WireFiles.Vault] and [LrpAuth.LrpCard]: a card's side of the file commands and of
      the LRP handshake, after its data sheet, as executable specifications.
    - [Tap.serves] and [SdmProofs.tag_file]: what a tag returns to a read under given settings (mirrored
      identity data and MAC, encrypted file data, counter limit, tamper status),
      after its data sheet, as a relation; the witnesses exhibit such messages.
    - The readers' chips, the flash partition, the socket, the hash and Ed25519
      are arguments of the definitions that call them.  The driver of the PN532 gets
      with each request the longest response it may return, from its buffer size
      [BUF]; the timer of the front end of [Iso14443] may refuse any request, and the
      code discards the refusal as the source does.

    Where another task can run between two steps of the code (the Bluetooth
    callbacks, the HTTP server beside the main loop), the steps of the other task
    are explicit arguments or events of the same state machine, and the theorems
    quantify over them.

    ** What the theorems show

    - Card workflows ([NtagProofs]): a successful burn or wipe has exactly the
      advertised effect; on every outcome, with responses lost at any point, the
      master key changes last, so that the caller can always authenticate again
      or the card is finished; the wrong master key changes nothing; on a
      reachable card burn succeeds, and wipe after burn returns to the delivery
      state; inspection and the probe do not damage a card.
    - Plans and settings ([SdmUrl], [FileSettings]): settings that pass the
      checks, or that were decoded from any bytes a card may send, satisfy the
      invariant of their type, and survive a read-modify-write; a plan that is
      returned is one URI record within its limits with every placeholder in
      place and apart from the others (a tamper status may lie in the plain part of
      the data to encrypt), and the planner never indexes out of range on any string.
    - End to end ([Tap]): after a burn that reports success, whatever the tag
      serves is parsed to the URL of the template and accepted by the verifier
      with the UID and counter of the tap; the vendor's verifier accepts the file
      as well, and gives the same verdict as [Picc] on every template URL.
    - Dynamic messages ([Lrp], [SdmVerify], [SdmProofs]): the verifier returns what
      the tag put into the file, in AES and in LRP mode; it indexes nothing out
      of range, on any file, settings and keys; moving file and settings by an
      offset changes nothing; reader and card that ran the LRP handshake agree on the
      session and stay in step; no message is accepted twice against one counter
      store ([HighLevel.no_replay]); a diversified key is a CMAC.
    - Provisioning by the crate ([Provision]): provisioning and reset change the master
      key last on every outcome, have exactly their effect when they report success, and
      a reset cannot be repeated over keys it has already reset.
    - Files under a session ([WireFiles], [Cc]): what is written in MAC or full mode
      is what the card holds and what is read back, in chunks of any number; an
      answer counts only with the MAC of the session; a parsed container is written
      as it was read.
    - Down to the wire ([EmuProofs]): on the emulated card [burn] with the planner
      and the commands of the crate succeeds and provisions it, and [wipe] restores
      the delivery state; after the handshake any sequence of commands answers and
      acts as the specification of a card says, with both ends in step; no APDU
      changes keys or settings without the MAC of the open session.
    - Command line ([CliProofs], [CliTools], [CliMainProofs], [Transport],
      [AuditLog], [AuditClock]): no modification unless
      every gate of the command held; what exit without error means; bounds on
      the authentications a command spends; diagnosis, key search and the
      ChangeKey self test report the truth and leave the card as they should;
      arguments are checked before a reader is opened, a physical reader is
      opened under the bench lock, exit codes mean what they say, the reading
      commands leave the card alone and [cycle] ends with a provisioned card;
      the budget report counts what the audit layer logged; a run of the process
      appends exactly its own entries after one banner, with at most one note of
      a backward clock; the calendar of the banner agrees with counting days.
    - Firmware ([FirmwareProofs], [Workflow], [Console], [Commands], [Ota]): over
      every interleaving of events only an explicit request writes to the card;
      the dispatcher's burn, wipe and check do what they report; an overlong line
      yields one overflow event and nothing else; the parser accepts exactly the
      console grammar; the rollback gate fires once; a pushed update is written
      exactly if admitted, aborted when it fails and booted only when complete; a
      pulled one is booted only when signed.
    - HTTP ([RestProofs], [RestJson]): composed with the main loop, no request
      changes the card without the write token, successful writes are recorded and
      spaced; a refused request changes nothing and what each endpoint can reach is
      listed, flash and rollback gate included; the body reader terminates within its
      bound; JSON replies and keys read back.
    - Flash ([Nvs]): what was saved is what loads, now and after a reset; every
      handle is closed and only the named keys are touched.
    - Start-up ([Boot]): a setting saved before a reset is the setting the
      firmware starts with; boots are counted, with saturation; a crash is
      recorded under the boot that saw it; key provisioning stores exactly a
      well-formed key.
    - Console output ([Serial], [HwTest]): the verdict a line ends in is the
      outcome of the command, the bytes reach the port in order and complete,
      status replies fit their buffers; the self test returns, prints PASS for a
      step exactly if its event was seen before the timeout and ALL PASS exactly if
      every step passed; timers fire no more often than their period.
    - Certificates ([CertGen]): what is stored is the pair the library serialised
      under a single context, every context is freed once on every path, and a
      failed step stores nothing.
    - Bluetooth ([Ble]): the queue is a bounded buffer, in order, of what peers
      wrote; answers reach subscribers only; draining it leaves card and
      configuration alone; waiting for the service ends.
    - Screen and power ([Display]): the panel shows the current state after every
      call, and the one input that crashes drawing is characterised; switching a
      supply changes one bit; the gauge is monotone and in range.
    - Other boards ([Nucula], [Stm32]): the nucula console cannot change a card
      and credits an image only when a card answered; adapters neither drop nor
      reorder transfers, hold the chip select around a transaction and release it
      on every path; the timer keeps its deadline.
    - Messages ([Picc], [Ndef], [Hex], [Derivation], [Assessment]): SUN
      verification is sound and complete against the card's construction; NDEF
      URI records round-trip; hex decoding is characterised; derived keys are
      separated; the assessment policy.
    - Readers ([Iso14443], [Readers], [ReaderLink]): frame sizes and retries stay
      within their bounds on every path, through whole sequences of workflows, and
      after a waiting-time extension the base timeout is always asked for, and is back
      if the front end grants it; CRC_A detects a replaced byte; no APDU goes to a
      card that was not selected; activation retries are bounded; over a PN532 that
      relays, any workflows do what they do on the card seen through the response
      room of the driver, and what they do on the card itself if every answer fits
      that room.

    ** Fuel and bounds

    The retry ladder is given [AUTH_FUEL], one more than the number of delays in
    [AUTH_RETRY_DELAYS]; it is proved never to run out.  The loops of
    [try_key.rs] and [scan_keys.rs] recurse on the clamped attempt count.  The
    exchange of [Iso14443] runs the loops of the source, which a card can
    prolong without limit by asking for more time, on explicit fuel; its theorem
    is a safety statement that holds for every amount.  The body reader of [Rest]
    is defined by well-founded recursion on the bytes still missing.  The waits
    of [Ble] and [Stm32] take fuel and are proved to return within a stated
    amount; those of [HwTest] return within one round more than their limit in
    milliseconds, and the write loop of [Serial] within the length of its
    buffer.  The template loop of [SdmUrl] is given the length of the URL, which
    is proved enough for every URL that is UTF-8.  The chunk loops of [Wire] and [WireFiles] are given the length of
    the data or of the buffer, of which every round takes at least one byte.  Stream loops
    recurse on the list of chunks or events.

    ** Not modelled

    Printed text and logging other than the audit log, except where a reply is
    part of a protocol or of an operator's console (HTTP, BLE, the nucula
    console, the serial console); pixels and the RGB pixel; clock, pin, heap and
    driver set-up, deep sleep, Wi-Fi and Bluetooth bring-up on the M5 board;
    clap's argument parser; of the vendored crate the check of the originality
    signature (a call of an ECDSA library), ISO writes and the factory check outside a
    session, which no workflow of this repository calls,
    commands over an LRP session, which differ from those modelled by the suite only,
    and the compile-time front end of the planner, which shares the core that is
    modelled.

    [NtagLaws] is not proved for [wire_device]: a card behind it may accept a wrong
    key or a forged MAC by collision, which only assumptions on the strength of the
    cipher exclude. *)

From stdpp Require Export prelude list strings.
From Stdlib Require Export ZArith Ascii.

#[global] Open Scope Z_scope.

(** ** Rust's [Result] *)

Inductive result (A E : Type) : Type :=
| Ok (a : A)
| Err (e : E).
Arguments Ok {A E} _.
Arguments Err {A E} _.

#[export] Instance result_eq_dec {A E} `{EqDecision A, EqDecision E} :
  EqDecision (result A E).
Proof. solve_decision. Defined.

#[export] Instance result_mret {E} : MRet (λ A, result A E) := λ A a, Ok a.
#[export] Instance result_mbind {E} : MBind (λ A, result A E) := λ A B f m,
  match m with Ok a => f a | Err e => Err e end.

Definition is_ok {A E} (r : result A E) : bool :=
  match r with Ok _ => true | Err _ => false end.

(** [Result::ok] and [Option::ok_or]. *)
Definition ok {A E} (r : result A E) : option A :=
  match r with Ok a => Some a | Err _ => None end.

Definition ok_or {A E} (o : option A) (e : E) : result A E :=
  match o with Some a => Ok a | None => Err e end.

(** Rust's [?] on a [Result]. *)
Definition and_then {A B E} (m : result A E) (f : A → result B E) : result B E :=
  match m with Ok a => f a | Err e => Err e end.

Notation "x ←? m ; k" := (and_then m (λ x, k))
  (at level 20, m at level 100, k at level 200, only parsing) : stdpp_scope.

Definition map_err {A E F} (f : E → F) (r : result A E) : result A F :=
  match r with Ok a => Ok a | Err e => Err (f e) end.

Lemma and_then_ok {A B E} (m : result A E) (k : A → result B E) b :
  and_then m k = Ok b ↔ ∃ a, m = Ok a ∧ k a = Ok b.
Proof. destruct m; naive_solver. Qed.

(** ** State-and-error computations

    A Rust function that takes [&mut S] and returns [Result<A, E>]: the state
    survives an error, which is what makes a partially executed card workflow
    observable. *)

Definition M (S E A : Type) : Type := S → result A E * S.

#[export] Instance M_ret {S E} : MRet (M S E) := λ A a s, (Ok a, s).
#[export] Instance M_bind {S E} : MBind (M S E) := λ A B f m s,
  match m s with
  | (Ok a, s') => f a s'
  | (Err e, s') => (Err e, s')
  end.

Definition fail {S E A} (e : E) : M S E A := λ s, (Err e, s).

(** [?] after [map_err]: the error type of a callee is converted. *)
Definition lift_err {S E F A} (f : E → F) (m : M S E A) : M S F A :=
  λ s, let '(r, s') := m s in (map_err f r, s').

(** A callee whose [Result] the caller inspects instead of propagating. *)
Definition attempt {S E F A} (m : M S E A) : M S F (result A E) :=
  λ s, let '(r, s') := m s in (Ok r, s').

(** Weakest precondition of a computation, for both outcomes. *)
Definition wp {S E A} (m : M S E A) (Q : result A E → S → Prop) (s : S) : Prop :=
  Q (m s).1 (m s).2.

Section wp.
Context {S E : Type}.

Lemma wp_ret {A} (a : A) (Q : result A E → S → Prop) s :
  Q (Ok a) s → wp (mret a) Q s.
Proof. done. Qed.

Lemma wp_fail {A} (e : E) (Q : result A E → S → Prop) s :
  Q (Err e) s → wp (fail e) Q s.
Proof. done. Qed.

Lemma wp_bind {A B} (m : M S E A) (k : A → M S E B) Q s :
  wp m (λ r s', match r with Ok a => wp (k a) Q s' | Err e => Q (Err e) s' end) s →
  wp (m ≫= k) Q s.
Proof.
  unfold wp, mbind, M_bind. destruct (m s) as [[a|e] s']; done.
Qed.

Lemma wp_mono {A} (m : M S E A) (Q Q' : result A E → S → Prop) s :
  wp m Q s → (∀ r s', Q r s' → Q' r s') → wp m Q' s.
Proof. unfold wp. eauto. Qed.

Lemma wp_lift_err {F A} (f : F → E) (m : M S F A) Q s :
  wp m (λ r s', Q (map_err f r) s') s → wp (lift_err f m) Q s.
Proof. unfold wp, lift_err. by destruct (m s). Qed.

Lemma wp_attempt {F A} (m : M S F A) (Q : result (result A F) E → S → Prop) s :
  wp m (λ r s', Q (Ok r) s') s → wp (attempt m) Q s.
Proof. unfold wp, attempt. by destruct (m s). Qed.

Lemma wp_and {A} (m : M S E A) (Q Q' : result A E → S → Prop) s :
  wp m Q s → wp m Q' s → wp m (λ r s', Q r s' ∧ Q' r s') s.
Proof. done. Qed.

(** The run itself as a hypothesis, for a postcondition that names it. *)
Lemma wp_remember {A} (m : M S E A) (Q : result A E → S → Prop) s :
  wp m (λ r s', m s = (r, s') → Q r s') s → wp m Q s.
Proof. unfold wp. destruct (m s). auto. Qed.

Lemma wp_run {A} (m : M S E A) Q s r s' :
  wp m Q s → m s = (r, s') → Q r s'.
Proof. unfold wp. intros H E0. by rewrite E0 in H. Qed.
End wp.

(** Destructs the first [match] of the goal, keeping its equation. *)
Ltac split_match :=
  match goal with
  | |- context [match ?x with _ => _ end] => destruct x eqn:?
  end.

Ltac split_match_in H :=
  match type of H with
  | context [match ?x with _ => _ end] => destruct x eqn:?
  end.

(** ** Machine integers *)

Definition u8 (z : Z) : Z := z mod 2 ^ 8.
Definition u16 (z : Z) : Z := z mod 2 ^ 16.
Definition u32 (z : Z) : Z := z mod 2 ^ 32.

Definition is_u8 (z : Z) : Prop := 0 ≤ z < 2 ^ 8.
Definition is_u32 (z : Z) : Prop := 0 ≤ z < 2 ^ 32.

#[export] Instance is_u8_dec z : Decision (is_u8 z).
Proof. unfold is_u8. apply _. Defined.
#[export] Instance is_u32_dec z : Decision (is_u32 z).
Proof. unfold is_u32. apply _. Defined.

(** A [[u8]] slice, and a [[u8; n]] array. *)
Definition bytes (l : list Z) : Prop := Forall is_u8 l.
Definition array (n : nat) (l : list Z) : Prop := length l = n ∧ bytes l.

#[export] Instance bytes_dec l : Decision (bytes l).
Proof. unfold bytes. apply _. Defined.
#[export] Instance array_dec n l : Decision (array n l).
Proof. unfold array. apply _. Defined.

Create HintDb bolty.

Lemma u8_is_u8 z : is_u8 (u8 z).
Proof. unfold is_u8, u8. apply Z.mod_pos_bound. lia. Qed.

Lemma u8_id z : is_u8 z → u8 z = z.
Proof. unfold is_u8, u8. intros. by apply Z.mod_small. Qed.

Lemma bytes_app l k : bytes l → bytes k → bytes (l ++ k).
Proof. unfold bytes. rewrite Forall_app. done. Qed.

Lemma bytes_cons x l : is_u8 x → bytes l → bytes (x :: l).
Proof. unfold bytes. by constructor. Qed.

Lemma bytes_take n l : bytes l → bytes (take n l).
Proof. apply Forall_take. Qed.

Lemma bytes_drop n l : bytes l → bytes (drop n l).
Proof. apply Forall_drop. Qed.

Lemma bytes_nil : bytes [].
Proof. constructor. Qed.

Lemma bytes_replicate n : bytes (replicate n 0).
Proof. apply Forall_replicate. unfold is_u8. lia. Qed.

#[export] Hint Resolve u8_is_u8 bytes_app bytes_cons bytes_take bytes_drop
  bytes_nil bytes_replicate : bolty.

(** ** Bitwise facts *)

Lemma lor_eq_0 a b : Z.lor a b = 0 ↔ a = 0 ∧ b = 0.
Proof. apply Z.lor_eq_0_iff. Qed.

Lemma lxor_eq_0 a b : Z.lxor a b = 0 ↔ a = b.
Proof. apply Z.lxor_eq_0_iff. Qed.

Lemma land_lt_pow2 a n : 0 ≤ n → 0 ≤ Z.land a (Z.ones n) < 2 ^ n.
Proof. intros. rewrite Z.land_ones by done. apply Z.mod_pos_bound. lia. Qed.

Lemma nibbles_disjoint b : Z.land (b / 2 ^ 4 * 2 ^ 4) (b mod 2 ^ 4) = 0.
Proof.
  rewrite <-Z.shiftl_mul_pow2, <-Z.land_ones by lia.
  apply Z.bits_inj'. intros n Hn. rewrite !Z.land_spec, Z.bits_0.
  destruct (decide (n < 4)).
  - by rewrite Z.shiftl_spec_low by lia.
  - rewrite Z.ones_spec_high by lia. by rewrite !andb_false_r.
Qed.

(** A value below [2 ^ n] and one shifted by [n] share no bit. *)
Lemma land_shiftl_disjoint a b n : 0 ≤ n → 0 ≤ a < 2 ^ n → Z.land a (Z.shiftl b n) = 0.
Proof.
  intros Hn Ha. apply Z.bits_inj'. intros i Hi. rewrite Z.land_spec, Z.bits_0.
  destruct (decide (i < n)).
  - rewrite Z.shiftl_spec_low by lia. apply andb_false_r.
  - rewrite <-(Z.mod_small a (2 ^ n)), Z.mod_pow2_bits_high by lia. done.
Qed.

(** High and low nibble recombine. *)
Lemma nibbles_join b :
  is_u8 b → Z.lor (Z.shiftl (Z.shiftr b 4) 4) (Z.land b 15) = b.
Proof.
  intros Hb. change 15 with (Z.ones 4).
  rewrite Z.land_ones, Z.shiftl_mul_pow2, Z.shiftr_div_pow2 by lia.
  pose proof (Z.add_lor_land (b / 2 ^ 4 * 2 ^ 4) (b mod 2 ^ 4)) as Hadd.
  rewrite nibbles_disjoint in Hadd. pose proof (Z.div_mod b (2 ^ 4)). lia.
Qed.

(** ** Little- and big-endian byte strings *)

Fixpoint le_bytes (n : nat) (z : Z) : list Z :=
  match n with
  | O => []
  | S n => u8 z :: le_bytes n (Z.shiftr z 8)
  end.

Fixpoint le_val (l : list Z) : Z :=
  match l with
  | [] => 0
  | b :: l => b + 2 ^ 8 * le_val l
  end.

Definition be_val (l : list Z) : Z := le_val (reverse l).

Lemma le_bytes_length n z : length (le_bytes n z) = n.
Proof. revert z. induction n; simpl; auto. Qed.

Lemma le_bytes_bytes n z : bytes (le_bytes n z).
Proof. revert z. induction n; simpl; auto with bolty. Qed.

#[export] Hint Resolve le_bytes_bytes : bolty.

Lemma le_val_bytes n z : le_val (le_bytes n z) = z mod 2 ^ (8 * Z.of_nat n).
Proof.
  revert z. induction n as [|n IH]; intros z; simpl le_bytes; simpl le_val.
  - change (2 ^ (8 * Z.of_nat 0)) with 1. by rewrite Z.mod_1_r.
  - rewrite IH, Z.shiftr_div_pow2 by lia. unfold u8.
    replace (8 * Z.of_nat (S n)) with (8 + 8 * Z.of_nat n) by lia.
    rewrite Z.pow_add_r by lia.
    rewrite Z.rem_mul_r by (try apply Z.pow_nonzero; lia). done.
Qed.

Lemma le_bytes_val l : bytes l → le_bytes (length l) (le_val l) = l.
Proof.
  induction 1 as [|b l Hb _ IH]; simpl; [done|].
  unfold is_u8 in Hb. f_equal.
  - unfold u8. rewrite (Z.mul_comm (2 ^ 8)), Z.mod_add by lia.
    apply Z.mod_small. lia.
  - rewrite Z.shiftr_div_pow2, (Z.mul_comm (2 ^ 8)), Z.div_add by lia.
    by rewrite Z.div_small, Z.add_0_l by lia.
Qed.

Lemma le_bytes_inj n a b :
  0 ≤ a < 2 ^ (8 * Z.of_nat n) → 0 ≤ b < 2 ^ (8 * Z.of_nat n) →
  le_bytes n a = le_bytes n b → a = b.
Proof.
  intros Ha Hb H. apply (f_equal le_val) in H.
  rewrite !le_val_bytes, !Z.mod_small in H by lia. done.
Qed.

Lemma le_val_bound l : bytes l → 0 ≤ le_val l < 2 ^ (8 * Z.of_nat (length l)).
Proof.
  induction 1 as [|b l Hb _ IH]; simpl le_val; simpl length; [simpl; lia|].
  replace (8 * Z.of_nat (S (length l))) with (8 + 8 * Z.of_nat (length l)) by lia.
  rewrite Z.pow_add_r by lia. unfold is_u8 in Hb. nia.
Qed.

(** ** Constant-time comparison

    The accumulator loop [diff |= l ^ r] used by [same_uid] and
    [constant_time_eq] tests equality. *)

Fixpoint ct_diff (acc : Z) (l r : list Z) : Z :=
  match l, r with
  | x :: l, y :: r => ct_diff (Z.lor acc (Z.lxor x y)) l r
  | _, _ => acc
  end.

Lemma ct_diff_zero acc l r :
  length l = length r → ct_diff acc l r = 0 ↔ acc = 0 ∧ l = r.
Proof.
  revert acc r. induction l as [|x l IH]; intros acc [|y r] Hlen; simpl in *;
    try lia; [naive_solver|].
  rewrite IH by lia. rewrite lor_eq_0, lxor_eq_0. naive_solver.
Qed.

(** ** List facts *)

Lemma take_app_exact {A} (l k : list A) n : length l = n → take n (l ++ k) = l.
Proof. intros <-. by rewrite take_app_length. Qed.

Lemma drop_app_exact {A} (l k : list A) n : length l = n → drop n (l ++ k) = k.
Proof. intros <-. by rewrite drop_app_length. Qed.

(** [slice.get(a..b)]: [None] when the range is out of bounds. *)
Definition get_range {A} (l : list A) (a b : nat) : option (list A) :=
  if decide (a ≤ b ∧ b ≤ length l)%nat then Some (take (b - a) (drop a l)) else None.

Lemma get_range_length {A} (l : list A) a b r :
  get_range l a b = Some r → (length r = b - a)%nat.
Proof.
  unfold get_range. case_decide; [|done]. intros [= <-].
  rewrite length_take, length_drop. lia.
Qed.

(** Byte-wise exclusive or, as long as both have bytes. *)
Fixpoint xor_bytes (a b : list Z) : list Z :=
  match a, b with x :: a, y :: b => Z.lxor x y :: xor_bytes a b | _, _ => [] end.

Lemma xor_bytes_length a b : length (xor_bytes a b) = Nat.min (length a) (length b).
Proof. revert b. induction a as [|x a IH]; intros [|y b]; simpl; [done..|]. by rewrite IH. Qed.

Lemma lxor_lt_pow2 n x y : 0 ≤ n → 0 ≤ x < 2 ^ n → 0 ≤ y < 2 ^ n → 0 ≤ Z.lxor x y < 2 ^ n.
Proof.
  intros Hn Hx Hy. split; [by apply Z.lxor_nonneg; lia|].
  destruct (decide (n = 0)) as [->|]; [by replace x with 0 by lia; replace y with 0 by lia|].
  destruct (decide (Z.lxor x y = 0)) as [->|Hne]; [lia|].
  assert (0 ≤ Z.lxor x y) by (apply Z.lxor_nonneg; lia).
  apply Z.log2_lt_pow2; [lia|]. eapply Z.le_lt_trans; [apply Z.log2_lxor; lia|].
  apply Z.max_lub_lt; destruct (decide (x = 0)) as [->|], (decide (y = 0)) as [->|];
    try (simpl; lia); apply Z.log2_lt_pow2; lia.
Qed.

Lemma lxor_u8 x y : is_u8 x → is_u8 y → is_u8 (Z.lxor x y).
Proof. by apply lxor_lt_pow2. Qed.

Lemma xor_bytes_bytes a b : bytes a → bytes b → bytes (xor_bytes a b).
Proof.
  intros Ha. revert b. induction Ha as [|x a Hx _ IH]; intros ? [|y b Hy Hb]; simpl; try by constructor.
  constructor; [by apply lxor_u8|by apply IH].
Qed.
#[export] Hint Resolve xor_bytes_bytes : bolty.

Lemma xor_bytes_cancel a b : (length a ≤ length b)%nat → xor_bytes (xor_bytes a b) b = a.
Proof.
  revert b. induction a as [|x a IH]; intros [|y b]; simpl; try done; [lia|]. intros ?.
  rewrite Z.lxor_assoc, Z.lxor_nilpotent, Z.lxor_0_r, IH by lia. done.
Qed.

(** [dst[off..off + src.len()].copy_from_slice(src)] for an in-range window. *)
Definition copy_at (off : nat) (src dst : list Z) : list Z :=
  take off dst ++ src ++ drop (off + length src) dst.

Lemma copy_at_length off src dst :
  (off + length src ≤ length dst)%nat → length (copy_at off src dst) = length dst.
Proof.
  intros. unfold copy_at. rewrite !length_app, length_take, length_drop. lia.
Qed.
