(* ===== verification/Str.v ===== *)
(** * The [core::str] and [heapless::String] operations the code uses

    A [&str] is the list of its UTF-8 bytes.  Every delimiter the sources
    search for is ASCII, and an ASCII byte never occurs inside a multi-byte
    UTF-8 sequence, so scanning bytes and scanning [char]s agree. *)

From S2P Require Import Prelude.

(** Byte-string literals, [b"..."] and ["..."]. *)
Definition byte_of_ascii (a : ascii) : Z := Z.of_N (N_of_ascii a).
Definition lit (s : string) : list Z := byte_of_ascii <$> String.list_ascii_of_string s.

Lemma lit_bytes s : bytes (lit s).
Proof.
  unfold lit, bytes. rewrite Forall_fmap. apply Forall_true. intros a. simpl.
  unfold is_u8, byte_of_ascii. pose proof (N_ascii_bounded a). lia.
Qed.
#[export] Hint Resolve lit_bytes : bolty.

(** ** Prefixes, search, replacement *)

Fixpoint strip_prefix (p s : list Z) : option (list Z) :=
  match p, s with
  | [], _ => Some s
  | x :: p, y :: s => if decide (x = y) then strip_prefix p s else None
  | _ :: _, [] => None
  end.

Definition starts_with (p s : list Z) : bool :=
  match strip_prefix p s with Some _ => true | None => false end.

Fixpoint contains (p s : list Z) : bool :=
  starts_with p s || match s with [] => false | _ :: s => contains p s end.

(** [str::replace]: non-overlapping matches from the left; [skip] counts the
    bytes of the match being consumed.  The pattern must not be empty. *)
Fixpoint replace_from (skip : nat) (p r s : list Z) : list Z :=
  match s with
  | [] => []
  | c :: s' =>
      match skip with
      | S k => replace_from k p r s'
      | O => if starts_with p s then r ++ replace_from (length p - 1) p r s'
             else c :: replace_from 0 p r s'
      end
  end.

Definition replace (p r s : list Z) : list Z := replace_from 0 p r s.

Lemma strip_prefix_spec p s r : strip_prefix p s = Some r ↔ s = p ++ r.
Proof.
  revert s r. induction p as [|x p IH]; intros [|y s] r; simpl; try naive_solver.
  case_decide; subst; rewrite ?IH; naive_solver.
Qed.

Lemma starts_with_spec p s : starts_with p s = true ↔ p `prefix_of` s.
Proof.
  unfold starts_with, prefix. destruct (strip_prefix p s) as [r|] eqn:H.
  - apply strip_prefix_spec in H. naive_solver.
  - split; [done|]. intros [k Hk]. apply strip_prefix_spec in Hk. congruence.
Qed.

Lemma contains_spec p s : contains p s = true ↔ ∃ a b, s = a ++ p ++ b.
Proof.
  induction s as [|c s IH]; cbn [contains]; rewrite orb_true_iff, starts_with_spec.
  - split.
    + intros [[k Hk]|?]; [|done]. exists [], k. done.
    + intros (a & b & H). symmetry in H. apply app_eq_nil in H as [-> H].
      apply app_eq_nil in H as [-> ->]. left. by exists [].
  - rewrite IH. split.
    + intros [[k Hk]|(a & b & ->)]; [by exists [], k|]. by exists (c :: a), b.
    + intros ([|x a] & b & H); simplify_eq/=; [left; by exists b|]. right. by exists a, b.
Qed.

Lemma contains_mid p a b : contains p (a ++ p ++ b) = true.
Proof. apply contains_spec. eauto. Qed.

Lemma contains_false_cons p c s :
  contains p (c :: s) = false → starts_with p (c :: s) = false ∧ contains p s = false.
Proof. cbn [contains]. rewrite orb_false_iff. done. Qed.

Lemma replace_absent p r s : contains p s = false → replace p r s = s.
Proof.
  unfold replace. induction s as [|c s IH]; [done|]. intros H.
  apply contains_false_cons in H as [H1 H2].
  simpl replace_from. rewrite H1. f_equal. auto.
Qed.

(** ** ASCII case and whitespace *)

Definition to_ascii_lowercase (c : Z) : Z :=
  if decide (65 ≤ c ≤ 90) then c + 32 else c.

Definition eq_ignore_ascii_case (a b : list Z) : bool :=
  bool_decide (to_ascii_lowercase <$> a = to_ascii_lowercase <$> b).

(** [is_ascii_whitespace]: space, \t, \n, \x0C, \r. *)
Definition is_ascii_whitespace (c : Z) : bool :=
  bool_decide (c = 32 ∨ c = 9 ∨ c = 10 ∨ c = 12 ∨ c = 13).

(** [split_ascii_whitespace]: the maximal runs of non-whitespace bytes. *)
Fixpoint split_ws (cur s : list Z) : list (list Z) :=
  match s with
  | [] => match cur with [] => [] | _ => [cur] end
  | c :: s =>
      if is_ascii_whitespace c
      then match cur with [] => split_ws [] s | _ => cur :: split_ws [] s end
      else split_ws (cur ++ [c]) s
  end.

Definition split_ascii_whitespace (s : list Z) : list (list Z) := split_ws [] s.

(** UTF-8 encodings of the [White_Space] characters that [str::trim] removes. *)
Definition ws_encodings : list (list Z) :=
  [[9]; [10]; [11]; [12]; [13]; [32]; [0xC2; 0x85]; [0xC2; 0xA0];
   [0xE1; 0x9A; 0x80];
   [0xE2; 0x80; 0x80]; [0xE2; 0x80; 0x81]; [0xE2; 0x80; 0x82]; [0xE2; 0x80; 0x83];
   [0xE2; 0x80; 0x84]; [0xE2; 0x80; 0x85]; [0xE2; 0x80; 0x86]; [0xE2; 0x80; 0x87];
   [0xE2; 0x80; 0x88]; [0xE2; 0x80; 0x89]; [0xE2; 0x80; 0x8A];
   [0xE2; 0x80; 0xA8]; [0xE2; 0x80; 0xA9]; [0xE2; 0x80; 0xAF];
   [0xE2; 0x81; 0x9F]; [0xE3; 0x80; 0x80]].

Fixpoint strip_any (ps : list (list Z)) (s : list Z) : option (list Z) :=
  match ps with
  | [] => None
  | p :: ps => match strip_prefix p s with Some r => Some r | None => strip_any ps s end
  end.

(** [fuel] bounds the number of removed characters; the length of the string
    is enough, each removal shortens it. *)
Fixpoint strip_all (fuel : nat) (ps : list (list Z)) (s : list Z) : list Z :=
  match fuel with
  | O => s
  | S fuel => match strip_any ps s with Some r => strip_all fuel ps r | None => s end
  end.

Definition trim_start (s : list Z) : list Z := strip_all (length s) ws_encodings s.
Definition trim_end (s : list Z) : list Z :=
  reverse (strip_all (length s) (reverse <$> ws_encodings) (reverse s)).
Definition trim (s : list Z) : list Z := trim_end (trim_start s).

(** Text without white space and without multi-byte characters. *)
Definition graphic (c : Z) : Prop := 32 < c < 127.

Lemma strip_any_graphic ps c s :
  graphic c → Forall (λ p, ∃ d q, p = d :: q ∧ ¬ graphic d) ps → strip_any ps (c :: s) = None.
Proof.
  intros Hc. induction 1 as [|p ps (d & q & -> & Hd) _ IH]; [done|]. cbn [strip_any strip_prefix].
  rewrite decide_False by (intros ->; done). done.
Qed.

Lemma strip_all_graphic n ps s :
  Forall graphic s → Forall (λ p, ∃ d q, p = d :: q ∧ ¬ graphic d) ps → strip_all n ps s = s.
Proof.
  intros Hs Hps. destruct n as [|n]; [done|]. cbn [strip_all].
  destruct s as [|c s]; [|rewrite strip_any_graphic; [done|by inversion Hs|done]].
  assert (strip_any ps [] = None) as ->; [|done].
  induction Hps as [|p ps (d & q & -> & _) _ IH]; [done|]. exact IH.
Qed.

Lemma trim_graphic s : Forall graphic s → trim s = s.
Proof.
  intros Hs. unfold trim, trim_end, trim_start.
  rewrite (strip_all_graphic _ ws_encodings s Hs).
  - rewrite strip_all_graphic; [apply reverse_involutive|by apply Forall_reverse|].
    repeat (constructor; [eexists _, _; split; [reflexivity|unfold graphic; lia]|]). constructor.
  - repeat (constructor; [eexists _, _; split; [reflexivity|unfold graphic; lia]|]). constructor.
Qed.

(** [trim_end_matches(c)] for an ASCII character. *)
Fixpoint drop_while_eq (c : Z) (s : list Z) : list Z :=
  match s with
  | x :: s' => if decide (x = c) then drop_while_eq c s' else s
  | [] => []
  end.
Definition trim_end_matches (c : Z) (s : list Z) : list Z :=
  reverse (drop_while_eq c (reverse s)).

Lemma trim_end_matches_last c s x :
  x ≠ c → trim_end_matches c (s ++ [x]) = s ++ [x].
Proof.
  intros. unfold trim_end_matches. rewrite reverse_app. simpl.
  rewrite decide_False by done. rewrite reverse_cons, reverse_involutive. done.
Qed.

(** ** [str::lines] *)

Fixpoint split_on (d : Z) (cur s : list Z) : list (list Z) :=
  match s with
  | [] => [cur]
  | c :: s => if decide (c = d) then cur :: split_on d [] s else split_on d (cur ++ [c]) s
  end.

Lemma split_on_line d cur l rest :
  d ∉ l → split_on d cur (l ++ d :: rest) = (cur ++ l) :: split_on d [] rest.
Proof.
  revert cur. induction l as [|c l IH]; intros cur Hd; simpl.
  - rewrite decide_True by done. by rewrite app_nil_r.
  - rewrite decide_False by set_solver. rewrite IH by set_solver. by rewrite <-app_assoc.
Qed.

Definition strip_cr (l : list Z) : list Z :=
  match reverse l with
  | c :: r => if decide (c = 13) then reverse r else l
  | [] => []
  end.

(** A terminated line loses its newline and one carriage return before it; an
    unterminated last line is kept as it is, and only if it is not empty. *)
Definition lines (s : list Z) : list (list Z) :=
  match reverse (split_on 10 [] s) with
  | [] => []
  | last :: r =>
      (strip_cr <$> reverse r) ++ match last with [] => [] | _ => [last] end
  end.

(** ** [core::str::from_utf8] *)

Definition is_cont (c : Z) : bool := bool_decide (0x80 ≤ c ≤ 0xBF).

(** Well-formed UTF-8 (Unicode table 3-7), one sequence at a time. *)
Fixpoint utf8_valid (fuel : nat) (s : list Z) : bool :=
  match fuel with
  | O => bool_decide (s = [])
  | S fuel =>
      match s with
      | [] => true
      | a :: s =>
          if decide (0 ≤ a ≤ 0x7F) then utf8_valid fuel s
          else match s with
          | [] => false
          | b :: s =>
              if decide (0xC2 ≤ a ≤ 0xDF) then is_cont b && utf8_valid fuel s
              else match s with
              | [] => false
              | c :: s =>
                  let ok3 := (bool_decide (a = 0xE0 ∧ 0xA0 ≤ b ≤ 0xBF)
                    || bool_decide (0xE1 ≤ a ≤ 0xEC ∧ 0x80 ≤ b ≤ 0xBF)
                    || bool_decide (a = 0xED ∧ 0x80 ≤ b ≤ 0x9F)
                    || bool_decide (0xEE ≤ a ≤ 0xEF ∧ 0x80 ≤ b ≤ 0xBF)) in
                  if decide (0xE0 ≤ a ≤ 0xEF) then ok3 && is_cont c && utf8_valid fuel s
                  else match s with
                  | [] => false
                  | d :: s =>
                      (bool_decide (a = 0xF0 ∧ 0x90 ≤ b ≤ 0xBF)
                       || bool_decide (0xF1 ≤ a ≤ 0xF3 ∧ 0x80 ≤ b ≤ 0xBF)
                       || bool_decide (a = 0xF4 ∧ 0x80 ≤ b ≤ 0x8F))
                      && is_cont c && is_cont d && utf8_valid fuel s
                  end
              end
          end
      end
  end.

(** The length is enough fuel: each step consumes at least one byte. *)
Definition from_utf8 (s : list Z) : option (list Z) :=
  if utf8_valid (length s) s then Some s else None.

Lemma from_utf8_ascii s : Forall (λ c, 0 ≤ c ≤ 0x7F) s → from_utf8 s = Some s.
Proof.
  intros H. unfold from_utf8.
  assert (utf8_valid (length s) s = true) as ->; [|done].
  induction H; simpl; [done|]. rewrite decide_True by done. done.
Qed.

Lemma from_utf8_id s r : from_utf8 s = Some r → r = s.
Proof. unfold from_utf8. case_match; naive_solver. Qed.

(** ** [heapless::String<N>] *)

(** [push_str]: all or nothing against the byte capacity. *)
Definition push_str (cap : nat) (buf s : list Z) : option (list Z) :=
  if decide (length buf + length s ≤ cap)%nat then Some (buf ++ s) else None.

(** [String::try_from] of a [&str]. *)
Definition heapless_from (cap : nat) (s : list Z) : option (list Z) := push_str cap [] s.

Lemma heapless_from_spec cap s r :
  heapless_from cap s = Some r ↔ r = s ∧ (length s ≤ cap)%nat.
Proof. unfold heapless_from, push_str. simpl. case_decide; naive_solver. Qed.

(** [char::encode_utf8] of a byte taken as a [char] (U+0000..U+00FF). *)
Definition char_of_byte (b : Z) : list Z :=
  if decide (b < 0x80) then [b]
  else [Z.lor 0xC0 (Z.shiftr b 6); Z.lor 0x80 (Z.land b 0x3F)].

Definition push_char (cap : nat) (buf : list Z) (b : Z) : option (list Z) :=
  push_str cap buf (char_of_byte b).

(** ** [core::fmt] *)

(** Decimal rendering of an unsigned integer; the number of bits is enough
    fuel for its decimal digits. *)
Fixpoint show_dec (fuel : nat) (z : Z) : list Z :=
  match fuel with
  | O => []
  | S fuel => (if decide (z < 10) then [] else show_dec fuel (z / 10)) ++ [48 + z mod 10]
  end.
Definition show_uint (z : Z) : list Z := show_dec (S (Z.to_nat (Z.log2 z))) z.

Lemma show_dec_digits fuel z : 0 ≤ z → Forall (λ c, 48 ≤ c ≤ 57) (show_dec fuel z).
Proof.
  revert z. induction fuel as [|fuel IH]; intros z Hz; simpl; [constructor|].
  apply Forall_app. split.
  - case_decide; [constructor|]. apply IH. apply Z.div_pos; lia.
  - constructor; [|constructor]. pose proof (Z.mod_pos_bound z 10). lia.
Qed.

(** [{b:02X}]: the two upper-case digits of a byte. *)
Definition HEX_UPPER : list Z := lit "0123456789ABCDEF".
Definition hex_upper (n : Z) : Z := nth (Z.to_nat n) HEX_UPPER 0.

(** Appending to a [heapless::String] through [fmt::Write] or [push_str]: the
    buffer is unchanged when the text does not fit. *)
Definition push (cap : nat) (s : list Z) : M (list Z) () () := λ buf,
  match push_str cap buf s with
  | Some buf => (Ok (), buf)
  | None => (Err (), buf)
  end.

(** [out.push_str(s).ok()]: a failed append is ignored. *)
Definition put (cap : nat) (buf s : list Z) : list Z := (push cap s buf).2.

Lemma put_fits cap buf s : (length buf + length s ≤ cap)%nat → put cap buf s = buf ++ s.
Proof. intros. unfold put, push, push_str. by rewrite decide_True by done. Qed.

(** [write!] of several pieces: the first that does not fit ends the write. *)
Fixpoint write_parts (cap : nat) (out : list Z) (parts : list (list Z)) : list Z :=
  match parts with
  | [] => out
  | p :: parts => match push_str cap out p with Some out => write_parts cap out parts | None => out end
  end.

Lemma write_parts_length cap out parts :
  (length out ≤ cap)%nat → (length (write_parts cap out parts) ≤ cap)%nat.
Proof.
  revert out. induction parts as [|p parts IH]; intros out Hl; simpl; [done|].
  unfold push_str. case_decide; [|done]. apply IH. rewrite length_app. lia.
Qed.

Lemma write_parts_fits cap out parts :
  (length out + length (concat parts) ≤ cap)%nat → write_parts cap out parts = out ++ concat parts.
Proof.
  revert out. induction parts as [|p parts IH]; intros out Hl; simpl in *; [by rewrite app_nil_r|].
  rewrite length_app in Hl. unfold push_str. rewrite decide_True by lia.
  rewrite IH; [by rewrite <- app_assoc|]. rewrite length_app. lia.
Qed.

(** [str::chars] on bytes: a byte with the continuation bytes that follow it. *)
Fixpoint chars (s : list Z) : list (list Z) :=
  match s with
  | [] => []
  | c :: r =>
      match chars r with
      | (d :: g) :: gs => if is_cont d then (c :: d :: g) :: gs else [c] :: (d :: g) :: gs
      | gs => [c] :: gs
      end
  end.

Lemma concat_chars s : concat (chars s) = s.
Proof.
  induction s as [|c r IH]; [done|]. cbn [chars].
  destruct (chars r) as [|[|d g] gs]; [|by simpl in *; rewrite IH|destruct (is_cont d)];
    simpl in *; by rewrite <- IH.
Qed.

(** [str::find] of a non-empty pattern: the offset of its first occurrence. *)
Fixpoint find (p s : list Z) : option nat :=
  if starts_with p s then Some 0%nat
  else match s with [] => None | _ :: s => S <$> find p s end.

Lemma find_app p a s :
  (∀ i, (i < length a)%nat → starts_with p (drop i a ++ s) = false) →
  find p (a ++ s) = (λ n, length a + n)%nat <$> find p s.
Proof.
  induction a as [|c a IH]; intros H; [simpl; by destruct (find p s)|].
  simpl app. cbn [find]. pose proof (H 0%nat ltac:(simpl; lia)) as H0. simpl in H0.
  rewrite H0, IH; [simpl; by destruct (find p s)|]. intros i Hi. apply (H (S i)). simpl. lia.
Qed.

Lemma find_here p s : starts_with p s = true → find p s = Some 0%nat.
Proof. intros H. destruct s; cbn [find]; by rewrite H. Qed.

(** [str::split_once(c)] for an ASCII character. *)
Definition split_once (d : Z) (s : list Z) : option (list Z * list Z) :=
  (λ i, (take i s, drop (S i) s)) <$> find [d] s.

(** [is_char_boundary]: the byte at the offset does not continue a character. *)
Definition is_char_boundary (s : list Z) (i : nat) : bool :=
  match s !! i with
  | Some c => negb (is_cont c)
  | None => bool_decide (i = length s)
  end.

(** ** Walking UTF-8 text *)

Definition utf8 (s : list Z) : Prop := utf8_valid (length s) s = true.

Lemma from_utf8_iff s : from_utf8 s = Some s ↔ utf8 s.
Proof. unfold from_utf8, utf8. by destruct (utf8_valid _ s). Qed.

(** Any amount of fuel above the length gives the same answer. *)
Lemma utf8_fuel n m s : (length s ≤ n)%nat → (length s ≤ m)%nat → utf8_valid n s = utf8_valid m s.
Proof.
  revert m s. induction n as [|n IH]; intros [|m] s Hn Hm; try (by destruct s; simpl in *; try lia).
  destruct s as [|a s]; [done|]. simpl in Hn, Hm. cbn [utf8_valid].
  case_decide; [apply IH; lia|]. destruct s as [|b s]; [done|]. simpl in Hn, Hm.
  case_decide; [f_equal; apply IH; lia|]. destruct s as [|c s]; [done|]. simpl in Hn, Hm.
  case_decide; [f_equal; apply IH; lia|]. destruct s as [|d s]; [done|]. simpl in Hn, Hm.
  f_equal. apply IH; lia.
Qed.

(** [utf8_char_width] of the leading byte. *)
Definition utf8_char_width (a : Z) : nat :=
  if decide (a < 0x80) then 1
  else if decide (Z.land a 0xE0 = 0xC0) then 2
  else if decide (Z.land a 0xF0 = 0xE0) then 3 else 4.

Lemma land_range (m v lo : Z) (n : nat) a :
  Forall (λ k, Z.land k m = v) (seqZ lo (Z.of_nat n)) → lo ≤ a < lo + Z.of_nat n → Z.land a m = v.
Proof. intros H Ha. rewrite Forall_forall in H. apply H, elem_of_seqZ. lia. Qed.

Lemma utf8_char_width_2 a : 0xC2 ≤ a ≤ 0xDF → utf8_char_width a = 2%nat.
Proof.
  intros H. unfold utf8_char_width. rewrite decide_False by lia.
  rewrite decide_True; [done|]. apply (land_range _ _ 0xC2 30); [by vm_compute; repeat constructor|lia].
Qed.

Lemma utf8_char_width_3 a : 0xE0 ≤ a ≤ 0xEF → utf8_char_width a = 3%nat.
Proof.
  intros H. unfold utf8_char_width. rewrite decide_False by lia.
  rewrite decide_False; [|rewrite (land_range 0xE0 0xE0 0xE0 16); [done|by vm_compute; repeat constructor|lia]].
  rewrite decide_True; [done|]. apply (land_range _ _ 0xE0 16); [by vm_compute; repeat constructor|lia].
Qed.

Lemma utf8_char_width_4 a : 0xF0 ≤ a ≤ 0xF4 → utf8_char_width a = 4%nat.
Proof.
  intros H. unfold utf8_char_width. rewrite decide_False by lia.
  rewrite decide_False; [|rewrite (land_range 0xE0 0xE0 0xF0 5); [done|by vm_compute; repeat constructor|lia]].
  rewrite decide_False; [done|]. rewrite (land_range 0xF0 0xF0 0xF0 5); [done|by vm_compute; repeat constructor|lia].
Qed.

Lemma utf8_valid_2 n a b s : 0xC2 ≤ a ≤ 0xDF →
  utf8_valid (S n) (a :: b :: s) = is_cont b && utf8_valid n s.
Proof. intros. cbn [utf8_valid]. by rewrite decide_False, decide_True by lia. Qed.

Definition ok3 (a b : Z) : bool :=
  bool_decide (a = 0xE0 ∧ 0xA0 ≤ b ≤ 0xBF) || bool_decide (0xE1 ≤ a ≤ 0xEC ∧ 0x80 ≤ b ≤ 0xBF)
  || bool_decide (a = 0xED ∧ 0x80 ≤ b ≤ 0x9F) || bool_decide (0xEE ≤ a ≤ 0xEF ∧ 0x80 ≤ b ≤ 0xBF).

Lemma utf8_valid_3 n a b c s : 0xE0 ≤ a ≤ 0xEF →
  utf8_valid (S n) (a :: b :: c :: s) = ok3 a b && is_cont c && utf8_valid n s.
Proof. intros. cbn [utf8_valid]. by rewrite !decide_False, decide_True by lia. Qed.

Definition ok4 (a b : Z) : bool :=
  bool_decide (a = 0xF0 ∧ 0x90 ≤ b ≤ 0xBF) || bool_decide (0xF1 ≤ a ≤ 0xF3 ∧ 0x80 ≤ b ≤ 0xBF)
  || bool_decide (a = 0xF4 ∧ 0x80 ≤ b ≤ 0x8F).

Lemma utf8_valid_4 n a b c d s : 0xF0 ≤ a →
  utf8_valid (S n) (a :: b :: c :: d :: s) = ok4 a b && is_cont c && is_cont d && utf8_valid n s.
Proof. intros. cbn [utf8_valid]. by rewrite !decide_False by lia. Qed.

(** Text starts with a whole character, as wide as its first byte says, and
    text follows. *)
Lemma utf8_step a s : utf8 (a :: s) →
  0 ≤ a ∧ (utf8_char_width a ≤ length (a :: s))%nat ∧ utf8 (drop (utf8_char_width a) (a :: s)) ∧
  ∀ t, utf8 t → utf8 (take (utf8_char_width a) (a :: s) ++ t).
Proof.
  unfold utf8. intros H. destruct (decide (0 ≤ a ≤ 0x7F)) as [H1|H1].
  { assert (utf8_char_width a = 1%nat) as -> by (unfold utf8_char_width; by rewrite decide_True by lia).
    cbn [length utf8_valid] in H. rewrite decide_True in H by lia. split_and!; [lia|simpl; lia|done|].
    intros t Ht.
    change (utf8_valid (length (a :: t)) (a :: t) = true). cbn [length utf8_valid]. by rewrite decide_True. }
  cbn [length] in *. destruct s as [|b s].
  { cbn [utf8_valid] in H. by rewrite decide_False in H by lia. }
  destruct (decide (0xC2 ≤ a ≤ 0xDF)) as [H2|H2].
  { cbn [length] in *. rewrite utf8_valid_2, andb_true_iff in H by lia. destruct H as [Hb H]. rewrite utf8_char_width_2 by lia.
    rewrite (utf8_fuel _ (length s)) in H by lia. split_and!; [lia|lia|done|]. intros t Ht.
    change (utf8_valid (length (a :: b :: t)) (a :: b :: t) = true). cbn [length].
    rewrite utf8_valid_2, Hb by lia. rewrite andb_true_l, (utf8_fuel _ (length t)); [done|lia..]. }
  destruct s as [|c s].
  { cbn [utf8_valid length] in H. by rewrite !decide_False in H by lia. }
  destruct (decide (0xE0 ≤ a ≤ 0xEF)) as [H3|H3].
  { cbn [length] in *. rewrite utf8_valid_3, andb_true_iff in H by lia. destruct H as [Hb H]. rewrite utf8_char_width_3 by lia.
    rewrite (utf8_fuel _ (length s)) in H by lia. split_and!; [lia|lia|done|]. intros t Ht.
    change (utf8_valid (length (a :: b :: c :: t)) (a :: b :: c :: t) = true). cbn [length].
    rewrite utf8_valid_3, Hb by lia. rewrite andb_true_l, (utf8_fuel _ (length t)); [done|lia..]. }
  destruct s as [|d s].
  { cbn [utf8_valid length] in H. by rewrite !decide_False in H by lia. }
  assert (0xF0 ≤ a ≤ 0xF4) as Ha.
  { cbn [length utf8_valid] in H. rewrite !decide_False in H by lia. fold (ok4 a b) in H.
    rewrite !andb_true_iff in H. destruct H as [[[Hb _] _] _]. unfold ok4 in Hb.
    repeat (apply orb_true_iff in Hb as [Hb|Hb]); apply bool_decide_eq_true in Hb; lia. }
  cbn [length] in *. rewrite utf8_valid_4, andb_true_iff in H by lia. destruct H as [Hb H]. rewrite utf8_char_width_4 by lia.
  rewrite (utf8_fuel _ (length s)) in H by lia. split_and!; [lia|lia|done|]. intros t Ht.
  change (utf8_valid (length (a :: b :: c :: d :: t)) (a :: b :: c :: d :: t) = true). cbn [length].
    rewrite utf8_valid_4, Hb by lia. rewrite andb_true_l, (utf8_fuel _ (length t)); [done|lia..].
Qed.

Definition is_ascii (c : Z) : Prop := 0 ≤ c ≤ 0x7F.

Lemma utf8_ascii_cons a s : is_ascii a → utf8 (a :: s) ↔ utf8 s.
Proof. intros H. unfold utf8. cbn [length utf8_valid]. by rewrite decide_True. Qed.

Lemma utf8_ascii_app l s : Forall is_ascii l → utf8 (l ++ s) ↔ utf8 s.
Proof. induction 1; [done|]. simpl. by rewrite utf8_ascii_cons. Qed.

Lemma utf8_ascii l : Forall is_ascii l → utf8 l.
Proof. intros H. rewrite <-(app_nil_r l). by apply utf8_ascii_app. Qed.

(** Induction over the characters of a text. *)
Lemma utf8_ind (P : list Z → Prop) :
  P [] → (∀ a s, utf8 (a :: s) → P (drop (utf8_char_width a) (a :: s)) → P (a :: s)) → ∀ s, utf8 s → P s.
Proof.
  intros H0 HS s. remember (length s) as n eqn:En. revert s En. induction (lt_wf n) as [n _ IH].
  intros [|a s] -> Hs; [done|]. destruct (utf8_step a s Hs) as (_ & Hw & Hd & _). apply HS; [done|].
  eapply IH; [|done|done]. rewrite length_drop. simpl in *.
  assert (0 < utf8_char_width a)%nat by (unfold utf8_char_width; repeat case_decide; lia). lia.
Qed.

Lemma utf8_app s t : utf8 s → utf8 t → utf8 (s ++ t).
Proof.
  intros Hs Ht. induction Hs as [|a s Hs IH] using utf8_ind; [done|].
  destruct (utf8_step a s Hs) as (_ & _ & _ & H). specialize (H _ IH).
  by rewrite (assoc_L (++)), take_drop in H.
Qed.
