(* ===== verification/Hex.v ===== *)
(** * Hexadecimal codec, keys and UIDs

    [crates/bolty-core/src/util.rs], [secret.rs], [uid.rs], [constants.rs]. *)

From S2P Require Import Prelude Str.

(** ** constants.rs *)

Definition FACTORY_KEY : list Z := replicate 16 0.
Definition KEY_VERSION_BLANK : Z := 0x00.
Definition UID_LEN : nat := 7.
Definition NUM_KEYS : nat := 5.
Definition KEY_VERSION_PROVISIONED : Z := 0x01.
Definition KEY_VERSION_PROTECTED : Z := 0xFF.

(** ** util.rs *)

Inductive HexError : Type := InvalidLength | InvalidHexCharacter.
#[export] Instance HexError_eq_dec : EqDecision HexError.
Proof. solve_decision. Defined.

Definition decode_hex_nibble (byte : Z) : option Z :=
  if decide (48 ≤ byte ≤ 57) then Some (byte - 48)
  else if decide (97 ≤ byte ≤ 102) then Some (byte - 97 + 10)
  else if decide (65 ≤ byte ≤ 70) then Some (byte - 65 + 10)
  else None.

(** The [for (idx, chunk)] loop over two-byte chunks; [out] keeps what was
    stored before a bad character is met. *)
Fixpoint decode_hex_loop (idx : nat) (hex out : list Z) : result () HexError * list Z :=
  match hex with
  | c0 :: c1 :: rest =>
      match decode_hex_nibble c0 with
      | None => (Err InvalidHexCharacter, out)
      | Some hi =>
          match decode_hex_nibble c1 with
          | None => (Err InvalidHexCharacter, out)
          | Some lo =>
              decode_hex_loop (S idx) rest (<[idx := Z.lor (u8 (Z.shiftl hi 4)) lo]> out)
          end
      end
  | _ => (Ok (), out)
  end.

Definition decode_hex_into (hex out : list Z) : result () HexError * list Z :=
  if decide (length hex ≠ length out * 2)%nat then (Err InvalidLength, out)
  else decode_hex_loop 0 hex out.

Definition decode_hex (n : nat) (hex : list Z) : result (list Z) HexError :=
  let '(r, out) := decode_hex_into hex (replicate n 0) in
  match r with Ok _ => Ok out | Err e => Err e end.

Definition HEX_LOWER : list Z := lit "0123456789abcdef".

Definition hex_digit (n : Z) : Z := nth (Z.to_nat n) HEX_LOWER 0.

Fixpoint encode_hex_loop (i : nat) (input out : list Z) : list Z :=
  match input with
  | [] => out
  | b :: input =>
      encode_hex_loop (S i) input
        (<[(i * 2 + 1)%nat := hex_digit (Z.land b 0xf)]>
           (<[(i * 2)%nat := hex_digit (Z.shiftr b 4)]> out))
  end.

(** Returns the number of bytes written and the new content of [out]. *)
Definition encode_hex_into (input out : list Z) : nat * list Z :=
  let max := (length input `min` (length out `div` 2))%nat in
  ((max * 2)%nat, encode_hex_loop 0 (take max input) out).

Definition encode_hex (input : list Z) : list Z :=
  b ← input; [hex_digit (Z.shiftr b 4); hex_digit (Z.land b 0xf)].

(** ** Lemmas on single digits *)

Definition is_nibble (n : Z) : Prop := 0 ≤ n < 16.

Lemma decode_hex_nibble_range c n : decode_hex_nibble c = Some n → is_nibble n.
Proof. unfold decode_hex_nibble, is_nibble. repeat case_decide; intros [=]; lia. Qed.

(** Enumeration of the sixteen nibble values. *)
Lemma nibble_cases n : is_nibble n → n ∈ [0;1;2;3;4;5;6;7;8;9;10;11;12;13;14;15].
Proof.
  unfold is_nibble. intros.
  assert (n = 0 ∨ n = 1 ∨ n = 2 ∨ n = 3 ∨ n = 4 ∨ n = 5 ∨ n = 6 ∨ n = 7 ∨ n = 8 ∨ n = 9 ∨
    n = 10 ∨ n = 11 ∨ n = 12 ∨ n = 13 ∨ n = 14 ∨ n = 15) by lia.
  set_solver.
Qed.

Ltac by_nibble H :=
  apply nibble_cases in H;
  repeat (apply elem_of_cons in H as [->|H]; [vm_compute; reflexivity|]);
  by apply not_elem_of_nil in H.

Lemma decode_hex_digit n : is_nibble n → decode_hex_nibble (hex_digit n) = Some n.
Proof. intros H. by_nibble H. Qed.

Lemma hex_digit_val n :
  is_nibble n → hex_digit n = if decide (n < 10) then 48 + n else 87 + n.
Proof. intros H. by_nibble H. Qed.

Lemma hex_digit_decode c n :
  decode_hex_nibble c = Some n → hex_digit n = to_ascii_lowercase c.
Proof.
  intros H. rewrite hex_digit_val by (by eapply decode_hex_nibble_range).
  revert H. unfold decode_hex_nibble, to_ascii_lowercase.
  repeat case_decide; intros [= <-]; lia.
Qed.

Lemma high_nibble b : is_u8 b → is_nibble (Z.shiftr b 4).
Proof. unfold is_u8, is_nibble. rewrite Z.shiftr_div_pow2 by lia. intros.
  split; [apply Z.div_pos; lia|apply Z.div_lt_upper_bound; lia]. Qed.

Lemma low_nibble b : is_nibble (Z.land b 0xf).
Proof. unfold is_nibble. change 0xf with (Z.ones 4). by apply land_lt_pow2. Qed.

#[export] Hint Resolve high_nibble low_nibble : bolty.

(** ** Reference decoder: the pairs of digits, without a buffer *)

Fixpoint hex_pairs (hex : list Z) : option (list Z) :=
  match hex with
  | c0 :: c1 :: rest =>
      hi ← decode_hex_nibble c0;
      lo ← decode_hex_nibble c1;
      l ← hex_pairs rest;
      Some (Z.lor (Z.shiftl hi 4) lo :: l)
  | _ => Some []
  end.

(** Induction two characters at a time. *)
Lemma pairs_ind (P : list Z → Prop) :
  P [] → (∀ c, P [c]) → (∀ c0 c1 l, P l → P (c0 :: c1 :: l)) → ∀ l, P l.
Proof.
  intros H0 H1 H2. assert (∀ l, P l ∧ ∀ c, P (c :: l)) as H; [|naive_solver].
  induction l as [|c l [IH1 IH2]]; split; auto.
Qed.

Lemma shiftl_nibble n : is_nibble n → u8 (Z.shiftl n 4) = Z.shiftl n 4.
Proof.
  intros H. apply u8_id. unfold is_u8, is_nibble in *.
  rewrite Z.shiftl_mul_pow2 by lia. lia.
Qed.

Lemma decode_hex_loop_spec hex : ∀ idx out,
  (length out * 2 = idx * 2 + length hex)%nat →
  match hex_pairs hex with
  | Some l => decode_hex_loop idx hex out = (Ok (), take idx out ++ l)
  | None => (decode_hex_loop idx hex out).1 = Err InvalidHexCharacter
  end.
Proof.
  induction hex as [|c|c0 c1 hex IH] using pairs_ind; intros idx out Hlen; simpl in *.
  - rewrite app_nil_r, take_ge by lia. done.
  - lia.
  - destruct (decode_hex_nibble c0) as [hi|] eqn:H0; simpl; [|done].
    destruct (decode_hex_nibble c1) as [lo|] eqn:H1; simpl; [|done].
    rewrite shiftl_nibble by (by eapply decode_hex_nibble_range).
    set (v := Z.lor _ _). specialize (IH (S idx) (<[idx:=v]> out)).
    rewrite length_insert in IH. specialize (IH ltac:(lia)).
    destruct (hex_pairs hex) as [l|]; simpl; [|done].
    rewrite IH. f_equal. rewrite (take_S_r _ _ v), take_insert_ge by
      (rewrite ?list_lookup_insert_eq; done || lia).
    by rewrite <-app_assoc.
Qed.

(** The in-place decoder is the reference decoder behind a length check. *)
Lemma decode_hex_eq n hex :
  decode_hex n hex =
    if decide (length hex ≠ n * 2)%nat then Err InvalidLength
    else ok_or (hex_pairs hex) InvalidHexCharacter.
Proof.
  unfold decode_hex, decode_hex_into. rewrite length_replicate.
  case_decide; [done|].
  pose proof (decode_hex_loop_spec hex 0 (replicate n 0)) as H'.
  rewrite length_replicate in H'. specialize (H' ltac:(lia)).
  destruct (hex_pairs hex) as [l|]; simpl.
  - by rewrite H'.
  - destruct (decode_hex_loop _ _ _) as [[?|e] ?]; simpl in *; [done|]. by simplify_eq.
Qed.

Lemma encode_hex_cons b l :
  encode_hex (b :: l) =
    hex_digit (Z.shiftr b 4) :: hex_digit (Z.land b 0xf) :: encode_hex l.
Proof. done. Qed.

Lemma hex_pairs_encode l : bytes l → hex_pairs (encode_hex l) = Some l.
Proof.
  induction 1 as [|b l Hb _ IH]; [done|]. rewrite encode_hex_cons. cbn [hex_pairs].
  rewrite !decode_hex_digit by auto with bolty. simpl. rewrite IH. simpl.
  by rewrite nibbles_join.
Qed.

Lemma encode_hex_length l : length (encode_hex l) = (length l * 2)%nat.
Proof. induction l as [|b l IH]; [done|]. rewrite encode_hex_cons. simpl. lia. Qed.

(** The alphabet of numbers and hex dumps. *)
Definition hexish (c : Z) : Prop := 48 ≤ c ≤ 57 ∨ 97 ≤ c ≤ 102.

Lemma encode_hex_hexish l : bytes l → Forall hexish (encode_hex l).
Proof.
  induction 1 as [|b l Hb _ IH]; [constructor|]. rewrite encode_hex_cons.
  assert (∀ n, is_nibble n → hexish (hex_digit n)) as Hd.
  { intros n Hn. rewrite hex_digit_val by done. unfold hexish, is_nibble in *. case_decide; lia. }
  constructor; [auto with bolty|]. constructor; [auto with bolty|done].
Qed.

Lemma hexish_not_in x l : Forall hexish l → ¬ hexish x → x ∉ l.
Proof. rewrite Forall_forall. intros H Hx Hin. by apply Hx, H. Qed.

Lemma join_nibbles_split hi lo :
  is_nibble hi → is_nibble lo →
  Z.shiftr (Z.lor (Z.shiftl hi 4) lo) 4 = hi ∧ Z.land (Z.lor (Z.shiftl hi 4) lo) 0xf = lo.
Proof.
  intros Hh Hl. apply nibble_cases in Hh, Hl.
  repeat (apply elem_of_cons in Hh as [->|Hh]; [
    repeat (apply elem_of_cons in Hl as [->|Hl]; [by vm_compute|]);
    by apply not_elem_of_nil in Hl|]).
  by apply not_elem_of_nil in Hh.
Qed.

Lemma hex_pairs_bytes hex l : hex_pairs hex = Some l → bytes l.
Proof.
  revert l. induction hex as [|c|c0 c1 hex IH] using pairs_ind; simpl;
    intros l H; simplify_eq; auto with bolty.
  apply bind_Some in H as (hi & Hhi & H). apply bind_Some in H as (lo & Hlo & H).
  apply bind_Some in H as (l' & Hl' & [= <-]). apply bytes_cons; [|auto].
  apply decode_hex_nibble_range in Hhi, Hlo. unfold is_u8, is_nibble in *.
  pose proof (Z.add_lor_land (Z.shiftl hi 4) lo).
  assert (0 ≤ Z.land (Z.shiftl hi 4) lo) by (apply Z.land_nonneg; lia).
  assert (0 ≤ Z.lor (Z.shiftl hi 4) lo) by
    (apply Z.lor_nonneg; split; [apply Z.shiftl_nonneg|]; lia).
  rewrite Z.shiftl_mul_pow2 in * by lia. lia.
Qed.

Lemma hex_pairs_length hex l :
  hex_pairs hex = Some l → length l = (length hex `div` 2)%nat.
Proof.
  revert l. induction hex as [|c|c0 c1 hex IH] using pairs_ind; cbn [hex_pairs];
    intros l H; simplify_eq; auto.
  apply bind_Some in H as (hi & Hhi & H). apply bind_Some in H as (lo & Hlo & H).
  apply bind_Some in H as (l' & Hl' & [= <-]). cbn [length]. rewrite (IH l') by done.
  replace (S (S (length hex))) with (1 * 2 + length hex)%nat by lia.
  rewrite Nat.div_add_l by lia. done.
Qed.

Lemma encode_hex_loop_spec input : ∀ i out,
  (i * 2 + length input * 2 ≤ length out)%nat →
  encode_hex_loop i input out =
    take (i * 2) out ++ encode_hex input ++ drop (i * 2 + length input * 2) out.
Proof.
  induction input as [|b input IH]; intros i out Hlen; cbn [encode_hex_loop length].
  - change (encode_hex []) with (@nil Z). simpl.
    rewrite Nat.add_0_r. by rewrite take_drop.
  - rewrite IH by (rewrite !length_insert; simpl in *; lia). rewrite encode_hex_cons.
    simpl length in Hlen.
    set (o1 := <[(i * 2)%nat:=_]> out). set (v := hex_digit (Z.land b 15)).
    rewrite !drop_insert_lt by lia.
    replace (S i * 2)%nat with (S (S (i * 2))) by lia.
    replace (i * 2 + 1)%nat with (S (i * 2)) by lia.
    rewrite (take_S_r _ _ v) by (rewrite list_lookup_insert_eq; [done|];
      unfold o1; rewrite length_insert; lia).
    rewrite take_insert_ge by lia.
    rewrite (take_S_r o1 _ (hex_digit (Z.shiftr b 4))) by
      (apply list_lookup_insert_eq; lia).
    unfold o1. rewrite take_insert_ge by lia.
    rewrite <-!app_assoc. simpl. rewrite drop_insert_lt by lia. do 4 f_equal. f_equal. lia.
Qed.

(** ** Keys and UIDs (secret.rs, uid.rs) *)

(** [AesKey] and [CardUid] are newtypes over byte arrays. *)
Definition AesKey : Type := list Z.
Definition CardUid : Type := list Z.

Definition AesKey_zeroed : AesKey := replicate 16 0.
Definition AesKey_is_zero (k : AesKey) : bool := bool_decide (k = replicate 16 0).
Definition AesKey_from_hex (s : list Z) : result AesKey HexError := decode_hex 16 s.

(** [Drop for AesKey]: [self.0.zeroize()] clears the storage in place. *)
Definition AesKey_drop (k : AesKey) : list Z := replicate (length k) 0.

Record CardKeys : Type := mkCardKeys {
  k0 : AesKey; k1 : AesKey; k2 : AesKey; k3 : AesKey; k4 : AesKey }.
#[export] Instance CardKeys_eq_dec : EqDecision CardKeys.
Proof. solve_decision. Defined.

Definition CardKeys_zeroed : CardKeys :=
  mkCardKeys AesKey_zeroed AesKey_zeroed AesKey_zeroed AesKey_zeroed AesKey_zeroed.

Definition CardUid_from_hex (s : list Z) : result CardUid HexError := decode_hex UID_LEN s.
Definition CardUid_display (uid : CardUid) : list Z := encode_hex uid.

(** ** Properties *)

(** Decoding inverts encoding: the lower-case hex text of any byte string
    decodes, into a buffer of its length, to that byte string. *)
Theorem hex_decode_encode (l : list Z) :
  bytes l → decode_hex (length l) (encode_hex l) = Ok l.
Proof.
  intros. rewrite decode_hex_eq, encode_hex_length, decide_False by lia.
  by rewrite hex_pairs_encode.
Qed.

Lemma encode_hex_pairs hex l :
  hex_pairs hex = Some l → Nat.even (length hex) = true →
  encode_hex l = to_ascii_lowercase <$> hex.
Proof.
  revert l. induction hex as [|c|c0 c1 hex IH] using pairs_ind; simpl;
    intros l H Hev; simplify_eq; [done..|].
  apply bind_Some in H as (hi & Hhi & H). apply bind_Some in H as (lo & Hlo & H).
  apply bind_Some in H as (l' & Hl' & [= <-]). rewrite encode_hex_cons.
  destruct (join_nibbles_split hi lo) as [-> ->]; [by eapply decode_hex_nibble_range..|].
  by rewrite (hex_digit_decode c0), (hex_digit_decode c1), (IH l').
Qed.

Lemma decode_hex_ok n hex l :
  decode_hex n hex = Ok l → length hex = (n * 2)%nat ∧ array n l.
Proof.
  rewrite decode_hex_eq. case_decide as Hlen; [done|].
  assert (length hex = n * 2)%nat as E by lia. clear Hlen.
  destruct (hex_pairs hex) as [l'|] eqn:H; simpl; [|done]. intros [= <-].
  split; [done|]. split; [|by eapply hex_pairs_bytes].
  apply hex_pairs_length in H as ->. rewrite E. by rewrite Nat.div_mul.
Qed.

(** What [decode_hex] accepts: it succeeds with [l] exactly when the text
    has two digits per byte and re-encoding [l] gives the text back up to the
    case of its letters; the two error values separate a wrong length from a
    character outside the hexadecimal alphabet. *)
Theorem decode_hex_total (n : nat) (hex : list Z) :
  match decode_hex n hex with
  | Ok l => length hex = (n * 2)%nat ∧ array n l ∧ encode_hex l = to_ascii_lowercase <$> hex
  | Err InvalidLength => length hex ≠ (n * 2)%nat
  | Err InvalidHexCharacter =>
      length hex = (n * 2)%nat ∧ Exists (λ c, decode_hex_nibble c = None) hex
  end.
Proof.
  pose proof (decode_hex_ok n hex) as Hok. revert Hok.
  rewrite decode_hex_eq. case_decide as Hlen; [done|].
  assert (length hex = n * 2)%nat as E by lia. clear Hlen.
  destruct (hex_pairs hex) as [l|] eqn:H; simpl; intros Hok.
  - split; [done|]. split.
    + by apply Hok.
    + apply encode_hex_pairs; [done|]. rewrite E, Nat.even_mul. by rewrite orb_comm.
  - split; [done|]. clear E Hok. induction hex as [|c|c0 c1 hex IH] using pairs_ind; simpl in H; try done.
    destruct (decode_hex_nibble c0) eqn:H0; [|by left].
    destruct (decode_hex_nibble c1) eqn:H1; [|by right; left].
    right; right. apply IH. by destruct (hex_pairs hex).
Qed.

(** The buffer encoder [encode_hex_into] agrees with the allocating
    [encode_hex]: it writes the encoding of as many whole input bytes as fit,
    reports twice that number and leaves the rest of the buffer untouched. *)
Theorem encode_hex_into_spec (input out : list Z) :
  let n := (length input `min` (length out `div` 2))%nat in
  encode_hex_into input out =
    ((n * 2)%nat, encode_hex (take n input) ++ drop (n * 2) out).
Proof.
  intros n. unfold encode_hex_into. fold n.
  pose proof (Nat.Div0.mul_div_le (length out) 2).
  rewrite encode_hex_loop_spec.
  - rewrite length_take. simpl. do 2 f_equal. f_equal. lia.
  - rewrite length_take. lia.
Qed.
