(* ===== verification/Derivation.v ===== *)
(** * Key derivation

    [crates/bolty-core/src/crypto.rs] and [derivation.rs]: the deterministic
    Bolt Card derivation over AES-CMAC.  AES itself comes from the [aes],
    [cmac] and [cbc] crates and enters as the class [AesCrypto]; what the
    proofs need of it are the laws [AesLaws] (RFC 4493, SP 800-38A). *)

From S2P Require Import Prelude Str Hex.

(** ** The cryptographic interface *)

Class AesCrypto : Type := {
  (** [crypto::aes_cmac]: AES-128-CMAC of a message under a 16-byte key. *)
  aes_cmac : list Z → list Z → list Z;
  (** CBC decryption and encryption of one 16-byte block, zero IV, no padding. *)
  aes_cbc_dec : list Z → list Z → list Z;
  aes_cbc_enc : list Z → list Z → list Z
}.

Class AesLaws (C : AesCrypto) : Prop := {
  aes_cmac_array k m : array 16 (aes_cmac k m);
  aes_cbc_enc_array k b : array 16 b → array 16 (aes_cbc_enc k b);
  aes_cbc_dec_enc k b : array 16 b → aes_cbc_dec k (aes_cbc_enc k b) = b;
  (** A message shorter than a block is padded injectively and enciphered by
      one application of the block permutation. *)
  aes_cmac_short_inj k m m' :
    bytes m → bytes m' → (length m < 16)%nat → (length m' < 16)%nat →
    aes_cmac k m = aes_cmac k m' → m = m'
}.

(** ** derivation.rs *)

Definition DEFAULT_BOLTCARD_VERSION : Z := 1.
Definition TAG_CARD_KEY : list Z := [0x2D; 0x00; 0x3F; 0x75].
Definition TAG_K0 : list Z := [0x2D; 0x00; 0x3F; 0x76].
Definition TAG_K1 : list Z := [0x2D; 0x00; 0x3F; 0x77].
Definition TAG_K2 : list Z := [0x2D; 0x00; 0x3F; 0x78].
Definition TAG_K3 : list Z := [0x2D; 0x00; 0x3F; 0x79].
Definition TAG_K4 : list Z := [0x2D; 0x00; 0x3F; 0x7A].
Definition TAG_CARD_ID : list Z := [0x2D; 0x00; 0x3F; 0x7B].

Inductive DerivationStrategy : Type := BoltcardDeterministic | An10922.
Inductive DerivationError : Type := UnsupportedStrategy.

Record CardKeySet : Type := mkCardKeySet {
  ks_card_key : AesKey;
  ks_k0 : AesKey; ks_k1 : AesKey; ks_k2 : AesKey; ks_k3 : AesKey; ks_k4 : AesKey;
  ks_card_id : list Z }.
#[export] Instance CardKeySet_eq_dec : EqDecision CardKeySet.
Proof. solve_decision. Defined.

Definition CardKeySet_default : CardKeySet :=
  mkCardKeySet AesKey_zeroed AesKey_zeroed AesKey_zeroed AesKey_zeroed AesKey_zeroed
    AesKey_zeroed (replicate 16 0).

(** The five card keys of a key set, as every caller copies them out. *)
Definition CardKeySet_keys (ks : CardKeySet) : CardKeys :=
  mkCardKeys (ks_k0 ks) (ks_k1 ks) (ks_k2 ks) (ks_k3 ks) (ks_k4 ks).

(** The PRF input of the card key: [message[..4]], [message[4..11]],
    [message[11..]] of a zeroed 15-byte buffer. *)
Definition card_key_message (uid : CardUid) (version : Z) : list Z :=
  copy_at 11 (le_bytes 4 version)
    (copy_at 4 uid (copy_at 0 TAG_CARD_KEY (replicate 15 0))).

Definition card_id_message (uid : CardUid) : list Z :=
  copy_at 4 uid (copy_at 0 TAG_CARD_ID (replicate 11 0)).

Section derivation.
Context `{C : AesCrypto}.

Definition derive_card_key (issuer_key : list Z) (uid : CardUid) (version : Z) : list Z :=
  aes_cmac issuer_key (card_key_message uid version).

Definition derive_card_id (issuer_key : list Z) (uid : CardUid) : list Z :=
  aes_cmac issuer_key (card_id_message uid).

Definition derive_keys (issuer_key : list Z) (uid : CardUid) (version : Z) : CardKeySet :=
  let card_key := derive_card_key issuer_key uid version in
  {| ks_card_key := card_key;
     ks_k0 := aes_cmac card_key TAG_K0;
     ks_k1 := aes_cmac issuer_key TAG_K1;
     ks_k2 := aes_cmac card_key TAG_K2;
     ks_k3 := aes_cmac card_key TAG_K3;
     ks_k4 := aes_cmac card_key TAG_K4;
     ks_card_id := derive_card_id issuer_key uid |}.

(** [impl KeyDeriver for BoltcardDeterministicDeriver]. *)
Definition KeyDeriver_derive_keys (uid : CardUid) (issuer_key : AesKey)
    (strategy : DerivationStrategy) : result CardKeys DerivationError :=
  match strategy with
  | BoltcardDeterministic =>
      Ok (CardKeySet_keys (derive_keys issuer_key uid DEFAULT_BOLTCARD_VERSION))
  | An10922 => Err UnsupportedStrategy
  end.
End derivation.

(** ** Message layout *)

Lemma card_key_message_eq uid version :
  length uid = UID_LEN →
  card_key_message uid version = TAG_CARD_KEY ++ uid ++ le_bytes 4 version.
Proof.
  intros H. unfold UID_LEN in H.
  do 7 (destruct uid as [|? uid]; [done|]). destruct uid; done.
Qed.

Lemma card_id_message_eq uid :
  length uid = UID_LEN → card_id_message uid = TAG_CARD_ID ++ uid.
Proof.
  intros H. unfold UID_LEN in H.
  do 7 (destruct uid as [|? uid]; [done|]). destruct uid; done.
Qed.

Lemma card_key_message_inj uid uid' v v' :
  length uid = UID_LEN → length uid' = UID_LEN → is_u32 v → is_u32 v' →
  card_key_message uid v = card_key_message uid' v' → uid = uid' ∧ v = v'.
Proof.
  intros Hu Hu' Hv Hv'. rewrite !card_key_message_eq by done.
  intros H. apply app_inj_1 in H as [_ H]; [|done].
  apply app_inj_1 in H as [-> H]; [|congruence]. split; [done|].
  eapply (le_bytes_inj 4); done.
Qed.

Lemma tag_bytes : bytes TAG_CARD_KEY ∧ bytes TAG_K0 ∧ bytes TAG_K1 ∧ bytes TAG_K2 ∧
  bytes TAG_K3 ∧ bytes TAG_K4 ∧ bytes TAG_CARD_ID.
Proof. repeat split; apply (bool_decide_unpack _); vm_compute; exact I. Qed.

Lemma card_key_message_bytes uid v :
  array UID_LEN uid → bytes (card_key_message uid v) ∧ length (card_key_message uid v) = 15%nat.
Proof.
  intros [Hl Hb]. destruct tag_bytes as [Ht _]. rewrite card_key_message_eq by done.
  rewrite !length_app, Hl, le_bytes_length. auto with bolty.
Qed.

Lemma card_id_message_bytes uid :
  array UID_LEN uid → bytes (card_id_message uid) ∧ length (card_id_message uid) = 11%nat.
Proof.
  intros [Hl Hb]. destruct tag_bytes as (_ & _ & _ & _ & _ & _ & Ht).
  rewrite card_id_message_eq by done. rewrite !length_app, Hl. auto with bolty.
Qed.

(** ** Properties *)

(** A concrete interface that satisfies the laws, for the witnesses: the MAC
    of a short message is the message behind its length, the block cipher is
    the identity. *)
Definition toy_mac (m : list Z) : list Z :=
  take 16 ((Z.of_nat (length m) mod 256 :: (u8 <$> m)) ++ replicate 16 0).
#[local] Instance toy_crypto : AesCrypto :=
  {| aes_cmac _ m := toy_mac m; aes_cbc_dec _ b := b; aes_cbc_enc _ b := b |}.

Lemma toy_mac_array m : array 16 (toy_mac m).
Proof.
  unfold toy_mac. split.
  - rewrite length_take, length_app, length_replicate. lia.
  - apply bytes_take, bytes_app; [|auto with bolty]. constructor.
    + unfold is_u8. apply Z.mod_pos_bound. lia.
    + rewrite Forall_fmap. apply Forall_true. intros. apply u8_is_u8.
Qed.

Lemma bytes_map_u8 m : bytes m → u8 <$> m = m.
Proof. induction 1; simpl; [done|]. rewrite u8_id by done. by f_equal. Qed.

Lemma toy_mac_short_inj m m' :
  bytes m → bytes m' → (length m < 16)%nat → (length m' < 16)%nat →
  toy_mac m = toy_mac m' → m = m'.
Proof.
  intros Hm Hm' Hl Hl'. unfold toy_mac. rewrite !bytes_map_u8 by done.
  cbn [app take]. intros [= H0 H].
  rewrite !Z.mod_small in H0 by lia.
  assert (length m = length m') as E by lia.
  apply (f_equal (take (length m))) in H.
  rewrite !take_take, !(Nat.min_l (length m)) in H by lia.
  by rewrite (take_app_exact _ _ (length m)), E, take_app_exact in H.
Qed.

#[local] Instance toy_laws : AesLaws toy_crypto.
Proof.
  constructor; simpl; intros; auto using toy_mac_array.
  by apply toy_mac_short_inj.
Qed.

(** Different short messages under one key give different MACs. *)
Lemma NoDup_cmac_tags {C : AesCrypto} `{!AesLaws C} k (ts : list (list Z)) :
  Forall bytes ts → Forall (λ t, length t < 16)%nat ts → NoDup ts →
  NoDup (aes_cmac k <$> ts).
Proof.
  intros Hb Hl Hd. rewrite !Forall_forall in *. apply NoDup_fmap_2_strong; [|done].
  intros t t' Ht Ht' E. eapply aes_cmac_short_inj; eauto.
Qed.

(** Domain separation of the derivation: under a law-abiding CMAC the
    card key and the card id separate cards of one issuer (different UID or
    version gives a different card key, different UID a different id), the
    decryption key K1 is the same for all of them, and the four keys derived
    from one card key are pairwise different. *)
Theorem derive_keys_separation {C : AesCrypto} `{!AesLaws C} (ik : list Z) (uid uid' : CardUid) (v v' : Z) :
  array UID_LEN uid → array UID_LEN uid' → is_u32 v → is_u32 v' →
  let a := derive_keys ik uid v in
  let b := derive_keys ik uid' v' in
  (ks_card_key a = ks_card_key b ↔ uid = uid' ∧ v = v') ∧
  (ks_card_id a = ks_card_id b ↔ uid = uid') ∧
  ks_k1 a = ks_k1 b ∧
  NoDup [ks_k0 a; ks_k2 a; ks_k3 a; ks_k4 a].
Proof.
  intros Hu Hu' Hv Hv'. cbn [derive_keys ks_card_key ks_card_id ks_k0 ks_k1 ks_k2 ks_k3 ks_k4].
  destruct (card_key_message_bytes uid v Hu), (card_key_message_bytes uid' v' Hu').
  destruct (card_id_message_bytes uid Hu), (card_id_message_bytes uid' Hu').
  destruct tag_bytes as (_ & ? & _ & ? & ? & ? & _).
  split; [|split; [|split]].
  - split; [|intros [-> ->]; done]. intros E. apply aes_cmac_short_inj in E; [|done || lia..].
    destruct Hu, Hu'. by apply card_key_message_inj.
  - split; [|intros ->; done]. intros E. apply aes_cmac_short_inj in E; [|done || lia..].
    destruct Hu, Hu'. rewrite !card_id_message_eq in E by done. by apply app_inj_1 in E as [_ ->].
  - done.
  - change (NoDup (aes_cmac (derive_card_key ik uid v) <$> [TAG_K0; TAG_K2; TAG_K3; TAG_K4])).
    apply NoDup_cmac_tags; [by repeat constructor|by repeat constructor; simpl; lia|].
    apply (bool_decide_unpack _). vm_compute. exact I.
Qed.

Lemma derive_keys_separation_witness :
  let a := derive_keys (replicate 16 0) [4;1;2;3;4;5;6] 1 in
  let b := derive_keys (replicate 16 0) [4;1;2;3;4;5;7] 1 in
  ks_card_key a ≠ ks_card_key b ∧ ks_k1 a = ks_k1 b.
Proof.
  destruct (derive_keys_separation (C := toy_crypto) (replicate 16 0)
    [4;1;2;3;4;5;6] [4;1;2;3;4;5;7] 1 1) as (H1 & _ & H2 & _);
    [apply (bool_decide_unpack _); vm_compute; exact I..|].
  split; [|exact H2]. intros E. apply H1 in E as [E _]. discriminate E.
Defined.
