(* ===== verification/Assessment.v ===== *)
(** * Configuration, card assessment and issuer registry

    [crates/bolty-core/src/config.rs], [assessment.rs], [issuer.rs] and
    [provenance.rs]. *)

From S2P Require Import Prelude Str Hex Derivation.

(** ** config.rs *)

(** The strings are [heapless::String<N>] byte strings. *)
Record BoltyConfig : Type := mkBoltyConfig {
  lnurl : option (list Z);
  issuer_name : option (list Z);
  pending_keys : option CardKeys;
  pending_issuer : option AesKey;
  rest_read_token : option (list Z);
  rest_write_token : option (list Z);
  force_unsafe : bool }.

Definition BoltyConfig_default : BoltyConfig :=
  mkBoltyConfig None None None None None None false.

Record IssuerConfig : Type := mkIssuerConfig {
  ic_name : option (list Z);
  ic_issuer_key : AesKey;
  ic_derivation_version : Z;
  ic_key_version : Z }.

Definition IssuerConfig_default : IssuerConfig :=
  {| ic_name := None;
     ic_issuer_key := AesKey_zeroed;
     ic_derivation_version := KEY_VERSION_PROVISIONED;
     ic_key_version := KEY_VERSION_PROVISIONED |}.

Record CardConfig : Type := mkCardConfig {
  cc_uid : list Z;
  cc_key_versions : list Z }.

Definition CardConfig_default : CardConfig :=
  {| cc_uid := replicate UID_LEN 0;
     cc_key_versions := replicate NUM_KEYS KEY_VERSION_BLANK |}.

(** ** assessment.rs *)

Inductive CardState : Type :=
| CardState_Unknown
| CardState_Blank
| CardState_Provisioned (idx : nat)
| CardState_Foreign.
#[export] Instance CardState_eq_dec : EqDecision CardState.
Proof. solve_decision. Defined.

Inductive AssessmentError : Type := InvalidUidLength | KeyVersionMismatch.

Inductive IdleCardKind : Type :=
| Kind_None | Kind_Blank | Kind_Provisioned | Kind_Unknown | Kind_Inconsistent.
#[export] Instance IdleCardKind_eq_dec : EqDecision IdleCardKind.
Proof. solve_decision. Defined.

Inductive KeyConfidence : Type := Conf_None | Conf_K1Only | Conf_Full.
#[export] Instance KeyConfidence_eq_dec : EqDecision KeyConfidence.
Proof. solve_decision. Defined.

Inductive CardLifecycleState : Type :=
| Blank | Provisioned | HalfWiped | AuthDelay | Inconsistent.
#[export] Instance CardLifecycleState_eq_dec : EqDecision CardLifecycleState.
Proof. solve_decision. Defined.

Definition can_burn_from (s : CardLifecycleState) : bool :=
  match s with Blank | Provisioned => true | _ => false end.

Definition can_wipe_from (s : CardLifecycleState) : bool :=
  match s with Provisioned => true | _ => false end.

Definition can_diagnose_from (s : CardLifecycleState) : bool :=
  match s with Inconsistent => false | _ => true end.

Definition lifecycle_as_str (s : CardLifecycleState) : list Z :=
  match s with
  | Blank => lit "BLANK"
  | Provisioned => lit "PROVISIONED"
  | HalfWiped => lit "HALF-WIPED"
  | AuthDelay => lit "AUTH_DELAY"
  | Inconsistent => lit "INCONSISTENT"
  end.

Definition from_signals (auth_delay has_sdm has_ndef factory_auth : bool) : CardLifecycleState :=
  if auth_delay then AuthDelay
  else if has_sdm && has_ndef then Provisioned
  else if negb has_sdm && negb has_ndef then (if factory_auth then Blank else Inconsistent)
  else HalfWiped.

Record CardAssessment : Type := mkCardAssessment {
  ca_state : CardState;
  ca_present : bool;
  ca_is_ntag424 : bool;
  ca_uid : option (list Z);
  ca_uid_len : Z;
  ca_kind : IdleCardKind;
  ca_key_versions : list Z;
  ca_key_confidence : list KeyConfidence;
  ca_zero_key_auth_ok : bool;
  ca_has_ndef : bool;
  ca_has_uri : bool;
  ca_looks_like_boltcard : bool;
  ca_deterministic_k1_match : bool;
  ca_deterministic_full_match : bool;
  ca_reset_eligible : bool }.

Definition CardAssessment_default : CardAssessment :=
  {| ca_state := CardState_Unknown;
     ca_present := false;
     ca_is_ntag424 := false;
     ca_uid := None;
     ca_uid_len := 0;
     ca_kind := Kind_Unknown;
     ca_key_versions := replicate 5 0;
     ca_key_confidence := replicate 5 Conf_None;
     ca_zero_key_auth_ok := false;
     ca_has_ndef := false;
     ca_has_uri := false;
     ca_looks_like_boltcard := false;
     ca_deterministic_k1_match := false;
     ca_deterministic_full_match := false;
     ca_reset_eligible := false |}.

(** [reset] assigns every field, whatever the old value. *)
Definition CardAssessment_reset (a : CardAssessment) : CardAssessment :=
  {| ca_state := CardState_Unknown;
     ca_present := false;
     ca_is_ntag424 := false;
     ca_uid := None;
     ca_uid_len := 0;
     ca_kind := Kind_Unknown;
     ca_key_versions := replicate 5 0xFF;
     ca_key_confidence := replicate 5 Conf_None;
     ca_zero_key_auth_ok := false;
     ca_has_ndef := false;
     ca_has_uri := false;
     ca_looks_like_boltcard := false;
     ca_deterministic_k1_match := false;
     ca_deterministic_full_match := false;
     ca_reset_eligible := false |}.

(** The comparison loop reads the first seven bytes of the 12-byte storage. *)
Definition same_uid (assessment : CardAssessment) (uid : list Z) : bool :=
  if negb (ca_present assessment) || negb (bool_decide (ca_uid_len assessment = 7)) then false
  else match ca_uid assessment with
       | Some stored_uid => bool_decide (ct_diff 0 (take 7 stored_uid) uid = 0)
       | None => false
       end.

(** ** issuer.rs *)

Definition base_assessment (uid : CardUid) (key_versions : list Z) : CardAssessment :=
  let uid_storage := copy_at 0 uid (replicate 12 0) in
  let d := CardAssessment_default in
  {| ca_state := ca_state d;
     ca_present := true;
     ca_is_ntag424 := ca_is_ntag424 d;
     ca_uid := Some uid_storage;
     ca_uid_len := Z.of_nat UID_LEN;
     ca_kind := ca_kind d;
     ca_key_versions := key_versions;
     ca_key_confidence := ca_key_confidence d;
     ca_zero_key_auth_ok := ca_zero_key_auth_ok d;
     ca_has_ndef := ca_has_ndef d;
     ca_has_uri := ca_has_uri d;
     ca_looks_like_boltcard := ca_looks_like_boltcard d;
     ca_deterministic_k1_match := ca_deterministic_k1_match d;
     ca_deterministic_full_match := ca_deterministic_full_match d;
     ca_reset_eligible := ca_reset_eligible d |}.

Section issuer.
Context `{C : AesCrypto}.

(** [issuers.iter().enumerate().find_map(..)]. *)
Fixpoint match_issuer_from (idx : nat) (uid : CardUid) (key_version : Z)
    (issuers : list IssuerConfig) : option (nat * CardKeySet) :=
  match issuers with
  | [] => None
  | issuer :: rest =>
      let derived := derive_keys (ic_issuer_key issuer) uid (ic_derivation_version issuer) in
      if decide (ic_key_version issuer = key_version) then Some (idx, derived)
      else match_issuer_from (S idx) uid key_version rest
  end.

Definition match_issuer (uid : CardUid) (key_version : Z) (issuers : list IssuerConfig) :
    option (nat * CardKeySet) :=
  match_issuer_from 0 uid key_version issuers.

(** [key_versions] is a [[u8; 5]]; index 1 is K1's version. *)
Definition assess_card (uid : CardUid) (key_versions : list Z) (issuers : list IssuerConfig) :
    CardAssessment :=
  let a := base_assessment uid key_versions in
  if forallb (λ version, bool_decide (version = KEY_VERSION_BLANK)) key_versions then
    {| ca_state := CardState_Blank;
       ca_present := ca_present a; ca_is_ntag424 := ca_is_ntag424 a;
       ca_uid := ca_uid a; ca_uid_len := ca_uid_len a;
       ca_kind := Kind_Blank;
       ca_key_versions := ca_key_versions a; ca_key_confidence := ca_key_confidence a;
       ca_zero_key_auth_ok := true;
       ca_has_ndef := ca_has_ndef a; ca_has_uri := ca_has_uri a;
       ca_looks_like_boltcard := ca_looks_like_boltcard a;
       ca_deterministic_k1_match := ca_deterministic_k1_match a;
       ca_deterministic_full_match := ca_deterministic_full_match a;
       ca_reset_eligible := true |}
  else match match_issuer uid (nth 1 key_versions 0) issuers with
  | Some (issuer_idx, _) =>
      {| ca_state := CardState_Provisioned issuer_idx;
         ca_present := ca_present a; ca_is_ntag424 := ca_is_ntag424 a;
         ca_uid := ca_uid a; ca_uid_len := ca_uid_len a;
         ca_kind := Kind_Provisioned;
         ca_key_versions := ca_key_versions a;
         ca_key_confidence := replicate NUM_KEYS Conf_Full;
         ca_zero_key_auth_ok := ca_zero_key_auth_ok a;
         ca_has_ndef := ca_has_ndef a; ca_has_uri := ca_has_uri a;
         ca_looks_like_boltcard := true;
         ca_deterministic_k1_match := true;
         ca_deterministic_full_match := true;
         ca_reset_eligible := true |}
  | None =>
      {| ca_state := CardState_Foreign;
         ca_present := ca_present a; ca_is_ntag424 := ca_is_ntag424 a;
         ca_uid := ca_uid a; ca_uid_len := ca_uid_len a;
         ca_kind := Kind_Unknown;
         ca_key_versions := ca_key_versions a; ca_key_confidence := ca_key_confidence a;
         ca_zero_key_auth_ok := ca_zero_key_auth_ok a;
         ca_has_ndef := ca_has_ndef a; ca_has_uri := ca_has_uri a;
         ca_looks_like_boltcard := true;
         ca_deterministic_k1_match := ca_deterministic_k1_match a;
         ca_deterministic_full_match := ca_deterministic_full_match a;
         ca_reset_eligible := ca_reset_eligible a |}
  end.
End issuer.

(** ** provenance.rs *)

Inductive KeyProvenance : Type :=
| FactoryDefault
| DerivedIssuer (version : Z)
| StaticTestKey
| ProxyIssued
| UnknownExternal.
#[export] Instance KeyProvenance_eq_dec : EqDecision KeyProvenance.
Proof. solve_decision. Defined.

(** Decimal rendering of a [u8]. *)
Definition show_u8 (v : Z) : list Z :=
  let d n := 48 + n mod 10 in
  if decide (v < 10) then [d v]
  else if decide (v < 100) then [d (v / 10); d v]
  else [d (v / 100); d (v / 10); d v].

Definition to_audit_tag (p : KeyProvenance) : list Z :=
  match p with
  | FactoryDefault => lit "FactoryDefault"
  | DerivedIssuer version => lit "DerivedIssuer(" ++ show_u8 version ++ lit ")"
  | StaticTestKey => lit "StaticTestKey"
  | ProxyIssued => lit "ProxyIssued"
  | UnknownExternal => lit "UnknownExternal"
  end.

Definition as_json_name (p : KeyProvenance) : list Z :=
  match p with
  | FactoryDefault => lit "FactoryDefault"
  | DerivedIssuer _ => lit "DerivedIssuer"
  | StaticTestKey => lit "StaticTestKey"
  | ProxyIssued => lit "ProxyIssued"
  | UnknownExternal => lit "UnknownExternal"
  end.

Definition json_version (p : KeyProvenance) : option Z :=
  match p with DerivedIssuer version => Some version | _ => None end.

(** ** Lemmas *)

Lemma match_issuer_from_spec `{C : AesCrypto} idx uid kv issuers :
  match match_issuer_from idx uid kv issuers with
  | Some (i, ks) => ∃ pre issuer post, issuers = pre ++ issuer :: post ∧
      i = (idx + length pre)%nat ∧ ic_key_version issuer = kv ∧
      Forall (λ x, ic_key_version x ≠ kv) pre ∧
      ks = derive_keys (ic_issuer_key issuer) uid (ic_derivation_version issuer)
  | None => Forall (λ x, ic_key_version x ≠ kv) issuers
  end.
Proof.
  revert idx. induction issuers as [|x l IH]; intros idx; simpl; [constructor|].
  case_decide as E.
  - exists [], x, l. simpl. rewrite Nat.add_0_r. repeat split; auto.
  - specialize (IH (S idx)). destruct (match_issuer_from _ _ _ _) as [[i ks]|].
    + destruct IH as (pre & y & post & -> & -> & ? & ? & ->).
      exists (x :: pre), y, post. simpl. repeat split; auto; lia.
    + by constructor.
Qed.

Lemma forallb_blank kvs :
  forallb (λ v, bool_decide (v = KEY_VERSION_BLANK)) kvs = true ↔
  Forall (λ v, v = KEY_VERSION_BLANK) kvs.
Proof.
  rewrite forallb_forall, Forall_forall.
  split; intros H x Hx; specialize (H x); rewrite list_elem_of_In in *;
    by rewrite bool_decide_eq_true in *; auto.
Qed.

Lemma base_assessment_uid uid kvs :
  length uid = UID_LEN →
  ca_uid (base_assessment uid kvs) = Some (uid ++ replicate 5 0).
Proof.
  intros H. simpl. do 7 (destruct uid as [|? uid]; [done|]). by destruct uid.
Qed.

Lemma assess_card_uid `{C : AesCrypto} uid kvs issuers :
  let a := assess_card uid kvs issuers in
  let b := base_assessment uid kvs in
  ca_present a = true ∧ ca_uid_len a = 7 ∧ ca_uid a = ca_uid b ∧ ca_key_versions a = kvs.
Proof. unfold assess_card. by repeat case_match. Qed.

(** ** Properties *)

(** The constant-time comparison decides equality: on a present 7-byte
    assessment [same_uid] is true exactly when the stored UID starts with the
    scanned one; an absent card or another UID length never matches. *)
Theorem same_uid_correct (a : CardAssessment) (stored uid : list Z) :
  ca_uid a = Some stored → length stored = 12%nat → length uid = UID_LEN →
  same_uid a uid = true ↔ ca_present a = true ∧ ca_uid_len a = 7 ∧ take 7 stored = uid.
Proof.
  intros Hs Hl Hu. unfold same_uid. rewrite Hs.
  destruct (ca_present a); simpl; [|naive_solver].
  case_bool_decide; simpl; [|naive_solver].
  rewrite bool_decide_eq_true, ct_diff_zero by (rewrite length_take, Hl, Hu; done).
  naive_solver.
Qed.

(** The assessment policy of [assess_card] on its three branches: all
    key versions zero means blank and resettable; otherwise the first
    registered issuer whose key version equals K1's decides [Provisioned]
    with its index; with no such issuer the card is foreign and not
    resettable.  The scanned UID is always recognised again by [same_uid]. *)
Theorem assess_card_policy `{C : AesCrypto} (uid : CardUid) (kvs : list Z)
    (issuers : list IssuerConfig) :
  length uid = UID_LEN →
  let a := assess_card uid kvs issuers in
  same_uid a uid = true ∧
  match ca_state a with
  | CardState_Blank => Forall (λ v, v = KEY_VERSION_BLANK) kvs ∧ ca_reset_eligible a = true
  | CardState_Provisioned i =>
      ¬ Forall (λ v, v = KEY_VERSION_BLANK) kvs ∧ ca_reset_eligible a = true ∧
      ∃ issuer, issuers !! i = Some issuer ∧ ic_key_version issuer = nth 1 kvs 0 ∧
        ∀ j x, (j < i)%nat → issuers !! j = Some x → ic_key_version x ≠ nth 1 kvs 0
  | CardState_Foreign =>
      ¬ Forall (λ v, v = KEY_VERSION_BLANK) kvs ∧ ca_reset_eligible a = false ∧
      Forall (λ x, ic_key_version x ≠ nth 1 kvs 0) issuers
  | CardState_Unknown => False
  end.
Proof.
  intros Hu a. split.
  { unfold same_uid, a. destruct (assess_card_uid uid kvs issuers) as (-> & -> & -> & _).
    rewrite base_assessment_uid by done. simpl.
    rewrite bool_decide_eq_true, take_app_exact, ct_diff_zero by done. done. }
  unfold a, assess_card. destruct (forallb _ kvs) eqn:Hb.
  { simpl. split; [|done]. by apply forallb_blank. }
  assert (¬ Forall (λ v, v = KEY_VERSION_BLANK) kvs) as Hnb.
  { rewrite <-forallb_blank. by rewrite Hb. }
  pose proof (match_issuer_from_spec 0 uid (nth 1 kvs 0) issuers) as Hm.
  unfold match_issuer. destruct (match_issuer_from _ _ _ _) as [[i ks]|]; simpl; [|done].
  destruct Hm as (pre & x & post & -> & -> & Hx & Hpre & _). do 2 (split; [done|]).
  exists x. rewrite Nat.add_0_l. split; [by rewrite list_lookup_middle|]. split; [done|].
  intros j y Hj Hy. rewrite lookup_app_l in Hy by done.
  by eapply (Forall_lookup_1 _ pre) in Hpre.
Qed.

Lemma assess_card_policy_witness :
  let uid := [4; 1; 2; 3; 4; 5; 6] in
  let issuers := [IssuerConfig_default] in
  ca_state (assess_card (C := Build_AesCrypto (λ _ m, m) (λ _ b, b) (λ _ b, b))
    uid [1;1;1;1;1] issuers) = CardState_Provisioned 0 ∧
  same_uid (assess_card (C := Build_AesCrypto (λ _ m, m) (λ _ b, b) (λ _ b, b))
    uid [1;1;1;1;1] issuers) uid = true.
Proof.
  split; [reflexivity|].
  exact (proj1 (assess_card_policy (C := Build_AesCrypto (λ _ m, m) (λ _ b, b) (λ _ b, b))
    [4; 1; 2; 3; 4; 5; 6] [1;1;1;1;1] [IssuerConfig_default] eq_refl)).
Defined.
