(* ===== verification/Picc.v ===== *)
(** * SUN message verification

    [crates/bolty-core/src/picc.rs]: extraction of the [p=] and [c=] query
    parameters, decryption of the PICC data and verification of the SUN MAC. *)

From S2P Require Import Prelude Str Hex Derivation.

Definition PICC_FORMAT_BOLTCARD : Z := 0xC7.
Definition PICC_FORMAT_BOLTCARD_NO_UID : Z := 0x40.
Definition PICC_FLAG_HAS_UID : Z := 0x80.
Definition PICC_FLAG_HAS_COUNTER : Z := 0x40.
Definition PICC_UID_BYTE_LEN : nat := 7.
Definition PICC_COUNTER_LEN : nat := 3.
Definition SV2_HEADER : list Z := [0x3C; 0xC3; 0x00; 0x01; 0x00; 0x80].

Record PiccData : Type := mkPiccData {
  pd_valid : bool;
  pd_uid : option (list Z);
  pd_counter : Z;
  pd_has_counter : bool }.
#[export] Instance PiccData_eq_dec : EqDecision PiccData.
Proof. solve_decision. Defined.

Definition PiccData_default : PiccData := mkPiccData false None 0 false.

(** [parse_param]: a later parameter of the same name replaces the earlier. *)
Definition parse_param (segment : list Z) (pc : option (list Z) * option (list Z)) :
    option (list Z) * option (list Z) :=
  let '(p, c) := pc in
  match strip_prefix (lit "p=") segment with
  | Some value => (Some value, c)
  | None =>
      match strip_prefix (lit "c=") segment with
      | Some value => (p, Some value)
      | None => (p, c)
      end
  end.

Definition is_delim (ch : Z) : bool := bool_decide (ch = 63 ∨ ch = 38 ∨ ch = 35).

(** The [char_indices] loop; [seg] is [url[start..idx]]. *)
Fixpoint extract_loop (seg : list Z) (pc : option (list Z) * option (list Z)) (url : list Z) :
    option (list Z) * option (list Z) :=
  match url with
  | [] => parse_param seg pc
  | ch :: url =>
      if is_delim ch then extract_loop [] (parse_param seg pc) url
      else extract_loop (seg ++ [ch]) pc url
  end.

Definition extract_p_and_c (url : list Z) : option (list Z * list Z) :=
  match extract_loop [] (None, None) url with
  | (Some p_hex, Some c_hex) => Some (p_hex, c_hex)
  | _ => None
  end.

(** Byte [i] of a fixed-size buffer. *)
Notation "b .[ i ]" := (nth i b 0) (at level 2, left associativity, format "b .[ i ]").

Definition counter_of (c0 c1 c2 : Z) : Z := Z.lor (Z.lor c0 (Z.shiftl c1 8)) (Z.shiftl c2 16).

(** The interpretation of the decrypted 16-byte block. *)
Definition picc_of_block (buf : list Z) : option PiccData :=
  let tag := buf.[0] in
  if decide (tag = PICC_FORMAT_BOLTCARD) then
    if bool_decide (Z.land tag PICC_FLAG_HAS_UID = 0)
       || bool_decide (Z.land tag PICC_FLAG_HAS_COUNTER = 0)
       || negb (bool_decide (Z.to_nat (Z.land tag 0x07) = PICC_UID_BYTE_LEN))
    then None
    else Some (mkPiccData false (Some (take PICC_UID_BYTE_LEN (drop 1 buf)))
                 (counter_of buf.[8] buf.[9] buf.[10]) true)
  else if decide (tag = PICC_FORMAT_BOLTCARD_NO_UID) then
    if bool_decide (Z.land tag PICC_FLAG_HAS_COUNTER = 0) then None
    else Some (mkPiccData false None (counter_of buf.[1] buf.[2] buf.[3]) true)
  else None.

Definition sdm_build_sv2 (uid : list Z) (counter : Z) : list Z :=
  <[15%nat := u8 (Z.shiftr counter 16)]>
  (<[14%nat := u8 (Z.shiftr counter 8)]>
  (<[13%nat := u8 counter]>
  (copy_at 6 uid (copy_at 0 SV2_HEADER (replicate 16 0))))).

Definition sdm_build_sv2_no_uid (counter : Z) : list Z :=
  <[8%nat := u8 (Z.shiftr counter 16)]>
  (<[7%nat := u8 (Z.shiftr counter 8)]>
  (<[6%nat := u8 counter]>
  (copy_at 0 SV2_HEADER (replicate 16 0)))).

Definition truncate_odd_bytes (full_mac : list Z) : list Z :=
  (λ idx : nat, nth (idx * 2 + 1) full_mac 0) <$> seq 0 8.

Definition constant_time_eq (left right : list Z) : bool :=
  bool_decide (ct_diff 0 left right = 0).

Section picc.
Context `{C : AesCrypto}.

Definition picc_decrypt_p (k1 p_hex : list Z) : option PiccData :=
  if decide (length p_hex ≠ 32%nat) then None
  else match decode_hex_into p_hex (replicate 16 0) with
       | (Ok _, buf) => picc_of_block (aes_cbc_dec k1 buf)
       | (Err _, _) => None
       end.

Definition picc_mac (k2 : list Z) (picc : PiccData) : list Z :=
  let sv2 := match pd_uid picc with
             | Some uid => sdm_build_sv2 uid (pd_counter picc)
             | None => sdm_build_sv2_no_uid (pd_counter picc)
             end in
  let derived_key := aes_cmac k2 sv2 in
  let full_mac := aes_cmac derived_key [] in
  truncate_odd_bytes full_mac.

Definition picc_verify_c (k2 : list Z) (picc : PiccData) (c_hex : list Z) : bool :=
  if negb (pd_has_counter picc) || negb (bool_decide (length c_hex = 16%nat)) then false
  else match decode_hex_into c_hex (replicate 8 0) with
       | (Err _, _) => false
       | (Ok _, expected) => constant_time_eq (picc_mac k2 picc) expected
       end.

Definition picc_parse_url (k1 k2 url : list Z) : PiccData :=
  match extract_p_and_c url with
  | None => PiccData_default
  | Some (p_hex, c_hex) =>
      match picc_decrypt_p k1 p_hex with
      | None => PiccData_default
      | Some picc =>
          if negb (picc_verify_c k2 picc c_hex) then PiccData_default
          else mkPiccData true (pd_uid picc) (pd_counter picc) (pd_has_counter picc)
      end
  end.
End picc.

(** ** Query parameters *)

Definition delim_free (s : list Z) : Prop := Forall (λ c, is_delim c = false) s.

Lemma extract_loop_seg s seg pc url :
  delim_free s → extract_loop seg pc (s ++ url) = extract_loop (seg ++ s) pc url.
Proof.
  intros H. revert seg. induction H as [|c s Hc _ IH]; intros seg; simpl.
  - by rewrite app_nil_r.
  - rewrite Hc, IH. by rewrite <-app_assoc.
Qed.

Lemma extract_loop_delim seg pc d url :
  is_delim d = true → extract_loop seg pc (d :: url) = extract_loop [] (parse_param seg pc) url.
Proof. simpl. by intros ->. Qed.

(** Whatever precedes a delimiter only determines the values seen so far. *)
Lemma extract_loop_split seg pc u d v :
  is_delim d = true → ∃ pc', extract_loop seg pc (u ++ d :: v) = extract_loop [] pc' v.
Proof.
  intros Hd. revert seg pc. induction u as [|c u IH]; intros seg pc; simpl.
  - rewrite Hd. eauto.
  - destruct (is_delim c); apply IH.
Qed.

Lemma parse_param_p v pc : parse_param (lit "p=" ++ v) pc = (Some v, pc.2).
Proof. by destruct pc. Qed.

Lemma parse_param_c v pc : parse_param (lit "c=" ++ v) pc = (pc.1, Some v).
Proof. by destruct pc. Qed.

Lemma delim_free_app s t : delim_free s → delim_free t → delim_free (s ++ t).
Proof. unfold delim_free. rewrite Forall_app. done. Qed.

Lemma extract_p_then_c base p c :
  delim_free p → delim_free c →
  extract_p_and_c (base ++ lit "?p=" ++ p ++ lit "&c=" ++ c) = Some (p, c).
Proof.
  intros Hp Hc. unfold extract_p_and_c.
  destruct (extract_loop_split [] (None, None) base 63 (lit "p=" ++ p ++ lit "&c=" ++ c))
    as [pc E]; [done|].
  change (lit "?p=" ++ p ++ lit "&c=" ++ c) with (63 :: (lit "p=" ++ p ++ lit "&c=" ++ c)).
  rewrite E, app_assoc, extract_loop_seg by (apply delim_free_app; [by repeat constructor|done]).
  change (lit "&c=" ++ c) with (38 :: (lit "c=" ++ c)).
  rewrite extract_loop_delim by done.
  rewrite <-(app_nil_r (lit "c=" ++ c)), extract_loop_seg by
    (apply delim_free_app; [by repeat constructor|done]).
  rewrite (app_nil_l (lit "p=" ++ p)), (app_nil_l (lit "c=" ++ c)), parse_param_p.
  cbn [extract_loop]. by rewrite parse_param_c.
Qed.

Lemma hex_nibble_not_delim c : decode_hex_nibble c ≠ None → is_delim c = false.
Proof.
  unfold decode_hex_nibble, is_delim. intros H. apply bool_decide_eq_false.
  intros [-> | [-> | ->]]; by apply H.
Qed.

(** Text that decodes is made of hex digits. *)
Lemma decode_hex_digits n hex l : decode_hex n hex = Ok l → Forall (λ c, decode_hex_nibble c ≠ None) hex.
Proof.
  intros H. rewrite decode_hex_eq in H. case_decide as E; [done|].
  assert (Nat.even (length hex) = true) as Hev by
    (replace (length hex) with (n * 2)%nat by lia; by rewrite Nat.even_mul, orb_comm).
  destruct (hex_pairs hex) as [l'|] eqn:Hp; [|done]. clear H E. revert l' Hp Hev.
  induction hex as [|c|c0 c1 hex IH] using pairs_ind; simpl; intros l' Hp Hev; [constructor|done|].
  apply bind_Some in Hp as (hi & Hhi & Hp). apply bind_Some in Hp as (lo & Hlo & Hp).
  apply bind_Some in Hp as (r & Hr & _).
  repeat constructor; [congruence..|by eapply IH].
Qed.

Lemma decode_hex_delim_free n hex l : decode_hex n hex = Ok l → delim_free hex.
Proof.
  intros H%decode_hex_digits. eapply Forall_impl; [done|]. intros c. apply hex_nibble_not_delim.
Qed.

(** ** Counter and session vector *)

Lemma counter_of_le c0 c1 c2 :
  is_u8 c0 → is_u8 c1 → is_u8 c2 → counter_of c0 c1 c2 = le_val [c0; c1; c2].
Proof.
  unfold is_u8, counter_of. intros. simpl.
  assert (Z.land c0 (Z.shiftl c1 8) = 0) as E1 by (by apply land_shiftl_disjoint).
  assert (0 ≤ c0 + c1 * 2 ^ 8 < 2 ^ 16) as B by nia.
  pose proof (Z.add_lor_land c0 (Z.shiftl c1 8)) as A1. rewrite E1 in A1.
  rewrite Z.shiftl_mul_pow2 in * by lia.
  pose proof (Z.add_lor_land (Z.lor c0 (c1 * 2 ^ 8)) (Z.shiftl c2 16)) as A2.
  rewrite land_shiftl_disjoint in A2 by lia. rewrite Z.shiftl_mul_pow2 in A2 by lia.
  rewrite Z.shiftl_mul_pow2 by lia. lia.
Qed.

Lemma counter_of_le_bytes ctr :
  0 ≤ ctr < 2 ^ 24 →
  counter_of (u8 ctr) (u8 (Z.shiftr ctr 8)) (u8 (Z.shiftr (Z.shiftr ctr 8) 8)) = ctr.
Proof.
  intros. rewrite counter_of_le by auto with bolty.
  change [u8 ctr; u8 (Z.shiftr ctr 8); u8 (Z.shiftr (Z.shiftr ctr 8) 8)] with (le_bytes 3 ctr).
  rewrite le_val_bytes. by apply Z.mod_small.
Qed.

Lemma sdm_build_sv2_eq uid counter :
  length uid = PICC_UID_BYTE_LEN →
  sdm_build_sv2 uid counter = SV2_HEADER ++ uid ++ le_bytes 3 counter.
Proof.
  intros H. unfold PICC_UID_BYTE_LEN in H. unfold sdm_build_sv2.
  do 7 (destruct uid as [|? uid]; [done|]). destruct uid; [|done].
  cbn -[u8 Z.shiftr]. rewrite Z.shiftr_shiftr by lia. done.
Qed.

Lemma sdm_build_sv2_no_uid_eq counter :
  sdm_build_sv2_no_uid counter = SV2_HEADER ++ le_bytes 3 counter ++ replicate 7 0.
Proof.
  unfold sdm_build_sv2_no_uid. cbn -[u8 Z.shiftr]. rewrite Z.shiftr_shiftr by lia. done.
Qed.

Lemma truncate_odd_bytes_length m : length (truncate_odd_bytes m) = 8%nat.
Proof. done. Qed.

Lemma truncate_odd_bytes_bytes m : bytes m → bytes (truncate_odd_bytes m).
Proof.
  intros H. unfold truncate_odd_bytes, bytes. apply Forall_fmap, Forall_true. intros i. simpl.
  destruct (decide (i * 2 + 1 < length m)%nat) as [Hi|Hi].
  - eapply Forall_forall; [exact H|]. apply list_elem_of_In, nth_In. lia.
  - rewrite nth_overflow by lia. unfold is_u8. lia.
Qed.

Lemma constant_time_eq_spec l r :
  length l = length r → constant_time_eq l r = bool_decide (l = r).
Proof.
  intros H. unfold constant_time_eq. apply bool_decide_ext. rewrite ct_diff_zero by done. naive_solver.
Qed.

(** Decoding into a zeroed buffer of the right length is [decode_hex]. *)
Lemma decode_hex_into_case n hex :
  match decode_hex_into hex (replicate n 0) with
  | (Ok _, buf) => decode_hex n hex = Ok buf
  | (Err e, _) => decode_hex n hex = Err e
  end.
Proof. unfold decode_hex. by destruct (decode_hex_into _ _) as [[[]|] ?]. Qed.

Lemma decode_hex_into_ok n hex l :
  decode_hex n hex = Ok l → decode_hex_into hex (replicate n 0) = (Ok (), l).
Proof.
  intros H. pose proof (decode_hex_into_case n hex) as E.
  destruct (decode_hex_into _ _) as [[[]|] ?]; rewrite E in H; naive_solver.
Qed.

(** ** Properties *)

(** The PICC data block a card enciphers (NT4H2421Gx, PICCDataTag layouts):
    tag, UID if mirrored, 3-byte little-endian counter, padding. *)
Definition picc_block (uid : option (list Z)) (ctr : Z) (pad : list Z) : list Z :=
  match uid with
  | Some u => PICC_FORMAT_BOLTCARD :: u ++ le_bytes 3 ctr ++ pad
  | None => PICC_FORMAT_BOLTCARD_NO_UID :: le_bytes 3 ctr ++ pad
  end.

Definition uid_ok (uid : option (list Z)) : Prop :=
  match uid with Some u => array PICC_UID_BYTE_LEN u | None => True end.

Lemma picc_of_block_ok uid ctr pad :
  uid_ok uid → 0 ≤ ctr < 2 ^ 24 →
  picc_of_block (picc_block uid ctr pad) = Some (mkPiccData false uid ctr true).
Proof.
  intros Hu Hc. destruct uid as [u|].
  - destruct Hu as [Hl _]. unfold PICC_UID_BYTE_LEN in Hl.
    do 7 (destruct u as [|? u]; [done|]). destruct u; [|done].
    unfold picc_block, picc_of_block. cbn -[counter_of u8 Z.shiftr Z.land].
    rewrite counter_of_le_bytes by done. done.
  - unfold picc_block, picc_of_block. cbn -[counter_of u8 Z.shiftr Z.land].
    rewrite counter_of_le_bytes by done. done.
Qed.

Lemma picc_block_array uid ctr pad :
  uid_ok uid → bytes pad →
  length pad = (match uid with Some _ => 5 | None => 12 end)%nat →
  array 16 (picc_block uid ctr pad).
Proof.
  intros Hu Hp Hl. destruct uid as [u|]; unfold picc_block, array; simpl in *.
  - destruct Hu as [Hlu Hb]. rewrite length_app. simpl. rewrite Hl, Hlu. split; [done|].
    apply bytes_cons; [done|]. auto 6 with bolty.
  - rewrite Hl. split; [done|]. apply bytes_cons; [done|]. auto 6 with bolty.
Qed.

Lemma picc_decrypt_p_ok `{C : AesCrypto} k1 p_hex buf :
  decode_hex 16 p_hex = Ok buf → picc_decrypt_p k1 p_hex = picc_of_block (aes_cbc_dec k1 buf).
Proof.
  intros H. unfold picc_decrypt_p. pose proof (decode_hex_ok _ _ _ H) as [-> _].
  rewrite decide_False by lia. by rewrite (decode_hex_into_ok _ _ _ H).
Qed.

Lemma picc_verify_c_spec `{C : AesCrypto} k2 picc c_hex :
  picc_verify_c k2 picc c_hex = true ↔
  pd_has_counter picc = true ∧ decode_hex 8 c_hex = Ok (picc_mac k2 picc).
Proof.
  unfold picc_verify_c. destruct (pd_has_counter picc); simpl; [|naive_solver].
  case_bool_decide as Hl; simpl; last first.
  { split; [done|]. intros [_ H]. by apply decode_hex_ok in H as [H _]. }
  pose proof (decode_hex_into_case 8 c_hex) as E.
  destruct (decode_hex_into _ _) as [[[]|] e]; [|split; [done|]; intros [_ H']; congruence].
  pose proof (decode_hex_ok _ _ _ E) as [_ [Hle _]].
  rewrite constant_time_eq_spec, bool_decide_eq_true by (rewrite Hle; done).
  rewrite E. split; [by intros ->|]. intros [_ H']. congruence.
Qed.

(** C27. Completeness of SUN verification: a URL that carries, as its last
    [p] and [c] parameters, the encrypted PICC data of a card (with or
    without mirrored UID) and the truncated double CMAC over its session
    vector parses as valid, with exactly that UID and counter, whatever
    comes before the query and whatever the case of the hex digits. *)
Theorem picc_parse_url_complete {C : AesCrypto} `{!AesLaws C}
    (k1 k2 base p_hex c_hex pad : list Z) (uid : option (list Z)) (ctr : Z) :
  uid_ok uid → 0 ≤ ctr < 2 ^ 24 → bytes pad →
  length pad = (match uid with Some _ => 5 | None => 12 end)%nat →
  decode_hex 16 p_hex = Ok (aes_cbc_enc k1 (picc_block uid ctr pad)) →
  decode_hex 8 c_hex = Ok (picc_mac k2 (mkPiccData false uid ctr true)) →
  picc_parse_url k1 k2 (base ++ lit "?p=" ++ p_hex ++ lit "&c=" ++ c_hex) =
    mkPiccData true uid ctr true.
Proof.
  intros Hu Hc Hp Hl Hph Hch. unfold picc_parse_url.
  rewrite extract_p_then_c by (by eapply decode_hex_delim_free).
  rewrite (picc_decrypt_p_ok _ _ _ Hph), aes_cbc_dec_enc by (by apply picc_block_array).
  rewrite picc_of_block_ok by done.
  by rewrite (proj2 (picc_verify_c_spec _ _ _)).
Qed.

Lemma le_bytes_3 c0 c1 c2 :
  is_u8 c0 → is_u8 c1 → is_u8 c2 → le_bytes 3 (le_val [c0; c1; c2]) = [c0; c1; c2].
Proof. intros. apply (le_bytes_val [c0; c1; c2]). auto with bolty. Qed.

Lemma picc_of_block_sound buf picc :
  picc_of_block buf = Some picc → bytes buf → length buf = 16%nat →
  pd_valid picc = false ∧ pd_has_counter picc = true ∧ 0 ≤ pd_counter picc < 2 ^ 24 ∧
  ∃ pad, buf = picc_block (pd_uid picc) (pd_counter picc) pad ∧ uid_ok (pd_uid picc).
Proof.
  intros H Hb Hl. do 16 (destruct buf as [|? buf]; [done|]). destruct buf; [|done].
  unfold bytes in Hb. rewrite !Forall_cons in Hb. destruct_and! Hb.
  unfold picc_of_block in H. cbn -[counter_of Z.land] in H.
  repeat case_decide; simplify_eq; cbn -[counter_of] in H; simplify_eq;
    cbn [pd_valid pd_has_counter pd_counter pd_uid]; rewrite counter_of_le by done;
    (split; [done|]); (split; [done|]);
    (split; [apply (le_val_bound [_; _; _]); auto with bolty|]);
    unfold picc_block; rewrite le_bytes_3 by done;
    eexists; (split; [done|]); try done; split; auto 10 with bolty.
Qed.

(** C26. Soundness of SUN verification: [picc_parse_url] fails closed, it
    returns the default record unless the URL contains both parameters, [p]
    decrypts under K1 to a block with one of the two Bolt Card tags, and [c]
    is the truncated MAC under K2 of the session vector of that block's UID
    and counter; the reported UID and counter are the block's. *)
Theorem picc_parse_url_sound `{C : AesCrypto} (k1 k2 url : list Z) :
  (∀ b, array 16 b → array 16 (aes_cbc_dec k1 b)) →
  let r := picc_parse_url k1 k2 url in
  if pd_valid r then
    ∃ p_hex c_hex buf pad,
      extract_p_and_c url = Some (p_hex, c_hex) ∧
      decode_hex 16 p_hex = Ok buf ∧
      aes_cbc_dec k1 buf = picc_block (pd_uid r) (pd_counter r) pad ∧
      uid_ok (pd_uid r) ∧ 0 ≤ pd_counter r < 2 ^ 24 ∧
      decode_hex 8 c_hex =
        Ok (picc_mac k2 (mkPiccData false (pd_uid r) (pd_counter r) true))
  else r = PiccData_default.
Proof.
  intros Hdec r. unfold r, picc_parse_url.
  destruct (extract_p_and_c url) as [[p c]|] eqn:Hx; [|done].
  destruct (picc_decrypt_p k1 p) as [picc|] eqn:Hd; [|done].
  destruct (picc_verify_c k2 picc c) eqn:Hv; simpl; [|done].
  unfold picc_decrypt_p in Hd. case_decide; [done|].
  pose proof (decode_hex_into_case 16 p) as E.
  destruct (decode_hex_into p _) as [[[]|] buf]; [|done].
  pose proof (decode_hex_ok _ _ _ E) as [_ Hbuf]. destruct (Hdec buf Hbuf) as [Hl Hb].
  apply picc_verify_c_spec in Hv as [Hh Hv].
  destruct (picc_of_block_sound _ _ Hd Hb Hl) as (Hf & _ & Hc & pad & Hblk & Hu).
  exists p, c, buf, pad. destruct picc. simpl in *. subst. done.
Qed.

(** Session vectors do not collide: with the UID mirrored the vector
    determines UID and 24-bit counter, without it the counter; and a
    UID-bearing vector equals a UID-less one only in the degenerate case of a
    zero counter and a UID ending in four zero bytes. *)
Theorem sv2_injective (uid uid' : list Z) (c c' : Z) :
  length uid = PICC_UID_BYTE_LEN → length uid' = PICC_UID_BYTE_LEN →
  0 ≤ c < 2 ^ 24 → 0 ≤ c' < 2 ^ 24 →
  (sdm_build_sv2 uid c = sdm_build_sv2 uid' c' ↔ uid = uid' ∧ c = c') ∧
  (sdm_build_sv2_no_uid c = sdm_build_sv2_no_uid c' ↔ c = c') ∧
  (sdm_build_sv2 uid c = sdm_build_sv2_no_uid c' ↔
     c = 0 ∧ uid = le_bytes 3 c' ++ replicate 4 0).
Proof.
  intros Hu Hu' Hc Hc'. rewrite !sdm_build_sv2_eq, !sdm_build_sv2_no_uid_eq by done.
  split; [|split].
  - split; [|naive_solver]. intros E. apply app_inj_1 in E as [_ E]; [|done].
    apply app_inj_1 in E as [-> E]; [|congruence]. split; [done|]. by apply (le_bytes_inj 3).
  - split; [|naive_solver]. intros E. apply app_inj_1 in E as [_ E]; [|done].
    apply app_inj_1 in E as [E _]; [|done]. by apply (le_bytes_inj 3).
  - change (replicate 7 0) with (replicate 4 0 ++ replicate 3 0).
    rewrite (app_assoc (le_bytes 3 c')). split.
    + intros E. apply app_inj_1 in E as [_ E]; [|done].
      apply app_inj_1 in E as [-> E]; [|done]. split; [|done].
      apply (le_bytes_inj 3); [done|lia|]. by rewrite E.
    + intros [-> ->]. done.
Qed.

(** The toy interface of [Derivation] instantiates the laws. *)
Definition toy_picc_uid : list Z := [0x04; 0x10; 0x65; 0xFA; 0x96; 0x73; 0x80].
Definition toy_key : list Z := replicate 16 0.

Lemma picc_parse_url_complete_witness :
  let picc := mkPiccData false (Some toy_picc_uid) 42 true in
  let p := encode_hex (picc_block (Some toy_picc_uid) 42 (replicate 5 0)) in
  let c := encode_hex (picc_mac (C := toy_crypto) toy_key picc) in
  picc_parse_url (C := toy_crypto) toy_key toy_key
    (lit "https://example.com/bolt" ++ lit "?p=" ++ p ++ lit "&c=" ++ c) =
    mkPiccData true (Some toy_picc_uid) 42 true.
Proof.
  apply (@picc_parse_url_complete toy_crypto toy_laws _ _ _ _ _ (replicate 5 0));
    try (apply (bool_decide_unpack _); vm_compute; exact I); vm_compute; reflexivity.
Defined.

Lemma picc_parse_url_sound_witness :
  let url := lit "?p=C7041065FA9673802A00000000000000&c=0000000000000000" in
  let r := picc_parse_url (C := toy_crypto) toy_key toy_key url in
  pd_valid r = true ∧
  ∃ p_hex c_hex, extract_p_and_c url = Some (p_hex, c_hex) ∧
    decode_hex 8 c_hex =
      Ok (picc_mac (C := toy_crypto) toy_key (mkPiccData false (pd_uid r) (pd_counter r) true)).
Proof.
  intros url r. assert (pd_valid r = true) as V by (vm_compute; reflexivity). split; [exact V|].
  pose proof (@picc_parse_url_sound toy_crypto toy_key toy_key url (λ b Hb, Hb)) as H.
  fold r in H. cbv zeta in H. rewrite V in H.
  destruct H as (x & y & _ & _ & E & _ & _ & _ & _ & E').
  exists x, y. split; [exact E|exact E'].
Defined.

