(* ===== verification/AesRef.v ===== *)
(** * A concrete AES-128 for the interface

    AES-128 (FIPS 197), AES-CMAC (RFC 4493) and one CBC block with a zero IV
    (SP 800-38A), as an instance of [AesCrypto].  It is not a model of source
    code: it lets the definitions of the other files be evaluated on the
    published and recorded test vectors of the repository. *)

From S2P Require Import Prelude Str Hex Derivation Picc.

Definition sbox : list Z :=
  [99; 124; 119; 123; 242; 107; 111; 197; 48; 1; 103; 43; 254; 215; 171; 118;
   202; 130; 201; 125; 250; 89; 71; 240; 173; 212; 162; 175; 156; 164; 114; 192;
   183; 253; 147; 38; 54; 63; 247; 204; 52; 165; 229; 241; 113; 216; 49; 21;
   4; 199; 35; 195; 24; 150; 5; 154; 7; 18; 128; 226; 235; 39; 178; 117;
   9; 131; 44; 26; 27; 110; 90; 160; 82; 59; 214; 179; 41; 227; 47; 132;
   83; 209; 0; 237; 32; 252; 177; 91; 106; 203; 190; 57; 74; 76; 88; 207;
   208; 239; 170; 251; 67; 77; 51; 133; 69; 249; 2; 127; 80; 60; 159; 168;
   81; 163; 64; 143; 146; 157; 56; 245; 188; 182; 218; 33; 16; 255; 243; 210;
   205; 12; 19; 236; 95; 151; 68; 23; 196; 167; 126; 61; 100; 93; 25; 115;
   96; 129; 79; 220; 34; 42; 144; 136; 70; 238; 184; 20; 222; 94; 11; 219;
   224; 50; 58; 10; 73; 6; 36; 92; 194; 211; 172; 98; 145; 149; 228; 121;
   231; 200; 55; 109; 141; 213; 78; 169; 108; 86; 244; 234; 101; 122; 174; 8;
   186; 120; 37; 46; 28; 166; 180; 198; 232; 221; 116; 31; 75; 189; 139; 138;
   112; 62; 181; 102; 72; 3; 246; 14; 97; 53; 87; 185; 134; 193; 29; 158;
   225; 248; 152; 17; 105; 217; 142; 148; 155; 30; 135; 233; 206; 85; 40; 223;
   140; 161; 137; 13; 191; 230; 66; 104; 65; 153; 45; 15; 176; 84; 187; 22].

Definition inv_sbox : list Z :=
  [82; 9; 106; 213; 48; 54; 165; 56; 191; 64; 163; 158; 129; 243; 215; 251;
   124; 227; 57; 130; 155; 47; 255; 135; 52; 142; 67; 68; 196; 222; 233; 203;
   84; 123; 148; 50; 166; 194; 35; 61; 238; 76; 149; 11; 66; 250; 195; 78;
   8; 46; 161; 102; 40; 217; 36; 178; 118; 91; 162; 73; 109; 139; 209; 37;
   114; 248; 246; 100; 134; 104; 152; 22; 212; 164; 92; 204; 93; 101; 182; 146;
   108; 112; 72; 80; 253; 237; 185; 218; 94; 21; 70; 87; 167; 141; 157; 132;
   144; 216; 171; 0; 140; 188; 211; 10; 247; 228; 88; 5; 184; 179; 69; 6;
   208; 44; 30; 143; 202; 63; 15; 2; 193; 175; 189; 3; 1; 19; 138; 107;
   58; 145; 17; 65; 79; 103; 220; 234; 151; 242; 207; 206; 240; 180; 230; 115;
   150; 172; 116; 34; 231; 173; 53; 133; 226; 249; 55; 232; 28; 117; 223; 110;
   71; 241; 26; 113; 29; 41; 197; 137; 111; 183; 98; 14; 170; 24; 190; 27;
   252; 86; 62; 75; 198; 210; 121; 32; 154; 219; 192; 254; 120; 205; 90; 244;
   31; 221; 168; 51; 136; 7; 199; 49; 177; 18; 16; 89; 39; 128; 236; 95;
   96; 81; 127; 169; 25; 181; 74; 13; 45; 229; 122; 159; 147; 201; 156; 239;
   160; 224; 59; 77; 174; 42; 245; 176; 200; 235; 187; 60; 131; 83; 153; 97;
   23; 43; 4; 126; 186; 119; 214; 38; 225; 105; 20; 99; 85; 33; 12; 125].

Definition xtime (b : Z) : Z :=
  let d := Z.land (Z.shiftl b 1) 0xff in
  if Z.testbit b 7 then Z.lxor d 0x1b else d.

Definition mul2 := xtime.
Definition mul3 b := Z.lxor (xtime b) b.
Definition mul4 b := xtime (xtime b).
Definition mul8 b := xtime (mul4 b).
Definition mul9 b := Z.lxor (mul8 b) b.
Definition mul11 b := Z.lxor (mul9 b) (xtime b).
Definition mul13 b := Z.lxor (mul9 b) (mul4 b).
Definition mul14 b := Z.lxor (mul8 b) (Z.lxor (mul4 b) (xtime b)).

Definition sub (t : list Z) (b : Z) : Z := nth (Z.to_nat b) t 0.

(** Key schedule: eleven round keys of four 4-byte words. *)
Definition next_round_key (rcon : Z) (k : list Z) : list Z :=
  let w i := take 4 (drop (4 * i) k) in
  let rot l := match l with x :: l => l ++ [x] | [] => [] end in
  let t := match sub sbox <$> rot (w 3%nat) with x :: l => Z.lxor x rcon :: l | [] => [] end in
  let w0 := xor_bytes (w 0%nat) t in
  let w1 := xor_bytes (w 1%nat) w0 in
  let w2 := xor_bytes (w 2%nat) w1 in
  w0 ++ w1 ++ w2 ++ xor_bytes (w 3%nat) w2.

Fixpoint round_keys (n : nat) (rcon : Z) (k : list Z) : list (list Z) :=
  match n with
  | O => [k]
  | S n => k :: round_keys n (xtime rcon) (next_round_key rcon k)
  end.

Definition shift_rows (s : list Z) : list Z :=
  (λ i : nat, nth i s 0) <$> [0;5;10;15;4;9;14;3;8;13;2;7;12;1;6;11]%nat.
Definition inv_shift_rows (s : list Z) : list Z :=
  (λ i : nat, nth i s 0) <$> [0;13;10;7;4;1;14;11;8;5;2;15;12;9;6;3]%nat.

Fixpoint mix (m : Z → Z → Z → Z → list Z) (s : list Z) : list Z :=
  match s with
  | a :: b :: c :: d :: s => m a b c d ++ mix m s
  | _ => []
  end.

Definition mix_columns : list Z → list Z := mix (λ a b c d,
  [Z.lxor (Z.lxor (mul2 a) (mul3 b)) (Z.lxor c d);
   Z.lxor (Z.lxor a (mul2 b)) (Z.lxor (mul3 c) d);
   Z.lxor (Z.lxor a b) (Z.lxor (mul2 c) (mul3 d));
   Z.lxor (Z.lxor (mul3 a) b) (Z.lxor c (mul2 d))]).

Definition inv_mix_columns : list Z → list Z := mix (λ a b c d,
  [Z.lxor (Z.lxor (mul14 a) (mul11 b)) (Z.lxor (mul13 c) (mul9 d));
   Z.lxor (Z.lxor (mul9 a) (mul14 b)) (Z.lxor (mul11 c) (mul13 d));
   Z.lxor (Z.lxor (mul13 a) (mul9 b)) (Z.lxor (mul14 c) (mul11 d));
   Z.lxor (Z.lxor (mul11 a) (mul13 b)) (Z.lxor (mul9 c) (mul14 d))]).

Fixpoint enc_rounds (ks : list (list Z)) (s : list Z) : list Z :=
  match ks with
  | [] => s
  | [k] => xor_bytes (shift_rows (sub sbox <$> s)) k
  | k :: ks => enc_rounds ks (xor_bytes (mix_columns (shift_rows (sub sbox <$> s))) k)
  end.

Definition aes128_encrypt (key block : list Z) : list Z :=
  match round_keys 10 1 key with
  | k :: ks => enc_rounds ks (xor_bytes block k)
  | [] => []
  end.

Fixpoint dec_rounds (ks : list (list Z)) (s : list Z) : list Z :=
  match ks with
  | [] => s
  | [k] => xor_bytes (sub inv_sbox <$> inv_shift_rows s) k
  | k :: ks =>
      dec_rounds ks (inv_mix_columns (xor_bytes (sub inv_sbox <$> inv_shift_rows s) k))
  end.

Definition aes128_decrypt (key block : list Z) : list Z :=
  match reverse (round_keys 10 1 key) with
  | k :: ks => dec_rounds ks (xor_bytes block k)
  | [] => []
  end.

(** RFC 4493 subkeys: doubling in GF(2^128), big-endian bytes. *)
Definition dbl (b : list Z) : list Z :=
  let v := Z.shiftl (be_val b) 1 in
  let r := Z.land v (Z.ones 128) in
  let r := if Z.testbit v 128 then Z.lxor r 0x87 else r in
  reverse (le_bytes 16 r).

Fixpoint cbc_mac (fuel : nat) (E : list Z → list Z) (k1 k2 x m : list Z) : list Z :=
  match fuel with
  | O => x
  | S fuel =>
      if decide (length m ≤ 16)%nat then
        let last := if decide (length m = 16%nat) then xor_bytes m k1
                    else xor_bytes (take 16 (m ++ 0x80 :: replicate 16 0)) k2 in
        E (xor_bytes x last)
      else cbc_mac fuel E k1 k2 (E (xor_bytes x (take 16 m))) (drop 16 m)
  end.

(** CMAC over any 16-byte block cipher (SP 800-38B). *)
Definition block_cmac (E : list Z → list Z) (m : list Z) : list Z :=
  let k1 := dbl (E (replicate 16 0)) in
  cbc_mac (S (length m)) E k1 (dbl k1) (replicate 16 0) m.

Definition cmac (key m : list Z) : list Z := block_cmac (aes128_encrypt key) m.

Definition Aes128 : AesCrypto :=
  {| aes_cmac := cmac;
     aes_cbc_dec k b := aes128_decrypt k b;
     aes_cbc_enc k b := aes128_encrypt k b |}.

(** ** Vectors *)

Definition hex16 (s : string) : list Z :=
  match decode_hex 16 (lit s) with Ok l => l | Err _ => [] end.

(** RFC 4493, example 1 (empty message) and example 3 (40 bytes). *)
Example rfc4493_empty :
  cmac (hex16 "2b7e151628aed2a6abf7158809cf4f3c") [] =
    hex16 "bb1d6929e95937287fa37d129b756746".
Proof. vm_compute. reflexivity. Qed.

(** [picc.rs], [picc_valid_vectors]: the fixture URL under the test K1 and K2. *)
Definition fixture_k1 : list Z := hex16 "55DA174C9608993DC27BB3F30A4A7314".
Definition fixture_k2 : list Z := hex16 "2AB74ABC1273FB43CAE97553A36D4D08".

Example picc_fixture_url :
  picc_parse_url (C := Aes128) fixture_k1 fixture_k2
    (lit "https://example.com/bolt?p=E61CB056F52D34F9368F079D1814D2CF&c=FCC9A22201EA2298") =
  mkPiccData true (Some [0x04; 0x25; 0x60; 0x7A; 0x8F; 0x69; 0x80]) 0 true.
Proof. vm_compute. reflexivity. Qed.

(** [picc.rs], [an12196_table2_sv2_session_key_oracle]. *)
Example an12196_table2 :
  cmac (hex16 "5ACE7E50AB65D5D51FD5BF5A16B8205B")
    (sdm_build_sv2 [0x04; 0xC7; 0x67; 0xF2; 0x06; 0x61; 0x80] 1) =
    hex16 "3A3E8110E05311F7A3FCF0D969BF2B48".
Proof. vm_compute. reflexivity. Qed.
