(* ===== verification/Ndef.v ===== *)
(** * NDEF records and URL templates

    [crates/bolty-ntag/src/lib.rs]: [standardize_url_template], the RTD-URI
    prefix table and [parse_ndef_uri]. *)

From S2P Require Import Prelude Str Hex Derivation Picc.

(** ** URL templates *)

Definition MAC_MARK : list Z := lit "{mac}".
Definition MAC_OPEN : list Z := lit "[[{mac}".

Definition standardize_url_template (url : list Z) : list Z :=
  if contains MAC_OPEN url then url else replace MAC_MARK MAC_OPEN url.

(** ** NDEF URI records *)

Record NdefUri : Type := mkNdefUri {
  nu_url : list Z;
  nu_picc_hex : option (list Z);
  nu_mac_hex : option (list Z) }.

Definition URI_PREFIXES : list (list Z) :=
  [lit ""; lit "http://www."; lit "https://www."; lit "http://"; lit "https://";
   lit "tel:"; lit "mailto:"; lit "ftp://anonymous:anonymous@"; lit "ftp://ftp.";
   lit "ftps://"; lit "sftp://"; lit "smb://"; lit "nfs://"; lit "ftp://"; lit "dav://";
   lit "news:"; lit "telnet://"; lit "imap:"; lit "rtsp://"; lit "urn:"; lit "pop:";
   lit "sip:"; lit "sips:"; lit "tftp:"; lit "btspp://"; lit "btl2cap://"; lit "btgoep://";
   lit "tcpobex://"; lit "irdaobex://"; lit "file://"; lit "urn:epc:id:"; lit "urn:epc:tag:";
   lit "urn:epc:pat:"; lit "urn:epc:raw:"; lit "urn:epc:"; lit "urn:nfc:"].

(** [slice.get(a..b)] with the bounds still integers: lengths read from the
    card can be as large as [u32::MAX]. *)
Definition get_rangeZ (l : list Z) (a b : Z) : option (list Z) :=
  if decide (0 ≤ a ∧ a ≤ b ∧ b ≤ Z.of_nat (length l))
  then Some (take (Z.to_nat (b - a)) (drop (Z.to_nat a) l)) else None.

(** The record inside the NDEF message.  [checked_add] never overflows before
    the range check rejects, so the additions are unbounded here. *)
Definition parse_uri_message (msg : list Z) : option NdefUri :=
  flags ← msg !! 0%nat;
  let sr := negb (bool_decide (Z.land flags 0x10 = 0)) in
  let il := negb (bool_decide (Z.land flags 0x08 = 0)) in
  type_len ← msg !! 1%nat;
  let header_len := (if sr then 3 else 6)%nat in
  payload_len ←
    (if sr then msg !! 2%nat
     else b0 ← msg !! 2%nat; b1 ← msg !! 3%nat; b2 ← msg !! 4%nat; b3 ← msg !! 5%nat;
          Some (be_val [b0; b1; b2; b3]));
  if decide (type_len ≠ 1) then None else
  ty ← msg !! header_len;
  if decide (ty ≠ 0x55) then None else
  let payload_offset := Z.of_nat header_len + type_len in
  payload_offset ←
    (if il then
       id_len ← msg !! Z.to_nat payload_offset;
       Some (payload_offset + 1 + id_len)
     else Some payload_offset);
  let payload_end := payload_offset + payload_len in
  payload ← get_rangeZ msg payload_offset payload_end;
  match payload with
  | [] => None
  | prefix_code :: uri =>
      prefix ← URI_PREFIXES !! Z.to_nat prefix_code;
      text ← from_utf8 uri;
      let uri_str := trim_end_matches 0 text in
      let '(picc_hex, mac_hex) :=
        match extract_p_and_c uri_str with
        | Some (p, c) => (Some p, Some c)
        | None => (None, None)
        end in
      Some (mkNdefUri (prefix ++ uri_str) picc_hex mac_hex)
  end.

Definition parse_ndef_uri (data : list Z) : option NdefUri :=
  if decide (length data < 4)%nat then None else
  d0 ← data !! 0%nat; d1 ← data !! 1%nat;
  let nlen := be_val [d0; d1] in
  if decide (nlen < 5 ∨ Z.of_nat (length data) < 2 + nlen) then None else
  msg ← get_rangeZ data 2 (2 + nlen);
  parse_uri_message msg.

(** ** Template lemmas *)

Lemma replace_contains p r s :
  p ≠ [] → contains p s = true → contains r (replace p r s) = true.
Proof.
  intros Hp. unfold replace. induction s as [|c s IH]; cbn [contains]; intros H.
  - rewrite orb_false_r in H. apply starts_with_spec in H as [k Hk].
    by destruct p.
  - cbn [replace_from]. destruct (starts_with p (c :: s)) eqn:E.
    + apply (contains_mid r []).
    + simpl in H. apply IH in H. apply contains_spec in H as (a & b & ->).
      apply (contains_mid r (c :: a)).
Qed.

Lemma open_contains_mark s : contains MAC_OPEN s = true → contains MAC_MARK s = true.
Proof.
  rewrite !contains_spec. intros (a & b & ->). exists (a ++ lit "[["), b.
  by rewrite <-app_assoc.
Qed.

Lemma standardize_mark url :
  contains MAC_MARK url = true → contains MAC_OPEN (standardize_url_template url) = true.
Proof.
  intros H. unfold standardize_url_template. destruct (contains MAC_OPEN url) eqn:E; [done|].
  by apply replace_contains.
Qed.

(** [standardize_url_template] does what burned cards need: a template
    with a [{mac}] placeholder comes out with the placeholder opened by
    [[[], so that the MAC input range is empty; one without a placeholder is
    unchanged; and standardizing twice is standardizing once. *)
Theorem standardize_url_template_correct (url : list Z) :
  let s := standardize_url_template url in
  contains MAC_OPEN s = contains MAC_MARK url ∧
  (contains MAC_MARK url = false → s = url) ∧
  standardize_url_template s = s.
Proof.
  intros s. assert (contains MAC_MARK url = false → s = url) as Hno.
  { intros H. unfold s, standardize_url_template.
    destruct (contains MAC_OPEN url); [done|]. by apply replace_absent. }
  assert (contains MAC_OPEN s = contains MAC_MARK url) as Hc.
  { destruct (contains MAC_MARK url) eqn:E; [by apply standardize_mark|].
    rewrite Hno by done. destruct (contains MAC_OPEN url) eqn:E'; [|done].
    apply open_contains_mark in E'. congruence. }
  split; [done|]. split; [done|].
  destruct (contains MAC_MARK url) eqn:E.
  - unfold standardize_url_template at 1. by rewrite Hc.
  - rewrite (Hno eq_refl). by apply Hno.
Qed.

(** ** Round trip of URI records *)

Definition be_bytes (n : nat) (z : Z) : list Z := reverse (le_bytes n z).

Lemma be_val_bytes n z :
  0 ≤ z < 2 ^ (8 * Z.of_nat n) → be_val (be_bytes n z) = z.
Proof.
  intros. unfold be_val, be_bytes. rewrite reverse_involutive, le_val_bytes.
  by apply Z.mod_small.
Qed.

(** A well-known URI record: short form (8-bit payload length) or long form
    (32-bit big-endian), in an NDEF file with its 2-byte NLEN. *)
Definition uri_message (sr : bool) (code : Z) (rest : list Z) : list Z :=
  let plen := 1 + Z.of_nat (length rest) in
  (if sr then [0xD1; 1] ++ be_bytes 1 plen else [0xC1; 1] ++ be_bytes 4 plen)
  ++ [0x55; code] ++ rest.

Definition ndef_file (msg trailing : list Z) : list Z :=
  be_bytes 2 (Z.of_nat (length msg)) ++ msg ++ trailing.

Lemma get_rangeZ_mid (a m t : list Z) (x y : Z) :
  x = Z.of_nat (length a) → y = x + Z.of_nat (length m) → get_rangeZ (a ++ m ++ t) x y = Some m.
Proof.
  intros -> ->. unfold get_rangeZ. rewrite decide_True by (rewrite !length_app; lia).
  f_equal. rewrite Nat2Z.id, drop_app_length.
  replace (Z.to_nat _) with (length m) by lia. apply take_app_length.
Qed.

Lemma trim_end_no_nul s : last s ≠ Some 0 → trim_end_matches 0 s = s.
Proof.
  intros H. destruct (last s) as [x|] eqn:E.
  - apply last_Some in E as [l' ->]. apply trim_end_matches_last. congruence.
  - apply last_None in E as ->. done.
Qed.

Lemma parse_ndef_uri_window msg trailing :
  5 ≤ Z.of_nat (length msg) < 65536 → parse_ndef_uri (ndef_file msg trailing) = parse_uri_message msg.
Proof.
  intros H. unfold parse_ndef_uri, ndef_file.
  pose proof (be_val_bytes 2 (Z.of_nat (length msg)) ltac:(change (2 ^ (8 * Z.of_nat 2)) with 65536; lia)) as Hb.
  remember (be_bytes 2 (Z.of_nat (length msg))) as n eqn:En.
  assert (length n = 2%nat) as Hn by (subst; done).
  destruct n as [|x [|y [|]]]; try done.
  rewrite decide_False by (rewrite !length_app; simpl; lia).
  cbn [app lookup list_lookup mbind option_bind]. rewrite Hb.
  rewrite decide_False by (simpl; rewrite length_app; lia).
  change (x :: y :: msg ++ trailing) with ([x; y] ++ msg ++ trailing).
  by rewrite get_rangeZ_mid by (simpl; lia).
Qed.

Definition parsed_uri (prefix rest : list Z) : NdefUri :=
  let pc := extract_p_and_c rest in mkNdefUri (prefix ++ rest) (fst <$> pc) (snd <$> pc).

(** The record parser on header bytes [h], type ['U'] and payload. *)
Lemma parse_uri_message_ok (sr : bool) (h rest : list Z) code prefix :
  URI_PREFIXES !! Z.to_nat code = Some prefix →
  from_utf8 rest = Some rest → last rest ≠ Some 0 →
  length h = (if sr then 1 else 4)%nat → be_val h = 1 + Z.of_nat (length rest) →
  parse_uri_message ((if sr then 0xD1 else 0xC1) :: 1 :: h ++ [0x55; code] ++ rest) =
    Some (parsed_uri prefix rest).
Proof.
  intros Hpre Hutf Hlast Hh Hv.
  set (fl := if sr then 0xD1 else 0xC1).
  assert (Z.land fl 0x08 = 0) as Hil by (by destruct sr).
  assert (bool_decide (Z.land fl 0x10 = 0) = negb sr) as Hsr by (by destruct sr).
  assert (get_rangeZ (fl :: 1 :: h ++ [0x55; code] ++ rest)
    (Z.of_nat (if sr then 3 else 6) + 1) (Z.of_nat (if sr then 3 else 6) + 1 + (1 + Z.of_nat (length rest)))
    = Some (code :: rest)) as Hr.
  { replace (fl :: 1 :: h ++ [0x55; code] ++ rest) with
      (((fl :: 1 :: h) ++ [0x55]) ++ (code :: rest) ++ []) by
      (rewrite app_nil_r; simpl; by rewrite <-app_assoc).
    apply get_rangeZ_mid; rewrite ?length_app; simpl; rewrite ?Hh; destruct sr; simpl; lia. }
  unfold parse_uri_message.
  change ((fl :: 1 :: h ++ [0x55; code] ++ rest) !! 0%nat) with (Some fl).
  change ((fl :: 1 :: h ++ [0x55; code] ++ rest) !! 1%nat) with (Some 1).
  cbn [mbind option_bind]. rewrite Hsr, Hil, negb_involutive.
  assert (∀ k, (k < length h)%nat → (fl :: 1 :: h ++ [0x55; code] ++ rest) !! (S (S k)) = h !! k) as Hlk.
  { intros k Hk. by apply (lookup_app_l h). }
  assert ((fl :: 1 :: h ++ [0x55; code] ++ rest) !! (if sr then 3 else 6)%nat = Some 0x55) as Hty.
  { transitivity ((h ++ [0x55; code] ++ rest) !! (length h)); [by rewrite Hh; destruct sr|].
    by apply (list_lookup_middle h (code :: rest) 0x55). }
  assert ((if sr then (fl :: 1 :: h ++ [0x55; code] ++ rest) !! 2%nat else
    b0 ← (fl :: 1 :: h ++ [0x55; code] ++ rest) !! 2%nat;
    b1 ← (fl :: 1 :: h ++ [0x55; code] ++ rest) !! 3%nat;
    b2 ← (fl :: 1 :: h ++ [0x55; code] ++ rest) !! 4%nat;
    b3 ← (fl :: 1 :: h ++ [0x55; code] ++ rest) !! 5%nat; Some (be_val [b0; b1; b2; b3]))
    = Some (1 + Z.of_nat (length rest))) as Hpl.
  { rewrite !Hlk by (rewrite Hh; destruct sr; lia). rewrite <-Hv. destruct sr.
    - destruct h as [|x [|]]; try done. unfold be_val. simpl. f_equal. lia.
    - by destruct h as [|x [|y [|z [|w [|]]]]]. }
  rewrite Hpl. cbn [mbind option_bind]. rewrite decide_False by lia.
  rewrite Hty. cbn [mbind option_bind]. rewrite decide_False by lia.
  rewrite bool_decide_eq_true_2 by done. cbn [negb mbind option_bind].
  rewrite Hr. cbn [mbind option_bind]. rewrite Hpre. cbn [mbind option_bind].
  rewrite Hutf. cbn [mbind option_bind]. rewrite trim_end_no_nul by done.
  unfold parsed_uri. by destruct (extract_p_and_c rest) as [[p c]|].
Qed.

(** Round trip of NDEF URI records: a file whose message is a well-known
    URI record, in short or long form, parses to the table prefix of its
    identifier code followed by the payload text, with the SUN parameters of
    that text, whatever follows the message in the file. *)
Theorem parse_ndef_uri_roundtrip (sr : bool) (code : Z) (prefix rest trailing : list Z) :
  URI_PREFIXES !! Z.to_nat code = Some prefix →
  from_utf8 rest = Some rest → last rest ≠ Some 0 →
  Z.of_nat (length rest) ≤ (if sr then 254 else 65527) →
  parse_ndef_uri (ndef_file (uri_message sr code rest) trailing) = Some (parsed_uri prefix rest).
Proof.
  intros Hpre Hutf Hlast Hlen.
  assert (length (uri_message sr code rest) = (length rest + if sr then 5 else 8)%nat) as Hm.
  { unfold uri_message. destruct sr; simpl; lia. }
  rewrite parse_ndef_uri_window by (rewrite Hm; destruct sr; lia).
  unfold uri_message. destruct sr.
  - apply (parse_uri_message_ok true (be_bytes 1 (1 + Z.of_nat (length rest)))); try done.
    apply be_val_bytes. lia.
  - apply (parse_uri_message_ok false (be_bytes 4 (1 + Z.of_nat (length rest)))); try done.
    apply be_val_bytes. lia.
Qed.

Lemma parse_ndef_uri_roundtrip_witness :
  parse_ndef_uri (ndef_file (uri_message true 4 (lit "a.b/?p=00&c=11")) [0; 0]) =
    Some (parsed_uri (lit "https://") (lit "a.b/?p=00&c=11")).
Proof.
  apply parse_ndef_uri_roundtrip; try reflexivity; vm_compute; congruence.
Defined.
