(* ===== verification/NtagTypes.v ===== *)
(** * Types of the NTAG 424 DNA interface

    The enums and structs through which the workflows talk about a card: key
    numbers, UIDs, access rights, Secure Dynamic Messaging settings, file
    settings (view and update), version information and the error types.
    They mirror [vendor/ntag424/src/types] with the source's constructors;
    [Offset] and [EncLength] are their [u32] payload. *)

From S2P Require Import Prelude Str Hex.

Inductive KeyNumber := Key0 | Key1 | Key2 | Key3 | Key4.

#[export] Instance KeyNumber_eq_dec : EqDecision KeyNumber.
Proof. solve_decision. Defined.

Definition as_byte (k : KeyNumber) : Z :=
  match k with Key0 => 0 | Key1 => 1 | Key2 => 2 | Key3 => 3 | Key4 => 4 end.

Inductive NonMasterKeyNumber := NmKey1 | NmKey2 | NmKey3 | NmKey4.

#[export] Instance NonMasterKeyNumber_eq_dec : EqDecision NonMasterKeyNumber.
Proof. solve_decision. Defined.

Definition key_number_from (k : NonMasterKeyNumber) : KeyNumber :=
  match k with NmKey1 => Key1 | NmKey2 => Key2 | NmKey3 => Key3 | NmKey4 => Key4 end.

Inductive Uid :=
| Uid_Fixed (b : list Z)
| Uid_Random (b : list Z).

#[export] Instance Uid_eq_dec : EqDecision Uid.
Proof. solve_decision. Defined.

Inductive FileType := StandardData.
Inductive CommMode := Plain | Mac | Full.
Inductive CryptoMode := Aes | Lrp.

Inductive Access :=
| Access_Key (k : KeyNumber)
| Access_Free
| Access_NoAccess.

Inductive CtrRetAccess :=
| CtrRet_Key (k : KeyNumber)
| CtrRet_Free
| CtrRet_NoAccess.

Record AccessRights := mkAccessRights {
  ar_read : Access;
  ar_write : Access;
  ar_read_write : Access;
  ar_change : Access;
}.

(** ** Secure Dynamic Messaging settings *)

Record ReadCtrFeatures := mkReadCtrFeatures {
  rcf_limit : option Z;
  rcf_ret_access : CtrRetAccess;
}.

Record ReadCtrMirror := mkReadCtrMirror {
  rcm_offset : Z;
  rcm_features : ReadCtrFeatures;
}.

Inductive PlainMirror :=
| PlainMirror_Uid (uid : Z)
| PlainMirror_RCtr (read_ctr : ReadCtrMirror)
| PlainMirror_Both (uid : Z) (read_ctr : ReadCtrMirror).

Inductive EncryptedContent :=
| EncContent_Uid
| EncContent_RCtr (f : ReadCtrFeatures)
| EncContent_Both (f : ReadCtrFeatures).

Inductive PiccData :=
| PiccData_None
| PiccData_Plain (m : PlainMirror)
| PiccData_Encrypted (key : KeyNumber) (offset : Z) (content : EncryptedContent).

Record MacWindow := mkMacWindow { mw_input : Z; mw_mac : Z }.
Record EncFileData := mkEncFileData { efd_start : Z; efd_length : Z }.

Inductive FileRead :=
| FileRead_MacOnly (key : KeyNumber) (window : MacWindow)
| FileRead_MacAndEnc (key : KeyNumber) (window : MacWindow) (enc : EncFileData).

Record Sdm := mkSdm {
  sdm_picc_data : PiccData;
  sdm_file_read : option FileRead;
  sdm_tamper_status : option Z;
}.

Definition Sdm_disabled : Sdm := mkSdm PiccData_None None None.

(** ** File settings *)

Record FileSettingsView := mkFileSettingsView {
  fs_file_type : FileType;
  fs_file_size : Z;
  fs_comm_mode : CommMode;
  fs_access_rights : AccessRights;
  fs_sdm : option Sdm;
}.

Record FileSettingsUpdate := mkFileSettingsUpdate {
  fu_comm_mode : CommMode;
  fu_access_rights : AccessRights;
  fu_sdm : option Sdm;
}.

Definition update_new (m : CommMode) (ar : AccessRights) : FileSettingsUpdate :=
  mkFileSettingsUpdate m ar None.

Definition with_sdm (u : FileSettingsUpdate) (sdm : Sdm) : FileSettingsUpdate :=
  mkFileSettingsUpdate (fu_comm_mode u) (fu_access_rights u) (Some sdm).

Definition without_sdm (u : FileSettingsUpdate) : FileSettingsUpdate :=
  mkFileSettingsUpdate (fu_comm_mode u) (fu_access_rights u) None.

Definition into_update (v : FileSettingsView) : FileSettingsUpdate :=
  let patch := update_new (fs_comm_mode v) (fs_access_rights v) in
  match fs_sdm v with
  | Some sdm => with_sdm patch sdm
  | None => patch
  end.

(** Delivery settings of the NDEF file, [FileSettingsView::factory]. *)
Definition ndef_factory : FileSettingsView :=
  mkFileSettingsView StandardData 256 Plain
    (mkAccessRights Access_Free Access_Free Access_Free (Access_Key Key0)) None.

#[export] Instance FileType_eq_dec : EqDecision FileType.
Proof. solve_decision. Defined.
#[export] Instance CommMode_eq_dec : EqDecision CommMode.
Proof. solve_decision. Defined.
#[export] Instance Access_eq_dec : EqDecision Access.
Proof. solve_decision. Defined.
#[export] Instance CtrRetAccess_eq_dec : EqDecision CtrRetAccess.
Proof. solve_decision. Defined.
#[export] Instance AccessRights_eq_dec : EqDecision AccessRights.
Proof. solve_decision. Defined.
#[export] Instance ReadCtrFeatures_eq_dec : EqDecision ReadCtrFeatures.
Proof. solve_decision. Defined.
#[export] Instance ReadCtrMirror_eq_dec : EqDecision ReadCtrMirror.
Proof. solve_decision. Defined.
#[export] Instance PlainMirror_eq_dec : EqDecision PlainMirror.
Proof. solve_decision. Defined.
#[export] Instance EncryptedContent_eq_dec : EqDecision EncryptedContent.
Proof. solve_decision. Defined.
#[export] Instance PiccData_eq_dec : EqDecision PiccData.
Proof. solve_decision. Defined.
#[export] Instance MacWindow_eq_dec : EqDecision MacWindow.
Proof. solve_decision. Defined.
#[export] Instance EncFileData_eq_dec : EqDecision EncFileData.
Proof. solve_decision. Defined.
#[export] Instance FileRead_eq_dec : EqDecision FileRead.
Proof. solve_decision. Defined.
#[export] Instance Sdm_eq_dec : EqDecision Sdm.
Proof. solve_decision. Defined.
#[export] Instance FileSettingsView_eq_dec : EqDecision FileSettingsView.
Proof. solve_decision. Defined.

(** ** Version information *)

Record Version := mkVersion {
  ver_part1 : list Z;
  ver_part2 : list Z;
  ver_part3 : list Z;
}.

Definition hw_vendor_id (v : Version) : Z := nth 0 (ver_part1 v) 0.
Definition hw_type (v : Version) : Z := nth 1 (ver_part1 v) 0.

(** ** Errors *)

Inductive ResponseStatus :=
| OperationOk | IllegalCommandCode | IntegrityError | NoSuchKey | LengthError
| PermissionDenied | ParameterError | AuthenticationDelay | AuthenticationError
| AdditionalFrame | BoundaryError | CommandAborted | MemoryError | FileNotFound
| WrongLength | SecurityStatusNotSatisfied | ConditionsOfUseNotSatisfied
| IncorrectParametersInTheCommandDataField | FileOrApplicationNotFound
| IncorrectParametersP1P2 | LcInconsistentWithParametersP1P2 | WrongLeField
| WrongLeFieldExpected (b : Z) | InstructionCodeNotSupportedOrInvalid
| ClassNotSupported | NormalProcessing | Unknown (sw : Z).

#[export] Instance ResponseStatus_eq_dec : EqDecision ResponseStatus.
Proof. solve_decision. Defined.

Inductive NibbleSlot :=
| Slot_Read | Slot_Write | Slot_ReadWrite | Slot_Change
| Slot_SdmMetaRead | Slot_SdmFileRead | Slot_SdmCtrRet.

Inductive OverlapKind :=
| UidAndRCtr | UidAndTamper | RCtrAndTamper | UidAndMac | RCtrAndMac | TamperAndMac
| EncAndUid | EncAndRCtr | TamperInCiphertextHalf | PiccAndTamper | PiccAndMac | PiccAndEnc.

Inductive ReservedByte := RB_FileOption | RB_SdmOptions | RB_SdmAccessRights0.

Inductive FileSettingsError :=
| BufferTooShort (needed have : Z)
| TrailingBytes (n : Z)
| UnknownFileType (b : Z)
| InvalidAccessNibble (slot : NibbleSlot) (value : Z)
| OffsetOutOfRange (v : Z)
| EncLengthInvalid (v : Z)
| MacInputAfterMac
| EncOutsideMacWindow
| ReservedBitSet (byte : ReservedByte) (mask : Z)
| EncRequiresBothMirrors
| MirrorsOverlap (k : OverlapKind)
| InvalidSdmFlags.

Inductive SessionError (TE : Type) :=
| SE_Transport (e : TE)
| SE_ErrorResponse (st : ResponseStatus)
| SE_UnexpectedLength (got expected : Z)
| SE_InvalidCommandParameter (parameter : list Z) (value : Z) (reason : list Z)
| SE_ApduBodyTooLarge (got max : Z)
| SE_FileSettings (e : FileSettingsError)
| SE_OriginalityVerificationFailed
| SE_AuthenticationMismatch
| SE_ResponseMacMismatch
| SE_NotBlockAligned (n : Z)
| SE_NotFactoryState (why : list Z).
Arguments SE_Transport {TE} _.
Arguments SE_ErrorResponse {TE} _.
Arguments SE_UnexpectedLength {TE} _ _.
Arguments SE_InvalidCommandParameter {TE} _ _ _.
Arguments SE_ApduBodyTooLarge {TE} _ _.
Arguments SE_FileSettings {TE} _.
Arguments SE_OriginalityVerificationFailed {TE}.
Arguments SE_AuthenticationMismatch {TE}.
Arguments SE_ResponseMacMismatch {TE}.
Arguments SE_NotBlockAligned {TE} _.
Arguments SE_NotFactoryState {TE} _.

Inductive SdmUrlError :=
| MissingMac | PiccWithPlainMirrors | NoMirror
| DuplicatePlaceholder (s : list Z)
| EncFileDataRequiresUidAndCtr
| InvalidEncRangeLength (n : Z)
| InvalidPlaceholder (s : list Z)
| Unterminated (s : list Z)
| UnexpectedMarker (s : list Z)
| DuplicateRange (s : list Z)
| PlaceholderInEncRange (s : list Z)
| NestedRange (s : list Z)
| MacStartAfterMac
| FileTooLong (got max : Z)
| SdmUrl_FileSettings (e : FileSettingsError).

Record SdmUrlOptions := mkSdmUrlOptions {
  suo_picc_key : KeyNumber;
  suo_mac_key : KeyNumber;
  suo_ctr_ret : CtrRetAccess;
  suo_max_file_size : Z;
}.

Definition SdmUrlOptions_new : SdmUrlOptions :=
  mkSdmUrlOptions Key2 Key2 CtrRet_NoAccess 256.

(** The fields of [SdmUrlConfig] the workflows read. *)
Record SdmUrlConfig := mkSdmUrlConfig {
  ndef_bytes : list Z;
  sdm_settings : Sdm;
}.

(** ** Selecting one of the five keys *)

Definition get_key (n : KeyNumber) (k : CardKeys) : AesKey :=
  match n with
  | Key0 => k0 k | Key1 => k1 k | Key2 => k2 k | Key3 => k3 k | Key4 => k4 k
  end.

Definition set_key (n : KeyNumber) (x : AesKey) (k : CardKeys) : CardKeys :=
  match n with
  | Key0 => mkCardKeys x (k1 k) (k2 k) (k3 k) (k4 k)
  | Key1 => mkCardKeys (k0 k) x (k2 k) (k3 k) (k4 k)
  | Key2 => mkCardKeys (k0 k) (k1 k) x (k3 k) (k4 k)
  | Key3 => mkCardKeys (k0 k) (k1 k) (k2 k) x (k4 k)
  | Key4 => mkCardKeys (k0 k) (k1 k) (k2 k) (k3 k) x
  end.

(** The five key versions a card stores. *)
Record KeyVersions := mkKeyVersions { v0 : Z; v1 : Z; v2 : Z; v3 : Z; v4 : Z }.

#[export] Instance KeyVersions_eq_dec : EqDecision KeyVersions.
Proof. solve_decision. Defined.

Definition get_ver (n : KeyNumber) (v : KeyVersions) : Z :=
  match n with
  | Key0 => v0 v | Key1 => v1 v | Key2 => v2 v | Key3 => v3 v | Key4 => v4 v
  end.

Definition set_ver (n : KeyNumber) (x : Z) (v : KeyVersions) : KeyVersions :=
  match n with
  | Key0 => mkKeyVersions x (v1 v) (v2 v) (v3 v) (v4 v)
  | Key1 => mkKeyVersions (v0 v) x (v2 v) (v3 v) (v4 v)
  | Key2 => mkKeyVersions (v0 v) (v1 v) x (v3 v) (v4 v)
  | Key3 => mkKeyVersions (v0 v) (v1 v) (v2 v) x (v4 v)
  | Key4 => mkKeyVersions (v0 v) (v1 v) (v2 v) (v3 v) x
  end.

Definition all_versions (x : Z) : KeyVersions := mkKeyVersions x x x x x.
