(* ===== verification/Cc.v ===== *)
(** * The capability container

    [vendor/ntag424/src/types/cc.rs]: the file that tells a reader which files the
    card has and how they may be accessed.  The parser with its errors, the writer,
    the factory container and the setters; what was parsed is written so that it
    parses to the same container. *)

From S2P Require Import Prelude NtagTypes.

Definition MAX_CC_FILES : nat := 3.

Inductive FileCtrlKind := Kind_Ndef | Kind_Proprietary.
#[export] Instance FileCtrlKind_eq_dec : EqDecision FileCtrlKind.
Proof. solve_decision. Defined.

Inductive AccessCondition := AC_Open | AC_ProprietaryKey (k : KeyNumber) | AC_Denied | AC_Raw (b : Z).

Definition from_byte (b : Z) : AccessCondition :=
  match b with
  | 0x00 => AC_Open
  | 0x80 => AC_ProprietaryKey Key0
  | 0x81 => AC_ProprietaryKey Key1
  | 0x82 => AC_ProprietaryKey Key2
  | 0x83 => AC_ProprietaryKey Key3
  | 0x84 => AC_ProprietaryKey Key4
  | 0xFF => AC_Denied
  | other => AC_Raw other
  end.

Definition to_byte (a : AccessCondition) : Z :=
  match a with
  | AC_Open => 0x00
  | AC_ProprietaryKey k => Z.lor 0x80 (as_byte k)
  | AC_Denied => 0xFF
  | AC_Raw b => b
  end.

Record FileCtrl := mkFileCtrl {
  fc_kind : FileCtrlKind; fc_file_id : Z; fc_file_size : Z; fc_read : AccessCondition; fc_write : AccessCondition }.

Record CapabilityContainer := mkCapabilityContainer {
  cc_len : Z; cc_t4t_version : Z; cc_max_le : Z; cc_max_lc : Z; cc_files : list FileCtrl }.

Inductive CcError :=
| CC_TooShort | CC_EntryOverflow | CC_UnknownEntryTag (t : Z) | CC_UnexpectedEntryLength (l : Z) | CC_TooManyEntries.

Definition be16 (l : list Z) : Z := be_val (take 2 l).

Definition kind_of (t : Z) : result FileCtrlKind CcError :=
  match t with 0x04 => Ok Kind_Ndef | 0x05 => Ok Kind_Proprietary | _ => Err (CC_UnknownEntryTag t) end.
Definition kind_tag (k : FileCtrlKind) : Z := match k with Kind_Ndef => 0x04 | Kind_Proprietary => 0x05 end.

Definition parse_entry (kind : FileCtrlKind) (entry : list Z) : FileCtrl :=
  mkFileCtrl kind (be16 entry) (be16 (drop 2 entry)) (from_byte (nth 4 entry 0)) (from_byte (nth 5 entry 0)).

(** The loop, on the bytes from the offset up to the limit; every round takes at least
    two of them. *)
Fixpoint parse_files (fuel : nat) (rest : list Z) (files : list FileCtrl) : result (list FileCtrl) CcError :=
  match fuel, rest with
  | S fuel, t :: l :: rest =>
      if decide (Z.of_nat (length rest) < l) then Err CC_EntryOverflow else
      kind ←? kind_of t;
      if decide (l ≠ 6) then Err (CC_UnexpectedEntryLength l) else
      if decide (length files < MAX_CC_FILES)%nat then parse_files fuel (drop 6 rest) (files ++ [parse_entry kind (take 6 rest)])
      else Err CC_TooManyEntries
  | _, _ => Ok files
  end.

Definition CapabilityContainer_from_bytes (data : list Z) : result CapabilityContainer CcError :=
  if decide (length data < 7)%nat then Err CC_TooShort else
  let len := be16 data in
  let limit := Nat.min (Z.to_nat len) (length data) in
  files ←? parse_files (length data) (drop 7 (take limit data)) [];
  Ok (mkCapabilityContainer len (nth 2 data 0) (be16 (drop 3 data)) (be16 (drop 5 data)) files).

Definition be_bytes16 (v : Z) : list Z := reverse (le_bytes 2 v).

Definition entry_bytes (f : FileCtrl) : list Z :=
  be_bytes16 (fc_file_id f) ++ be_bytes16 (fc_file_size f) ++ [to_byte (fc_read f); to_byte (fc_write f)].
Definition file_bytes (f : FileCtrl) : list Z := [kind_tag (fc_kind f); 0x06] ++ entry_bytes f.

Definition CapabilityContainer_to_bytes (c : CapabilityContainer) : list Z :=
  be_bytes16 (cc_len c) ++ [cc_t4t_version c] ++ be_bytes16 (cc_max_le c) ++ be_bytes16 (cc_max_lc c) ++
  concat (file_bytes <$> cc_files c).

Definition CapabilityContainer_default : CapabilityContainer :=
  mkCapabilityContainer 0x0017 0x20 0x0100 0x00FF
    [mkFileCtrl Kind_Ndef 0xE104 0x0100 AC_Open AC_Open;
     mkFileCtrl Kind_Proprietary 0xE105 0x0080 (AC_ProprietaryKey Key2) (AC_ProprietaryKey Key3)].

(** [find_mut] and an assignment: the first file of the kind, if there is one. *)
Fixpoint update_first (kind : FileCtrlKind) (f : FileCtrl → FileCtrl) (l : list FileCtrl) : list FileCtrl :=
  match l with
  | [] => []
  | x :: l => if decide (fc_kind x = kind) then f x :: l else x :: update_first kind f l
  end.
Definition find_mut (kind : FileCtrlKind) (f : FileCtrl → FileCtrl) (c : CapabilityContainer) : CapabilityContainer :=
  mkCapabilityContainer (cc_len c) (cc_t4t_version c) (cc_max_le c) (cc_max_lc c) (update_first kind f (cc_files c)).

Definition set_read (a : AccessCondition) (f : FileCtrl) : FileCtrl :=
  mkFileCtrl (fc_kind f) (fc_file_id f) (fc_file_size f) a (fc_write f).
Definition set_write (a : AccessCondition) (f : FileCtrl) : FileCtrl :=
  mkFileCtrl (fc_kind f) (fc_file_id f) (fc_file_size f) (fc_read f) a.
Definition set_size (n : Z) (f : FileCtrl) : FileCtrl :=
  mkFileCtrl (fc_kind f) (fc_file_id f) n (fc_read f) (fc_write f).

Definition with_ndef_read_access (a : AccessCondition) := find_mut Kind_Ndef (set_read a).
Definition with_ndef_write_access (a : AccessCondition) := find_mut Kind_Ndef (set_write a).
Definition with_proprietary_read_access (a : AccessCondition) := find_mut Kind_Proprietary (set_read a).
Definition with_proprietary_write_access (a : AccessCondition) := find_mut Kind_Proprietary (set_write a).
Definition with_ndef_file_size (n : Z) := find_mut Kind_Ndef (set_size n).
Definition with_proprietary_file_size (n : Z) := find_mut Kind_Proprietary (set_size n).

(** The factory container on the wire (the vector of the source's tests). *)
Example default_bytes :
  CapabilityContainer_to_bytes CapabilityContainer_default =
  [0x00; 0x17; 0x20; 0x01; 0x00; 0x00; 0xFF; 0x04; 0x06; 0xE1; 0x04; 0x01; 0x00; 0x00; 0x00;
   0x05; 0x06; 0xE1; 0x05; 0x00; 0x80; 0x82; 0x83].
Proof. vm_compute. reflexivity. Qed.

(** ** Parsing back *)

Lemma from_to_byte b : is_u8 b → to_byte (from_byte b) = b.
Proof.
  intros [H0 H1]. assert (∀ n, (n < 256)%nat → to_byte (from_byte (Z.of_nat n)) = Z.of_nat n) as G.
  { intros n Hn. do 256 (destruct n as [|n]; [reflexivity|]). lia. }
  specialize (G (Z.to_nat b)). rewrite Z2Nat.id in G by done. apply G. lia.
Qed.

Record file_ok (f : FileCtrl) : Prop := {
  ok_id : 0 ≤ fc_file_id f < 2 ^ 16;
  ok_size : 0 ≤ fc_file_size f < 2 ^ 16;
  ok_read : from_byte (to_byte (fc_read f)) = fc_read f;
  ok_write : from_byte (to_byte (fc_write f)) = fc_write f }.

Lemma be16_bytes v l : 0 ≤ v < 2 ^ 16 → be16 (be_bytes16 v ++ l) = v.
Proof.
  intros Hv. unfold be16, be_val, be_bytes16. rewrite take_app_exact by done. rewrite reverse_involutive, le_val_bytes.
  by apply Z.mod_small.
Qed.

Lemma parse_entry_bytes f l : file_ok f → parse_entry (fc_kind f) (entry_bytes f ++ l) = f.
Proof.
  intros [H1 H2 H3 H4]. unfold parse_entry, entry_bytes. rewrite <-!(assoc_L (++)), !be16_bytes by done.
  rewrite drop_app_exact, be16_bytes by done. change (nth 4 _ 0) with (to_byte (fc_read f)).
  change (nth 5 _ 0) with (to_byte (fc_write f)). rewrite H3, H4. by destruct f.
Qed.

Lemma kind_of_tag k : kind_of (kind_tag k) = Ok k.
Proof. by destruct k. Qed.

Lemma parse_files_bytes fuel fs done_ : Forall file_ok fs → (length fs ≤ fuel)%nat → (length done_ + length fs ≤ MAX_CC_FILES)%nat →
  parse_files fuel (concat (file_bytes <$> fs)) done_ = Ok (done_ ++ fs).
Proof.
  revert fuel done_. induction fs as [|f fs IH]; intros fuel done_ Hok Hf Hm; simpl in Hf, Hm.
  { rewrite app_nil_r. by destruct fuel. }
  apply Forall_cons in Hok as [Hf0 Hok]. destruct fuel as [|fuel]; [lia|].
  cbn [fmap list_fmap concat]. unfold file_bytes at 1. cbn [app parse_files].
  set (rest := concat _). rewrite decide_False by (rewrite length_app; simpl; lia).
  rewrite kind_of_tag. cbn [and_then]. rewrite decide_False by (intros []; done). rewrite decide_True by lia.
  rewrite take_app_exact, drop_app_exact by done. rewrite <-(app_nil_r (entry_bytes f)), parse_entry_bytes by done.
  unfold rest. rewrite IH by (try done; rewrite ?length_app; simpl; lia). by rewrite <-(assoc_L (++)).
Qed.

Record cc_ok (c : CapabilityContainer) : Prop := {
  ok_len : 0 ≤ cc_len c < 2 ^ 16;
  ok_version : is_u8 (cc_t4t_version c);
  ok_max_le : 0 ≤ cc_max_le c < 2 ^ 16;
  ok_max_lc : 0 ≤ cc_max_lc c < 2 ^ 16;
  ok_files : Forall file_ok (cc_files c);
  ok_count : (length (cc_files c) ≤ MAX_CC_FILES)%nat;
  ok_covers : cc_files c = [] ∨ 7 + 8 * Z.of_nat (length (cc_files c)) ≤ cc_len c }.

Lemma files_length fs : length (concat (file_bytes <$> fs)) = (8 * length fs)%nat.
Proof. induction fs as [|f fs IH]; [done|]. cbn [fmap list_fmap concat length]. rewrite length_app, IH. simpl. lia. Qed.

Lemma parse_written c : cc_ok c → CapabilityContainer_from_bytes (CapabilityContainer_to_bytes c) = Ok c.
Proof.
  intros [H1 H2 H3 H4 H5 H6 H7]. unfold CapabilityContainer_from_bytes, CapabilityContainer_to_bytes.
  set (fs := concat _). pose proof (files_length (cc_files c)) as Hl. fold fs in Hl.
  rewrite decide_False by (rewrite !length_app; simpl; lia).
  set (data := _ ++ _). assert (length data = 7 + length fs)%nat as Hd by done.
  change (be16 data) with (be16 (be_bytes16 (cc_len c) ++ drop 2 data)).
  change (nth 2 data 0) with (cc_t4t_version c).
  change (be16 (drop 3 data)) with (be16 (be_bytes16 (cc_max_le c) ++ drop 5 data)).
  change (be16 (drop 5 data)) with (be16 (be_bytes16 (cc_max_lc c) ++ fs)).
  rewrite !be16_bytes by done.
  assert (drop 7 (take (Nat.min (Z.to_nat (cc_len c)) (length data)) data) = fs) as ->.
  { destruct H7 as [H7|H7].
    - rewrite H7 in *. apply nil_length_inv in Hl as ->. apply nil_length_inv. rewrite length_drop, length_take. simpl in *. lia.
    - rewrite Nat.min_r, take_ge by lia. done. }
  unfold fs. rewrite parse_files_bytes by (done || simpl; lia). by destruct c.
Qed.

Lemma be16_bound l : bytes l → 0 ≤ be16 l < 2 ^ 16.
Proof.
  intros Hl. unfold be16, be_val.
  assert (bytes (reverse (take 2 l))) as Hb by (by apply Forall_reverse, bytes_take).
  pose proof (le_val_bound _ Hb) as H. rewrite length_reverse, length_take in H.
  split; [lia|]. eapply Z.lt_le_trans; [apply H|]. apply Z.pow_le_mono_r; lia.
Qed.

Lemma parse_entry_ok kind entry : bytes entry → file_ok (parse_entry kind entry).
Proof.
  intros Hb. assert (∀ i, is_u8 (nth i entry 0)) as Hn.
  { intros i. destruct (nth_in_or_default i entry 0) as [Hin| ->]; [|done].
    eapply Forall_forall; [exact Hb|]. by apply list_elem_of_In. }
  constructor; cbn [parse_entry fc_file_id fc_file_size fc_read fc_write].
  - by apply be16_bound.
  - apply be16_bound. auto with bolty.
  - by rewrite from_to_byte.
  - by rewrite from_to_byte.
Qed.

Lemma parse_files_inv fuel rest done_ fs : parse_files fuel rest done_ = Ok fs → bytes rest →
  Forall file_ok done_ → (length done_ ≤ MAX_CC_FILES)%nat →
  Forall file_ok fs ∧ (length fs ≤ MAX_CC_FILES)%nat ∧ (8 * length fs ≤ 8 * length done_ + length rest)%nat.
Proof.
  revert rest done_. induction fuel as [|fuel IH]; intros rest done_ H Hb Hok Hm; simpl in H.
  { injection H as <-. split_and!; [done..|lia]. }
  destruct rest as [|t [|l rest]]; [injection H as <-; split_and!; [done..|lia]|injection H as <-; split_and!; [done..|lia]|].
  case_decide as Hl; [done|]. destruct (kind_of t) as [k|]; [|done]. cbn [and_then] in H.
  case_decide as H6; [done|]. subst l. case_decide as Hlt; [|done].
  apply Forall_cons in Hb as [_ Hb]. apply Forall_cons in Hb as [_ Hb].
  apply IH in H as (I1 & I2 & I3).
  - split; [done|]. split; [done|]. rewrite length_app, length_drop in I3. simpl in *. lia.
  - auto with bolty.
  - apply Forall_app. split; [done|]. apply Forall_singleton, parse_entry_ok. auto with bolty.
  - rewrite length_app. simpl. lia.
Qed.

Lemma parsed_ok data c : bytes data → CapabilityContainer_from_bytes data = Ok c → cc_ok c.
Proof.
  intros Hb H. unfold CapabilityContainer_from_bytes in H. case_decide as Hl; [done|].
  destruct (parse_files _ _ _) as [fs|] eqn:E; [|done]. cbn [and_then] in H. injection H as <-.
  pose proof (be16_bound _ Hb) as Hlen.
  apply parse_files_inv in E as (I1 & I2 & I3); [|auto with bolty|done|simpl; unfold MAX_CC_FILES; lia].
  rewrite length_drop, length_take in I3. simpl in I3.
  constructor; simpl; try done; try (apply be16_bound; auto with bolty).
  - destruct data as [|? [|? [|v data]]]; try (simpl in Hl; lia). simpl.
    by apply Forall_cons in Hb as [_ [_ [? _]%Forall_cons]%Forall_cons].
  - destruct fs; [by left|right]. simpl in *. lia.
Qed.

(** What was parsed from any bytes is written so that it parses to the same container;
    so are the factory container and what the setters make of it, below. *)
Theorem cc_reparse data c : bytes data → CapabilityContainer_from_bytes data = Ok c →
  CapabilityContainer_from_bytes (CapabilityContainer_to_bytes c) = Ok c.
Proof. intros Hb H. by eapply parse_written, parsed_ok. Qed.

Lemma find_mut_ok kind f c : (∀ x, file_ok x → file_ok (f x)) → cc_ok c → cc_ok (find_mut kind f c).
Proof.
  intros Hf [H1 H2 H3 H4 H5 H6 H7].
  assert (∀ l, length (update_first kind f l) = length l) as Hlen.
  { induction l as [|x l IH]; [done|]. simpl. case_decide; simpl; lia. }
  constructor; simpl; try done.
  - induction H5 as [|x l Hx Hl IH]; simpl; [constructor|]. case_decide; constructor; auto.
    apply IH; [simpl in H6; lia|]. destruct H7 as [?|H7]; [done|]. right. simpl in H7. lia.
  - by rewrite Hlen.
  - rewrite Hlen. destruct H7 as [->|?]; [by left|by right].
Qed.

Lemma default_ok : cc_ok CapabilityContainer_default.
Proof. constructor; try done; [repeat constructor; done|vm_compute; lia|right; done]. Qed.

Lemma default_reparse a kind : from_byte (to_byte a) = a →
  let c := find_mut kind (set_write a) CapabilityContainer_default in
  CapabilityContainer_from_bytes (CapabilityContainer_to_bytes c) = Ok c.
Proof. intros Ha c. apply parse_written, find_mut_ok; [|apply default_ok]. by intros x []; constructor. Qed.
