(* ===== verification/FileSettings.v ===== *)
(** * File settings and Secure Dynamic Messaging

    [vendor/ntag424/src/types/file_settings]: the checks of [Sdm::try_new], the
    encoding of access rights, the decoder of the card's [GetFileSettings] answer
    and the encoder of the [ChangeFileSettings] payload.

    What is proved: the checks accept exactly the settings whose placeholders lie
    apart, with an exception for a tamper status that meets the data to encrypt;
    whatever bytes a card sends, decoded settings satisfy the invariant of their type
    (which for an encrypted identity, whose length the decoder does not know, leaves
    its place open); and well-formed settings survive a read-modify-write. *)

From S2P Require Import Prelude Str Hex Derivation Picc NtagTypes.

(** ** sdm.rs *)

Definition UID_PLACEHOLDER_LEN : Z := 14.
Definition RCTR_PLACEHOLDER_LEN : Z := 6.
Definition TT_PLACEHOLDER_LEN : Z := 2.
Definition MAC_PLACEHOLDER_LEN : Z := 16.
Definition PICC_BLOB_LEN_AES : Z := 32.
Definition PICC_BLOB_LEN_LRP : Z := 48.

Definition picc_blob_ascii_len (mode : CryptoMode) : Z :=
  match mode with Aes => PICC_BLOB_LEN_AES | Lrp => PICC_BLOB_LEN_LRP end.

Definition Offset_new (v : Z) : result Z FileSettingsError :=
  if decide (0x00FFFFFF < v) then Err (OffsetOutOfRange v) else Ok v.

Definition EncLength_new (v : Z) : result Z FileSettingsError :=
  if decide (v = 0 ∨ v mod 32 ≠ 0 ∨ 0x00FFFFFF < v) then Err (EncLengthInvalid v) else Ok v.

Definition picc_includes_uid (p : PiccData) : bool :=
  match p with
  | PiccData_Plain (PlainMirror_Uid _ | PlainMirror_Both _ _) => true
  | PiccData_Encrypted _ _ (EncContent_Uid | EncContent_Both _) => true
  | _ => false
  end.

Definition picc_includes_rctr (p : PiccData) : bool :=
  match p with
  | PiccData_Plain (PlainMirror_RCtr _ | PlainMirror_Both _ _) => true
  | PiccData_Encrypted _ _ (EncContent_RCtr _ | EncContent_Both _) => true
  | _ => false
  end.

(** The features a counter mirror carries, if there is one. *)
Definition rctr_features (p : PiccData) : option ReadCtrFeatures :=
  match p with
  | PiccData_Plain (PlainMirror_RCtr m | PlainMirror_Both _ m) => Some (rcm_features m)
  | PiccData_Encrypted _ _ (EncContent_RCtr f | EncContent_Both f) => Some f
  | _ => None
  end.

Definition read_ctr_limit (p : PiccData) : option Z :=
  match rctr_features p with Some f => rcf_limit f | None => None end.

Definition ctr_ret (p : PiccData) : CtrRetAccess :=
  match rctr_features p with Some f => rcf_ret_access f | None => CtrRet_NoAccess end.

Definition file_read_key (fr : FileRead) : KeyNumber :=
  match fr with FileRead_MacOnly key _ | FileRead_MacAndEnc key _ _ => key end.

Definition window (fr : FileRead) : MacWindow :=
  match fr with FileRead_MacOnly _ w | FileRead_MacAndEnc _ w _ => w end.

Definition file_read_enc (fr : FileRead) : option EncFileData :=
  match fr with FileRead_MacOnly _ _ => None | FileRead_MacAndEnc _ _ enc => Some enc end.

Definition ranges_overlap (a a_len b b_len : Z) : bool :=
  negb (bool_decide (a + a_len ≤ b) || bool_decide (b + b_len ≤ a)).

(** A placeholder: where it starts and how long it is. *)
Notation Range := (option (Z * Z)).

Definition uid_range (p : PiccData) : Range :=
  match p with
  | PiccData_Plain (PlainMirror_Uid uid | PlainMirror_Both uid _) => Some (uid, UID_PLACEHOLDER_LEN)
  | _ => None
  end.

Definition rctr_range (p : PiccData) : Range :=
  match p with
  | PiccData_Plain (PlainMirror_RCtr m | PlainMirror_Both _ m) => Some (rcm_offset m, RCTR_PLACEHOLDER_LEN)
  | _ => None
  end.

Definition tt_range (tamper : option Z) : Range := (λ o, (o, TT_PLACEHOLDER_LEN)) <$> tamper.

Definition mac_range (fr : option FileRead) : Range :=
  (λ f, (mw_mac (window f), MAC_PLACEHOLDER_LEN)) <$> fr.

Definition enc_range (fr : option FileRead) : Range :=
  match fr with
  | Some (FileRead_MacAndEnc _ _ enc) => Some (efd_start enc, efd_length enc)
  | _ => None
  end.

(** The [check!] macros: an overlap of two present ranges is an error. *)
Definition check (a b : Range) (kind : OverlapKind) : result () FileSettingsError :=
  match a, b with
  | Some (a, al), Some (b, bl) =>
      if ranges_overlap a al b bl then Err (MirrorsOverlap kind) else Ok ()
  | _, _ => Ok ()
  end.

Definition check_window (fr : option FileRead) : result () FileSettingsError :=
  match fr with
  | Some fr => if decide (mw_mac (window fr) < mw_input (window fr)) then Err MacInputAfterMac else Ok ()
  | None => Ok ()
  end.

Definition check_enc (p : PiccData) (fr : option FileRead) : result () FileSettingsError :=
  match fr with
  | Some (FileRead_MacAndEnc _ w enc) =>
      let enc_end := efd_start enc + efd_length enc in
      if decide (efd_start enc < mw_input w ∨ mw_mac w < enc_end) then Err EncOutsideMacWindow
      else if negb (picc_includes_uid p) || negb (picc_includes_rctr p) then Err EncRequiresBothMirrors
      else Ok ()
  | _ => Ok ()
  end.

Definition check_tamper_half (tamper enc : Range) : result () FileSettingsError :=
  match tamper, enc with
  | Some (t, t_len), Some (enc_start, enc_len) =>
      if ranges_overlap t t_len enc_start enc_len then
        let plain_half_end := enc_start + enc_len / 2 in
        if decide (plain_half_end < t + t_len) then Err (MirrorsOverlap TamperInCiphertextHalf) else Ok ()
      else Ok ()
  | _, _ => Ok ()
  end.

Definition Sdm_try_new_inner (p : PiccData) (fr : option FileRead) (tamper : option Z) :
    result Sdm FileSettingsError :=
  _ ←? check_window fr;
  _ ←? check_enc p fr;
  _ ←? check (uid_range p) (rctr_range p) UidAndRCtr;
  _ ←? check (uid_range p) (tt_range tamper) UidAndTamper;
  _ ←? check (rctr_range p) (tt_range tamper) RCtrAndTamper;
  _ ←? check (uid_range p) (mac_range fr) UidAndMac;
  _ ←? check (rctr_range p) (mac_range fr) RCtrAndMac;
  _ ←? check (tt_range tamper) (mac_range fr) TamperAndMac;
  _ ←? check (enc_range fr) (uid_range p) EncAndUid;
  _ ←? check (enc_range fr) (rctr_range p) EncAndRCtr;
  _ ←? check_tamper_half (tt_range tamper) (enc_range fr);
  Ok (mkSdm p fr tamper).

Definition Sdm_try_new_from_wire := Sdm_try_new_inner.

Definition Sdm_try_new (p : PiccData) (fr : option FileRead) (tamper : option Z) (mode : CryptoMode) :
    result Sdm FileSettingsError :=
  _ ←? Sdm_try_new_inner p fr tamper;
  match p with
  | PiccData_Encrypted _ offset _ =>
      let picc := Some (offset, picc_blob_ascii_len mode) in
      _ ←? check picc (tt_range tamper) PiccAndTamper;
      _ ←? check picc (mac_range fr) PiccAndMac;
      _ ←? check picc (enc_range fr) PiccAndEnc;
      Ok (mkSdm p fr tamper)
  | _ => Ok (mkSdm p fr tamper)
  end.

(** ** access.rs *)

Definition FileType_from_byte (b : Z) : result FileType FileSettingsError :=
  if decide (b = 0x00) then Ok StandardData else Err (UnknownFileType b).

Definition CommMode_from_bits (b : Z) : CommMode :=
  let m := Z.land b 3 in
  if decide (m = 1) then Mac else if decide (m = 3) then Full else Plain.

Definition CommMode_to_bits (m : CommMode) : Z :=
  match m with Plain => 0 | Mac => 1 | Full => 3 end.

Definition key_of_nibble (n : Z) : option KeyNumber :=
  if decide (n = 0) then Some Key0 else if decide (n = 1) then Some Key1
  else if decide (n = 2) then Some Key2 else if decide (n = 3) then Some Key3
  else if decide (n = 4) then Some Key4 else None.

Definition Access_from_nibble (n : Z) (slot : NibbleSlot) : result Access FileSettingsError :=
  match key_of_nibble n with
  | Some k => Ok (Access_Key k)
  | None => if decide (n = 0xE) then Ok Access_Free else if decide (n = 0xF) then Ok Access_NoAccess
            else Err (InvalidAccessNibble slot n)
  end.

Definition Access_to_nibble (a : Access) : Z :=
  match a with Access_Key k => as_byte k | Access_Free => 0xE | Access_NoAccess => 0xF end.

Definition CtrRet_from_nibble (n : Z) : result CtrRetAccess FileSettingsError :=
  match key_of_nibble n with
  | Some k => Ok (CtrRet_Key k)
  | None => if decide (n = 0xE) then Ok CtrRet_Free else if decide (n = 0xF) then Ok CtrRet_NoAccess
            else Err (InvalidAccessNibble Slot_SdmCtrRet n)
  end.

Definition CtrRet_to_nibble (a : CtrRetAccess) : Z :=
  match a with CtrRet_Key k => as_byte k | CtrRet_Free => 0xE | CtrRet_NoAccess => 0xF end.

(** Nibble [i] of a word, [((v >> 4 * i) & 0xF) as u8]. *)
Definition nib (v : Z) (i : Z) : Z := Z.land (Z.shiftr v (4 * i)) 0xF.

(** Four nibbles in a word, the first on top. *)
Definition nibbles (a b c d : Z) : Z :=
  Z.lor (Z.lor (Z.lor (Z.shiftl a 12) (Z.shiftl b 8)) (Z.shiftl c 4)) d.

Definition AccessRights_from_le_bytes (b : list Z) : result AccessRights FileSettingsError :=
  let v := le_val b in
  rd ←? Access_from_nibble (nib v 3) Slot_Read;
  wr ←? Access_from_nibble (nib v 2) Slot_Write;
  rw ←? Access_from_nibble (nib v 1) Slot_ReadWrite;
  ch ←? Access_from_nibble (nib v 0) Slot_Change;
  Ok (mkAccessRights rd wr rw ch).

Definition AccessRights_to_le_bytes (ar : AccessRights) : list Z :=
  le_bytes 2 (nibbles (Access_to_nibble (ar_read ar)) (Access_to_nibble (ar_write ar))
                (Access_to_nibble (ar_read_write ar)) (Access_to_nibble (ar_change ar))).

(** ** codec.rs: cursors *)

Record Cursor := mkCursor { cur_buf : list Z; cur_pos : nat }.

Notation CM := (M Cursor FileSettingsError).

Definition need (n : nat) : CM () := λ c,
  if decide (length (cur_buf c) < cur_pos c + n)%nat
  then (Err (BufferTooShort (Z.of_nat (cur_pos c + n)) (Z.of_nat (length (cur_buf c)))), c)
  else (Ok tt, c).

Definition gets {A} (f : Cursor → A) : CM A := λ c, (Ok (f c), c).
Definition modify (f : Cursor → Cursor) : CM () := λ c, (Ok tt, f c).

Definition advance (n : nat) (c : Cursor) : Cursor := mkCursor (cur_buf c) (cur_pos c + n).

Definition r_u8 : CM Z :=
  need 1 ;; v ← gets (λ c, nth (cur_pos c) (cur_buf c) 0); modify (advance 1) ;; mret v.

Definition r_array (n : nat) : CM (list Z) :=
  need n ;; out ← gets (λ c, take n (drop (cur_pos c) (cur_buf c))); modify (advance n) ;; mret out.

Definition r_u24_le : CM Z :=
  b ← r_array 3;
  mret (Z.lor (Z.lor (nth 0 b 0) (Z.shiftl (nth 1 b 0) 8)) (Z.shiftl (nth 2 b 0) 16)).

Definition remaining : CM Z := gets (λ c, Z.of_nat (length (cur_buf c) - cur_pos c)).

Definition store (src : list Z) (c : Cursor) : Cursor :=
  mkCursor (copy_at (cur_pos c) src (cur_buf c)) (cur_pos c).

Definition w_u8 (v : Z) : CM () := need 1 ;; modify (store [v]) ;; modify (advance 1).

Definition w_array (src : list Z) : CM () :=
  need (length src) ;; modify (store src) ;; modify (advance (length src)).

Definition w_u24_le (v : Z) : CM () :=
  if decide (0x00FFFFFF < v) then fail (OffsetOutOfRange v)
  else w_array [Z.land v 0xFF; Z.land (Z.shiftr v 8) 0xFF; Z.land (Z.shiftr v 16) 0xFF].

(** A [Result] under the cursor, for [?] on a pure call. *)
Definition pure {A} (r : result A FileSettingsError) : CM A := λ c, (r, c).

(** [if c { Some(m?) } else { None }]. *)
Definition when {A} (c : bool) (m : CM A) : CM (option A) :=
  if c then a ← m; mret (Some a) else mret None.

Definition ensure (c : bool) (e : FileSettingsError) : CM () := if c then mret tt else fail e.

Definition key_from_nibble (n : Z) (slot : NibbleSlot) : result KeyNumber FileSettingsError :=
  ok_or (key_of_nibble n) (InvalidAccessNibble slot n).

(** ** codec.rs: decoding *)

Definition bit (v i : Z) : bool := negb (bool_decide (Z.land v (Z.shiftl 1 i) = 0)).

Definition sdm_file_read_key (n : Z) : result (option KeyNumber) FileSettingsError :=
  if decide (n ≤ 4) then k ←? key_from_nibble n Slot_SdmFileRead; Ok (Some k)
  else if decide (n = 0xF) then Ok None
  else Err (InvalidAccessNibble Slot_SdmFileRead n).

Definition build_picc_data (meta_plain : bool) (meta_key : option KeyNumber) (meta_nibble : Z)
    (uid_mirror ctr_mirror : bool) (uid ctr enc : option Z) (f : ReadCtrFeatures) :
    result PiccData FileSettingsError :=
  if meta_plain then
    match uid, ctr with
    | Some uid, Some ctr => Ok (PiccData_Plain (PlainMirror_Both uid (mkReadCtrMirror ctr f)))
    | Some uid, None => Ok (PiccData_Plain (PlainMirror_Uid uid))
    | None, Some ctr => Ok (PiccData_Plain (PlainMirror_RCtr (mkReadCtrMirror ctr f)))
    | None, None => Err InvalidSdmFlags
    end
  else
    match meta_key with
    | Some key =>
        offset ←? ok_or enc InvalidSdmFlags;
        content ←? match uid_mirror, ctr_mirror with
                   | true, true => Ok (EncContent_Both f)
                   | true, false => Ok EncContent_Uid
                   | false, true => Ok (EncContent_RCtr f)
                   | false, false => Err InvalidSdmFlags
                   end;
        Ok (PiccData_Encrypted key offset content)
    | None =>
        if decide (meta_nibble = 0xF) then Ok PiccData_None
        else Err (InvalidAccessNibble Slot_SdmMetaRead meta_nibble)
    end.

Definition build_file_read (key : option KeyNumber) (mac_input mac : option Z) (enc : option (Z * Z)) :
    result (option FileRead) FileSettingsError :=
  match key, mac_input, mac with
  | Some key, Some input, Some mac =>
      Ok (Some (match enc with
                | Some (start, length) =>
                    FileRead_MacAndEnc key (mkMacWindow input mac) (mkEncFileData start length)
                | None => FileRead_MacOnly key (mkMacWindow input mac)
                end))
  | None, None, None => Ok None
  | _, _, _ => Err InvalidSdmFlags
  end.

Definition r_enc_range : CM (Z * Z) :=
  start ← r_u24_le; len ← r_u24_le; el ← pure (EncLength_new len); mret (start, el).

Definition r_limit (ctr_mirror : bool) : CM (option Z) :=
  ensure ctr_mirror InvalidSdmFlags ;;
  v ← r_u24_le;
  mret (if decide (v ≠ 0x00FFFFFF) then Some v else None).

(** The SDM block, present when bit 6 of the file option is set. *)
Definition decode_sdm : CM Sdm :=
  sdm_options ← r_u8;
  ar_bytes ← r_array 2;
  ensure (bool_decide (Z.land sdm_options 7 = 1)) (ReservedBitSet RB_SdmOptions (Z.land sdm_options 7)) ;;
  ensure (bool_decide (Z.land (nth 0 ar_bytes 0) 0xF0 = 0xF0)) (ReservedBitSet RB_SdmAccessRights0 0xF0) ;;
  let uid_mirror := bit sdm_options 7 in
  let read_ctr_mirror := bit sdm_options 6 in
  let read_ctr_limit_enabled := bit sdm_options 5 in
  let enc_file_data := bit sdm_options 4 in
  let tt_status_mirror := bit sdm_options 3 in
  let v := le_val ar_bytes in
  let meta := nib v 3 in
  let meta_plain := bool_decide (meta = 0xE) in
  let meta_enc := bool_decide (meta ≤ 4) in
  picc_meta_key ← when meta_enc (pure (key_from_nibble meta Slot_SdmMetaRead));
  frk ← pure (sdm_file_read_key (nib v 2));
  ret ← pure (CtrRet_from_nibble (nib v 0));
  ensure (read_ctr_mirror || bool_decide (ret = CtrRet_NoAccess)) InvalidSdmFlags ;;
  let has_key := bool_decide (is_Some frk) in
  uid ← when (uid_mirror && meta_plain) r_u24_le;
  ctr ← when (read_ctr_mirror && meta_plain) r_u24_le;
  picc ← when meta_enc r_u24_le;
  tamper ← when tt_status_mirror r_u24_le;
  mac_input ← when has_key r_u24_le;
  enc ← when (has_key && enc_file_data) r_enc_range;
  mac ← when has_key r_u24_le;
  limit ← (if read_ctr_limit_enabled then r_limit read_ctr_mirror else mret None);
  picc_data ← pure (build_picc_data meta_plain picc_meta_key meta uid_mirror read_ctr_mirror uid ctr picc
                      (mkReadCtrFeatures limit ret));
  fr ← pure (build_file_read frk mac_input mac enc);
  pure (Sdm_try_new_from_wire picc_data fr tamper).

Definition decode_view : CM FileSettingsView :=
  ft ← r_u8;
  file_type ← pure (FileType_from_byte ft);
  file_option ← r_u8;
  ar ← r_array 2;
  access_rights ← pure (AccessRights_from_le_bytes ar);
  file_size ← r_u24_le;
  ensure (bool_decide (Z.land file_option 0xBC = 0)) (ReservedBitSet RB_FileOption (Z.land file_option 0xBC)) ;;
  sdm ← when (bit file_option 6) decode_sdm;
  rest ← remaining;
  ensure (bool_decide (rest = 0)) (TrailingBytes rest) ;;
  mret (mkFileSettingsView file_type file_size (CommMode_from_bits file_option) access_rights sdm).

Definition decode (buf : list Z) : result FileSettingsView FileSettingsError :=
  (decode_view (mkCursor buf 0)).1.

(** ** codec.rs: encoding *)

Definition MAX_CHANGE_FILE_SETTINGS_LEN : nat := 1 + 2 + 1 + 2 + 9 * 3.

Definition flag (c : bool) (i : Z) : Z := if c then Z.shiftl 1 i else 0.

Definition sdm_options_byte (s : Sdm) : Z :=
  Z.lor (flag (picc_includes_uid (sdm_picc_data s)) 7)
  (Z.lor (flag (picc_includes_rctr (sdm_picc_data s)) 6)
  (Z.lor (flag (bool_decide (is_Some (read_ctr_limit (sdm_picc_data s)))) 5)
  (Z.lor (flag (bool_decide (is_Some (sdm_file_read s ≫= file_read_enc))) 4)
  (Z.lor (flag (bool_decide (is_Some (sdm_tamper_status s))) 3) 1)))).

Definition picc_nibble (p : PiccData) : Z :=
  match p with
  | PiccData_None => 0xF
  | PiccData_Plain _ => 0xE
  | PiccData_Encrypted key _ _ => as_byte key
  end.

Definition fr_nibble (fr : option FileRead) : Z :=
  match fr with None => 0xF | Some fr => as_byte (file_read_key fr) end.

Definition sdm_access_word (s : Sdm) : Z :=
  nibbles (picc_nibble (sdm_picc_data s)) (fr_nibble (sdm_file_read s))
    0xF (CtrRet_to_nibble (ctr_ret (sdm_picc_data s))).

Definition w_opt (o : option Z) : CM () :=
  match o with Some v => w_u24_le v | None => mret tt end.

Definition w_picc (p : PiccData) : CM () :=
  match p with
  | PiccData_None => mret tt
  | PiccData_Plain (PlainMirror_Uid uid) => w_u24_le uid
  | PiccData_Plain (PlainMirror_RCtr m) => w_u24_le (rcm_offset m)
  | PiccData_Plain (PlainMirror_Both uid m) => w_u24_le uid ;; w_u24_le (rcm_offset m)
  | PiccData_Encrypted _ offset _ => w_u24_le offset
  end.

Definition w_file_read (fr : option FileRead) : CM () :=
  match fr with
  | None => mret tt
  | Some fr =>
      w_u24_le (mw_input (window fr)) ;;
      match file_read_enc fr with
      | Some enc => w_u24_le (efd_start enc) ;; w_u24_le (efd_length enc)
      | None => mret tt
      end ;;
      w_u24_le (mw_mac (window fr))
  end.

Definition encode_sdm (s : Sdm) : CM () :=
  w_u8 (sdm_options_byte s) ;;
  w_array (le_bytes 2 (sdm_access_word s)) ;;
  w_picc (sdm_picc_data s) ;;
  w_opt (sdm_tamper_status s) ;;
  w_file_read (sdm_file_read s) ;;
  w_opt (read_ctr_limit (sdm_picc_data s)).

Definition encode_update (u : FileSettingsUpdate) : CM nat :=
  w_u8 (Z.lor (CommMode_to_bits (fu_comm_mode u)) (flag (bool_decide (is_Some (fu_sdm u))) 6)) ;;
  w_array (AccessRights_to_le_bytes (fu_access_rights u)) ;;
  match fu_sdm u with Some s => encode_sdm s | None => mret tt end ;;
  gets cur_pos.

(** The count it returns and the buffer it leaves. *)
Definition encode (u : FileSettingsUpdate) (buf : list Z) : result nat FileSettingsError * list Z :=
  let '(r, c) := encode_update u (mkCursor buf 0) in (r, cur_buf c).

(** The examples of the application note the tests of the source use. *)
Definition an12196_get : list Z :=
  [0x00; 0x40; 0xEE; 0xEE; 0x00; 0x01; 0x00; 0xD1; 0xFE; 0x00; 0x1F; 0x00; 0x00; 0x44; 0x00;
   0x00; 0x44; 0x00; 0x00; 0x20; 0x00; 0x00; 0x6A; 0x00; 0x00].

Example decode_an12196 :
  decode an12196_get =
  Ok (mkFileSettingsView StandardData 256 Plain
        (mkAccessRights Access_Free Access_Free Access_Free Access_Free)
        (Some (mkSdm
           (PiccData_Encrypted Key0 0x1F (EncContent_Both (mkReadCtrFeatures None CtrRet_Free)))
           (Some (FileRead_MacAndEnc Key0 (mkMacWindow 0x44 0x6A) (mkEncFileData 0x44 0x20))) None))).
Proof. vm_compute. reflexivity. Qed.

Example encode_an12196 :
  let sdm := mkSdm
    (PiccData_Encrypted Key2 0x20 (EncContent_Both (mkReadCtrFeatures None (CtrRet_Key Key1))))
    (Some (FileRead_MacOnly Key1 (mkMacWindow 0x43 0x43))) None in
  let ar := mkAccessRights Access_Free (Access_Key Key0) (Access_Key Key0) (Access_Key Key0) in
  let '(r, buf) := encode (with_sdm (update_new Plain ar) sdm) (replicate 33 0) in
  r = Ok 15%nat ∧
  take 15 buf = [0x40; 0x00; 0xE0; 0xC1; 0xF1; 0x21; 0x20; 0x00; 0x00; 0x43; 0x00; 0x00; 0x43; 0x00; 0x00].
Proof. vm_compute. done. Qed.

(** ** What the checks accept *)

(** Two placeholders do not share a byte; an absent one is apart from all. *)
Definition apart (a b : Range) : Prop :=
  match a, b with
  | Some (a, al), Some (b, bl) => a + al ≤ b ∨ b + bl ≤ a
  | _, _ => True
  end.

(** The encrypted identity data, whose length depends on the cipher. *)
Definition blob_range (p : PiccData) (mode : CryptoMode) : Range :=
  match p with
  | PiccData_Encrypted _ offset _ => Some (offset, picc_blob_ascii_len mode)
  | _ => None
  end.

Definition placeholders (s : Sdm) : list Range :=
  [uid_range (sdm_picc_data s); rctr_range (sdm_picc_data s);
   tt_range (sdm_tamper_status s); mac_range (sdm_file_read s)].

(** The invariant of [Sdm]: the MAC window is ordered, the placeholders do not
    overlap, encrypted file data lies inside the window, comes with both identity
    mirrors, and meets the tamper placeholder only where that one ends before its
    ciphertext half. *)
Record consistent (s : Sdm) : Prop := {
  co_window : ∀ fr, sdm_file_read s = Some fr → mw_input (window fr) ≤ mw_mac (window fr);
  co_enc : ∀ k w e, sdm_file_read s = Some (FileRead_MacAndEnc k w e) →
    mw_input w ≤ efd_start e ∧ efd_start e + efd_length e ≤ mw_mac w ∧
    picc_includes_uid (sdm_picc_data s) = true ∧ picc_includes_rctr (sdm_picc_data s) = true;
  co_apart : ForallOrdPairs apart (placeholders s);
  co_enc_apart : Forall (apart (enc_range (sdm_file_read s)))
    [uid_range (sdm_picc_data s); rctr_range (sdm_picc_data s)];
  co_tamper : ∀ t k w e, sdm_tamper_status s = Some t → sdm_file_read s = Some (FileRead_MacAndEnc k w e) →
    t + TT_PLACEHOLDER_LEN ≤ efd_start e + efd_length e / 2 ∨ efd_start e + efd_length e ≤ t }.

Lemma ranges_overlap_spec a al b bl : ranges_overlap a al b bl = false ↔ a + al ≤ b ∨ b + bl ≤ a.
Proof. unfold ranges_overlap. repeat case_bool_decide; simpl; split; intros; (done || lia). Qed.

#[local] Arguments check : simpl never.
#[local] Arguments apart : simpl never.

Lemma check_ok a b k u : check a b k = Ok u ↔ apart a b.
Proof.
  unfold check, apart. destruct a as [[a al]|], b as [[b bl]|], u; try done.
  rewrite <-ranges_overlap_spec. by destruct (ranges_overlap _ _ _ _).
Qed.

Lemma check_window_ok fr u :
  check_window fr = Ok u ↔ ∀ f, fr = Some f → mw_input (window f) ≤ mw_mac (window f).
Proof.
  destruct fr as [f|], u; simpl; [|naive_solver].
  case_decide; split; try done; [intros Hf; specialize (Hf f eq_refl); lia|intros _ ? [= <-]; lia].
Qed.

Lemma check_enc_ok p fr u :
  check_enc p fr = Ok u ↔ ∀ k w e, fr = Some (FileRead_MacAndEnc k w e) →
    mw_input w ≤ efd_start e ∧ efd_start e + efd_length e ≤ mw_mac w ∧
    picc_includes_uid p = true ∧ picc_includes_rctr p = true.
Proof.
  destruct fr as [[k w|k w e]|], u; simpl; try naive_solver.
  case_decide as H; [split; [done|]; intros Hf; destruct (Hf k w e eq_refl); lia|].
  destruct (picc_includes_uid p), (picc_includes_rctr p); simpl; split; try done;
    try (intros Hf; destruct (Hf k w e eq_refl); naive_solver).
  intros _ ? ? ? [= <- <- <-]. naive_solver lia.
Qed.

Lemma check_tamper_ok t fr u : (∀ k w e, fr = Some (FileRead_MacAndEnc k w e) → 0 ≤ efd_length e) →
  check_tamper_half (tt_range t) (enc_range fr) = Ok u ↔
  ∀ z k w e, t = Some z → fr = Some (FileRead_MacAndEnc k w e) →
    z + TT_PLACEHOLDER_LEN ≤ efd_start e + efd_length e / 2 ∨ efd_start e + efd_length e ≤ z.
Proof.
  intros Hl. destruct t as [z|], fr as [[k w|k w e]|], u; simpl; try naive_solver.
  pose proof (Hl k w e eq_refl). pose proof (Z.div_pos (efd_length e) 2).
  pose proof (Z.div_le_upper_bound (efd_length e) 2 (efd_length e)).
  destruct (ranges_overlap _ _ _ _) eqn:Eo.
  - case_decide; split; try done.
    + intros Hf. destruct (Hf z k w e eq_refl eq_refl) as [|Hr]; [lia|].
      assert (ranges_overlap z TT_PLACEHOLDER_LEN (efd_start e) (efd_length e) = false) by
        (apply ranges_overlap_spec; lia). congruence.
    + intros _ ? ? ? ? [= <-] [= <- <- <-]. lia.
  - apply ranges_overlap_spec in Eo. split; [|done]. intros _ ? ? ? ? [= <-] [= <- <- <-]. lia.
Qed.

Lemma FOP_cons {A} (R : A → A → Prop) x l :
  ForallOrdPairs R (x :: l) ↔ Forall (R x) l ∧ ForallOrdPairs R l.
Proof. split; [by inversion 1|]. intros []. by constructor. Qed.

Lemma FOP_nil {A} (R : A → A → Prop) : ForallOrdPairs R [] ↔ True.
Proof. split; [done|constructor]. Qed.

Ltac listed := repeat rewrite ?FOP_cons, ?FOP_nil, ?Forall_cons, ?Forall_nil in *.

Definition enc_len_nonneg (fr : option FileRead) : Prop :=
  ∀ k w e, fr = Some (FileRead_MacAndEnc k w e) → 0 ≤ efd_length e.

Lemma Sdm_try_new_inner_ok p fr t s : enc_len_nonneg fr →
  Sdm_try_new_inner p fr t = Ok s ↔ s = mkSdm p fr t ∧ consistent s.
Proof.
  intros Hl. unfold Sdm_try_new_inner. split.
  - intros H. do 11 (apply and_then_ok in H as (? & ? & H)). injection H as <-. split; [done|].
    rewrite ?check_ok in *. constructor; simpl; unfold placeholders; simpl; listed.
    + by eapply check_window_ok.
    + by eapply check_enc_ok.
    + naive_solver.
    + naive_solver.
    + by eapply check_tamper_ok.
  - intros [-> [H1 H2 H3 H4 H5]]. unfold placeholders in H3. simpl in *. listed.
    destruct_and!.
    do 11 (apply and_then_ok; exists tt; split;
      [first [by apply check_ok|by apply check_window_ok|by apply check_enc_ok|by apply check_tamper_ok]|]).
    done.
Qed.

(** With the cipher known, the encrypted identity data is apart from the rest. *)
Lemma Sdm_try_new_ok p fr t mode s : enc_len_nonneg fr →
  Sdm_try_new p fr t mode = Ok s ↔
  s = mkSdm p fr t ∧ consistent s ∧
  Forall (apart (blob_range p mode)) [tt_range t; mac_range fr; enc_range fr].
Proof.
  intros Hl. unfold Sdm_try_new. rewrite and_then_ok. setoid_rewrite (Sdm_try_new_inner_ok p fr t); [|done].
  split.
  - intros (s' & [-> Hc] & H). listed. destruct p as [| |k o c]; simpl in *;
      try (injection H as <-; naive_solver).
    do 3 (apply and_then_ok in H as (? & ? & H)). injection H as <-. rewrite ?check_ok in *. naive_solver.
  - intros (-> & Hc & Ha). exists (mkSdm p fr t). split; [done|]. destruct p as [| |k o c]; try done.
    simpl in Ha. listed. destruct_and!.
    do 3 (apply and_then_ok; exists tt; split; [by apply check_ok|]). done.
Qed.

(** ** Types: what decoding guarantees *)

Definition is_offset (z : Z) : Prop := 0 ≤ z < 2 ^ 24.
Definition is_enc_length (z : Z) : Prop := is_offset z ∧ z ≠ 0 ∧ z mod 32 = 0.
Definition is_limit (z : Z) : Prop := 0 ≤ z < 0x00FFFFFF.

Definition rctr_wf (f : ReadCtrFeatures) : Prop := ∀ l, rcf_limit f = Some l → is_limit l.

Definition picc_wf (p : PiccData) : Prop :=
  match p with
  | PiccData_None => True
  | PiccData_Plain (PlainMirror_Uid uid) => is_offset uid
  | PiccData_Plain (PlainMirror_RCtr m) => is_offset (rcm_offset m)
  | PiccData_Plain (PlainMirror_Both uid m) => is_offset uid ∧ is_offset (rcm_offset m)
  | PiccData_Encrypted _ offset _ => is_offset offset
  end ∧ ∀ f, rctr_features p = Some f → rctr_wf f.

Definition file_read_wf (fr : FileRead) : Prop :=
  is_offset (mw_input (window fr)) ∧ is_offset (mw_mac (window fr)) ∧
  ∀ e, file_read_enc fr = Some e → is_offset (efd_start e) ∧ is_enc_length (efd_length e).

(** The type invariant of the settings: every number has its width, and the
    SDM part is [consistent]. *)
Record sdm_wf (s : Sdm) : Prop := {
  wf_picc : picc_wf (sdm_picc_data s);
  wf_file_read : ∀ fr, sdm_file_read s = Some fr → file_read_wf fr;
  wf_tamper : ∀ t, sdm_tamper_status s = Some t → is_offset t;
  wf_consistent : consistent s }.

Definition view_wf (v : FileSettingsView) : Prop :=
  is_offset (fs_file_size v) ∧ ∀ s, fs_sdm v = Some s → sdm_wf s.

(** A cursor computation that reads a buffer of bytes, keeps it, and returns only
    values of [P]. *)
Definition returns {A} (P : A → Prop) (m : CM A) : Prop :=
  ∀ c, bytes (cur_buf c) →
    wp m (λ r c', cur_buf c' = cur_buf c ∧ match r with Ok a => P a | Err _ => True end) c.

Lemma returns_bind {A B} (P : A → Prop) (Q : B → Prop) (m : CM A) (k : A → CM B) :
  returns P m → (∀ a, P a → returns Q (k a)) → returns Q (m ≫= k).
Proof.
  intros Hm Hk c Hc. apply wp_bind. eapply wp_mono; [by apply Hm|]. simpl. intros [a|e] c' [He Ha]; [|done].
  eapply wp_mono; [apply (Hk a Ha); by rewrite He|]. simpl. intros r c'' [-> Hr]. done.
Qed.

Lemma returns_mret {A} (P : A → Prop) a : P a → returns P (mret a).
Proof. intros Ha c _. by apply wp_ret. Qed.

Lemma returns_pure {A} (P : A → Prop) r : (∀ a, r = Ok a → P a) → returns P (pure r).
Proof. intros Hr c _. unfold wp, pure. simpl. split; [done|]. destruct r; auto. Qed.

Lemma returns_mono {A} (P Q : A → Prop) m : returns P m → (∀ a, P a → Q a) → returns Q m.
Proof.
  intros Hm HPQ c Hc. eapply wp_mono; [by apply Hm|]. simpl. intros [a|e] c' [He Ha]; auto.
Qed.

Lemma returns_when {A} (P : A → Prop) (b : bool) (m : CM A) :
  (b = true → returns P m) → returns (λ o : option A, ∀ a, o = Some a → P a) (when b m).
Proof.
  intros Hm. unfold when. destruct b; [|by apply returns_mret].
  eapply returns_bind; [by apply Hm|]. intros a Ha. apply returns_mret. by intros ? [= <-].
Qed.

Lemma returns_ensure b e : returns (λ _, b = true) (ensure b e).
Proof.
  unfold ensure. destruct b; [by apply returns_mret|]. intros c _. by apply wp_fail.
Qed.

Lemma returns_need n : returns (λ _, True) (need n).
Proof. intros c _. unfold wp, need. by case_decide. Qed.

Lemma returns_gets {A} (P : A → Prop) f : (∀ c, bytes (cur_buf c) → P (f c)) → returns P (gets f).
Proof. intros H c Hc. unfold wp, gets. simpl. auto. Qed.

Lemma returns_advance n : returns (λ _, True) (modify (advance n)).
Proof. intros c _. done. Qed.

Lemma returns_array n : returns (λ l, bytes l ∧ (length l ≤ n)%nat) (r_array n).
Proof.
  unfold r_array. eapply returns_bind; [apply returns_need|]. intros _ _.
  eapply returns_bind; [apply (returns_gets (λ l, bytes l ∧ (length l ≤ n)%nat))|].
  { intros c Hc. split; [auto with bolty|]. rewrite length_take. lia. }
  intros l Hl. eapply returns_bind; [apply returns_advance|]. intros _ _. by apply returns_mret.
Qed.

Lemma nth_u8 l n : bytes l → is_u8 (nth n l 0).
Proof.
  intros H. destruct (nth_in_or_default n l 0) as [Hi| ->]; [|done].
  apply list_elem_of_In in Hi. by eapply Forall_forall in H.
Qed.

Lemma returns_u24 : returns is_offset r_u24_le.
Proof.
  unfold r_u24_le. eapply returns_bind; [apply returns_array|]. intros l [Hb _]. apply returns_mret.
  pose proof (counter_of_le _ _ _ (nth_u8 l 0 Hb) (nth_u8 l 1 Hb) (nth_u8 l 2 Hb)) as Hc.
  unfold counter_of in Hc. rewrite Hc. apply (le_val_bound [_; _; _]). unfold bytes. auto using nth_u8.
Qed.

Lemma returns_u8 : returns (λ _, True) r_u8.
Proof.
  unfold r_u8. eapply returns_bind; [apply returns_need|]. intros _ _.
  eapply returns_bind; [by apply (returns_gets (λ _, True))|]. intros v _.
  eapply returns_bind; [apply returns_advance|]. intros _ _. by apply returns_mret.
Qed.

Lemma returns_any {A} (r : result A FileSettingsError) : returns (λ a, r = Ok a) (pure r).
Proof. by apply returns_pure. Qed.

Lemma returns_enc_range : returns (λ r, is_offset r.1 ∧ is_enc_length r.2) r_enc_range.
Proof.
  unfold r_enc_range. eapply returns_bind; [apply returns_u24|]. intros start Hs.
  eapply returns_bind; [apply returns_u24|]. intros len Hl.
  eapply returns_bind; [apply returns_any|]. intros el He. apply returns_mret. split; [done|].
  unfold EncLength_new in He. case_decide as Hd; [done|]. injection He as <-.
  unfold is_enc_length. split; [done|]. simpl. split; [tauto|].
  destruct (decide (len mod 32 = 0)); tauto.
Qed.

Lemma returns_limit b : returns (λ o, ∀ l, o = Some l → is_limit l) (r_limit b).
Proof.
  unfold r_limit. eapply returns_bind; [apply returns_ensure|]. intros _ _.
  eapply returns_bind; [apply returns_u24|]. intros v Hv. apply returns_mret.
  intros l Hl. case_decide; simplify_eq. unfold is_offset, is_limit in *. lia.
Qed.

Lemma build_picc_data_wf plain key meta um cm uid ctr enc f p :
  (∀ z, uid = Some z → is_offset z) → (∀ z, ctr = Some z → is_offset z) →
  (∀ z, enc = Some z → is_offset z) → rctr_wf f →
  build_picc_data plain key meta um cm uid ctr enc f = Ok p → picc_wf p.
Proof.
  intros Hu Hc He Hf H. unfold build_picc_data in H. unfold picc_wf.
  destruct plain.
  { destruct uid, ctr; simplify_eq; simpl; naive_solver. }
  destruct key as [k|]; [|case_decide; simplify_eq; simpl; naive_solver].
  destruct enc as [o|]; [|done]. destruct um, cm; simpl in H; simplify_eq; simpl; naive_solver.
Qed.

Lemma build_file_read_wf key input mac enc o :
  (∀ z, input = Some z → is_offset z) → (∀ z, mac = Some z → is_offset z) →
  (∀ r, enc = Some r → is_offset r.1 ∧ is_enc_length r.2) →
  build_file_read key input mac enc = Ok o → ∀ fr, o = Some fr → file_read_wf fr.
Proof.
  intros Hi Hm He H fr ->. unfold build_file_read in H. unfold file_read_wf.
  destruct key, input as [i|], mac as [m|]; try discriminate. injection H as <-.
  destruct enc as [[start len]|]; (split; [by apply Hi|]); (split; [by apply Hm|]); intros e [= <-].
  apply (He _ eq_refl).
Qed.

Lemma file_read_wf_len fr : (∀ f, fr = Some f → file_read_wf f) → enc_len_nonneg fr.
Proof.
  intros H k w e ->. destruct (H _ eq_refl) as (_ & _ & He). destruct (He e eq_refl) as [_ [[] _]]. done.
Qed.

Ltac returns_step :=
  first
  [ apply returns_mret
  | eapply returns_bind;
    [ first [ apply returns_u24 | apply returns_u8 | apply returns_array | apply returns_ensure
            | apply returns_any | eapply returns_when; intros _;
              first [ apply returns_u24 | apply returns_enc_range | apply returns_any ] ]
    | let a := fresh "a" in let H := fresh "Ha" in intros a H ] ].

Lemma decode_sdm_wf : returns sdm_wf decode_sdm.
Proof.
  unfold decode_sdm. repeat returns_step.
  eapply (returns_bind (λ o, ∀ l, o = Some l → is_limit l)).
  { case_match; [apply returns_limit|]. by apply returns_mret. }
  intros limit Hlimit. eapply returns_bind; [apply returns_any|]. intros p Hp.
  eapply returns_bind; [apply returns_any|]. intros fr Hfr. apply returns_pure. intros s Hs.
  simpl in *.
  assert (picc_wf p) as Hpw by (eapply build_picc_data_wf; [| | | |exact Hp]; assumption).
  assert (∀ f, fr = Some f → file_read_wf f) as Hfw by (eapply build_file_read_wf; [| | |exact Hfr]; assumption).
  apply Sdm_try_new_inner_ok in Hs as [-> Hc]; [|by apply file_read_wf_len].
  constructor; assumption.
Qed.

Lemma decode_view_wf : returns view_wf decode_view.
Proof.
  unfold decode_view. do 7 returns_step.
  eapply returns_bind; [apply returns_when; intros _; apply decode_sdm_wf|]. intros s Hs.
  eapply returns_bind; [apply (returns_gets (λ _, True)); done|]. intros rest _. do 2 returns_step.
  split; assumption.
Qed.

(** C29. Type soundness of the decoder: whatever bytes a card answers, settings
    that decode satisfy the invariant of their type.  Every offset and the file
    size fit 24 bits, an encryption length is a positive multiple of 32, a counter
    limit is a real one, the MAC window is ordered; the data to encrypt lies in
    the window and comes with both identity mirrors; the plain UID, the plain
    counter, the tamper status and the MAC are pairwise apart, the two mirrors
    are also apart from the data to encrypt, and a tamper status that meets that
    data ends before its ciphertext half.  The blob of an encrypted identity is
    not compared with anything here, because its length depends on a mode that
    is not on the wire ([wire_blob_unchecked]). *)
Theorem decode_well_formed (buf : list Z) (v : FileSettingsView) :
  bytes buf → decode buf = Ok v → view_wf v.
Proof.
  intros Hb H. unfold decode in H. pose proof (decode_view_wf (mkCursor buf 0) Hb) as [_ Hw].
  by rewrite H in Hw.
Qed.

(** ** Round trip *)

(** The two ends of the wire, each stated on the bytes: a computation reads [l]
    off the buffer, or appends [l] to what is written. *)
Definition at_ (pre rest : list Z) : Cursor := mkCursor (pre ++ rest) (length pre).

Definition reads {A} (m : CM A) (l : list Z) (a : A) : Prop :=
  ∀ pre rest, m (at_ pre (l ++ rest)) = (Ok a, at_ (pre ++ l) rest).

Definition written (out buf : list Z) : Cursor := mkCursor (out ++ drop (length out) buf) (length out).

Definition writes {A} (m : CM A) (l : list Z) (a : A) : Prop :=
  ∀ out buf, (length out + length l ≤ length buf)%nat →
    m (written out buf) = (Ok a, written (out ++ l) buf).

Lemma reads_then {A B} (m : CM A) (k : A → CM B) l l' a b :
  reads m l a → reads (k a) l' b → reads (m ≫= k) (l ++ l') b.
Proof.
  intros Hm Hk pre rest. unfold mbind, M_bind. rewrite <-(assoc_L (++) l l' rest), Hm, Hk.
  by rewrite (assoc_L (++)).
Qed.

Lemma reads_mret {A} (a : A) : reads (mret a) [] a.
Proof. intros pre rest. by rewrite app_nil_r. Qed.

Lemma reads_pure {A} (r : result A FileSettingsError) a : r = Ok a → reads (pure r) [] a.
Proof. intros -> pre rest. by rewrite app_nil_r. Qed.

Lemma reads_ensure b e : b = true → reads (ensure b e) [] tt.
Proof. intros ->. apply reads_mret. Qed.

Lemma reads_when {A} (b : bool) (m : CM A) l a :
  (b = true → reads m l a) → reads (when b m) (if b then l else []) (if b then Some a else None).
Proof.
  intros Hm. unfold when. destruct b; [|apply reads_mret].
  rewrite <-(app_nil_r l). eapply reads_then; [by apply Hm|]. apply reads_mret.
Qed.

Lemma reads_array n l : length l = n → reads (r_array n) l l.
Proof.
  intros <- pre rest. unfold r_array, need, gets, modify, advance, at_, mbind, M_bind. cbn.
  rewrite !length_app, decide_False by lia. cbn. rewrite drop_app_length, take_app_length.
  by rewrite <-(assoc_L (++)).
Qed.

Lemma reads_u8 b : reads r_u8 [b] b.
Proof.
  intros pre rest. unfold r_u8, need, gets, modify, advance, at_, mbind, M_bind. cbn.
  rewrite !length_app, decide_False by (simpl; lia). cbn. rewrite app_nth2, Nat.sub_diag by lia. cbn.
  by rewrite <-(assoc_L (++)).
Qed.

Lemma reads_u24 v : is_offset v → reads r_u24_le (le_bytes 3 v) v.
Proof.
  intros Hv. unfold r_u24_le. rewrite <-(app_nil_r (le_bytes 3 v)).
  eapply reads_then; [by apply reads_array|]. pose proof (counter_of_le_bytes v Hv) as Hc.
  unfold counter_of in Hc. cbn [nth le_bytes]. rewrite Hc. apply reads_mret.
Qed.

Lemma writes_bind {A B} (m : CM A) (k : A → CM B) l l' a b :
  writes m l a → writes (k a) l' b → writes (m ≫= k) (l ++ l') b.
Proof.
  intros Hm Hk out buf Hl. rewrite length_app in Hl. unfold mbind, M_bind.
  rewrite Hm, Hk by (rewrite ?length_app; lia). by rewrite (assoc_L (++)).
Qed.

Lemma writes_mret {A} (a : A) : writes (mret a) [] a.
Proof. intros out buf _. by rewrite app_nil_r. Qed.

Lemma store_written src out buf : (length out + length src ≤ length buf)%nat →
  advance (length src) (store src (written out buf)) = written (out ++ src) buf.
Proof.
  intros Hl. unfold advance, store, written, copy_at. cbn. f_equal; [|by rewrite length_app].
  rewrite take_app_length, length_app, <-(assoc_L (++)). do 2 f_equal.
  rewrite drop_app_ge, drop_drop by lia. f_equal. lia.
Qed.

Lemma writes_array src : writes (w_array src) src tt.
Proof.
  intros out buf Hl. unfold w_array, need, modify, mbind, M_bind. cbn.
  rewrite length_app, length_drop, decide_False by lia. cbn. by rewrite store_written.
Qed.

Lemma writes_u8 b : writes (w_u8 b) [b] tt.
Proof. exact (writes_array [b]). Qed.

Lemma writes_u24 v : is_offset v → writes (w_u24_le v) (le_bytes 3 v) tt.
Proof.
  intros [H1 H2]. unfold w_u24_le. rewrite decide_False by lia.
  assert ([Z.land v 0xFF; Z.land (Z.shiftr v 8) 0xFF; Z.land (Z.shiftr v 16) 0xFF] = le_bytes 3 v) as ->.
  { assert (∀ z, Z.land z 0xFF = u8 z) as E by (intros; apply (Z.land_ones z 8); lia).
    unfold le_bytes. by rewrite !E, Z.shiftr_shiftr. }
  apply writes_array.
Qed.

(** What is on the wire. *)
Definition u24_opt (o : option Z) : list Z := match o with Some v => le_bytes 3 v | None => [] end.

Definition picc_wire (p : PiccData) : list Z :=
  match p with
  | PiccData_None => []
  | PiccData_Plain (PlainMirror_Uid uid) => le_bytes 3 uid
  | PiccData_Plain (PlainMirror_RCtr m) => le_bytes 3 (rcm_offset m)
  | PiccData_Plain (PlainMirror_Both uid m) => le_bytes 3 uid ++ le_bytes 3 (rcm_offset m)
  | PiccData_Encrypted _ offset _ => le_bytes 3 offset
  end.

Definition enc_wire (e : option EncFileData) : list Z :=
  match e with Some e => le_bytes 3 (efd_start e) ++ le_bytes 3 (efd_length e) | None => [] end.

Definition file_read_wire (fr : option FileRead) : list Z :=
  match fr with
  | None => []
  | Some fr => le_bytes 3 (mw_input (window fr)) ++ enc_wire (file_read_enc fr) ++
               le_bytes 3 (mw_mac (window fr))
  end.

Definition sdm_wire (s : Sdm) : list Z :=
  [sdm_options_byte s] ++ le_bytes 2 (sdm_access_word s) ++ picc_wire (sdm_picc_data s) ++
  u24_opt (sdm_tamper_status s) ++ file_read_wire (sdm_file_read s) ++
  u24_opt (read_ctr_limit (sdm_picc_data s)).

Definition update_wire (u : FileSettingsUpdate) : list Z :=
  [Z.lor (CommMode_to_bits (fu_comm_mode u)) (flag (bool_decide (is_Some (fu_sdm u))) 6)] ++
  AccessRights_to_le_bytes (fu_access_rights u) ++
  match fu_sdm u with Some s => sdm_wire s | None => [] end.

Lemma limit_offset z : is_limit z → is_offset z.
Proof. unfold is_limit, is_offset. lia. Qed.

Lemma sdm_limit_wf s l : sdm_wf s → read_ctr_limit (sdm_picc_data s) = Some l → is_limit l.
Proof.
  intros [[_ Hp] _ _ _]. unfold read_ctr_limit. destruct (rctr_features _) as [f|]; [|done]. by apply Hp.
Qed.

Lemma writes_opt o : (∀ v, o = Some v → is_offset v) → writes (w_opt o) (u24_opt o) tt.
Proof. intros H. destruct o; [|apply writes_mret]. apply writes_u24. auto. Qed.

Lemma writes_picc p : picc_wf p → writes (w_picc p) (picc_wire p) tt.
Proof.
  intros [H _]. destruct p as [|[uid|m|uid m]|k o c]; 
    try (by apply writes_u24); [apply writes_mret|].
  destruct H. eapply writes_bind; by apply writes_u24.
Qed.

Lemma writes_file_read fr : (∀ f, fr = Some f → file_read_wf f) → writes (w_file_read fr) (file_read_wire fr) tt.
Proof.
  intros H. destruct fr as [f|]; [|apply writes_mret]. destruct (H f eq_refl) as (Hi & Hm & He).
  unfold w_file_read, file_read_wire. eapply writes_bind; [by apply writes_u24|].
  eapply writes_bind; [|by apply writes_u24].
  destruct (file_read_enc f) as [e|]; [|apply writes_mret]. destruct (He e eq_refl) as [? [? _]].
  eapply writes_bind; by apply writes_u24.
Qed.

Lemma writes_sdm s : sdm_wf s → writes (encode_sdm s) (sdm_wire s) tt.
Proof.
  intros Hs. pose proof Hs as [Hp Hf Ht _]. unfold encode_sdm, sdm_wire.
  eapply writes_bind; [apply writes_u8|]. eapply writes_bind; [apply writes_array|].
  eapply writes_bind; [by apply writes_picc|]. eapply writes_bind; [by apply writes_opt|].
  eapply writes_bind; [by apply writes_file_read|].
  apply writes_opt. intros v Hv. eapply limit_offset, sdm_limit_wf; eauto.
Qed.

Lemma bit_flags a b c d e :
  let o := Z.lor (flag a 7) (Z.lor (flag b 6) (Z.lor (flag c 5) (Z.lor (flag d 4) (Z.lor (flag e 3) 1)))) in
  bit o 7 = a ∧ bit o 6 = b ∧ bit o 5 = c ∧ bit o 4 = d ∧ bit o 3 = e ∧ Z.land o 7 = 1.
Proof. by destruct a, b, c, d, e. Qed.

Definition nibble (z : Z) : Prop := 0 ≤ z < 16.

Lemma nibbles_sum a b c d : nibble a → nibble b → nibble c → nibble d →
  nibbles a b c d = a * 4096 + b * 256 + c * 16 + d.
Proof.
  unfold nibble, nibbles. intros.
  assert (∀ x y n, 0 ≤ n → 0 ≤ y < 2 ^ n → Z.lor (Z.shiftl x n) y = x * 2 ^ n + y) as E.
  { intros x y n Hn Hy. pose proof (Z.add_lor_land (Z.shiftl x n) y) as A.
    rewrite (Z.land_comm (Z.shiftl x n)), land_shiftl_disjoint, Z.shiftl_mul_pow2 in A by lia. rewrite Z.shiftl_mul_pow2 by lia. lia. }
  rewrite <-!Z.lor_assoc.
  assert (Z.lor (Z.shiftl c 4) d = c * 16 + d) as E1 by (apply (E c d 4); lia).
  rewrite E1, (E b _ 8), (E a _ 12) by lia. lia.
Qed.

Lemma nib_nibbles a b c d : nibble a → nibble b → nibble c → nibble d →
  let v := le_val (le_bytes 2 (nibbles a b c d)) in
  nib v 3 = a ∧ nib v 2 = b ∧ nib v 1 = c ∧ nib v 0 = d.
Proof.
  intros Ha Hb Hc Hd v. subst v. rewrite le_val_bytes, nibbles_sum by done. unfold nibble in *.
  change (2 ^ (8 * Z.of_nat 2)) with 65536. rewrite Z.mod_small by lia.
  assert (∀ z i, nib z i = Z.shiftr z (4 * i) mod 16) as E by (intros; apply (Z.land_ones _ 4); lia).
  rewrite !E, !Z.shiftr_div_pow2 by lia.
  change (2 ^ (4 * 3)) with 4096. change (2 ^ (4 * 2)) with 256. change (2 ^ (4 * 1)) with 16. change (2 ^ (4 * 0)) with 1.
  split_and!; Z.div_mod_to_equations; lia.
Qed.

Lemma as_byte_key k : key_of_nibble (as_byte k) = Some k ∧ 0 ≤ as_byte k ≤ 4.
Proof. by destruct k. Qed.

Lemma Access_nibble a slot : nibble (Access_to_nibble a) ∧ Access_from_nibble (Access_to_nibble a) slot = Ok a.
Proof. by destruct a as [[]| |]. Qed.

Lemma CtrRet_nibble a : nibble (CtrRet_to_nibble a) ∧ CtrRet_from_nibble (CtrRet_to_nibble a) = Ok a.
Proof. by destruct a as [[]| |]. Qed.

Lemma AccessRights_roundtrip ar : AccessRights_from_le_bytes (AccessRights_to_le_bytes ar) = Ok ar.
Proof.
  destruct ar as [rd wr rw ch]. unfold AccessRights_from_le_bytes, AccessRights_to_le_bytes. cbn [ar_read ar_write ar_read_write ar_change].
  destruct (Access_nibble rd Slot_Read) as [N1 A1], (Access_nibble wr Slot_Write) as [N2 A2],
    (Access_nibble rw Slot_ReadWrite) as [N3 A3], (Access_nibble ch Slot_Change) as [N4 A4].
  destruct (nib_nibbles _ _ _ _ N1 N2 N3 N4) as (-> & -> & -> & ->).
  by rewrite A1, A2, A3, A4.
Qed.

Lemma option_byte m c :
  let o := Z.lor (CommMode_to_bits m) (flag c 6) in
  Z.land o 0xBC = 0 ∧ bit o 6 = c ∧ CommMode_from_bits o = m.
Proof. by destruct m, c. Qed.

(** The decoder's view of the nibbles and flags of well-formed settings. *)
Lemma picc_nibble_ok p : nibble (picc_nibble p).
Proof. destruct p as [| |[] ? ?]; done. Qed.

Lemma fr_nibble_ok fr :
  nibble (fr_nibble fr) ∧ sdm_file_read_key (fr_nibble fr) = Ok (file_read_key <$> fr).
Proof. destruct fr as [f|]; [|done]. simpl. by destruct (file_read_key f). Qed.

Lemma sdm_word_top s : Z.land (nth 0 (le_bytes 2 (sdm_access_word s)) 0) 0xF0 = 0xF0.
Proof.
  unfold sdm_access_word.
  pose proof (picc_nibble_ok (sdm_picc_data s)) as N1. destruct (fr_nibble_ok (sdm_file_read s)) as [N2 _].
  destruct (CtrRet_nibble (ctr_ret (sdm_picc_data s))) as [N3 _].
  rewrite nibbles_sum by done. cbn [nth le_bytes]. unfold u8.
  assert (∀ a b d, (a * 4096 + b * 256 + 15 * 16 + d) mod 2 ^ 8 = (240 + d) mod 2 ^ 8) as E.
  { intros. replace (a * 4096 + b * 256 + 15 * 16 + d) with (240 + d + (a * 16 + b) * 2 ^ 8) by lia.
    by rewrite Z.mod_add. }
  rewrite E. by destruct (ctr_ret (sdm_picc_data s)) as [[]| |].
Qed.

Lemma ctr_ret_mirror p : picc_includes_rctr p || bool_decide (ctr_ret p = CtrRet_NoAccess) = true.
Proof. by destruct p as [|[]|? ? []]. Qed.

Lemma reads_opt {A} (b : bool) (m : CM A) (w : A → list Z) (o : option A) :
  b = bool_decide (is_Some o) → (∀ a, o = Some a → reads m (w a) a) →
  reads (when b m) (match o with Some a => w a | None => [] end) o.
Proof.
  intros -> Hm. destruct o as [a|].
  - rewrite bool_decide_true by done. exact (reads_when true m (w a) a (λ _, Hm a eq_refl)).
  - rewrite bool_decide_false by apply is_Some_None. apply reads_mret.
Qed.

Lemma reads_enc_range start len : is_offset start → is_enc_length len →
  reads r_enc_range (le_bytes 3 start ++ le_bytes 3 len) (start, len).
Proof.
  intros Hs [Hl [H0 Hm]]. unfold r_enc_range. eapply reads_then; [by apply reads_u24|].
  rewrite <-(app_nil_r (le_bytes 3 len)). eapply reads_then; [by apply reads_u24|].
  rewrite <-(app_nil_r []). eapply reads_then; [|apply reads_mret].
  apply reads_pure. unfold EncLength_new. rewrite decide_False; [done|]. unfold is_offset in Hl. lia.
Qed.

Lemma reads_limit_opt p (o : option Z) : (∀ l, o = Some l → is_limit l) →
  (is_Some o → picc_includes_rctr p = true) →
  reads (if bool_decide (is_Some o) then r_limit (picc_includes_rctr p) else mret None) (u24_opt o) o.
Proof.
  intros Hl Hp. destruct o as [l|]; [|apply reads_mret]. rewrite bool_decide_true by done.
  rewrite Hp by done. unfold r_limit, u24_opt. rewrite <-(app_nil_l (le_bytes 3 l)).
  eapply reads_then; [by apply reads_ensure|]. rewrite <-(app_nil_r (le_bytes 3 l)).
  eapply reads_then; [apply reads_u24, limit_offset; auto|].
  destruct (Hl l eq_refl) as [? ?]. rewrite decide_True by lia. apply reads_mret.
Qed.

(** The values the decoder finds in the identity part. *)
Definition uid_val (p : PiccData) : option Z := fst <$> uid_range p.
Definition ctr_val (p : PiccData) : option Z := fst <$> rctr_range p.
Definition blob_val (p : PiccData) : option Z :=
  match p with PiccData_Encrypted _ o _ => Some o | _ => None end.
Definition blob_key (p : PiccData) : option KeyNumber :=
  match p with PiccData_Encrypted k _ _ => Some k | _ => None end.
Definition enc_val (fr : option FileRead) : option (Z * Z) := enc_range fr.

Lemma picc_flags p :
  picc_includes_uid p && bool_decide (picc_nibble p = 0xE) = bool_decide (is_Some (uid_val p)) ∧
  picc_includes_rctr p && bool_decide (picc_nibble p = 0xE) = bool_decide (is_Some (ctr_val p)) ∧
  bool_decide (picc_nibble p ≤ 4) = bool_decide (is_Some (blob_val p)) ∧
  bool_decide (picc_nibble p ≤ 4) = bool_decide (is_Some (blob_key p)).
Proof. by destruct p as [|[]|[] ? []]. Qed.

Lemma build_picc_data_ok p :
  build_picc_data (bool_decide (picc_nibble p = 0xE)) (blob_key p) (picc_nibble p)
    (picc_includes_uid p) (picc_includes_rctr p) (uid_val p) (ctr_val p) (blob_val p)
    (mkReadCtrFeatures (read_ctr_limit p) (ctr_ret p)) = Ok p.
Proof. by destruct p as [|[|[? []]|? [? []]]|[] ? [|[]|[]]]. Qed.

Lemma build_file_read_ok fr :
  build_file_read (file_read_key <$> fr) ((λ f, mw_input (window f)) <$> fr)
    ((λ f, mw_mac (window f)) <$> fr) (enc_val fr) = Ok fr.
Proof. by destruct fr as [[? []|? [] []]|]. Qed.

Lemma picc_vals_wf p : picc_wf p →
  (∀ z, uid_val p = Some z → is_offset z) ∧ (∀ z, ctr_val p = Some z → is_offset z) ∧
  (∀ z, blob_val p = Some z → is_offset z).
Proof.
  intros [H _]. destruct p as [|[]|]; simpl in *; unfold uid_val, ctr_val; simpl;
    (split_and!; intros z; [intros Hz|intros Hz|intros Hz]); simplify_eq; tauto.
Qed.

Lemma picc_wire_split p :
  picc_wire p = u24_opt (uid_val p) ++ u24_opt (ctr_val p) ++ u24_opt (blob_val p).
Proof. destruct p as [|[]|]; cbn [picc_wire uid_val ctr_val blob_val u24_opt]; by rewrite ?app_nil_r. Qed.

Lemma file_read_wire_split fr :
  file_read_wire fr = u24_opt ((λ f, mw_input (window f)) <$> fr) ++
    match enc_val fr with Some r => le_bytes 3 r.1 ++ le_bytes 3 r.2 | None => [] end ++
    u24_opt ((λ f, mw_mac (window f)) <$> fr).
Proof. by destruct fr as [[]|]. Qed.

Lemma reads_eq {A} (m : CM A) l l' a : reads m l a → l = l' → reads m l' a.
Proof. by intros ? <-. Qed.

Lemma reads_u24_opt b o : b = bool_decide (is_Some o) → (∀ z, o = Some z → is_offset z) →
  reads (when b r_u24_le) (u24_opt o) o.
Proof. intros -> Ho. apply (reads_opt _ _ (le_bytes 3)); [done|]. intros. apply reads_u24. auto. Qed.

(** The optional pieces of the file-read part and of the identity part. *)
Lemma reads_window (sel : MacWindow → Z) fr :
  (∀ f, fr = Some f → is_offset (sel (window f))) →
  reads (when (bool_decide (is_Some (file_read_key <$> fr))) r_u24_le)
    (u24_opt ((λ f, sel (window f)) <$> fr)) ((λ f, sel (window f)) <$> fr).
Proof.
  intros H. apply reads_u24_opt; [by destruct fr|]. intros z Hz.
  apply fmap_Some in Hz as (f & Hf & ->). by apply H.
Qed.

Lemma reads_enc_opt fr : (∀ f, fr = Some f → file_read_wf f) →
  reads (when (bool_decide (is_Some (file_read_key <$> fr)) && bool_decide (is_Some (fr ≫= file_read_enc)))
           r_enc_range)
    (match enc_val fr with Some r => le_bytes 3 r.1 ++ le_bytes 3 r.2 | None => [] end) (enc_val fr).
Proof.
  intros H. apply (reads_opt _ _ (λ r, le_bytes 3 r.1 ++ le_bytes 3 r.2)); [by destruct fr as [[]|]|].
  intros [st len] Hz. destruct fr as [[|k w e]|]; try done. injection Hz as <- <-.
  destruct (H _ eq_refl) as (_ & _ & He). destruct (He e eq_refl). by apply reads_enc_range.
Qed.

Lemma reads_blob_key p :
  reads (when (bool_decide (picc_nibble p ≤ 4)) (pure (key_from_nibble (picc_nibble p) Slot_SdmMetaRead)))
    [] (blob_key p).
Proof.
  replace [] with (match blob_key p with Some _ => [] | None => @nil Z end) by (by destruct p).
  apply (reads_opt _ _ (λ _, [])); [by destruct (picc_flags p) as (_ & _ & _ & ->)|].
  intros k Hk. apply reads_pure. destruct p; try done. injection Hk as ->. by destruct k.
Qed.

Lemma limit_mirrored p : is_Some (read_ctr_limit p) → picc_includes_rctr p = true.
Proof. unfold read_ctr_limit. by destruct p as [|[]|? ? []]; intros []. Qed.

Lemma reads_sdm s : sdm_wf s → reads decode_sdm (sdm_wire s) s.
Proof.
  intros Hs. pose proof Hs as [Hp Hf Ht Hc]. unfold decode_sdm, sdm_wire.
  destruct (picc_vals_wf _ Hp) as (V1 & V2 & V3). destruct (picc_flags (sdm_picc_data s)) as (F1 & F2 & F3 & F4).
  destruct (bit_flags (picc_includes_uid (sdm_picc_data s)) (picc_includes_rctr (sdm_picc_data s))
    (bool_decide (is_Some (read_ctr_limit (sdm_picc_data s))))
    (bool_decide (is_Some (sdm_file_read s ≫= file_read_enc))) (bool_decide (is_Some (sdm_tamper_status s))))
    as (B7 & B6 & B5 & B4 & B3 & B0).
  fold (sdm_options_byte s) in B7, B6, B5, B4, B3, B0.
  destruct (fr_nibble_ok (sdm_file_read s)) as [N2 K2]. destruct (CtrRet_nibble (ctr_ret (sdm_picc_data s))) as [N0 K0].
  destruct (nib_nibbles (picc_nibble (sdm_picc_data s)) (fr_nibble (sdm_file_read s)) 0xF _
    (picc_nibble_ok _) N2 ltac:(done) N0) as (W3 & W2 & _ & W0).
  fold (sdm_access_word s) in W3, W2, W0.
  eapply reads_eq.
  { eapply reads_then; [apply (reads_u8 (sdm_options_byte s))|].
    eapply reads_then; [by apply (reads_array 2 (le_bytes 2 (sdm_access_word s)))|].
    cbv zeta. rewrite B7, B6, B5, B4, B3, B0, W3, W2, W0, sdm_word_top.
    eapply reads_then; [by apply reads_ensure|]. eapply reads_then; [by apply reads_ensure|].
    eapply reads_then; [apply reads_blob_key|].
    eapply reads_then; [by apply reads_pure|]. eapply reads_then; [by apply reads_pure|].
    eapply reads_then; [by apply reads_ensure, ctr_ret_mirror|].
    eapply reads_then; [by apply (reads_u24_opt _ (uid_val (sdm_picc_data s)))|].
    eapply reads_then; [by apply (reads_u24_opt _ (ctr_val (sdm_picc_data s)))|].
    eapply reads_then; [by apply (reads_u24_opt _ (blob_val (sdm_picc_data s)))|].
    eapply reads_then; [by apply (reads_u24_opt _ (sdm_tamper_status s))|].
    eapply reads_then; [apply (reads_window mw_input); intros f Hf'; by destruct (Hf f Hf')|].
    eapply reads_then; [by apply reads_enc_opt|].
    eapply reads_then; [apply (reads_window mw_mac); intros f Hf'; by destruct (Hf f Hf') as (_ & ? & _)|].
    eapply reads_then; [apply reads_limit_opt; [intros l; by apply sdm_limit_wf|apply limit_mirrored]|].
    eapply reads_then; [apply reads_pure, build_picc_data_ok|].
    eapply reads_then; [apply reads_pure, build_file_read_ok|].
    apply reads_pure. apply Sdm_try_new_inner_ok; [by apply file_read_wf_len|]. by destruct s. }
  rewrite picc_wire_split, file_read_wire_split. rewrite ?app_nil_r; simpl; by rewrite <-?(assoc_L (++)).
Qed.

(** A computation that reads the buffer to its end. *)
Definition reads_all {A} (m : CM A) (l : list Z) (a : A) : Prop :=
  ∀ pre, ∃ c, m (at_ pre l) = (Ok a, c).

Lemma reads_all_bind {A B} (m : CM A) (k : A → CM B) l l' a b :
  reads m l a → reads_all (k a) l' b → reads_all (m ≫= k) (l ++ l') b.
Proof. intros Hm Hk pre. unfold mbind, M_bind. rewrite Hm. apply Hk. Qed.

Lemma reads_remaining : reads_all remaining [] 0.
Proof. intros pre. eexists. unfold remaining, gets, at_. cbn. by rewrite app_nil_r, Nat.sub_diag. Qed.

Lemma reads_all_end {A} (x : A) :
  reads_all (rest ← remaining; ensure (bool_decide (rest = 0)) (TrailingBytes rest) ;; mret x) [] x.
Proof. intros pre. unfold mbind, M_bind. destruct (reads_remaining pre) as [c ->]. by eexists. Qed.

(** The answer a card gives after storing a [ChangeFileSettings] payload: the file
    type in front, the file size after the access rights. *)
Definition get_answer (file_size : Z) (patch : list Z) : list Z :=
  [0x00] ++ take 3 patch ++ le_bytes 3 file_size ++ drop 3 patch.

Lemma decode_wire v : view_wf v → decode (get_answer (fs_file_size v) (update_wire (into_update v))) = Ok v.
Proof.
  intros [Hsz Hs]. destruct v as [[] size m ar sdm]. cbn in Hsz, Hs.
  assert (into_update (mkFileSettingsView StandardData size m ar sdm) = mkFileSettingsUpdate m ar sdm) as ->
    by (by destruct sdm).
  destruct (option_byte m (bool_decide (is_Some sdm))) as (O1 & O2 & O3).
  unfold update_wire, get_answer. cbn [fu_comm_mode fu_access_rights fu_sdm fs_file_size].
  set (o := Z.lor _ _) in *. set (a := AccessRights_to_le_bytes ar).
  rewrite (assoc_L (++) [o] a), take_app_exact, drop_app_exact by done.
  set (body := match sdm with Some s => sdm_wire s | None => [] end).
  assert (reads (when (bool_decide (is_Some sdm)) decode_sdm) body sdm) as Hb.
  { apply reads_opt; [done|]. intros s ->. by apply reads_sdm, Hs. }
  assert (reads_all decode_view ([0] ++ [] ++ [o] ++ a ++ [] ++ le_bytes 3 size ++ [] ++ body ++ [])
    (mkFileSettingsView StandardData size m ar sdm)) as Hr.
  { unfold decode_view. eapply reads_all_bind; [apply reads_u8|]. eapply reads_all_bind; [by apply reads_pure|].
    eapply reads_all_bind; [apply reads_u8|]. eapply reads_all_bind; [by apply (reads_array 2 a)|].
    eapply reads_all_bind; [apply reads_pure, AccessRights_roundtrip|].
    eapply reads_all_bind; [by apply reads_u24|]. rewrite O1, O2, O3.
    eapply reads_all_bind; [by apply reads_ensure|]. eapply reads_all_bind; [exact Hb|]. apply reads_all_end. }
  destruct (Hr []) as [c Hc]. unfold at_ in Hc. cbn [app length] in Hc. rewrite app_nil_r in Hc.
  unfold decode. cbn [app]. by rewrite Hc.
Qed.

Lemma update_wire_length u : (∀ s, fu_sdm u = Some s → sdm_wf s) →
  (3 ≤ length (update_wire u) ≤ MAX_CHANGE_FILE_SETTINGS_LEN)%nat.
Proof.
  intros Hs. unfold update_wire. rewrite !length_app. unfold AccessRights_to_le_bytes. rewrite le_bytes_length.
  cbn [length]. split; [lia|]. unfold MAX_CHANGE_FILE_SETTINGS_LEN.
  destruct (fu_sdm u) as [s|]; [|cbn; lia]. unfold sdm_wire, u24_opt. rewrite !length_app, le_bytes_length.
  assert (length (picc_wire (sdm_picc_data s)) ≤ 6)%nat by (by destruct (sdm_picc_data s) as [|[]|]; cbn; lia).
  assert (length (file_read_wire (sdm_file_read s)) ≤ 12)%nat by (by destruct (sdm_file_read s) as [[]|]; cbn; lia).
  destruct (sdm_tamper_status s), (read_ctr_limit _); cbn [length]; rewrite ?le_bytes_length; lia.
Qed.

Lemma writes_step {A B} (m : CM A) (k : A → CM B) l a out buf :
  writes m l a → (length out + length l ≤ length buf)%nat →
  (m ≫= k) (written out buf) = k a (written (out ++ l) buf).
Proof. intros Hm Hl. unfold mbind, M_bind. by rewrite Hm. Qed.

Lemma writes_update u : (∀ s, fu_sdm u = Some s → sdm_wf s) → ∀ buf, (length (update_wire u) ≤ length buf)%nat →
  encode u buf = (Ok (length (update_wire u)), update_wire u ++ drop (length (update_wire u)) buf).
Proof.
  intros Hs buf Hl. unfold encode. change (mkCursor buf 0) with (written [] buf).
  assert (encode_update u (written [] buf) = (Ok (length (update_wire u)), written (update_wire u) buf)) as ->;
    [|done].
  unfold encode_update, update_wire in *. rewrite !length_app in Hl.
  rewrite (writes_step _ _ _ _ _ _ (writes_u8 _)) by (cbn in *; lia).
  rewrite (writes_step _ _ _ _ _ _ (writes_array _)) by (cbn in *; lia).
  assert (writes (match fu_sdm u with Some s => encode_sdm s | None => mret tt end)
    (match fu_sdm u with Some s => sdm_wire s | None => [] end) tt) as Hw.
  { destruct (fu_sdm u); [by apply writes_sdm, Hs|apply writes_mret]. }
  rewrite (writes_step _ _ _ _ _ _ Hw) by (rewrite !length_app; cbn in *; lia).
  by rewrite <-!(assoc_L (++)).
Qed.

(** C30. Settings survive a read-modify-write. Encoding well-formed settings into a
    buffer of the advertised size succeeds, writes at most 33 bytes and nothing
    after the count it returns; and the answer the card gives after storing that
    payload decodes to the same settings. *)
Theorem settings_roundtrip (v : FileSettingsView) (buf : list Z) :
  view_wf v → (MAX_CHANGE_FILE_SETTINGS_LEN ≤ length buf)%nat →
  ∃ n patch, encode (into_update v) buf = (Ok n, patch ++ drop n buf) ∧
    length patch = n ∧ (n ≤ MAX_CHANGE_FILE_SETTINGS_LEN)%nat ∧
    decode (get_answer (fs_file_size v) patch) = Ok v.
Proof.
  intros Hv Hl. assert (∀ s, fu_sdm (into_update v) = Some s → sdm_wf s) as Hs.
  { intros s. destruct Hv as [_ Hv], v as [? ? ? ? []]; [|done]. intros [= <-]. by apply Hv. }
  pose proof (update_wire_length _ Hs). eexists _, (update_wire (into_update v)).
  split; [apply writes_update; [done|lia]|]. split; [done|]. split; [lia|]. by apply decode_wire.
Qed.

(** The settings of the burnt cards in the application note of the tag. *)
Definition an12196_view : FileSettingsView :=
  mkFileSettingsView StandardData 256 Plain
    (mkAccessRights Access_Free Access_Free Access_Free Access_Free)
    (Some (mkSdm (PiccData_Encrypted Key0 0x1F (EncContent_Both (mkReadCtrFeatures None CtrRet_Free)))
                 (Some (FileRead_MacAndEnc Key0 (mkMacWindow 0x44 0x6A) (mkEncFileData 0x44 0x20))) None)).

Lemma decode_well_formed_witness : bytes an12196_get ∧ decode an12196_get = Ok an12196_view ∧ view_wf an12196_view.
Proof.
  assert (bytes an12196_get) as Hb by (apply (bool_decide_unpack _); vm_compute; done).
  split; [done|]. split; [by vm_compute|]. apply (decode_well_formed an12196_get); [done|by vm_compute].
Defined.

(** Settings whose encrypted identity and MAC both start at offset 67 decode. *)
Example wire_blob_unchecked :
  match decode [0x00; 0x40; 0x00; 0xE0; 0x00; 0x01; 0x00; 0xC1; 0xF1; 0x21; 0x43; 0x00; 0x00;
                0x43; 0x00; 0x00; 0x43; 0x00; 0x00] with
  | Ok v => match fs_sdm v with
            | Some (mkSdm (PiccData_Encrypted _ blob _) (Some fr) None) => (blob, mw_mac (window fr)) = (67, 67)
            | _ => False
            end
  | Err _ => False
  end.
Proof. vm_compute. done. Qed.

Lemma an12196_view_wf : view_wf an12196_view.
Proof.
  assert (bytes an12196_get) as Hb by (apply (bool_decide_unpack _); vm_compute; done).
  assert (decode an12196_get = Ok an12196_view) as Hd by (by vm_compute).
  unfold decode in Hd. pose proof (decode_view_wf (mkCursor an12196_get 0) Hb) as [_ Hw].
  by rewrite Hd in Hw.
Qed.

Lemma settings_roundtrip_witness :
  ∃ n patch, encode (into_update an12196_view) (replicate 33 0) = (Ok n, patch ++ drop n (replicate 33 0)) ∧
    length patch = n ∧ (n ≤ MAX_CHANGE_FILE_SETTINGS_LEN)%nat ∧
    decode (get_answer 256 patch) = Ok an12196_view.
Proof.
  apply (settings_roundtrip an12196_view (replicate 33 0) an12196_view_wf).
  vm_compute. lia.
Defined.

(** The documentation of [try_new] asks that a tamper status inside the data to
    encrypt fall entirely within its plaintext half; one that starts before the
    data is accepted. *)
Example tamper_straddles_start :
  let s := mkSdm (PiccData_Encrypted Key2 0x10 (EncContent_Both (mkReadCtrFeatures None CtrRet_NoAccess)))
    (Some (FileRead_MacAndEnc Key2 (mkMacWindow 0x40 0x80) (mkEncFileData 0x50 0x20))) (Some 0x4F) in
  Sdm_try_new (sdm_picc_data s) (sdm_file_read s) (sdm_tamper_status s) Aes = Ok s.
Proof. by vm_compute. Qed.

(** A counter limit of [0xFFFFFF] is written with the limit flag set and read back
    as no limit. *)
Example limit_all_ones_lost :
  let u := update_new Plain (fs_access_rights ndef_factory) in
  let s l := mkSdm (PiccData_Plain (PlainMirror_RCtr (mkReadCtrMirror 0x20 (mkReadCtrFeatures l CtrRet_NoAccess)))) None None in
  let '(r, buf) := encode (with_sdm u (s (Some 0xFFFFFF))) (replicate 33 0) in
  r = Ok 12%nat ∧ fs_sdm <$> ok (decode (get_answer 256 (take 12 buf))) = Some (Some (s None)).
Proof. by vm_compute. Qed.
