(* ===== verification/SdmUrl.v ===== *)
(** * The planner of SDM URLs

    [vendor/ntag424/src/sdm_url.rs]: from a URL template with placeholders to the
    NDEF file of the card and its SDM settings.

    What is proved: a plan that is returned is sound (the file is one well-formed
    URI record within its limits, the settings satisfy the invariant of their type,
    every placeholder lies in the file, was filled with zeros and is apart from the
    others but for a tamper status in the data to encrypt), the planner never
    indexes out of range on UTF-8 text, the plan of the templates a server hands out
    is computed in closed form (Tap.v follows it to the card and back), and the
    crate's own reader takes back what the planner wrote. *)

From S2P Require Import Prelude Str Hex Derivation Picc AesRef Ndef NtagTypes FileSettings.

Definition URI_AT : Z := 7.
Definition DEFAULT_CONST_PLAN_CAPACITY : nat := 256.

Inductive PiccContent := PC_Uid | PC_Ctr | PC_Both.
Inductive Placeholder := Ph_Uid | Ph_Ctr | Ph_Picc (c : PiccContent) | Ph_Tt | Ph_Mac.

#[export] Instance PiccContent_eq_dec : EqDecision PiccContent.
Proof. solve_decision. Defined.
#[export] Instance Placeholder_eq_dec : EqDecision Placeholder.
Proof. solve_decision. Defined.

(** [T_Panic] is not an error of the source: it stands for an index out of range,
    or a loop out of fuel, and is proved unreachable. *)
Inductive TemplateCoreError :=
| T_MissingMac | T_PiccWithPlainMirrors | T_NoMirror
| T_DuplicatePlaceholder (s : list Z)
| T_EncFileDataRequiresUidAndCtr
| T_InvalidEncRangeLength (n : Z)
| T_InvalidPlaceholder (start end_ : nat)
| T_Unterminated (s : list Z)
| T_UnexpectedMarker (s : list Z)
| T_DuplicateRange (s : list Z)
| T_PlaceholderInEncRange (s : list Z)
| T_NestedRange (s : list Z)
| T_MacStartAfterMac
| T_OutputBufferTooSmall (needed capacity : nat)
| T_FileTooLong (got max : Z)
| T_FileSettings (s : list Z)
| T_Panic.

Notation TR A := (result A TemplateCoreError).

(** ** [ConstNdefBytes<N>]

    The bytes in use; the capacity [N] is an argument of the pushes. *)

Definition cb_push (cap : nat) (buf : list Z) (byte : Z) : TR (list Z) :=
  if decide (length buf = cap) then Err (T_OutputBufferTooSmall (length buf + 1) cap)
  else Ok (buf ++ [byte]).

Fixpoint cb_push_zeroes (cap : nat) (buf : list Z) (count : nat) : TR (list Z) :=
  match count with
  | O => Ok buf
  | S count => buf ←? cb_push cap buf 48; cb_push_zeroes cap buf count
  end.

Fixpoint cb_extend (cap : nat) (buf src : list Z) (start count : nat) : TR (list Z) :=
  match count with
  | O => Ok buf
  | S count =>
      match src !! start with
      | Some b => buf ←? cb_push cap buf b; cb_extend cap buf src (S start) count
      | None => Err T_Panic
      end
  end.

(** ** Scanning helpers *)

Fixpoint bytes_eq_loop (haystack : list Z) (start : nat) (needle : list Z) : bool :=
  match needle with
  | [] => true
  | c :: needle => bool_decide (haystack !! start = Some c) && bytes_eq_loop haystack (S start) needle
  end.

Definition bytes_eq_at (haystack : list Z) (start : nat) (needle : list Z) : bool :=
  if decide (length haystack < start + length needle)%nat then false
  else bytes_eq_loop haystack start needle.

Definition bytes_match (haystack : list Z) (start len : nat) (needle : list Z) : bool :=
  bool_decide (len = length needle) && bytes_eq_at haystack start needle.

Definition NDEF_URI_PREFIXES : list (Z * list Z) :=
  [(0x01, lit "http://www."); (0x02, lit "https://www."); (0x03, lit "http://"); (0x04, lit "https://");
   (0x05, lit "tel:"); (0x06, lit "mailto:"); (0x07, lit "ftp://anonymous:anonymous@");
   (0x08, lit "ftp://ftp."); (0x09, lit "ftps://"); (0x0A, lit "sftp://"); (0x0B, lit "smb://");
   (0x0C, lit "nfs://"); (0x0D, lit "ftp://"); (0x0E, lit "dav://"); (0x0F, lit "news:");
   (0x10, lit "telnet://"); (0x11, lit "imap:"); (0x12, lit "rtsp://"); (0x13, lit "urn:");
   (0x14, lit "pop:"); (0x15, lit "sip:"); (0x16, lit "sips:"); (0x17, lit "tftp:");
   (0x18, lit "btspp://"); (0x19, lit "btl2cap://"); (0x1A, lit "btgoep://"); (0x1B, lit "tcpobex://");
   (0x1C, lit "irdaobex://"); (0x1D, lit "file://"); (0x1E, lit "urn:epc:id:");
   (0x1F, lit "urn:epc:tag:"); (0x20, lit "urn:epc:pat:"); (0x21, lit "urn:epc:raw:");
   (0x22, lit "urn:epc:"); (0x23, lit "urn:nfc:")].

Fixpoint first_prefix (table : list (Z * list Z)) (url : list Z) : Z * nat :=
  match table with
  | [] => (0x00, 0%nat)
  | (code, prefix) :: table =>
      if bytes_eq_at url 0 prefix then (code, length prefix) else first_prefix table url
  end.

Definition detect_uri_prefix : list Z → Z * nat := first_prefix NDEF_URI_PREFIXES.

Definition escaped_width (url : list Z) (backslash : nat) : TR nat :=
  match url !! S backslash with
  | None => Err (T_Unterminated (lit "escape sequence"))
  | Some b => Ok (utf8_char_width b)
  end.

Definition current_file_offset_len (uri_len : nat) : Z := URI_AT + Z.of_nat uri_len.

Definition set_once {T} (slot : option T) (value : T) (name : list Z) : TR (option T) :=
  match slot with Some _ => Err (T_DuplicatePlaceholder name) | None => Ok (Some value) end.

Definition placeholder_fill_len (p : Placeholder) (mode : CryptoMode) : nat :=
  match p with
  | Ph_Uid => 14
  | Ph_Ctr => 6
  | Ph_Tt => 2
  | Ph_Mac => 16
  | Ph_Picc _ => Z.to_nat (picc_blob_ascii_len mode)
  end.

Definition picc_content_includes_uid (c : PiccContent) : bool :=
  match c with PC_Uid | PC_Both => true | PC_Ctr => false end.
Definition picc_content_includes_ctr (c : PiccContent) : bool :=
  match c with PC_Ctr | PC_Both => true | PC_Uid => false end.

(** The placeholder named by a range of bytes, with the text used in messages. *)
Definition placeholder_of (url : list Z) (spec_start spec_len : nat) : option (Placeholder * list Z) :=
  let named := bytes_match url spec_start spec_len in
  if named (lit "uid") then Some (Ph_Uid, lit "{uid}")
  else if named (lit "ctr") then Some (Ph_Ctr, lit "{ctr}")
  else if named (lit "tt") then Some (Ph_Tt, lit "{tt}")
  else if named (lit "mac") then Some (Ph_Mac, lit "{mac}")
  else if named (lit "picc") then Some (Ph_Picc PC_Both, lit "{picc}")
  else if named (lit "picc:uid") then Some (Ph_Picc PC_Uid, lit "{picc}")
  else if named (lit "picc:ctr") then Some (Ph_Picc PC_Ctr, lit "{picc}")
  else if named (lit "picc:uid+ctr") || named (lit "picc:ctr+uid") then Some (Ph_Picc PC_Both, lit "{picc}")
  else None.

(** Scans for the closing brace from [end_]; the rest of the input is the fuel. *)
Fixpoint parse_placeholder_from (rest url : list Z) (start end_ : nat) :
    TR (Placeholder * nat * list Z)%type :=
  match rest with
  | [] => Err (T_Unterminated (lit "placeholder"))
  | c :: rest =>
      if decide (c = 125) then
        match placeholder_of url (start + 1) (end_ - (start + 1)) with
        | Some (p, display) => Ok (p, (end_ + 1 - start)%nat, display)
        | None => Err (T_InvalidPlaceholder start (end_ + 1))
        end
      else parse_placeholder_from rest url start (S end_)
  end.

(** Byte 125 is the closing brace.  The source also returns the range of the
    placeholder, which its callers ignore. *)
Definition parse_placeholder (url : list Z) (start : nat) : TR (Placeholder * nat * list Z)%type :=
  parse_placeholder_from (drop (start + 1) url) url start (start + 1).

(** ** [parse_template] *)

(** The local variables of the loop. *)
Record Template := mkTemplate {
  t_content : list Z;
  t_uid : option Z;
  t_ctr : option Z;
  t_picc : option (Z * PiccContent);
  t_tt : option Z;
  t_mac : option Z;
  t_saw_mac_start : bool;
  t_mac_start : option Z;
  t_in_enc : bool;
  t_enc_start : option Z;
  t_enc_end : option Z }.

Definition template_empty : Template := mkTemplate [] None None None None None false None false None None.

Definition with_content (c : list Z) (t : Template) : Template :=
  mkTemplate c (t_uid t) (t_ctr t) (t_picc t) (t_tt t) (t_mac t) (t_saw_mac_start t) (t_mac_start t)
    (t_in_enc t) (t_enc_start t) (t_enc_end t).
Definition with_uid (o : option Z) (t : Template) : Template :=
  mkTemplate (t_content t) o (t_ctr t) (t_picc t) (t_tt t) (t_mac t) (t_saw_mac_start t) (t_mac_start t)
    (t_in_enc t) (t_enc_start t) (t_enc_end t).
Definition with_ctr (o : option Z) (t : Template) : Template :=
  mkTemplate (t_content t) (t_uid t) o (t_picc t) (t_tt t) (t_mac t) (t_saw_mac_start t) (t_mac_start t)
    (t_in_enc t) (t_enc_start t) (t_enc_end t).
Definition with_picc (o : option (Z * PiccContent)) (t : Template) : Template :=
  mkTemplate (t_content t) (t_uid t) (t_ctr t) o (t_tt t) (t_mac t) (t_saw_mac_start t) (t_mac_start t)
    (t_in_enc t) (t_enc_start t) (t_enc_end t).
Definition with_tt (o : option Z) (t : Template) : Template :=
  mkTemplate (t_content t) (t_uid t) (t_ctr t) (t_picc t) o (t_mac t) (t_saw_mac_start t) (t_mac_start t)
    (t_in_enc t) (t_enc_start t) (t_enc_end t).
Definition with_mac (o : option Z) (t : Template) : Template :=
  mkTemplate (t_content t) (t_uid t) (t_ctr t) (t_picc t) (t_tt t) o (t_saw_mac_start t) (t_mac_start t)
    (t_in_enc t) (t_enc_start t) (t_enc_end t).
Definition open_mac (t : Template) : Template :=
  mkTemplate (t_content t) (t_uid t) (t_ctr t) (t_picc t) (t_tt t) (t_mac t) true
    (Some (current_file_offset_len (length (t_content t)))) (t_in_enc t) (t_enc_start t) (t_enc_end t).
Definition open_enc (t : Template) : Template :=
  mkTemplate (t_content t) (t_uid t) (t_ctr t) (t_picc t) (t_tt t) (t_mac t) (t_saw_mac_start t) (t_mac_start t)
    true (Some (current_file_offset_len (length (t_content t)))) (t_enc_end t).
Definition close_enc (t : Template) : Template :=
  mkTemplate (t_content t) (t_uid t) (t_ctr t) (t_picc t) (t_tt t) (t_mac t) (t_saw_mac_start t) (t_mac_start t)
    false (t_enc_start t) (Some (current_file_offset_len (length (t_content t)))).

(** [[[] at [i]. *)
Definition double_open (url : list Z) (i : nat) : bool :=
  bool_decide (url !! i = Some 91) && bool_decide (url !! S i = Some 91).

Definition note_placeholder (p : Placeholder) (offset : Z) (display : list Z) (t : Template) : TR Template :=
  match p with
  | Ph_Uid => o ←? set_once (t_uid t) offset display; Ok (with_uid o t)
  | Ph_Ctr => o ←? set_once (t_ctr t) offset display; Ok (with_ctr o t)
  | Ph_Picc c => o ←? set_once (t_picc t) (offset, c) (lit "{picc}"); Ok (with_picc o t)
  | Ph_Tt => o ←? set_once (t_tt t) offset display; Ok (with_tt o t)
  | Ph_Mac => o ←? set_once (t_mac t) offset display; Ok (with_mac o t)
  end.

Section template.
  Context (cap : nat) (url : list Z) (mode : CryptoMode).

Definition fill (t : Template) (count : nat) : TR Template :=
  c ←? cb_push_zeroes cap (t_content t) count; Ok (with_content c t).

Definition copy (t : Template) (start count : nat) : TR Template :=
  c ←? cb_extend cap (t_content t) url start count; Ok (with_content c t).

(** One pass of the loop inside [[...]]: everything is rendered as zeros.
    Bytes: 91 and 93 are the brackets, 92 the backslash, 123 the brace. *)
Definition enc_step (b : Z) (i : nat) (t : Template) : TR (nat * Template)%type :=
  if decide (b = 93) then Ok ((i + 1)%nat, close_enc t)
  else if double_open url i then Err (T_NestedRange (lit "[[ inside [...]"))
  else if decide (b = 91) then Err (T_NestedRange (lit "[...]"))
  else if decide (b = 92) then
    width ←? escaped_width url i;
    t ←? fill t width;
    Ok ((i + 1 + width)%nat, t)
  else if decide (b = 123) then
    r ←? parse_placeholder url i; let '(p, consumed, display) := r in
    match p with
    | Ph_Tt =>
        o ←? set_once (t_tt t) (current_file_offset_len (length (t_content t))) (lit "{tt}");
        t ←? fill (with_tt o t) (placeholder_fill_len p mode);
        Ok ((i + consumed)%nat, t)
    | _ => Err (T_PlaceholderInEncRange display)
    end
  else
    let width := utf8_char_width b in
    t ←? fill t width;
    Ok ((i + width)%nat, t).

(** One pass outside. *)
Definition plain_step (b : Z) (i : nat) (t : Template) : TR (nat * Template)%type :=
  if double_open url i then
    if t_saw_mac_start t then Err (T_DuplicateRange (lit "[[")) else Ok ((i + 2)%nat, open_mac t)
  else if decide (b = 91) then
    match t_enc_start t with
    | Some _ => Err (T_DuplicateRange (lit "[...]"))
    | None => Ok ((i + 1)%nat, open_enc t)
    end
  else if decide (b = 93) then Err (T_UnexpectedMarker (lit "]"))
  else if decide (b = 92) then
    width ←? escaped_width url i;
    t ←? copy t (i + 1) width;
    Ok ((i + 1 + width)%nat, t)
  else if decide (b = 123) then
    r ←? parse_placeholder url i; let '(p, consumed, display) := r in
    t ←? note_placeholder p (current_file_offset_len (length (t_content t))) display t;
    t ←? fill t (placeholder_fill_len p mode);
    Ok ((i + consumed)%nat, t)
  else
    let width := utf8_char_width b in
    t ←? copy t i width;
    Ok ((i + width)%nat, t).

Definition template_step (b : Z) (i : nat) (t : Template) : TR (nat * Template)%type :=
  if t_in_enc t then enc_step b i t else plain_step b i t.

(** Each pass moves forward, so that the length of the URL is enough fuel. *)
Fixpoint template_loop (fuel i : nat) (t : Template) : TR Template :=
  match url !! i with
  | None => Ok t
  | Some b =>
      match fuel with
      | O => Err T_Panic
      | S fuel => r ←? template_step b i t; let '(i', t') := r in template_loop fuel i' t'
      end
  end.

(** [ParsedTemplate]. *)
Record ParsedTemplate := mkParsed {
  p_content : list Z;
  p_uid : option Z;
  p_ctr : option Z;
  p_picc : option (Z * PiccContent);
  p_tt : option Z;
  p_mac : Z;
  p_mac_input : Z;
  p_enc : option (Z * Z) }.

Definition includes_uid (t : Template) : bool :=
  match t_picc t with Some (_, c) => picc_content_includes_uid c | None => bool_decide (is_Some (t_uid t)) end.
Definition includes_ctr (t : Template) : bool :=
  match t_picc t with Some (_, c) => picc_content_includes_ctr c | None => bool_decide (is_Some (t_ctr t)) end.

Definition enc_of_template (t : Template) : TR (option (Z * Z))%type :=
  match t_enc_start t, t_enc_end t with
  | None, None => Ok None
  | Some start, Some end_ =>
      let len := Z.max 0 (end_ - start) in
      if decide (len = 0 ∨ len mod 32 ≠ 0) then Err (T_InvalidEncRangeLength len)
      else if negb (includes_uid t) || negb (includes_ctr t) then Err T_EncFileDataRequiresUidAndCtr
      else Ok (Some (start, end_))
  | _, _ => Err (T_Unterminated (lit "[...]"))
  end.

(** What follows the loop. *)
Definition finish_template (t : Template) : TR ParsedTemplate :=
  if t_in_enc t then Err (T_Unterminated (lit "[...]"))
  else match t_mac t with
  | None => Err T_MissingMac
  | Some mac =>
      if bool_decide (is_Some (t_picc t)) && (bool_decide (is_Some (t_uid t)) || bool_decide (is_Some (t_ctr t)))
      then Err T_PiccWithPlainMirrors
      else if bool_decide (t_picc t = None ∧ t_uid t = None ∧ t_ctr t = None ∧ t_tt t = None)
      then Err T_NoMirror
      else
        enc ←? enc_of_template t;
        let mac_input := default URI_AT (t_mac_start t) in
        if decide (mac < mac_input) then Err T_MacStartAfterMac
        else Ok (mkParsed (t_content t) (t_uid t) (t_ctr t) (t_picc t) (t_tt t) mac mac_input enc)
  end.

Definition parse_template (start : nat) : TR ParsedTemplate :=
  t ←? template_loop (length url) start template_empty; finish_template t.
End template.

(** ** [build_sdm_ndef_plan_core] *)

(** [try_offset!]. *)
Definition try_offset (v : Z) (name : list Z) : TR Z :=
  match Offset_new v with Ok o => Ok o | Err _ => Err (T_FileSettings (name ++ lit " out of range")) end.

Definition try_offset_opt (v : option Z) (name : list Z) : TR (option Z) :=
  match v with Some v => o ←? try_offset v name; Ok (Some o) | None => Ok None end.

Definition build_picc (parsed : ParsedTemplate) (opts : SdmUrlOptions) : TR PiccData :=
  let features := mkReadCtrFeatures None (suo_ctr_ret opts) in
  match p_picc parsed with
  | Some (offset, content) =>
      o ←? try_offset offset (lit "picc_offset");
      Ok (PiccData_Encrypted (suo_picc_key opts) o
            (match content with
             | PC_Uid => EncContent_Uid
             | PC_Ctr => EncContent_RCtr features
             | PC_Both => EncContent_Both features
             end))
  | None =>
      uid ←? try_offset_opt (p_uid parsed) (lit "uid_offset");
      ctr ←? try_offset_opt (p_ctr parsed) (lit "ctr_offset");
      Ok (match uid, ctr with
          | Some uid, Some ctr => PiccData_Plain (PlainMirror_Both uid (mkReadCtrMirror ctr features))
          | Some uid, None => PiccData_Plain (PlainMirror_Uid uid)
          | None, Some ctr => PiccData_Plain (PlainMirror_RCtr (mkReadCtrMirror ctr features))
          | None, None => PiccData_None
          end)
  end.

Definition build_file_read_plan (parsed : ParsedTemplate) (opts : SdmUrlOptions) : TR (option FileRead) :=
  input ←? try_offset (p_mac_input parsed) (lit "mac_input");
  mac ←? try_offset (p_mac parsed) (lit "mac_offset");
  match p_enc parsed with
  | Some (enc_start, enc_end) =>
      start ←? try_offset enc_start (lit "enc_start");
      match EncLength_new (enc_end - enc_start) with
      | Ok len => Ok (Some (FileRead_MacAndEnc (suo_mac_key opts) (mkMacWindow input mac) (mkEncFileData start len)))
      | Err _ => Err (T_FileSettings (lit "enc_length invalid"))
      end
  | None => Ok (Some (FileRead_MacOnly (suo_mac_key opts) (mkMacWindow input mac)))
  end.

Definition map_settings_error (e : FileSettingsError) : TemplateCoreError :=
  match e with
  | MacInputAfterMac => T_FileSettings (lit "mac_input > mac")
  | EncOutsideMacWindow => T_FileSettings (lit "enc outside mac window")
  | EncRequiresBothMirrors => T_EncFileDataRequiresUidAndCtr
  | _ => T_FileSettings (lit "sdm_settings")
  end.

(** [ConstSdmNdefPlan<N>]. *)
Record SdmNdefPlan := mkPlan {
  pl_ndef_bytes : list Z;
  pl_sdm_settings : Sdm;
  pl_prefix_len : nat;
  pl_prefix_code : Z }.

Fixpoint cb_push_all (cap : nat) (buf src : list Z) : TR (list Z) :=
  match src with
  | [] => Ok buf
  | b :: src => buf ←? cb_push cap buf b; cb_push_all cap buf src
  end.

(** The NDEF file: length, record header, prefix code and text. *)
Definition build_ndef (cap : nat) (content : list Z) (prefix_code : Z) : TR (list Z) :=
  let payload_len := 1 + Z.of_nat (length content) in
  let ndef_msg_len := 4 + payload_len in
  buf ←? cb_push_all cap []
    [u8 (Z.shiftr (u16 ndef_msg_len) 8); u8 (u16 ndef_msg_len); 0xD1; 0x01; u8 payload_len; 0x55; prefix_code];
  cb_extend cap buf content 0 (length content).

Definition build_sdm_ndef_plan_core (cap : nat) (url : list Z) (mode : CryptoMode) (opts : SdmUrlOptions) :
    TR SdmNdefPlan :=
  let '(prefix_code, abbrev_start) := detect_uri_prefix url in
  parsed ←? parse_template cap url mode abbrev_start;
  let payload_len := 1 + Z.of_nat (length (p_content parsed)) in
  let total_len := 2 + (4 + payload_len) in
  if decide (255 < payload_len) then Err (T_FileTooLong (2 + 4 + payload_len) (suo_max_file_size opts))
  else if decide (suo_max_file_size opts < total_len) then Err (T_FileTooLong total_len (suo_max_file_size opts))
  else
    ndef_bytes ←? build_ndef cap (p_content parsed) prefix_code;
    picc_data ←? build_picc parsed opts;
    file_read ←? build_file_read_plan parsed opts;
    tamper_status ←? try_offset_opt (p_tt parsed) (lit "tt_offset");
    match Sdm_try_new picc_data file_read tamper_status mode with
    | Ok sdm => Ok (mkPlan ndef_bytes sdm abbrev_start prefix_code)
    | Err e => Err (map_settings_error e)
    end.

(** ** [sdm_url_config]

    The error type of the source has no counterpart of [T_Panic]. *)
Definition map_runtime_error (url : list Z) (e : TemplateCoreError) : option SdmUrlError :=
  match e with
  | T_MissingMac => Some MissingMac
  | T_PiccWithPlainMirrors => Some PiccWithPlainMirrors
  | T_NoMirror => Some NoMirror
  | T_DuplicatePlaceholder s => Some (DuplicatePlaceholder s)
  | T_EncFileDataRequiresUidAndCtr => Some EncFileDataRequiresUidAndCtr
  | T_InvalidEncRangeLength n => Some (InvalidEncRangeLength n)
  | T_InvalidPlaceholder start end_ => Some (InvalidPlaceholder (take (end_ - start) (drop start url)))
  | T_Unterminated s => Some (Unterminated s)
  | T_UnexpectedMarker s => Some (UnexpectedMarker s)
  | T_DuplicateRange s => Some (DuplicateRange s)
  | T_PlaceholderInEncRange s => Some (PlaceholderInEncRange s)
  | T_NestedRange s => Some (NestedRange s)
  | T_MacStartAfterMac => Some MacStartAfterMac
  | T_OutputBufferTooSmall needed capacity => Some (FileTooLong (Z.of_nat needed) (u16 (Z.of_nat capacity)))
  | T_FileTooLong got max => Some (FileTooLong got max)
  | T_FileSettings _ => Some (SdmUrl_FileSettings MacInputAfterMac)
  | T_Panic => None
  end.

(** [None] is a panic. *)
Definition sdm_url_plan (url : list Z) (mode : CryptoMode) (opts : SdmUrlOptions) :
    option (result SdmNdefPlan SdmUrlError) :=
  match build_sdm_ndef_plan_core DEFAULT_CONST_PLAN_CAPACITY url mode opts with
  | Ok plan => Some (Ok plan)
  | Err e => Err <$> map_runtime_error url e
  end.

Definition plan_config (p : SdmNdefPlan) : SdmUrlConfig := mkSdmUrlConfig (pl_ndef_bytes p) (pl_sdm_settings p).

(** What [burn] calls.  The default is never used on a [&str]. *)
Definition sdm_url_config (url : list Z) (mode : CryptoMode) (opts : SdmUrlOptions) :
    result SdmUrlConfig SdmUrlError :=
  default (Err MissingMac) ((λ r, match r with Ok p => Ok (plan_config p) | Err e => Err e end) <$> sdm_url_plan url mode opts).

Example plan_example :
  ok (sdm_url_config (standardize_url_template (lit "https://a.b/?p={picc}&c={mac}")) Aes SdmUrlOptions_new) =
  Some (mkSdmUrlConfig
    ([0; 63; 0xD1; 1; 59; 0x55; 4] ++ lit "a.b/?p=" ++ replicate 32 48 ++ lit "&c=" ++ replicate 16 48)
    (mkSdm (PiccData_Encrypted Key2 14 (EncContent_Both (mkReadCtrFeatures None CtrRet_NoAccess)))
           (Some (FileRead_MacOnly Key2 (mkMacWindow 49 49))) None)).
Proof. vm_compute. reflexivity. Qed.

Example plan_errors :
  sdm_url_config (lit "https://a.b/?c={mac}") Aes SdmUrlOptions_new = Err NoMirror ∧
  sdm_url_config (lit "https://a.b/?p={picc}") Aes SdmUrlOptions_new = Err MissingMac ∧
  sdm_url_config (lit "{uid}{ctr}[{mac}]{mac}") Aes SdmUrlOptions_new = Err (PlaceholderInEncRange (lit "{mac}")) ∧
  sdm_url_config (lit "{uid}{pic}{mac}") Aes SdmUrlOptions_new = Err (InvalidPlaceholder (lit "{pic}")) ∧
  sdm_url_config (lit "{uid}{mac}[[") Aes SdmUrlOptions_new = Err MacStartAfterMac.
Proof. vm_compute. done. Qed.

(** Every rejection by the settings is reported as a misplaced MAC: here encrypted
    data behind the MAC. *)
Example enc_after_mac_misreported :
  let url := lit "{uid}{ctr}{mac}[" ++ replicate 32 120 ++ lit "]" in
  ok (Sdm_try_new (PiccData_Plain (PlainMirror_Both 7 (mkReadCtrMirror 21 (mkReadCtrFeatures None CtrRet_NoAccess))))
        (Some (FileRead_MacAndEnc Key2 (mkMacWindow 7 27) (mkEncFileData 43 32))) None Aes) = None ∧
  build_sdm_ndef_plan_core 256 url Aes SdmUrlOptions_new = Err (T_FileSettings (lit "enc outside mac window")) ∧
  sdm_url_config url Aes SdmUrlOptions_new = Err (SdmUrl_FileSettings MacInputAfterMac).
Proof. vm_compute. done. Qed.

(** ** Buffers *)

Lemma cb_push_ok cap buf b r : cb_push cap buf b = Ok r → r = buf ++ [b] ∧ length buf ≠ cap.
Proof. unfold cb_push. case_decide; [done|]. intros [= <-]. done. Qed.

Lemma cb_push_zeroes_ok cap buf n r :
  (length buf ≤ cap)%nat → cb_push_zeroes cap buf n = Ok r →
  r = buf ++ replicate n 48 ∧ (length r ≤ cap)%nat.
Proof.
  revert buf. induction n as [|n IH]; intros buf Hl H; simpl in H.
  - injection H as <-. by rewrite app_nil_r.
  - apply and_then_ok in H as (b & Hb & H). apply cb_push_ok in Hb as [-> Hne].
    apply IH in H as [-> Hr]; [|rewrite length_app; simpl; lia].
    by rewrite <-(assoc_L (++)) in *.
Qed.

Lemma cb_extend_ok cap buf src start n r :
  (length buf ≤ cap)%nat → cb_extend cap buf src start n = Ok r →
  ∃ l, r = buf ++ l ∧ length l = n ∧ l = take n (drop start src) ∧ (length r ≤ cap)%nat.
Proof.
  revert buf start. induction n as [|n IH]; intros buf start Hl H; simpl in H.
  - injection H as <-. exists []. by rewrite app_nil_r.
  - destruct (src !! start) as [b|] eqn:Hs; [|done].
    apply and_then_ok in H as (c & Hc & H). apply cb_push_ok in Hc as [-> Hne].
    apply IH in H as (l & -> & Hn & Hl' & Hr); [|rewrite length_app; simpl; lia].
    exists (b :: l). rewrite <-(assoc_L (++)) in *. split; [done|]. split; [simpl; lia|]. split; [|done].
    rewrite (drop_S _ _ _ Hs). simpl. by f_equal.
Qed.

Lemma cb_push_all_ok cap buf src r : cb_push_all cap buf src = Ok r → r = buf ++ src.
Proof.
  revert buf. induction src as [|b src IH]; intros buf H; simpl in H.
  - injection H as <-. by rewrite app_nil_r.
  - apply and_then_ok in H as (c & Hc & H). apply cb_push_ok in Hc as [-> _].
    apply IH in H as ->. by rewrite <-(assoc_L (++)).
Qed.

Lemma cb_push_all_length cap buf src r :
  (length buf ≤ cap)%nat → cb_push_all cap buf src = Ok r → (length r ≤ cap)%nat.
Proof.
  revert buf. induction src as [|b src IH]; intros buf Hl H; simpl in H.
  - by injection H as <-.
  - apply and_then_ok in H as (c & Hc & H). apply cb_push_ok in Hc as [-> Hne].
    eapply IH; [|exact H]. rewrite length_app. simpl. lia.
Qed.

Lemma ndef_header content code :
  1 + Z.of_nat (length content) ≤ 255 →
  ndef_file (uri_message true code content) [] =
  [u8 (Z.shiftr (u16 (4 + (1 + Z.of_nat (length content)))) 8); u8 (u16 (4 + (1 + Z.of_nat (length content))));
   0xD1; 0x01; u8 (1 + Z.of_nat (length content)); 0x55; code] ++ content.
Proof.
  intros Hl. unfold ndef_file, uri_message.
  assert (u16 (4 + (1 + Z.of_nat (length content))) = 4 + (1 + Z.of_nat (length content))) as ->
    by (apply Z.mod_small; lia).
  rewrite app_nil_r, !length_app. unfold be_bytes. rewrite length_reverse, le_bytes_length.
  replace (Z.of_nat (length [0xD1; 1] + 1 + (length [0x55; code] + length content)))
    with (4 + (1 + Z.of_nat (length content))) by (cbn [length]; lia).
  cbn [le_bytes reverse rev_append]. done.
Qed.

Lemma build_ndef_ok cap content code r :
  1 + Z.of_nat (length content) ≤ 255 → build_ndef cap content code = Ok r →
  r = ndef_file (uri_message true code content) [] ∧ (length r ≤ cap)%nat.
Proof.
  intros Hl H. unfold build_ndef in H. apply and_then_ok in H as (h & Hh & H).
  pose proof (cb_push_all_length cap [] _ h ltac:(simpl; lia) Hh) as Hc.
  apply cb_push_all_ok in Hh. apply cb_extend_ok in H as (l & -> & _ & -> & Hr); [|done].
  split; [|done]. rewrite drop_0, firstn_all, ndef_header by done. by rewrite Hh.
Qed.

(** ** Prefixes *)

Lemma bytes_eq_loop_spec h start needle :
  bytes_eq_loop h start needle = true ↔ take (length needle) (drop start h) = needle.
Proof.
  revert start. induction needle as [|c needle IH]; intros start; simpl; [by rewrite take_0|].
  rewrite andb_true_iff, bool_decide_eq_true, IH. split.
  - intros [Hs Ht]. rewrite (drop_S _ _ _ Hs). simpl. by rewrite Ht.
  - intros H. destruct (h !! start) as [b|] eqn:Hs.
    + rewrite (drop_S _ _ _ Hs) in H. simpl in H. by injection H as -> ->.
    + apply lookup_ge_None in Hs. rewrite drop_ge in H by done. done.
Qed.

Lemma bytes_eq_at_spec h start needle : (start ≤ length h)%nat →
  bytes_eq_at h start needle = true ↔ take (length needle) (drop start h) = needle.
Proof.
  intros Hs. unfold bytes_eq_at. case_decide as Hl; [|apply bytes_eq_loop_spec]. split; [done|]. intros H.
  apply (f_equal length) in H. rewrite length_take, length_drop in H. lia.
Qed.

(** The two tables of the repository agree: this crate writes the code that the
    other one reads. *)
Lemma prefix_tables_agree code prefix :
  (code, prefix) ∈ NDEF_URI_PREFIXES → URI_PREFIXES !! Z.to_nat code = Some prefix.
Proof. intros H. unfold NDEF_URI_PREFIXES in H. repeat (apply elem_of_cons in H as [[= -> ->]|H]; [done|]). by apply elem_of_nil in H. Qed.

Lemma first_prefix_spec table url code n :
  first_prefix table url = (code, n) →
  (code = 0 ∧ n = 0%nat) ∨ ∃ prefix, (code, prefix) ∈ table ∧ n = length prefix ∧ take n url = prefix.
Proof.
  induction table as [|[c p] table IH]; simpl; [intros [= <- <-]; by left|].
  destruct (bytes_eq_at url 0 p) eqn:E.
  - intros [= <- <-]. right. exists p. rewrite bytes_eq_at_spec, drop_0 in E by lia. set_solver.
  - intros H. destruct (IH H) as [?|(q & ? & ? & ?)]; [by left|]. right. exists q. set_solver.
Qed.

Lemma detect_uri_prefix_spec url code n :
  detect_uri_prefix url = (code, n) → URI_PREFIXES !! Z.to_nat code = Some (take n url) ∧ 0 ≤ code < 36.
Proof.
  intros H. apply first_prefix_spec in H as [[-> ->]|(p & Hp & -> & Ht)]; [done|]. rewrite Ht.
  split; [by apply prefix_tables_agree|].
  assert (Forall (λ cp : Z * list Z, 0 ≤ cp.1 < 36) NDEF_URI_PREFIXES) as Hf by (vm_compute; repeat constructor; done).
  rewrite Forall_forall in Hf. by apply (Hf _ Hp).
Qed.

(** ** The invariant of the loop *)

(** A placeholder of [n] bytes at file offset [o] of a file with text [content]:
    it lies in the text and is filled with the digit zero. *)
Definition placed (content : list Z) (o n : Z) : Prop :=
  ∃ a b, content = a ++ replicate (Z.to_nat n) 48 ++ b ∧ o = URI_AT + Z.of_nat (length a) ∧ 0 ≤ n.

Lemma placed_app content more o n : placed content o n → placed (content ++ more) o n.
Proof. intros (a & b & -> & -> & Hn). exists a, (b ++ more). by rewrite <-!(assoc_L (++)). Qed.

Lemma placed_here content n :
  placed (content ++ replicate n 48) (current_file_offset_len (length content)) (Z.of_nat n).
Proof.
  exists content, []. rewrite app_nil_r, Nat2Z.id. split; [done|]. split; [done|]. lia.
Qed.

Lemma placed_bounds content o n : placed content o n → URI_AT ≤ o ∧ o + n ≤ URI_AT + Z.of_nat (length content).
Proof. intros (a & b & -> & -> & Hn). rewrite !length_app, length_replicate. lia. Qed.

(** Where encrypted data is: nowhere yet, open up to the end of the text, or
    closed. *)
Definition enc_inv (t : Template) : Prop :=
  match t_enc_start t, t_enc_end t with
  | None, None => t_in_enc t = false
  | Some s, None => t_in_enc t = true ∧ placed (t_content t) s (URI_AT + Z.of_nat (length (t_content t)) - s)
  | Some s, Some e => t_in_enc t = false ∧ placed (t_content t) s (e - s)
  | None, Some _ => False
  end.

Record template_inv (cap : nat) (mode : CryptoMode) (t : Template) : Prop := {
  ti_length : (length (t_content t) ≤ cap)%nat;
  ti_uid : ∀ o, t_uid t = Some o → placed (t_content t) o UID_PLACEHOLDER_LEN;
  ti_ctr : ∀ o, t_ctr t = Some o → placed (t_content t) o RCTR_PLACEHOLDER_LEN;
  ti_picc : ∀ o c, t_picc t = Some (o, c) → placed (t_content t) o (picc_blob_ascii_len mode);
  ti_tt : ∀ o, t_tt t = Some o → placed (t_content t) o TT_PLACEHOLDER_LEN;
  ti_mac : ∀ o, t_mac t = Some o → placed (t_content t) o MAC_PLACEHOLDER_LEN;
  ti_start : ∀ o, t_mac_start t = Some o → URI_AT ≤ o ≤ URI_AT + Z.of_nat (length (t_content t));
  ti_enc : enc_inv t }.

Lemma template_empty_inv cap mode : template_inv cap mode template_empty.
Proof. constructor; simpl; try done. lia. Qed.

(** Text is only appended; inside encrypted data, only zeros. *)
Lemma template_inv_app cap mode t l :
  template_inv cap mode t → (length (t_content t ++ l) ≤ cap)%nat →
  (t_in_enc t = true → l = replicate (length l) 48) →
  template_inv cap mode (with_content (t_content t ++ l) t).
Proof.
  intros [H1 H2 H3 H4 H5 H6 H7 H8] Hl Hz. constructor; simpl; try (intros; by eapply placed_app; eauto); [done| |].
  { intros o Ho. specialize (H7 o Ho). rewrite length_app. lia. }
  unfold enc_inv in *. simpl. destruct (t_enc_start t) as [s|], (t_enc_end t) as [e|]; try done.
  - destruct H8 as [? H8]. split; [done|]. by apply placed_app.
  - destruct H8 as [Hin (a & b & Hc & -> & Hn)]. split; [done|].
    assert (b = []) as ->.
    { apply (f_equal length) in Hc as Hlen. rewrite !length_app, length_replicate in Hlen.
      apply nil_length_inv. lia. }
    rewrite app_nil_r in Hc. exists a, []. rewrite app_nil_r, length_app. split; [|split; [done|lia]].
    rewrite Hc at 1. rewrite (Hz Hin), <-(assoc_L (++)). f_equal.
    rewrite <-replicate_add. f_equal. rewrite length_replicate. lia.
Qed.

Lemma fill_inv cap mode t n t' :
  template_inv cap mode t → fill cap t n = Ok t' →
  t' = with_content (t_content t ++ replicate n 48) t ∧ template_inv cap mode t'.
Proof.
  intros Ht H. unfold fill in H. apply and_then_ok in H as (c & Hc & [= <-]).
  apply cb_push_zeroes_ok in Hc as [-> Hl]; [|apply Ht]. split; [done|].
  apply template_inv_app; [done..|]. intros _. by rewrite length_replicate.
Qed.

Lemma copy_inv cap mode url t start n t' :
  template_inv cap mode t → t_in_enc t = false → copy cap url t start n = Ok t' →
  template_inv cap mode t'.
Proof.
  intros Ht He H. unfold copy in H. apply and_then_ok in H as (c & Hc & [= <-]).
  apply cb_extend_ok in Hc as (l & -> & _ & _ & Hl); [|apply Ht].
  apply template_inv_app; [done..|]. by rewrite He.
Qed.

Lemma open_mac_inv cap mode t : template_inv cap mode t → template_inv cap mode (open_mac t).
Proof.
  intros [H1 H2 H3 H4 H5 H6 H7 H8]. constructor; simpl; try done.
  intros o [= <-]. unfold current_file_offset_len. lia.
Qed.

Lemma open_enc_inv cap mode t :
  template_inv cap mode t → t_in_enc t = false → t_enc_start t = None → template_inv cap mode (open_enc t).
Proof.
  intros [H1 H2 H3 H4 H5 H6 H7 H8] Hi Hs. constructor; simpl; try done.
  unfold enc_inv in *. rewrite Hs in H8. simpl. destruct (t_enc_end t); [done|]. split; [done|].
  exists (t_content t), []. unfold current_file_offset_len. rewrite app_nil_r.
  replace (URI_AT + Z.of_nat (length (t_content t)) - (URI_AT + Z.of_nat (length (t_content t)))) with 0 by lia.
  simpl. by rewrite app_nil_r.
Qed.

Lemma close_enc_inv cap mode t :
  template_inv cap mode t → t_in_enc t = true → template_inv cap mode (close_enc t).
Proof.
  intros [H1 H2 H3 H4 H5 H6 H7 H8] Hi. constructor; simpl; try done.
  unfold enc_inv in *. simpl. destruct (t_enc_start t) as [s|], (t_enc_end t) as [e|];
    try congruence; destruct H8; [congruence|done].
Qed.

Lemma set_once_ok {T} (slot : option T) v name r : set_once slot v name = Ok r → slot = None ∧ r = Some v.
Proof. unfold set_once. destruct slot; [done|]. by intros [= <-]. Qed.

(** Noting a placeholder and filling it in one go. *)
Lemma note_fill_inv cap mode p display t t1 t' :
  template_inv cap mode t →
  note_placeholder p (current_file_offset_len (length (t_content t))) display t = Ok t1 →
  fill cap t1 (placeholder_fill_len p mode) = Ok t' → template_inv cap mode t'.
Proof.
  intros Ht Hn Hf. unfold fill in Hf. apply and_then_ok in Hf as (c & Hc & [= <-]).
  assert (t_content t1 = t_content t) as E.
  { destruct p; simpl in Hn; apply and_then_ok in Hn as (o & _ & [= <-]); done. }
  rewrite E in Hc. apply cb_push_zeroes_ok in Hc as [-> Hl]; [|apply Ht].
  assert (template_inv cap mode (with_content (t_content t ++ replicate (placeholder_fill_len p mode) 48) t)) as Ht'.
  { apply template_inv_app; [done..|]. intros _. by rewrite length_replicate. }
  pose proof (placed_here (t_content t) (placeholder_fill_len p mode)) as Hp.
  destruct Ht' as [H1 H2 H3 H4 H5 H6 H7 H8].
  destruct p; simpl in Hn; apply and_then_ok in Hn as (o & Ho & [= <-]);
    apply set_once_ok in Ho as [_ ->]; constructor; simpl in *; try done;
    try (intros ? [= <-]; exact Hp).
  intros ? ? [= <- <-]. by destruct mode.
Qed.

Lemma template_step_inv cap url mode b i t i' t' :
  template_inv cap mode t → template_step cap url mode b i t = Ok (i', t') → template_inv cap mode t'.
Proof.
  intros Ht H. unfold template_step in H. destruct (t_in_enc t) eqn:Hin.
  - unfold enc_step in H. repeat case_decide; [by injection H as <- <-; apply close_enc_inv|..];
      destruct (double_open url i); try done.
    + apply and_then_ok in H as (w & _ & H). apply and_then_ok in H as (t1 & Hf & [= <- <-]).
      by eapply fill_inv.
    + apply and_then_ok in H as ([[p n] d] & _ & H). destruct p; try done.
      apply and_then_ok in H as (o & Ho & H). apply and_then_ok in H as (t1 & Hf & [= <- <-]).
      eapply (note_fill_inv _ _ Ph_Tt (lit "{tt}") t); [done| |exact Hf].
      simpl. by rewrite Ho.
    + apply and_then_ok in H as (t1 & Hf & [= <- <-]). by eapply fill_inv.
  - unfold plain_step in H. destruct (double_open url i).
    { destruct (t_saw_mac_start t); [done|]. injection H as <- <-. by apply open_mac_inv. }
    repeat case_decide; try done.
    + destruct (t_enc_start t) eqn:Hs; [done|]. injection H as <- <-. by apply open_enc_inv.
    + apply and_then_ok in H as (w & _ & H). apply and_then_ok in H as (t1 & Hf & [= <- <-]).
      by eapply copy_inv.
    + apply and_then_ok in H as ([[p n] d] & _ & H). apply and_then_ok in H as (t1 & Hn & H).
      apply and_then_ok in H as (t2 & Hf & [= <- <-]). by eapply note_fill_inv.
    + apply and_then_ok in H as (t1 & Hf & [= <- <-]). by eapply copy_inv.
Qed.

Lemma template_loop_inv cap url mode fuel i t t' :
  template_inv cap mode t → template_loop cap url mode fuel i t = Ok t' → template_inv cap mode t'.
Proof.
  revert i t. induction fuel as [|fuel IH]; intros i t Ht H; simpl in H; destruct (url !! i) as [b|]; try done;
    try by injection H as <-.
  apply and_then_ok in H as ([i1 t1] & Hs & H). eapply IH; [|exact H]. by eapply template_step_inv.
Qed.

(** ** Soundness of a plan *)

Record parsed_inv (cap : nat) (mode : CryptoMode) (p : ParsedTemplate) : Prop := {
  pi_length : (length (p_content p) ≤ cap)%nat;
  pi_uid : ∀ o, p_uid p = Some o → placed (p_content p) o UID_PLACEHOLDER_LEN;
  pi_ctr : ∀ o, p_ctr p = Some o → placed (p_content p) o RCTR_PLACEHOLDER_LEN;
  pi_picc : ∀ o c, p_picc p = Some (o, c) → placed (p_content p) o (picc_blob_ascii_len mode);
  pi_tt : ∀ o, p_tt p = Some o → placed (p_content p) o TT_PLACEHOLDER_LEN;
  pi_mac : placed (p_content p) (p_mac p) MAC_PLACEHOLDER_LEN;
  pi_input : URI_AT ≤ p_mac_input p ≤ p_mac p;
  pi_enc : ∀ s e, p_enc p = Some (s, e) → placed (p_content p) s (e - s) }.

Lemma finish_template_inv cap mode t p :
  template_inv cap mode t → finish_template t = Ok p → parsed_inv cap mode p.
Proof.
  intros [H1 H2 H3 H4 H5 H6 H7 H8] H. unfold finish_template in H.
  destruct (t_in_enc t) eqn:Hin; [done|]. destruct (t_mac t) as [mac|] eqn:Hmac; [|done].
  destruct (_ && _); [done|]. destruct (bool_decide _); [done|].
  apply and_then_ok in H as (enc & He & H). case_decide as Hd; [done|]. injection H as <-.
  constructor; simpl; try done; [by apply H6|..].
  - split; [|lia]. destruct (t_mac_start t) as [o|]; simpl; [by apply H7|done].
  - intros s e ->. unfold enc_of_template in He. unfold enc_inv in H8.
    destruct (t_enc_start t) as [s'|], (t_enc_end t) as [e'|]; try done.
    case_decide; [done|]. destruct (_ || _); [done|]. injection He as <- <-. apply H8.
Qed.

Lemma try_offset_ok v name o : try_offset v name = Ok o → o = v ∧ v < 2 ^ 24.
Proof. unfold try_offset, Offset_new. case_decide; [done|]. intros [= <-]. split; [done|lia]. Qed.

Lemma try_offset_opt_ok v name o :
  try_offset_opt v name = Ok o → o = v ∧ ∀ z, v = Some z → z < 2 ^ 24.
Proof.
  destruct v as [z|]; simpl; [|by intros [= <-]]. intros H. apply and_then_ok in H as (z' & Hz & [= <-]).
  apply try_offset_ok in Hz as [-> ?]. split; [done|]. by intros ? [= <-].
Qed.

Lemma placed_offset content o n : placed content o n → o < 2 ^ 24 → is_offset o.
Proof. intros H ?. apply placed_bounds in H. unfold is_offset, URI_AT in *. lia. Qed.

(** Every placeholder of the settings is in the text. *)
Definition all_placed (content : list Z) (l : list Range) : Prop :=
  Forall (λ r : Range, ∀ o n, r = Some (o, n) → placed content o n) l.

Ltac all_ranges :=
  unfold all_placed; listed; split_and!; try done; intros ? ? [= <- <-]; eauto.

Lemma build_picc_ok cap mode p opts d :
  parsed_inv cap mode p → build_picc p opts = Ok d →
  picc_wf d ∧ all_placed (p_content p) [blob_range d mode; uid_range d; rctr_range d] ∧
  ∀ k o c, d = PiccData_Encrypted k o c → k = suo_picc_key opts.
Proof.
  intros [] H. unfold build_picc in H.
  assert (rctr_wf (mkReadCtrFeatures None (suo_ctr_ret opts))) as Hw by done.
  destruct (p_picc p) as [[o c]|].
  - apply and_then_ok in H as (o' & Ho & [= <-]). apply try_offset_ok in Ho as [-> Ho].
    pose proof (pi_picc0 o c eq_refl) as Hp. pose proof (placed_offset _ _ _ Hp Ho).
    split; [destruct c; (split; [done|intros f Hf; by simplify_eq/=])|].
    split; [|by intros ? ? ? [= <-]]. all_ranges.
  - apply and_then_ok in H as (u & Hu & H). apply and_then_ok in H as (c & Hc & [= <-]).
    apply try_offset_opt_ok in Hu as [-> Hu], Hc as [-> Hc].
    assert (∀ o, p_uid p = Some o → is_offset o) as Hu' by eauto using placed_offset.
    assert (∀ o, p_ctr p = Some o → is_offset o) as Hc' by eauto using placed_offset.
    destruct (p_uid p) as [u|], (p_ctr p) as [c|]; (split; [split; [simpl; eauto|intros f Hf; by simplify_eq/=]|]);
      (split; [|done]); all_ranges.
Qed.

Lemma build_file_read_plan_ok cap mode p opts fr :
  parsed_inv cap mode p → build_file_read_plan p opts = Ok fr →
  ∃ f, fr = Some f ∧ file_read_wf f ∧ file_read_key f = suo_mac_key opts ∧
    all_placed (p_content p) [mac_range fr; enc_range fr].
Proof.
  intros [] H. unfold build_file_read_plan in H.
  apply and_then_ok in H as (i & Hi & H). apply and_then_ok in H as (m & Hm & H).
  apply try_offset_ok in Hi as [-> Hi], Hm as [-> Hm].
  assert (is_offset (p_mac_input p) ∧ is_offset (p_mac p)) as [Wi Wm].
  { pose proof (placed_offset _ _ _ pi_mac0 Hm). unfold is_offset, URI_AT in *. lia. }
  destruct (p_enc p) as [[s e]|].
  - apply and_then_ok in H as (s' & Hs & H). apply try_offset_ok in Hs as [-> Hs].
    pose proof (pi_enc0 s e eq_refl) as He. destruct (EncLength_new (e - s)) as [l|] eqn:El; [|done]. injection H as <-.
    unfold EncLength_new in El. case_decide as Hd; [done|]. injection El as <-.
    eexists. split; [done|]. split; [|split; [done|]].
    + split; [done|]. split; [done|]. intros x [= <-]. split; [by eapply placed_offset|].
      destruct He as (? & ? & _ & _ & ?). unfold is_enc_length, is_offset. simpl. lia.
    + all_ranges.
  - injection H as <-. eexists. split; [done|]. split; [done|]. split; [done|].
    all_ranges.
Qed.

(** What a plan promises. *)
Record plan_sound (url : list Z) (mode : CryptoMode) (opts : SdmUrlOptions) (cfg : SdmUrlConfig) : Prop := {
  ps_file : ∃ text, 1 + Z.of_nat (length text) ≤ 255 ∧
    ndef_bytes cfg = ndef_file (uri_message true (detect_uri_prefix url).1 text) [] ∧
    all_placed text ([blob_range (sdm_picc_data (sdm_settings cfg)) mode;
                      enc_range (sdm_file_read (sdm_settings cfg))] ++ placeholders (sdm_settings cfg));
  ps_prefix : URI_PREFIXES !! Z.to_nat (detect_uri_prefix url).1 = Some (take (detect_uri_prefix url).2 url);
  ps_size : Z.of_nat (length (ndef_bytes cfg)) ≤ Z.min 256 (suo_max_file_size opts);
  ps_settings : sdm_wf (sdm_settings cfg);
  ps_blob : Forall (apart (blob_range (sdm_picc_data (sdm_settings cfg)) mode))
    ([enc_range (sdm_file_read (sdm_settings cfg))] ++ drop 2 (placeholders (sdm_settings cfg)));
  ps_mac_key : file_read_key <$> sdm_file_read (sdm_settings cfg) = Some (suo_mac_key opts);
  ps_picc_key : ∀ k o c, sdm_picc_data (sdm_settings cfg) = PiccData_Encrypted k o c → k = suo_picc_key opts }.

Lemma sdm_url_config_ok url mode opts cfg :
  sdm_url_config url mode opts = Ok cfg ↔
  ∃ p, build_sdm_ndef_plan_core DEFAULT_CONST_PLAN_CAPACITY url mode opts = Ok p ∧ cfg = plan_config p.
Proof.
  unfold sdm_url_config, sdm_url_plan. destruct (build_sdm_ndef_plan_core _ _ _ _) as [p|e]; simpl.
  - split; [intros [= <-]; eauto|by intros (? & [= <-] & ->)].
  - split; [|by intros (? & ? & _)]. by destruct (map_runtime_error url e).
Qed.

(** C28. A plan is sound, whatever the template. The file is one short URI record,
    its length fields right, its prefix code the one whose table entry (in the
    reader of this repository) is the prefix taken off the URL, and no larger than
    256 bytes and the limit asked for; the settings satisfy the invariant of their
    type and use the keys asked for; every placeholder they name, the encrypted
    identity and the data to encrypt included, lies in the text of the record and
    was filled with zeros; and they are pairwise apart, except that a tamper
    status may meet the data to encrypt if it ends before the ciphertext half
    ([tamper_inside_enc] is such a plan). *)
Theorem sdm_url_config_sound (url : list Z) (mode : CryptoMode) (opts : SdmUrlOptions) (cfg : SdmUrlConfig) :
  sdm_url_config url mode opts = Ok cfg → plan_sound url mode opts cfg.
Proof.
  rewrite sdm_url_config_ok. intros (p & H & ->). unfold build_sdm_ndef_plan_core in H.
  destruct (detect_uri_prefix url) as [code n] eqn:Hd. apply and_then_ok in H as (parsed & Hp & H).
  destruct (decide _) as [|H255] in H; [done|]. destruct (decide _) as [|Hmax] in H; [done|].
  apply and_then_ok in H as (ndef & Hn & H). apply and_then_ok in H as (picc & Hpicc & H).
  apply and_then_ok in H as (fr & Hfr & H). apply and_then_ok in H as (tt' & Htt & H).
  destruct (Sdm_try_new _ _ _ _) as [s|] eqn:Hs; [|done]. injection H as <-.
  apply and_then_ok in Hp as (t & Ht & Hp). apply template_loop_inv in Ht; [|apply template_empty_inv].
  eapply finish_template_inv in Hp; [|done].
  apply build_ndef_ok in Hn as [-> Hcap]; [|lia].
  destruct (build_picc_ok _ _ _ _ _ Hp Hpicc) as (Wp & Pp & Kp).
  destruct (build_file_read_plan_ok _ _ _ _ _ Hp Hfr) as (f & -> & Wf & Kf & Pf).
  apply try_offset_opt_ok in Htt as [-> Htt].
  apply Sdm_try_new_ok in Hs as (-> & Hc & Ha); [|apply file_read_wf_len; by intros ? [= <-]].
  pose proof (detect_uri_prefix_spec _ _ _ Hd) as [Hpre _]. unfold all_placed in *. listed. destruct_and!.
  constructor; simpl; rewrite ?Hd; simpl; try done.
  - exists (p_content parsed). split; [lia|]. split; [done|]. unfold all_placed, placeholders. simpl. listed.
    split_and!; try done. intros o k Hr. apply fmap_Some in Hr as (z & Hz & [= -> ->]).
    by apply (pi_tt _ _ _ Hp).
  - rewrite ndef_header, length_app in * by lia. simpl in *. unfold DEFAULT_CONST_PLAN_CAPACITY in Hcap. lia.
  - constructor; simpl; try done; [by intros ? [= <-]|].
    intros z Hz. eapply placed_offset; [by apply (pi_tt _ _ _ Hp)|by apply Htt].
  - unfold placeholders. simpl. listed. by split_and!.
  - exact (f_equal Some Kf).
Qed.

Lemma sdm_url_config_sound_witness :
  let url := lit "https://a.b/?u={uid}&n={ctr}&e=[" ++ replicate 32 120 ++ lit "]&m={mac}&t={tt}" in
  let opts := SdmUrlOptions_new in
  ∃ cfg, sdm_url_config url Aes opts = Ok cfg ∧ plan_sound url Aes opts cfg.
Proof.
  intros url opts. destruct (sdm_url_config url Aes opts) as [cfg|e] eqn:H.
  - exists cfg. split; [reflexivity|]. exact (sdm_url_config_sound url Aes opts cfg H).
  - exfalso. revert H. vm_compute. discriminate.
Defined.

(** The planner accepts a tamper status inside the data to encrypt. *)
Example tamper_inside_enc :
  let url := lit "https://a.b/?u={uid}&n={ctr}&e=[{tt}" ++ replicate 30 120 ++ lit "]&m={mac}" in
  match sdm_url_config url Aes SdmUrlOptions_new with
  | Ok cfg =>
      match sdm_tamper_status (sdm_settings cfg), enc_range (sdm_file_read (sdm_settings cfg)) with
      | Some t, Some (start, len) => t = start ∧ t + TT_PLACEHOLDER_LEN ≤ start + len / 2
      | _, _ => False
      end
  | Err _ => False
  end.
Proof. vm_compute. split; [done|congruence]. Qed.

(** ** The planner does not panic

    On a [&str], every index stays on a character boundary. *)

Definition boundary (url : list Z) (i : nat) : Prop := utf8 (drop i url).

Lemma boundary_char url i b : boundary url i → url !! i = Some b →
  (i + utf8_char_width b ≤ length url)%nat ∧ boundary url (i + utf8_char_width b).
Proof.
  unfold boundary. intros H Hb. rewrite (drop_S _ _ _ Hb) in H. destruct (utf8_step _ _ H) as (_ & Hw & Hd & _).
  apply lookup_lt_Some in Hb as Hl. rewrite <-(drop_S _ _ _ Hb) in Hw, Hd.
  rewrite length_drop in Hw. rewrite drop_drop in Hd. split; [lia|done].
Qed.

Lemma boundary_ascii url i b : boundary url i → url !! i = Some b → is_ascii b → boundary url (i + 1).
Proof.
  intros H Hb Ha. destruct (boundary_char _ _ _ H Hb) as [_ Hn]. replace 1%nat with (utf8_char_width b); [done|].
  unfold utf8_char_width. rewrite decide_True; [done|]. unfold is_ascii in Ha. lia.
Qed.

Lemma width_pos b : (1 ≤ utf8_char_width b)%nat.
Proof. unfold utf8_char_width. repeat case_decide; lia. Qed.

(** A computation of the planner that does not panic. *)
Definition safe {A} (r : TR A) : Prop := r ≠ Err T_Panic.

Lemma safe_bind {A B} (m : TR A) (k : A → TR B) :
  safe m → (∀ a, m = Ok a → safe (k a)) → safe (a ←? m; k a).
Proof. unfold safe. destruct m; simpl; [intros _ H; by apply H|congruence]. Qed.

Lemma cb_push_safe cap buf b : safe (cb_push cap buf b).
Proof. unfold safe, cb_push. by case_decide. Qed.

Lemma cb_push_zeroes_safe cap buf n : safe (cb_push_zeroes cap buf n).
Proof.
  revert buf. induction n as [|n IH]; intros buf; simpl; [done|].
  apply safe_bind; [apply cb_push_safe|]. intros; apply IH.
Qed.

Lemma cb_push_all_safe cap buf l : safe (cb_push_all cap buf l).
Proof.
  revert buf. induction l as [|b l IH]; intros buf; simpl; [done|].
  apply safe_bind; [apply cb_push_safe|]. intros; apply IH.
Qed.

Lemma cb_extend_safe cap buf src start n : (start + n ≤ length src)%nat → safe (cb_extend cap buf src start n).
Proof.
  revert buf start. induction n as [|n IH]; intros buf start Hl; simpl; [done|].
  destruct (lookup_lt_is_Some_2 src start) as [b ->]; [lia|].
  apply safe_bind; [apply cb_push_safe|]. intros; apply IH. lia.
Qed.

Lemma fill_safe cap t n : safe (fill cap t n).
Proof. apply safe_bind; [apply cb_push_zeroes_safe|done]. Qed.

Lemma copy_safe cap url t start n : (start + n ≤ length url)%nat → safe (copy cap url t start n).
Proof. intros. apply safe_bind; [by apply cb_extend_safe|done]. Qed.

Lemma set_once_safe {T} (slot : option T) v name : safe (set_once slot v name).
Proof. by destruct slot. Qed.

Lemma escaped_width_safe url i : safe (escaped_width url i).
Proof. unfold escaped_width. by destruct (url !! S i). Qed.

(** A placeholder that is recognised is plain ASCII. *)
Lemma bytes_match_spec url start len name : (start ≤ length url)%nat →
  bytes_match url start len name = true → len = length name ∧ take len (drop start url) = name.
Proof.
  intros Hs. unfold bytes_match. rewrite andb_true_iff, bool_decide_eq_true, bytes_eq_at_spec by done.
  by intros [-> ?].
Qed.

#[local] Instance is_ascii_dec c : Decision (is_ascii c).
Proof. unfold is_ascii. apply _. Defined.

Lemma placeholder_of_ascii url start len r : (start ≤ length url)%nat →
  placeholder_of url start len = Some r → Forall is_ascii (take len (drop start url)).
Proof.
  intros Hs H. unfold placeholder_of in H.
  assert (∀ l, bytes_match url start len l = true → bool_decide (Forall is_ascii l) = true →
    Forall is_ascii (take len (drop start url))) as Hn.
  { intros l Hm Ha. apply bytes_match_spec in Hm as [_ ->]; [|done]. by apply bool_decide_eq_true in Ha. }
  repeat match type of H with
  | context [bytes_match url start len ?l] =>
      destruct (bytes_match url start len l) eqn:E; [exact (Hn l E ltac:(by vm_compute))|clear E]
  end. done.
Qed.

Lemma parse_placeholder_from_spec rest url start end_ p n d :
  rest = drop end_ url → (start < end_ ≤ length url)%nat →
  parse_placeholder_from rest url start end_ = Ok (p, n, d) →
  ∃ stop, (end_ ≤ stop)%nat ∧ url !! stop = Some 125 ∧ n = (stop + 1 - start)%nat ∧
    placeholder_of url (start + 1) (stop - (start + 1)) = Some (p, d).
Proof.
  revert end_. induction rest as [|c rest IH]; intros end_ Hr Hl H; simpl in H; [done|].
  assert (url !! end_ = Some c) as Hc.
  { rewrite <-(Nat.add_0_r end_), <-lookup_drop, <-Hr. done. }
  case_decide as Hd.
  - subst c. destruct (placeholder_of _ _ _) as [[p' d']|] eqn:Hp; [|done]. injection H as <- <- <-. eauto.
  - apply IH in H as (stop & ? & ?); [|by rewrite (drop_S _ _ _ Hc) in Hr; injection Hr as ->|].
    + exists stop. split; [lia|done].
    + apply lookup_lt_Some in Hc. lia.
Qed.

Lemma parse_placeholder_safe url i : safe (parse_placeholder url i).
Proof.
  unfold parse_placeholder. generalize (i + 1)%nat at 2. generalize (drop (i + 1) url).
  intros rest. induction rest as [|c rest IH]; intros e; simpl; [done|].
  case_decide; [|apply IH]. by destruct (placeholder_of _ _ _) as [[]|].
Qed.

Lemma parse_placeholder_boundary url i p n d :
  boundary url i → url !! i = Some 123 → parse_placeholder url i = Ok (p, n, d) →
  (1 ≤ n)%nat ∧ boundary url (i + n).
Proof.
  intros Hb Hi H. apply lookup_lt_Some in Hi as Hl. unfold parse_placeholder in H.
  apply parse_placeholder_from_spec in H as (stop & Hs & Hc & -> & Hp); [|done|lia].
  split; [lia|]. apply placeholder_of_ascii in Hp; [|lia].
  assert (boundary url (i + 1)) as Hb1 by (eapply boundary_ascii; [done..|unfold is_ascii; lia]).
  assert (boundary url stop) as Hb2.
  { unfold boundary in *. rewrite <-(take_drop (stop - (i + 1)) (drop (i + 1) url)), utf8_ascii_app in Hb1 by done.
    rewrite drop_drop in Hb1. by replace (i + 1 + (stop - (i + 1)))%nat with stop in Hb1 by lia. }
  replace (i + (stop + 1 - i))%nat with (stop + 1)%nat by lia.
  eapply boundary_ascii; [done..|unfold is_ascii; lia].
Qed.

(** One pass: no panic, and forward to a boundary. *)
Definition moves (url : list Z) (i : nat) (r : TR (nat * Template)%type) : Prop :=
  safe r ∧ ∀ i' t', r = Ok (i', t') → (i < i')%nat ∧ boundary url i'.

Lemma moves_ok url i i' t : (i < i')%nat → boundary url i' → moves url i (Ok (i', t)).
Proof. intros. split; [done|]. by intros ? ? [= <- <-]. Qed.

Lemma moves_err url i e : e ≠ T_Panic → moves url i (Err e).
Proof. intros. split; [congruence|done]. Qed.

Lemma moves_bind {A} url i (m : TR A) k :
  safe m → (∀ a, m = Ok a → moves url i (k a)) → moves url i (a ←? m; k a).
Proof. unfold moves, safe. destruct m as [a|e]; simpl; [intros _ H; by apply H|intros; split; congruence]. Qed.

Lemma escaped_boundary url i w : boundary url i → url !! i = Some 92 → escaped_width url i = Ok w →
  (i + 1 + w ≤ length url)%nat ∧ boundary url (i + 1 + w).
Proof.
  intros Hb Hi H. unfold escaped_width in H. destruct (url !! S i) as [c|] eqn:Hc; [|done]. injection H as <-.
  assert (boundary url (i + 1)) as Hb1 by (eapply boundary_ascii; [done..|unfold is_ascii; lia]).
  apply boundary_char; [done|]. by rewrite Nat.add_1_r.
Qed.

Lemma double_open_next url i : double_open url i = true → url !! i = Some 91 ∧ url !! (i + 1)%nat = Some 91.
Proof. unfold double_open. rewrite andb_true_iff, !bool_decide_eq_true, Nat.add_1_r. done. Qed.

Lemma template_step_moves cap url mode b i t :
  boundary url i → url !! i = Some b → moves url i (template_step cap url mode b i t).
Proof.
  intros Hb Hi. destruct (boundary_char _ _ _ Hb Hi) as [Hw Hbw]. pose proof (width_pos b).
  assert (is_ascii b → boundary url (i + 1)) as Hascii by (by eapply boundary_ascii).
  unfold template_step. destruct (t_in_enc t).
  - unfold enc_step. case_decide; [apply moves_ok; [lia|apply Hascii; unfold is_ascii; lia]|].
    destruct (double_open url i); [by apply moves_err|]. case_decide; [by apply moves_err|].
    case_decide as H92.
    { subst b. apply moves_bind; [apply escaped_width_safe|]. intros w Hesc.
      destruct (escaped_boundary _ _ _ Hb Hi Hesc). apply moves_bind; [apply fill_safe|]. intros t' _.
      apply moves_ok; [lia|done]. }
    case_decide as H123.
    { subst b. apply moves_bind; [apply parse_placeholder_safe|]. intros [[p n] d] Hp.
      destruct (parse_placeholder_boundary _ _ _ _ _ Hb Hi Hp). destruct p; try by apply moves_err.
      apply moves_bind; [apply set_once_safe|]. intros o _. apply moves_bind; [apply fill_safe|]. intros t' _.
      apply moves_ok; [lia|done]. }
    apply moves_bind; [apply fill_safe|]. intros t' _. apply moves_ok; [lia|done].
  - unfold plain_step. destruct (double_open url i) eqn:Hd.
    { destruct (t_saw_mac_start t); [by apply moves_err|]. apply double_open_next in Hd as [Ho1 Ho2].
      rewrite Hi in Ho1. injection Ho1 as ->. apply moves_ok; [lia|].
      replace (i + 2)%nat with (i + 1 + 1)%nat by lia.
      eapply boundary_ascii; [apply Hascii|done|]; unfold is_ascii; lia. }
    case_decide; [destruct (t_enc_start t); [by apply moves_err|];
      apply moves_ok; [lia|apply Hascii; unfold is_ascii; lia]|].
    case_decide; [by apply moves_err|]. case_decide as H92.
    { subst b. apply moves_bind; [apply escaped_width_safe|]. intros w Hesc.
      destruct (escaped_boundary _ _ _ Hb Hi Hesc). apply moves_bind; [by apply copy_safe|]. intros t' _.
      apply moves_ok; [lia|done]. }
    case_decide as H123.
    { subst b. apply moves_bind; [apply parse_placeholder_safe|]. intros [[p n] d] Hp.
      destruct (parse_placeholder_boundary _ _ _ _ _ Hb Hi Hp).
      apply moves_bind; [destruct p; (apply safe_bind; [apply set_once_safe|done])|]. intros t1 _.
      apply moves_bind; [apply fill_safe|]. intros t' _. apply moves_ok; [lia|done]. }
    apply moves_bind; [by apply copy_safe|]. intros t' _. apply moves_ok; [lia|done].
Qed.

Lemma template_loop_safe cap url mode fuel i t :
  boundary url i → (length url - i ≤ fuel)%nat → safe (template_loop cap url mode fuel i t).
Proof.
  revert i t. induction fuel as [|fuel IH]; intros i t Hb Hf; simpl; destruct (url !! i) as [b|] eqn:Hi; try done.
  - apply lookup_lt_Some in Hi. lia.
  - destruct (template_step_moves cap url mode b i t Hb Hi) as [Hs Hm].
    apply safe_bind; [done|]. intros [i' t'] E. destruct (Hm _ _ E). apply IH; [done|]. lia.
Qed.

Lemma finish_template_safe t : safe (finish_template t).
Proof.
  unfold finish_template. destruct (t_in_enc t); [done|]. destruct (t_mac t); [|done].
  destruct (_ && _); [done|]. destruct (bool_decide _); [done|].
  apply safe_bind; [|intros ? _; by case_decide]. unfold enc_of_template.
  destruct (t_enc_start t), (t_enc_end t); try done. case_decide; [done|]. by destruct (_ || _).
Qed.

Lemma try_offset_safe v name : safe (try_offset v name).
Proof. unfold try_offset. by destruct (Offset_new v). Qed.

Lemma try_offset_opt_safe v name : safe (try_offset_opt v name).
Proof. destruct v; [|done]. apply safe_bind; [apply try_offset_safe|done]. Qed.

Lemma detect_uri_prefix_boundary url : utf8 url → boundary url (detect_uri_prefix url).2.
Proof.
  intros H. destruct (detect_uri_prefix url) as [code n] eqn:Hd. apply first_prefix_spec in Hd as [[-> ->]|(p & Hp & -> & Ht)].
  - done.
  - unfold boundary. simpl. rewrite <-(take_drop (length p) url), Ht, utf8_ascii_app in H; [done|].
    assert (Forall (λ cp : Z * list Z, Forall is_ascii cp.2) NDEF_URI_PREFIXES) as Hf
      by (apply (bool_decide_unpack _); vm_compute; done).
    rewrite Forall_forall in Hf. apply (Hf _ Hp).
Qed.

(** On every string the planner returns a plan or an error of its type: it never
    indexes out of range, and its loop ends within the length of the string. *)
Theorem sdm_url_plan_total (url : list Z) (mode : CryptoMode) (opts : SdmUrlOptions) :
  utf8 url → is_Some (sdm_url_plan url mode opts).
Proof.
  intros Hu. assert (safe (build_sdm_ndef_plan_core DEFAULT_CONST_PLAN_CAPACITY url mode opts)) as Hs.
  { unfold build_sdm_ndef_plan_core. pose proof (detect_uri_prefix_boundary url Hu) as Hb.
    destruct (detect_uri_prefix url) as [code n]. simpl in Hb. apply safe_bind.
    - apply safe_bind; [apply template_loop_safe; [done|lia]|]. intros; apply finish_template_safe.
    - intros p _. case_decide; [done|]. case_decide; [done|].
      apply safe_bind; [apply safe_bind; [apply cb_push_all_safe|intros; by apply cb_extend_safe]|]. intros nd _.
      apply safe_bind.
      { unfold build_picc. destruct (p_picc p) as [[]|]; [apply safe_bind; [apply try_offset_safe|done]|].
        apply safe_bind; [apply try_offset_opt_safe|]. intros ? _. apply safe_bind; [apply try_offset_opt_safe|done]. }
      intros pd _. apply safe_bind.
      { unfold build_file_read_plan. apply safe_bind; [apply try_offset_safe|]. intros ? _.
        apply safe_bind; [apply try_offset_safe|]. intros ? _. destruct (p_enc p) as [[s e]|]; [|done].
        apply safe_bind; [apply try_offset_safe|]. intros ? _. by destruct (EncLength_new (e - s)). }
      intros fr _. apply safe_bind; [apply try_offset_opt_safe|]. intros tt' _.
      destruct (Sdm_try_new _ _ _ _) as [|e]; [done|]. by destruct e. }
  unfold sdm_url_plan. destruct (build_sdm_ndef_plan_core _ _ _ _) as [|e]; [by eexists|].
  destruct e; try (eexists; reflexivity). by destruct Hs.
Qed.

(** ** Templates of Bolt Cards

    A URL that ends in the parameters [p] and [c], as every provisioning server
    hands out, and the plan it gets. *)

(** One pass of the loop, as a relation that can be composed. *)
Definition goes (cap : nat) (url : list Z) (mode : CryptoMode) (s s' : nat * Template) : Prop :=
  ∃ b, url !! s.1 = Some b ∧ template_step cap url mode b s.1 s.2 = Ok s' ∧ (s.1 < s'.1)%nat.

Lemma goes_loop cap url mode s s' fuel :
  rtc (goes cap url mode) s s' → url !! s'.1 = None → (length url - s.1 ≤ fuel)%nat →
  template_loop cap url mode fuel s.1 s.2 = Ok s'.2.
Proof.
  intros H Hn. revert fuel. induction H as [s|s s1 s' (b & Hb & Hs & Hlt) _ IH]; intros fuel Hf.
  - destruct fuel; simpl; by rewrite Hn.
  - apply lookup_lt_Some in Hb as Hl. destruct fuel as [|fuel]; [lia|]. simpl. rewrite Hb, Hs. simpl.
    destruct s1 as [i1 t1]. apply IH; [done|]. simpl in *. lia.
Qed.

Lemma cb_extend_exact cap buf a l r :
  (length buf + length l ≤ cap)%nat → cb_extend cap buf (a ++ l ++ r) (length a) (length l) = Ok (buf ++ l).
Proof.
  revert buf a. induction l as [|b l IH]; intros buf a Hl; simpl; [by rewrite app_nil_r|].
  simpl in Hl. rewrite list_lookup_middle by done. unfold cb_push. rewrite decide_False by lia. simpl.
  replace (a ++ b :: l ++ r) with ((a ++ [b]) ++ l ++ r) by (by rewrite <-(assoc_L (++))).
  replace (S (length a)) with (length (a ++ [b])) by (rewrite length_app; simpl; lia).
  rewrite IH by (rewrite length_app; simpl; lia). by rewrite <-(assoc_L (++)).
Qed.

Lemma cb_push_zeroes_exact cap buf n :
  (length buf + n ≤ cap)%nat → cb_push_zeroes cap buf n = Ok (buf ++ replicate n 48).
Proof.
  revert buf. induction n as [|n IH]; intros buf Hl; simpl; [by rewrite app_nil_r|].
  unfold cb_push. rewrite decide_False by lia. simpl.
  rewrite IH by (rewrite length_app; simpl; lia). by rewrite <-(assoc_L (++)).
Qed.

(** Characters without a meaning in templates: all but brackets, backslash and
    opening brace. *)
Definition plain_char (c : Z) : Prop := c ∉ [91; 92; 93; 123].

#[export] Instance plain_char_dec c : Decision (plain_char c).
Proof. unfold plain_char. apply _. Defined.

Lemma plain_step_copies cap url b i t : plain_char b → url !! i = Some b →
  plain_step cap url Aes b i t =
  (t' ←? copy cap url t i (utf8_char_width b); Ok ((i + utf8_char_width b)%nat, t')).
Proof.
  unfold plain_char. intros Hb Hi. unfold plain_step, double_open. rewrite Hi.
  rewrite bool_decide_false by set_solver. simpl. rewrite !decide_False by set_solver. done.
Qed.

Lemma goes_plain cap a seg rest t :
  utf8 seg → Forall plain_char seg → t_in_enc t = false → (length (t_content t) + length seg ≤ cap)%nat →
  rtc (goes cap (a ++ seg ++ rest) Aes) (length a, t)
    (length (a ++ seg), with_content (t_content t ++ seg) t).
Proof.
  intros Hu. revert a t. induction Hu as [|c s Hu IH] using utf8_ind; intros a t Hp Hin Hl.
  { rewrite !app_nil_r. by destruct t. }
  destruct (utf8_step c s Hu) as (_ & Hw & _ & _). pose proof (width_pos c) as Hw1.
  remember (utf8_char_width c) as w eqn:Ew. set (l := c :: s) in *.
  assert (length (take w l) = w) as Htl by (rewrite length_take; lia).
  apply rtc_l with (length (a ++ take w l), with_content (t_content t ++ take w l) t).
  - exists c. cbn [fst snd]. split; [by apply list_lookup_middle|]. split; [|rewrite length_app; lia].
    unfold template_step. rewrite Hin, plain_step_copies; [|by inversion Hp|by apply list_lookup_middle].
    assert (cb_extend cap (t_content t) (a ++ l ++ rest) (length a) w = Ok (t_content t ++ take w l)) as He.
    { pose proof (cb_extend_exact cap (t_content t) a (take w l) (drop w l ++ rest)) as He.
      rewrite Htl, (assoc_L (++) (take w l)), take_drop in He. apply He. lia. }
    unfold copy. rewrite <-Ew, He. simpl. by rewrite length_app, Htl.
  - replace (a ++ l ++ rest) with ((a ++ take w l) ++ drop w l ++ rest)
      by (by rewrite <-(assoc_L (++)), (assoc_L (++) (take w l)), take_drop).
    replace (length (a ++ l)) with (length ((a ++ take w l) ++ drop w l)) by (by rewrite <-(assoc_L (++)), take_drop).
    replace (with_content (t_content t ++ l) t) with
      (with_content (t_content (with_content (t_content t ++ take w l) t) ++ drop w l) (with_content (t_content t ++ take w l) t))
      by (simpl; by rewrite <-(assoc_L (++)), take_drop).
    apply IH; [by apply Forall_drop|done|]. simpl. rewrite length_app, length_drop. lia.
Qed.

(** The placeholder a name stands for. *)
Definition named_placeholder (name : list Z) : option (Placeholder * list Z) :=
  placeholder_of name 0 (length name).

Lemma bytes_match_at a name rest x :
  bytes_match (a ++ name ++ rest) (length a) (length name) x = bytes_match name 0 (length name) x.
Proof.
  apply eq_true_iff_eq. unfold bytes_match. rewrite !andb_true_iff, !bool_decide_eq_true.
  rewrite !bytes_eq_at_spec by (rewrite ?length_app; lia). rewrite drop_app_length, drop_0.
  split; intros [<- H]; (split; [done|]); by rewrite take_app_length, ?firstn_all in *.
Qed.

Lemma placeholder_of_at a name rest :
  placeholder_of (a ++ name ++ rest) (length a) (length name) = named_placeholder name.
Proof. unfold named_placeholder, placeholder_of. by rewrite !bytes_match_at. Qed.

(** A placeholder in the text: brace, name, brace. *)
Definition braced (name : list Z) : list Z := [123%Z] ++ name ++ [125%Z].

Lemma parse_placeholder_from_at (name : list Z) rest url start end_ :
  125 ∉ name →
  parse_placeholder_from (name ++ 125 :: rest) url start end_ =
  match placeholder_of url (start + 1) (end_ + length name - (start + 1)) with
  | Some (p, d) => Ok (p, (end_ + length name + 1 - start)%nat, d)
  | None => Err (T_InvalidPlaceholder start (end_ + length name + 1))
  end.
Proof.
  intros Hn. revert end_. induction name as [|c name IH]; intros end_; cbn [app parse_placeholder_from length].
  - by rewrite decide_True, !Nat.add_0_r.
  - rewrite decide_False by set_solver. rewrite IH by set_solver. by rewrite !Nat.add_succ_comm.
Qed.

Lemma parse_placeholder_at a name rest p d :
  125 ∉ name → named_placeholder name = Some (p, d) →
  parse_placeholder (a ++ braced name ++ rest) (length a) = Ok (p, length (braced name), d).
Proof.
  intros Hn Hp. unfold parse_placeholder, braced.
  replace (a ++ ([123%Z] ++ name ++ [125%Z]) ++ rest) with ((a ++ [123%Z]) ++ name ++ 125 :: rest)
    by (by rewrite <-!(assoc_L (++))).
  replace (length a + 1)%nat with (length (a ++ [123%Z])) by (rewrite length_app; simpl; lia).
  rewrite drop_app_length, parse_placeholder_from_at by done.
  replace (length a + 1)%nat with (length (a ++ [123%Z])) by (rewrite length_app; simpl; lia).
  replace (length (a ++ [123%Z]) + length name - length (a ++ [123%Z]))%nat with (length name) by lia.
  rewrite placeholder_of_at, Hp. rewrite !length_app. simpl. do 3 f_equal. lia.
Qed.

Lemma goes_placeholder cap a name rest t t1 p d :
  125 ∉ name → named_placeholder name = Some (p, d) → t_in_enc t = false →
  note_placeholder p (current_file_offset_len (length (t_content t))) d t = Ok t1 → t_content t1 = t_content t →
  (length (t_content t) + placeholder_fill_len p Aes ≤ cap)%nat →
  rtc (goes cap (a ++ braced name ++ rest) Aes) (length a, t)
    (length (a ++ braced name), with_content (t_content t ++ replicate (placeholder_fill_len p Aes) 48) t1).
Proof.
  intros Hn Hp Hin Ht1 Hc Hl. apply rtc_once. exists 123. cbn [fst snd].
  assert ((a ++ braced name ++ rest) !! length a = Some 123) as Ha by (by apply list_lookup_middle).
  split; [done|]. split; [|rewrite length_app; simpl; lia].
  unfold template_step. rewrite Hin. unfold plain_step, double_open. rewrite Ha.
  rewrite bool_decide_false by done. cbn [andb]. rewrite !decide_False by lia. rewrite decide_True by done.
  rewrite (parse_placeholder_at _ _ _ p d) by done. cbn [and_then]. rewrite Ht1. cbn [and_then].
  unfold fill. rewrite Hc, cb_push_zeroes_exact by done. cbn [and_then]. by rewrite length_app.
Qed.

Lemma goes_open_mac cap a rest t :
  t_in_enc t = false → t_saw_mac_start t = false →
  rtc (goes cap (a ++ lit "[[" ++ rest) Aes) (length a, t) (length (a ++ lit "[["), open_mac t).
Proof.
  intros Hin Hs. apply rtc_once. exists 91. cbn [fst snd].
  assert ((a ++ lit "[[" ++ rest) !! length a = Some 91) as Ha by (by apply list_lookup_middle).
  split; [done|]. split; [|rewrite length_app; simpl; lia].
  assert ((a ++ lit "[[" ++ rest) !! S (length a) = Some 91) as Ha'.
  { replace (a ++ lit "[[" ++ rest) with ((a ++ [91]) ++ 91 :: rest) by (by rewrite <-(assoc_L (++))).
    apply list_lookup_middle. rewrite length_app. simpl. lia. }
  unfold template_step. rewrite Hin. unfold plain_step, double_open. rewrite Ha, Ha', Hs.
  rewrite bool_decide_true by done. cbn [andb]. by rewrite length_app.
Qed.

(** The names that stand for the encrypted UID and counter. *)
Definition both_names : list (list Z) := [lit "picc"; lit "picc:uid+ctr"; lit "picc:ctr+uid"].

Lemma both_names_spec name : name ∈ both_names →
  125 ∉ name ∧ named_placeholder name = Some (Ph_Picc PC_Both, lit "{picc}").
Proof.
  unfold both_names. rewrite !elem_of_cons. intros [->|[->|[->|H]]]; [..|by apply elem_of_nil in H];
    (split; [by apply (bool_decide_unpack _); vm_compute|by vm_compute]).
Qed.

(** The template behind its prefix, the text it becomes, and where things are. *)
Definition bolt_tail (name : list Z) : list Z :=
  lit "?p=" ++ braced name ++ lit "&c=" ++ lit "[[" ++ braced (lit "mac").
Definition bolt_text (body p c : list Z) : list Z := body ++ lit "?p=" ++ p ++ lit "&c=" ++ c.
Definition picc_at (body : list Z) : Z := URI_AT + Z.of_nat (length body) + 3.
Definition mac_at (body : list Z) : Z := URI_AT + Z.of_nat (length body) + 38.

Lemma bolt_template_loop a body name :
  utf8 body → Forall plain_char body → (length body ≤ 202)%nat → name ∈ both_names →
  rtc (goes 256 (a ++ body ++ bolt_tail name) Aes) (length a, template_empty)
    (length (a ++ body ++ bolt_tail name),
     mkTemplate (bolt_text body (replicate 32 48) (replicate 16 48)) None None (Some (picc_at body, PC_Both)) None
       (Some (mac_at body)) true (Some (mac_at body)) false None None).
Proof.
  intros Hu Hp Hl Hname. apply both_names_spec in Hname as [Hbrace Hnamed].
  set (url := a ++ body ++ bolt_tail name).
  assert (∀ l, bool_decide (Forall plain_char l) = true → Forall plain_char l) as Hplain
    by (intros l; by rewrite bool_decide_eq_true).
  set (c1 := body ++ lit "?p="). set (c2 := c1 ++ replicate 32 48). set (c3 := c2 ++ lit "&c=").
  set (t1 := with_content c1 template_empty).
  set (t2 := with_content c2 (with_picc (Some (picc_at body, PC_Both)) t1)).
  set (t3 := with_content c3 t2). set (t4 := open_mac t3).
  set (a1 := a ++ c1). set (a2 := a1 ++ braced name). set (a3 := a2 ++ lit "&c="). set (a4 := a3 ++ lit "[[").
  assert (length c1 = length body + 3)%nat as L1 by (unfold c1; by rewrite length_app).
  assert (length c2 = length body + 35)%nat as L2 by (unfold c2; rewrite length_app, L1; simpl; lia).
  assert (length c3 = length body + 38)%nat as L3 by (unfold c3; rewrite length_app, L2; simpl; lia).
  assert (current_file_offset_len (length c1) = picc_at body) as O1 by (unfold current_file_offset_len, picc_at; lia).
  assert (current_file_offset_len (length c3) = mac_at body) as O3 by (unfold current_file_offset_len, mac_at; lia).
  transitivity (length a1, t1).
  { replace url with (a ++ c1 ++ braced name ++ lit "&c=" ++ lit "[[" ++ braced (lit "mac"))
      by (unfold url, c1, bolt_tail; by rewrite <-!(assoc_L (++))).
    apply (goes_plain 256 a c1 _ template_empty); [by apply utf8_app|by apply Forall_app_2, Hplain|done|].
    change (0 + length c1 ≤ 256)%nat. lia. }
  transitivity (length a2, t2).
  { replace url with (a1 ++ braced name ++ lit "&c=" ++ lit "[[" ++ braced (lit "mac"))
      by (unfold url, a1, c1, bolt_tail; by rewrite <-!(assoc_L (++))).
    apply (goes_placeholder 256 a1 name _ t1 (with_picc (Some (picc_at body, PC_Both)) t1) (Ph_Picc PC_Both) (lit "{picc}"));
      [done..| |done|change (length c1 + 32 ≤ 256)%nat; lia].
    change (t_content t1) with c1. rewrite O1. done. }
  transitivity (length a3, t3).
  { replace url with (a2 ++ lit "&c=" ++ lit "[[" ++ braced (lit "mac"))
      by (unfold url, a2, a1, c1, bolt_tail; by rewrite <-!(assoc_L (++))).
    apply (goes_plain 256 a2 (lit "&c=") _ t2); [by apply utf8_ascii, (bool_decide_unpack _)|by apply Hplain|done|].
    change (length c2 + 3 ≤ 256)%nat. lia. }
  transitivity (length a4, t4).
  { replace url with (a3 ++ lit "[[" ++ braced (lit "mac"))
      by (unfold url, a3, a2, a1, c1, bolt_tail; by rewrite <-!(assoc_L (++))).
    by apply (goes_open_mac 256 a3 _ t3). }
  assert (url = a4 ++ braced (lit "mac") ++ []) as E
    by (unfold url, a4, a3, a2, a1, c1, bolt_tail; by rewrite app_nil_r, <-!(assoc_L (++))).
  pose proof (goes_placeholder 256 a4 (lit "mac") [] t4 (with_mac (Some (mac_at body)) t4) Ph_Mac (lit "{mac}")) as Hg.
  rewrite <-E in Hg. replace (length (a4 ++ braced (lit "mac"))) with (length url) in Hg
    by (rewrite E; by rewrite app_nil_r).
  replace (mkTemplate _ _ _ _ _ _ _ _ _ _ _) with
    (with_content (t_content t4 ++ replicate 16 48) (with_mac (Some (mac_at body)) t4)).
  - apply Hg; [by apply (bool_decide_unpack _); vm_compute|by vm_compute|done| |done|change (length c3 + 16 ≤ 256)%nat; lia].
    change (t_content t4) with c3. by rewrite O3.
  - unfold t4, open_mac. change (t_content t3) with c3. rewrite O3. unfold bolt_text, with_mac, with_content. simpl.
    unfold c3, c2, c1. by rewrite <-!(assoc_L (++)).
Qed.

Lemma contains_skip p c a s : head p = Some c → c ∉ a → contains p (a ++ s) = contains p s.
Proof.
  intros Hp Hc. destruct p as [|x p]; [done|]. injection Hp as ->.
  induction a as [|y a IH]; [done|]. cbn [app contains]. rewrite IH by set_solver.
  replace (starts_with (c :: p) (y :: a ++ s)) with false; [done|].
  unfold starts_with. simpl. rewrite decide_False by set_solver. done.
Qed.

Lemma replace_skip p r c a s : head p = Some c → c ∉ a → replace p r (a ++ s) = a ++ replace p r s.
Proof.
  intros Hp Hc. destruct p as [|x p]; [done|]. injection Hp as ->. unfold replace.
  induction a as [|y a IH]; [done|]. cbn [app replace_from]. rewrite IH by set_solver.
  replace (starts_with (c :: p) (y :: a ++ s)) with false; [done|].
  unfold starts_with. simpl. rewrite decide_False by set_solver. done.
Qed.

(** The template as servers hand it out. *)
Definition bolt_template (base name : list Z) : list Z :=
  base ++ lit "?p=" ++ braced name ++ lit "&c=" ++ braced (lit "mac").

Lemma plain_no c base : Forall plain_char base → c ∈ [91; 92; 93; 123] → c ∉ base.
Proof. rewrite Forall_forall. intros H Hc Hb. by apply (H c Hb). Qed.

Lemma standardize_bolt base name : Forall plain_char base → name ∈ both_names →
  standardize_url_template (bolt_template base name) = base ++ bolt_tail name.
Proof.
  intros Hb Hn. unfold standardize_url_template, bolt_template.
  rewrite (contains_skip _ 91), (replace_skip _ _ 123) by (try done; apply (plain_no _ _ Hb); set_solver).
  unfold both_names in Hn. rewrite !elem_of_cons in Hn.
  destruct Hn as [->|[->|[->|H]]]; [by vm_compute..|by apply elem_of_nil in H].
Qed.

Lemma bytes_eq_at_query base x p : 63 ∉ p → bytes_eq_at (base ++ 63 :: x) 0 p = bytes_eq_at base 0 p.
Proof.
  intros Hp. apply eq_true_iff_eq. rewrite !bytes_eq_at_spec, !drop_0 by lia. split; intros H.
  - destruct (decide (length p ≤ length base)%nat) as [Hl|Hl]; [by rewrite take_app_le in H|].
    destruct Hp. rewrite <-H, take_app_ge by lia. destruct (length p - length base)%nat eqn:E; [lia|].
    simpl. set_solver.
  - apply (f_equal length) in H as Hl. rewrite length_take in Hl. by rewrite take_app_le by lia.
Qed.

Lemma detect_uri_prefix_query base x : detect_uri_prefix (base ++ 63 :: x) = detect_uri_prefix base.
Proof.
  assert (Forall (λ cp : Z * list Z, 63 ∉ cp.2) NDEF_URI_PREFIXES) as H by (apply (bool_decide_unpack _); by vm_compute).
  unfold detect_uri_prefix. induction H as [|[c p] table Hp _ IH]; [done|]. cbn [first_prefix].
  rewrite bytes_eq_at_query by done. by rewrite IH.
Qed.

(** The plan such a template gets. *)
Definition bolt_plan (opts : SdmUrlOptions) (code : Z) (body : list Z) : SdmUrlConfig :=
  mkSdmUrlConfig (ndef_file (uri_message true code (bolt_text body (replicate 32 48) (replicate 16 48))) [])
    (mkSdm (PiccData_Encrypted (suo_picc_key opts) (picc_at body)
              (EncContent_Both (mkReadCtrFeatures None (suo_ctr_ret opts))))
           (Some (FileRead_MacOnly (suo_mac_key opts) (mkMacWindow (mac_at body) (mac_at body)))) None).

Lemma bolt_text_length body p c : length (bolt_text body p c) = (length body + 6 + length p + length c)%nat.
Proof. unfold bolt_text. rewrite !length_app. simpl. lia. Qed.

Lemma try_offset_small v name : v < 2 ^ 24 → try_offset v name = Ok v.
Proof. intros. unfold try_offset, Offset_new. by rewrite decide_False by lia. Qed.

Lemma cb_push_all_exact cap buf src :
  (length buf + length src ≤ cap)%nat → cb_push_all cap buf src = Ok (buf ++ src).
Proof.
  revert buf. induction src as [|b src IH]; intros buf Hl; simpl; [by rewrite app_nil_r|].
  simpl in Hl. unfold cb_push. rewrite decide_False by lia. simpl.
  rewrite IH by (rewrite length_app; simpl; lia). by rewrite <-(assoc_L (++)).
Qed.

Lemma build_ndef_exact content code : (length content ≤ 249)%nat →
  build_ndef 256 content code = Ok (ndef_file (uri_message true code content) []).
Proof.
  intros Hl. rewrite ndef_header by lia. unfold build_ndef.
  rewrite cb_push_all_exact by (cbn [length]; lia). cbn [and_then app].
  pose proof (cb_extend_exact 256) as He. specialize (He
    [u8 (Z.shiftr (u16 (4 + (1 + Z.of_nat (length content)))) 8); u8 (u16 (4 + (1 + Z.of_nat (length content))));
     0xD1; 0x01; u8 (1 + Z.of_nat (length content)); 0x55; code] [] content []).
  rewrite app_nil_r in He. apply He. cbn [length]. lia.
Qed.

Lemma bolt_settings_ok k o c k' m : o + 32 ≤ m →
  Sdm_try_new (PiccData_Encrypted k o c) (Some (FileRead_MacOnly k' (mkMacWindow m m))) None Aes =
  Ok (mkSdm (PiccData_Encrypted k o c) (Some (FileRead_MacOnly k' (mkMacWindow m m))) None).
Proof.
  intros Hm. unfold Sdm_try_new, Sdm_try_new_inner, check_window. cbn [window mw_mac mw_input].
  rewrite decide_False by lia. cbn -[ranges_overlap].
  rewrite (proj2 (ranges_overlap_spec o PICC_BLOB_LEN_AES m MAC_PLACEHOLDER_LEN)); [done|].
  left. exact Hm.
Qed.

Lemma bolt_template_planned base name opts :
  let '(code, n) := detect_uri_prefix base in
  utf8 base → Forall plain_char base → name ∈ both_names →
  Z.of_nat (length base - n) + 61 ≤ Z.min 256 (suo_max_file_size opts) →
  sdm_url_config (standardize_url_template (bolt_template base name)) Aes opts = Ok (bolt_plan opts code (drop n base)).
Proof.
  destruct (detect_uri_prefix base) as [code n] eqn:Hd. intros Hu Hp Hn Hl.
  rewrite standardize_bolt by done. apply sdm_url_config_ok.
  assert (n ≤ length base)%nat as Hnl.
  { apply first_prefix_spec in Hd as [[_ ->]|(p & _ & -> & Hp')]; [lia|].
    apply (f_equal length) in Hp'. rewrite length_take in Hp'. lia. }
  assert (boundary base n) as Hb by (pose proof (detect_uri_prefix_boundary base Hu) as H; by rewrite Hd in H).
  unfold build_sdm_ndef_plan_core.
  assert (detect_uri_prefix (base ++ bolt_tail name) = (code, n)) as ->
    by (rewrite <-Hd; apply detect_uri_prefix_query).
  assert (length (drop n base) = length base - n)%nat as Hdl by apply length_drop.
  pose proof (bolt_template_loop (take n base) (drop n base) name Hb (Forall_drop _ _ _ Hp) ltac:(lia) Hn) as Hloop.
  rewrite (assoc_L (++)), take_drop, length_take_le in Hloop by done.
  apply (goes_loop _ _ _ _ _ (length (base ++ bolt_tail name))) in Hloop;
    [|by apply lookup_ge_None_2|cbn [fst]; lia].
  cbn [fst snd] in Hloop. unfold parse_template, DEFAULT_CONST_PLAN_CAPACITY. rewrite Hloop. cbn [and_then].
  unfold finish_template, enc_of_template.
  cbn [t_in_enc t_mac t_picc t_uid t_ctr t_tt t_enc_start t_enc_end t_mac_start t_content].
  rewrite (bool_decide_false (_ ∧ _)) by naive_solver.
  rewrite !(bool_decide_false (is_Some None)) by apply is_Some_None. rewrite andb_false_r.
  cbn [and_then from_option id]. rewrite decide_False by lia. cbn [and_then p_content].
  set (z := bolt_text (drop n base) (replicate 32 48) (replicate 16 48)).
  assert (length z = length base - n + 54)%nat as Hz by (unfold z; rewrite bolt_text_length, Hdl, !length_replicate; lia).
  rewrite Hz, !decide_False by lia.
  rewrite build_ndef_exact by lia. cbn [and_then].
  unfold build_picc, build_file_read_plan. cbn [p_picc p_mac_input p_mac p_enc p_tt try_offset_opt].
  unfold picc_at, mac_at, URI_AT. rewrite Hdl.
  rewrite !try_offset_small by lia. cbn [and_then].
  rewrite bolt_settings_ok by lia. eexists. split; [done|].
  unfold plan_config, bolt_plan, picc_at, mac_at, URI_AT. rewrite Hdl. done.
Qed.

(** ** The accessors of a plan and this crate's own reader *)

(** [SdmUrlConfig::prefix]. *)
Definition prefix_of_code (code : Z) : option (list Z) :=
  if decide (code = 0) then Some []
  else (λ r, r.2.2) <$> list_find (λ cp, cp.1 = code) NDEF_URI_PREFIXES.
Definition mirrors_uid (cfg : SdmUrlConfig) : bool := picc_includes_uid (sdm_picc_data (sdm_settings cfg)).
Definition mirrors_ctr (cfg : SdmUrlConfig) : bool := picc_includes_rctr (sdm_picc_data (sdm_settings cfg)).

Inductive ParseError :=
| PE_InvalidHeader
| PE_SizeMismatch (expected actual : Z)
| PE_UnknownPrefixCode (code : Z)
| PE_PayloadSizeMismatch (expected actual : Z)
| PE_Encoding.

(** [parse_ndef_uri] of this crate; [None] is a panic. *)
Definition sdm_parse_ndef_uri (ndef : list Z) : option (result (list Z) ParseError) :=
  if decide (length ndef < 7)%nat then Some (Err PE_InvalidHeader)
  else if decide (nth 2 ndef 0 ≠ 0xD1 ∨ nth 3 ndef 0 ≠ 0x01 ∨ nth 5 ndef 0 ≠ 0x55)
  then Some (Err PE_InvalidHeader)
  else
    let size := Z.lor (Z.shiftl (nth 0 ndef 0) 8) (nth 1 ndef 0) in
    let actual := Z.of_nat (length ndef) in
    if decide (actual < size + 2) then Some (Err (PE_SizeMismatch (size + 2) actual))
    else
      let ndef := take (Z.to_nat (size + 2)) ndef in
      payload_len ← ndef !! 4%nat;
      prefix_code ← ndef !! 6%nat;
      match prefix_of_code prefix_code with
      | None => Some (Err (PE_UnknownPrefixCode prefix_code))
      | Some prefix =>
          let expected := 2 + 4 + payload_len in
          let actual := Z.of_nat (length ndef) in
          if decide (actual ≠ expected) then Some (Err (PE_PayloadSizeMismatch expected actual))
          else match from_utf8 (drop 7 ndef) with
               | Some text => Some (Ok (prefix ++ text))
               | None => Some (Err PE_Encoding)
               end
      end.

(** A message that the header says is empty, over the bytes of an old one: the
    length is taken from the header before the record is indexed. *)
Example parse_empty_message_panics : sdm_parse_ndef_uri ([0; 0; 0xD1; 1; 4; 0x55; 4] ++ lit "a.b") = None.
Proof. vm_compute. reflexivity. Qed.

Lemma prefix_of_detected url code n :
  detect_uri_prefix url = (code, n) → prefix_of_code code = Some (take n url).
Proof.
  intros H. apply first_prefix_spec in H as [[-> ->]|(p & Hp & -> & ->)]; [done|].
  unfold NDEF_URI_PREFIXES in Hp. repeat (apply elem_of_cons in Hp as [[= -> ->]|Hp]; [done|]).
  by apply elem_of_nil in Hp.
Qed.

(** The crate's reader takes back what its planner writes: the prefix, then the
    text, for every text that is UTF-8. *)
Lemma sdm_parse_planned url text code n : detect_uri_prefix url = (code, n) →
  1 + Z.of_nat (length text) ≤ 255 → utf8 text →
  sdm_parse_ndef_uri (ndef_file (uri_message true code text) []) = Some (Ok (take n url ++ text)).
Proof.
  intros Hd Hl Hu. rewrite ndef_header by done. set (k := Z.of_nat (length text)) in *.
  assert (u16 (4 + (1 + k)) = 5 + k) as -> by (unfold u16; rewrite Z.mod_small; lia).
  unfold sdm_parse_ndef_uri. cbn [app length].
  rewrite decide_False by lia. cbn [nth]. rewrite decide_False by lia.
  assert (Z.lor (Z.shiftl (u8 (Z.shiftr (5 + k) 8)) 8) (u8 (5 + k)) = 5 + k) as ->.
  { rewrite Z.lor_comm. pose proof (le_val_bytes 2 (5 + k)) as Hv. cbn [le_bytes le_val] in Hv.
    pose proof (Z.add_lor_land (u8 (5 + k)) (Z.shiftl (u8 (Z.shiftr (5 + k) 8)) 8)) as Ha.
    rewrite land_shiftl_disjoint in Ha by (try apply u8_is_u8; lia). rewrite Z.shiftl_mul_pow2 in * by lia.
    rewrite Z.mod_small in Hv; change (2 ^ (8 * Z.of_nat 2)) with 65536 in *; lia. }
  rewrite decide_False by (cbn [length]; lia).
  rewrite firstn_all2 by (cbn [length]; lia). cbn [lookup list_lookup mbind option_bind].
  rewrite (prefix_of_detected _ _ _ Hd). rewrite (u8_id (1 + k)) by (unfold is_u8; lia).
  rewrite decide_False by (cbn [length]; lia). replace (drop 7 _) with text by done.
  by rewrite (proj2 (from_utf8_iff text)).
Qed.
