(* ===== verification/Session.v ===== *)
(** * The card session interface

    [ntag424::Session] over a transport, seen from the workflows.  The vendored
    protocol crate and the card behind it are not modelled: the operations are
    members of the class [NtagDevice], their documented behaviour on the
    persistent state of the card is the class [NtagLaws] (what an operation can
    do to the card, on success and on failure), and the class [NtagLive] adds
    that a reachable, genuine card answers a permitted command.

    The laws about failure are deliberately weak: a command that fails may or
    may not have taken effect on the card, because the response can be lost
    after the card has executed the command.

    [Sim] is a concrete card that satisfies all of them: it checks access
    rights, and can be given a budget of commands after which the field is
    lost, with the response to the last command lost after its effect. *)

From S2P Require Import Prelude Str Hex NtagTypes.

(** ** Persistent state of a card *)

Record Card := mkCard {
  c_uid : Uid;
  c_version : Version;
  c_keys : CardKeys;
  c_vers : KeyVersions;
  c_ndef : list Z;
  c_file : FileSettingsView;
}.

Definition set_card_key (n : KeyNumber) (k : AesKey) (ver : Z) (c : Card) : Card :=
  mkCard (c_uid c) (c_version c) (set_key n k (c_keys c)) (set_ver n ver (c_vers c))
    (c_ndef c) (c_file c).

Definition set_card_ndef (d : list Z) (c : Card) : Card :=
  mkCard (c_uid c) (c_version c) (c_keys c) (c_vers c) d (c_file c).

(** [ChangeFileSettings] overwrites all mutable fields together. *)
Definition set_card_file (u : FileSettingsUpdate) (c : Card) : Card :=
  mkCard (c_uid c) (c_version c) (c_keys c) (c_vers c) (c_ndef c)
    (mkFileSettingsView (fs_file_type (c_file c)) (fs_file_size (c_file c))
       (fu_comm_mode u) (fu_access_rights u) (fu_sdm u)).

Definition card_sdm (c : Card) : option Sdm := fs_sdm (c_file c).

(** A write that may have been cut short: every byte is the old or the new one. *)
Definition torn (old new got : list Z) : Prop :=
  length got = length old ∧ ∀ i, got !! i = old !! i ∨ got !! i = new !! i.

Lemma torn_same d got : torn d d got → got = d.
Proof. intros [_ H]. apply list_eq. intros i. by destruct (H i). Qed.

Lemma torn_new old new : length new = length old → torn old new new.
Proof. intros. split; [done|]. by right. Qed.

(** ** Operations

    [T] is the transport with the card behind it, [TE] its error type.  The
    plain authenticated reads and writes borrow the session; every caller
    drops it on error, so the model returns it with the result. *)

Class NtagDevice (T TE : Type) := {
  USess : Type;
  ASess : Type;
  session_default : USess;
  get_selected_uid : USess → M T (SessionError TE) Uid;
  get_version : USess → M T (SessionError TE) Version;
  get_file_settings_u : USess → T → result FileSettingsView (SessionError TE) * USess * T;
  read_file_unauthenticated : USess → Z → list Z → T →
    result nat (SessionError TE) * list Z * USess * T;
  authenticate_aes : USess → KeyNumber → AesKey → list Z → M T (SessionError TE) ASess;
  get_file_settings : ASess → M T (SessionError TE) (FileSettingsView * ASess);
  change_file_settings : ASess → FileSettingsUpdate → M T (SessionError TE) ASess;
  write_file_plain : ASess → Z → list Z → M T (SessionError TE) ASess;
  read_file_plain : ASess → Z → Z → list Z → M T (SessionError TE) (nat * list Z * ASess);
  change_key : ASess → NonMasterKeyNumber → AesKey → Z → AesKey → M T (SessionError TE) ASess;
  get_key_version : ASess → KeyNumber → M T (SessionError TE) (Z * ASess);
  change_master_key : ASess → AesKey → Z → M T (SessionError TE) USess;
}.

(** ** What the operations do to the card *)

Class NtagLaws {T TE} (D : NtagDevice T TE) := {
  card : T → Card;
  law_uid s w : wp (get_selected_uid s) (λ r w', card w' = card w ∧
    ∀ u, r = Ok u → u = c_uid (card w)) w;
  law_version s w : wp (get_version s) (λ r w', card w' = card w ∧
    ∀ v, r = Ok v → v = c_version (card w)) w;
  law_file_settings_u s w :
    let '(r, _, w') := get_file_settings_u s w in
    card w' = card w ∧ ∀ v, r = Ok v → v = c_file (card w);
  law_read_u s off buf w :
    let '(_, buf', _, w') := read_file_unauthenticated s off buf w in
    card w' = card w ∧ length buf' = length buf;
  law_auth s n k rnd w : wp (authenticate_aes s n k rnd) (λ r w', card w' = card w ∧
    ∀ s', r = Ok s' → get_key n (c_keys (card w)) = k) w;
  law_file_settings s w : wp (get_file_settings s) (λ r w', card w' = card w ∧
    ∀ v s', r = Ok (v, s') → v = c_file (card w)) w;
  law_change_file s u w : wp (change_file_settings s u) (λ r w',
    (card w' = card w ∨ card w' = set_card_file u (card w)) ∧
    ∀ s', r = Ok s' → card w' = set_card_file u (card w)) w;
  law_write s off d w : 0 ≤ off → wp (write_file_plain s off d) (λ r w',
    let new := copy_at (Z.to_nat off) d (c_ndef (card w)) in
    (∃ got, card w' = set_card_ndef got (card w) ∧
      ((Z.to_nat off + length d ≤ length (c_ndef (card w)))%nat → torn (c_ndef (card w)) new got)) ∧
    ∀ s', r = Ok s' → card w' = set_card_ndef new (card w) ∧
      (Z.to_nat off + length d ≤ length (c_ndef (card w)))%nat) w;
  law_read s off len buf w : 0 ≤ off → wp (read_file_plain s off len buf) (λ r w',
    card w' = card w ∧
    ∀ n buf' s', r = Ok (n, buf', s') → length buf' = length buf ∧ (n ≤ length buf)%nat ∧
      (card_sdm (card w) = None → take n buf' = take n (drop (Z.to_nat off) (c_ndef (card w))))) w;
  law_change_key s n k ver old w : wp (change_key s n k ver old) (λ r w',
    (card w' = card w ∨ card w' = set_card_key (key_number_from n) k ver (card w)) ∧
    ∀ s', r = Ok s' → card w' = set_card_key (key_number_from n) k ver (card w)) w;
  law_key_version s n w : wp (get_key_version s n) (λ r w', card w' = card w ∧
    ∀ v s', r = Ok (v, s') → v = get_ver n (c_vers (card w))) w;
  law_change_master s k ver w : wp (change_master_key s k ver) (λ r w',
    (card w' = card w ∨ card w' = set_card_key Key0 k ver (card w)) ∧
    ∀ s', r = Ok s' → card w' = set_card_key Key0 k ver (card w)) w;
}.

(** ** A card that answers *)

Definition granted (n : KeyNumber) (a : Access) : bool :=
  match a with
  | Access_Key k => bool_decide (k = n)
  | Access_Free => true
  | Access_NoAccess => false
  end.

Definition may_write (n : KeyNumber) (v : FileSettingsView) : bool :=
  granted n (ar_write (fs_access_rights v)) || granted n (ar_read_write (fs_access_rights v)).
Definition may_read (n : KeyNumber) (v : FileSettingsView) : bool :=
  granted n (ar_read (fs_access_rights v)) || granted n (ar_read_write (fs_access_rights v)).
Definition may_change (n : KeyNumber) (v : FileSettingsView) : bool :=
  granted n (ar_change (fs_access_rights v)).

Class NtagLive {T TE} (D : NtagDevice T TE) (L : NtagLaws D) := {
  (** the card is in the field and the link is reliable *)
  live : T → Prop;
  (** the session is the one the card has open, authenticated with this key *)
  authd : T → ASess → KeyNumber → Prop;
  (** SDM settings the card accepts; it always accepts having none *)
  accepts : option Sdm → Prop;
  accepts_none : accepts None;
  live_uid s w : live w → wp (get_selected_uid s) (λ r w', live w' ∧ ∃ u, r = Ok u) w;
  live_auth s n k rnd w : live w → get_key n (c_keys (card w)) = k →
    wp (authenticate_aes s n k rnd) (λ r w', live w' ∧ ∃ s', r = Ok s' ∧ authd w' s' n) w;
  live_file_settings s n w : live w → authd w s n →
    wp (get_file_settings s) (λ r w', live w' ∧ ∃ v s', r = Ok (v, s') ∧ authd w' s' n) w;
  live_change_file s n u w : live w → authd w s n → may_change n (c_file (card w)) = true →
    accepts (fu_sdm u) →
    wp (change_file_settings s u) (λ r w', live w' ∧ ∃ s', r = Ok s' ∧ authd w' s' n) w;
  live_write s n off d w : live w → authd w s n → may_write n (c_file (card w)) = true →
    fs_comm_mode (c_file (card w)) = Plain → d ≠ [] → 0 ≤ off →
    (Z.to_nat off + length d ≤ length (c_ndef (card w)))%nat →
    wp (write_file_plain s off d) (λ r w', live w' ∧ ∃ s', r = Ok s' ∧ authd w' s' n) w;
  live_read s n off len buf w : live w → authd w s n → may_read n (c_file (card w)) = true →
    fs_comm_mode (c_file (card w)) = Plain → 0 ≤ off → 0 < len →
    off + len ≤ Z.of_nat (length (c_ndef (card w))) → len ≤ Z.of_nat (length buf) →
    wp (read_file_plain s off len buf) (λ r w', live w' ∧
      ∃ buf' s', r = Ok (Z.to_nat len, buf', s') ∧ authd w' s' n) w;
  live_change_key s n k ver old w : live w → authd w s Key0 →
    get_key (key_number_from n) (c_keys (card w)) = old →
    wp (change_key s n k ver old) (λ r w', live w' ∧ ∃ s', r = Ok s' ∧ authd w' s' Key0) w;
  live_key_version s n m w : live w → authd w s m →
    wp (get_key_version s n) (λ r w', live w' ∧ ∃ v s', r = Ok (v, s') ∧ authd w' s' m) w;
  live_change_master s k ver w : live w → authd w s Key0 →
    wp (change_master_key s k ver) (λ r w', live w' ∧ ∃ s', r = Ok s') w;
}.

(** ** A card whose every answer is known

    What a workflow needs in order to run to its end: from a card in the field and
    an open session, each command answers, with exactly its effect.  The conditions
    on arguments ([block_ok] for a 16-byte value, [version_ok] for a version byte,
    [sdm_ok] for settings) are those the implementation has; they are trivial for a
    device that only has the laws above. *)
Class NtagAnswers {T TE} (D : NtagDevice T TE) := {
  shown : T → Card;
  up : T → Prop;
  opened : T → ASess → KeyNumber → Prop;
  block_ok : list Z → Prop;
  version_ok : Z → Prop;
  sdm_ok : option Sdm → Prop;
  capacity : Card → nat;
  capacity_file u c : capacity (set_card_file u c) = capacity c;
  sdm_ok_none : sdm_ok None;
  block_ok_blank : block_ok FACTORY_KEY;
  version_ok_blank : version_ok KEY_VERSION_BLANK;
  ans_uid w : up w → wp (get_selected_uid session_default) (λ r w',
    ∃ u, r = Ok u ∧ up w' ∧ shown w' = shown w ∧ u = c_uid (shown w)) w;
  ans_auth n k rnd w : up w → block_ok rnd → get_key n (c_keys (shown w)) = k →
    wp (authenticate_aes session_default n k rnd) (λ r w',
      ∃ s', r = Ok s' ∧ up w' ∧ shown w' = shown w ∧ opened w' s' n) w;
  ans_file_settings s n w : up w → opened w s n → wp (get_file_settings s) (λ r w',
    ∃ vs, r = Ok vs ∧ up w' ∧ shown w' = shown w ∧ vs.1 = c_file (shown w) ∧ opened w' vs.2 n) w;
  ans_change_file s n u w : up w → opened w s n → may_change n (c_file (shown w)) = true →
    sdm_ok (fu_sdm u) →
    wp (change_file_settings s u) (λ r w', ∃ s', r = Ok s' ∧ up w' ∧ opened w' s' n ∧
      shown w' = set_card_file u (shown w)) w;
  ans_write s n d w : up w → opened w s n → may_write n (c_file (shown w)) = true →
    fs_comm_mode (c_file (shown w)) = Plain → d ≠ [] → (length d ≤ capacity (shown w))%nat →
    wp (write_file_plain s 0 d) (λ r w', ∃ s', r = Ok s' ∧ up w' ∧ opened w' s' n ∧
      shown w' = set_card_ndef (copy_at 0 d (c_ndef (shown w))) (shown w)) w;
  ans_read s n d w : up w → opened w s n → may_read n (c_file (shown w)) = true →
    fs_comm_mode (c_file (shown w)) = Plain → card_sdm (shown w) = None → d ≠ [] →
    (length d ≤ 256)%nat → take (length d) (c_ndef (shown w)) = d →
    wp (read_file_plain s 0 (Z.of_nat (length d)) (replicate 256 0)) (λ r w',
      ∃ nbs, r = Ok nbs ∧ up w' ∧ shown w' = shown w ∧ opened w' nbs.2 n ∧
        nbs.1.1 = length d ∧ take (length d) nbs.1.2 = d) w;
  ans_change_key s n k ver old w : up w → opened w s Key0 → block_ok k → version_ok ver →
    get_key (key_number_from n) (c_keys (shown w)) = old →
    wp (change_key s n k ver old) (λ r w', ∃ s', r = Ok s' ∧ up w' ∧ opened w' s' Key0 ∧
      shown w' = set_card_key (key_number_from n) k ver (shown w)) w;
  ans_key_version s n m w : up w → opened w s m →
    wp (get_key_version s n) (λ r w', ∃ vs, r = Ok vs ∧ up w' ∧ opened w' vs.2 m ∧
      shown w' = shown w ∧ vs.1 = get_ver n (c_vers (shown w))) w;
  ans_change_master s k ver w : up w → opened w s Key0 → block_ok k → version_ok ver →
    wp (change_master_key s k ver) (λ r w', ∃ s', r = Ok s' ∧ up w' ∧
      shown w' = set_card_key Key0 k ver (shown w)) w;
}.

(** The laws together with liveness give such an account. *)
#[export] Instance answers_of_live {T TE} {D : NtagDevice T TE} {L : NtagLaws D} (V : NtagLive D L) :
  NtagAnswers D.
Proof.
  refine {| shown := card; up := live; opened := authd; block_ok _ := True; version_ok _ := True;
            sdm_ok := accepts; capacity c := length (c_ndef c); sdm_ok_none := accepts_none |}; try done;
    intros.
  - eapply wp_mono; [apply wp_and; [apply law_uid|apply live_uid]; eauto|]. naive_solver.
  - eapply wp_mono; [apply wp_and; [apply law_auth|apply live_auth]; eauto|]. naive_solver.
  - eapply wp_mono; [apply wp_and; [apply law_file_settings|apply live_file_settings]; eauto|]. naive_solver.
  - eapply wp_mono; [apply wp_and; [apply law_change_file|apply live_change_file]; eauto|]. naive_solver.
  - eapply wp_mono; [apply wp_and; [apply law_write; lia|eapply live_write; eauto; lia]|].
    cbn beta. intros r w' [[_ Ho] (Hl & s' & -> & Ha)]. destruct (Ho _ eq_refl). eauto 10.
  - assert (length d ≠ 0%nat) by (by destruct d).
    assert (length d ≤ length (c_ndef (card w)))%nat by (rewrite <-H6 at 1; rewrite length_take; lia).
    eapply wp_mono.
    { apply wp_and; [apply law_read; lia|]. eapply live_read; eauto; rewrite ?length_replicate; lia. }
    cbn beta. intros r w' [[Hc Ho] (Hl' & buf' & s' & -> & Ha')].
    destruct (Ho _ _ _ eq_refl) as (_ & _ & Hread). specialize (Hread H3).
    rewrite Nat2Z.id in *. eexists. split; [done|]. simpl. rewrite Hread. auto.
  - eapply wp_mono; [apply wp_and; [apply law_change_key|apply live_change_key]; eauto|]. naive_solver.
  - eapply wp_mono; [apply wp_and; [apply law_key_version|apply live_key_version]; eauto|]. naive_solver.
  - eapply wp_mono; [apply wp_and; [apply law_change_master|apply live_change_master]; eauto|]. naive_solver.
Defined.

(** ** A simulated card *)

Inductive SimError := FieldLost.

Record Sim := mkSim {
  sim_card : Card;
  sim_auth : option KeyNumber;
  sim_budget : option nat;
}.

(** One command: [guard] is the card's permission check, [f] its effect. *)
Definition sim_step {A} (guard : Card → option KeyNumber → bool) (f : Card → Card)
    (auth' : option KeyNumber → option KeyNumber) (res : Card → A) :
    M Sim (SessionError SimError) A := λ w,
  let c := sim_card w in
  let next b := mkSim (f c) (auth' (sim_auth w)) b in
  match sim_budget w with
  | Some 0%nat => (Err (SE_Transport FieldLost), w)
  | Some 1%nat => (Err (SE_Transport FieldLost),
      if guard c (sim_auth w) then next (Some 0%nat) else mkSim c None (Some 0%nat))
  | b => if guard c (sim_auth w) then (Ok (res c), next (pred <$> b))
         else (Err (SE_ErrorResponse PermissionDenied), mkSim c None (pred <$> b))
  end.

Definition sim_may (p : KeyNumber → FileSettingsView → bool) (c : Card) (a : option KeyNumber) : bool :=
  match a with Some n => p n (c_file c) | None => false end.

Definition sim_is (n : KeyNumber) (a : option KeyNumber) : bool := bool_decide (a = Some n).

Definition sim_read_len (c : Card) (off len : Z) (buf : list Z) : nat :=
  let avail := (length (c_ndef c) - Z.to_nat off)%nat in
  Nat.min (length buf) (if decide (len = 0) then avail else Nat.min (Z.to_nat len) avail).

Definition sim_fill (c : Card) (off : Z) (n : nat) (buf : list Z) : list Z :=
  take n (drop (Z.to_nat off) (c_ndef c)) ++ drop n buf.

Definition sim_authenticate (n : KeyNumber) (k : AesKey) : M Sim (SessionError SimError) unit :=
  sim_step (λ c _, bool_decide (get_key n (c_keys c) = k)) id (λ _, Some n) (λ _, tt).

Definition sim_is_auth (a : option KeyNumber) : bool := bool_decide (is_Some a).

#[export] Instance sim_device : NtagDevice Sim SimError := {|
  USess := unit;
  ASess := unit;
  session_default := tt;
  get_selected_uid _ := sim_step (λ _ _, true) id id c_uid;
  get_version _ := sim_step (λ _ _, true) id id c_version;
  get_file_settings_u _ w :=
    let '(r, w') := sim_step (λ _ _, true) id id c_file w in (r, tt, w');
  read_file_unauthenticated _ off buf w :=
    let c := sim_card w in
    let n := sim_read_len c off 0 buf in
    let '(r, w') := sim_step (λ c _, may_read Key0 (c_file c)) id id (λ _, n) w in
    (r, if is_ok r then sim_fill c off n buf else buf, tt, w');
  authenticate_aes _ n k _ := sim_authenticate n k;
  get_file_settings _ := sim_step (λ _ a, sim_is_auth a) id id (λ c, (c_file c, tt));
  change_file_settings _ u := sim_step (sim_may may_change) (set_card_file u) id (λ _, tt);
  write_file_plain _ off d := sim_step
    (λ c a, sim_may may_write c a && bool_decide (fs_comm_mode (c_file c) = Plain) &&
      bool_decide ((Z.to_nat off + length d ≤ length (c_ndef c))%nat))
    (λ c, set_card_ndef (copy_at (Z.to_nat off) d (c_ndef c)) c) id (λ _, tt);
  read_file_plain _ off len buf := sim_step
    (λ c a, sim_may may_read c a && bool_decide (fs_comm_mode (c_file c) = Plain)) id id
    (λ c, let n := sim_read_len c off len buf in (n, sim_fill c off n buf, tt));
  change_key _ n k ver old := sim_step
    (λ c a, sim_is Key0 a && bool_decide (get_key (key_number_from n) (c_keys c) = old))
    (set_card_key (key_number_from n) k ver) id (λ _, tt);
  get_key_version _ n := sim_step (λ _ a, sim_is_auth a) id id (λ c, (get_ver n (c_vers c), tt));
  change_master_key _ k ver := sim_step (λ _ a, sim_is Key0 a)
    (set_card_key Key0 k ver) (λ _, None) (λ _, tt);
|}.

(** The only ways a simulated command can end. *)
Lemma sim_step_cases {A} guard f auth' (res : Card → A) w :
  wp (sim_step guard f auth' res) (λ r w',
    (∃ e, r = Err e ∧ sim_card w' = sim_card w) ∨
    (guard (sim_card w) (sim_auth w) = true ∧ sim_card w' = f (sim_card w) ∧
      ((∃ e, r = Err e) ∨ r = Ok (res (sim_card w))))) w.
Proof.
  unfold wp, sim_step.
  destruct (sim_budget w) as [[|[|b]]|]; destruct (guard _ _) eqn:?; simpl; naive_solver.
Qed.

Lemma sim_step_live {A} guard f auth' (res : Card → A) w :
  sim_budget w = None → guard (sim_card w) (sim_auth w) = true →
  wp (sim_step guard f auth' res) (λ r w', r = Ok (res (sim_card w)) ∧
    w' = mkSim (f (sim_card w)) (auth' (sim_auth w)) None) w.
Proof. unfold wp, sim_step. intros -> ->. done. Qed.

Lemma set_card_ndef_id c : set_card_ndef (c_ndef c) c = c.
Proof. by destruct c. Qed.

Lemma sim_read_len_le c off len buf :
  (sim_read_len c off len buf ≤ length buf)%nat ∧
  (sim_read_len c off len buf ≤ length (c_ndef c) - Z.to_nat off)%nat.
Proof. unfold sim_read_len. case_decide; lia. Qed.

Lemma sim_fill_spec c off n buf :
  (n ≤ length buf)%nat → (n ≤ length (c_ndef c) - Z.to_nat off)%nat →
  length (sim_fill c off n buf) = length buf ∧
  take n (sim_fill c off n buf) = take n (drop (Z.to_nat off) (c_ndef c)).
Proof.
  intros H1 H2. unfold sim_fill. split.
  - rewrite length_app, length_take, !length_drop. lia.
  - apply take_app_exact. rewrite length_take, length_drop. lia.
Qed.

Ltac sim_law := intros; eapply wp_mono; [apply sim_step_cases|];
  intros ?r ?w' [(?e & -> & ?Hc)|(?Hg & ?Hc & [[?e ->]| ->])]; simpl in *.

#[export] Instance sim_laws : NtagLaws sim_device.
Proof.
  refine {| card := sim_card |}.
  - sim_law; naive_solver.
  - sim_law; naive_solver.
  - intros s w. simpl. pose proof (sim_step_cases (λ _ _, true) id id c_file w) as H.
    unfold wp in H. destruct (sim_step _ _ _ _ w) as [r w']. simpl in H. naive_solver.
  - intros s off buf w. simpl.
    pose proof (sim_step_cases (λ c _, may_read Key0 (c_file c)) id id
      (λ _, sim_read_len (sim_card w) off 0 buf) w) as H.
    unfold wp in H. destruct (sim_step _ _ _ _ w) as [r w']. simpl in H.
    split; [naive_solver|]. destruct (is_ok r); [|done].
    apply sim_fill_spec; apply sim_read_len_le.
  - sim_law; try (split; [done|intros; congruence]).
    split; [done|]. intros _ _. by apply bool_decide_eq_true in Hg.
  - sim_law; naive_solver.
  - sim_law; naive_solver.
  - sim_law.
    + split; [|by intros]. exists (c_ndef (sim_card w)).
      split; [by rewrite set_card_ndef_id|]. split; [done|]. by left.
    + apply andb_true_iff in Hg as [_ Hlen]. apply bool_decide_eq_true in Hlen.
      split; [|by intros]. eexists. split; [exact Hc|]. intros _. apply torn_new.
      by apply copy_at_length.
    + apply andb_true_iff in Hg as [_ Hlen]. apply bool_decide_eq_true in Hlen.
      split; [|by intros]. eexists. split; [exact Hc|]. intros _. apply torn_new.
      by apply copy_at_length.
  - sim_law; try (split; [done|intros; congruence]).
    split; [done|]. intros n buf' s' [= <- <- _].
    pose proof (sim_read_len_le (sim_card w) off len buf) as [Hb Ha].
    destruct (sim_fill_spec _ _ _ _ Hb Ha). auto.
  - sim_law; naive_solver.
  - sim_law; naive_solver.
  - sim_law; naive_solver.
Defined.

Ltac sim_live := intros; eapply wp_mono; [apply sim_step_live; [done|]|
  intros ?r ?w' [-> ->]; simpl in *; split; [done|]; eauto].

#[export] Instance sim_live_device : NtagLive sim_device sim_laws.
Proof.
  refine {| live w := sim_budget w = None; authd w _ n := sim_auth w = Some n;
            accepts _ := True |}.
  - done.
  - sim_live. done.
  - sim_live. by apply bool_decide_eq_true.
  - sim_live. simpl in *. by rewrite H0.
  - sim_live. unfold sim_may. simpl in *. by rewrite H0.
  - sim_live. unfold sim_may. simpl in *. rewrite H0, H1, H2.
    by rewrite !bool_decide_eq_true_2.
  - intros s n off len buf w H Ha Hr Hp Ho Hl Hf Hb. eapply wp_mono.
    + apply sim_step_live; [done|]. simpl in *. unfold sim_may. rewrite Ha, Hr.
      by rewrite bool_decide_eq_true_2.
    + intros r w' [-> ->]. simpl in *. split; [done|].
      replace (sim_read_len (sim_card w) off len buf) with (Z.to_nat len); [eauto|].
      unfold sim_read_len. rewrite decide_False by lia. lia.
  - sim_live. simpl in *. unfold sim_is. rewrite H0, H1. by rewrite !bool_decide_eq_true_2.
  - sim_live. simpl in *. by rewrite H0.
  - sim_live. simpl in *. unfold sim_is. rewrite H0. by rewrite bool_decide_eq_true_2.
Defined.
