(* ===== verification/Channel.v ===== *)
(** * The secure channel

    [vendor/ntag424/src]: the AES suite ([crypto/suite.rs]), status words
    ([types/response_code.rs]), the authenticated state ([session/authenticated.rs])
    and the framing of secure messaging ([commands/secure_channel.rs]), with the
    AES handshake ([commands/authenticate/aes.rs]), over a transport of APDUs.

    A slice index out of range is [Fault_Panic], kept in the error of the transport,
    because the error type of the source has no counterpart of it. *)

From S2P Require Import Prelude Str Hex Derivation Picc NtagTypes FileSettings.

(** ** The transport *)

Record Rapdu := mkRapdu { ra_data : list Z; ra_sw1 : Z; ra_sw2 : Z }.

Inductive Fault (TE : Type) := Fault_Error (e : TE) | Fault_Panic.
Arguments Fault_Error {TE} _.
Arguments Fault_Panic {TE}.

Class Apdu (T TE : Type) := {
  apdu_transmit : list Z → M T (Fault TE) Rapdu;
  apdu_get_uid : M T (Fault TE) (list Z) }.

(** ** Status words *)

Inductive ResponseCode := RC_Iso (sw1 sw2 : Z) | RC_Desfire (sw1 sw2 : Z).

Definition rc_ok (c : ResponseCode) : bool :=
  match c with
  | RC_Iso sw1 sw2 => bool_decide (sw1 = 0x90 ∧ sw2 = 0)
  | RC_Desfire sw1 sw2 => bool_decide (sw1 = 0x91 ∧ sw2 = 0)
  end.

Definition rc_code (c : ResponseCode) : Z :=
  match c with RC_Iso sw1 sw2 | RC_Desfire sw1 sw2 => Z.lor (Z.shiftl sw1 8) sw2 end.

Definition desfire_statuses : list (Z * ResponseStatus) :=
  [(0x9100, OperationOk); (0x911C, IllegalCommandCode); (0x911E, IntegrityError); (0x9140, NoSuchKey);
   (0x917E, LengthError); (0x919D, PermissionDenied); (0x919E, ParameterError); (0x91AD, AuthenticationDelay);
   (0x91AE, AuthenticationError); (0x91AF, AdditionalFrame); (0x91BE, BoundaryError); (0x91CA, CommandAborted);
   (0x91EE, MemoryError); (0x91F0, FileNotFound)].

Definition iso_statuses : list (Z * ResponseStatus) :=
  [(0x6700, WrongLength); (0x6982, SecurityStatusNotSatisfied); (0x6985, ConditionsOfUseNotSatisfied);
   (0x6A80, IncorrectParametersInTheCommandDataField); (0x6A82, FileOrApplicationNotFound);
   (0x6A86, IncorrectParametersP1P2); (0x6A87, LcInconsistentWithParametersP1P2); (0x6C00, WrongLeField);
   (0x6D00, InstructionCodeNotSupportedOrInvalid); (0x6E00, ClassNotSupported); (0x9000, NormalProcessing)].

Definition status_in (table : list (Z * ResponseStatus)) (code : Z) (other : ResponseStatus) : ResponseStatus :=
  default other (snd ∘ snd <$> list_find (λ r, r.1 = code) table).

Definition rc_status (c : ResponseCode) : ResponseStatus :=
  let code := rc_code c in
  match c with
  | RC_Desfire _ _ => status_in desfire_statuses code (Unknown code)
  | RC_Iso _ _ =>
      status_in iso_statuses code
        (if decide (0x6C01 ≤ code ≤ 0x6CFF) then WrongLeFieldExpected (Z.land code 0xFF) else Unknown code)
  end.

(** ** crypto/suite.rs *)

Section suite.
  Context {C : AesCrypto}.

(** One block under the cipher: CBC of a single block with a zero IV. *)
Definition aes_block (key b : list Z) : list Z := aes_cbc_enc key b.
Definition aes_unblock (key b : list Z) : list Z := aes_cbc_dec key b.

Fixpoint cbc_enc_loop (key prev : list Z) (n : nat) (buf : list Z) : list Z :=
  match n with
  | O => []
  | S n => let out := aes_block key (xor_bytes (take 16 buf) prev) in out ++ cbc_enc_loop key out n (drop 16 buf)
  end.

Fixpoint cbc_dec_loop (key prev : list Z) (n : nat) (buf : list Z) : list Z :=
  match n with
  | O => []
  | S n => xor_bytes (aes_unblock key (take 16 buf)) prev ++ cbc_dec_loop key (take 16 buf) n (drop 16 buf)
  end.

Definition block_aligned (buf : list Z) : Prop := buf ≠ [] ∧ (length buf `mod` 16 = 0)%nat.

#[export] Instance block_aligned_dec buf : Decision (block_aligned buf).
Proof. unfold block_aligned. apply _. Defined.

Definition aes_cbc_encrypt (key iv buf : list Z) : option (list Z) :=
  if decide (block_aligned buf) then Some (cbc_enc_loop key iv (length buf `div` 16) buf) else None.
Definition aes_cbc_decrypt (key iv buf : list Z) : option (list Z) :=
  if decide (block_aligned buf) then Some (cbc_dec_loop key iv (length buf `div` 16) buf) else None.

(** The companions with the length in the type: the buffer is aligned. *)
Definition zero_iv : list Z := replicate 16 0.
Definition aes_cbc_encrypt_n (key iv buf : list Z) : list Z := default [] (aes_cbc_encrypt key iv buf).
Definition aes_cbc_decrypt_n (key iv buf : list Z) : list Z := default [] (aes_cbc_decrypt key iv buf).

Inductive Direction := Dir_Command | Dir_Response.
Definition dir_label (d : Direction) : list Z :=
  match d with Dir_Command => [0xA5; 0x5A] | Dir_Response => [0x5A; 0xA5] end.

(** [get_range] as a total function, for slices of arrays. *)
Definition sub_list (a b : nat) (l : list Z) : list Z := take (b - a) (drop a l).

Definition session_vector_aes (label rnd_a rnd_b : list Z) : list Z :=
  label ++ [0x00; 0x01; 0x00; 0x80] ++ sub_list 0 2 rnd_a ++
  xor_bytes (sub_list 2 8 rnd_a) (sub_list 0 6 rnd_b) ++ sub_list 6 16 rnd_b ++ sub_list 8 16 rnd_a.

Definition truncate_mac (full : list Z) : list Z := (λ i, nth (2 * i + 1) full 0) <$> seq 0 8.

Record AesSuite := mkAesSuite { as_mac_key : list Z; as_enc_key : list Z }.

Definition suite_derive (kx rnd_a rnd_b : list Z) : AesSuite :=
  mkAesSuite (aes_cmac kx (session_vector_aes [0x5A; 0xA5] rnd_a rnd_b))
             (aes_cmac kx (session_vector_aes [0xA5; 0x5A] rnd_a rnd_b)).

Definition suite_iv (s : AesSuite) (d : Direction) (ti : list Z) (cmd_ctr : Z) : list Z :=
  aes_block (as_enc_key s) (dir_label d ++ ti ++ le_bytes 2 cmd_ctr ++ replicate 8 0).

Definition suite_mac (s : AesSuite) (data : list Z) : list Z := truncate_mac (aes_cmac (as_mac_key s) data).

Definition suite_encrypt (s : AesSuite) (d : Direction) (ti : list Z) (cmd_ctr : Z) (buf : list Z) : option (list Z) :=
  aes_cbc_encrypt (as_enc_key s) (suite_iv s d ti cmd_ctr) buf.
Definition suite_decrypt (s : AesSuite) (d : Direction) (ti : list Z) (cmd_ctr : Z) (buf : list Z) : option (list Z) :=
  aes_cbc_decrypt (as_enc_key s) (suite_iv s d ti cmd_ctr) buf.
End suite.

(** ** The authenticated state *)

Record AuthResult := mkAuthResult { ah_suite : AesSuite; ah_ti : list Z; ah_pd_cap2 : list Z; ah_pcd_cap2 : list Z }.

Record Authenticated := mkAuthenticated {
  an_auth_result : AuthResult;
  an_key_number : KeyNumber;
  an_cmd_counter : Z }.

Definition with_auth_result (r : AuthResult) (n : KeyNumber) : Authenticated := mkAuthenticated r n 0.

Definition an_suite (a : Authenticated) : AesSuite := ah_suite (an_auth_result a).
Definition an_ti (a : Authenticated) : list Z := ah_ti (an_auth_result a).

Definition an_advance (a : Authenticated) : Authenticated :=
  mkAuthenticated (an_auth_result a) (an_key_number a) (u16 (an_cmd_counter a + 1)).

(** ** commands/secure_channel.rs

    [compat] is the process-wide switch for emulated cards ([plain_advance_compat]). *)

Definition MAC_LEN : nat := 8.
Definition MAX_APDU_BODY : nat := 255.
Definition MAC_INPUT_CAP : nat := 1 + 2 + 4 + MAX_APDU_BODY.
Definition MAX_RESPONSE_DATA : nat := MAX_APDU_BODY - MAC_LEN.

(** The bytes written to the buffer; [None] when they do not fit. *)
Definition fill_mac_input (prefix : Z) (ctr : Z) (ti part1 part2 : list Z) : option (list Z) :=
  let out := [prefix] ++ le_bytes 2 ctr ++ ti ++ part1 ++ part2 in
  if decide (length out ≤ MAC_INPUT_CAP)%nat then Some out else None.

(** [strip_m2_padding]: the loop runs from the end of the buffer. *)
Fixpoint strip_zeros (rev_plain : list Z) : list Z :=
  match rev_plain with 0 :: l => strip_zeros l | l => l end.
Definition strip_m2_padding (plain : list Z) : option nat :=
  match strip_zeros (rev plain) with
  | 0x80 :: l => Some (length l)
  | _ => None
  end.

Section channel.
  Context {C : AesCrypto} {T TE : Type} {AP : Apdu T TE} (compat : bool).

(** A computation of the channel: the authenticated state and the transport. *)
Definition Ch (A : Type) : Type := M (Authenticated * T) (SessionError (Fault TE)) A.

Definition ch_state : Ch Authenticated := λ w, (Ok w.1, w).
Definition ch_panic {A} : Ch A := fail (SE_Transport Fault_Panic).
Definition ch_fail {A} (e : SessionError (Fault TE)) : Ch A := fail e.
Definition ch_of {A} (o : option A) : Ch A := match o with Some a => mret a | None => ch_panic end.
Definition ch_ensure (c : bool) (e : SessionError (Fault TE)) : Ch () := if c then mret tt else fail e.

Definition ch_transmit (apdu : list Z) : Ch Rapdu := λ w,
  let '(r, t) := apdu_transmit apdu w.2 in (map_err SE_Transport r, (w.1, t)).

Definition advance_counter : Ch () := λ w, (Ok tt, (an_advance w.1, w.2)).

Definition compute_cmd_mac (cmd : Z) (header data : list Z) : Ch (list Z) :=
  s ← ch_state;
  input ← ch_of (fill_mac_input cmd (an_cmd_counter s) (an_ti s) header data);
  mret (suite_mac (an_suite s) input).

Definition encrypt_command (buf : list Z) : Ch (list Z) :=
  s ← ch_state;
  match suite_encrypt (an_suite s) Dir_Command (an_ti s) (an_cmd_counter s) buf with
  | Some out => mret out
  | None => ch_fail (SE_NotBlockAligned (Z.of_nat (length buf)))
  end.

Definition decrypt_response (buf : list Z) : Ch (list Z) :=
  s ← ch_state;
  match suite_decrypt (an_suite s) Dir_Response (an_ti s) (an_cmd_counter s) buf with
  | Some out => mret out
  | None => ch_fail (SE_NotBlockAligned (Z.of_nat (length buf)))
  end.

Definition verify_response_mac_and_advance (rc : Z) (body : list Z) : Ch (list Z) :=
  if decide (length body < MAC_LEN)%nat then
    if compat then advance_counter ;; mret []
    else ch_fail (SE_UnexpectedLength (Z.of_nat (length body)) (Z.of_nat MAC_LEN))
  else
    let at_ := (length body - MAC_LEN)%nat in
    let data := take at_ body in
    let received := drop at_ body in
    s ← ch_state;
    input ← ch_of (fill_mac_input rc (u16 (an_cmd_counter s + 1)) (an_ti s) data []);
    if decide (suite_mac (an_suite s) input = received) then advance_counter ;; mret data
    else ch_fail SE_ResponseMacMismatch.

(** What every native command does with the answer. *)
Definition native_ok (r : Rapdu) : Ch () :=
  let status := rc_status (RC_Desfire (ra_sw1 r) (ra_sw2 r)) in
  ch_ensure (bool_decide (status = OperationOk)) (SE_ErrorResponse status).

Definition send_mac (cmd p1 p2 : Z) (header data : list Z) : Ch (list Z) :=
  let body_len := (length header + length data + MAC_LEN)%nat in
  ch_ensure (bool_decide (body_len ≤ MAX_APDU_BODY)%nat)
    (SE_ApduBodyTooLarge (Z.of_nat body_len) (Z.of_nat MAX_APDU_BODY)) ;;
  mac ← compute_cmd_mac cmd header data;
  resp ← ch_transmit ([0x90; cmd; p1; p2; Z.of_nat body_len] ++ header ++ data ++ mac ++ [0x00]);
  native_ok resp ;;
  plain ← verify_response_mac_and_advance (ra_sw2 resp) (ra_data resp);
  ch_ensure (bool_decide (length plain ≤ MAX_RESPONSE_DATA)%nat)
    (SE_UnexpectedLength (Z.of_nat (length plain)) (Z.of_nat MAX_RESPONSE_DATA)) ;;
  mret plain.

(** ** commands/authenticate/aes.rs *)

Definition wire_transmit (apdu : list Z) : M T (SessionError (Fault TE)) Rapdu :=
  lift_err SE_Transport (apdu_transmit apdu).

Definition wire_of {A} (r : result A (SessionError (Fault TE))) : M T (SessionError (Fault TE)) A := λ t, (r, t).

Definition expect_length (n : nat) (data : list Z) : M T (SessionError (Fault TE)) (list Z) :=
  if decide (length data = n) then mret data
  else fail (SE_UnexpectedLength (Z.of_nat (length data)) (Z.of_nat n)).

Definition rotate_left (l : list Z) : list Z := drop 1 l ++ take 1 l.
Definition rotate_right (l : list Z) : list Z := drop 15 l ++ take 15 l.

Definition build_part2_apdu (key rnd_a rnd_b : list Z) : list Z :=
  [0x90; 0xAF; 0x00; 0x00; 0x20] ++ aes_cbc_encrypt_n key zero_iv (rnd_a ++ rotate_left rnd_b) ++ [0x00].

Definition finish_auth (key rnd_a rnd_b enc : list Z) : result AuthResult (SessionError (Fault TE)) :=
  let resp := aes_cbc_decrypt_n key zero_iv enc in
  if decide (rotate_right (sub_list 4 20 resp) = rnd_a) then
    Ok (mkAuthResult (suite_derive key rnd_a rnd_b) (sub_list 0 4 resp) (sub_list 20 26 resp) (sub_list 26 32 resp))
  else Err SE_AuthenticationMismatch.

Definition authenticate_ev2_first (key_no : KeyNumber) (key rnd_a : list Z) :
    M T (SessionError (Fault TE)) AuthResult :=
  r1 ← wire_transmit [0x90; 0x71; 0x00; 0x00; 0x05; as_byte key_no; 0x03; 0x00; 0x00; 0x00; 0x00];
  let status := rc_status (RC_Desfire (ra_sw1 r1) (ra_sw2 r1)) in
  if decide (status = AdditionalFrame) then
    rnd_b_enc ← expect_length 16 (ra_data r1);
    let rnd_b := aes_cbc_decrypt_n key zero_iv rnd_b_enc in
    r2 ← wire_transmit (build_part2_apdu key rnd_a rnd_b);
    let code := RC_Desfire (ra_sw1 r2) (ra_sw2 r2) in
    if rc_ok code then
      resp_enc ← expect_length 32 (ra_data r2);
      wire_of (finish_auth key rnd_a rnd_b resp_enc)
    else fail (SE_ErrorResponse (rc_status code))
  else fail (SE_ErrorResponse status).
End channel.

(** ** Facts about the cipher and the padding *)

Section cbc.
  Context {C : AesCrypto} `{!AesLaws C}.

Lemma array_take_drop n m l : array (n + m) l → array n (take n l) ∧ array m (drop n l).
Proof.
  intros [Hl Hb]. split; (split; [rewrite ?length_take, ?length_drop; lia|auto with bolty]).
Qed.

Lemma array_app n m a b : array n a → array m b → array (n + m) (a ++ b).
Proof. intros [<- ?] [<- ?]. split; [by rewrite length_app|auto with bolty]. Qed.

Lemma array_xor n a b : array n a → array n b → array n (xor_bytes a b).
Proof. intros [? ?] [? ?]. split; [rewrite xor_bytes_length; lia|auto with bolty]. Qed.

Lemma aes_block_array key b : array 16 b → array 16 (aes_block key b).
Proof. apply aes_cbc_enc_array. Qed.

Lemma cbc_enc_array key iv n buf :
  array 16 iv → array (16 * n) buf → array (16 * n) (cbc_enc_loop key iv n buf).
Proof.
  revert iv buf. induction n as [|n IH]; intros iv buf Hi Hb; simpl cbc_enc_loop.
  { split; [done|constructor]. }
  replace (16 * S n)%nat with (16 + 16 * n)%nat in * by lia.
  destruct (array_take_drop _ _ _ Hb) as [Ht Hd].
  assert (array 16 (aes_block key (xor_bytes (take 16 buf) iv))) by (by apply aes_block_array, array_xor).
  apply array_app; [done|]. by apply IH.
Qed.

Lemma cbc_dec_enc key iv n buf :
  array 16 iv → array (16 * n) buf → cbc_dec_loop key iv n (cbc_enc_loop key iv n buf) = buf.
Proof.
  revert iv buf. induction n as [|n IH]; intros iv buf Hi Hb; simpl cbc_enc_loop; simpl cbc_dec_loop.
  { symmetry. apply nil_length_inv, Hb. }
  replace (16 * S n)%nat with (16 + 16 * n)%nat in * by lia.
  destruct (array_take_drop _ _ _ Hb) as [Ht Hd].
  assert (array 16 (aes_block key (xor_bytes (take 16 buf) iv))) as Ho by (by apply aes_block_array, array_xor).
  rewrite take_app_exact, drop_app_exact by apply Ho. rewrite IH by done.
  unfold aes_unblock. rewrite aes_cbc_dec_enc by (by apply array_xor).
  rewrite xor_bytes_cancel by (destruct Ht as [-> _], Hi as [-> _]; done). apply take_drop.
Qed.

Lemma aligned n (buf : list Z) : length buf = (16 * S n)%nat → block_aligned buf.
Proof. intros H. split; [by intros ->|]. rewrite H, Nat.mul_comm. apply Nat.Div0.mod_mul. Qed.

Lemma blocks_of n (buf : list Z) : length buf = (16 * n)%nat → (length buf `div` 16)%nat = n.
Proof. intros ->. rewrite Nat.mul_comm. by apply Nat.div_mul. Qed.

(** What is encrypted is decrypted, of any positive number of blocks. *)
Lemma aes_cbc_roundtrip key iv n buf :
  array 16 iv → array (16 * S n) buf →
  ∃ ct, aes_cbc_encrypt key iv buf = Some ct ∧ array (16 * S n) ct ∧ aes_cbc_decrypt key iv ct = Some buf.
Proof.
  intros Hi Hb. assert (array (16 * S n) (cbc_enc_loop key iv (S n) buf)) as Hc by (by apply cbc_enc_array).
  exists (cbc_enc_loop key iv (S n) buf). unfold aes_cbc_encrypt, aes_cbc_decrypt.
  rewrite !decide_True by (eapply aligned; first [apply Hb|apply Hc]).
  rewrite (blocks_of (S n)) by apply Hb. rewrite (blocks_of (S n)) by apply Hc.
  rewrite cbc_dec_enc by done. done.
Qed.

Lemma aes_cbc_n_roundtrip key iv n buf :
  array 16 iv → array (16 * S n) buf →
  aes_cbc_encrypt key iv buf = Some (aes_cbc_encrypt_n key iv buf) ∧
  array (16 * S n) (aes_cbc_encrypt_n key iv buf) ∧
  aes_cbc_decrypt key iv (aes_cbc_encrypt_n key iv buf) = Some buf.
Proof.
  intros Hi Hb. destruct (aes_cbc_roundtrip key iv n buf Hi Hb) as (ct & He & Ha & Hd).
  unfold aes_cbc_encrypt_n. by rewrite He.
Qed.

Lemma zero_iv_array : array 16 zero_iv.
Proof. apply (bool_decide_unpack _). vm_compute. exact I. Qed.
End cbc.

Lemma strip_zeros_replicate n l : strip_zeros (replicate n 0 ++ l) = strip_zeros l.
Proof. by induction n. Qed.

Lemma strip_m2_padded data n : strip_m2_padding (data ++ [0x80] ++ replicate n 0) = Some (length data).
Proof.
  unfold strip_m2_padding. rewrite !rev_app_distr, <-(assoc_L (++)).
  rewrite (rev_alt (replicate n 0)). change (rev_append (replicate n 0) []) with (reverse (replicate n 0)). rewrite reverse_replicate.
  rewrite strip_zeros_replicate. simpl. by rewrite length_rev.
Qed.
