(* ===== verification/Wire.v ===== *)
(** * The commands of the card on the wire

    [vendor/ntag424/src/commands] and [session]: every APDU the workflows send, as
    the crate builds it, with the checks on the answers; and the session wrappers
    that the workflows call.  [wire_device] at the end is the implementation of the
    interface [NtagDevice] of [Session.v] by this code, over any transport. *)

From S2P Require Import Prelude Str Hex Derivation Picc NtagTypes FileSettings Channel Session.

(** [types/file.rs]. *)
Inductive File := File_CapabilityContainer | File_Ndef | File_Proprietary.
Definition file_no (f : File) : Z :=
  match f with File_CapabilityContainer => 1 | File_Ndef => 2 | File_Proprietary => 3 end.
Definition file_id (f : File) : Z :=
  match f with File_CapabilityContainer => 0xE103 | File_Ndef => 0xE104 | File_Proprietary => 0xE105 end.

Definition BLOCK : nat := 16.
Definition READ_DATA_RESP_CAP : nat := 256.
Definition U24_MAX : Z := 0x00FFFFFF.
Definition WRITE_DATA_MAX_BODY : nat := 248.
Definition PLAIN_READ_CHUNK : nat := 256.
Definition PLAIN_WRITE_CHUNK : nat := 248.
Definition ISO_READ_BINARY_MAX : nat := 256.
Definition ISO_READ_BINARY_CHUNK : nat := 256.
Definition NDEF_APPLICATION_DF_NAME : list Z := [0xD2; 0x76; 0x00; 0x00; 0x85; 0x01; 0x01].
Definition MAX_DF_NAME_LEN : nat := 16.

(** [crc32] of change_key.rs. *)
Definition crc32_bit (crc : Z) : Z :=
  if bool_decide (Z.land crc 1 ≠ 0) then Z.lxor (Z.shiftr crc 1) 0xEDB88320 else Z.shiftr crc 1.
Definition crc32_byte (crc b : Z) : Z := Nat.iter 8 crc32_bit (Z.lxor crc b).
Definition crc32 (data : list Z) : list Z := le_bytes 4 (fold_left crc32_byte data 0xFFFFFFFF).

Section wire.
  Context {C : AesCrypto} {T TE : Type} {AP : Apdu T TE} (compat : bool).

Abbreviation Ch := (Ch (T := T) (TE := TE)).
Abbreviation W := (M T (SessionError (Fault TE))).

(** ** change_key.rs *)

Definition change_key_transmit (key_no : KeyNumber) (plaintext : list Z) (expect_mact : bool) : Ch () :=
  ct ← encrypt_command plaintext;
  mac ← compute_cmd_mac 0xC4 [as_byte key_no] ct;
  resp ← ch_transmit ([0x90; 0xC4; 0x00; 0x00; 0x29; as_byte key_no] ++ ct ++ mac ++ [0x00]);
  native_ok resp ;;
  if expect_mact then verify_response_mac_and_advance compat (ra_sw2 resp) (ra_data resp) ;; mret tt
  else
    ch_ensure (bool_decide (ra_data resp = [])) (SE_UnexpectedLength (Z.of_nat (length (ra_data resp))) 0) ;;
    advance_counter.

Definition change_key_plaintext (new_key : list Z) (version : Z) (old_key : list Z) : list Z :=
  xor_bytes new_key old_key ++ [version] ++ crc32 new_key ++ [0x80] ++ replicate 10 0.
Definition change_master_plaintext (new_key : list Z) (version : Z) : list Z :=
  new_key ++ [version; 0x80] ++ replicate 14 0.

Definition wire_change_key (n : NonMasterKeyNumber) (new_key : list Z) (version : Z) (old_key : list Z) : Ch () :=
  change_key_transmit (key_number_from n) (change_key_plaintext new_key version old_key) true.
Definition wire_change_master_key (new_key : list Z) (version : Z) : Ch () :=
  change_key_transmit Key0 (change_master_plaintext new_key version) false.

(** ** change_file_settings.rs *)

Definition m2_pad (data : list Z) : list Z :=
  let padded_len := (Nat.div (length data + 1 + (BLOCK - 1)) BLOCK * BLOCK)%nat in
  data ++ [0x80] ++ replicate (padded_len - length data - 1) 0.

Definition wire_change_file_settings (file_no : Z) (u : FileSettingsUpdate) : Ch () :=
  raw ← (match encode u (replicate MAX_CHANGE_FILE_SETTINGS_LEN 0) with
         | (Ok raw_len, buf) => mret (take raw_len buf)
         | (Err e, _) => ch_fail (SE_FileSettings e)
         end);
  ct ← encrypt_command (m2_pad raw);
  mac ← compute_cmd_mac 0x5F [file_no] ct;
  let lc := (1 + length ct + MAC_LEN)%nat in
  resp ← ch_transmit ([0x90; 0x5F; 0x00; 0x00; u8 (Z.of_nat lc); file_no] ++ ct ++ mac ++ [0x00]);
  native_ok resp ;;
  verify_response_mac_and_advance compat (ra_sw2 resp) (ra_data resp) ;;
  mret tt.

(** ** get_file_settings.rs, get_key_version.rs *)

Definition wire_get_file_settings (file_no : Z) : W FileSettingsView :=
  resp ← wire_transmit [0x90; 0xF5; 0x00; 0x00; 0x01; file_no; 0x00];
  let status := rc_status (RC_Desfire (ra_sw1 resp) (ra_sw2 resp)) in
  if decide (status = OperationOk) then wire_of (map_err SE_FileSettings (decode (ra_data resp)))
  else fail (SE_ErrorResponse status).

Definition wire_get_file_settings_mac (file_no : Z) : Ch FileSettingsView :=
  plain ← send_mac compat 0xF5 0x00 0x00 [file_no] [];
  match decode plain with Ok v => mret v | Err e => ch_fail (SE_FileSettings e) end.

Definition wire_get_key_version (n : KeyNumber) : Ch Z :=
  plain ← send_mac compat 0x64 0x00 0x00 [as_byte n] [];
  match plain with
  | [v] => mret v
  | _ => ch_fail (SE_UnexpectedLength (Z.of_nat (length plain)) 1)
  end.

(** ** get_version.rs *)

Definition GET_VERSION_CONTINUE : list Z := [0x90; 0xAF; 0x00; 0x00; 0x00].

Definition request_intermediate_part (apdu : list Z) : W (list Z) :=
  resp ← wire_transmit apdu;
  let status := rc_status (RC_Desfire (ra_sw1 resp) (ra_sw2 resp)) in
  if decide (status = AdditionalFrame) then expect_length 7 (ra_data resp)
  else fail (SE_ErrorResponse status).

Definition drive_chain (head : list Z) : W (list Z * list Z * list Z) :=
  part1 ← request_intermediate_part head;
  part2 ← request_intermediate_part GET_VERSION_CONTINUE;
  r3 ← wire_transmit GET_VERSION_CONTINUE;
  let code := RC_Desfire (ra_sw1 r3) (ra_sw2 r3) in
  if rc_ok code then mret (part1, part2, ra_data r3) else fail (SE_ErrorResponse (rc_status code)).

Definition wire_get_version : W Version :=
  parts ← drive_chain [0x90; 0x60; 0x00; 0x00; 0x00];
  let '(part1, part2, last) := parts in
  if decide (length last < 14)%nat then fail (SE_UnexpectedLength (Z.of_nat (length last)) 14)
  else mret (mkVersion part1 part2 (take 14 last)).

(** ** read_data.rs and write_data.rs, plain *)

Definition bad_parameter {A} (parameter : list Z) (value : Z) (reason : list Z) : W A :=
  fail (SE_InvalidCommandParameter parameter value reason).

Definition validate_request (file_no offset length_ : Z) (buf_len : nat) : W () :=
  if decide (0x1F < file_no) then bad_parameter (lit "file_no") file_no (lit "must fit 5 bits")
  else if decide (U24_MAX < offset) then bad_parameter (lit "offset") offset (lit "must fit 24 bits")
  else if decide (U24_MAX < length_) then bad_parameter (lit "length") length_ (lit "must fit 24 bits")
  else if decide (buf_len = 0%nat) then bad_parameter (lit "buf.len()") 0 (lit "must be non-zero")
  else if decide (length_ ≠ 0 ∧ Z.of_nat buf_len < length_) then
    bad_parameter (lit "buf.len()") (Z.of_nat buf_len) (lit "must be at least the requested length")
  else mret tt.

Definition data_header (file_no offset length_ : Z) : list Z := [file_no] ++ le_bytes 3 offset ++ le_bytes 3 length_.

Definition want_plain_bytes (length_ : Z) (buf_len : nat) : nat :=
  Nat.min (if decide (length_ = 0) then buf_len else Z.to_nat length_) READ_DATA_RESP_CAP.

(** The count and the buffer. *)
Definition read_data_plain (file_no offset length_ : Z) (buf : list Z) : W (nat * list Z) :=
  validate_request file_no offset length_ (length buf) ;;
  let want := want_plain_bytes length_ (length buf) in
  resp ← wire_transmit ([0x90; 0xAD; 0x00; 0x00; 0x07] ++ data_header file_no offset length_ ++ [0x00]);
  let status := rc_status (RC_Desfire (ra_sw1 resp) (ra_sw2 resp)) in
  if decide (status = OperationOk) then
    let n := Nat.min (Nat.min (length (ra_data resp)) want) (length buf) in
    mret (n, copy_at 0 (take n (ra_data resp)) buf)
  else fail (SE_ErrorResponse status).

Definition validate_header (file_no offset : Z) (len : nat) : W () :=
  if decide (0x1F < file_no) then bad_parameter (lit "file_no") file_no (lit "must fit 5 bits")
  else if decide (U24_MAX < offset) then bad_parameter (lit "offset") offset (lit "must fit 24 bits")
  else if decide (len = 0%nat) then bad_parameter (lit "data.len()") 0 (lit "must be non-zero")
  else if decide (U24_MAX < Z.of_nat len) then
    bad_parameter (lit "data.len()") (Z.of_nat len) (lit "must fit the 24-bit Length field")
  else mret tt.

Definition validate_body_len (body_len : nat) : W () :=
  if decide (MAX_APDU_BODY < body_len)%nat then fail (SE_ApduBodyTooLarge (Z.of_nat body_len) (Z.of_nat MAX_APDU_BODY))
  else mret tt.

Definition write_data_plain (file_no offset : Z) (data : list Z) : W () :=
  validate_header file_no offset (length data) ;;
  validate_body_len (7 + length data) ;;
  resp ← wire_transmit ([0x90; 0x8D; 0x00; 0x00; u8 (7 + Z.of_nat (length data))] ++
           data_header file_no offset (Z.of_nat (length data)) ++ data ++ [0x00]);
  let status := rc_status (RC_Desfire (ra_sw1 resp) (ra_sw2 resp)) in
  if decide (status = OperationOk) then mret tt else fail (SE_ErrorResponse status).

(** ** iso_select_file.rs, iso_read_binary.rs *)

Definition iso_expect_ok (resp : Rapdu) : W () :=
  let code := RC_Iso (ra_sw1 resp) (ra_sw2 resp) in
  if rc_ok code then mret tt else fail (SE_ErrorResponse (rc_status code)).

Definition iso_select_df_by_name (df_name : list Z) : W () :=
  if decide (1 ≤ length df_name ≤ MAX_DF_NAME_LEN)%nat then
    resp ← wire_transmit ([0x00; 0xA4; 0x04; 0x00; Z.of_nat (length df_name)] ++ df_name ++ [0x00]);
    iso_expect_ok resp
  else fail (SE_Transport Fault_Panic).

Definition iso_select_ef_by_fid (fid : Z) : W () :=
  resp ← wire_transmit [0x00; 0xA4; 0x00; 0x0C; 0x02; u8 (Z.shiftr fid 8); u8 fid];
  iso_expect_ok resp.

Definition iso_read_binary (short_file_id : option Z) (offset : Z) (buf : list Z) : W (nat * list Z) :=
  if decide (buf = []) then bad_parameter (lit "buf.len()") 0 (lit "must be non-zero")
  else
    let want := Nat.min (length buf) ISO_READ_BINARY_MAX in
    let le := if decide (want = ISO_READ_BINARY_MAX) then 0 else Z.of_nat want in
    p12 ← (match short_file_id with
           | Some sfid =>
               if decide (1 ≤ sfid ≤ 0x1E) then
                 if decide (0xFF < offset) then
                   bad_parameter (lit "offset") offset (lit "must be <= 0xFF with a short FileID")
                 else mret (Z.lor 0x80 sfid, u8 offset)
               else bad_parameter (lit "short_file_id") sfid (lit "must be 0x01..=0x1E")
           | None =>
               if decide (0x7FFF < offset) then bad_parameter (lit "offset") offset (lit "must be <= 0x7FFF")
               else mret (u8 (Z.shiftr offset 8), u8 offset)
           end);
    resp ← wire_transmit [0x00; 0xB0; p12.1; p12.2; le];
    iso_expect_ok resp ;;
    if decide (want < length (ra_data resp))%nat
    then fail (SE_UnexpectedLength (Z.of_nat (length (ra_data resp))) (Z.of_nat want))
    else mret (length (ra_data resp), copy_at 0 (ra_data resp) buf).

(** ** session/unauthenticated.rs *)

Record Sess (S : Type) := mkSess { se_state : S; se_ndef_selected : bool; se_ef_selected : option Z }.
#[global] Arguments mkSess {S} _ _ _.
#[global] Arguments se_state {S} _.
#[global] Arguments se_ndef_selected {S} _.
#[global] Arguments se_ef_selected {S} _.

Definition session_new : Sess () := mkSess tt false None.

(** A method on [&mut self]. *)
Abbreviation U A := (M (Sess () * T) (SessionError (Fault TE)) A).

Definition u_lift {A} (m : W A) : U A := λ w, let '(r, t) := m w.2 in (r, (w.1, t)).
Definition u_set (s : Sess ()) : U () := λ w, (Ok tt, (s, w.2)).
Definition u_get : U (Sess ()) := λ w, (Ok w.1, w).

Definition select_ndef_application : U () :=
  s ← u_get;
  if se_ndef_selected s then mret tt
  else
    u_lift (iso_select_df_by_name NDEF_APPLICATION_DF_NAME) ;;
    u_set (mkSess tt true None).

Definition select_file (file : File) : U () :=
  select_ndef_application ;;
  s ← u_get;
  if decide (se_ef_selected s = Some (file_id file)) then mret tt
  else
    u_lift (iso_select_ef_by_fid (file_id file)) ;;
    u_set (mkSess tt (se_ndef_selected s) (Some (file_id file))).

(** The buffer is written chunk by chunk, and keeps what was read when a later
    chunk fails.  A pass that does not end the loop reads at least one byte, so the
    length of the buffer is enough fuel. *)
Fixpoint read_iso_loop (fuel : nat) (offset : Z) (total : nat) (buf : list Z) (t : T) :
    result nat (SessionError (Fault TE)) * list Z * T :=
  if decide (length buf ≤ total)%nat then (Ok total, buf, t)
  else match fuel with
  | O => (Err (SE_Transport Fault_Panic), buf, t)
  | S fuel =>
      let want := Nat.min (length buf - total) ISO_READ_BINARY_CHUNK in
      let abs := offset + Z.of_nat total in
      if decide (0x7FFF < abs) then
        (Err (SE_InvalidCommandParameter (lit "offset") abs (lit "must be <= 0x7FFF")), buf, t)
      else match iso_read_binary None abs (take want (drop total buf)) t with
      | (Err e, t) => (Err e, buf, t)
      | (Ok (n, part), t) =>
          let buf := copy_at total part buf in
          if decide (n < want)%nat then (Ok (total + n)%nat, buf, t)
          else read_iso_loop fuel offset (total + n)%nat buf t
      end
  end.

Definition session_read_unauthenticated (file : File) (s : Sess ()) (offset : Z) (buf : list Z) (t : T) :
    result nat (SessionError (Fault TE)) * list Z * Sess () * T :=
  match select_file file (s, t) with
  | (Err e, (s, t)) => (Err e, buf, s, t)
  | (Ok _, (s, t)) =>
      if decide (buf = []) then
        let '(r, t) := iso_read_binary None offset buf t in (x ←? r; Ok x.1, buf, s, t)
      else
        let '(r, buf, t) := read_iso_loop (length buf) offset 0 buf t in (r, buf, s, t)
  end.

Definition session_get_file_settings (file : File) : U FileSettingsView :=
  select_ndef_application ;; u_lift (wire_get_file_settings (file_no file)).

Definition session_get_version (s : Sess ()) : W Version := wire_get_version.

Definition session_authenticate_aes (s : Sess ()) (n : KeyNumber) (key rnd_a : list Z) : W (Sess Authenticated) :=
  λ t, match select_ndef_application (s, t) with
       | (Err e, (_, t)) => (Err e, t)
       | (Ok _, (s, t)) =>
           match authenticate_ev2_first n key rnd_a t with
           | (Err e, t) => (Err e, t)
           | (Ok r, t) => (Ok (mkSess (with_auth_result r n) true (se_ef_selected s)), t)
           end
       end.

(** [get_selected_uid] of session/mod.rs. *)
Definition session_get_selected_uid (s : Sess ()) : W Uid :=
  data ← lift_err SE_Transport apdu_get_uid;
  if decide (length data = 7)%nat then mret (Uid_Fixed data)
  else if decide (length data = 4)%nat then mret (Uid_Random data)
  else fail (SE_UnexpectedLength (Z.of_nat (length data)) 7).

(** ** session/authenticated.rs *)

Definition ch_lift {A} (m : W A) : Ch A := λ w, let '(r, t) := m w.2 in (r, (w.1, t)).

Definition plain_advance : Ch () := if compat then mret tt else advance_counter.

(** [&mut buf[a..b]]; [None] is a panic. *)
Fixpoint read_plain_loop (fuel : nat) (file_no offset remaining : Z) (total : nat) (buf : list Z) :
    Ch (nat * list Z) :=
  if decide (remaining ≤ 0) then mret (total, buf)
  else match fuel with
  | O => ch_panic
  | S fuel =>
      let chunk := Z.min remaining (Z.of_nat PLAIN_READ_CHUNK) in
      part ← ch_of (get_range buf total (total + Z.to_nat chunk));
      r ← ch_lift (read_data_plain file_no offset chunk part);
      plain_advance ;;
      let buf := copy_at total r.2 buf in
      if decide (Z.of_nat r.1 < chunk) then mret ((total + r.1)%nat, buf)
      else read_plain_loop fuel file_no (u32 (offset + chunk)) (remaining - chunk) (total + r.1) buf
  end.

Definition read_file_plain_chunked (file_no offset length_ : Z) (buf : list Z) : Ch (nat * list Z) :=
  if decide (length_ = 0) then
    r ← ch_lift (read_data_plain file_no offset length_ buf);
    plain_advance ;; mret r
  else read_plain_loop (Z.to_nat length_) file_no offset length_ 0 buf.

Fixpoint write_plain_loop (fuel : nat) (file_no offset : Z) (data : list Z) : Ch () :=
  match data with
  | [] => mret tt
  | _ =>
      match fuel with
      | O => ch_panic
      | S fuel =>
          let part := take PLAIN_WRITE_CHUNK data in
          ch_lift (write_data_plain file_no offset part) ;;
          plain_advance ;;
          write_plain_loop fuel file_no (u32 (offset + Z.of_nat (length part))) (drop PLAIN_WRITE_CHUNK data)
      end
  end.

Definition write_file_plain_chunked (file_no offset : Z) (data : list Z) : Ch () :=
  if decide (data = []) then ch_lift (bad_parameter (lit "data.len()") 0 (lit "must be non-zero"))
  else write_plain_loop (length data) file_no offset data.

(** A method that takes the session and returns it: on an error it is gone. *)
Definition with_session {A} (s : Sess Authenticated) (m : Ch A) : W (A * Sess Authenticated) := λ t,
  match m (se_state s, t) with
  | (Ok a, (st, t)) => (Ok (a, mkSess st (se_ndef_selected s) (se_ef_selected s)), t)
  | (Err e, (_, t)) => (Err e, t)
  end.
Definition with_session_ (s : Sess Authenticated) (m : Ch ()) : W (Sess Authenticated) :=
  r ← with_session s m; mret r.2.
End wire.

(** ** The implementation of the session interface

    The workflows read and write the NDEF file only. *)
Section device.
  Context {C : AesCrypto} {T TE : Type} {AP : Apdu T TE} (compat : bool).

Definition wire_device : NtagDevice T (Fault TE) := {|
  USess := Sess ();
  ASess := Sess Authenticated;
  session_default := session_new;
  get_selected_uid := session_get_selected_uid;
  get_version := session_get_version;
  get_file_settings_u s t :=
    let '(r, (s, t)) := session_get_file_settings File_Ndef (s, t) in (r, s, t);
  read_file_unauthenticated := session_read_unauthenticated File_Ndef;
  authenticate_aes := session_authenticate_aes;
  get_file_settings s := with_session s (wire_get_file_settings_mac compat (file_no File_Ndef));
  change_file_settings s u := with_session_ s (wire_change_file_settings compat (file_no File_Ndef) u);
  write_file_plain s off d := with_session_ s (write_file_plain_chunked compat (file_no File_Ndef) off d);
  read_file_plain s off len buf :=
    r ← with_session s (read_file_plain_chunked compat (file_no File_Ndef) off len buf);
    mret (r.1.1, r.1.2, r.2);
  change_key s n k ver old := with_session_ s (wire_change_key compat n k ver old);
  get_key_version s n := with_session s (wire_get_key_version compat n);
  change_master_key s k ver :=
    _ ← with_session_ s (wire_change_master_key compat k ver); mret session_new;
|}.
End device.
