(* ===== verification/Link.v ===== *)
(** * One end of the channel, step by step

    What both the emulated card ([EmuLink]) and the file card of [WireFiles] build on:
    [runs m w a w'] says that a computation ends well, with value and final state;
    the MACs of a command and of its answer, the encryption of a command, and the
    runs of the channel's own operations, over any transport. *)

From S2P Require Import Prelude Str Hex Derivation Picc NtagTypes FileSettings Channel Session Wire.

(** ** Running to a result *)

Definition runs {S E A} (m : M S E A) (w : S) (a : A) (w' : S) : Prop := m w = (Ok a, w').

Section runs.
  Context {S E : Type}.

Lemma runs_bind {A B} (m : M S E A) (k : A → M S E B) w a w1 b w2 :
  runs m w a w1 → runs (k a) w1 b w2 → runs (m ≫= k) w b w2.
Proof. unfold runs, mbind, M_bind. by intros ->. Qed.

Lemma runs_ret {A} (a : A) w : runs (S := S) (E := E) (mret a) w a w.
Proof. done. Qed.

Lemma runs_wp {A} (m : M S E A) w a w' (Q : result A E → S → Prop) : runs m w a w' → Q (Ok a) w' → wp m Q w.
Proof. unfold runs, wp. by intros ->. Qed.
End runs.

Lemma get_range_mid {A} (a m b : list A) i j :
  i = length a → j = (length a + length m)%nat → get_range (a ++ m ++ b) i j = Some m.
Proof.
  intros -> ->. unfold get_range. rewrite decide_True by (rewrite !length_app; lia).
  rewrite drop_app_length. f_equal. replace (_ - _)%nat with (length m) by lia. apply take_app_length.
Qed.

Lemma sub_list_mid (a m b : list Z) i j :
  i = length a → j = (length a + length m)%nat → sub_list i j (a ++ m ++ b) = m.
Proof.
  intros -> ->. unfold sub_list. rewrite drop_app_length. replace (_ - _)%nat with (length m) by lia.
  apply take_app_length.
Qed.

Lemma bytes_singleton b : is_u8 b → bytes [b].
Proof. intros. by apply Forall_singleton. Qed.

Lemma m2_pad_array raw : bytes raw → ∃ n k, array (16 * S n) (m2_pad raw) ∧
  m2_pad raw = raw ++ [0x80] ++ replicate k 0 ∧ (16 * n ≤ length raw)%nat.
Proof.
  intros Hb. unfold m2_pad, BLOCK. set (n := Nat.div (length raw) 16).
  assert (Nat.div (length raw + 1 + (16 - 1)) 16 = S n) as ->.
  { unfold n. replace (length raw + 1 + (16 - 1))%nat with (length raw + 1 * 16)%nat by lia.
    rewrite Nat.div_add by lia. lia. }
  pose proof (Nat.div_mod_eq (length raw) 16). pose proof (Nat.mod_upper_bound (length raw) 16).
  exists n, (S n * 16 - length raw - 1)%nat. split; [|split; [done|lia]].
  split; [rewrite !length_app, length_replicate; simpl length; lia|].
  repeat apply bytes_app; [done|by apply bytes_singleton|].
  apply Forall_replicate. done.
Qed.

Lemma le_val_u24 v : 0 ≤ v ≤ U24_MAX → le_val (le_bytes 3 v) = v.
Proof. intros. rewrite le_val_bytes. apply Z.mod_small. unfold U24_MAX in *. lia. Qed.

(** ** MACs, encryption and the operations of the channel *)

Section link.
  Context {C : AesCrypto} `{!AesLaws C} {T TE : Type} (compat : bool).

Definition cmd_mac (s : Authenticated) (cmd : Z) (header data : list Z) : list Z :=
  suite_mac (an_suite s) ([cmd] ++ le_bytes 2 (an_cmd_counter s) ++ an_ti s ++ header ++ data).
Definition rsp_mac (s : Authenticated) (data : list Z) : list Z :=
  suite_mac (an_suite s) ([0x00] ++ le_bytes 2 (u16 (an_cmd_counter s + 1)) ++ an_ti s ++ data).

Lemma cmd_mac_length s cmd header data : length (cmd_mac s cmd header data) = 8%nat.
Proof. done. Qed.
Lemma rsp_mac_length s data : length (rsp_mac s data) = 8%nat.
Proof. done. Qed.

Definition cmd_iv (s : Authenticated) : list Z := suite_iv (an_suite s) Dir_Command (an_ti s) (an_cmd_counter s).

Lemma suite_iv_array k d ti ctr : array 4 ti → array 16 (suite_iv k d ti ctr).
Proof.
  intros H. apply aes_block_array.
  apply (array_app 2 14); [destruct d; apply (bool_decide_unpack _); vm_compute; exact I|].
  apply (array_app 4 10); [done|]. apply (array_app 2 8); split; auto with bolty.
Qed.

Lemma cmd_iv_array s : array 4 (an_ti s) → array 16 (cmd_iv s).
Proof. apply suite_iv_array. Qed.

Definition sealed (s : Authenticated) (plain : list Z) : list Z := aes_cbc_encrypt_n (as_enc_key (an_suite s)) (cmd_iv s) plain.

Lemma sealed_array s n plain : array 4 (an_ti s) → array (16 * S n) plain → array (16 * S n) (sealed s plain).
Proof.
  intros Ht Hp. by apply (aes_cbc_n_roundtrip (as_enc_key (an_suite s)) (cmd_iv s) n plain (cmd_iv_array _ Ht) Hp).
Qed.

Lemma runs_encrypt s n plain (w : T) : array 4 (an_ti s) → array (16 * S n) plain →
  runs (encrypt_command plain : Ch (T := T) (TE := TE) _) (s, w) (sealed s plain) (s, w).
Proof.
  intros Ht Hp. unfold runs, encrypt_command, mbind, M_bind. simpl. unfold suite_encrypt. fold (cmd_iv s).
  by destruct (aes_cbc_n_roundtrip (as_enc_key (an_suite s)) (cmd_iv s) n plain (cmd_iv_array _ Ht) Hp) as (-> & _).
Qed.

Lemma runs_mac s cmd header data (w : T) : array 4 (an_ti s) → (length header + length data ≤ 255)%nat →
  runs (compute_cmd_mac cmd header data : Ch (T := T) (TE := TE) _) (s, w) (cmd_mac s cmd header data) (s, w).
Proof.
  intros [Ht _] Hl. unfold runs, compute_cmd_mac, mbind, M_bind. simpl. unfold fill_mac_input.
  rewrite decide_True; [done|]. rewrite !length_app, Ht, le_bytes_length. simpl. unfold MAC_INPUT_CAP, MAX_APDU_BODY. lia.
Qed.

Lemma runs_ch_lift {A} (m : M T (SessionError (Fault TE)) A) (s : Authenticated) w a w' :
  runs m w a w' → runs (ch_lift m : Ch (T := T) (TE := TE) A) (s, w) a (s, w').
Proof. unfold runs, ch_lift. simpl. by intros ->. Qed.

Lemma runs_native data s (w : T) : runs (native_ok (mkRapdu data 0x91 0x00) : Ch (T := T) (TE := TE) _) (s, w) tt (s, w).
Proof. done. Qed.

Lemma runs_verify_response s data (w : T) : array 4 (an_ti s) → (length data ≤ 255)%nat →
  runs (verify_response_mac_and_advance compat 0 (data ++ rsp_mac s data) : Ch (T := T) (TE := TE) _) (s, w) data (an_advance s, w).
Proof.
  intros [Ht _] Hl. unfold verify_response_mac_and_advance.
  rewrite length_app, rsp_mac_length, decide_False by (unfold MAC_LEN; lia).
  replace (length data + 8 - MAC_LEN)%nat with (length data) by (unfold MAC_LEN; lia).
  rewrite take_app_length, drop_app_length.
  unfold runs, mbind, M_bind. simpl. unfold fill_mac_input. rewrite decide_True; simpl.
  2:{ rewrite !length_app, Ht. simpl. unfold MAC_INPUT_CAP, MAX_APDU_BODY. lia. }
  rewrite decide_True; [done|]. by rewrite app_nil_r.
Qed.
End link.
