(* ===== verification/EmuCard.v ===== *)
(** * The emulated card

    [apps/bolty-cli/src/mock_transport.rs]: the card the command line is tested
    against.  It keeps keys, versions, files and a secure channel of its own, checks
    the MAC of every authenticated command and decrypts it.  An assertion that fails
    is [Fault_Panic]; the error type of the transport is empty. *)

From S2P Require Import Prelude Str Hex Derivation Picc NtagTypes FileSettings Channel.

Definition EMU_UID : list Z := [0x04; 0x10; 0x65; 0xFA; 0x96; 0x73; 0x80].
Definition EMU_TI : list Z := [0x08; 0x5B; 0xC9; 0x41].
Definition DEFAULT_FILE_SETTINGS : list Z := [0x00; 0x00; 0xE0; 0xEE; 0x00; 0x01; 0x00].
Definition VERSION_PART1 : list Z := [0x04; 0x04; 0x08; 0x30; 0x00; 0x11; 0x05].
Definition VERSION_PART2 : list Z := [0x04; 0x04; 0x02; 0x01; 0x02; 0x11; 0x05].
Definition VERSION_PART3 : list Z :=
  [0x04; 0x10; 0x65; 0xFA; 0x96; 0x73; 0x80; 0xCF; 0x5D; 0x90; 0x45; 0x10; 0x46; 0x21].
Definition NDEF_DF_SELECT : list Z :=
  [0x00; 0xA4; 0x04; 0x00; 0x07; 0xD2; 0x76; 0x00; 0x00; 0x85; 0x01; 0x01; 0x00].
Definition NDEF_EF_SELECT : list Z := [0x00; 0xA4; 0x00; 0x0C; 0x02; 0xE1; 0x04].
Definition EMU_RND_B : list Z :=
  [0xB9; 0xE2; 0xFC; 0x78; 0x9B; 0x64; 0xBF; 0x23; 0x7C; 0xCC; 0xAA; 0x20; 0xEC; 0x7E; 0x6E; 0x48].

Inductive MockTransportError := .

Record PendingAuth := mkPendingAuth { pa_key_no : Z; pa_key : list Z; pa_rnd_b : list Z }.
Record SessionState := mkSessionState {
  st_enc_key : list Z; st_mac_key : list Z; st_ti : list Z; st_cmd_counter : Z }.

Record MockTransport := mkMock {
  mt_uid : list Z;
  mt_keys : list (list Z);
  mt_key_versions : list Z;
  mt_ndef : list Z;
  mt_file_settings : list Z;
  mt_ndef_selected : bool;
  mt_ndef_ef_selected : bool;
  mt_pending_auth : option PendingAuth;
  mt_session : option SessionState;
  mt_version_step : Z;
  mt_apdu_log : list (list Z) }.

Definition mock_with_state (keys : list (list Z)) (versions ndef file_settings : list Z) : MockTransport :=
  mkMock EMU_UID keys versions ndef file_settings false false None None 0 [].
Definition mock_new : MockTransport :=
  mock_with_state (replicate 5 (replicate 16 0)) (replicate 5 0) [] DEFAULT_FILE_SETTINGS.
Definition set_uid (uid : list Z) (w : MockTransport) : MockTransport :=
  mkMock uid (mt_keys w) (mt_key_versions w) (mt_ndef w) (mt_file_settings w) (mt_ndef_selected w)
    (mt_ndef_ef_selected w) (mt_pending_auth w) (mt_session w) (mt_version_step w) (mt_apdu_log w).

(** Assignments to single fields. *)
Definition put_keys (i : nat) (k : list Z) (v : Z) (w : MockTransport) : MockTransport :=
  mkMock (mt_uid w) (<[i:=k]> (mt_keys w)) (<[i:=v]> (mt_key_versions w)) (mt_ndef w) (mt_file_settings w)
    (mt_ndef_selected w) (mt_ndef_ef_selected w) (mt_pending_auth w) (mt_session w) (mt_version_step w) (mt_apdu_log w).
Definition put_ndef (d : list Z) (w : MockTransport) : MockTransport :=
  mkMock (mt_uid w) (mt_keys w) (mt_key_versions w) d (mt_file_settings w) (mt_ndef_selected w)
    (mt_ndef_ef_selected w) (mt_pending_auth w) (mt_session w) (mt_version_step w) (mt_apdu_log w).
Definition put_file_settings (d : list Z) (w : MockTransport) : MockTransport :=
  mkMock (mt_uid w) (mt_keys w) (mt_key_versions w) (mt_ndef w) d (mt_ndef_selected w)
    (mt_ndef_ef_selected w) (mt_pending_auth w) (mt_session w) (mt_version_step w) (mt_apdu_log w).
Definition put_selected (df ef : bool) (w : MockTransport) : MockTransport :=
  mkMock (mt_uid w) (mt_keys w) (mt_key_versions w) (mt_ndef w) (mt_file_settings w) df
    ef (mt_pending_auth w) (mt_session w) (mt_version_step w) (mt_apdu_log w).
Definition put_pending (p : option PendingAuth) (w : MockTransport) : MockTransport :=
  mkMock (mt_uid w) (mt_keys w) (mt_key_versions w) (mt_ndef w) (mt_file_settings w) (mt_ndef_selected w)
    (mt_ndef_ef_selected w) p (mt_session w) (mt_version_step w) (mt_apdu_log w).
Definition put_session (s : option SessionState) (w : MockTransport) : MockTransport :=
  mkMock (mt_uid w) (mt_keys w) (mt_key_versions w) (mt_ndef w) (mt_file_settings w) (mt_ndef_selected w)
    (mt_ndef_ef_selected w) (mt_pending_auth w) s (mt_version_step w) (mt_apdu_log w).
Definition put_version_step (n : Z) (w : MockTransport) : MockTransport :=
  mkMock (mt_uid w) (mt_keys w) (mt_key_versions w) (mt_ndef w) (mt_file_settings w) (mt_ndef_selected w)
    (mt_ndef_ef_selected w) (mt_pending_auth w) (mt_session w) n (mt_apdu_log w).
Definition put_log (apdu : list Z) (w : MockTransport) : MockTransport :=
  mkMock (mt_uid w) (mt_keys w) (mt_key_versions w) (mt_ndef w) (mt_file_settings w) (mt_ndef_selected w)
    (mt_ndef_ef_selected w) (mt_pending_auth w) (mt_session w) (mt_version_step w) (mt_apdu_log w ++ [apdu]).

(** ** Crypto helpers of the card *)

Section emu.
  Context {C : AesCrypto}.

Definition emu_session_vector_aes (label rnd_a rnd_b : list Z) : list Z :=
  let sv := replicate 32 0 in
  let sv := copy_at 0 label sv in
  let sv := copy_at 2 [0x00; 0x01; 0x00; 0x80] sv in
  let sv := copy_at 6 (sub_list 0 2 rnd_a) sv in
  let sv := fold_left (λ sv i, <[(8 + i)%nat := Z.lxor (nth (2 + i) rnd_a 0) (nth i rnd_b 0)]> sv) (seq 0 6) sv in
  let sv := copy_at 14 (sub_list 6 16 rnd_b) sv in
  copy_at 24 (sub_list 8 16 rnd_a) sv.

(** [(enc_key, mac_key)]. *)
Definition derive_session_keys (key rnd_a rnd_b : list Z) : list Z * list Z :=
  (aes_cmac key (emu_session_vector_aes [0xA5; 0x5A] rnd_a rnd_b),
   aes_cmac key (emu_session_vector_aes [0x5A; 0xA5] rnd_a rnd_b)).

Definition emu_truncate_mac (full : list Z) : list Z := (λ i, nth (2 * i + 1) full 0) <$> seq 0 8.

Definition compute_command_mac (s : SessionState) (cmd : Z) (header data : list Z) : list Z :=
  emu_truncate_mac (aes_cmac (st_mac_key s)
    ([cmd] ++ le_bytes 2 (st_cmd_counter s) ++ st_ti s ++ header ++ data)).

Definition compute_response_mac (s : SessionState) (data : list Z) : list Z :=
  emu_truncate_mac (aes_cmac (st_mac_key s)
    ([0x00] ++ le_bytes 2 (u16 (st_cmd_counter s + 1)) ++ st_ti s ++ data)).

Definition command_iv (enc_key ti : list Z) (cmd_counter : Z) : list Z :=
  let input := replicate 16 0 in
  let input := copy_at 0 [0xA5; 0x5A] input in
  let input := copy_at 2 ti input in
  let input := copy_at 6 (le_bytes 2 cmd_counter) input in
  aes_block enc_key input.

(** The loops of the CBC functions are those of suite.rs; here a length that is not
    a positive multiple of 16 is an assertion. *)
Definition decrypt_command (s : SessionState) (buf : list Z) : option (list Z) :=
  aes_cbc_decrypt (st_enc_key s) (command_iv (st_enc_key s) (st_ti s) (st_cmd_counter s)) buf.

(** ** Handlers *)

Definition Em (A : Type) : Type := M MockTransport (Fault MockTransportError) A.

Definition em_panic {A} : Em A := fail Fault_Panic.
Definition em_of {A} (o : option A) : Em A := match o with Some a => mret a | None => em_panic end.
Definition em_assert (c : bool) : Em () := if c then mret tt else em_panic.
Definition em_gets {A} (f : MockTransport → A) : Em A := λ w, (Ok (f w), w).
Definition em_modify (f : MockTransport → MockTransport) : Em () := λ w, (Ok tt, f w).

Definition em_at (apdu : list Z) (i : nat) : Em Z := em_of (apdu !! i).
Definition em_is (apdu : list Z) (i : nat) (b : Z) : Em () := v ← em_at apdu i; em_assert (bool_decide (v = b)).
Definition em_prefix (apdu head : list Z) : Em () :=
  h ← em_of (get_range apdu 0 (length head)); em_assert (bool_decide (h = head)).
Definition em_ends_in_zero (apdu : list Z) : Em () :=
  b ← em_of (last apdu); em_assert (bool_decide (b = 0)).

Definition session_ : Em SessionState := s ← em_gets mt_session; em_of s.

Definition require_ndef_selected : Em () := b ← em_gets mt_ndef_selected; em_assert b.

Definition emu_ok (data : list Z) : Rapdu := mkRapdu data 0x91 0x00.
Definition iso_ok : Rapdu := mkRapdu [] 0x90 0x00.

Definition step_counter : Em () :=
  s ← session_;
  em_modify (put_session (Some (mkSessionState (st_enc_key s) (st_mac_key s) (st_ti s) (u16 (st_cmd_counter s + 1))))).

Definition handle_auth_part1 (apdu : list Z) : Em Rapdu :=
  require_ndef_selected ;;
  em_assert (bool_decide (length apdu = 8%nat ∨ length apdu = 11%nat)) ;;
  em_is apdu 0 0x90 ;;
  em_is apdu 1 0x71 ;;
  key_no ← em_at apdu 5;
  em_assert (bool_decide (key_no < 5)) ;;
  keys ← em_gets mt_keys;
  key ← em_of (keys !! Z.to_nat key_no);
  enc ← em_of (aes_cbc_encrypt key zero_iv EMU_RND_B);
  em_modify (put_pending (Some (mkPendingAuth key_no key EMU_RND_B))) ;;
  mret (mkRapdu enc 0x91 0xAF).

Definition handle_auth_part2 (apdu : list Z) : Em Rapdu :=
  p ← em_gets mt_pending_auth;
  em_modify (put_pending None) ;;
  pending ← em_of p;
  em_assert (bool_decide (length apdu = 38%nat)) ;;
  em_prefix apdu [0x90; 0xAF; 0x00; 0x00; 0x20] ;;
  em_is apdu 37 0x00 ;;
  ciphertext ← em_of (aes_cbc_decrypt (pa_key pending) zero_iv (sub_list 5 37 apdu));
  let rnd_a := sub_list 0 16 ciphertext in
  let rotated_rnd_b := sub_list 1 16 (pa_rnd_b pending) ++ sub_list 0 1 (pa_rnd_b pending) in
  if decide (drop 16 ciphertext ≠ rotated_rnd_b) then mret (mkRapdu [] 0x91 0xAE)
  else
    let plaintext := EMU_TI ++ sub_list 1 16 rnd_a ++ sub_list 0 1 rnd_a ++ replicate 12 0 in
    response ← em_of (aes_cbc_encrypt (pa_key pending) zero_iv plaintext);
    let '(enc_key, mac_key) := derive_session_keys (pa_key pending) rnd_a (pa_rnd_b pending) in
    em_modify (put_session (Some (mkSessionState enc_key mac_key EMU_TI 0))) ;;
    mret (emu_ok response).

Definition verify_request_mac (cmd : Z) (header data mac : list Z) : Em () :=
  s ← session_; em_assert (bool_decide (mac = compute_command_mac s cmd header data)).

Definition response_with_mac (data : list Z) : Em Rapdu :=
  s ← session_;
  step_counter ;;
  mret (emu_ok (data ++ compute_response_mac s data)).

Definition handle_get_version_start : Em Rapdu :=
  em_modify (put_version_step 1) ;; mret (mkRapdu VERSION_PART1 0x91 0xAF).

Definition handle_get_version_continue : Em Rapdu :=
  n ← em_gets mt_version_step;
  if decide (n = 1) then em_modify (put_version_step 2) ;; mret (mkRapdu VERSION_PART2 0x91 0xAF)
  else if decide (n = 2) then em_modify (put_version_step 0) ;; mret (mkRapdu VERSION_PART3 0x91 0x00)
  else em_panic.

Definition handle_get_file_settings_plain (apdu : list Z) : Em Rapdu :=
  require_ndef_selected ;;
  em_assert (bool_decide (length apdu = 7%nat)) ;;
  em_prefix apdu [0x90; 0xF5; 0x00; 0x00; 0x01] ;;
  em_is apdu 5 0x02 ;;
  em_is apdu 6 0x00 ;;
  fs ← em_gets mt_file_settings;
  mret (emu_ok fs).

Definition handle_get_file_settings_mac (apdu : list Z) : Em Rapdu :=
  require_ndef_selected ;;
  em_assert (bool_decide (length apdu = 15%nat)) ;;
  em_prefix apdu [0x90; 0xF5; 0x00; 0x00; 0x09] ;;
  em_is apdu 5 0x02 ;;
  em_is apdu 14 0x00 ;;
  verify_request_mac 0xF5 (sub_list 5 6 apdu) [] (sub_list 6 14 apdu) ;;
  body ← em_gets mt_file_settings;
  response_with_mac body.

Definition update_file_settings_from_patch (patch : list Z) : Em () :=
  fs ← em_gets mt_file_settings;
  file_type ← em_at fs 0;
  size ← em_of (get_range fs 4 7);
  head ← em_of (get_range patch 0 3);
  em_modify (put_file_settings ([file_type] ++ head ++ size ++ drop 3 patch)).

Definition handle_change_file_settings (apdu : list Z) : Em Rapdu :=
  require_ndef_selected ;;
  em_assert (bool_decide (31 ≤ length apdu)%nat) ;;
  em_is apdu 0 0x90 ;;
  em_is apdu 1 0x5F ;;
  em_is apdu 5 0x02 ;;
  em_ends_in_zero apdu ;;
  let body := sub_list 5 (length apdu - 1) apdu in
  let payload := take (length body - 8) body in
  let mac := drop (length body - 8) body in
  let ciphertext := drop 1 payload in
  verify_request_mac 0x5F (take 1 payload) ciphertext mac ;;
  s ← session_;
  plaintext ← em_of (decrypt_command s ciphertext);
  patch_len ← em_of (strip_m2_padding plaintext);
  update_file_settings_from_patch (take patch_len plaintext) ;;
  response_with_mac [].

Definition handle_change_key (apdu : list Z) : Em Rapdu :=
  require_ndef_selected ;;
  em_is apdu 0 0x90 ;;
  em_is apdu 1 0xC4 ;;
  em_is apdu 4 0x29 ;;
  em_ends_in_zero apdu ;;
  key_no ← em_at apdu 5;
  em_assert (bool_decide (key_no < 5)) ;;
  ciphertext ← em_of (get_range apdu 6 38);
  mac ← em_of (get_range apdu 38 46);
  verify_request_mac 0xC4 [key_no] ciphertext mac ;;
  s ← session_;
  plaintext ← em_of (decrypt_command s ciphertext);
  let version := nth 16 plaintext 0 in
  if decide (key_no = 0) then
    em_modify (put_keys 0 (take 16 plaintext) version) ;;
    step_counter ;;
    em_modify (put_session None) ;;
    mret (emu_ok [])
  else
    keys ← em_gets mt_keys;
    old_key ← em_of (keys !! Z.to_nat key_no);
    em_modify (put_keys (Z.to_nat key_no) (xor_bytes (take 16 plaintext) old_key) version) ;;
    response_with_mac [].

Definition handle_get_key_version (apdu : list Z) : Em Rapdu :=
  require_ndef_selected ;;
  em_assert (bool_decide (length apdu = 15%nat)) ;;
  em_prefix apdu [0x90; 0x64; 0x00; 0x00; 0x09] ;;
  em_is apdu 14 0x00 ;;
  verify_request_mac 0x64 (sub_list 5 6 apdu) [] (sub_list 6 14 apdu) ;;
  key_no ← em_at apdu 5;
  versions ← em_gets mt_key_versions;
  v ← em_of (versions !! Z.to_nat key_no);
  response_with_mac [v].

(** The command counter also counts plain exchanges of a session. *)
Definition count_plain : Em () :=
  s ← em_gets mt_session;
  if decide (is_Some s) then step_counter else mret tt.

Definition handle_read_data_plain (apdu : list Z) : Em Rapdu :=
  require_ndef_selected ;;
  em_prefix apdu [0x90; 0xAD; 0x00; 0x00; 0x07] ;;
  em_ends_in_zero apdu ;;
  em_is apdu 5 0x02 ;;
  offset ← em_of (get_range apdu 6 9);
  length_ ← em_of (get_range apdu 9 12);
  ndef ← em_gets mt_ndef;
  let start := Z.to_nat (le_val offset) in
  let end_ := if decide (le_val length_ = 0) then length ndef else (start + Z.to_nat (le_val length_))%nat in
  data ← em_of (get_range ndef start (Nat.min end_ (length ndef)));
  count_plain ;;
  mret (emu_ok data).

(** [Vec::resize] when the write ends behind the contents. *)
Definition grown (n : nat) (l : list Z) : list Z := l ++ replicate (n - length l) 0.

Definition handle_write_data_plain (apdu : list Z) : Em Rapdu :=
  require_ndef_selected ;;
  em_is apdu 0 0x90 ;;
  em_is apdu 1 0x8D ;;
  em_is apdu 5 0x02 ;;
  em_ends_in_zero apdu ;;
  offset ← em_of (get_range apdu 6 9);
  len ← em_of (get_range apdu 9 12);
  let offset := Z.to_nat (le_val offset) in
  let len := Z.to_nat (le_val len) in
  data ← em_of (get_range apdu 12 (12 + len));
  em_modify (λ w, put_ndef (copy_at offset data (grown (offset + len) (mt_ndef w))) w) ;;
  count_plain ;;
  mret (emu_ok []).

Definition handle_iso_read_binary (apdu : list Z) : Em Rapdu :=
  require_ndef_selected ;;
  ef ← em_gets mt_ndef_ef_selected;
  em_assert ef ;;
  em_assert (bool_decide (length apdu = 5%nat)) ;;
  em_is apdu 1 0xB0 ;;
  p1 ← em_at apdu 2;
  p2 ← em_at apdu 3;
  le ← em_at apdu 4;
  if decide (Z.land p1 0x80 ≠ 0) then mret (mkRapdu [] 0x6A 0x82)
  else
    ndef ← em_gets mt_ndef;
    let start := Z.to_nat (Z.lor (Z.shiftl p1 8) p2) in
    let want := if decide (le = 0) then 256%nat else Z.to_nat le in
    mret (mkRapdu (take want (drop start ndef)) 0x90 0x00).

Definition handle_iso_select (apdu : list Z) : Em Rapdu :=
  p1 ← em_at apdu 2;
  p2 ← em_at apdu 3;
  if decide (length apdu = 4%nat ∧ p1 = 0 ∧ p2 = 0) then mret iso_ok
  else match apdu !! 4%nat with
  | None => mret (mkRapdu [] 0x67 0x00)
  | Some lc =>
      let data := drop 5 apdu in
      if decide (Z.of_nat (length data) ≠ lc) then mret (mkRapdu [] 0x67 0x00)
      else match data with
      | hi :: lo :: _ =>
          if decide (Z.land p2 0x0F = 0x0C ∧ Z.lor (Z.shiftl hi 8) lo ∈ [0x3F00; 0xE103; 0xE104])
          then mret iso_ok
          else mret (mkRapdu [] 0x6A 0x82)
      | _ => mret (mkRapdu [] 0x6A 0x82)
      end
  end.

Definition handle_iso_generic (apdu : list Z) : Em Rapdu :=
  if decide (length apdu < 4)%nat then mret (mkRapdu [] 0x67 0x00)
  else
    ins ← em_at apdu 1;
    if decide (ins = 0xA4) then handle_iso_select apdu else mret (mkRapdu [] 0x6D 0x00).

Definition handle_unknown_cla (apdu : list Z) : Em Rapdu :=
  cla ← em_at apdu 0;
  if decide (cla = 0xFF ∧ apdu !! 1%nat = Some 0xA4) then mret (mkRapdu [] 0x63 0x00)
  else mret (mkRapdu [] 0x67 0x00).

(** [apdu.len() >= n && apdu[0] == cla && apdu[1] == ins]. *)
Definition is_command (n : nat) (cla ins : Z) (apdu : list Z) : bool :=
  bool_decide (n ≤ length apdu)%nat && bool_decide (apdu !! 0%nat = Some cla) && bool_decide (apdu !! 1%nat = Some ins).

Definition mock_transmit (apdu : list Z) : Em Rapdu :=
  em_modify (put_log apdu) ;;
  if decide (apdu = NDEF_DF_SELECT) then em_modify (put_selected true false) ;; mret iso_ok
  else if decide (apdu = NDEF_EF_SELECT) then
    require_ndef_selected ;;
    em_modify (λ w, put_selected (mt_ndef_selected w) true w) ;; mret iso_ok
  else if is_command 2 0x00 0xD6 apdu then
    require_ndef_selected ;;
    ef ← em_gets mt_ndef_ef_selected;
    em_assert ef ;;
    data ← em_of (get_range apdu 5 (length apdu));
    em_modify (put_ndef data) ;; mret iso_ok
  else if is_command 2 0x00 0xB0 apdu then handle_iso_read_binary apdu
  else if is_command 2 0x90 0x71 apdu then handle_auth_part1 apdu
  else if is_command 2 0x90 0xAF apdu then
    p ← em_gets mt_pending_auth;
    if decide (is_Some p) then handle_auth_part2 apdu else handle_get_version_continue
  else if is_command 2 0x90 0x60 apdu then handle_get_version_start
  else if is_command 6 0x90 0xF5 apdu then
    if decide (length apdu = 7%nat) then handle_get_file_settings_plain apdu
    else handle_get_file_settings_mac apdu
  else if is_command 2 0x90 0x5F apdu then handle_change_file_settings apdu
  else if is_command 2 0x90 0xC4 apdu then handle_change_key apdu
  else if is_command 2 0x90 0x64 apdu then handle_get_key_version apdu
  else if is_command 2 0x90 0xAD apdu then handle_read_data_plain apdu
  else if is_command 2 0x90 0x8D apdu then handle_write_data_plain apdu
  else if is_command 4 0xFF 0xCA apdu then uid ← em_gets mt_uid; mret (mkRapdu uid 0x90 0x00)
  else if bool_decide (apdu !! 0%nat = Some 0x00) then handle_iso_generic apdu
  else if bool_decide (apdu !! 0%nat = Some 0x90) then em_panic
  else handle_unknown_cla apdu.

#[export] Instance mock_apdu : Apdu MockTransport MockTransportError := {|
  apdu_transmit := mock_transmit;
  apdu_get_uid := em_gets mt_uid |}.
End emu.
