(* ===== verification/EmuLink.v ===== *)
(** * The reader against the emulated card

    Every command of [Wire.v] run against the card of [EmuCard.v], one handler at a
    time: the APDU the reader builds is the one the handler expects, the MACs agree,
    what one end encrypts the other decrypts, and both count the command.  [in_step]
    is the invariant of an open session over the states of both ends. *)

From S2P Require Import Prelude Str Hex Derivation Picc NtagTypes FileSettings Channel Session Wire Link EmuCard.

Lemma is_command_no n cla ins c i rest :
  bool_decide (c = cla ∧ i = ins) = false → is_command n cla ins (c :: i :: rest) = false.
Proof.
  rewrite bool_decide_eq_false. intros H. unfold is_command. simpl.
  destruct (bool_decide (n ≤ _)%nat); [|done]. simpl.
  apply andb_false_iff. destruct (decide (c = cla)) as [->|]; [right|left]; apply bool_decide_eq_false; naive_solver.
Qed.

Lemma is_command_yes n cla ins rest :
  (n ≤ 2 + length rest)%nat → is_command n cla ins (cla :: ins :: rest) = true.
Proof. intros. unfold is_command. by rewrite !bool_decide_eq_true_2. Qed.

(** Finds the arm of [mock_transmit] for a command with a known head. *)
Ltac dispatch :=
  unfold mock_transmit; rewrite !decide_False by done;
  repeat rewrite is_command_no by reflexivity; rewrite is_command_yes by (simpl; lia); reflexivity.

Lemma options_u8 s : is_u8 (sdm_options_byte s).
Proof.
  unfold sdm_options_byte.
  generalize (picc_includes_uid (sdm_picc_data s)) (picc_includes_rctr (sdm_picc_data s)).
  generalize (bool_decide (is_Some (read_ctr_limit (sdm_picc_data s)))).
  generalize (bool_decide (is_Some (sdm_file_read s ≫= file_read_enc))) (bool_decide (is_Some (sdm_tamper_status s))).
  by intros [] [] [] [] [].
Qed.

Lemma u24_opt_bytes o : bytes (u24_opt o).
Proof. destruct o; simpl u24_opt; [auto with bolty|constructor]. Qed.

Lemma sdm_wire_bytes s : bytes (sdm_wire s).
Proof.
  pose proof (options_u8 s). unfold sdm_wire. repeat apply bytes_app; try apply u24_opt_bytes; try apply le_bytes_bytes.
  - by apply bytes_singleton, options_u8.
  - destruct (sdm_picc_data s) as [|[]|]; unfold picc_wire; first [apply Forall_nil_2|repeat apply bytes_app; apply le_bytes_bytes].
  - destruct (sdm_file_read s) as [[]|]; [..|constructor];
      unfold file_read_wire; repeat apply bytes_app; first [apply le_bytes_bytes|apply Forall_nil_2].
Qed.

Lemma update_wire_bytes u : bytes (update_wire u).
Proof.
  unfold update_wire. repeat apply bytes_app.
  - apply bytes_singleton. destruct (fu_comm_mode u), (bool_decide _); by vm_compute.
  - unfold AccessRights_to_le_bytes. auto with bolty.
  - destruct (fu_sdm u); [apply sdm_wire_bytes|constructor].
Qed.

Lemma copy_grown p q d : copy_at (length p) d (grown (length p + length d) (p ++ q)) = p ++ d ++ drop (length d) q.
Proof.
  unfold copy_at, grown. rewrite <-(assoc_L (++)), take_app_length, length_app.
  rewrite <-drop_drop, drop_app_length. do 2 f_equal.
  rewrite drop_app, drop_replicate. replace (_ - _ - _)%nat with 0%nat by lia. by rewrite app_nil_r.
Qed.

Lemma get_range_zeros n m : (n ≤ m)%nat → get_range (replicate m 0) 0 (0 + n) = Some (replicate n 0).
Proof.
  intros. replace m with (n + (m - n))%nat by lia. rewrite replicate_add.
  apply (get_range_mid []); [done|by rewrite length_replicate].
Qed.

(** A list of sixteen, element by element. *)
Ltac explode l H := do 16 (destruct l as [|? l]; [discriminate H|]); destruct l; [|discriminate H].

Lemma rotated (l : list Z) : length l = 16%nat → rotate_left l = sub_list 1 16 l ++ sub_list 0 1 l.
Proof. intros H. by explode l H. Qed.

Lemma rotated_back (l : list Z) : length l = 16%nat → rotate_right (sub_list 1 16 l ++ sub_list 0 1 l) = l.
Proof. intros H. by explode l H. Qed.

(** Both ends assemble the same session vector. *)
Lemma session_vectors lab a b : length lab = 2%nat → length a = 16%nat → length b = 16%nat →
  emu_session_vector_aes lab a b = session_vector_aes lab a b.
Proof.
  intros Hl Ha Hb. destruct lab as [|? [|? [|]]]; [discriminate..| |discriminate]. explode a Ha. explode b Hb.
  reflexivity.
Qed.

Section emu.
  Context {C : AesCrypto} `{!AesLaws C} (compat : bool).

Abbreviation Chm := (Ch (T := MockTransport) (TE := MockTransportError)).
Abbreviation Wm := (M MockTransport (SessionError (Fault MockTransportError))).

Lemma transmit_change_key rest w :
  let apdu := 0x90 :: 0xC4 :: rest in mock_transmit apdu w = handle_change_key apdu (put_log apdu w).
Proof. dispatch. Qed.
Lemma transmit_change_file rest w :
  let apdu := 0x90 :: 0x5F :: rest in mock_transmit apdu w = handle_change_file_settings apdu (put_log apdu w).
Proof. dispatch. Qed.
Lemma transmit_auth rest w :
  let apdu := 0x90 :: 0x71 :: rest in mock_transmit apdu w = handle_auth_part1 apdu (put_log apdu w).
Proof. dispatch. Qed.
Lemma transmit_key_version rest w :
  let apdu := 0x90 :: 0x64 :: rest in mock_transmit apdu w = handle_get_key_version apdu (put_log apdu w).
Proof. dispatch. Qed.
Lemma transmit_read rest w :
  let apdu := 0x90 :: 0xAD :: rest in mock_transmit apdu w = handle_read_data_plain apdu (put_log apdu w).
Proof. dispatch. Qed.
Lemma transmit_write rest w :
  let apdu := 0x90 :: 0x8D :: rest in mock_transmit apdu w = handle_write_data_plain apdu (put_log apdu w).
Proof. dispatch. Qed.
Lemma transmit_auth2 rest p w :
  let apdu := 0x90 :: 0xAF :: rest in
  mt_pending_auth w = Some p → mock_transmit apdu w = handle_auth_part2 apdu (put_log apdu w).
Proof.
  intros apdu Hp. unfold apdu, mock_transmit. rewrite !decide_False by done.
  repeat rewrite is_command_no by reflexivity. rewrite is_command_yes by (simpl; lia).
  unfold em_modify, em_gets, mbind, M_bind. simpl. by rewrite Hp.
Qed.
Lemma transmit_file_settings rest w : length rest = 13%nat →
  let apdu := 0x90 :: 0xF5 :: rest in
  mock_transmit apdu w = handle_get_file_settings_mac apdu (put_log apdu w).
Proof.
  intros Hl apdu. unfold apdu, mock_transmit. rewrite !decide_False by done.
  repeat rewrite is_command_no by reflexivity. rewrite is_command_yes by (simpl; lia).
  rewrite decide_False by (simpl; lia). reflexivity.
Qed.
Lemma transmit_select w :
  mock_transmit NDEF_DF_SELECT w = (Ok iso_ok, put_selected true false (put_log NDEF_DF_SELECT w)).
Proof. reflexivity. Qed.

Lemma runs_of {A} (o : option A) a w : o = Some a → runs (em_of o) w a w.
Proof. by intros ->. Qed.
Lemma runs_assert c w : c = true → runs (em_assert c) w tt w.
Proof. by intros ->. Qed.
Lemma runs_gets {A} (f : MockTransport → A) w : runs (em_gets f) w (f w) w.
Proof. done. Qed.
Lemma runs_modify f w : runs (em_modify f) w tt (f w).
Proof. done. Qed.
Lemma runs_is apdu i b w : apdu !! i = Some b → runs (em_is apdu i b) w tt w.
Proof. intros H. eapply runs_bind; [by apply runs_of|]. apply runs_assert, bool_decide_eq_true. done. Qed.
Lemma runs_at apdu i b w : apdu !! i = Some b → runs (em_at apdu i) w b w.
Proof. intros H. by apply runs_of. Qed.
Lemma runs_prefix head rest w : runs (em_prefix (head ++ rest) head) w tt w.
Proof.
  eapply runs_bind; [apply runs_of, (get_range_mid [] head rest); done|].
  by apply runs_assert, bool_decide_eq_true.
Qed.
Lemma runs_ends apdu w : runs (em_ends_in_zero (apdu ++ [0])) w tt w.
Proof. eapply runs_bind; [apply runs_of, last_snoc|]. by apply runs_assert. Qed.
Lemma runs_selected w : mt_ndef_selected w = true → runs require_ndef_selected w tt w.
Proof. intros H. eapply runs_bind; [apply runs_gets|]. by apply runs_assert. Qed.
Lemma runs_session s w : mt_session w = Some s → runs session_ w s w.
Proof. intros H. eapply runs_bind; [apply runs_gets|]. by apply runs_of. Qed.

(** ** The two ends in step *)

Definition card_session (s : Authenticated) : SessionState :=
  mkSessionState (as_enc_key (an_suite s)) (as_mac_key (an_suite s)) (an_ti s) (an_cmd_counter s).

Record in_step (s : Authenticated) (w : MockTransport) : Prop := {
  step_session : mt_session w = Some (card_session s);
  step_selected : mt_ndef_selected w = true;
  step_ti : array 4 (an_ti s) }.

(** The card after it counted a command. *)
Definition counted (s : Authenticated) (w : MockTransport) : MockTransport :=
  put_session (Some (card_session (an_advance s))) w.

Lemma counted_step s w : in_step s w → in_step (an_advance s) (counted s w).
Proof. intros [? ? ?]. by constructor. Qed.

Lemma runs_step_counter s w : in_step s w → runs step_counter w tt (counted s w).
Proof. intros [H _ _]. eapply runs_bind; [by apply runs_session|]. apply runs_modify. Qed.

Lemma runs_verify s w cmd header data mac :
  in_step s w → mac = cmd_mac s cmd header data → runs (verify_request_mac cmd header data mac) w tt w.
Proof.
  intros [H _ _] ->. eapply runs_bind; [by apply runs_session|]. by apply runs_assert, bool_decide_eq_true.
Qed.

Lemma runs_response s w data :
  in_step s w → runs (response_with_mac data) w (emu_ok (data ++ rsp_mac s data)) (counted s w).
Proof.
  intros H. eapply runs_bind; [by apply runs_session, H|].
  eapply runs_bind; [by apply runs_step_counter|]. apply runs_ret.
Qed.

Lemma command_iv_eq key ti ctr :
  array 4 ti → command_iv key ti ctr = aes_block key (dir_label Dir_Command ++ ti ++ le_bytes 2 ctr ++ replicate 8 0).
Proof. intros [Hl _]. by destruct ti as [|? [|? [|? [|? [|]]]]]. Qed.

Lemma card_opens s n plain : array 4 (an_ti s) → array (16 * S n) plain →
  decrypt_command (card_session s) (sealed s plain) = Some plain.
Proof.
  intros Ht Hp. unfold decrypt_command. simpl. rewrite command_iv_eq by done.
  by apply (aes_cbc_n_roundtrip (as_enc_key (an_suite s)) (cmd_iv s) n plain (cmd_iv_array _ Ht) Hp).
Qed.

Lemma runs_transmit apdu s w r w' : runs (mock_transmit apdu) w r w' → runs (ch_transmit apdu : Chm _) (s, w) r (s, w').
Proof. unfold runs, ch_transmit. simpl. by intros ->. Qed.

(** ** Single commands *)

(** [send_mac], with a handler of the card that checks the MAC and answers. *)
Lemma runs_send_mac s w cmd header out w' :
  in_step s w → (length header ≤ 240)%nat → (length out ≤ 247)%nat →
  runs (mock_transmit ([0x90; cmd; 0x00; 0x00; Z.of_nat (length header + 0 + MAC_LEN)%nat] ++ header ++ [] ++
          cmd_mac s cmd header [] ++ [0x00])) w (emu_ok (out ++ rsp_mac s out)) w' →
  runs (send_mac compat cmd 0x00 0x00 header [] : Chm _) (s, w) out (an_advance s, w').
Proof.
  intros Hs Hh Ho Ht. unfold send_mac.
  eapply runs_bind. { unfold ch_ensure. rewrite bool_decide_true; [apply runs_ret|]. simpl. unfold MAC_LEN, MAX_APDU_BODY. lia. }
  eapply runs_bind; [apply runs_mac; [apply Hs|simpl; lia]|].
  eapply runs_bind; [apply runs_transmit, Ht|].
  eapply runs_bind; [apply runs_native|].
  eapply runs_bind; [apply runs_verify_response; [apply Hs|lia]|].
  eapply runs_bind. { unfold ch_ensure. rewrite bool_decide_true; [apply runs_ret|]. unfold MAX_RESPONSE_DATA, MAX_APDU_BODY, MAC_LEN. lia. }
  apply runs_ret.
Qed.

Lemma card_key_version s w n v : in_step s w → mt_key_versions w !! Z.to_nat (as_byte n) = Some v →
  let apdu := [0x90; 0x64; 0x00; 0x00; 0x09; as_byte n] ++ cmd_mac s 0x64 [as_byte n] [] ++ [0x00] in
  runs (mock_transmit apdu) w (emu_ok ([v] ++ rsp_mac s [v])) (counted s (put_log apdu w)).
Proof.
  intros Hs Hv apdu. unfold runs. change apdu with (0x90 :: 0x64 :: drop 2 apdu). rewrite transmit_key_version.
  change (_ :: _ :: drop 2 apdu) with apdu. set (w1 := put_log apdu w).
  assert (in_step s w1) as Hs1 by (destruct Hs; by constructor).
  eapply runs_bind; [by apply runs_selected, Hs1|].
  eapply runs_bind; [by apply runs_assert|].
  eapply runs_bind; [apply (runs_prefix [_; _; _; _; _])|].
  eapply runs_bind; [by apply runs_is|].
  eapply runs_bind; [by eapply runs_verify|].
  eapply runs_bind; [by apply runs_at|].
  eapply runs_bind; [apply runs_gets|].
  eapply runs_bind; [by apply runs_of|].
  by apply runs_response.
Qed.

Lemma in_step_log s apdu w : in_step s w → in_step s (put_log apdu w).
Proof. intros []. by constructor. Qed.

Lemma in_step_file s d w : in_step s w → in_step s (put_file_settings d w).
Proof. intros []. by constructor. Qed.

Lemma in_step_keys s i k v w : in_step s w → in_step s (put_keys i k v w).
Proof. intros []. by constructor. Qed.

(** ** Settings *)

Lemma runs_patch size patch w : mt_file_settings w = get_answer size (update_wire patch) →
  (∀ s, fu_sdm patch = Some s → sdm_wf s) → ∀ u, (∀ s, fu_sdm u = Some s → sdm_wf s) →
  runs (update_file_settings_from_patch (update_wire u)) w tt (put_file_settings (get_answer size (update_wire u)) w).
Proof.
  intros Hf Hp u Hu. pose proof (update_wire_length _ Hp). pose proof (update_wire_length _ Hu).
  assert (length (take 3 (update_wire patch)) = 3%nat) as H3 by (rewrite length_take; lia).
  eapply runs_bind; [apply runs_gets|]. rewrite Hf. unfold get_answer at 1 2.
  eapply runs_bind; [by apply runs_at|].
  eapply runs_bind.
  { apply runs_of. rewrite (assoc_L (++)). apply get_range_mid; [rewrite length_app, H3; done|].
    rewrite length_app, H3, le_bytes_length. done. }
  eapply runs_bind.
  { apply runs_of. rewrite <-(take_drop 3 (update_wire u)) at 1. apply (get_range_mid []); [done|].
    rewrite length_take. cbn. lia. }
  apply runs_modify.
Qed.

Lemma card_change_file s w size patch u ct n k lc : in_step s w →
  mt_file_settings w = get_answer size (update_wire patch) →
  (∀ s, fu_sdm patch = Some s → sdm_wf s) → (∀ s, fu_sdm u = Some s → sdm_wf s) →
  array (16 * S n) (update_wire u ++ [0x80] ++ replicate k 0) →
  ct = sealed s (update_wire u ++ [0x80] ++ replicate k 0) →
  let apdu := [0x90; 0x5F; 0x00; 0x00; lc; 0x02] ++ ct ++ cmd_mac s 0x5F [0x02] ct ++ [0x00] in
  runs (mock_transmit apdu) w (emu_ok ([] ++ rsp_mac s []))
    (counted s (put_file_settings (get_answer size (update_wire u)) (put_log apdu w))).
Proof.
  intros Hs Hf Hp Hu Ha Hct apdu. unfold runs. change apdu with (0x90 :: 0x5F :: drop 2 apdu).
  rewrite transmit_change_file. change (_ :: _ :: drop 2 apdu) with apdu. set (w1 := put_log apdu w).
  assert (in_step s w1) as Hs1 by (by apply in_step_log).
  pose proof (sealed_array _ _ _ (step_ti _ _ Hs) Ha) as [Hl _]. rewrite <-Hct in Hl.
  assert (length apdu = (6 + length ct + 8 + 1)%nat) as Hlen
    by (unfold apdu; rewrite !length_app, cmd_mac_length; simpl; lia).
  assert (sub_list 5 (length apdu - 1) apdu = [0x02] ++ ct ++ cmd_mac s 0x5F [0x02] ct) as Hbody.
  { unfold apdu at 2. rewrite (assoc_L (++) ct), (assoc_L (++) [_; _; _; _; _; _]).
    change [0x90; 0x5F; 0; 0; lc; 2] with ([0x90; 0x5F; 0; 0; lc] ++ [2]). rewrite <-!(assoc_L (++)).
    rewrite 2!(assoc_L (++) [2]), (assoc_L (++) _ _ [0]). apply sub_list_mid; [done|].
    rewrite Hlen, !length_app, cmd_mac_length. simpl. lia. }
  unfold handle_change_file_settings. rewrite Hbody.
  rewrite (assoc_L (++)), length_app, cmd_mac_length, Nat.add_sub.
  rewrite take_app_length, drop_app_length.
  eapply runs_bind; [by apply runs_selected, Hs1|].
  eapply runs_bind; [apply runs_assert, bool_decide_eq_true; rewrite Hlen; lia|].
  eapply runs_bind; [by apply runs_is|].
  eapply runs_bind; [by apply runs_is|].
  eapply runs_bind; [by apply runs_is|].
  eapply runs_bind. { unfold apdu. rewrite !(assoc_L (++)). apply runs_ends. }
  eapply runs_bind; [by eapply runs_verify|].
  eapply runs_bind; [by apply runs_session, Hs1|].
  eapply runs_bind. { apply runs_of. cbn [drop app]. rewrite Hct. eapply card_opens; [apply Hs|done]. }
  eapply runs_bind; [apply runs_of, strip_m2_padded|]. rewrite take_app_length.
  eapply runs_bind; [by eapply runs_patch|].
  by apply runs_response, in_step_file.
Qed.

Lemma runs_change_file s w size patch u : in_step s w →
  mt_file_settings w = get_answer size (update_wire patch) →
  (∀ s, fu_sdm patch = Some s → sdm_wf s) → (∀ s, fu_sdm u = Some s → sdm_wf s) →
  ∃ apdu, runs (wire_change_file_settings compat 0x02 u : Chm _) (s, w) tt (an_advance s,
    counted s (put_file_settings (get_answer size (update_wire u)) (put_log apdu w))).
Proof.
  intros Hs Hf Hp Hu. pose proof (update_wire_length _ Hu) as Hl. unfold MAX_CHANGE_FILE_SETTINGS_LEN in Hl.
  destruct (m2_pad_array _ (update_wire_bytes u)) as (n & k & Ha & Hpad & Hn).
  pose proof (sealed_array _ _ _ (step_ti _ _ Hs) Ha) as [Hsl _].
  eexists. unfold wire_change_file_settings. rewrite writes_update; [|done|rewrite length_replicate; by apply update_wire_length].
  eapply runs_bind; [by apply runs_ret|]. rewrite take_app_length.
  eapply runs_bind; [eapply runs_encrypt; [apply Hs|exact Ha]|].
  eapply runs_bind; [apply runs_mac; [apply Hs|rewrite Hsl; simpl; lia]|].
  eapply runs_bind; [apply runs_transmit; rewrite Hpad in *; by eapply card_change_file|].
  eapply runs_bind; [apply runs_native|].
  eapply runs_bind; [apply runs_verify_response; [apply Hs|simpl; lia]|].
  apply runs_ret.
Qed.

Lemma card_file_settings s w : in_step s w →
  let apdu := [0x90; 0xF5; 0x00; 0x00; 0x09; 0x02] ++ cmd_mac s 0xF5 [0x02] [] ++ [0x00] in
  runs (mock_transmit apdu) w (emu_ok (mt_file_settings w ++ rsp_mac s (mt_file_settings w))) (counted s (put_log apdu w)).
Proof.
  intros Hs apdu. unfold runs. change apdu with (0x90 :: 0xF5 :: drop 2 apdu). rewrite transmit_file_settings by done.
  change (_ :: _ :: drop 2 apdu) with apdu. set (w1 := put_log apdu w).
  assert (in_step s w1) as Hs1 by (by apply in_step_log).
  eapply runs_bind; [by apply runs_selected, Hs1|].
  eapply runs_bind; [by apply runs_assert|].
  eapply runs_bind; [apply (runs_prefix [_; _; _; _; _])|].
  eapply runs_bind; [by apply runs_is|].
  eapply runs_bind; [by apply runs_is|].
  eapply runs_bind; [by eapply runs_verify|].
  eapply runs_bind; [apply runs_gets|].
  by apply (runs_response s w1).
Qed.

Lemma runs_get_settings s w v : in_step s w → (length (mt_file_settings w) ≤ 247)%nat →
  decode (mt_file_settings w) = Ok v →
  ∃ apdu, runs (wire_get_file_settings_mac compat 0x02 : Chm _) (s, w) v (an_advance s, counted s (put_log apdu w)).
Proof.
  intros Hs Hl Hd. eexists. unfold wire_get_file_settings_mac.
  eapply runs_bind.
  { eapply runs_send_mac; [done|simpl; lia|exact Hl|]. exact (card_file_settings s w Hs). }
  rewrite Hd. apply runs_ret.
Qed.

Lemma runs_get_key_version s w n v : in_step s w → mt_key_versions w !! Z.to_nat (as_byte n) = Some v →
  ∃ apdu, runs (wire_get_key_version compat n : Chm _) (s, w) v (an_advance s, counted s (put_log apdu w)).
Proof.
  intros Hs Hv. eexists. unfold wire_get_key_version.
  eapply runs_bind.
  { eapply runs_send_mac; [done|simpl; lia| |exact (card_key_version s w n v Hs Hv)]. simpl. lia. }
  apply runs_ret.
Qed.

(** ** Keys *)

Lemma crc32_array d : array 4 (crc32 d).
Proof. split; [apply le_bytes_length|apply le_bytes_bytes]. Qed.

Lemma change_key_plaintext_array new v old : array 16 new → array 16 old → is_u8 v →
  array (16 * 2) (change_key_plaintext new v old).
Proof.
  intros Hn Ho Hv. unfold change_key_plaintext.
  apply (array_app 16 16); [by apply array_xor|].
  apply (array_app 1 15); [by split; [|apply bytes_singleton]|].
  apply (array_app 4 11); [apply crc32_array|]. apply (bool_decide_unpack _). by vm_compute.
Qed.

Lemma change_master_plaintext_array new v : array 16 new → is_u8 v →
  array (16 * 2) (change_master_plaintext new v).
Proof.
  intros Hn Hv. unfold change_master_plaintext.
  apply (array_app 16 16); [done|]. apply (array_app 2 14).
  - split; [done|]. by apply (bytes_app [v] [0x80]); apply bytes_singleton.
  - apply (bool_decide_unpack _). by vm_compute.
Qed.

(** The card after the effect of [ChangeKey], which ends the session for key 0. *)
Definition key_changed (s : Authenticated) (n : nat) (k : list Z) (v : Z) (w : MockTransport) : MockTransport :=
  let w := put_keys n k v w in
  if decide (n = 0%nat) then put_session None (counted s w) else counted s w.

Definition key_answer (s : Authenticated) (n : nat) : list Z := if decide (n = 0%nat) then [] else rsp_mac s [].

(** What the card takes from a decrypted [ChangeKey]. *)
Definition carried (n : nat) (plain old : list Z) : list Z :=
  if decide (n = 0%nat) then take 16 plain else xor_bytes (take 16 plain) old.

Lemma card_change_key s w n plain old ct : in_step s w → array (16 * 2) plain →
  mt_keys w !! Z.to_nat (as_byte n) = Some old → ct = sealed s plain →
  let apdu := [0x90; 0xC4; 0x00; 0x00; 0x29; as_byte n] ++ ct ++ cmd_mac s 0xC4 [as_byte n] ct ++ [0x00] in
  runs (mock_transmit apdu) w (emu_ok (key_answer s (Z.to_nat (as_byte n))))
    (key_changed s (Z.to_nat (as_byte n)) (carried (Z.to_nat (as_byte n)) plain old) (nth 16 plain 0) (put_log apdu w)).
Proof.
  intros Hs Ha Hk Hct apdu. unfold runs. change apdu with (0x90 :: 0xC4 :: drop 2 apdu).
  rewrite transmit_change_key. change (_ :: _ :: drop 2 apdu) with apdu. set (w1 := put_log apdu w).
  assert (in_step s w1) as Hs1 by (by apply in_step_log).
  pose proof (sealed_array _ 1 _ (step_ti _ _ Hs) Ha) as [Hl _]. rewrite <-Hct in Hl.
  eapply runs_bind; [by apply runs_selected, Hs1|].
  eapply runs_bind; [by apply runs_is|].
  eapply runs_bind; [by apply runs_is|].
  eapply runs_bind; [by apply runs_is|].
  eapply runs_bind. { unfold apdu. rewrite !(assoc_L (++)). apply runs_ends. }
  eapply runs_bind; [by apply runs_at|].
  eapply runs_bind; [apply runs_assert, bool_decide_eq_true; by destruct n|].
  eapply runs_bind; [apply runs_of, get_range_mid; [done|simpl length; lia]|].
  eapply runs_bind.
  { apply runs_of. unfold apdu. rewrite (assoc_L (++) _ ct). apply get_range_mid; rewrite length_app, Hl; done. }
  eapply runs_bind; [by eapply runs_verify|].
  eapply runs_bind; [by apply runs_session, Hs1|].
  eapply runs_bind. { apply runs_of. rewrite Hct. by eapply (card_opens _ 1); [apply Hs|]. }
  cbv zeta. unfold key_changed, key_answer, carried.
  destruct (decide (as_byte n = 0)) as [->|Hn0]; [rewrite !decide_True by done|rewrite !decide_False by (by destruct n)].
  - eapply runs_bind; [apply runs_modify|].
    eapply runs_bind; [by apply runs_step_counter, in_step_keys|].
    eapply runs_bind; [apply runs_modify|]. apply runs_ret.
  - eapply runs_bind; [apply runs_gets|].
    eapply runs_bind; [by apply runs_of|].
    eapply runs_bind; [apply runs_modify|].
    by apply (runs_response s _ []), in_step_keys.
Qed.

Lemma runs_change_key_transmit s w n plain old : in_step s w → array (16 * 2) plain →
  mt_keys w !! Z.to_nat (as_byte n) = Some old →
  ∃ apdu, runs (change_key_transmit compat n plain (bool_decide (n ≠ Key0)) : Chm _) (s, w) tt (an_advance s,
    key_changed s (Z.to_nat (as_byte n)) (carried (Z.to_nat (as_byte n)) plain old) (nth 16 plain 0) (put_log apdu w)).
Proof.
  intros Hs Ha Hk. pose proof (sealed_array _ 1 _ (step_ti _ _ Hs) Ha) as [Hl _]. eexists. unfold change_key_transmit.
  eapply runs_bind; [by eapply (runs_encrypt _ 1); [apply Hs|]|].
  eapply runs_bind; [apply runs_mac; [apply Hs|rewrite Hl; simpl; lia]|].
  eapply runs_bind; [by eapply runs_transmit, card_change_key|].
  eapply runs_bind; [apply runs_native|].
  case_bool_decide as Hn.
  - unfold key_answer. rewrite decide_False by (by destruct n).
    eapply runs_bind; [apply (runs_verify_response _ s []); [apply Hs|simpl; lia]|]. apply runs_ret.
  - assert (n = Key0) as -> by (by destruct n). eapply runs_bind; [apply runs_ret|]. done.
Qed.

Lemma runs_count_plain s w : in_step s w → runs count_plain w tt (counted s w).
Proof.
  intros Hs. eapply runs_bind; [apply runs_gets|]. rewrite (step_session _ _ Hs), decide_True by done.
  by apply runs_step_counter.
Qed.

Lemma card_read_plain s w (len : nat) : in_step s w → (0 < len ≤ 256)%nat → (len ≤ length (mt_ndef w))%nat →
  let apdu := [0x90; 0xAD; 0x00; 0x00; 0x07] ++ data_header 0x02 0 (Z.of_nat len) ++ [0x00] in
  runs (mock_transmit apdu) w (emu_ok (take len (mt_ndef w))) (counted s (put_log apdu w)).
Proof.
  intros Hs Hl Hn apdu. unfold runs. change apdu with (0x90 :: 0xAD :: drop 2 apdu). rewrite transmit_read.
  change (_ :: _ :: drop 2 apdu) with apdu. set (w1 := put_log apdu w).
  assert (in_step s w1) as Hs1 by (by apply in_step_log).
  eapply runs_bind; [by apply runs_selected, Hs1|].
  eapply runs_bind; [apply (runs_prefix [_; _; _; _; _])|].
  eapply runs_bind; [apply (runs_ends ([_; _; _; _; _] ++ data_header _ _ _))|].
  eapply runs_bind; [by apply runs_is|].
  eapply runs_bind; [apply runs_of, (get_range_mid [_; _; _; _; _; _] (le_bytes 3 _)); done|].
  eapply runs_bind; [apply runs_of, (get_range_mid ([_; _; _; _; _; _] ++ le_bytes 3 _) (le_bytes 3 _)); done|].
  eapply runs_bind; [apply runs_gets|].
  rewrite !le_val_u24 by (unfold U24_MAX; lia). cbv zeta. rewrite decide_False, Nat2Z.id by lia. change (Z.to_nat 0) with 0%nat.
  eapply runs_bind.
  { apply runs_of. rewrite <-(take_drop len (mt_ndef w1)) at 1. apply (get_range_mid []); [done|].
    change (mt_ndef w1) with (mt_ndef w). rewrite length_take. cbn. lia. }
  eapply runs_bind; [by apply runs_count_plain|]. apply runs_ret.
Qed.

Lemma card_write_plain s w p q d : in_step s w → mt_ndef w = p ++ q → (0 < length d ≤ 248)%nat →
  Z.of_nat (length p + length d) ≤ U24_MAX → ∀ lc,
  let apdu := [0x90; 0x8D; 0x00; 0x00; lc] ++
    data_header 0x02 (Z.of_nat (length p)) (Z.of_nat (length d)) ++ d ++ [0x00] in
  runs (mock_transmit apdu) w (emu_ok []) (counted s (put_ndef (p ++ d ++ drop (length d) q) (put_log apdu w))).
Proof.
  intros Hs Hn Hd Hp lc apdu. unfold runs. change apdu with (0x90 :: 0x8D :: drop 2 apdu). rewrite transmit_write.
  change (_ :: _ :: drop 2 apdu) with apdu. set (w1 := put_log apdu w).
  assert (in_step s w1) as Hs1 by (by apply in_step_log).
  eapply runs_bind; [by apply runs_selected, Hs1|].
  eapply runs_bind; [by apply runs_is|].
  eapply runs_bind; [by apply runs_is|].
  eapply runs_bind; [by apply runs_is|].
  eapply runs_bind. { unfold apdu. rewrite !(assoc_L (++)). apply runs_ends. }
  eapply runs_bind; [apply runs_of, (get_range_mid [_; _; _; _; _; _] (le_bytes 3 _)); done|].
  eapply runs_bind; [apply runs_of, (get_range_mid ([_; _; _; _; _; _] ++ le_bytes 3 _) (le_bytes 3 _)); done|].
  rewrite !le_val_u24 by lia. rewrite !Nat2Z.id.
  eapply runs_bind; [apply runs_of, (get_range_mid ([_; _; _; _; _; _] ++ le_bytes 3 _ ++ le_bytes 3 _) d); done|].
  eapply runs_bind; [apply runs_modify|]. cbv beta.
  assert (copy_at (length p) d (grown (length p + length d) (mt_ndef w1)) = p ++ d ++ drop (length d) q) as ->
    by (unfold w1; simpl; rewrite Hn; apply copy_grown).
  eapply runs_bind; [apply runs_count_plain; by destruct Hs1|]. apply runs_ret.
Qed.

Lemma runs_wire apdu (w : MockTransport) r w' : runs (mock_transmit apdu) w r w' →
  runs (wire_transmit apdu : Wm _) w r w'.
Proof. unfold runs, wire_transmit, lift_err. simpl. by intros ->. Qed.

Lemma runs_write_plain s w p q d : in_step s w → mt_ndef w = p ++ q → (0 < length d ≤ 248)%nat →
  Z.of_nat (length p + length d) ≤ U24_MAX →
  ∃ apdu, runs (write_data_plain 0x02 (Z.of_nat (length p)) d : Wm ()) w tt
    (counted s (put_ndef (p ++ d ++ drop (length d) q) (put_log apdu w))).
Proof.
  intros Hs Hn Hd Hp. eexists. unfold write_data_plain.
  eapply runs_bind.
  { unfold validate_header. rewrite !decide_False by (unfold U24_MAX in *; lia). apply runs_ret. }
  eapply runs_bind.
  { unfold validate_body_len, MAX_APDU_BODY. rewrite decide_False by lia. apply runs_ret. }
  eapply runs_bind; [by apply runs_wire, card_write_plain|]. apply runs_ret.
Qed.

Lemma in_step_written s d apdu w : in_step s w → in_step (an_advance s) (counted s (put_ndef d (put_log apdu w))).
Proof. intros []. by apply counted_step. Qed.

(** What a plain write leaves alone. *)
Definition memory (w : MockTransport) := (mt_uid w, mt_keys w, mt_key_versions w, mt_file_settings w).

(** The loop of chunks writes the whole of the data, wherever it starts. *)
Lemma runs_write_loop fuel s w p q d : in_step s w → mt_ndef w = p ++ q → (length d ≤ fuel)%nat →
  Z.of_nat (length p + length d) ≤ U24_MAX →
  ∃ s' w', runs (write_plain_loop false fuel 0x02 (Z.of_nat (length p)) d : Chm ()) (s, w) tt (s', w') ∧
    in_step s' w' ∧ mt_ndef w' = p ++ d ++ drop (length d) q ∧ memory w' = memory w.
Proof.
  revert s w p q d. induction fuel as [|fuel IH]; intros s w p q d Hs Hn Hf Hp.
  { assert (d = []) as -> by (by apply nil_length_inv; lia). exists s, w. simpl. by rewrite drop_0. }
  destruct (decide (d = [])) as [->|Hd]. { exists s, w. simpl. by rewrite drop_0. }
  assert (0 < length d)%nat by (by destruct d; [|simpl; lia]).
  set (part := take PLAIN_WRITE_CHUNK d). set (rest := drop PLAIN_WRITE_CHUNK d).
  assert (length part = Nat.min 248 (length d) ∧ d = part ++ rest) as [Hpl Hpr]
    by (split; [apply length_take|symmetry; apply take_drop]).
  assert (length d = (length part + length rest)%nat) as Hlen by (rewrite Hpr at 1; apply length_app).
  destruct (runs_write_plain s w p q part) as [apdu Hw]; [done..|lia|lia|].
  set (w1 := counted _ _) in Hw.
  destruct (IH (an_advance s) w1 (p ++ part) (drop (length part) q) rest) as (s' & w' & Hr & Hs' & Hn' & Hm).
  - by apply in_step_written.
  - simpl. by rewrite (assoc_L (++)).
  - lia.
  - rewrite length_app. lia.
  - exists s', w'. split; [|split; [done|split; [|exact Hm]]].
    + cbn [write_plain_loop]. destruct d as [|b d']; [done|].
      eapply runs_bind; [by apply runs_ch_lift|].
      eapply runs_bind; [done|].
      replace (u32 _) with (Z.of_nat (length (p ++ part))); [exact Hr|].
      rewrite length_app. fold part. unfold u32, U24_MAX in *. rewrite Z.mod_small; [lia|]. change (2 ^ 32) with 4294967296. lia.
    + rewrite Hn', drop_drop, <-Hlen. rewrite Hpr at 2. by rewrite <-!(assoc_L (++)).
Qed.

Lemma runs_write_file s w d : in_step s w → d ≠ [] → Z.of_nat (length d) ≤ U24_MAX →
  ∃ s' w', runs (write_file_plain_chunked false 0x02 0 d : Chm ()) (s, w) tt (s', w') ∧
    in_step s' w' ∧ mt_ndef w' = copy_at 0 d (mt_ndef w) ∧ memory w' = memory w.
Proof.
  intros Hs Hd Hl. unfold write_file_plain_chunked. rewrite decide_False by done.
  by apply (runs_write_loop _ s w [] (mt_ndef w)).
Qed.

Lemma runs_read_plain s w d : in_step s w → d ≠ [] → (length d ≤ 256)%nat → take (length d) (mt_ndef w) = d →
  ∃ apdu, runs (read_data_plain 0x02 0 (Z.of_nat (length d)) (replicate (length d) 0) : Wm _) w
    (length d, d) (counted s (put_log apdu w)).
Proof.
  intros Hs Hd Hl Hn. assert (0 < length d)%nat by (by destruct d; [|simpl; lia]).
  assert (length d ≤ length (mt_ndef w))%nat by (rewrite <-Hn at 1; rewrite length_take; lia).
  eexists. unfold read_data_plain.
  eapply runs_bind.
  { unfold validate_request. rewrite length_replicate. rewrite !decide_False by (unfold U24_MAX in *; lia). apply runs_ret. }
  cbv zeta. eapply runs_bind; [apply runs_wire, card_read_plain; [done|lia|done]|].
  rewrite Hn, length_replicate. cbn [emu_ok ra_data ra_sw1 ra_sw2]. rewrite decide_True by done.
  assert (want_plain_bytes (Z.of_nat (length d)) (length d) = length d) as ->.
  { unfold want_plain_bytes, READ_DATA_RESP_CAP. rewrite decide_False by lia. lia. }
  rewrite !Nat.min_id, firstn_all. unfold copy_at. rewrite drop_ge by (rewrite length_replicate; lia).
  simpl. rewrite app_nil_r. apply runs_ret.
Qed.

Lemma runs_read_file s w d : in_step s w → d ≠ [] → (length d ≤ 256)%nat → take (length d) (mt_ndef w) = d →
  ∃ apdu buf, runs (read_file_plain_chunked false 0x02 0 (Z.of_nat (length d)) (replicate 256 0) : Chm _) (s, w)
    (length d, buf) (an_advance s, counted s (put_log apdu w)) ∧ take (length d) buf = d.
Proof.
  intros Hs Hd Hl Hn. assert (0 < length d)%nat by (by destruct d; [|simpl; lia]).
  destruct (runs_read_plain s w d Hs Hd Hl Hn) as [apdu Hr].
  exists apdu, (copy_at 0 d (replicate 256 0)). split; [|apply (take_app_length d)].
  unfold read_file_plain_chunked. rewrite decide_False by lia. rewrite Nat2Z.id.
  destruct (length d) as [|n] eqn:Hlen; [lia|]. cbn [read_plain_loop]. rewrite decide_False by lia.
  rewrite Z.min_l by (unfold PLAIN_READ_CHUNK; lia). rewrite Nat2Z.id, <-Hlen in *.
  eapply runs_bind.
  { rewrite (get_range_zeros _ 256) by lia. apply runs_ret. }
  eapply runs_bind; [by apply runs_ch_lift|].
  eapply runs_bind; [done|].
  cbn [fst snd]. rewrite decide_False by lia. rewrite Z.sub_diag.
  destruct n; cbn [read_plain_loop]; (rewrite decide_True by lia); apply runs_ret.
Qed.

Lemma derive_agree key a b : length a = 16%nat → length b = 16%nat →
  derive_session_keys key a b = (as_enc_key (suite_derive key a b), as_mac_key (suite_derive key a b)).
Proof. intros. unfold derive_session_keys, suite_derive. by rewrite !session_vectors. Qed.

Lemma zero_sealed key n plain : array (16 * S n) plain →
  aes_cbc_encrypt key zero_iv plain = Some (aes_cbc_encrypt_n key zero_iv plain) ∧
  array (16 * S n) (aes_cbc_encrypt_n key zero_iv plain) ∧
  aes_cbc_decrypt key zero_iv (aes_cbc_encrypt_n key zero_iv plain) = Some plain.
Proof. apply aes_cbc_n_roundtrip, zero_iv_array. Qed.

Lemma zero_opens key n plain : array (16 * S n) plain →
  aes_cbc_decrypt_n key zero_iv (aes_cbc_encrypt_n key zero_iv plain) = plain.
Proof. intros H. unfold aes_cbc_decrypt_n. by destruct (zero_sealed key n plain H) as (_ & _ & ->). Qed.

Lemma rnd_b_array : array 16 EMU_RND_B.
Proof. apply (bool_decide_unpack _). by vm_compute. Qed.

Lemma card_auth1 w n key : mt_ndef_selected w = true → mt_keys w !! Z.to_nat (as_byte n) = Some key →
  let apdu := [0x90; 0x71; 0x00; 0x00; 0x05; as_byte n; 0x03; 0x00; 0x00; 0x00; 0x00] in
  runs (mock_transmit apdu) w (mkRapdu (aes_cbc_encrypt_n key zero_iv EMU_RND_B) 0x91 0xAF)
    (put_pending (Some (mkPendingAuth (as_byte n) key EMU_RND_B)) (put_log apdu w)).
Proof.
  intros Hs Hk apdu. unfold runs. change apdu with (0x90 :: 0x71 :: drop 2 apdu). rewrite transmit_auth.
  change (_ :: _ :: drop 2 apdu) with apdu. set (w1 := put_log apdu w).
  eapply runs_bind; [by apply runs_selected|].
  eapply runs_bind; [by apply runs_assert, bool_decide_eq_true; right|].
  eapply runs_bind; [by apply runs_is|].
  eapply runs_bind; [by apply runs_is|].
  eapply runs_bind; [by apply runs_at|].
  eapply runs_bind; [apply runs_assert, bool_decide_eq_true; by destruct n|].
  eapply runs_bind; [apply runs_gets|].
  eapply runs_bind; [by apply runs_of|].
  eapply runs_bind; [by apply runs_of, (zero_sealed key 0 _ rnd_b_array)|].
  eapply runs_bind; [apply runs_modify|]. apply runs_ret.
Qed.

Definition card_answer (rnd_a : list Z) : list Z := EMU_TI ++ sub_list 1 16 rnd_a ++ sub_list 0 1 rnd_a ++ replicate 12 0.

Lemma card_answer_array rnd_a : array 16 rnd_a → array (16 * 2) (card_answer rnd_a).
Proof.
  intros [Hl Hb]. apply (array_app 4 28); [apply (bool_decide_unpack _); by vm_compute|].
  apply (array_app 15 13); [split; [by explode rnd_a Hl|unfold sub_list; auto with bolty]|].
  apply (array_app 1 12); [split; [by explode rnd_a Hl|unfold sub_list; auto with bolty]|].
  apply (bool_decide_unpack _). by vm_compute.
Qed.

Lemma part2_array rnd_a : array 16 rnd_a → array (16 * 2) (rnd_a ++ rotate_left EMU_RND_B).
Proof. intros. apply (array_app 16 16); [done|]. apply (bool_decide_unpack _). by vm_compute. Qed.

Definition opened_by (key rnd_a : list Z) : AuthResult :=
  mkAuthResult (suite_derive key rnd_a EMU_RND_B) EMU_TI (replicate 6 0) (replicate 6 0).

Lemma card_auth2 w n key rnd_a : mt_pending_auth w = Some (mkPendingAuth n key EMU_RND_B) → array 16 rnd_a →
  let apdu := build_part2_apdu key rnd_a EMU_RND_B in
  runs (mock_transmit apdu) w (emu_ok (aes_cbc_encrypt_n key zero_iv (card_answer rnd_a)))
    (put_session (Some (mkSessionState (as_enc_key (suite_derive key rnd_a EMU_RND_B))
       (as_mac_key (suite_derive key rnd_a EMU_RND_B)) EMU_TI 0)) (put_pending None (put_log apdu w))).
Proof.
  intros Hp Ha apdu. unfold runs. set (ct := aes_cbc_encrypt_n key zero_iv (rnd_a ++ rotate_left EMU_RND_B)).
  destruct (zero_sealed key 1 _ (part2_array _ Ha)) as (_ & [Hl _] & Hd). fold ct in Hl, Hd.
  change apdu with (0x90 :: 0xAF :: drop 2 apdu). erewrite transmit_auth2 by done.
  change (_ :: _ :: drop 2 apdu) with apdu. set (w1 := put_log apdu w).
  assert (apdu = [0x90; 0xAF; 0x00; 0x00; 0x20] ++ ct ++ [0x00]) as Hapdu by done.
  eapply runs_bind; [apply runs_gets|].
  eapply runs_bind; [apply runs_modify|].
  eapply runs_bind; [by apply runs_of|].
  eapply runs_bind. { apply runs_assert, bool_decide_eq_true. rewrite Hapdu, !length_app, Hl. done. }
  eapply runs_bind; [rewrite Hapdu; apply (runs_prefix [_; _; _; _; _])|].
  eapply runs_bind. { apply runs_is. rewrite Hapdu, (assoc_L (++)). apply list_lookup_middle. by rewrite length_app, Hl. }
  rewrite Hapdu, (sub_list_mid _ ct) by (rewrite ?Hl; done). cbn [pa_key pa_rnd_b].
  eapply runs_bind; [by apply runs_of|]. cbv zeta.
  assert (sub_list 0 16 (rnd_a ++ rotate_left EMU_RND_B) = rnd_a) as -> by (by apply (sub_list_mid []); [|destruct Ha]).
  rewrite drop_app_exact by (by destruct Ha). rewrite <-rotated by done. rewrite decide_False by tauto.
  eapply runs_bind; [by apply runs_of, (zero_sealed key 1 _ (card_answer_array _ Ha))|].
  rewrite derive_agree by (first [done|by destruct Ha]).
  eapply runs_bind; [apply runs_modify|]. apply runs_ret.
Qed.

Lemma finish_agrees key rnd_a : array 16 rnd_a →
  finish_auth (TE := MockTransportError) key rnd_a EMU_RND_B (aes_cbc_encrypt_n key zero_iv (card_answer rnd_a)) =
  Ok (opened_by key rnd_a).
Proof.
  intros Ha. unfold finish_auth. rewrite (zero_opens key 1) by (by apply card_answer_array). unfold card_answer.
  destruct Ha as [Hl _].
  assert (sub_list 4 20 (EMU_TI ++ sub_list 1 16 rnd_a ++ sub_list 0 1 rnd_a ++ replicate 12 0) =
    sub_list 1 16 rnd_a ++ sub_list 0 1 rnd_a) as -> by (by explode rnd_a Hl).
  rewrite rotated_back, decide_True by done. unfold opened_by. f_equal. f_equal; by explode rnd_a Hl.
Qed.

Lemma runs_handshake w n key rnd_a : mt_ndef_selected w = true → mt_keys w !! Z.to_nat (as_byte n) = Some key →
  array 16 rnd_a →
  ∃ w', runs (authenticate_ev2_first n key rnd_a : Wm _) w (opened_by key rnd_a) w' ∧
    in_step (with_auth_result (opened_by key rnd_a) n) w' ∧ memory w' = memory w ∧ mt_ndef w' = mt_ndef w.
Proof.
  intros Hs Hk Ha. eexists. split.
  - unfold authenticate_ev2_first.
    eapply runs_bind; [by apply runs_wire, card_auth1|]. cbv zeta.
    cbn [ra_data ra_sw1 ra_sw2]. rewrite decide_True by done.
    destruct (zero_sealed key 0 _ rnd_b_array) as (_ & [Hl _] & _).
    eapply runs_bind. { unfold expect_length. rewrite decide_True by done. apply runs_ret. }
    rewrite (zero_opens key 0) by apply rnd_b_array.
    eapply runs_bind; [apply runs_wire; by eapply card_auth2|].
    cbn [emu_ok ra_data ra_sw1 ra_sw2]. change (rc_ok _) with true. cbv iota.
    destruct (zero_sealed key 1 _ (card_answer_array _ Ha)) as (_ & [Hl2 _] & _).
    eapply runs_bind. { unfold expect_length. rewrite decide_True by done. apply runs_ret. }
    unfold runs, wire_of. by rewrite finish_agrees.
  - split; [|done]. constructor; [done|done|]. apply (bool_decide_unpack _). by vm_compute.
Qed.

Lemma select_answer (w : MockTransport) :
  select_ndef_application (TE := MockTransportError) (session_new, w) =
  (Ok tt, (mkSess tt true None, put_selected true false (put_log NDEF_DF_SELECT w))).
Proof. reflexivity. Qed.

Lemma runs_authenticate w n key rnd_a : mt_keys w !! Z.to_nat (as_byte n) = Some key → array 16 rnd_a →
  ∃ s w', runs (session_authenticate_aes session_new n key rnd_a : Wm _) w s w' ∧
    in_step (se_state s) w' ∧ memory w' = memory w ∧ mt_ndef w' = mt_ndef w.
Proof.
  intros Hk Ha. set (w1 := put_selected true false (put_log NDEF_DF_SELECT w)).
  destruct (runs_handshake w1 n key rnd_a) as (w' & Hr & Hs & Hm & Hn); [done|exact Hk|done|].
  exists (mkSess (with_auth_result (opened_by key rnd_a) n) true None), w'. split; [|done]. unfold runs, session_authenticate_aes. rewrite select_answer. fold w1.
  unfold runs in Hr. by rewrite Hr.
Qed.
End emu.
