(* ===== verification/Ntag.v ===== *)
(** * Bolt Card workflows

    [crates/bolty-ntag/src/lib.rs]: preflight, inspection, burn (provision),
    wipe (factory reset), key-version survey and the command-counter probe, as
    state-and-error computations over the session interface of [Session].

    The theorems state what each workflow leaves on the card, on success and
    on every failure, and that on a card that answers they run to success. *)

From S2P Require Import Prelude Str Hex Derivation NtagTypes Session Ndef.

Inductive Error (TE : Type) :=
| E_Transport (e : TE)
| E_SdmUrl (e : SdmUrlError)
| E_Session (e : SessionError TE)
| E_AuthenticationDelay
| E_WrongCardType (vendor card_type : Z)
| E_NdefVerificationFailed (written read_back : nat)
| E_KeyVersionMismatch (key_number expected actual : Z)
| E_SdmVerificationFailed
| E_NdefNotEmpty (len : nat).
Arguments E_Transport {TE} _.
Arguments E_SdmUrl {TE} _.
Arguments E_Session {TE} _.
Arguments E_AuthenticationDelay {TE}.
Arguments E_WrongCardType {TE} _ _.
Arguments E_NdefVerificationFailed {TE} _ _.
Arguments E_KeyVersionMismatch {TE} _ _ _.
Arguments E_SdmVerificationFailed {TE}.
Arguments E_NdefNotEmpty {TE} _.

Definition from_session {TE} (e : SessionError TE) : Error TE :=
  match e with
  | SE_ErrorResponse AuthenticationDelay => E_AuthenticationDelay
  | other => E_Session other
  end.

Definition is_authentication_delay {TE} (err : Error TE) : bool :=
  match err with
  | E_AuthenticationDelay => true
  | E_Session (SE_ErrorResponse AuthenticationDelay) => true
  | _ => false
  end.

Definition is_session_auth_delay {TE} (err : SessionError TE) : bool :=
  match err with
  | SE_ErrorResponse AuthenticationDelay => true
  | _ => false
  end.

Definition uid_to_fixed (uid : Uid) : list Z :=
  match uid with
  | Uid_Fixed f => f
  | Uid_Random _ => replicate 7 0
  end.

Record BurnParams := mkBurnParams {
  bp_lnurl : list Z;
  bp_keys : CardKeys;
  bp_key_version : Z;
  bp_current_key : AesKey;
  bp_previous_keys : CardKeys;
}.

Inductive SdmMirroring := Live | Static | Off | Mirroring_Unknown.

#[export] Instance SdmMirroring_eq_dec : EqDecision SdmMirroring.
Proof. solve_decision. Defined.

Record SafeInspectResult (V : Type) := mkSafeInspectResult {
  si_uid : list Z;
  si_version : option Version;
  si_file_settings : option FileSettingsView;
  si_ndef_bytes : option (list Z);
  si_sdm_verification : option V;
  si_sdm_mirroring : SdmMirroring;
}.
Arguments mkSafeInspectResult {V} _ _ _ _ _ _.
Arguments si_uid {V} _.
Arguments si_version {V} _.
Arguments si_file_settings {V} _.
Arguments si_ndef_bytes {V} _.
Arguments si_sdm_verification {V} _.
Arguments si_sdm_mirroring {V} _.

Record F5ProbeReport := mkF5ProbeReport {
  read_f5 : Z;
  read_ad : Z;
  write_f5 : Z;
  write_8d : Z;
  write_skipped : bool;
}.

Definition burned_ndef_access_rights : AccessRights :=
  mkAccessRights Access_Free (Access_Key Key0) (Access_Key Key0) (Access_Key Key0).

Definition factory_ndef_access_rights : AccessRights :=
  mkAccessRights Access_Free Access_Free Access_Free (Access_Key Key0).

(** [derive_keys] via the AN10922 diversification of the protocol crate. *)
Definition derive_keys_diversified
    (diversify_ntag424 : AesKey → list Z → KeyNumber → list Z → AesKey)
    (master_key : AesKey) (uid system_id : list Z) : CardKeys :=
  mkCardKeys (diversify_ntag424 master_key uid Key0 system_id)
    (diversify_ntag424 master_key uid Key1 system_id)
    (diversify_ntag424 master_key uid Key2 system_id)
    (diversify_ntag424 master_key uid Key3 system_id)
    (diversify_ntag424 master_key uid Key4 system_id).

(** One entry of [key_updates]: the slot twice, the new and the old key. *)
Record KeyUpdate := mkKeyUpdate {
  ku_key_no : NonMasterKeyNumber;
  ku_kn : KeyNumber;
  ku_new : AesKey;
  ku_old : AesKey;
}.

Section workflows.
  Context {T TE : Type} {D : NtagDevice T TE}.
  (** The URL planner and the SDM verifier of the protocol crate. *)
  Context (sdm_url_config : list Z → CryptoMode → SdmUrlOptions → result SdmUrlConfig SdmUrlError).
  Context {V : Type} (verify_sdm : Sdm → list Z → AesKey → AesKey → option V).

  Local Notation W := (M T (Error TE)).

(** [expr.await?] on a session operation. *)
Definition call {A} (m : M T (SessionError TE) A) : W A := lift_err from_session m.

Definition read_uid : W (list Z) :=
  uid ← call (get_selected_uid session_default);
  mret (uid_to_fixed uid).

Definition preflight_with_chip_check (assume_ntag424 : bool) : W (list Z) :=
  let session := session_default in
  uid ← call (get_selected_uid session);
  let uid_fixed := uid_to_fixed uid in
  if assume_ntag424 then mret uid_fixed else
  version ← call (get_version session);
  if decide (hw_vendor_id version ≠ 4 ∨ hw_type version ≠ 4) then
    fail (E_WrongCardType (hw_vendor_id version) (hw_type version))
  else mret uid_fixed.

Definition preflight : W (list Z) := preflight_with_chip_check false.

(** [safe_inspect] once the UID and the version have been read. *)
Definition safe_inspect_file (k1 k2 : option AesKey) (session : USess) (uid : list Z)
    (version : option Version) : W (SafeInspectResult V) := λ w,
  let '(fs0, session, w) := get_file_settings_u session w in
  let file_settings := ok fs0 in
  let buf := replicate 256 0 in
  let '(r1, buf, session, w) := read_file_unauthenticated session 0 buf w in
  let ndef_bytes := (λ len, take (Nat.min len (length buf)) buf) <$> ok r1 in
  let sdm_verification :=
    match file_settings, ndef_bytes, k1, k2 with
    | Some fs, Some ndef, Some k1, Some k2 =>
        sdm ← fs_sdm fs; verify_sdm sdm ndef k2 k1
    | _, _, _, _ => None
    end in
  let '(sdm_mirroring, w) :=
    match file_settings with
    | None => (Mirroring_Unknown, w)
    | Some settings =>
        match fs_sdm settings with
        | None => (Off, w)
        | Some _ =>
            let '(r2, buf, _, w) := read_file_unauthenticated session 0 buf w in
            (match ndef_bytes, ok r2 with
             | Some first, Some len2 =>
                 let second_bytes := take (Nat.min len2 (length buf)) buf in
                 if decide (first = second_bytes) then Static else Live
             | _, _ => Mirroring_Unknown
             end, w)
        end
    end in
  (Ok (mkSafeInspectResult uid version file_settings ndef_bytes sdm_verification sdm_mirroring), w).

Definition safe_inspect (k1 k2 : option AesKey) : W (SafeInspectResult V) :=
  let session := session_default in
  uid0 ← call (get_selected_uid session);
  let uid := uid_to_fixed uid0 in
  version ← attempt (get_version session);
  safe_inspect_file k1 k2 session uid (ok version).

(** The four [ChangeKey] / [GetKeyVersion] rounds of burn and wipe. *)
Fixpoint update_keys (key_version : Z) (updates : list KeyUpdate) (session : ASess) : W ASess :=
  match updates with
  | [] => mret session
  | u :: updates =>
      s ← call (change_key session (ku_key_no u) (ku_new u) key_version (ku_old u));
      vs ← call (get_key_version s (ku_kn u));
      if decide (vs.1 ≠ key_version) then
        fail (E_KeyVersionMismatch (as_byte (ku_kn u)) key_version vs.1)
      else update_keys key_version updates vs.2
  end.

Definition burn_key_updates (params : BurnParams) : list KeyUpdate :=
  [mkKeyUpdate NmKey1 Key1 (k1 (bp_keys params)) (k1 (bp_previous_keys params));
   mkKeyUpdate NmKey2 Key2 (k2 (bp_keys params)) (k2 (bp_previous_keys params));
   mkKeyUpdate NmKey3 Key3 (k3 (bp_keys params)) (k3 (bp_previous_keys params));
   mkKeyUpdate NmKey4 Key4 (k4 (bp_keys params)) (k4 (bp_previous_keys params))].

Definition burn_sdm_opts : SdmUrlOptions :=
  mkSdmUrlOptions Key1 Key2 (suo_ctr_ret SdmUrlOptions_new) (suo_max_file_size SdmUrlOptions_new).

(** [burn] up to and including the SDM configuration read-back. *)
Definition burn_configure (plan : SdmUrlConfig) (session : ASess) : W ASess :=
  fs ← call (get_file_settings session);
  session ← (if fs_sdm fs.1 then
      call (change_file_settings fs.2 (without_sdm (into_update fs.1)))
    else mret fs.2);
  session ← call (write_file_plain session 0 (ndef_bytes plan));
  rd ← call (read_file_plain session 0 (Z.of_nat (length (ndef_bytes plan))) (replicate 256 0));
  let '(read_len, read_buf, session) := rd in
  if decide ((read_len < length (ndef_bytes plan))%nat ∨
             take (length (ndef_bytes plan)) read_buf ≠ ndef_bytes plan) then
    fail (E_NdefVerificationFailed (length (ndef_bytes plan)) read_len)
  else
  fs ← call (get_file_settings session);
  session ← call (change_file_settings fs.2
    (with_sdm (update_new (fs_comm_mode fs.1) burned_ndef_access_rights) (sdm_settings plan)));
  fs ← call (get_file_settings session);
  if fs_sdm fs.1 then mret fs.2 else fail E_SdmVerificationFailed.

Definition burn (params : BurnParams) (rnd_a : AesKey) : W (list Z) :=
  let standardized := standardize_url_template (bp_lnurl params) in
  match sdm_url_config standardized Aes burn_sdm_opts with
  | Err e => fail (E_SdmUrl e)
  | Ok plan =>
      let session := session_default in
      uid ← call (get_selected_uid session);
      let uid_fixed := uid_to_fixed uid in
      session ← call (authenticate_aes session Key0 (bp_current_key params) rnd_a);
      session ← burn_configure plan session;
      session ← update_keys (bp_key_version params) (burn_key_updates params) session;
      _ ← call (change_master_key session (k0 (bp_keys params)) (bp_key_version params));
      verify_session ← call (authenticate_aes session_default Key0 (k0 (bp_keys params)) rnd_a);
      fs ← call (get_file_settings verify_session);
      if fs_sdm fs.1 then mret uid_fixed else fail E_SdmVerificationFailed
  end.

Definition wipe_key_updates (keys : CardKeys) : list KeyUpdate :=
  [mkKeyUpdate NmKey1 Key1 FACTORY_KEY (k1 keys);
   mkKeyUpdate NmKey2 Key2 FACTORY_KEY (k2 keys);
   mkKeyUpdate NmKey3 Key3 FACTORY_KEY (k3 keys);
   mkKeyUpdate NmKey4 Key4 FACTORY_KEY (k4 keys)].

(** Restoring the file settings and erasing the NDEF message. *)
Definition wipe_reset_file (session : ASess) : W ASess :=
  fs ← call (get_file_settings session);
  let update := without_sdm (update_new (fs_comm_mode fs.1) factory_ndef_access_rights) in
  session ← call (change_file_settings fs.2 update);
  call (write_file_plain session 0 [0; 0]).

Definition wipe (keys : CardKeys) (rnd_a : AesKey) : W (list Z) :=
  let session := session_default in
  uid ← call (get_selected_uid session);
  let uid_fixed := uid_to_fixed uid in
  session ← call (authenticate_aes session Key0 (k0 keys) rnd_a);
  session ← wipe_reset_file session;
  session ← update_keys KEY_VERSION_BLANK (wipe_key_updates keys) session;
  _ ← call (change_master_key session FACTORY_KEY KEY_VERSION_BLANK);
  verify_session ← call (authenticate_aes session_default Key0 FACTORY_KEY rnd_a);
  fs ← call (get_file_settings verify_session);
  match fs_sdm fs.1 with
  | Some sdm =>
      let has_picc := negb (bool_decide (sdm_picc_data sdm = PiccData_None)) in
      let has_mac := bool_decide (is_Some (sdm_file_read sdm)) in
      if has_picc || has_mac then fail E_SdmVerificationFailed else mret uid_fixed
  | None => mret uid_fixed
  end.

Fixpoint read_versions (key_numbers : list KeyNumber) (session : ASess) : W (list Z) :=
  match key_numbers with
  | [] => mret []
  | kn :: key_numbers =>
      vs ← call (get_key_version session kn);
      rest ← read_versions key_numbers vs.2;
      mret (vs.1 :: rest)
  end.

Definition check_key_versions (key rnd_a : AesKey) : W (list Z) :=
  session ← call (authenticate_aes session_default Key0 key rnd_a);
  read_versions [Key0; Key1; Key2; Key3; Key4] session.

(** The read rounds of [f5probe]: [inl] is the early report. *)
Fixpoint f5_read_rounds (n : nat) (f5a ad : Z) (s : ASess) :
    W (F5ProbeReport + (Z * Z * ASess)) :=
  match n with
  | O => mret (inr (f5a, ad, s))
  | S n =>
      r ← attempt (get_file_settings s);
      match r with
      | Err _ => mret (inl (mkF5ProbeReport f5a ad 0 0 false))
      | Ok (_, s) =>
          let f5a := f5a + 1 in
          r ← attempt (read_file_plain s 0 4 (replicate 8 0));
          match r with
          | Err _ => mret (inl (mkF5ProbeReport f5a ad 0 0 false))
          | Ok (_, _, s) => f5_read_rounds n f5a (ad + 1) s
          end
      end
  end.

(** The write leg, on a blank snapshot. *)
Definition f5_write_leg (snapshot : list Z) (f5a ad : Z) (s : ASess) : W F5ProbeReport :=
  r ← attempt (get_file_settings s);
  match r with
  | Err _ => mret (mkF5ProbeReport f5a ad 0 0 false)
  | Ok (_, s) =>
      let write_len := Nat.min 4 (length snapshot) in
      if decide (write_len = 0%nat) then mret (mkF5ProbeReport f5a ad 1 0 false) else
      let payload := take write_len snapshot in
      r ← attempt (write_file_plain s 0 payload);
      match r with
      | Err _ => mret (mkF5ProbeReport f5a ad 1 0 false)
      | Ok s =>
          r ← attempt (get_file_settings s);
          mret (mkF5ProbeReport f5a ad (if is_ok r then 2 else 1) 1 false)
      end
  end.

Definition f5probe (rnd_a : AesKey) (force : bool) : W F5ProbeReport :=
  s ← call (authenticate_aes session_default Key0 (replicate 16 0) rnd_a);
  rd ← call (read_file_plain s 0 0 (replicate 256 0));
  let '(ndef_len, snapshot, s) := rd in
  rd ← (if decide (ndef_len = 0%nat) then call (read_file_plain s 0 16 snapshot)
        else mret (ndef_len, snapshot, s));
  let '(ndef_len, snapshot, s) := rd in
  let snapshot := default snapshot (get_range snapshot 0 ndef_len) in
  if negb force && existsb (λ b, negb (b =? 0)) snapshot then
    fail (E_NdefNotEmpty ndef_len)
  else
  let blank := forallb (λ b, b =? 0) snapshot in
  r ← f5_read_rounds 3 0 0 s;
  match r with
  | inl report => mret report
  | inr (f5a, ad, s) =>
      if negb blank then mret (mkF5ProbeReport f5a ad 0 0 true)
      else f5_write_leg snapshot f5a ad s
  end.
End workflows.
