(* ===== verification/NtagProofs.v ===== *)
(** * Correctness of the Bolt Card workflows

    What [burn], [wipe], [safe_inspect], [check_key_versions], [preflight] and
    [f5probe] of [Ntag] do to a card, proved against the session interface:
    phase by phase specifications with explicit frames, then the theorems on
    the whole workflows, and their instances on the simulated card. *)

From S2P Require Import Prelude Str Hex Derivation NtagTypes Session Ndef Ntag.

(** ** Proof support *)

(** A step of a workflow: the callee satisfies [P], and both continuations
    establish the goal from it. *)
Lemma wp_call_bind {T TE A B} (m : M T (SessionError TE) A) (k : A → M T (Error TE) B) P Q w :
  wp m P w →
  (∀ a w', P (Ok a) w' → wp (k a) Q w') →
  (∀ e w', P (Err e) w' → Q (Err (from_session e)) w') →
  wp (call m ≫= k) Q w.
Proof.
  intros Hm Hk He. apply wp_bind, wp_lift_err. eapply wp_mono; [exact Hm|].
  intros [a|e] w' HP; simpl; auto.
Qed.

Lemma wp_call {T TE A} (m : M T (SessionError TE) A) P (Q : result A (Error TE) → T → Prop) w :
  wp m P w →
  (∀ a w', P (Ok a) w' → Q (Ok a) w') →
  (∀ e w', P (Err e) w' → Q (Err (from_session e)) w') →
  wp (call m) Q w.
Proof.
  intros Hm Hk He. apply wp_lift_err. eapply wp_mono; [exact Hm|].
  intros [a|e] w' HP; simpl; auto.
Qed.

Lemma wp_attempt_bind {T TE A B} (m : M T (SessionError TE) A)
    (k : result A (SessionError TE) → M T (Error TE) B) P Q w :
  wp m P w → (∀ r w', P r w' → wp (k r) Q w') → wp (attempt m ≫= k) Q w.
Proof.
  intros Hm Hk. apply wp_bind, wp_attempt. eapply wp_mono; [exact Hm|]. auto.
Qed.

(** A step whose success is guaranteed by the callee's specification. *)
Lemma wp_call_bind_ok {T TE A B} (m : M T (SessionError TE) A) (k : A → M T (Error TE) B) P Q w :
  wp m (λ r w', ∃ a, r = Ok a ∧ P a w') w →
  (∀ a w', P a w' → wp (k a) Q w') → wp (call m ≫= k) Q w.
Proof.
  intros Hm Hk. eapply wp_call_bind; [exact Hm| |]; naive_solver.
Qed.

Lemma wp_bind_ok {T TE A B} (m : M T (Error TE) A) (k : A → M T (Error TE) B) P Q w :
  wp m (λ r w', ∃ a, r = Ok a ∧ P a w') w →
  (∀ a w', P a w' → wp (k a) Q w') → wp (m ≫= k) Q w.
Proof.
  intros Hm Hk. apply wp_bind. eapply wp_mono; [exact Hm|]. intros r w' (a & -> & HP). eauto.
Qed.

(** ** Frames: what a phase of a workflow leaves alone *)

Definition keys_kept (c c' : Card) : Prop :=
  c_uid c' = c_uid c ∧ c_version c' = c_version c ∧ c_keys c' = c_keys c ∧ c_vers c' = c_vers c.

Definition master_kept (c c' : Card) : Prop :=
  c_uid c' = c_uid c ∧ k0 (c_keys c') = k0 (c_keys c) ∧ v0 (c_vers c') = v0 (c_vers c).

Definition file_kept (c c' : Card) : Prop :=
  c_ndef c' = c_ndef c ∧ c_file c' = c_file c.

#[export] Instance keys_kept_preorder : PreOrder keys_kept.
Proof. split; [repeat split|]. unfold keys_kept. intros x y z ??. intuition congruence. Qed.

#[export] Instance master_kept_preorder : PreOrder master_kept.
Proof. split; [repeat split|]. unfold master_kept. intros x y z ??. intuition congruence. Qed.

#[export] Instance file_kept_preorder : PreOrder file_kept.
Proof. split; [repeat split|]. unfold file_kept. intros x y z ??. intuition congruence. Qed.

Lemma keys_kept_master c c' : keys_kept c c' → master_kept c c'.
Proof. unfold keys_kept, master_kept. intros (-> & _ & -> & ->). done. Qed.

Lemma keys_kept_eq c c' : c' = c → keys_kept c c'.
Proof. by intros ->. Qed.

Lemma set_card_file_keys u c : keys_kept c (set_card_file u c).
Proof. done. Qed.

Lemma set_card_ndef_keys d c : keys_kept c (set_card_ndef d c).
Proof. done. Qed.

Lemma set_card_key_file n k ver c : file_kept c (set_card_key n k ver c).
Proof. done. Qed.

Lemma set_card_key_master n k ver c :
  master_kept c (set_card_key (key_number_from n) k ver c).
Proof. by destruct n. Qed.

#[export] Hint Resolve keys_kept_master keys_kept_eq set_card_file_keys set_card_ndef_keys
  set_card_key_file set_card_key_master : bolty.

(** The effect of a completed sequence of key updates. *)
Fixpoint apply_updates (ver : Z) (updates : list KeyUpdate) (c : Card) : Card :=
  match updates with
  | [] => c
  | u :: updates =>
      apply_updates ver updates (set_card_key (key_number_from (ku_key_no u)) (ku_new u) ver c)
  end.

(** Every update names the same slot for the change and for the read-back. *)
Definition slots_agree (updates : list KeyUpdate) : Prop :=
  Forall (λ u, ku_kn u = key_number_from (ku_key_no u)) updates.

Lemma get_set_ver n v x : get_ver n (set_ver n x v) = x.
Proof. by destruct n. Qed.

Lemma get_set_key_other n m k ks : n ≠ m → get_key n (set_key m k ks) = get_key n ks.
Proof. by destruct n, m. Qed.

(** The state a successful [burn] leaves. *)
Record provisioned (plan : SdmUrlConfig) (params : BurnParams) (before after : Card) : Prop := {
  prov_uid : c_uid after = c_uid before;
  prov_keys : c_keys after = bp_keys params;
  prov_vers : c_vers after = all_versions (bp_key_version params);
  prov_ndef : take (length (ndef_bytes plan)) (c_ndef after) = ndef_bytes plan;
  prov_comm : fs_comm_mode (c_file after) = fs_comm_mode (c_file before);
  prov_access : fs_access_rights (c_file after) = burned_ndef_access_rights;
  prov_sdm : card_sdm after = Some (sdm_settings plan);
}.

(** The state a successful [wipe] leaves. *)
Record factory_reset (before after : Card) : Prop := {
  fac_uid : c_uid after = c_uid before;
  fac_keys : c_keys after = CardKeys_zeroed;
  fac_vers : c_vers after = all_versions KEY_VERSION_BLANK;
  fac_ndef : take 2 (c_ndef after) = [0; 0];
  fac_access : fs_access_rights (c_file after) = factory_ndef_access_rights;
  fac_comm : fs_comm_mode (c_file after) = fs_comm_mode (c_file before);
  fac_sdm : card_sdm after = None;
}.

(** The card between [burn_configure] and the first key change. *)
Record configured (plan : SdmUrlConfig) (before after : Card) : Prop := {
  conf_ndef : take (length (ndef_bytes plan)) (c_ndef after) = ndef_bytes plan;
  conf_comm : fs_comm_mode (c_file after) = fs_comm_mode (c_file before);
  conf_access : fs_access_rights (c_file after) = burned_ndef_access_rights;
  conf_sdm : card_sdm after = Some (sdm_settings plan);
}.

Section laws.
  Context {T TE : Type} {D : NtagDevice T TE} {L : NtagLaws D}.

Ltac step law := eapply wp_call_bind; [apply law| |]; cbn beta.

Lemma update_keys_spec ver ups s w :
  wp (update_keys ver ups s) (λ r w',
    master_kept (card w) (card w') ∧ file_kept (card w) (card w') ∧
    ∀ s', r = Ok s' → card w' = apply_updates ver ups (card w)) w.
Proof.
  revert s w. induction ups as [|u ups IH]; intros s w; simpl; [by apply wp_ret|].
  step law_change_key.
  2:{ intros e w1 [[-> | ->] _]; (split; [|split]); auto with bolty; try done. }
  intros s1 w1 [_ Hc]. specialize (Hc _ eq_refl).
  step law_key_version.
  2:{ intros e w2 [-> _]. rewrite Hc. (split; [|split]); auto with bolty; done. }
  intros [v s2] w2 [Hw _]. case_decide.
  { apply wp_fail. rewrite Hw, Hc. (split; [|split]); auto with bolty; done. }
  eapply wp_mono; [apply IH|]. rewrite Hw, Hc. intros r w3 (Hm & Hf & Hok).
  split; [|split]; [..|exact Hok].
  - etrans; [apply set_card_key_master|exact Hm].
  - etrans; [apply set_card_key_file|exact Hf].
Qed.

Lemma burn_configure_spec plan s w :
  wp (burn_configure plan s) (λ r w', keys_kept (card w) (card w') ∧
    ∀ s', r = Ok s' → configured plan (card w) (card w')) w.
Proof.
  unfold burn_configure.
  step law_file_settings; [|by intros e w' [-> _]]. intros [fs s1] w1 [Hw1 Hfs].
  specialize (Hfs _ _ eq_refl). subst fs. cbn [fst snd].
  apply wp_bind. eapply (wp_mono _ (λ r w', keys_kept (card w) (card w') ∧
    (is_ok r = true → card_sdm (card w') = None ∧
       fs_comm_mode (c_file (card w')) = fs_comm_mode (c_file (card w))))).
  { destruct (fs_sdm (c_file (card w))) as [x|] eqn:Esdm.
    - eapply wp_call; [apply law_change_file| |]; cbn beta.
      + intros s2 w2 [_ H]. rewrite (H _ eq_refl), Hw1. split; [apply set_card_file_keys|].
        intros _. unfold into_update. by rewrite Esdm.
      + intros e w2 [[-> | ->] _]; rewrite Hw1; split; done.
    - apply wp_ret. rewrite Hw1. split; done. }
  intros [s2|e] w2 [Hk Hs]; [|by split]. destruct (Hs eq_refl) as [Hs0 Hcm].
  step law_write; [lia| |].
  2:{ intros e w3 [(got & -> & _) _]. split; [|done]. etrans; [exact Hk|done]. }
  intros s3 w3 [_ H]. destruct (H _ eq_refl) as [Hw3 Hlen]. clear H.
  step law_read; [lia| |].
  2:{ intros e w4 [-> _]. rewrite Hw3. split; [|done]. etrans; [exact Hk|done]. }
  intros [[n buf] s4] w4 [Hw4 H]. destruct (H _ _ _ eq_refl) as (Hb & Hn & Hread). clear H.
  case_decide as Hcmp.
  { apply wp_fail. rewrite Hw4, Hw3. split; [|done]. etrans; [exact Hk|done]. }
  step law_file_settings.
  2:{ intros e w5 [-> _]. rewrite Hw4, Hw3. split; [|done]. etrans; [exact Hk|done]. }
  intros [fs s5] w5 [Hw5 Hfs]. specialize (Hfs _ _ eq_refl). cbn [fst snd]. subst fs.
  step law_change_file.
  2:{ intros e w6 [[-> | ->] _]; rewrite Hw5, Hw4, Hw3; (split; [|done]); by (etrans; [exact Hk|]). }
  intros s6 w6 [_ Hw6]. specialize (Hw6 _ eq_refl).
  assert (keys_kept (card w) (card w6)) as Hk6.
  { rewrite Hw6, Hw5, Hw4, Hw3. by (etrans; [exact Hk|]). }
  step law_file_settings; [|by intros e w7 [-> _]].
  intros [fs s7] w7 [Hw7 _]. simpl.
  destruct (fs_sdm fs); [apply wp_ret | apply wp_fail]; rewrite Hw7; (split; [done|]); [|done].
  intros s' _. rewrite Hw6, Hw5, Hw4, Hw3. constructor; try done. simpl.
  apply (take_app_length (ndef_bytes plan)).
Qed.

Lemma wipe_reset_file_spec s w :
  wp (wipe_reset_file s) (λ r w', keys_kept (card w) (card w') ∧
    ∀ s', r = Ok s' → take 2 (c_ndef (card w')) = [0; 0] ∧
      fs_access_rights (c_file (card w')) = factory_ndef_access_rights ∧
      fs_comm_mode (c_file (card w')) = fs_comm_mode (c_file (card w)) ∧
      card_sdm (card w') = None) w.
Proof.
  unfold wipe_reset_file.
  step law_file_settings; [|by intros e w' [-> _]]. intros [fs s1] w1 [Hw1 Hfs].
  specialize (Hfs _ _ eq_refl). subst fs. cbn [fst snd].
  step law_change_file.
  2:{ intros e w2 [[-> | ->] _]; rewrite Hw1; split; done. }
  intros s2 w2 [_ Hw2]. specialize (Hw2 _ eq_refl).
  eapply wp_call; [apply law_write; lia| |]; cbn beta.
  - intros s3 w3 [_ H]. destruct (H _ eq_refl) as [-> _]. rewrite Hw2, Hw1. split; [done|].
    intros _ _. split; [|done]. apply (take_app_length [0; 0]).
  - intros e w3 [(got & -> & _) _]. rewrite Hw2, Hw1. split; done.
Qed.

(** The tail shared by burn and wipe: key updates, master key, read-back. *)
Definition finish (ver : Z) (ups : list KeyUpdate) (master : AesKey) (rnd_a : AesKey)
    {A} (check : FileSettingsView → M T (Error TE) A) (session : ASess) : M T (Error TE) A :=
  session ← update_keys ver ups session;
  _ ← call (change_master_key session master ver);
  verify_session ← call (authenticate_aes session_default Key0 master rnd_a);
  fs ← call (get_file_settings verify_session);
  check fs.1.

Lemma finish_spec ver ups master rnd {A} (check : FileSettingsView → M T (Error TE) A) (P : A → Prop) s w :
  (∀ v w', wp (check v) (λ r w'', w'' = w' ∧ ∀ a, r = Ok a → P a) w') →
  wp (finish ver ups master rnd check s) (λ r w',
    file_kept (card w) (card w') ∧
    (master_kept (card w) (card w') ∨
     card w' = set_card_key Key0 master ver (apply_updates ver ups (card w))) ∧
    ∀ a, r = Ok a → P a ∧ card w' = set_card_key Key0 master ver (apply_updates ver ups (card w))) w.
Proof.
  intros Hcheck. unfold finish. apply wp_bind.
  eapply wp_mono; [apply update_keys_spec|]. intros [s1|e] w1 (Hm & Hf & Hok); [|naive_solver].
  specialize (Hok _ eq_refl).
  step law_change_master.
  2:{ intros e w2 [[-> | ->] _]; [naive_solver|]. split; [|split]; [|rewrite Hok; by right|done].
      etrans; [exact Hf|done]. }
  intros s2 w2 [_ Hw2]. specialize (Hw2 _ eq_refl). rewrite Hok in Hw2.
  assert (file_kept (card w) (card w2)) as Hf2.
  { rewrite Hw2, <-Hok. etrans; [exact Hf|done]. }
  rewrite Hw2 in Hf2.
  step law_auth; [|intros e w3 [-> _]; rewrite Hw2; naive_solver].
  intros s3 w3 [Hw3 _].
  step law_file_settings; [|intros e w4 [-> _]; rewrite Hw3, Hw2; naive_solver].
  intros [fs s4] w4 [Hw4 _]. eapply wp_mono; [apply Hcheck|].
  intros r w5 [-> HP]. rewrite Hw4, Hw3, Hw2. naive_solver.
Qed.

Lemma wipe_finish keys rnd :
  wipe keys rnd =
    (uid ← call (get_selected_uid session_default);
     session ← call (authenticate_aes session_default Key0 (k0 keys) rnd);
     session ← wipe_reset_file session;
     finish KEY_VERSION_BLANK (wipe_key_updates keys) FACTORY_KEY rnd
       (λ fs, match fs_sdm fs with
        | Some sdm =>
            if negb (bool_decide (sdm_picc_data sdm = PiccData_None)) ||
               bool_decide (is_Some (sdm_file_read sdm))
            then fail E_SdmVerificationFailed else mret (uid_to_fixed uid)
        | None => mret (uid_to_fixed uid)
        end) session).
Proof. reflexivity. Qed.

Lemma wipe_outcome keys rnd w :
  wp (wipe keys rnd) (λ r w',
    (master_kept (card w) (card w') ∨ factory_reset (card w) (card w')) ∧
    ∀ uid, r = Ok uid → uid = uid_to_fixed (c_uid (card w)) ∧
      k0 (c_keys (card w)) = k0 keys ∧ factory_reset (card w) (card w')) w.
Proof.
  rewrite wipe_finish.
  step law_uid; [|intros e w' [-> _]; by split; [left|]]. intros uid w1 [Hw1 Hu].
  specialize (Hu _ eq_refl). subst uid.
  step law_auth; [|intros e w' [-> _]; rewrite Hw1; by split; [left|]].
  intros s1 w2 [Hw2 Hk0]. specialize (Hk0 _ eq_refl). rewrite Hw1 in Hw2, Hk0. simpl in Hk0.
  apply wp_bind. eapply wp_mono; [apply wipe_reset_file_spec|].
  rewrite Hw2. intros [s2|e] w3 [Hk Hc]; [|by split; [left; auto with bolty|]].
  destruct (Hc _ eq_refl) as (Hn & Ha & Hm & Hs). clear Hc.
  assert (∀ c'', c'' = set_card_key Key0 FACTORY_KEY KEY_VERSION_BLANK
    (apply_updates KEY_VERSION_BLANK (wipe_key_updates keys) (card w3)) →
    factory_reset (card w) c'') as Hfac.
  { intros c'' ->. destruct Hk as (Hu & _). by constructor. }
  eapply wp_mono.
  { apply (finish_spec _ _ _ _ _ (λ u, u = uid_to_fixed (c_uid (card w)))).
    intros v w'. destruct (fs_sdm v); [destruct (_ || _)|]; split; naive_solver. }
  intros r w4 (_ & Hor & Hok). split.
  - destruct Hor as [Hm4|Hc4]; [left|right; by auto].
    etrans; [by apply keys_kept_master|exact Hm4].
  - intros u ->. destruct (Hok _ eq_refl) as [-> Hc4]. auto.
Qed.

Context (sdm_url_config : list Z → CryptoMode → SdmUrlOptions → result SdmUrlConfig SdmUrlError).

(** [burn] and [wipe] end in [finish]. *)
Lemma burn_finish params rnd :
  burn sdm_url_config params rnd =
  match sdm_url_config (standardize_url_template (bp_lnurl params)) Aes burn_sdm_opts with
  | Err e => fail (E_SdmUrl e)
  | Ok plan =>
      uid ← call (get_selected_uid session_default);
      session ← call (authenticate_aes session_default Key0 (bp_current_key params) rnd);
      session ← burn_configure plan session;
      finish (bp_key_version params) (burn_key_updates params) (k0 (bp_keys params)) rnd
        (λ fs, if fs_sdm fs then mret (uid_to_fixed uid) else fail E_SdmVerificationFailed) session
  end.
Proof. reflexivity. Qed.

Lemma provisioned_finish plan params c c' c'' :
  keys_kept c c' → configured plan c c' →
  c'' = set_card_key Key0 (k0 (bp_keys params)) (bp_key_version params)
    (apply_updates (bp_key_version params) (burn_key_updates params) c') →
  provisioned plan params c c''.
Proof.
  intros (Hu & _ & Hk & Hv) [Hn Hm Ha Hs] ->.
  constructor; try done. by destruct params as [? [] ? ? ?].
Qed.

Lemma burn_outcome params rnd w :
  wp (burn sdm_url_config params rnd) (λ r w',
    (master_kept (card w) (card w') ∨
     ∃ plan, sdm_url_config (standardize_url_template (bp_lnurl params)) Aes burn_sdm_opts = Ok plan ∧
       provisioned plan params (card w) (card w')) ∧
    ∀ uid, r = Ok uid → uid = uid_to_fixed (c_uid (card w)) ∧
      k0 (c_keys (card w)) = bp_current_key params ∧
      ∃ plan, sdm_url_config (standardize_url_template (bp_lnurl params)) Aes burn_sdm_opts = Ok plan ∧
        provisioned plan params (card w) (card w')) w.
Proof.
  rewrite burn_finish.
  destruct (sdm_url_config _ _ _) as [plan|e]; [|by apply wp_fail; split; [left|]].
  step law_uid; [|intros e w' [-> _]; by split; [left|]]. intros uid w1 [Hw1 Hu].
  specialize (Hu _ eq_refl). subst uid.
  step law_auth; [|intros e w' [-> _]; rewrite Hw1; by split; [left|]].
  intros s1 w2 [Hw2 Hk0]. specialize (Hk0 _ eq_refl). rewrite Hw1 in Hw2, Hk0. simpl in Hk0.
  apply wp_bind. eapply wp_mono; [apply burn_configure_spec|].
  rewrite Hw2. intros [s2|e] w3 [Hk Hc]; [|by split; [left; auto with bolty|]].
  specialize (Hc _ eq_refl).
  eapply wp_mono.
  { apply (finish_spec _ _ _ _ _ (λ u, u = uid_to_fixed (c_uid (card w)))).
    intros v w'. destruct (fs_sdm v); split; naive_solver. }
  intros r w4 (_ & Hor & Hok). split.
  - destruct Hor as [Hm|Hc4].
    + left. etrans; [by apply keys_kept_master|exact Hm].
    + right. exists plan. split; [done|]. by eapply provisioned_finish.
  - intros u ->. destruct (Hok _ eq_refl) as [-> Hc4]. split; [done|]. split; [done|].
    exists plan. split; [done|]. by eapply provisioned_finish.
Qed.
End laws.

(** ** Workflows on a card that answers *)

Section live.
  Context {T TE : Type} {D : NtagDevice T TE} {V : NtagAnswers D}.

Definition olds_match (ups : list KeyUpdate) (c : Card) : Prop :=
  Forall (λ u, get_key (key_number_from (ku_key_no u)) (c_keys c) = ku_old u) ups.

Lemma olds_match_other u ups ver c :
  u.(ku_key_no) ∉ map ku_key_no ups → olds_match ups c →
  olds_match ups (set_card_key (key_number_from (ku_key_no u)) (ku_new u) ver c).
Proof.
  unfold olds_match. rewrite !Forall_forall. intros Hu H x Hx. simpl.
  rewrite get_set_key_other; [by apply H|]. intros E. apply Hu.
  assert (ku_key_no x = ku_key_no u) as <- by (by destruct (ku_key_no x), (ku_key_no u)).
  by apply list_elem_of_In, in_map, list_elem_of_In.
Qed.

(** An update whose new key the device takes. *)
Definition blocks_ok (ups : list KeyUpdate) : Prop := Forall (λ u, block_ok (ku_new u)) ups.

Lemma update_keys_live ver ups s w :
  up w → opened w s Key0 → version_ok ver → slots_agree ups → NoDup (map ku_key_no ups) →
  blocks_ok ups → olds_match ups (shown w) →
  wp (update_keys ver ups s) (λ r w', ∃ s', r = Ok s' ∧ up w' ∧ opened w' s' Key0 ∧
    shown w' = apply_updates ver ups (shown w)) w.
Proof.
  intros Hl Ha Hv0 Hs. revert s w Hl Ha. induction Hs as [|u ups Hu Hs IH]; intros s w Hl Ha Hn Hb Ho; simpl.
  { apply wp_ret. eauto. }
  inversion Hn as [|? ? Hu' Hn']; inversion Hb as [|? ? Hblk Hb']; inversion Ho as [|? ? Hold Ho']; subst.
  eapply wp_call_bind_ok; [by apply ans_change_key|]. intros s1 w1 (Hl1 & Ha1 & Hc1).
  eapply wp_call_bind_ok; [by apply ans_key_version|].
  intros [v s2] w2 (Hl2 & Ha2 & Hc2 & Hv). cbn [fst snd] in *.
  rewrite Hu, Hc1 in Hv. simpl in Hv. rewrite get_set_ver in Hv.
  rewrite decide_False by tauto. rewrite Hc1 in Hc2.
  eapply wp_mono; [apply IH; auto; rewrite Hc2; by apply olds_match_other|].
  rewrite Hc2. done.
Qed.

Lemma apply_updates_file ver ups c : file_kept c (apply_updates ver ups c).
Proof.
  revert c. induction ups as [|u ups IH]; intros c; simpl; [done|].
  etrans; [apply set_card_key_file|apply IH].
Qed.

Lemma finish_live ver ups master rnd {A} (check : FileSettingsView → M T (Error TE) A) (a : A) s w :
  up w → opened w s Key0 → version_ok ver → block_ok master → block_ok rnd →
  slots_agree ups → NoDup (map ku_key_no ups) → blocks_ok ups → olds_match ups (shown w) →
  (∀ w', wp (check (c_file (shown w))) (λ r w'', w'' = w' ∧ r = Ok a) w') →
  wp (finish ver ups master rnd check s) (λ r w', r = Ok a ∧ up w' ∧
    shown w' = set_card_key Key0 master ver (apply_updates ver ups (shown w))) w.
Proof.
  intros Hl Ha Hv Hm Hr Hs Hn Hb Ho Hcheck. unfold finish.
  eapply wp_bind_ok; [by apply update_keys_live|]. intros s1 w1 (Hl1 & Ha1 & Hc1).
  eapply wp_call_bind_ok; [by apply ans_change_master|]. intros s2 w2 (Hl2 & Hc2).
  eapply wp_call_bind_ok; [apply ans_auth; [done..|by rewrite Hc2]|].
  intros s3 w3 (Hl3 & Hc3 & Ha3).
  eapply wp_call_bind_ok; [by apply ans_file_settings|].
  intros [fs s4] w4 (Hl4 & Hc4 & Hfs & _). cbn [fst snd] in *.
  replace fs with (c_file (shown w));
    [|by rewrite Hfs, Hc3, Hc2, Hc1; destruct (apply_updates_file ver ups (shown w))].
  eapply wp_mono; [apply Hcheck|]. intros r w5 [-> ->]. rewrite Hc4, Hc3, Hc2, Hc1. done.
Qed.

Record wipe_ready (keys : CardKeys) (c : Card) : Prop := {
  wready_keys : c_keys c = keys;
  wready_change : may_change Key0 (c_file c) = true;
  wready_comm : fs_comm_mode (c_file c) = Plain;
  wready_size : (2 ≤ capacity c)%nat;
}.

Lemma wipe_reset_file_live keys s w :
  up w → opened w s Key0 → wipe_ready keys (shown w) →
  wp (wipe_reset_file s) (λ r w', ∃ s', r = Ok s' ∧ up w' ∧ opened w' s' Key0 ∧
    shown w' = set_card_ndef (copy_at 0 [0; 0] (c_ndef (shown w)))
      (set_card_file (without_sdm (update_new (fs_comm_mode (c_file (shown w))) factory_ndef_access_rights)) (shown w))) w.
Proof.
  intros Hl Ha [Hk Hch Hcm Hsz]. unfold wipe_reset_file.
  eapply wp_call_bind_ok; [by apply ans_file_settings|].
  intros [fs s1] w1 (Hl1 & Hc1 & Hfs & Ha1). cbn [fst snd] in *. subst fs.
  eapply wp_call_bind_ok.
  { apply ans_change_file; eauto; [by rewrite Hc1|apply sdm_ok_none]. }
  intros s2 w2 (Hl2 & Ha2 & Hc2). rewrite Hc1 in Hc2.
  eapply wp_call; [apply ans_write; eauto; rewrite Hc2; (done || by rewrite capacity_file)| |]; cbn beta.
  - intros s3 w3 (? & [= <-] & Hl3 & Ha3 & Hc3). rewrite Hc2 in Hc3. eauto 10.
  - intros e w3 (? & [=] & _).
Qed.

Lemma wipe_live keys rnd w :
  up w → block_ok rnd → wipe_ready keys (shown w) →
  wp (wipe keys rnd) (λ r w', r = Ok (uid_to_fixed (c_uid (shown w))) ∧ up w' ∧
    factory_reset (shown w) (shown w')) w.
Proof.
  intros Hl Hr Hready. rewrite wipe_finish.
  eapply wp_call_bind_ok; [by apply ans_uid|]. intros uid w1 (Hl1 & Hc1 & ->).
  eapply wp_call_bind_ok; [apply ans_auth; [done..|rewrite Hc1; by destruct Hready as [<-]]|].
  intros s1 w2 (Hl2 & Hc2 & Ha2). rewrite Hc1 in Hc2.
  eapply wp_bind_ok; [eapply wipe_reset_file_live; eauto; by rewrite Hc2|].
  intros s2 w3 (Hl3 & Ha3 & Hc3). rewrite Hc2 in Hc3.
  eapply wp_mono.
  { eapply finish_live; [done|done|apply version_ok_blank|apply block_ok_blank|done|..].
    - repeat constructor; done.
    - by apply (bool_decide_unpack _).
    - repeat constructor; apply block_ok_blank.
    - rewrite Hc3. unfold olds_match. simpl. destruct Hready as [-> _ _ _]. repeat constructor; done.
    - intros w'. rewrite Hc3. by apply wp_ret. }
  intros r w4 (-> & Hl4 & Hc4). split; [done|]. split; [done|]. rewrite Hc4, Hc3. by constructor.
Qed.

Context (sdm_url_config : list Z → CryptoMode → SdmUrlOptions → result SdmUrlConfig SdmUrlError).

(** A card [burn] can provision: the caller's keys are the card's, and the NDEF
    file is plain, large enough and open to the master key. *)
Record burn_ready (plan : SdmUrlConfig) (params : BurnParams) (c : Card) : Prop := {
  ready_current : k0 (c_keys c) = bp_current_key params;
  ready_previous : olds_match (burn_key_updates params) c;
  ready_blocks : blocks_ok (burn_key_updates params);
  ready_master : block_ok (k0 (bp_keys params));
  ready_version : version_ok (bp_key_version params);
  ready_change : may_change Key0 (c_file c) = true;
  ready_write : may_write Key0 (c_file c) = true;
  ready_read : may_read Key0 (c_file c) = true;
  ready_comm : fs_comm_mode (c_file c) = Plain;
  ready_nonempty : ndef_bytes plan ≠ [];
  ready_small : (length (ndef_bytes plan) ≤ 256)%nat;
  ready_fits : (length (ndef_bytes plan) ≤ capacity c)%nat;
  ready_accepts : sdm_ok (Some (sdm_settings plan));
}.

(** The file without SDM, which the message is written into. *)
Definition cleared (c c' : Card) : Prop :=
  keys_kept c c' ∧ c_ndef c' = c_ndef c ∧ card_sdm c' = None ∧
  fs_comm_mode (c_file c') = fs_comm_mode (c_file c) ∧
  fs_access_rights (c_file c') = fs_access_rights (c_file c) ∧ capacity c' = capacity c.

Lemma burn_clear_live fs s w :
  up w → opened w s Key0 → fs = c_file (shown w) → may_change Key0 fs = true →
  wp (if fs_sdm fs then call (change_file_settings s (without_sdm (into_update fs))) else mret s)
    (λ r w', ∃ s', r = Ok s' ∧ up w' ∧ opened w' s' Key0 ∧ cleared (shown w) (shown w')) w.
Proof.
  intros Hl Ha -> Hch. destruct (fs_sdm (c_file (shown w))) as [x|] eqn:Es.
  - eapply wp_call; [apply ans_change_file; eauto using sdm_ok_none| |]; cbn beta.
    + intros s2 w2 (? & [= <-] & Hl2 & Ha2 & Hc2). eexists. do 3 (split; [done|]).
      rewrite Hc2. unfold into_update. rewrite Es. split; [done|]. do 4 (split; [done|]). apply capacity_file.
    + intros e w2 (? & [=] & _).
  - apply wp_ret. eexists. do 3 (split; [done|]). done.
Qed.

Lemma burn_configure_live plan params s w :
  up w → opened w s Key0 → burn_ready plan params (shown w) →
  wp (burn_configure plan s) (λ r w', ∃ s', r = Ok s' ∧ up w' ∧ opened w' s' Key0 ∧
    keys_kept (shown w) (shown w') ∧ configured plan (shown w) (shown w')) w.
Proof.
  intros Hl Ha [? ? ? ? ? Hch Hwr Hrd Hcm Hne Hsm Hfit Hacc]. unfold burn_configure.
  eapply wp_call_bind_ok; [by apply ans_file_settings|].
  intros [fs s1] w1 (Hl1 & Hc1 & Hfs & Ha1). cbn [fst snd] in *.
  eapply wp_bind_ok; [apply burn_clear_live; try done; [by rewrite Hc1|by rewrite Hfs]|].
  intros s2 w2 (Hl2 & Ha2 & Hk2 & Hn2 & Hs2 & Hm2 & Hr2 & Hcap2). rewrite Hc1 in *. clear Hfs fs.
  eapply wp_call_bind_ok.
  { apply ans_write; eauto; [unfold may_write in *; by rewrite Hr2|by rewrite Hm2|by rewrite Hcap2]. }
  intros s3 w3 (Hl3 & Ha3 & Hc3).
  eapply wp_call_bind_ok.
  { apply ans_read; eauto; rewrite Hc3; simpl; auto.
    - unfold may_read in *. by rewrite Hr2.
    - by rewrite Hm2.
    - apply (take_app_length (ndef_bytes plan)). }
  intros [[n buf] s4] w4 (Hl4 & Hc4 & Ha4 & Hn & Hb). cbn [fst snd] in *.
  rewrite decide_False by (intros [?|?]; [lia|done]).
  eapply wp_call_bind_ok; [by apply ans_file_settings|].
  intros [fs s5] w5 (Hl5 & Hc5 & Hfs & Ha5). cbn [fst snd] in *. subst fs.
  eapply wp_call_bind_ok.
  { apply ans_change_file; eauto. rewrite Hc5, Hc4, Hc3. unfold may_change in *. simpl. by rewrite Hr2. }
  intros s6 w6 (Hl6 & Ha6 & Hc6).
  eapply wp_call_bind_ok; [by apply ans_file_settings|].
  intros [fs s7] w7 (Hl7 & Hc7 & Hfs & Ha7). cbn [fst snd] in *. subst fs.
  rewrite Hc6. simpl. apply wp_ret. eexists. do 3 (split; [done|]).
  rewrite Hc7, Hc6, Hc5, Hc4, Hc3. split; [etrans; [exact Hk2|done]|].
  constructor; try done. simpl. apply (take_app_length (ndef_bytes plan)).
Qed.

Lemma burn_live plan params rnd w :
  up w → block_ok rnd →
  sdm_url_config (standardize_url_template (bp_lnurl params)) Aes burn_sdm_opts = Ok plan →
  burn_ready plan params (shown w) →
  wp (burn sdm_url_config params rnd) (λ r w', r = Ok (uid_to_fixed (c_uid (shown w))) ∧ up w' ∧
    provisioned plan params (shown w) (shown w')) w.
Proof.
  intros Hl Hr Hplan Hready. rewrite burn_finish, Hplan.
  eapply wp_call_bind_ok; [by apply ans_uid|]. intros uid w1 (Hl1 & Hc1 & ->).
  eapply wp_call_bind_ok; [apply ans_auth; [done..|rewrite Hc1; apply Hready]|].
  intros s1 w2 (Hl2 & Hc2 & Ha2). rewrite Hc1 in Hc2.
  eapply wp_bind_ok; [eapply burn_configure_live; eauto; by rewrite Hc2|].
  rewrite Hc2. intros s2 w3 (Hl3 & Ha3 & Hk & Hconf).
  eapply wp_mono.
  { apply finish_live; try done; try apply Hready.
    - repeat constructor; done.
    - by apply (bool_decide_unpack _).
    - destruct Hk as (_ & _ & Hk & _), Hready as [_ Hprev].
      revert Hprev. unfold olds_match. by rewrite Hk.
    - intros w'. destruct Hconf as [_ _ _ Hs]. unfold card_sdm in Hs. rewrite Hs. by apply wp_ret. }
  intros r w4 (-> & Hl4 & Hc4). split; [done|]. split; [done|]. by eapply provisioned_finish.
Qed.
End live.

(** ** The workflows *)

Section claims.
  Context {T TE : Type} {D : NtagDevice T TE} {L : NtagLaws D}.

Ltac step law := eapply wp_call_bind; [apply law| |]; cbn beta.

(** C3. A wipe that reports success has restored the delivery state: the five
    keys are the factory key at the blank version, the NDEF message is empty,
    the access rights are the factory ones, Secure Dynamic Messaging is off,
    and the UID it reports is the card's. *)
Theorem wipe_restores_factory (keys : CardKeys) (rnd_a : AesKey) (w w' : T) (uid : list Z) :
  wipe keys rnd_a w = (Ok uid, w') →
  uid = uid_to_fixed (c_uid (card w)) ∧ k0 (c_keys (card w)) = k0 keys ∧
  factory_reset (card w) (card w').
Proof.
  intros H. pose proof (wipe_outcome keys rnd_a w) as Hw.
  destruct (wp_run _ _ _ _ _ Hw H) as [_ Hok]. by apply Hok.
Qed.

(** C4. The master key is the last thing a wipe changes: whenever the run
    stops, either K0 and its version are still the old ones, or the card is
    completely back in its delivery state. *)
Theorem wipe_master_key_last (keys : CardKeys) (rnd_a : AesKey) (w w' : T) r :
  wipe keys rnd_a w = (r, w') →
  master_kept (card w) (card w') ∨ factory_reset (card w) (card w').
Proof.
  intros H. pose proof (wipe_outcome keys rnd_a w) as Hw.
  by destruct (wp_run _ _ _ _ _ Hw H).
Qed.

Lemma read_versions_spec kns s w :
  wp (read_versions kns s) (λ r w', card w' = card w ∧
    ∀ vs, r = Ok vs → vs = map (λ n, get_ver n (c_vers (card w))) kns) w.
Proof.
  revert s w. induction kns as [|n kns IH]; intros s w; simpl.
  { apply wp_ret. split; [done|]. by intros vs [= <-]. }
  step law_key_version; [|naive_solver]. intros [v s1] w1 [Hw1 Hv].
  specialize (Hv _ _ eq_refl). apply wp_bind.
  eapply wp_mono; [apply IH|]. rewrite Hw1. intros [vs|e] w2 [Hw2 Hr]; [|naive_solver].
  apply wp_ret. split; [done|]. intros vs' [= <-]. simpl. by rewrite Hv, (Hr vs).
Qed.

Lemma check_key_versions_spec key rnd_a w :
  wp (check_key_versions key rnd_a) (λ r w', card w' = card w ∧
    ∀ vs, r = Ok vs → k0 (c_keys (card w)) = key ∧
    vs = map (λ n, get_ver n (c_vers (card w))) [Key0; Key1; Key2; Key3; Key4]) w.
Proof.
  unfold check_key_versions. step law_auth; [|naive_solver]. intros s w1 [Hw1 Ha].
  specialize (Ha _ eq_refl). eapply wp_mono; [apply read_versions_spec|].
  rewrite Hw1. intros r w2 [Hw2 Hr]. split; [done|]. auto.
Qed.

Lemma preflight_spec assume w :
  wp (preflight_with_chip_check assume) (λ r w', card w' = card w ∧
    ∀ uid, r = Ok uid → uid = uid_to_fixed (c_uid (card w)) ∧
    (assume = false → hw_vendor_id (c_version (card w)) = 4 ∧ hw_type (c_version (card w)) = 4)) w.
Proof.
  unfold preflight_with_chip_check. step law_uid; [|naive_solver].
  intros u w1 [Hw1 Hu]. specialize (Hu _ eq_refl). subst u.
  destruct assume; [apply wp_ret; naive_solver|].
  step law_version; [|rewrite Hw1; naive_solver]. intros v w2 [Hw2 Hv].
  specialize (Hv _ eq_refl). rewrite Hw1 in Hv. subst v.
  case_decide; [apply wp_fail|apply wp_ret]; rewrite Hw2, Hw1; (split; [done|]); [done|].
  intros uid [= <-]. split; [done|]. lia.
Qed.

(** The read-only queries are read-only and truthful: the key-version
    survey returns the card's five versions in slot order and only for the
    right master key; preflight returns the card's UID and, unless the chip
    check is waived, only for a card that identifies as NTAG 424; neither
    changes anything on the card. *)
Theorem queries_truthful (key rnd_a : AesKey) (assume : bool) (w : T) :
  (let '(r, w') := check_key_versions key rnd_a w in card w' = card w ∧
    ∀ vs, r = Ok vs → k0 (c_keys (card w)) = key ∧
      vs = map (λ n, get_ver n (c_vers (card w))) [Key0; Key1; Key2; Key3; Key4]) ∧
  (let '(r, w') := preflight_with_chip_check assume w in card w' = card w ∧
    ∀ uid, r = Ok uid → uid = uid_to_fixed (c_uid (card w)) ∧
      (assume = false → hw_vendor_id (c_version (card w)) = 4 ∧ hw_type (c_version (card w)) = 4)).
Proof.
  pose proof (check_key_versions_spec key rnd_a w) as Hv.
  pose proof (preflight_spec assume w) as Hp. unfold wp in *.
  destruct (check_key_versions _ _ w), (preflight_with_chip_check _ w). done.
Qed.

Context (sdm_url_config : list Z → CryptoMode → SdmUrlOptions → result SdmUrlConfig SdmUrlError).

(** C1. A burn that reports success has provisioned the card: it returns the
    card's own UID, the master key supplied by the caller was the card's, and
    the card now holds the five new keys at the requested version, the planned
    NDEF message, the planned SDM settings and the locked-down access rights,
    with its communication mode and UID unchanged. *)
Theorem burn_provisions (params : BurnParams) (rnd_a : AesKey) (w w' : T) (uid : list Z) :
  burn sdm_url_config params rnd_a w = (Ok uid, w') →
  uid = uid_to_fixed (c_uid (card w)) ∧ k0 (c_keys (card w)) = bp_current_key params ∧
  ∃ plan, sdm_url_config (standardize_url_template (bp_lnurl params)) Aes burn_sdm_opts = Ok plan ∧
    provisioned plan params (card w) (card w').
Proof.
  intros H. pose proof (burn_outcome sdm_url_config params rnd_a w) as Hw.
  destruct (wp_run _ _ _ _ _ Hw H) as [_ Hok]. by apply Hok.
Qed.

(** C2. The master key is the last thing a burn changes, on every outcome,
    lost responses included: whenever the run stops, either K0 and its version
    are still the old ones, so that the same caller can authenticate again, or
    the card is fully provisioned. *)
Theorem burn_master_key_last (params : BurnParams) (rnd_a : AesKey) (w w' : T) r :
  burn sdm_url_config params rnd_a w = (r, w') →
  master_kept (card w) (card w') ∨
  ∃ plan, sdm_url_config (standardize_url_template (bp_lnurl params)) Aes burn_sdm_opts = Ok plan ∧
    provisioned plan params (card w) (card w').
Proof.
  intros H. pose proof (burn_outcome sdm_url_config params rnd_a w) as Hw.
  by destruct (wp_run _ _ _ _ _ Hw H).
Qed.

(** C12. Without the card's master key neither workflow touches it: if the
    supplied K0 is not the card's, burn and wipe fail and leave keys, versions,
    file contents and settings exactly as they were. *)
Theorem wrong_master_key_untouched (params : BurnParams) (keys : CardKeys) (rnd_a : AesKey) (w : T) :
  k0 (c_keys (card w)) ≠ bp_current_key params → k0 (c_keys (card w)) ≠ k0 keys →
  (let '(r, w') := burn sdm_url_config params rnd_a w in is_ok r = false ∧ card w' = card w) ∧
  (let '(r, w') := wipe keys rnd_a w in is_ok r = false ∧ card w' = card w).
Proof.
  intros Hb Hk. split.
  - assert (wp (burn sdm_url_config params rnd_a) (λ r w', is_ok r = false ∧ card w' = card w) w) as H.
    { unfold burn. destruct (sdm_url_config _ _ _); [|by apply wp_fail].
      step law_uid; [|naive_solver]. intros u w1 [Hw1 _].
      step law_auth; [|rewrite Hw1; naive_solver]. intros s w2 [_ Ha].
      specialize (Ha _ eq_refl). rewrite Hw1 in Ha. by destruct Hb. }
    unfold wp in H. by destruct (burn _ _ _ w).
  - assert (wp (wipe keys rnd_a) (λ r w', is_ok r = false ∧ card w' = card w) w) as H.
    { unfold wipe. step law_uid; [|naive_solver]. intros u w1 [Hw1 _].
      step law_auth; [|rewrite Hw1; naive_solver]. intros s w2 [_ Ha].
      specialize (Ha _ eq_refl). rewrite Hw1 in Ha. by destruct Hk. }
    unfold wp in H. by destruct (wipe _ _ w).
Qed.
End claims.

Section live_claims.
  Context {T TE : Type} {D : NtagDevice T TE} {L : NtagLaws D} {V : NtagLive D L}.

Lemma wipe_run keys rnd_a w :
  live w → wipe_ready keys (card w) →
  ∃ w', wipe keys rnd_a w = (Ok (uid_to_fixed (c_uid (card w))), w') ∧ live w' ∧
    factory_reset (card w) (card w').
Proof.
  intros Hl Hr. pose proof (wipe_live keys rnd_a w Hl I Hr) as Hlive. unfold wp in Hlive.
  destruct (wipe keys rnd_a w) as [r w']. destruct Hlive as (Hok & ? & ?). simpl in Hok. subst r. eauto.
Qed.

Context (sdm_url_config : list Z → CryptoMode → SdmUrlOptions → result SdmUrlConfig SdmUrlError).

Lemma burn_run plan params rnd_a w :
  live w →
  sdm_url_config (standardize_url_template (bp_lnurl params)) Aes burn_sdm_opts = Ok plan →
  burn_ready plan params (card w) →
  ∃ w', burn sdm_url_config params rnd_a w = (Ok (uid_to_fixed (c_uid (card w))), w') ∧ live w' ∧
    provisioned plan params (card w) (card w').
Proof.
  intros Hl Hp Hr. pose proof (burn_live sdm_url_config plan params rnd_a w Hl I Hp Hr) as Hlive. unfold wp in Hlive.
  destruct (burn _ params rnd_a w) as [r w']. destruct Hlive as (Hok & ? & ?). simpl in Hok. subst r. eauto.
Qed.

(** A burn of a reachable card whose keys the caller knows, with a URL
    template the planner accepts and the NDEF file can hold, runs to success
    and provisions the card. *)
Theorem burn_completes (plan : SdmUrlConfig) (params : BurnParams) (rnd_a : AesKey) (w : T) :
  live w →
  sdm_url_config (standardize_url_template (bp_lnurl params)) Aes burn_sdm_opts = Ok plan →
  burn_ready plan params (card w) →
  ∃ w', burn sdm_url_config params rnd_a w = (Ok (uid_to_fixed (c_uid (card w))), w') ∧ live w' ∧
    provisioned plan params (card w) (card w').
Proof. apply burn_run. Qed.

Lemma provisioned_wipe_ready plan params c c' :
  provisioned plan params c c' → fs_comm_mode (c_file c) = Plain →
  (2 ≤ length (ndef_bytes plan))%nat → wipe_ready (bp_keys params) c'.
Proof.
  intros [Hu Hk Hv Hn Hm Ha Hs] Hc Hlen. constructor.
  - done.
  - unfold may_change. by rewrite Ha.
  - by rewrite Hm.
  - rewrite <-Hn, length_take in Hlen. simpl. lia.
Qed.

(** C11. Burn and wipe are inverse to each other at the card: wiping a freshly
    burned card with the keys it was burned with succeeds, reports the same UID,
    and leaves the delivery state, for every card that answers and was ready for the
    burn ([burn_ready]). *)
Theorem burn_wipe_roundtrip (plan : SdmUrlConfig) (params : BurnParams) (rnd_a rnd_b : AesKey) (w : T) :
  live w →
  sdm_url_config (standardize_url_template (bp_lnurl params)) Aes burn_sdm_opts = Ok plan →
  burn_ready plan params (card w) → (2 ≤ length (ndef_bytes plan))%nat →
  ∃ w1 w2 uid, burn sdm_url_config params rnd_a w = (Ok uid, w1) ∧
    wipe (bp_keys params) rnd_b w1 = (Ok uid, w2) ∧ live w2 ∧
    c_keys (card w2) = CardKeys_zeroed ∧ c_vers (card w2) = all_versions KEY_VERSION_BLANK ∧
    c_uid (card w2) = c_uid (card w) ∧ card_sdm (card w2) = None ∧
    fs_access_rights (c_file (card w2)) = factory_ndef_access_rights ∧
    take 2 (c_ndef (card w2)) = [0; 0].
Proof.
  intros Hl Hp Hr Hlen. destruct (burn_run plan params rnd_a w Hl Hp Hr) as (w1 & Hb & Hl1 & Hprov).
  assert (wipe_ready (bp_keys params) (card w1)) as Hw.
  { eapply provisioned_wipe_ready; eauto. apply Hr. }
  destruct (wipe_run _ rnd_b w1 Hl1 Hw) as (w2 & Hwipe & Hl2 & [Hu Hk Hv Hn Ha Hm Hs]).
  destruct Hprov as [Hu1]. rewrite Hu1 in *.
  exists w1, w2, (uid_to_fixed (c_uid (card w))). rewrite Hb, Hwipe. auto 12.
Qed.
End live_claims.

(** ** Inspection *)

Section inspect.
  Context {T TE : Type} {D : NtagDevice T TE} {L : NtagLaws D}.
  Context {V : Type} (verify_sdm : Sdm → list Z → AesKey → AesKey → option V).

Definition inspect_sound (c : Card) (k1 k2 : option AesKey) (res : SafeInspectResult V) : Prop :=
  si_uid res = uid_to_fixed (c_uid c) ∧
  (∀ fs, si_file_settings res = Some fs → fs = c_file c) ∧
  (∀ v, si_version res = Some v → v = c_version c) ∧
  (∀ v, si_sdm_verification res = Some v → ∃ sdm ndef a b, card_sdm c = Some sdm ∧
     si_ndef_bytes res = Some ndef ∧ k1 = Some a ∧ k2 = Some b ∧ verify_sdm sdm ndef b a = Some v) ∧
  (si_sdm_mirroring res = Off → card_sdm c = None) ∧
  (si_sdm_mirroring res = Live ∨ si_sdm_mirroring res = Static → card_sdm c ≠ None).

Lemma safe_inspect_file_spec k1 k2 s uid ver w :
  uid = uid_to_fixed (c_uid (card w)) → (∀ v, ver = Some v → v = c_version (card w)) →
  wp (safe_inspect_file verify_sdm k1 k2 s uid ver) (λ r w', card w' = card w ∧
    ∃ res, r = Ok res ∧ inspect_sound (card w) k1 k2 res) w.
Proof.
  intros Hu Hv. unfold wp, safe_inspect_file.
  pose proof (law_file_settings_u s w) as H1.
  destruct (get_file_settings_u s w) as [[r1 s1] w1]. destruct H1 as [Hw1 Hfs].
  pose proof (law_read_u s1 0 (replicate 256 0) w1) as H2.
  destruct (read_file_unauthenticated s1 0 _ w1) as [[[r2 buf] s2] w2]. destruct H2 as [Hw2 _].
  destruct r1 as [fs|e]; cbn [ok].
  - specialize (Hfs _ eq_refl). subst fs. unfold inspect_sound, card_sdm.
    destruct (fs_sdm (c_file (card w))) as [sdm|] eqn:Es.
    + pose proof (law_read_u s2 0 buf w2) as H3.
      destruct (read_file_unauthenticated s2 0 buf w2) as [[[r3 buf3] s3] w3]. destruct H3 as [Hw3 _].
      simpl. split; [congruence|]. eexists. split; [done|]. simpl.
      destruct r2 as [n|], k1, k2, r3; simpl; repeat split; try (case_decide); naive_solver.
    + simpl. split; [congruence|]. eexists. split; [done|]. simpl.
      destruct r2, k1, k2; simpl; repeat split; naive_solver.
  - simpl. split; [congruence|]. eexists. split; [done|]. unfold inspect_sound. simpl.
    repeat split; naive_solver.
Qed.

Lemma safe_inspect_spec (k1 k2 : option AesKey) (w : T) :
  wp (safe_inspect verify_sdm k1 k2) (λ r w', card w' = card w ∧
    ∀ res, r = Ok res → inspect_sound (card w) k1 k2 res) w.
Proof.
  unfold safe_inspect. eapply wp_call_bind; [apply law_uid| |naive_solver].
  intros u w1 [Hw1 Hu]. rewrite (Hu _ eq_refl).
  eapply wp_attempt_bind; [apply law_version|]. intros r w2 [Hw2 Hv].
  eapply wp_mono; [apply safe_inspect_file_spec; rewrite Hw2, Hw1|].
  - done.
  - destruct r; simpl; [|done]. rewrite Hw1 in Hv. naive_solver.
  - rewrite Hw2, Hw1. naive_solver.
Qed.

(** Inspecting a card is safe and its report is truthful: nothing on the
    card changes, whatever fails; the reported UID, version and settings are
    the card's; an SDM verification is reported only when both keys were
    given and the verifier accepted the message that was read; mirroring is
    called off only when the card has no SDM settings and live or static only
    when it has. *)
Theorem safe_inspect_readonly (k1 k2 : option AesKey) (w : T) :
  let '(r, w') := safe_inspect verify_sdm k1 k2 w in
  card w' = card w ∧ ∀ res, r = Ok res → inspect_sound (card w) k1 k2 res.
Proof.
  pose proof (safe_inspect_spec k1 k2 w) as H.
  unfold wp in H. by destruct (safe_inspect _ _ _ w).
Qed.
End inspect.

(** ** The command-counter probe *)

Lemma copy_at_prefix k l : copy_at 0 (take k l) l = l.
Proof.
  unfold copy_at. simpl. rewrite length_take. destruct (decide (k ≤ length l)%nat).
  - rewrite Nat.min_l by done. apply take_drop.
  - rewrite take_ge, Nat.min_r, drop_all by lia. apply app_nil_r.
Qed.

Section probe.
  Context {T TE : Type} {D : NtagDevice T TE} {L : NtagLaws D}.

Lemma f5_read_rounds_spec n f5a ad s w :
  wp (f5_read_rounds n f5a ad s) (λ r w', card w' = card w ∧
    ∀ x, r = Ok x → match x with
      | inl rep => ad ≤ read_ad rep ≤ ad + Z.of_nat n ∧ f5a ≤ read_f5 rep ≤ f5a + Z.of_nat n ∧
          write_f5 rep = 0 ∧ write_8d rep = 0 ∧ write_skipped rep = false
      | inr (f, a, _) => f = f5a + Z.of_nat n ∧ a = ad + Z.of_nat n
      end) w.
Proof.
  revert f5a ad s w. induction n as [|n IH]; intros f5a ad s w; cbn [f5_read_rounds].
  { apply wp_ret. split; [done|]. intros x [= <-]. lia. }
  eapply wp_attempt_bind; [apply law_file_settings|]. intros [[fs s1]|e] w1 [Hw1 _].
  2:{ apply wp_ret. split; [done|]. intros x [= <-]. simpl. lia. }
  eapply wp_attempt_bind; [apply law_read; lia|]. intros [[[n1 b1] s2]|e] w2 [Hw2 _].
  2:{ apply wp_ret. split; [congruence|]. intros x [= <-]. simpl. lia. }
  eapply wp_mono; [apply IH|]. rewrite Hw2, Hw1. intros r w3 [Hc Hx]. split; [done|].
  intros x ->. specialize (Hx _ eq_refl). destruct x as [rep|[[f a] s3]]; intuition lia.
Qed.

(** What the probe may do to a card: nothing but rewrite NDEF bytes, and those
    only where the file holds plain content. *)
Definition probe_safe (c c' : Card) : Prop :=
  keys_kept c c' ∧ c_file c' = c_file c ∧ (card_sdm c = None → c' = c).

Definition report_bounds (f5a ad : Z) (rep : F5ProbeReport) : Prop :=
  read_f5 rep = f5a ∧ read_ad rep = ad ∧ 0 ≤ write_8d rep ≤ 1 ∧
  write_8d rep ≤ write_f5 rep ≤ write_8d rep + 1 ∧ write_skipped rep = false.

Lemma f5_write_leg_spec snapshot f5a ad s w :
  (card_sdm (card w) = None → ∃ k, snapshot = take k (c_ndef (card w))) →
  wp (f5_write_leg snapshot f5a ad s) (λ r w', probe_safe (card w) (card w') ∧
    ∀ rep, r = Ok rep → report_bounds f5a ad rep) w.
Proof.
  intros Hsnap. unfold f5_write_leg, probe_safe, report_bounds.
  eapply wp_attempt_bind; [apply law_file_settings|]. intros [[fs s1]|e] w1 [Hw1 _].
  2:{ apply wp_ret. rewrite Hw1. split; [done|]. intros rep [= <-]. simpl. lia. }
  case_decide.
  { apply wp_ret. rewrite Hw1. split; [done|]. intros rep [= <-]. simpl. lia. }
  eapply wp_attempt_bind; [apply law_write; lia|].
  intros r w2 [(got & Hw2 & Htorn) _]. rewrite Hw1 in Hw2, Htorn.
  assert (probe_safe (card w) (card w2)) as Hsafe.
  { rewrite Hw2. split; [done|]. split; [done|]. intros Hs. destruct (Hsnap Hs) as [k ->].
    rewrite take_take in Htorn. change (Z.to_nat 0) with 0%nat in Htorn.
    rewrite copy_at_prefix in Htorn.
    rewrite (torn_same _ _ (Htorn ltac:(rewrite length_take; lia))). apply set_card_ndef_id. }
  destruct r as [s2|e].
  - eapply wp_attempt_bind; [apply law_file_settings|]. intros r w3 [Hw3 _].
    apply wp_ret. rewrite Hw3. split; [done|]. intros rep [= <-]. simpl. destruct (is_ok r); lia.
  - apply wp_ret. split; [done|]. intros rep [= <-]. simpl. lia.
Qed.

Lemma snapshot_prefix c n (buf : list Z) :
  (n ≤ length buf)%nat → (card_sdm c = None → take n buf = take n (c_ndef c)) →
  card_sdm c = None → ∃ k, default buf (get_range buf 0 n) = take k (c_ndef c).
Proof.
  intros Hn H Hs. exists n. unfold get_range. rewrite decide_True by lia. simpl.
  by rewrite Nat.sub_0_r, drop_0, H.
Qed.

(** The command-counter probe does not damage a card: on every outcome
    keys, versions and file settings are untouched, and when the card has no
    SDM mirroring the whole card is, because the write leg puts back exactly
    the bytes it read; a report that says the write was skipped means nothing
    was written; the counters never exceed the number of commands sent. *)
Theorem f5probe_preserves (rnd_a : AesKey) (force : bool) (w : T) :
  let '(r, w') := f5probe rnd_a force w in
  probe_safe (card w) (card w') ∧
  ∀ rep, r = Ok rep → (write_skipped rep = true → card w' = card w) ∧
    0 ≤ read_ad rep ≤ 3 ∧ 0 ≤ read_f5 rep ≤ 3 ∧ 0 ≤ write_f5 rep ≤ 2 ∧ 0 ≤ write_8d rep ≤ 1.
Proof.
  assert (wp (f5probe rnd_a force) (λ r w', probe_safe (card w) (card w') ∧
    ∀ rep, r = Ok rep → (write_skipped rep = true → card w' = card w) ∧
    0 ≤ read_ad rep ≤ 3 ∧ 0 ≤ read_f5 rep ≤ 3 ∧ 0 ≤ write_f5 rep ≤ 2 ∧ 0 ≤ write_8d rep ≤ 1) w) as H.
  { unfold f5probe.
    eapply wp_call_bind; [apply law_auth| |by intros e w1 [-> _]]. intros s w1 [Hw1 _].
    eapply wp_call_bind; [apply law_read; lia| |by intros e w2 [-> _]; rewrite Hw1].
    intros [[n0 buf0] s2] w2 [Hw2 H0]. destruct (H0 _ _ _ eq_refl) as (Hb0 & Hn0 & Ht0).
    rewrite Hw1 in Hw2, Ht0. clear H0.
    apply wp_bind. eapply (wp_mono _ (λ r w', card w' = card w ∧ ∀ n buf s', r = Ok (n, buf, s') →
      (n ≤ length buf)%nat ∧ (card_sdm (card w) = None → take n buf = take n (c_ndef (card w))))).
    { case_decide.
      - eapply wp_call; [apply law_read; lia| |by intros e w3 [-> _]; rewrite Hw2].
        intros [[n buf] s3] w3 [Hw3 H3]. destruct (H3 _ _ _ eq_refl) as (Hb & Hn & Ht).
        rewrite Hw2 in Hw3, Ht. split; [done|]. intros ? ? ? [= <- <- <-].
        split; [by rewrite Hb|done].
      - apply wp_ret. split; [done|]. intros ? ? ? [= <- <- <-].
        rewrite Hb0. split; done. }
    intros [[[n buf] s3]|e] w3 [Hw3 H3]; [|by rewrite Hw3].
    destruct (H3 _ _ _ eq_refl) as [Hn Ht].
    destruct (negb force && _); [apply wp_fail; by rewrite Hw3|].
    apply wp_bind. eapply wp_mono; [apply f5_read_rounds_spec|].
    rewrite Hw3. intros [[rep|[[f a] s4]]|e] w4 [Hw4 Hx]; cbn beta iota.
    - apply wp_ret. rewrite Hw4. split; [done|]. intros rep' [= <-]. specialize (Hx _ eq_refl).
      simpl in Hx. destruct Hx as (? & ? & ? & ? & ?). split; [done|]. lia.
    - specialize (Hx _ eq_refl) as [-> ->]. case_match.
      + apply wp_ret. rewrite Hw4. split; [done|]. intros rep' [= <-]. simpl. split; [done|]. lia.
      + eapply wp_mono; [apply f5_write_leg_spec; rewrite Hw4; by apply snapshot_prefix|].
        rewrite Hw4. intros r w5 [Hs Hrep]. split; [done|]. intros rep' ->.
        destruct (Hrep _ eq_refl) as (? & ? & ? & ? & Hsk). rewrite Hsk. split; [done|]. lia.
    - by rewrite Hw4. }
  unfold wp in H. by destruct (f5probe _ _ w).
Qed.
End probe.

(** ** Instances on the simulated card *)

Definition ntag424_version : Version :=
  mkVersion [4; 4; 2; 48; 0; 17; 5] [4; 4; 2; 1; 2; 17; 5] (replicate 14 0).

Definition factory_card : Card :=
  mkCard (Uid_Fixed [4; 0x10; 0x65; 0xFA; 0x96; 0x73; 0x80]) ntag424_version CardKeys_zeroed
    (all_versions KEY_VERSION_BLANK) (replicate 256 0) ndef_factory.

Definition sim_factory : Sim := mkSim factory_card None None.

(** A planner that writes the template as a URI record. *)
Definition sample_sdm : Sdm :=
  mkSdm (PiccData_Encrypted Key1 20 (EncContent_Both (mkReadCtrFeatures None CtrRet_NoAccess)))
    (Some (FileRead_MacOnly Key2 (mkMacWindow 60 60))) None.

Definition sample_planner (url : list Z) (_ : CryptoMode) (_ : SdmUrlOptions) :
    result SdmUrlConfig SdmUrlError :=
  if contains MAC_MARK url then Ok (mkSdmUrlConfig (ndef_file (uri_message true 4 url) []) sample_sdm)
  else Err MissingMac.

Definition sample_keys : CardKeys :=
  mkCardKeys (replicate 16 1) (replicate 16 2) (replicate 16 3) (replicate 16 4) (replicate 16 5).

Definition sample_params : BurnParams :=
  mkBurnParams (lit "card.example/?p={picc:uid+ctr}&c={mac}") sample_keys 1 FACTORY_KEY CardKeys_zeroed.

Definition sim_burned : Sim := (burn sample_planner sample_params (replicate 16 9) sim_factory).2.

(** The field is lost after the second key has been changed. *)
Definition sim_interrupted : Sim := mkSim factory_card None (Some 12%nat).

(** A burned card whose field is lost during the wipe. *)
Definition sim_wipe_cut : Sim := mkSim (sim_card sim_burned) None (Some 9%nat).

Lemma burn_provisions_witness :
  ∃ plan, sample_planner (standardize_url_template (bp_lnurl sample_params)) Aes burn_sdm_opts = Ok plan ∧
    provisioned plan sample_params (card sim_factory) (card sim_burned).
Proof.
  refine (proj2 (proj2 (burn_provisions sample_planner sample_params (replicate 16 9)
    sim_factory sim_burned [4; 0x10; 0x65; 0xFA; 0x96; 0x73; 0x80] _))).
  vm_compute. reflexivity.
Defined.

Lemma burn_master_key_last_witness :
  let w' := (burn sample_planner sample_params (replicate 16 9) sim_interrupted).2 in
  k1 (c_keys (card w')) = replicate 16 2 ∧
  (master_kept (card sim_interrupted) (card w') ∨
   ∃ plan, sample_planner (standardize_url_template (bp_lnurl sample_params)) Aes burn_sdm_opts = Ok plan ∧
     provisioned plan sample_params (card sim_interrupted) (card w')).
Proof.
  split; [vm_compute; reflexivity|].
  eapply (burn_master_key_last sample_planner sample_params (replicate 16 9) sim_interrupted).
  apply surjective_pairing.
Defined.

Lemma wipe_restores_factory_witness :
  factory_reset (card sim_burned) (card (wipe sample_keys (replicate 16 7) sim_burned).2).
Proof.
  refine (proj2 (proj2 (wipe_restores_factory sample_keys (replicate 16 7) sim_burned _
    [4; 0x10; 0x65; 0xFA; 0x96; 0x73; 0x80] _))).
  vm_compute. reflexivity.
Defined.

Lemma wipe_master_key_last_witness :
  let w' := (wipe sample_keys (replicate 16 7) sim_wipe_cut).2 in
  master_kept (card sim_wipe_cut) (card w') ∨ factory_reset (card sim_wipe_cut) (card w').
Proof.
  eapply (wipe_master_key_last sample_keys (replicate 16 7) sim_wipe_cut).
  apply surjective_pairing.
Defined.

Lemma wrong_master_key_untouched_witness :
  let bad := mkBurnParams (lit "a/{mac}") sample_keys 1 (replicate 16 8) CardKeys_zeroed in
  (let '(r, w') := burn sample_planner bad (replicate 16 9) sim_factory in
     is_ok r = false ∧ card w' = card sim_factory) ∧
  (let '(r, w') := wipe sample_keys (replicate 16 9) sim_factory in
     is_ok r = false ∧ card w' = card sim_factory).
Proof.
  apply (wrong_master_key_untouched sample_planner _ sample_keys (replicate 16 9) sim_factory);
    apply (bool_decide_unpack _); vm_compute; exact I.
Defined.

Definition sample_plan : SdmUrlConfig :=
  mkSdmUrlConfig (ndef_file (uri_message true 4 (standardize_url_template (bp_lnurl sample_params))) [])
    sample_sdm.

Lemma sample_ready : burn_ready sample_plan sample_params factory_card.
Proof.
  constructor; try (vm_compute; reflexivity); try exact I; try (repeat constructor; fail);
    apply (bool_decide_unpack _); vm_compute; exact I.
Qed.

Lemma burn_completes_witness :
  ∃ w', burn sample_planner sample_params (replicate 16 9) sim_factory =
    (Ok (uid_to_fixed (c_uid (card sim_factory))), w') ∧ live w' ∧
    provisioned sample_plan sample_params (card sim_factory) (card w').
Proof.
  apply (burn_completes sample_planner sample_plan sample_params (replicate 16 9) sim_factory).
  - reflexivity.
  - vm_compute. reflexivity.
  - apply sample_ready.
Defined.

Lemma burn_wipe_roundtrip_witness :
  ∃ w1 w2 uid, burn sample_planner sample_params (replicate 16 9) sim_factory = (Ok uid, w1) ∧
    wipe (bp_keys sample_params) (replicate 16 7) w1 = (Ok uid, w2) ∧ live w2 ∧
    c_keys (card w2) = CardKeys_zeroed ∧ c_vers (card w2) = all_versions KEY_VERSION_BLANK ∧
    c_uid (card w2) = c_uid (card sim_factory) ∧ card_sdm (card w2) = None ∧
    fs_access_rights (c_file (card w2)) = factory_ndef_access_rights ∧
    take 2 (c_ndef (card w2)) = [0; 0].
Proof.
  apply (burn_wipe_roundtrip sample_planner sample_plan sample_params
    (replicate 16 9) (replicate 16 7) sim_factory).
  - reflexivity.
  - vm_compute. reflexivity.
  - apply sample_ready.
  - apply (bool_decide_unpack _). vm_compute. exact I.
Defined.
