(* ===== verification/TransportSim.v ===== *)
(** * Two transports that answer alike

    The commands, the sessions and the workflows use a transport through two
    operations only, [transmit] and [get_uid] ([Transport] of [vendor/ntag424/src/lib.rs]).
    So a relation between the states of two transports that these two operations
    keep, with the same answers, is kept by every run of a workflow, with the same
    result.  The relation [sim] says this of one computation; the class
    [TransportSim] asks it of a transport, and the class [DeviceSim] of the session
    interface, where [wire_sim] establishes it for the commands and
    [burn_sim] and its companions use it for the workflows.  On a single transport,
    with the diagonal of a predicate, this is preservation of an invariant
    ([preserves]). *)

From S2P Require Import Prelude Str Hex Derivation Picc NtagTypes Ndef FileSettings Session Channel Wire Ntag.

(** ** Related computations *)

(** Results agree: values are related, and of errors only what [f1] and [f2] keep
    is compared. *)
Definition res_sim {A1 A2 E1 E2 F : Type} (f1 : E1 → F) (f2 : E2 → F) (RV : A1 → A2 → Prop)
    (r1 : result A1 E1) (r2 : result A2 E2) : Prop :=
  match r1, r2 with
  | Ok a1, Ok a2 => RV a1 a2
  | Err e1, Err e2 => f1 e1 = f2 e2
  | _, _ => False
  end.

Definition sim {S1 S2 E1 E2 F A1 A2 : Type} (R : S1 → S2 → Prop) (f1 : E1 → F) (f2 : E2 → F)
    (RV : A1 → A2 → Prop) (m1 : M S1 E1 A1) (m2 : M S2 E2 A2) : Prop :=
  ∀ s1 s2, R s1 s2 → res_sim f1 f2 RV (m1 s1).1 (m2 s2).1 ∧ R (m1 s1).2 (m2 s2).2.

Section sim.
  Context {S1 S2 E1 E2 F : Type} (R : S1 → S2 → Prop) (f1 : E1 → F) (f2 : E2 → F).

Lemma sim_ret {A1 A2} (RV : A1 → A2 → Prop) a1 a2 : RV a1 a2 → sim R f1 f2 RV (mret a1) (mret a2).
Proof. by intros HV s1 s2 HR. Qed.

Lemma sim_fail {A1 A2} (RV : A1 → A2 → Prop) e1 e2 : f1 e1 = f2 e2 → sim R f1 f2 RV (fail e1) (fail e2).
Proof. by intros HV s1 s2 HR. Qed.

Lemma sim_bind {A1 A2 B1 B2} (RV : A1 → A2 → Prop) (RW : B1 → B2 → Prop) m1 m2 k1 k2 :
  sim R f1 f2 RV m1 m2 → (∀ a1 a2, RV a1 a2 → sim R f1 f2 RW (k1 a1) (k2 a2)) →
  sim R f1 f2 RW (m1 ≫= k1) (m2 ≫= k2).
Proof.
  intros Hm Hk s1 s2 HR. destruct (Hm s1 s2 HR) as [Hr HR']. unfold mbind, M_bind, res_sim in *.
  destruct (m1 s1) as [[a1|e1] s1'], (m2 s2) as [[a2|e2] s2']; simpl in *; try done. by apply Hk.
Qed.

Lemma sim_bind_eq {A B1 B2} (RW : B1 → B2 → Prop) (m1 : M S1 E1 A) (m2 : M S2 E2 A) k1 k2 :
  sim R f1 f2 eq m1 m2 → (∀ a, sim R f1 f2 RW (k1 a) (k2 a)) → sim R f1 f2 RW (m1 ≫= k1) (m2 ≫= k2).
Proof. intros Hm Hk. eapply sim_bind; [exact Hm|]. by intros a ? <-. Qed.

Lemma sim_mono {A1 A2} (RV RW : A1 → A2 → Prop) m1 m2 :
  sim R f1 f2 RV m1 m2 → (∀ a1 a2, RV a1 a2 → RW a1 a2) → sim R f1 f2 RW m1 m2.
Proof.
  intros Hm HV s1 s2 HR. destruct (Hm s1 s2 HR) as [Hr HR']. split; [|done]. unfold res_sim in *.
  destruct (m1 s1).1, (m2 s2).1; auto.
Qed.

Lemma sim_attempt {D1 D2 G A1 A2} (g1 : D1 → G) (g2 : D2 → G) (RV : A1 → A2 → Prop) (m1 : M S1 D1 A1) (m2 : M S2 D2 A2) :
  sim R g1 g2 RV m1 m2 → sim R f1 f2 (res_sim g1 g2 RV) (attempt m1) (attempt m2).
Proof.
  intros Hm s1 s2 HR. destruct (Hm s1 s2 HR) as [Hr HR']. unfold attempt.
  by destruct (m1 s1), (m2 s2).
Qed.

Lemma sim_lift_err {D1 D2 G A1 A2} (g1 : D1 → G) (g2 : D2 → G) (h1 : D1 → E1) (h2 : D2 → E2)
    (RV : A1 → A2 → Prop) (m1 : M S1 D1 A1) (m2 : M S2 D2 A2) :
  sim R g1 g2 RV m1 m2 → (∀ e1 e2, g1 e1 = g2 e2 → f1 (h1 e1) = f2 (h2 e2)) →
  sim R f1 f2 RV (lift_err h1 m1) (lift_err h2 m2).
Proof.
  intros Hm Hh s1 s2 HR. destruct (Hm s1 s2 HR) as [Hr HR']. unfold lift_err, res_sim in *.
  destruct (m1 s1) as [[a1|e1] s1'], (m2 s2) as [[a2|e2] s2']; simpl in *; auto.
Qed.
End sim.

(** A computation that keeps an invariant, as the diagonal of [sim]. *)
Definition preserves {S E A} (P : S → Prop) (m : M S E A) : Prop := ∀ s, P s → P (m s).2.

Definition diagonal {S} (P : S → Prop) (s1 s2 : S) : Prop := s1 = s2 ∧ P s1.

Lemma preserves_sim {S E F A} (f : E → F) (P : S → Prop) (m : M S E A) : preserves P m → sim (diagonal P) f f eq m m.
Proof.
  intros Hm s ? [<- HP]. split; [|split; [done|by apply Hm]]. by destruct (m s).1.
Qed.

Lemma sim_preserves {S E F A} (f : E → F) (P : S → Prop) (RV : A → A → Prop) (m : M S E A) :
  sim (diagonal P) f f RV m m → preserves P m.
Proof. intros Hm s HP. by destruct (Hm s s) as [_ [_ H]]. Qed.

(** The error types, as functions of what a transport reports. *)
Definition fault_map {E E'} (f : E → E') (e : Fault E) : Fault E' :=
  match e with Fault_Error e => Fault_Error (f e) | Fault_Panic => Fault_Panic end.

Definition session_map {E E'} (f : E → E') (e : SessionError E) : SessionError E' :=
  match e with
  | SE_Transport e => SE_Transport (f e)
  | SE_ErrorResponse st => SE_ErrorResponse st
  | SE_UnexpectedLength got expected => SE_UnexpectedLength got expected
  | SE_InvalidCommandParameter p v r => SE_InvalidCommandParameter p v r
  | SE_ApduBodyTooLarge got max => SE_ApduBodyTooLarge got max
  | SE_FileSettings e => SE_FileSettings e
  | SE_OriginalityVerificationFailed => SE_OriginalityVerificationFailed
  | SE_AuthenticationMismatch => SE_AuthenticationMismatch
  | SE_ResponseMacMismatch => SE_ResponseMacMismatch
  | SE_NotBlockAligned n => SE_NotBlockAligned n
  | SE_NotFactoryState why => SE_NotFactoryState why
  end.

Definition error_map {E E'} (f : E → E') (e : Error E) : Error E' :=
  match e with
  | E_Transport e => E_Transport (f e)
  | E_SdmUrl e => E_SdmUrl e
  | E_Session e => E_Session (session_map f e)
  | E_AuthenticationDelay => E_AuthenticationDelay
  | E_WrongCardType v t => E_WrongCardType v t
  | E_NdefVerificationFailed w r => E_NdefVerificationFailed w r
  | E_KeyVersionMismatch n e a => E_KeyVersionMismatch n e a
  | E_SdmVerificationFailed => E_SdmVerificationFailed
  | E_NdefNotEmpty n => E_NdefNotEmpty n
  end.

Lemma from_session_map {E E'} (f : E → E') (e : SessionError E) :
  error_map f (from_session e) = from_session (session_map f e).
Proof. destruct e as [|[]| | | | | | | | |]; done. Qed.

(** ** The interface of a transport *)

(** [f1] and [f2] are what is compared of the errors; a panic of the commands
    themselves is the same on both sides. *)
Class TransportSim {T1 TE1 T2 TE2 F} (A1 : Apdu T1 TE1) (A2 : Apdu T2 TE2) (R : T1 → T2 → Prop)
    (f1 : Fault TE1 → F) (f2 : Fault TE2 → F) : Prop := {
  sim_transmit apdu : sim R f1 f2 eq (apdu_transmit (Apdu := A1) apdu) (apdu_transmit (Apdu := A2) apdu);
  sim_get_uid : sim R f1 f2 eq (apdu_get_uid (Apdu := A1)) (apdu_get_uid (Apdu := A2));
  sim_panic : f1 Fault_Panic = f2 Fault_Panic }.

Create HintDb sim discriminated.

(** Follows the two computations, which have the same shape, to their operations. *)
Ltac sim_step :=
  lazymatch goal with
  | |- sim _ _ _ _ (mret _) _ => apply sim_ret; try done
  | |- sim _ _ _ _ (fail _) _ => apply sim_fail; first [reflexivity|auto with sim]
  | |- sim _ _ _ eq (_ ≫= _) _ => apply sim_bind_eq; [|intros ?]
  | |- sim _ _ _ _ (if ?c then _ else _) _ => destruct c
  | |- sim _ _ _ _ (match ?x with _ => _ end) _ => destruct x
  | _ => solve [eauto with sim]
  end.
Ltac sim_steps := repeat first [progress sim_step | progress cbv zeta].

Section wire.
  Context {C : AesCrypto} {T1 TE1 T2 TE2 F : Type} {A1 : Apdu T1 TE1} {A2 : Apdu T2 TE2}.
  Context (compat : bool) (R : T1 → T2 → Prop) (f1 : Fault TE1 → F) (f2 : Fault TE2 → F) `{!TransportSim A1 A2 R f1 f2}.

(** A command, and a command under an authenticated state: the states are equal. *)
Abbreviation wsim := (sim R (session_map f1) (session_map f2) eq).

Definition under {S} (w1 : S * T1) (w2 : S * T2) : Prop := w1.1 = w2.1 ∧ R w1.2 w2.2.

Abbreviation csim := (sim (under (S := Authenticated)) (session_map f1) (session_map f2) eq).
Abbreviation usim := (sim (under (S := Sess ())) (session_map f1) (session_map f2) eq).

Lemma wire_transmit_sim apdu : wsim (wire_transmit apdu) (wire_transmit apdu).
Proof. eapply sim_lift_err; [apply sim_transmit|]. intros e1 e2 H. simpl. by rewrite H. Qed.

Lemma wire_of_sim {A} (r1 : result A (SessionError (Fault TE1))) (r2 : result A (SessionError (Fault TE2))) :
  res_sim (session_map f1) (session_map f2) eq r1 r2 → wsim (wire_of r1) (wire_of r2).
Proof. by intros Hr s1 s2 HR. Qed.

Lemma lift_under {S A} (m1 : M T1 (SessionError (Fault TE1)) A) (m2 : M T2 (SessionError (Fault TE2)) A) :
  wsim m1 m2 →
  sim (under (S := S)) (session_map f1) (session_map f2) eq
    (λ w, let '(r, t) := m1 w.2 in (r, (w.1, t))) (λ w, let '(r, t) := m2 w.2 in (r, (w.1, t))).
Proof.
  intros Hm [s1 t1] [s2 t2] [Hs HR]. simpl in *. subst s2. destruct (Hm t1 t2 HR) as [Hr HR'].
  destruct (m1 t1), (m2 t2). by split.
Qed.

Lemma ch_lift_sim {A} (m1 : M T1 (SessionError (Fault TE1)) A) (m2 : M T2 (SessionError (Fault TE2)) A) :
  wsim m1 m2 → csim (ch_lift m1) (ch_lift m2).
Proof. apply lift_under. Qed.

Lemma u_lift_sim {A} (m1 : M T1 (SessionError (Fault TE1)) A) (m2 : M T2 (SessionError (Fault TE2)) A) :
  wsim m1 m2 → usim (u_lift m1) (u_lift m2).
Proof. apply lift_under. Qed.

Lemma ch_transmit_sim apdu : csim (ch_transmit apdu) (ch_transmit apdu).
Proof.
  intros [s1 t1] [s2 t2] [Hs HR]. simpl in *. subst s2. destruct (sim_transmit apdu t1 t2 HR) as [Hr HR'].
  unfold ch_transmit. simpl. destruct (apdu_transmit apdu t1) as [[a1|e1] t1'], (apdu_transmit apdu t2) as [[a2|e2] t2'];
    simpl in *; try done. split; [|done]. simpl. by rewrite Hr.
Qed.

Lemma state_sim {S E1 E2 K X} (k1 : E1 → K) (k2 : E2 → K) (g : S → X) (h : S → S) :
  sim under k1 k2 eq (λ w, (Ok (g w.1), (h w.1, w.2))) (λ w, (Ok (g w.1), (h w.1, w.2))).
Proof. intros [s1 t1] [s2 t2] [Hs HR]. simpl in *. subst s2. by split. Qed.

Lemma ch_state_sim : csim ch_state ch_state.
Proof. intros [s1 t1] [s2 t2] [Hs HR]. simpl in *. by subst s2. Qed.
Lemma advance_sim : csim advance_counter advance_counter.
Proof. apply (state_sim _ _ (λ _, ()) an_advance). Qed.
Lemma u_get_sim : usim u_get u_get.
Proof. intros [s1 t1] [s2 t2] [Hs HR]. simpl in *. by subst s2. Qed.
Lemma u_set_sim s : usim (u_set s) (u_set s).
Proof. apply (state_sim _ _ (λ _, ()) (λ _, s)). Qed.

Lemma panic_sim : session_map f1 (SE_Transport Fault_Panic) = session_map f2 (SE_Transport Fault_Panic).
Proof. simpl. by rewrite sim_panic. Qed.
Hint Resolve panic_sim : sim.

Lemma ch_of_sim {A} (o : option A) : csim (ch_of o) (ch_of o).
Proof. destruct o; unfold ch_of, ch_panic; sim_steps. Qed.
Lemma ch_fail_sim {A} (e1 : SessionError (Fault TE1)) (e2 : SessionError (Fault TE2)) : session_map f1 e1 = session_map f2 e2 →
  csim (ch_fail (A := A) e1) (ch_fail (A := A) e2).
Proof. apply sim_fail. Qed.
Lemma ch_ensure_sim c (e1 : SessionError (Fault TE1)) (e2 : SessionError (Fault TE2)) : session_map f1 e1 = session_map f2 e2 → csim (ch_ensure c e1) (ch_ensure c e2).
Proof. intros He. unfold ch_ensure. sim_steps. Qed.

Hint Resolve wire_transmit_sim ch_lift_sim u_lift_sim ch_transmit_sim ch_state_sim advance_sim u_get_sim u_set_sim
  ch_of_sim ch_fail_sim ch_ensure_sim : sim.
Hint Extern 1 (session_map _ _ = _) => reflexivity : sim.

(** The commands under secure messaging. *)
Lemma native_ok_sim r : csim (native_ok r) (native_ok r).
Proof. unfold native_ok. sim_steps. Qed.
Lemma cmd_mac_sim cmd h d : csim (compute_cmd_mac cmd h d) (compute_cmd_mac cmd h d).
Proof. unfold compute_cmd_mac. sim_steps. Qed.
Lemma encrypt_sim b : csim (encrypt_command b) (encrypt_command b).
Proof. unfold encrypt_command. sim_steps. Qed.
Lemma verify_sim rc b : csim (verify_response_mac_and_advance compat rc b) (verify_response_mac_and_advance compat rc b).
Proof. unfold verify_response_mac_and_advance. sim_steps. Qed.
Hint Resolve native_ok_sim cmd_mac_sim encrypt_sim verify_sim : sim.

Lemma send_mac_sim c p1 p2 h d : csim (send_mac compat c p1 p2 h d) (send_mac compat c p1 p2 h d).
Proof. unfold send_mac. sim_steps. Qed.
Lemma change_key_transmit_sim n p e : csim (change_key_transmit compat n p e) (change_key_transmit compat n p e).
Proof. unfold change_key_transmit. sim_steps. Qed.
Lemma wire_change_file_settings_sim n u : csim (wire_change_file_settings compat n u) (wire_change_file_settings compat n u).
Proof. unfold wire_change_file_settings. sim_steps. Qed.
Hint Resolve send_mac_sim change_key_transmit_sim wire_change_file_settings_sim : sim.

Lemma wire_get_file_settings_mac_sim n : csim (wire_get_file_settings_mac compat n) (wire_get_file_settings_mac compat n).
Proof. unfold wire_get_file_settings_mac. sim_steps. Qed.
Lemma wire_get_key_version_sim n : csim (wire_get_key_version compat n) (wire_get_key_version compat n).
Proof. unfold wire_get_key_version. sim_steps. Qed.
Hint Resolve wire_get_file_settings_mac_sim wire_get_key_version_sim : sim.

(** The plain commands. *)
Lemma expect_length_sim n d : wsim (expect_length n d) (expect_length n d).
Proof. unfold expect_length. sim_steps. Qed.
Lemma bad_parameter_sim {A} p v r : wsim (bad_parameter (A := A) p v r) (bad_parameter (A := A) p v r).
Proof. unfold bad_parameter. sim_steps. Qed.
Lemma iso_expect_ok_sim r : wsim (iso_expect_ok r) (iso_expect_ok r).
Proof. unfold iso_expect_ok. sim_steps. Qed.
Hint Resolve expect_length_sim bad_parameter_sim iso_expect_ok_sim : sim.

Lemma validate_request_sim f o l n : wsim (validate_request f o l n) (validate_request f o l n).
Proof. unfold validate_request. sim_steps. Qed.
Lemma validate_header_sim f o n : wsim (validate_header f o n) (validate_header f o n).
Proof. unfold validate_header. sim_steps. Qed.
Lemma validate_body_len_sim n : wsim (validate_body_len n) (validate_body_len n).
Proof. unfold validate_body_len. sim_steps. Qed.
Lemma request_intermediate_part_sim a : wsim (request_intermediate_part a) (request_intermediate_part a).
Proof. unfold request_intermediate_part. sim_steps. Qed.
Hint Resolve validate_request_sim validate_header_sim validate_body_len_sim request_intermediate_part_sim : sim.

Lemma drive_chain_sim h : wsim (drive_chain h) (drive_chain h).
Proof. unfold drive_chain. sim_steps. Qed.
Lemma read_data_plain_sim f o l b : wsim (read_data_plain f o l b) (read_data_plain f o l b).
Proof. unfold read_data_plain. sim_steps. Qed.
Lemma write_data_plain_sim f o d : wsim (write_data_plain f o d) (write_data_plain f o d).
Proof. unfold write_data_plain. sim_steps. Qed.
Lemma iso_select_df_by_name_sim n : wsim (iso_select_df_by_name n) (iso_select_df_by_name n).
Proof. unfold iso_select_df_by_name. sim_steps. Qed.
Lemma iso_select_ef_by_fid_sim n : wsim (iso_select_ef_by_fid n) (iso_select_ef_by_fid n).
Proof. unfold iso_select_ef_by_fid. sim_steps. Qed.
Lemma iso_read_binary_sim s o b : wsim (iso_read_binary s o b) (iso_read_binary s o b).
Proof. unfold iso_read_binary. sim_steps. Qed.
Lemma wire_get_file_settings_sim n : wsim (wire_get_file_settings n) (wire_get_file_settings n).
Proof.
  unfold wire_get_file_settings. sim_steps. apply wire_of_sim. by destruct (decode _).
Qed.
Hint Resolve drive_chain_sim read_data_plain_sim write_data_plain_sim iso_select_df_by_name_sim
  iso_select_ef_by_fid_sim iso_read_binary_sim wire_get_file_settings_sim : sim.

Lemma wire_get_version_sim : wsim wire_get_version wire_get_version.
Proof. unfold wire_get_version. sim_steps. Qed.
Lemma authenticate_ev2_first_sim n k r : wsim (authenticate_ev2_first n k r) (authenticate_ev2_first n k r).
Proof.
  unfold authenticate_ev2_first. sim_steps. apply wire_of_sim. unfold finish_auth. by case_decide.
Qed.
Hint Resolve wire_get_version_sim authenticate_ev2_first_sim : sim.

(** The session of an unauthenticated card. *)
Lemma select_ndef_application_sim : usim select_ndef_application select_ndef_application.
Proof. unfold select_ndef_application. sim_steps. Qed.
Hint Resolve select_ndef_application_sim : sim.
Lemma select_file_sim f : usim (select_file f) (select_file f).
Proof. unfold select_file. sim_steps. Qed.
Lemma session_get_file_settings_sim f : usim (session_get_file_settings f) (session_get_file_settings f).
Proof. unfold session_get_file_settings. sim_steps. Qed.

(** The plain reads and writes of an authenticated session. *)
Lemma plain_advance_sim : csim (plain_advance compat) (plain_advance compat).
Proof. unfold plain_advance. sim_steps. Qed.
Hint Resolve plain_advance_sim : sim.

Lemma read_plain_loop_sim n f o l t b : csim (read_plain_loop compat n f o l t b) (read_plain_loop compat n f o l t b).
Proof. revert o l t b. induction n as [|n IH]; intros; simpl; unfold ch_panic; sim_steps. Qed.
Lemma write_plain_loop_sim n f o d : csim (write_plain_loop compat n f o d) (write_plain_loop compat n f o d).
Proof. revert o d. induction n as [|n IH]; intros; simpl; unfold ch_panic; sim_steps. Qed.
Hint Resolve read_plain_loop_sim write_plain_loop_sim : sim.
Lemma read_file_plain_sim f o l b : csim (read_file_plain_chunked compat f o l b) (read_file_plain_chunked compat f o l b).
Proof. unfold read_file_plain_chunked. sim_steps. Qed.
Lemma write_file_plain_sim f o d : csim (write_file_plain_chunked compat f o d) (write_file_plain_chunked compat f o d).
Proof. unfold write_file_plain_chunked. sim_steps. Qed.
End wire.

(** ** The session interface *)

(** Operations that return their session beside the result. *)
Definition out_sim {T1 T2 E1 E2 F A U1 U2 : Type} (R : T1 → T2 → Prop) (f1 : E1 → F) (f2 : E2 → F) (RU : U1 → U2 → Prop)
    (o1 : result A E1 * U1 * T1) (o2 : result A E2 * U2 * T2) : Prop :=
  res_sim f1 f2 eq o1.1.1 o2.1.1 ∧ RU o1.1.2 o2.1.2 ∧ R o1.2 o2.2.

Definition beside {A S1 S2} (RS : S1 → S2 → Prop) (a1 : A * S1) (a2 : A * S2) : Prop := a1.1 = a2.1 ∧ RS a1.2 a2.2.

(** Two session implementations; [g1] and [g2] are what is compared of their
    transport errors. *)
Class DeviceSim {T1 TE1 T2 TE2 G} (D1 : NtagDevice T1 TE1) (D2 : NtagDevice T2 TE2) (R : T1 → T2 → Prop)
    (g1 : TE1 → G) (g2 : TE2 → G) := {
  ds_u : USess (NtagDevice := D1) → USess (NtagDevice := D2) → Prop;
  ds_a : ASess (NtagDevice := D1) → ASess (NtagDevice := D2) → Prop;
  ds_default : ds_u session_default session_default;
  ds_uid u1 u2 : ds_u u1 u2 →
    sim R (session_map g1) (session_map g2) eq (get_selected_uid u1) (get_selected_uid u2);
  ds_version u1 u2 : ds_u u1 u2 →
    sim R (session_map g1) (session_map g2) eq (get_version u1) (get_version u2);
  ds_settings_u u1 u2 t1 t2 : ds_u u1 u2 → R t1 t2 →
    out_sim R (session_map g1) (session_map g2) ds_u (get_file_settings_u u1 t1) (get_file_settings_u u2 t2);
  ds_read_u u1 u2 off buf t1 t2 : ds_u u1 u2 → R t1 t2 →
    let '(r1, b1, u1', t1') := read_file_unauthenticated u1 off buf t1 in
    let '(r2, b2, u2', t2') := read_file_unauthenticated u2 off buf t2 in
    b1 = b2 ∧ out_sim R (session_map g1) (session_map g2) ds_u (r1, u1', t1') (r2, u2', t2');
  ds_auth u1 u2 n k rnd : ds_u u1 u2 →
    sim R (session_map g1) (session_map g2) ds_a (authenticate_aes u1 n k rnd) (authenticate_aes u2 n k rnd);
  ds_settings s1 s2 : ds_a s1 s2 →
    sim R (session_map g1) (session_map g2) (beside ds_a) (get_file_settings s1) (get_file_settings s2);
  ds_change_file s1 s2 u : ds_a s1 s2 →
    sim R (session_map g1) (session_map g2) ds_a (change_file_settings s1 u) (change_file_settings s2 u);
  ds_write s1 s2 off d : ds_a s1 s2 →
    sim R (session_map g1) (session_map g2) ds_a (write_file_plain s1 off d) (write_file_plain s2 off d);
  ds_read s1 s2 off len buf : ds_a s1 s2 →
    sim R (session_map g1) (session_map g2) (beside ds_a) (read_file_plain s1 off len buf) (read_file_plain s2 off len buf);
  ds_change_key s1 s2 n k ver old : ds_a s1 s2 →
    sim R (session_map g1) (session_map g2) ds_a (change_key s1 n k ver old) (change_key s2 n k ver old);
  ds_key_version s1 s2 n : ds_a s1 s2 →
    sim R (session_map g1) (session_map g2) (beside ds_a) (get_key_version s1 n) (get_key_version s2 n);
  ds_change_master s1 s2 k ver : ds_a s1 s2 →
    sim R (session_map g1) (session_map g2) ds_u (change_master_key s1 k ver) (change_master_key s2 k ver) }.

Section device.
  Context {C : AesCrypto} {T1 TE1 T2 TE2 F : Type} {A1 : Apdu T1 TE1} {A2 : Apdu T2 TE2}.
  Context (compat : bool) (R : T1 → T2 → Prop) (f1 : Fault TE1 → F) (f2 : Fault TE2 → F) `{!TransportSim A1 A2 R f1 f2}.

Abbreviation kind1 := (session_map f1).
Abbreviation kind2 := (session_map f2).
Abbreviation W1 := (M T1 (SessionError (Fault TE1))).
Abbreviation W2 := (M T2 (SessionError (Fault TE2))).

Lemma with_session_sim {A} (s : Sess Authenticated) (m1 : Ch (T := T1) (TE := TE1) A) (m2 : Ch (T := T2) (TE := TE2) A) :
  sim (under R) kind1 kind2 eq m1 m2 → sim R kind1 kind2 eq (with_session s m1) (with_session s m2).
Proof.
  intros Hm t1 t2 HR. destruct (Hm (se_state s, t1) (se_state s, t2)) as [Hr [Hs HR']]; [done|].
  unfold with_session, res_sim in *.
  destruct (m1 (se_state s, t1)) as [[a1|e1] [s1' t1']], (m2 (se_state s, t2)) as [[a2|e2] [s2' t2']]; simpl in *; try done.
  by subst.
Qed.

Lemma with_session_beside {A} (s : Sess Authenticated) (m1 : Ch (T := T1) (TE := TE1) A) (m2 : Ch (T := T2) (TE := TE2) A) :
  sim (under R) kind1 kind2 eq m1 m2 → sim R kind1 kind2 (beside eq) (with_session s m1) (with_session s m2).
Proof. intros Hm. eapply sim_mono; [by apply with_session_sim|]. by intros a ? <-. Qed.

Lemma with_session_unit_sim (s : Sess Authenticated) (m1 : Ch (T := T1) (TE := TE1) ()) (m2 : Ch (T := T2) (TE := TE2) ()) :
  sim (under R) kind1 kind2 eq m1 m2 → sim R kind1 kind2 eq (with_session_ s m1) (with_session_ s m2).
Proof. intros Hm. eapply sim_bind_eq; [by apply with_session_sim|]. intros r. by apply sim_ret. Qed.

Lemma usim_out {A} (m1 : M (Sess () * T1) (SessionError (Fault TE1)) A) (m2 : M (Sess () * T2) (SessionError (Fault TE2)) A) s t1 t2 :
  sim (under R) kind1 kind2 eq m1 m2 → R t1 t2 →
  out_sim R kind1 kind2 eq (let '(r, (s, t)) := m1 (s, t1) in (r, s, t)) (let '(r, (s, t)) := m2 (s, t2) in (r, s, t)).
Proof.
  intros Hm HR. destruct (Hm (s, t1) (s, t2)) as [Hr [Hs HR']]; [done|].
  by destruct (m1 (s, t1)) as [r1 [s1' t1']], (m2 (s, t2)) as [r2 [s2' t2']].
Qed.

Lemma read_iso_loop_sim n off total buf t1 t2 :
  R t1 t2 →
  let '(r1, b1, t1') := read_iso_loop n off total buf t1 in
  let '(r2, b2, t2') := read_iso_loop n off total buf t2 in
  b1 = b2 ∧ res_sim kind1 kind2 eq r1 r2 ∧ R t1' t2'.
Proof.
  revert total buf t1 t2. induction n as [|n IH]; intros total buf t1 t2 HR; simpl; case_decide; try done.
  { split_and!; [done|by eapply panic_sim|done]. }
  case_decide; [done|].
  set (want := Nat.min _ _). set (abs := off + _).
  destruct (iso_read_binary_sim R f1 f2 None abs (take want (drop total buf)) t1 t2 HR) as [Hr HR'].
  destruct (iso_read_binary _ _ _ t1) as [[[n1 p1]|e1] t1'], (iso_read_binary _ _ _ t2) as [[[n2 p2]|e2] t2'];
    simpl in *; try done.
  injection Hr as <- <-. case_decide; [done|]. by apply IH.
Qed.

Lemma read_unauthenticated_sim f s off buf t1 t2 :
  R t1 t2 →
  let '(r1, b1, s1, t1') := session_read_unauthenticated f s off buf t1 in
  let '(r2, b2, s2, t2') := session_read_unauthenticated f s off buf t2 in
  b1 = b2 ∧ out_sim R kind1 kind2 eq (r1, s1, t1') (r2, s2, t2').
Proof.
  intros HR. unfold session_read_unauthenticated.
  destruct (select_file_sim R f1 f2 f (s, t1) (s, t2)) as [Hr [Hs HR']]; [done|].
  destruct (select_file f (s, t1)) as [[[]|e1] [s1 t1']], (select_file f (s, t2)) as [[[]|e2] [s2 t2']];
    simpl in *; try done. subst s2. case_decide.
  - destruct (iso_read_binary_sim R f1 f2 None off buf t1' t2' HR') as [Hr' HR''].
    destruct (iso_read_binary None off buf t1') as [[a1|e1] u1], (iso_read_binary None off buf t2') as [[a2|e2] u2];
      simpl in *; try done. by subst.
  - pose proof (read_iso_loop_sim (length buf) off 0 buf t1' t2' HR') as Hl.
    destruct (read_iso_loop _ _ _ _ t1') as [[r1 b1] u1], (read_iso_loop _ _ _ _ t2') as [[r2 b2] u2].
    destruct Hl as (-> & Hr' & HR''). done.
Qed.

Lemma authenticate_sim s n k rnd :
  sim R kind1 kind2 eq (session_authenticate_aes s n k rnd) (session_authenticate_aes s n k rnd).
Proof.
  intros t1 t2 HR. unfold session_authenticate_aes.
  destruct (select_ndef_application_sim R f1 f2 (s, t1) (s, t2)) as [Hr [Hs HR']]; [done|].
  destruct (select_ndef_application (s, t1)) as [[[]|e1] [s1 t1']], (select_ndef_application (s, t2)) as [[[]|e2] [s2 t2']];
    simpl in *; try done. subst s2.
  destruct (authenticate_ev2_first_sim R f1 f2 n k rnd t1' t2' HR') as [Hr' HR''].
  destruct (authenticate_ev2_first n k rnd t1') as [[a1|e1] u1], (authenticate_ev2_first n k rnd t2') as [[a2|e2] u2];
    simpl in *; try done. by subst.
Qed.

Lemma selected_uid_sim s : sim R kind1 kind2 eq (session_get_selected_uid (T := T1) s) (session_get_selected_uid (T := T2) s).
Proof.
  unfold session_get_selected_uid. apply sim_bind_eq.
  - eapply sim_lift_err; [apply sim_get_uid|]. intros e1 e2 H. simpl. by rewrite H.
  - intros d. sim_steps.
Qed.

(** The commands on the wire, over transports that answer alike. *)
#[export] Instance wire_sim : DeviceSim (wire_device (AP := A1) compat) (wire_device (AP := A2) compat) R f1 f2.
Proof.
  unshelve refine (Build_DeviceSim _ _ _ _ _ (wire_device (AP := A1) compat) (wire_device (AP := A2) compat) R f1 f2
    (eq (A := Sess ())) (eq (A := Sess Authenticated)) _ _ _ _ _ _ _ _ _ _ _ _ _); simpl; intros; subst; try done.
  - apply selected_uid_sim.
  - by apply wire_get_version_sim.
  - by apply usim_out; [apply session_get_file_settings_sim|].
  - by apply read_unauthenticated_sim.
  - apply authenticate_sim.
  - by apply with_session_beside, wire_get_file_settings_mac_sim.
  - by apply with_session_unit_sim, wire_change_file_settings_sim.
  - by apply with_session_unit_sim, write_file_plain_sim.
  - eapply sim_bind_eq; [by apply with_session_sim, read_file_plain_sim|]. intros r. by apply sim_ret.
  - by apply with_session_unit_sim, change_key_transmit_sim.
  - by apply with_session_beside, wire_get_key_version_sim.
  - eapply sim_bind_eq; [by apply with_session_unit_sim, change_key_transmit_sim|]. intros r. by apply sim_ret.
Defined.
End device.

(** ** The workflows *)

Section workflows.
  Context {T1 TE1 T2 TE2 G : Type} {D1 : NtagDevice T1 TE1} {D2 : NtagDevice T2 TE2}.
  Context (R : T1 → T2 → Prop) (g1 : TE1 → G) (g2 : TE2 → G) `{!DeviceSim D1 D2 R g1 g2}.
  Context (planner : list Z → CryptoMode → SdmUrlOptions → result SdmUrlConfig SdmUrlError).
  Context {V : Type} (verify_sdm : Sdm → list Z → AesKey → AesKey → option V).

(** A workflow on both devices. *)
Abbreviation wf RV := (sim R (error_map g1) (error_map g2) RV).

Lemma call_sim {A1 A2} (RV : A1 → A2 → Prop) m1 m2 :
  sim R (session_map g1) (session_map g2) RV m1 m2 → wf RV (call m1) (call m2).
Proof. intros Hm. eapply sim_lift_err; [exact Hm|]. intros e1 e2 H. by rewrite !from_session_map, H. Qed.

(** One operation of a workflow, with what the rest is given. *)
Lemma call_bind {A1 A2 B1 B2} (RV : A1 → A2 → Prop) (RW : B1 → B2 → Prop) m1 m2 k1 k2 :
  sim R (session_map g1) (session_map g2) RV m1 m2 →
  (∀ a1 a2, RV a1 a2 → wf RW (k1 a1) (k2 a2)) →
  wf RW (call m1 ≫= k1) (call m2 ≫= k2).
Proof. intros Hm. by apply sim_bind, call_sim. Qed.

Lemma attempt_bind {A1 A2 B1 B2} (RV : A1 → A2 → Prop) (RW : B1 → B2 → Prop)
    (m1 : M T1 (SessionError TE1) A1) (m2 : M T2 (SessionError TE2) A2) k1 k2 :
  sim R (session_map g1) (session_map g2) RV m1 m2 →
  (∀ r1 r2, res_sim (session_map g1) (session_map g2) RV r1 r2 → wf RW (k1 r1) (k2 r2)) →
  wf RW (attempt m1 ≫= k1) (attempt m2 ≫= k2).
Proof. intros Hm. by apply sim_bind, sim_attempt. Qed.

Hint Resolve ds_default ds_uid ds_version ds_auth ds_settings ds_change_file ds_write ds_read ds_change_key ds_key_version
  ds_change_master : sim.

Ltac wf_step :=
  lazymatch goal with
  | |- sim _ _ _ _ (mret _) _ => apply sim_ret; try done
  | |- sim _ _ _ _ (fail _) _ => apply sim_fail; try done
  | |- sim _ _ _ _ (call _ ≫= _) _ => eapply call_bind; [eauto with sim|]
  | |- sim _ _ _ _ (call _) _ => apply call_sim; eauto with sim
  | |- ∀ a1 a2, beside _ a1 a2 → _ => intros [??] [??] [??]; simpl in *; subst
  | |- ∀ a1 a2, eq a1 a2 → _ => intros ? ? <-
  | |- ∀ a1 a2, _ a1 a2 → _ => intros ? ? ?
  end.
Ltac wf_steps := repeat wf_step.

Lemma preflight_sim assume : wf eq (preflight_with_chip_check (D := D1) assume) (preflight_with_chip_check (D := D2) assume).
Proof. unfold preflight_with_chip_check. wf_steps. destruct assume; wf_steps. case_decide; wf_steps. Qed.

Lemma update_keys_sim ver us s1 s2 : ds_a s1 s2 → wf ds_a (update_keys ver us s1) (update_keys ver us s2).
Proof.
  revert s1 s2. induction us as [|u us IH]; intros s1 s2 Hs; simpl; wf_steps.
  case_decide; wf_steps. by apply IH.
Qed.

Lemma burn_configure_sim plan s1 s2 : ds_a s1 s2 → wf ds_a (burn_configure plan s1) (burn_configure plan s2).
Proof.
  intros Hs. unfold burn_configure. wf_steps. eapply (sim_bind _ _ _ ds_a).
  { case_match; wf_steps. }
  wf_steps. case_match. simplify_eq. case_decide; wf_steps. case_match; wf_steps.
Qed.
Hint Resolve update_keys_sim burn_configure_sim : sim.

Lemma burn_sim params rnd_a : wf eq (burn (D := D1) planner params rnd_a) (burn (D := D2) planner params rnd_a).
Proof.
  unfold burn. destruct (planner _ _ _) as [plan|e]; [|wf_steps]. wf_steps.
  eapply sim_bind; [eauto with sim|]. wf_steps. eapply sim_bind; [eauto with sim|]. wf_steps. case_match; wf_steps.
Qed.

Lemma wipe_reset_file_sim s1 s2 : ds_a s1 s2 → wf ds_a (wipe_reset_file s1) (wipe_reset_file s2).
Proof. intros Hs. unfold wipe_reset_file. wf_steps. Qed.
Hint Resolve wipe_reset_file_sim : sim.

Lemma wipe_sim keys rnd_a : wf eq (wipe (D := D1) keys rnd_a) (wipe (D := D2) keys rnd_a).
Proof.
  unfold wipe. wf_steps. eapply sim_bind; [eauto with sim|]. wf_steps. eapply sim_bind; [eauto with sim|]. wf_steps.
  case_match; [case_match|]; wf_steps.
Qed.

Lemma read_versions_sim ns s1 s2 : ds_a s1 s2 → wf eq (read_versions ns s1) (read_versions ns s2).
Proof.
  revert s1 s2. induction ns as [|n ns IH]; intros s1 s2 Hs; simpl; wf_steps.
  eapply sim_bind; [by apply IH|]. wf_steps.
Qed.

Lemma check_key_versions_sim key rnd_a : wf eq (check_key_versions (D := D1) key rnd_a) (check_key_versions (D := D2) key rnd_a).
Proof. unfold check_key_versions. wf_steps. by apply read_versions_sim. Qed.

Lemma safe_inspect_file_sim ka kb u1 u2 uid v :
  ds_u u1 u2 → wf eq (safe_inspect_file verify_sdm ka kb u1 uid v) (safe_inspect_file verify_sdm ka kb u2 uid v).
Proof.
  intros Hu t1 t2 HR. unfold safe_inspect_file. pose proof (ds_settings_u u1 u2 t1 t2 Hu HR) as (Hfs & Hu1 & HR1).
  destruct (get_file_settings_u u1 t1) as [[fs1 v1] w1], (get_file_settings_u u2 t2) as [[fs2 v2] w2]; simpl in *.
  assert (ok fs1 = ok fs2) as <- by (destruct fs1, fs2; naive_solver).
  pose proof (ds_read_u v1 v2 0 (replicate 256 0) w1 w2 Hu1 HR1) as Hr.
  destruct (read_file_unauthenticated v1 _ _ w1) as [[[r1 b1] x1] y1], (read_file_unauthenticated v2 _ _ w2) as [[[r2 b2] x2] y2].
  destruct Hr as (-> & Hr & Hu2 & HR2). simpl in *.
  assert (ok r1 = ok r2) as Hok by (destruct r1, r2; naive_solver). rewrite Hok.
  destruct (ok fs1) as [st|]; [|done]. destruct (fs_sdm st); [|done].
  pose proof (ds_read_u x1 x2 0 b2 y1 y2 Hu2 HR2) as Hr'.
  destruct (read_file_unauthenticated x1 _ _ y1) as [[[r3 b3] x3] y3], (read_file_unauthenticated x2 _ _ y2) as [[[r4 b4] x4] y4].
  destruct Hr' as (-> & Hr' & _ & HR3). simpl in *.
  assert (ok r3 = ok r4) as Hok' by (destruct r3, r4; naive_solver). by rewrite Hok'.
Qed.

Lemma safe_inspect_sim ka kb : wf eq (safe_inspect (D := D1) verify_sdm ka kb) (safe_inspect (D := D2) verify_sdm ka kb).
Proof.
  unfold safe_inspect. wf_steps. eapply attempt_bind; [eauto with sim|]. intros r1 r2 Hr.
  assert (ok r1 = ok r2) as -> by (destruct r1, r2; naive_solver). apply safe_inspect_file_sim, ds_default.
Qed.

(** The sessions that the counter probe goes on with. *)
Definition rounds_sim (r1 : F5ProbeReport + Z * Z * ASess (NtagDevice := D1)) (r2 : F5ProbeReport + Z * Z * ASess (NtagDevice := D2)) : Prop :=
  match r1, r2 with
  | inl a, inl b => a = b
  | inr a, inr b => beside ds_a a b
  | _, _ => False
  end.

Lemma f5_read_rounds_sim n f ad s1 s2 : ds_a s1 s2 → wf rounds_sim (f5_read_rounds n f ad s1) (f5_read_rounds n f ad s2).
Proof.
  revert f ad s1 s2. induction n as [|n IH]; intros f ad s1 s2 Hs; simpl; [by apply sim_ret|].
  eapply attempt_bind; [eauto with sim|]. intros [[v1 a1]|e1] [[v2 a2]|e2] Hr; try done; try by apply sim_ret.
  destruct Hr as [_ Ha]. eapply attempt_bind; [eauto with sim|].
  intros [[[n1 b1] c1]|e1] [[[n2 b2] c2]|e2] Hr; try done; try by apply sim_ret. apply IH, Hr.
Qed.

Lemma f5_write_leg_sim snap f ad s1 s2 : ds_a s1 s2 → wf eq (f5_write_leg snap f ad s1) (f5_write_leg snap f ad s2).
Proof.
  intros Hs. unfold f5_write_leg. eapply attempt_bind; [eauto with sim|].
  intros [[v1 a1]|e1] [[v2 a2]|e2] Hr; try done; try by apply sim_ret. destruct Hr as [_ Ha].
  case_decide; [by apply sim_ret|]. eapply attempt_bind; [eauto with sim|].
  intros [c1|e1] [c2|e2] Hr; try done; try by apply sim_ret. eapply attempt_bind; [eauto with sim|].
  intros r1 r2 Hr'. apply sim_ret. by destruct r1, r2.
Qed.

Lemma f5probe_sim rnd_a force : wf eq (f5probe (D := D1) rnd_a force) (f5probe (D := D2) rnd_a force).
Proof.
  unfold f5probe. wf_steps. match goal with p : nat * list Z |- _ => destruct p as [n0 sn] end.
  eapply (sim_bind _ _ _ (beside ds_a)); [destruct (decide (n0 = 0%nat)); wf_steps|].
  intros [[n1 b1] c1] [[n2 b2] c2] [[= -> ->] Ha]. simpl in Ha. destruct (negb force && _); [by apply sim_fail|].
  eapply sim_bind; [exact (f5_read_rounds_sim 3 0 0 _ _ Ha)|]. intros [r1|[[x1 y1] z1]] [r2|[[x2 y2] z2]] Hr; try done.
  destruct Hr as [[= -> ->] Hz]. destruct (negb (forallb _ _)); [by apply sim_ret|]. by apply f5_write_leg_sim.
Qed.
End workflows.

(** ** Sequences of workflows *)

Inductive Job : Type :=
| Job_Burn (params : BurnParams) (rnd_a : AesKey)
| Job_Wipe (keys : CardKeys) (rnd_a : AesKey)
| Job_Preflight (assume_ntag424 : bool)
| Job_Inspect (k1 k2 : option AesKey)
| Job_Versions (key rnd_a : AesKey)
| Job_Probe (rnd_a : AesKey) (force : bool).

Inductive Outcome (V : Type) : Type :=
| Out_Uid (uid : list Z)
| Out_Inspect (r : SafeInspectResult V)
| Out_Versions (vs : list Z)
| Out_Probe (r : F5ProbeReport).
Arguments Out_Uid {V} _.
Arguments Out_Inspect {V} _.
Arguments Out_Versions {V} _.
Arguments Out_Probe {V} _.

Section jobs.
  Context (planner : list Z → CryptoMode → SdmUrlOptions → result SdmUrlConfig SdmUrlError).
  Context {V : Type} (verify_sdm : Sdm → list Z → AesKey → AesKey → option V).

Definition run_job {T TE} {D : NtagDevice T TE} (j : Job) : M T (Error TE) (Outcome V) :=
  match j with
  | Job_Burn params rnd_a => uid ← burn planner params rnd_a; mret (Out_Uid uid)
  | Job_Wipe keys rnd_a => uid ← wipe keys rnd_a; mret (Out_Uid uid)
  | Job_Preflight assume => uid ← preflight_with_chip_check assume; mret (Out_Uid uid)
  | Job_Inspect k1 k2 => r ← safe_inspect verify_sdm k1 k2; mret (Out_Inspect r)
  | Job_Versions key rnd_a => vs ← check_key_versions key rnd_a; mret (Out_Versions vs)
  | Job_Probe rnd_a force => r ← f5probe rnd_a force; mret (Out_Probe r)
  end.

(** One after the other, whatever each reports. *)
Fixpoint run_jobs {T TE} {D : NtagDevice T TE} (js : list Job) (t : T) : list (result (Outcome V) (Error TE)) * T :=
  match js with
  | [] => ([], t)
  | j :: js =>
      let '(r, t) := run_job j t in
      let '(rs, t) := run_jobs js t in
      (r :: rs, t)
  end.

Section sim_jobs.
  Context {T1 TE1 T2 TE2 G : Type} {D1 : NtagDevice T1 TE1} {D2 : NtagDevice T2 TE2}.
  Context (R : T1 → T2 → Prop) (g1 : TE1 → G) (g2 : TE2 → G) `{!DeviceSim D1 D2 R g1 g2}.

Lemma run_job_sim j : sim R (error_map g1) (error_map g2) eq (run_job (D := D1) j) (run_job (D := D2) j).
Proof.
  destruct j; simpl; apply sim_bind_eq; try (intros; by apply sim_ret);
    [by apply burn_sim|by apply wipe_sim|by apply preflight_sim|by apply safe_inspect_sim|by apply check_key_versions_sim|by apply f5probe_sim].
Qed.

Lemma run_jobs_sim js t1 t2 :
  R t1 t2 →
  Forall2 (res_sim (error_map g1) (error_map g2) eq) (run_jobs (D := D1) js t1).1 (run_jobs (D := D2) js t2).1 ∧
  R (run_jobs (D := D1) js t1).2 (run_jobs (D := D2) js t2).2.
Proof.
  revert t1 t2. induction js as [|j js IH]; intros t1 t2 HR; simpl; [by split; [constructor|]|].
  destruct (run_job_sim j t1 t2 HR) as [Hr HR'].
  destruct (run_job (D := D1) j t1) as [r1 t1'], (run_job (D := D2) j t2) as [r2 t2'].
  destruct (IH t1' t2' HR') as [Hrs HR''].
  destruct (run_jobs (D := D1) js t1'), (run_jobs (D := D2) js t2'). split; [by constructor|done].
Qed.
End sim_jobs.

(** What every APDU keeps of a transport, every sequence of workflows keeps. *)
Lemma run_jobs_preserves {C : AesCrypto} {T TE} {A : Apdu T TE} (compat : bool) (P : T → Prop) js t :
  (∀ apdu, preserves P (apdu_transmit apdu)) → preserves P apdu_get_uid → P t →
  P (run_jobs (D := wire_device compat) js t).2.
Proof.
  intros Ht Hu HP.
  assert (TransportSim A A (diagonal P) id id) as HS by (split; [intros; by apply preserves_sim|by apply preserves_sim|done]).
  by destruct (run_jobs_sim (diagonal P) id id (D1 := wire_device compat) (D2 := wire_device compat) js t t) as [_ [_ H]].
Qed.
End jobs.
