(* ===== verification/Lrp.v ===== *)
(** * The leakage-resilient primitive and its session suite

    [vendor/ntag424/src/crypto/lrp.rs]: the secret plaintexts and updated keys of
    a base key, the evaluation over a nibble string, the nibble counter, and the
    indexed code book mode LRICB; [crypto/suite.rs]: the session keys of LRP
    Secure Messaging and the suite whose 32-bit counter persists across messages.

    What is proved: the nibble counter is a big-endian counter modulo its width;
    LRICB decrypts what it encrypted and moves the counter by one per block; two
    suites derived from one transcript stay in step over any conversation. *)

From S2P Require Import Prelude Str Hex Derivation Picc AesRef Ndef NtagTypes Channel.

(** The crate [cmac] instantiates CMAC (SP 800-38B) with any block cipher; the
    source uses it with [Lrp]. *)
Class CmacCrate : Type := cmac_over : (list Z → list Z) → list Z → list Z.

(** ** Nibbles and the counter *)

Definition NIBBLE_MASK : Z := 0xF.
Definition from_masked (v : Z) : Z := Z.land v NIBBLE_MASK.

(** The loop of [inc] from the last nibble; it returns at the first that does not
    overflow. *)
Fixpoint inc_rev (counter : list Z) : list Z :=
  match counter with
  | [] => []
  | c :: counter =>
      if decide (c = NIBBLE_MASK) then from_masked 0 :: inc_rev counter else from_masked (c + 1) :: counter
  end.

Definition inc (counter : list Z) : list Z := reverse (inc_rev (reverse counter)).

Definition LRICB_COUNTER_MAX_BYTES : nat := 16.

(** Two nibbles per byte, the high one first. *)
Definition byte_nibbles (b : Z) : list Z := [from_masked (Z.shiftr b 4); from_masked b].

Definition load_counter (counter : list Z) : option (list Z) :=
  if decide (counter = [] ∨ (LRICB_COUNTER_MAX_BYTES < length counter)%nat) then None
  else Some (counter ≫= byte_nibbles).

Definition store_counter (nibs counter : list Z) : list Z :=
  imap (λ i _, Z.lor (u8 (Z.shiftl (nth (2 * i) nibs 0) 4)) (nth (2 * i + 1) nibs 0)) counter.

(** ** The primitive *)

Record Lrp := mkLrp { lrp_plaintexts : list (list Z); lrp_k_prime : list Z }.

Section lrp.
  Context {C : AesCrypto}.

Definition block_of (b : Z) : list Z := replicate 16 b.

(** The closure of [core::array::from_fn] with its captured [h]. *)
Fixpoint key_chain (n : nat) (h : list Z) : list (list Z) :=
  match n with
  | O => []
  | S n => aes_block h (block_of 0xAA) :: key_chain n (aes_block h (block_of 0x55))
  end.

Definition generate_plaintexts (k : list Z) : list (list Z) := key_chain 16 (aes_block k (block_of 0x55)).
Definition generate_updated_keys (n : nat) (k : list Z) : list (list Z) :=
  key_chain n (aes_block k (block_of 0xAA)).

Definition eval_lrp (plaintexts : list (list Z)) (updated_key inputs : list Z) (last : bool) : list Z :=
  let y := foldl (λ y x_i, aes_block y (nth (Z.to_nat x_i) plaintexts [])) updated_key inputs in
  if last then aes_block y (block_of 0x00) else y.

Definition from_base_key (key : list Z) : Lrp :=
  mkLrp (generate_plaintexts key) (nth 0 (generate_updated_keys 1 key) []).

Definition from_parts (plaintexts : list (list Z)) (k_prime : list Z) : Lrp := mkLrp plaintexts k_prime.

(** The chunk loops: what is left in the buffer, and the nibbles. *)
Fixpoint lricb_enc_loop (l : Lrp) (n : nat) (nibs buf : list Z) : list Z * list Z :=
  match n with
  | O => ([], nibs)
  | S n =>
      let y := eval_lrp (lrp_plaintexts l) (lrp_k_prime l) nibs true in
      let '(out, nibs) := lricb_enc_loop l n (inc nibs) (drop 16 buf) in
      (aes_block y (take 16 buf) ++ out, nibs)
  end.

Fixpoint lricb_dec_loop (l : Lrp) (n : nat) (nibs buf : list Z) : list Z * list Z :=
  match n with
  | O => ([], nibs)
  | S n =>
      let y := eval_lrp (lrp_plaintexts l) (lrp_k_prime l) nibs true in
      let '(out, nibs) := lricb_dec_loop l n (inc nibs) (drop 16 buf) in
      (aes_unblock y (take 16 buf) ++ out, nibs)
  end.

(** The counter and the buffer afterwards. *)
Definition lricb_encrypt_in_place (l : Lrp) (counter buf : list Z) : option (list Z * list Z) :=
  if decide (block_aligned buf) then
    nibs ← load_counter counter;
    let '(out, nibs) := lricb_enc_loop l (length buf `div` 16) nibs buf in
    Some (store_counter nibs counter, out)
  else None.

Definition lricb_decrypt_in_place (l : Lrp) (counter buf : list Z) : option (list Z * list Z) :=
  if decide (block_aligned buf) then
    nibs ← load_counter counter;
    let '(out, nibs) := lricb_dec_loop l (length buf `div` 16) nibs buf in
    Some (store_counter nibs counter, out)
  else None.

(** LRP as a block cipher: evaluation over the 32 nibbles of the block. *)
Definition lrp_encrypt_block (l : Lrp) (input : list Z) : list Z :=
  let nibbles :=
    (λ i : nat, from_masked (let byte := nth (i / 2) input 0 in
                       if decide (i mod 2 = 0)%nat then Z.shiftr byte 4 else Z.land byte 0x0F)) <$> seq 0 32 in
  eval_lrp (lrp_plaintexts l) (lrp_k_prime l) nibbles true.

(** ** suite.rs: the LRP suite *)

Definition session_vector_lrp (rnd_a rnd_b : list Z) : list Z :=
  [0x00; 0x01; 0x00; 0x80] ++ sub_list 0 2 rnd_a ++
  xor_bytes (sub_list 2 8 rnd_a) (sub_list 0 6 rnd_b) ++ sub_list 6 16 rnd_b ++ sub_list 8 16 rnd_a ++ [0x96; 0x69].

Context {K : CmacCrate}.

Definition cmac_lrp (l : Lrp) (data : list Z) : list Z := cmac_over (lrp_encrypt_block l) data.
End lrp.

Record LrpSuite := mkLrpSuite { ls_mac_key : Lrp; ls_enc_key : Lrp; ls_enc_ctr : Z }.

Section suite.
  Context {C : AesCrypto} {K : CmacCrate}.

Definition mac_full (s : LrpSuite) (data : list Z) : list Z := cmac_lrp (ls_mac_key s) data.

Definition lrp_derive (kx rnd_a rnd_b : list Z) : LrpSuite :=
  let master := cmac_lrp (from_base_key kx) (session_vector_lrp rnd_a rnd_b) in
  let plaintexts := generate_plaintexts master in
  let uk := generate_updated_keys 2 master in
  mkLrpSuite (from_parts plaintexts (nth 0 uk [])) (from_parts plaintexts (nth 1 uk [])) 0.

Definition lrp_mac (s : LrpSuite) (data : list Z) : list Z := truncate_mac (cmac_lrp (ls_mac_key s) data).

Definition with_enc_ctr (s : LrpSuite) (ctr : Z) : LrpSuite := mkLrpSuite (ls_mac_key s) (ls_enc_key s) ctr.

Definition lrp_encrypt (s : LrpSuite) (buf : list Z) : option (list Z) * LrpSuite :=
  match lricb_encrypt_in_place (ls_enc_key s) (be_bytes 4 (ls_enc_ctr s)) buf with
  | Some (ctr, buf) => (Some buf, with_enc_ctr s (be_val ctr))
  | None => (None, s)
  end.

Definition lrp_decrypt (s : LrpSuite) (buf : list Z) : option (list Z) * LrpSuite :=
  match lricb_decrypt_in_place (ls_enc_key s) (be_bytes 4 (ls_enc_ctr s)) buf with
  | Some (ctr, buf) => (Some buf, with_enc_ctr s (be_val ctr))
  | None => (None, s)
  end.
End suite.

(** ** Vectors of the application note (from the tests of the source) *)

Definition hex_nibs (s : string) : list Z := (λ c, default 0 (decode_hex_nibble c)) <$> lit s.

(** CMAC as the crate documents it. *)
Definition ref_cmac : CmacCrate := block_cmac.

Section vectors.
#[local] Existing Instance Aes128.
#[local] Existing Instance ref_cmac.

Definition an12304_key : list Z := hex16 "567826B8DA8E768432A9548DBE4AA3A0".

Example an12304_plaintext_15 :
  nth 15 (generate_plaintexts an12304_key) [] = hex16 "71B444AF257A93215311D758DD333247".
Proof. vm_compute. reflexivity. Qed.

Example an12304_updated_key_2 :
  nth 2 (generate_updated_keys 3 an12304_key) [] = hex16 "FE30AB50467E61783BFE6B5E0560160E".
Proof. vm_compute. reflexivity. Qed.

Example an12304_eval :
  eval_lrp (generate_plaintexts an12304_key) (nth 2 (generate_updated_keys 3 an12304_key) []) (hex_nibs "1359") true =
  hex16 "1BA2C0C578996BC497DD181C6885A9DD".
Proof. vm_compute. reflexivity. Qed.

Example an12304_lricb :
  lricb_encrypt_in_place (from_base_key (hex16 "EFA5B7429CD153BF0086DEF900C0F235")) [0x90; 0x36; 0xFF; 0xFF]
    (hex16 "E7F61E012F4F3255312BA68B1D2FDABF") =
  Some ([0x90; 0x37; 0; 0], hex16 "EA6E09AC2FB97E102D8CA64C1CBC0C0C").
Proof. vm_compute. reflexivity. Qed.

Example an12304_cmac :
  cmac_lrp (from_base_key (hex16 "E7FEB463C2498E04EFC5BF503473FC3A")) [0xF3; 0xEF; 0xB6; 0xB0; 0xD4; 0xA7] =
  hex16 "C17AA38420EE2AA13087578CFBB0B7F3".
Proof. vm_compute. reflexivity. Qed.
End vectors.

(** ** The counter counts *)

(** The number a nibble string denotes, most significant nibble first. *)
Fixpoint nib_le (l : list Z) : Z := match l with [] => 0 | c :: l => c + 16 * nib_le l end.
Definition nib_val (l : list Z) : Z := nib_le (reverse l).

Lemma nib_le_app l k : nib_le (l ++ k) = nib_le l + 16 ^ Z.of_nat (length l) * nib_le k.
Proof.
  induction l as [|c l IH]; cbn [nib_le app length]; [change (16 ^ Z.of_nat 0) with 1; lia|].
  rewrite IH, Nat2Z.inj_succ, Z.pow_succ_r by lia. ring.
Qed.

Lemma nib_le_bound l : Forall is_nibble l → 0 ≤ nib_le l < 16 ^ Z.of_nat (length l).
Proof.
  induction 1 as [|c l Hc _ IH]; cbn [nib_le length]; [simpl; lia|].
  rewrite Nat2Z.inj_succ, Z.pow_succ_r by lia. unfold is_nibble in Hc. lia.
Qed.

Lemma from_masked_mod v : from_masked v = v mod 16.
Proof. unfold from_masked, NIBBLE_MASK. change 15 with (Z.ones 4). by rewrite Z.land_ones by lia. Qed.

Lemma from_masked_nibble v : is_nibble (from_masked v).
Proof. rewrite from_masked_mod. unfold is_nibble. pose proof (Z.mod_pos_bound v 16). lia. Qed.

Lemma inc_rev_spec l : Forall is_nibble l →
  Forall is_nibble (inc_rev l) ∧ length (inc_rev l) = length l ∧
  nib_le (inc_rev l) = (nib_le l + 1) mod 16 ^ Z.of_nat (length l).
Proof.
  induction 1 as [|c l Hc Hl IH]; [by split_and!|]. simpl inc_rev. unfold is_nibble, NIBBLE_MASK in *.
  pose proof (nib_le_bound l Hl). pose proof (Z.pow_pos_nonneg 16 (Z.of_nat (length l)) ltac:(lia) ltac:(lia)).
  case_decide.
  - subst c. destruct IH as (IHn & IHl & IHv). split_and!; [constructor; [apply from_masked_nibble|done]|by simpl; f_equal|].
    cbn [nib_le]. rewrite IHv, from_masked_mod, Z.mod_0_l by lia. cbn [length].
    rewrite Nat2Z.inj_succ, Z.pow_succ_r by lia.
    replace (15 + 16 * nib_le l + 1) with (16 * (nib_le l + 1)) by lia.
    by rewrite Z.mul_mod_distr_l by lia.
  - split_and!; [constructor; [apply from_masked_nibble|done]|done|]. cbn [nib_le]. rewrite from_masked_mod, (Z.mod_small (c + 1)) by lia.
    cbn [length]. rewrite Nat2Z.inj_succ, Z.pow_succ_r by lia. rewrite Z.mod_small by lia. lia.
Qed.

Lemma inc_spec l : Forall is_nibble l →
  Forall is_nibble (inc l) ∧ length (inc l) = length l ∧
  nib_val (inc l) = (nib_val l + 1) mod 16 ^ Z.of_nat (length l).
Proof.
  intros H. destruct (inc_rev_spec (reverse l)) as (Hn & Hl & Hv); [by apply Forall_reverse|].
  rewrite length_reverse in *. unfold inc, nib_val. rewrite reverse_involutive, length_reverse, Forall_reverse. done.
Qed.

(** ** Between bytes and nibbles *)

Lemma be_val_cons b l : be_val (b :: l) = b * 256 ^ Z.of_nat (length l) + be_val l.
Proof.
  unfold be_val. rewrite reverse_cons. rewrite <-(length_reverse l). generalize (reverse l). clear l.
  induction l as [|x l IH]; cbn [app le_val length]; [change (256 ^ Z.of_nat 0) with 1; lia|].
  rewrite IH, Nat2Z.inj_succ, Z.pow_succ_r by lia. change (2 ^ 8) with 256. ring.
Qed.

Lemma nib_val_cons c l : nib_val (c :: l) = c * 16 ^ Z.of_nat (length l) + nib_val l.
Proof. unfold nib_val. rewrite reverse_cons, nib_le_app, length_reverse. simpl. lia. Qed.

Lemma pow_256 n : 256 ^ Z.of_nat n = 16 ^ Z.of_nat (2 * n).
Proof. rewrite Nat2Z.inj_mul, Z.pow_mul_r by lia. done. Qed.

Lemma load_val counter : bytes counter →
  let nibs := counter ≫= byte_nibbles in
  Forall is_nibble nibs ∧ length nibs = (2 * length counter)%nat ∧ nib_val nibs = be_val counter.
Proof.
  induction 1 as [|b l Hb _ IH]; [by split_and!|]. destruct IH as (IHn & IHl & IHv). unfold is_u8 in Hb.
  cbn [mbind list_bind app byte_nibbles] in *. split_and!; [repeat (constructor; [apply from_masked_nibble|]); done|cbn [length]; lia|].
  rewrite !nib_val_cons, be_val_cons, IHv, pow_256, <-IHl. cbn [length]. rewrite Nat2Z.inj_succ, Z.pow_succ_r by lia.
  rewrite !from_masked_mod, Z.shiftr_div_pow2 by lia. rewrite (Z.mod_small (b / 2 ^ 4)).
  2:{ split; [apply Z.div_pos; lia|]. apply Z.div_lt_upper_bound; lia. }
  pose proof (Z.div_mod b 16 ltac:(lia)). change (2 ^ 4) with 16. nia.
Qed.

Lemma pack_byte hi lo : is_nibble hi → is_nibble lo →
  Z.lor (u8 (Z.shiftl hi 4)) lo = 16 * hi + lo ∧ is_u8 (16 * hi + lo).
Proof.
  unfold is_nibble, is_u8. intros Hh Hl. split; [|lia]. rewrite Z.shiftl_mul_pow2, u8_id by (unfold is_u8; lia).
  pose proof (Z.add_lor_land (hi * 2 ^ 4) lo) as H. rewrite Z.land_comm in H.
  rewrite <-(Z.shiftl_mul_pow2 hi) in H |- * by lia. rewrite land_shiftl_disjoint in H by lia.
  rewrite Z.shiftl_mul_pow2 in * by lia. lia.
Qed.

Lemma store_val counter nibs : Forall is_nibble nibs → length nibs = (2 * length counter)%nat →
  array (length counter) (store_counter nibs counter) ∧ be_val (store_counter nibs counter) = nib_val nibs.
Proof.
  revert nibs. induction counter as [|c counter IH]; intros nibs Hn Hl.
  { destruct nibs; [|done]. split; [split; [done|constructor]|done]. }
  destruct nibs as [|hi [|lo nibs]]; [simpl in Hl; lia..|].
  apply Forall_cons in Hn as [Hh Hn]. apply Forall_cons in Hn as [Ho Hn].
  destruct (IH nibs Hn ltac:(simpl in Hl; lia)) as [[IHl IHb] IHv].
  assert (store_counter (hi :: lo :: nibs) (c :: counter) = 16 * hi + lo :: store_counter nibs counter) as ->.
  { unfold store_counter. rewrite imap_cons. f_equal; [by apply pack_byte|].
    apply imap_ext. intros i x _. unfold compose. by replace (2 * S i)%nat with (S (S (2 * i))) by lia. }
  split; [split; [simpl; by f_equal|constructor; [by apply pack_byte|done]]|].
  rewrite be_val_cons, IHv, !nib_val_cons, IHl, pow_256. simpl length in Hl. cbn [length].
  replace (length nibs) with (2 * length counter)%nat by lia. rewrite Nat2Z.inj_succ, Z.pow_succ_r by lia. lia.
Qed.

(** ** Round trips *)

Section roundtrip.
  Context {C : AesCrypto} `{!AesLaws C}.

Lemma lricb_loop_roundtrip l n nibs buf : Forall is_nibble nibs → array (16 * n) buf →
  let '(ct, nibs') := lricb_enc_loop l n nibs buf in
  array (16 * n) ct ∧ lricb_dec_loop l n nibs ct = (buf, nibs') ∧
  Forall is_nibble nibs' ∧ length nibs' = length nibs ∧
  nib_val nibs' = (nib_val nibs + Z.of_nat n) mod 16 ^ Z.of_nat (length nibs).
Proof.
  revert nibs buf. induction n as [|n IH]; intros nibs buf Hn Hb; cbn [lricb_enc_loop].
  { cbn [lricb_dec_loop]. pose proof (nib_le_bound (reverse nibs) ltac:(by apply Forall_reverse)) as B.
    rewrite length_reverse in B. split; [split; [done|constructor]|]. split_and!; [|done..|].
    - by rewrite (nil_length_inv buf) by apply Hb.
    - rewrite Z.add_0_r, Z.mod_small; done. }
  replace (16 * S n)%nat with (16 + 16 * n)%nat in * by lia.
  destruct (array_take_drop _ _ _ Hb) as [Ht Hd]. destruct (inc_spec nibs Hn) as (In & Il & Iv).
  specialize (IH (inc nibs) (drop 16 buf) In Hd).
  destruct (lricb_enc_loop l n (inc nibs) (drop 16 buf)) as [ct nibs'] eqn:E. destruct IH as (Hc & He & Hn' & Hl' & Hv').
  set (y := eval_lrp _ _ _ _). assert (array 16 (aes_block y (take 16 buf))) as Ho by (by apply aes_block_array).
  split; [by apply array_app|]. split_and!; [|done|by rewrite Hl'|].
  - cbn [lricb_dec_loop]. rewrite take_app_exact, drop_app_exact by apply Ho. rewrite He. fold y.
    unfold aes_unblock, aes_block. rewrite aes_cbc_dec_enc by done. by rewrite take_drop.
  - rewrite Hv', Iv, Il, Nat2Z.inj_succ, Zplus_mod_idemp_l. f_equal. lia.
Qed.

(** What LRICB encrypts under a counter it decrypts under that counter, and both
    leave the counter one further per block, modulo its width. *)
Lemma lricb_roundtrip l counter n buf :
  bytes counter → counter ≠ [] → (length counter ≤ LRICB_COUNTER_MAX_BYTES)%nat → array (16 * S n) buf →
  ∃ counter' ct, lricb_encrypt_in_place l counter buf = Some (counter', ct) ∧
    lricb_decrypt_in_place l counter ct = Some (counter', buf) ∧ array (16 * S n) ct ∧
    array (length counter) counter' ∧
    be_val counter' = (be_val counter + Z.of_nat (S n)) mod 256 ^ Z.of_nat (length counter).
Proof.
  intros Hc Hne Hl Hb. unfold lricb_encrypt_in_place, lricb_decrypt_in_place.
  destruct (load_val counter Hc) as (Ln & Ll & Lv).
  rewrite decide_True by (eapply aligned; apply Hb). unfold load_counter. rewrite decide_False by (intros [|]; [done|lia]).
  cbn [mbind option_bind]. rewrite (blocks_of (S n)) by apply Hb.
  pose proof (lricb_loop_roundtrip l (S n) _ _ Ln Hb) as H.
  destruct (lricb_enc_loop _ _ _ _) as [ct nibs']. destruct H as (Ha & He & Hn & Hl' & Hv).
  destruct (store_val counter nibs' Hn ltac:(lia)) as [Sa Sv].
  eexists _, ct. split; [done|]. rewrite decide_True by (eapply aligned; apply Ha).
  rewrite (blocks_of (S n)), He by apply Ha. split; [done|]. split; [done|]. split; [done|].
  by rewrite Sv, Hv, Lv, Ll, pow_256.
Qed.

Lemma lrp_suite_roundtrip s n buf : is_u32 (ls_enc_ctr s) → array (16 * S n) buf →
  ∃ ct, let s' := with_enc_ctr s (u32 (ls_enc_ctr s + Z.of_nat (S n))) in
    lrp_encrypt s buf = (Some ct, s') ∧ lrp_decrypt s ct = (Some buf, s') ∧ array (16 * S n) ct.
Proof.
  intros Hs Hb. unfold lrp_encrypt, lrp_decrypt.
  assert (length (be_bytes 4 (ls_enc_ctr s)) = 4%nat) as L4 by (unfold be_bytes; by rewrite length_reverse, le_bytes_length).
  destruct (lricb_roundtrip (ls_enc_key s) (be_bytes 4 (ls_enc_ctr s)) n buf) as (c' & ct & -> & Hd & Ha & _ & Hv);
    [|by intros E; rewrite E in L4|unfold LRICB_COUNTER_MAX_BYTES; lia|done|].
  { unfold be_bytes. apply Forall_reverse. apply le_bytes_bytes. }
  exists ct. rewrite Hd, Hv, L4, be_val_bytes by (change (2 ^ (8 * Z.of_nat 4)) with (2 ^ 32); apply Hs). done.
Qed.

Context {K : CmacCrate}.

(** A conversation: in each step one end encrypts and the other decrypts ([true]:
    the first end speaks).  What the receivers saw, and both ends afterwards. *)
Fixpoint converse (a b : LrpSuite) (msgs : list (bool * list Z)) : option (list (list Z) * LrpSuite * LrpSuite) :=
  match msgs with
  | [] => Some ([], a, b)
  | (dir, m) :: msgs =>
      let '(enc, snd) := lrp_encrypt (if dir : bool then a else b) m in
      ct ← enc;
      let '(dec, rcv) := lrp_decrypt (if dir : bool then b else a) ct in
      m' ← dec;
      '(seen, a, b) ← (if dir : bool then converse snd rcv msgs else converse rcv snd msgs);
      Some (m' :: seen, a, b)
  end.

Definition blocks (m : list Z) : Z := Z.of_nat (length m) / 16.

(** LRP Secure Messaging keeps both ends in step, from equal suites: any conversation
    of block-aligned messages, in any order of speakers and of any length, succeeds;
    every receiver sees exactly what was sent, and afterwards both suites are equal,
    their counter advanced by the number of blocks exchanged, modulo 2^32 (it wraps;
    it never desynchronises). *)
Lemma lrp_suites_in_step (s : LrpSuite) (msgs : list (bool * list Z)) :
  is_u32 (ls_enc_ctr s) → Forall (λ m, bytes m.2 ∧ block_aligned m.2) msgs →
  let s' := with_enc_ctr s (u32 (ls_enc_ctr s + foldr Z.add 0 (blocks ∘ snd <$> msgs))) in
  converse s s msgs = Some (msgs.*2, s', s').
Proof.
  intros Hc Hm. revert s Hc. induction Hm as [|[dir m] msgs [Hb [Hne Ha]] _ IH]; intros s Hc.
  { cbn. rewrite Z.add_0_r. unfold u32. rewrite Z.mod_small by apply Hc. by destruct s. }
  cbn [snd] in *. apply Nat.Div0.mod_divides in Ha as [[|n] Hn]; [by destruct m|].
  destruct (lrp_suite_roundtrip s n m Hc ltac:(done)) as (ct & He & Hd & _).
  set (c := ls_enc_ctr s) in *. set (s1 := with_enc_ctr s (u32 (c + Z.of_nat (S n)))) in *.
  assert (is_u32 (ls_enc_ctr s1)) as Hc' by (unfold is_u32, s1, u32; simpl; apply Z.mod_pos_bound; lia).
  specialize (IH s1 Hc'). cbv zeta in IH.
  assert (with_enc_ctr s1 (u32 (ls_enc_ctr s1 + foldr Z.add 0 (blocks ∘ snd <$> msgs))) =
          with_enc_ctr s (u32 (c + (blocks m + foldr Z.add 0 (blocks ∘ snd <$> msgs))))) as E.
  { unfold s1, with_enc_ctr. simpl. f_equal. unfold blocks at 2, u32. rewrite Hn, Zplus_mod_idemp_l. f_equal.
    rewrite Nat2Z.inj_mul, (Z.mul_comm (Z.of_nat 16)), Z.div_mul by done. lia. }
  rewrite E in IH.
  destruct dir; cbn [converse]; rewrite He; cbn [mbind option_bind]; rewrite Hd; cbn [mbind option_bind];
    rewrite IH; done.
Qed.
End roundtrip.
