(* ===== verification/LrpAuth.v ===== *)
(** * The LRP handshake

    [vendor/ntag424/src/commands/authenticate/lrp.rs]: AuthenticateLRPFirst and its
    repetition inside a session, over the suite of [Lrp.v], evaluated on the
    transcript of the application note AN12321 that the tests of the source use.
    [LrpCard] is a card's side of it, after the data sheet (sections 9.2.5 and 9.2.6);
    the theorem runs the two against each other. *)

From S2P Require Import Prelude Str Hex Derivation AesRef Picc NtagTypes FileSettings Channel Session Wire Link Lrp.

Definition PCDCAP2 : list Z := [0x02; 0x00; 0x00; 0x00; 0x00; 0x00].
Definition AUTH_MODE_LRP : Z := 0x01.

Record LrpAuthResult := mkLrpAuthResult {
  la_suite : LrpSuite; la_ti : list Z; la_pd_cap2 : list Z; la_pcd_cap2 : list Z }.

Section handshake.
  Context {C : AesCrypto} {K : CmacCrate} {T TE : Type} {AP : Apdu T TE}.

Abbreviation W := (M T (SessionError (Fault TE))).

Definition build_part2_apdu_lrp (rnd_a pcd_response : list Z) : list Z :=
  [0x90; 0xAF; 0x00; 0x00; 0x20] ++ rnd_a ++ pcd_response ++ [0x00].

(** The first answer: mode byte and challenge. *)
Definition lrp_challenge (r1 : Rapdu) : W (list Z) :=
  let status := rc_status (RC_Desfire (ra_sw1 r1) (ra_sw2 r1)) in
  if decide (status = AdditionalFrame) then
    data1 ← expect_length 17 (ra_data r1);
    if decide (nth 0 data1 0 = AUTH_MODE_LRP) then mret (sub_list 1 17 data1) else fail SE_AuthenticationMismatch
  else fail (SE_ErrorResponse status).

Definition lrp_part2 (n : nat) (suite : LrpSuite) (rnd_a rnd_b : list Z) : W (list Z) :=
  r2 ← wire_transmit (build_part2_apdu_lrp rnd_a (mac_full suite (rnd_a ++ rnd_b)));
  let code := RC_Desfire (ra_sw1 r2) (ra_sw2 r2) in
  if rc_ok code then expect_length n (ra_data r2) else fail (SE_ErrorResponse (rc_status code)).

(** The decryption's result is not looked at: one block is always aligned. *)
Definition verify_and_extract_auth_result (suite : LrpSuite) (rnd_a rnd_b picc_data picc_response : list Z) :
    result LrpAuthResult (SessionError (Fault TE)) :=
  if decide (mac_full suite (rnd_b ++ rnd_a ++ picc_data) = picc_response) then
    let '(dec, suite) := lrp_decrypt suite picc_data in
    let plain := default picc_data dec in
    if decide (sub_list 10 16 plain = PCDCAP2) then
      Ok (mkLrpAuthResult suite (sub_list 0 4 plain) (sub_list 4 10 plain) (sub_list 10 16 plain))
    else Err SE_AuthenticationMismatch
  else Err SE_AuthenticationMismatch.

Definition authenticate_lrp_first (key_no : KeyNumber) (key rnd_a : list Z) : W LrpAuthResult :=
  r1 ← wire_transmit ([0x90; 0x71; 0x00; 0x00; 0x08; as_byte key_no; 0x06] ++ PCDCAP2 ++ [0x00]);
  rnd_b ← lrp_challenge r1;
  let suite := lrp_derive key rnd_a rnd_b in
  data2 ← lrp_part2 32 suite rnd_a rnd_b;
  wire_of (verify_and_extract_auth_result suite rnd_a rnd_b (take 16 data2) (drop 16 data2)).

Definition authenticate_lrp_non_first (key_no : KeyNumber) (key rnd_a : list Z) : W LrpSuite :=
  r1 ← wire_transmit [0x90; 0x77; 0x00; 0x00; 0x01; as_byte key_no; 0x00];
  rnd_b ← lrp_challenge r1;
  let suite := lrp_derive key rnd_a rnd_b in
  picc_response ← lrp_part2 16 suite rnd_a rnd_b;
  if decide (mac_full suite (rnd_b ++ rnd_a) = picc_response) then mret suite
  else fail SE_AuthenticationMismatch.
End handshake.

(** ** AN12321, table 2 (the vectors of the source's tests) *)

Section vectors.
#[local] Existing Instance Aes128.
#[local] Existing Instance ref_cmac.

Definition an12321_rnd_a : list Z := hex16 "74D7DF6A2CEC0B72B412DE0D2B1117E6".
Definition an12321_rnd_b : list Z := hex16 "56109A31977C855319CD4618C9D2AED2".
Definition an12321_suite : LrpSuite := lrp_derive (replicate 16 0) an12321_rnd_a an12321_rnd_b.

Example an12321_pcd_response :
  mac_full an12321_suite (an12321_rnd_a ++ an12321_rnd_b) = hex16 "189B59DCEDC31A3D3F38EF8D4810B3B4".
Proof. vm_compute. reflexivity. Qed.

Example an12321_result :
  match verify_and_extract_auth_result (TE := unit) an12321_suite an12321_rnd_a an12321_rnd_b
          (hex16 "F4FC209D9D60623588B299FA5D6B2D71") (hex16 "0125F8547D9FB8D572C90D2C2A14E235") with
  | Ok a => la_ti a = [0x58; 0xEE; 0x94; 0x24] ∧ la_pd_cap2 a = PCDCAP2 ∧ la_pcd_cap2 a = PCDCAP2 ∧
      ls_enc_ctr (la_suite a) = 1
  | Err _ => False
  end.
Proof. vm_compute. done. Qed.
End vectors.

(** ** A card's side *)

Record LrpCard := mkLrpCard {
  lc_key : list Z;
  lc_rnd_b : list Z;
  lc_ti : list Z;
  lc_pd_cap2 : list Z;
  lc_pending : option (option (list Z));
  lc_session : option (LrpSuite * list Z) }.

(** A pending challenge carries the capabilities of AuthenticateLRPFirst, [None] for
    a repetition. *)
Definition with_pending (p : option (option (list Z))) (c : LrpCard) : LrpCard :=
  mkLrpCard (lc_key c) (lc_rnd_b c) (lc_ti c) (lc_pd_cap2 c) p (lc_session c).
Definition with_lrp_session (s : option (LrpSuite * list Z)) (c : LrpCard) : LrpCard :=
  mkLrpCard (lc_key c) (lc_rnd_b c) (lc_ti c) (lc_pd_cap2 c) None s.
Definition with_challenge (rnd_b : list Z) (c : LrpCard) : LrpCard :=
  mkLrpCard (lc_key c) rnd_b (lc_ti c) (lc_pd_cap2 c) (lc_pending c) (lc_session c).

Section card.
  Context {C : AesCrypto} {K : CmacCrate}.

Definition lrp_issue (p : option (list Z)) (c : LrpCard) : Rapdu * LrpCard :=
  (mkRapdu (AUTH_MODE_LRP :: lc_rnd_b c) 0x91 0xAF, with_pending (Some p) c).

(** Part 2.  The transaction identifier is chosen in the first authentication. *)
Definition lrp_answer (rnd_a response : list Z) (c : LrpCard) : Rapdu * LrpCard :=
  let rnd_b := lc_rnd_b c in
  let suite := lrp_derive (lc_key c) rnd_a rnd_b in
  if decide (response = mac_full suite (rnd_a ++ rnd_b)) then
    match lc_pending c, lc_session c with
    | Some (Some caps), _ =>
        match lrp_encrypt suite (lc_ti c ++ lc_pd_cap2 c ++ caps) with
        | (Some picc, suite) =>
            (mkRapdu (picc ++ mac_full suite (rnd_b ++ rnd_a ++ picc)) 0x91 0x00,
             with_lrp_session (Some (suite, lc_ti c)) c)
        | (None, _) => (mkRapdu [] 0x91 0xAE, with_lrp_session None c)
        end
    | Some None, Some (_, ti) =>
        (mkRapdu (mac_full suite (rnd_b ++ rnd_a)) 0x91 0x00, with_lrp_session (Some (suite, ti)) c)
    | _, _ => (mkRapdu [] 0x91 0xAE, with_lrp_session None c)
    end
  else (mkRapdu [] 0x91 0xAE, with_lrp_session None c).

Definition lrp_handle (c : LrpCard) (apdu : list Z) : Rapdu * LrpCard :=
  match apdu with
  | 0x90 :: 0x71 :: _ :: _ :: 0x08 :: _ :: 0x06 :: caps => lrp_issue (Some (take 6 caps)) c
  | 0x90 :: 0x77 :: _ =>
      match lc_session c with Some _ => lrp_issue None c | None => (mkRapdu [] 0x91 0xAE, c) end
  | 0x90 :: 0xAF :: _ :: _ :: 0x20 :: body => lrp_answer (take 16 body) (sub_list 16 32 body) c
  | _ => (mkRapdu [] 0x91 0x1C, c)
  end.

#[export] Instance lrp_card_apdu : Apdu LrpCard () :=
  { apdu_transmit apdu := λ c, let '(r, c) := lrp_handle c apdu in (Ok r, c);
    apdu_get_uid := fail (Fault_Error tt) }.
End card.

(** ** The crate behind CMAC returns a block *)

Class CmacLaws (K : CmacCrate) : Prop :=
  cmac_over_array E m : (∀ b, array 16 (E b)) → array 16 (cmac_over E m).

#[local] Instance ref_cmac_laws : CmacLaws ref_cmac.
Proof.
  intros E m HE. unfold ref_cmac, block_cmac.
  assert (∀ fuel k1 k2 x m, (length m < fuel)%nat → array 16 (cbc_mac fuel E k1 k2 x m)) as G; [|apply G; lia].
  clear m. induction fuel as [|fuel IH]; intros k1 k2 x m Hm; [lia|]. simpl. case_decide; [by case_decide|].
  apply IH. rewrite length_drop. lia.
Qed.

Section agreement.
  Context {C : AesCrypto} `{!AesLaws C} {K : CmacCrate} `{!CmacLaws K}.

Abbreviation Wc := (M LrpCard (SessionError (Fault ()))).

Lemma lrp_block_array l b : array 16 (lrp_encrypt_block l b).
Proof. apply aes_block_array. split; [done|]. by apply Forall_replicate. Qed.

Lemma mac_full_array s m : array 16 (mac_full s m).
Proof. apply cmac_over_array, lrp_block_array. Qed.

Lemma mac_full_length s m : length (mac_full s m) = 16%nat.
Proof. apply mac_full_array. Qed.

Lemma runs_card apdu c r c' : lrp_handle c apdu = (r, c') → runs (wire_transmit apdu : Wc _) c r c'.
Proof. unfold runs, wire_transmit, lift_err. simpl. by intros ->. Qed.

Lemma runs_expect n data (c : LrpCard) : length data = n → runs (expect_length n data : Wc _) c data c.
Proof. intros <-. unfold expect_length. by rewrite decide_True. Qed.

Lemma runs_challenge rnd_b (c : LrpCard) : length rnd_b = 16%nat →
  runs (lrp_challenge (mkRapdu (AUTH_MODE_LRP :: rnd_b) 0x91 0xAF) : Wc _) c rnd_b c.
Proof.
  intros Hl. eapply runs_bind; [apply runs_expect; simpl; lia|]. simpl.
  rewrite <-(app_nil_r rnd_b) at 2. unfold sub_list. simpl. rewrite <-Hl, firstn_all. by rewrite app_nil_r.
Qed.

(** Part 2 reaches the card as it was built. *)
Lemma card_part2 c rnd_a response : length rnd_a = 16%nat → length response = 16%nat →
  lrp_handle c (build_part2_apdu_lrp rnd_a response) = lrp_answer rnd_a response c.
Proof.
  intros Ha Hr. unfold lrp_handle, build_part2_apdu_lrp. cbn [app].
  rewrite take_app_exact by done. by rewrite sub_list_mid by lia.
Qed.

Lemma runs_part2 n c key rnd_a rnd_b out c' : length rnd_a = 16%nat →
  lrp_answer rnd_a (mac_full (lrp_derive key rnd_a rnd_b) (rnd_a ++ rnd_b)) c = (mkRapdu out 0x91 0x00, c') →
  length out = n → runs (lrp_part2 n (lrp_derive key rnd_a rnd_b) rnd_a rnd_b : Wc _) c out c'.
Proof.
  intros Ha Hc Ho. eapply runs_bind; [by apply runs_card; rewrite card_part2 by (done || apply mac_full_length)|].
  simpl. by apply runs_expect.
Qed.

Lemma piccdata_array c caps : array 4 (lc_ti c) → array 6 (lc_pd_cap2 c) → array 6 caps →
  array 16 (lc_ti c ++ lc_pd_cap2 c ++ caps).
Proof. intros. apply (array_app 4 12); [done|]. by apply (array_app 6 6). Qed.

Lemma pcdcap2_array : array 6 PCDCAP2.
Proof. apply (bool_decide_unpack _). vm_compute. exact I. Qed.

(** What the card sealed is opened to its three fields. *)
Lemma extract_agrees key rnd_a rnd_b ti caps :
  array 4 ti → array 6 caps → ∃ picc,
  let s := lrp_derive key rnd_a rnd_b in
  lrp_encrypt s (ti ++ caps ++ PCDCAP2) = (Some picc, with_enc_ctr s 1) ∧ length picc = 16%nat ∧
  verify_and_extract_auth_result (TE := ()) s rnd_a rnd_b picc (mac_full s (rnd_b ++ rnd_a ++ picc)) =
  Ok (mkLrpAuthResult (with_enc_ctr s 1) ti caps PCDCAP2).
Proof.
  intros Ht Hc. set (s := lrp_derive _ _ _).
  destruct (lrp_suite_roundtrip s 0 (ti ++ caps ++ PCDCAP2)) as (picc & He & Hd & [Hl _]).
  { unfold is_u32. simpl. lia. }
  { apply (array_app 4 12); [done|]. apply (array_app 6 6); [done|apply pcdcap2_array]. }
  exists picc. split; [exact He|]. split; [exact Hl|].
  unfold verify_and_extract_auth_result. rewrite decide_True by done. rewrite Hd. cbv beta iota zeta delta [from_option id].
  destruct Ht as [Ht _], Hc as [Hc _].
  assert (sub_list 10 16 (ti ++ caps ++ PCDCAP2) = PCDCAP2) as ->.
  { rewrite (assoc_L (++)), <-(app_nil_r PCDCAP2). apply sub_list_mid; rewrite length_app; simpl; lia. }
  assert (sub_list 4 10 (ti ++ caps ++ PCDCAP2) = caps) as -> by (apply sub_list_mid; lia).
  assert (sub_list 0 4 (ti ++ caps ++ PCDCAP2) = ti) as -> by (apply (sub_list_mid []); simpl; lia).
  by rewrite decide_True.
Qed.

Lemma lrp_first_agrees c n rnd_a : array 16 rnd_a → array 16 (lc_rnd_b c) → array 4 (lc_ti c) → array 6 (lc_pd_cap2 c) →
  let s := with_enc_ctr (lrp_derive (lc_key c) rnd_a (lc_rnd_b c)) 1 in
  runs (authenticate_lrp_first n (lc_key c) rnd_a : Wc _) c
    (mkLrpAuthResult s (lc_ti c) (lc_pd_cap2 c) PCDCAP2) (with_lrp_session (Some (s, lc_ti c)) c).
Proof.
  intros [Ha _] [Hb _] Ht Hp s. unfold authenticate_lrp_first.
  destruct (extract_agrees (lc_key c) rnd_a (lc_rnd_b c) (lc_ti c) (lc_pd_cap2 c) Ht Hp) as (picc & He & Hl & Hx).
  eapply runs_bind; [by apply runs_card|]. eapply runs_bind; [by apply runs_challenge|].
  eapply runs_bind.
  { eapply runs_part2; [done| |]. { unfold lrp_answer. cbn [lc_key lc_rnd_b lc_pending lc_ti lc_pd_cap2 with_pending].
      rewrite decide_True by done. cbn [PCDCAP2 take app]. fold PCDCAP2. rewrite He. reflexivity. }
    rewrite length_app, Hl, mac_full_length. done. }
  unfold wire_of. rewrite take_app_exact, drop_app_exact by done. unfold runs.
  change (mac_full (with_enc_ctr ?x 1)) with (mac_full x). by rewrite Hx.
Qed.

Lemma lrp_non_first_agrees c n rnd_a s ti : array 16 rnd_a → array 16 (lc_rnd_b c) → lc_session c = Some (s, ti) →
  let s' := lrp_derive (lc_key c) rnd_a (lc_rnd_b c) in
  runs (authenticate_lrp_non_first n (lc_key c) rnd_a : Wc _) c s' (with_lrp_session (Some (s', ti)) c).
Proof.
  intros [Ha _] [Hb _] Hs s'. unfold authenticate_lrp_non_first.
  eapply runs_bind. { apply runs_card. simpl. rewrite Hs. reflexivity. } eapply runs_bind; [by apply runs_challenge|].
  eapply runs_bind.
  { eapply runs_part2; [done| |]. { unfold lrp_answer. cbn [lc_key lc_rnd_b lc_pending lc_session with_pending].
      rewrite decide_True, Hs by done. reflexivity. }
    apply mac_full_length. }
  by rewrite decide_True.
Qed.

Lemma lrp_wrong_key c n key rnd_a : array 16 rnd_a → array 16 (lc_rnd_b c) →
  let mac k := mac_full (lrp_derive k rnd_a (lc_rnd_b c)) (rnd_a ++ lc_rnd_b c) in
  mac key ≠ mac (lc_key c) →
  (authenticate_lrp_first n key rnd_a : Wc _) c = (Err (SE_ErrorResponse AuthenticationError), with_lrp_session None c).
Proof.
  intros [Ha _] [Hb _] mac Hne. unfold authenticate_lrp_first.
  set (p1 := [0x90; 0x71; 0x00; 0x00; 0x08; as_byte n; 0x06] ++ PCDCAP2 ++ [0x00]).
  assert (runs (wire_transmit p1 : Wc _) c (mkRapdu (AUTH_MODE_LRP :: lc_rnd_b c) 0x91 0xAF) (with_pending (Some (Some PCDCAP2)) c)) as H1
    by (by apply runs_card).
  unfold mbind, M_bind. rewrite H1, (runs_challenge (lc_rnd_b c)) by done.
  unfold lrp_part2, mbind, M_bind.
  erewrite (runs_card _ _ (mkRapdu [] 0x91 0xAE) (with_lrp_session None c)); [done|].
  rewrite card_part2 by (done || apply mac_full_length). unfold lrp_answer. by rewrite decide_False.
Qed.

(** C33. The LRP handshake, against a card that follows the data sheet. With the
    card's key AuthenticateLRPFirst succeeds, reader and card hold the same suite, its
    counter at 1 because one block has been used, and the same transaction
    identifier; from then on any conversation of block-aligned messages, whoever
    speaks, is received as it was sent and leaves both suites equal, their counter
    being the number of blocks (it wraps at 2^32 without losing step).  A second
    authentication on fresh challenges replaces the suite at both ends and keeps the
    identifier.  With a key whose MAC differs the card
    refuses and no session is open. *)
Theorem lrp_handshake_agrees (c : LrpCard) (n : KeyNumber) (rnd_a : list Z) :
  array 16 rnd_a → array 16 (lc_rnd_b c) → array 4 (lc_ti c) → array 6 (lc_pd_cap2 c) →
  let s := with_enc_ctr (lrp_derive (lc_key c) rnd_a (lc_rnd_b c)) 1 in
  let c1 := with_lrp_session (Some (s, lc_ti c)) c in
  runs (authenticate_lrp_first n (lc_key c) rnd_a : Wc _) c (mkLrpAuthResult s (lc_ti c) (lc_pd_cap2 c) PCDCAP2) c1 ∧
  (∀ msgs, Forall (λ m, bytes m.2 ∧ block_aligned m.2) msgs →
    let s' := with_enc_ctr s (u32 (1 + foldr Z.add 0 (blocks ∘ snd <$> msgs))) in
    converse s s msgs = Some (msgs.*2, s', s')) ∧
  (∀ n' rnd_a' rnd_b', array 16 rnd_a' → array 16 rnd_b' →
    let s' := lrp_derive (lc_key c) rnd_a' rnd_b' in
    let c2 := with_challenge rnd_b' c1 in
    runs (authenticate_lrp_non_first n' (lc_key c) rnd_a' : Wc _) c2 s' (with_lrp_session (Some (s', lc_ti c)) c2)) ∧
  (∀ key, mac_full (lrp_derive key rnd_a (lc_rnd_b c)) (rnd_a ++ lc_rnd_b c) ≠
          mac_full (lrp_derive (lc_key c) rnd_a (lc_rnd_b c)) (rnd_a ++ lc_rnd_b c) →
    (authenticate_lrp_first n key rnd_a : Wc _) c = (Err (SE_ErrorResponse AuthenticationError), with_lrp_session None c)).
Proof.
  intros Ha Hb Ht Hp s c1. split; [by apply lrp_first_agrees|]. split; [|split].
  - intros msgs Hm. by apply (lrp_suites_in_step s).
  - intros n' rnd_a' rnd_b' Ha' Hb' s' c2. by apply (lrp_non_first_agrees c2 n' rnd_a' s (lc_ti c)).
  - intros key Hne. by apply lrp_wrong_key.
Qed.
End agreement.

(** Over any transport: a session comes only from two exchanges, of which the second
    answer carries the MAC of both challenges under the keys they derive, around an
    encrypted block that ends in the capabilities the reader sent. *)
Lemma lrp_first_proves_key {C : AesCrypto} {K : CmacCrate} {T TE : Type} {AP : Apdu T TE} n key rnd_a (t t' : T) a :
  (authenticate_lrp_first (TE := TE) n key rnd_a : M T _ _) t = (Ok a, t') →
  ∃ r1 t1 r2, let rnd_b := sub_list 1 17 (ra_data r1) in let s := lrp_derive key rnd_a rnd_b in
    apdu_transmit ([0x90; 0x71; 0x00; 0x00; 0x08; as_byte n; 0x06] ++ PCDCAP2 ++ [0x00]) t = (Ok r1, t1) ∧
    apdu_transmit (build_part2_apdu_lrp rnd_a (mac_full s (rnd_a ++ rnd_b))) t1 = (Ok r2, t') ∧
    ra_sw1 r2 = 0x91 ∧ ra_sw2 r2 = 0x00 ∧ length (ra_data r2) = 32%nat ∧
    drop 16 (ra_data r2) = mac_full s (rnd_b ++ rnd_a ++ take 16 (ra_data r2)) ∧
    la_suite a = (lrp_decrypt s (take 16 (ra_data r2))).2 ∧ la_pcd_cap2 a = PCDCAP2.
Proof.
  unfold authenticate_lrp_first, lrp_challenge, lrp_part2, wire_transmit, lift_err, mbind, M_bind, mret, M_ret,
    expect_length, wire_of, verify_and_extract_auth_result. intros H.
  repeat (case_match; simplify_eq/=; try done).
  unfold mret, M_ret in *. simplify_eq/=.
  repeat match goal with H : map_err _ ?r = Ok _ |- _ => destruct r; [simplify_eq/=|done] end.
  match goal with H : bool_decide _ = true |- _ => apply bool_decide_eq_true in H as [??] end.
  do 3 eexists. split_and!; try eassumption; try done. by match goal with H : lrp_decrypt _ _ = _ |- _ => rewrite H end.
Qed.

(** A cipher that depends on its key, for the witness. *)
Definition key_pad (k : list Z) : list Z := take 16 ((u8 <$> k) ++ replicate 16 0).
#[local] Instance xor_crypto : AesCrypto :=
  {| aes_cmac _ m := toy_mac m; aes_cbc_dec k b := xor_bytes b (key_pad k); aes_cbc_enc k b := xor_bytes b (key_pad k) |}.

Lemma key_pad_array k : array 16 (key_pad k).
Proof.
  unfold key_pad. split; [rewrite length_take, length_app, length_replicate; lia|].
  apply bytes_take, bytes_app; [|auto with bolty]. apply Forall_fmap, Forall_true. intros. apply u8_is_u8.
Qed.

#[local] Instance xor_laws : AesLaws xor_crypto.
Proof.
  constructor; simpl; intros; [apply toy_mac_array|by apply array_xor; [|apply key_pad_array]| |by apply toy_mac_short_inj].
  apply xor_bytes_cancel. destruct (key_pad_array k) as [-> _]. by destruct H as [-> _].
Qed.

Lemma lrp_handshake_agrees_witness :
  let c := mkLrpCard (replicate 16 1) (replicate 16 2) [1; 2; 3; 4] (replicate 6 5) None None in
  let s := with_enc_ctr (lrp_derive (C := xor_crypto) (K := ref_cmac) (replicate 16 1) (replicate 16 3) (replicate 16 2)) 1 in
  runs (authenticate_lrp_first (C := xor_crypto) (K := ref_cmac) (AP := lrp_card_apdu (C := xor_crypto) (K := ref_cmac))
          Key0 (replicate 16 1) (replicate 16 3)) c
    (mkLrpAuthResult s [1; 2; 3; 4] (replicate 6 5) PCDCAP2) (with_lrp_session (Some (s, [1; 2; 3; 4])) c) ∧
  converse (C := xor_crypto) s s [(true, replicate 32 7); (false, replicate 16 8)] =
    Some ([replicate 32 7; replicate 16 8], with_enc_ctr s 4, with_enc_ctr s 4) ∧
  authenticate_lrp_first (C := xor_crypto) (K := ref_cmac) (AP := lrp_card_apdu (C := xor_crypto) (K := ref_cmac))
    Key0 (replicate 16 9) (replicate 16 3) c = (Err (SE_ErrorResponse AuthenticationError), with_lrp_session None c).
Proof.
  intros c s.
  destruct (@lrp_handshake_agrees xor_crypto xor_laws ref_cmac ref_cmac_laws c Key0 (replicate 16 3)) as (H1 & H2 & _ & H3);
    [apply (bool_decide_unpack _); vm_compute; exact I..|].
  split; [exact H1|]. split.
  { apply (H2 [(true, replicate 32 7); (false, replicate 16 8)]).
    repeat constructor; apply (bool_decide_unpack _); vm_compute; exact I. }
  apply (H3 (replicate 16 9)). intros E. vm_compute in E. discriminate E.
Defined.
