(* ===== verification/SdmVerify.v ===== *)
(** * The SDM verifier of the protocol crate

    [vendor/ntag424/src/crypto/sdm]: hex decoding at file offsets ([hex.rs]), the
    identity block ([picc.rs]), the session keys of a read ([keys.rs]) and the
    verifier ([verifier.rs]), in AES and in LRP mode.  [safe_inspect] of
    [crates/bolty-ntag/src/lib.rs] and the diagnosis of the command line run it on
    what they read from a card; [inspect_verify] is that call.

    A slice out of bounds or an underflow is the outcome [Fault_Panic]; offsets are
    [u32], indices the mathematical integers (the validated offsets stay below
    [2 ^ 24]). *)

From S2P Require Import Prelude Str Hex Derivation Picc AesRef NtagTypes FileSettings Channel Lrp.

(** ** Types *)

Inductive SdmError :=
| MacMismatch
| NdefTooShort (needed have : Z)
| InvalidHex (offset : Z)
| InvalidPiccDataTag (tag : Z)
| InvalidConfiguration (why : list Z).

Notation V A := (result A (Fault SdmError)).
Definition sdm_err {A} (e : SdmError) : V A := Err (Fault_Error e).
Definition panic {A} : V A := Err Fault_Panic.

(** [types/tt_status.rs] *)
Inductive TagTamperStatus := TT_Close | TT_Open | TT_Invalid | TT_Unknown (b : Z).

Definition tamper_of (value : Z) : TagTamperStatus :=
  if decide (value = 0x43) then TT_Close else if decide (value = 0x4F) then TT_Open
  else if decide (value = 0x49) then TT_Invalid else TT_Unknown value.

Record TagTamperStatusReadout := mkReadout { tt_permanent : TagTamperStatus; tt_current : TagTamperStatus }.

Definition readout_new (permanent current : Z) : TagTamperStatusReadout :=
  mkReadout (tamper_of permanent) (tamper_of current).

Definition is_tampered (r : TagTamperStatusReadout) : bool :=
  match tt_permanent r, tt_current r with TT_Open, _ | _, TT_Open => true | _, _ => false end.

Record SdmVerification := mkSdmVerification {
  sv_uid : option (list Z);
  sv_read_ctr : option Z;
  sv_tamper_status : option TagTamperStatusReadout;
  sv_enc_file_data : option (list Z) }.

Inductive PiccSource :=
| PS_Encrypted (offset : Z)
| PS_Plain (uid_offset read_ctr_offset : option Z)
| PS_None.

Record Verifier := mkVerifier {
  v_mode : CryptoMode;
  v_picc_source : PiccSource;
  v_meta_read_key : option KeyNumber;
  v_file_read_key : KeyNumber;
  v_mac_input_offset : Z;
  v_mac_offset : Z;
  v_tamper_status_offset : option Z;
  v_enc_data : option (Z * Z) }.

(** ** hex.rs *)

Definition byte_at (data : list Z) (i : Z) : V Z :=
  match data !! Z.to_nat i with Some b => if decide (0 ≤ i) then Ok b else panic | None => panic end.

Definition sdm_hex_nibble (b offset : Z) : V Z :=
  if decide (48 ≤ b ≤ 57) then Ok (b - 48)
  else if decide (65 ≤ b ≤ 70) then Ok (b - 65 + 10)
  else if decide (97 ≤ b ≤ 102) then Ok (b - 97 + 10)
  else sdm_err (InvalidHex offset).

(** The loop over the [n] bytes still to be decoded, the next digits at [at]. *)
Fixpoint decode_hex_at (n : nat) (data : list Z) (at_ : Z) : V (list Z) :=
  match n with
  | O => Ok []
  | S n =>
      c0 ←? byte_at data at_; hi ←? sdm_hex_nibble c0 at_;
      c1 ←? byte_at data (at_ + 1); lo ←? sdm_hex_nibble c1 (at_ + 1);
      rest ←? decode_hex_at n data (at_ + 2);
      Ok (Z.lor (u8 (Z.shiftl hi 4)) lo :: rest)
  end.

#[global] Arguments decode_hex_at : simpl never.

Definition decode_hex_array (n : nat) (data : list Z) (offset : Z) : V (list Z) := decode_hex_at n data offset.

(** The callers drop the buffer when it fails. *)
Definition sdm_decode_hex_into (out data : list Z) (offset : Z) : V (list Z) := decode_hex_at (length out) data offset.

Definition ensure_len (data : list Z) (needed : Z) : V () :=
  if decide (Z.of_nat (length data) < needed) then sdm_err (NdefTooShort needed (Z.of_nat (length data))) else Ok tt.

(** ** picc.rs *)

Definition parse_picc_data_tag (plain : list Z) : V (option (list Z) * option (list Z)) :=
  let tag := nth 0 plain 0 in
  let uid_present := negb (bool_decide (Z.land tag 0x80 = 0)) in
  let ctr_present := negb (bool_decide (Z.land tag 0x40 = 0)) in
  let uid_len := Z.land tag 0x0F in
  if uid_present && negb (bool_decide (uid_len = 7)) then sdm_err (InvalidPiccDataTag tag) else
  let off := (if uid_present then 8 else 1)%nat in
  Ok (if uid_present then Some (sub_list 1 8 plain) else None,
      if ctr_present then Some (sub_list off (off + 3) plain) else None).

(** ** keys.rs *)

Inductive SdmKeys :=
| SdmKeys_Aes (enc_key mac_key : list Z)
| SdmKeys_Lrp (enc mac : Lrp).

Definition opt_bytes (o : option (list Z)) : list Z := default [] o.

Section verifier.
  Context {C : AesCrypto} {K : CmacCrate}.

Definition decrypt_picc_data_aes (key enc : list Z) : V (option (list Z) * option (list Z)) :=
  parse_picc_data_tag (aes_cbc_decrypt_n key zero_iv enc).

Definition decrypt_picc_data_lrp (key wire : list Z) : V (option (list Z) * option (list Z)) :=
  match lricb_decrypt_in_place (from_base_key key) (take 8 wire) (sub_list 8 24 wire) with
  | Some (_, plain) => parse_picc_data_tag plain
  | None => sdm_err (InvalidConfiguration (lit "PICCData LRICB decryption failed"))
  end.

Definition sdm_sv_aes (label : list Z) (uid ctr : option (list Z)) : list Z :=
  let ids := opt_bytes uid ++ opt_bytes ctr in
  label ++ [0x00; 0x01; 0x00; 0x80] ++ ids ++ replicate (10 - length ids) 0.

Definition derive_sdm_keys_aes (sdm_file_read_key : list Z) (uid ctr : option (list Z)) : SdmKeys :=
  SdmKeys_Aes (aes_cmac sdm_file_read_key (sdm_sv_aes [0xC3; 0x3C] uid ctr))
              (aes_cmac sdm_file_read_key (sdm_sv_aes [0x3C; 0xC3] uid ctr)).

Definition sdm_sv_lrp (uid ctr : option (list Z)) : list Z :=
  let ids := opt_bytes uid ++ opt_bytes ctr in
  [0x00; 0x01; 0x00; 0x80] ++ ids ++ replicate (10 - length ids) 0 ++ [0x1E; 0xE1].

Definition derive_sdm_keys_lrp (sdm_file_read_key : list Z) (uid ctr : option (list Z)) : SdmKeys :=
  let master := cmac_lrp (from_base_key sdm_file_read_key) (sdm_sv_lrp uid ctr) in
  let plaintexts := generate_plaintexts master in
  let uk := generate_updated_keys 2 master in
  SdmKeys_Lrp (from_parts plaintexts (nth 1 uk [])) (from_parts plaintexts (nth 0 uk [])).

Definition session_mac (keys : SdmKeys) (data : list Z) : list Z :=
  match keys with
  | SdmKeys_Aes _ mac_key => truncate_mac (aes_cmac mac_key data)
  | SdmKeys_Lrp _ mac => truncate_mac (cmac_lrp mac data)
  end.

Definition verify_mac (keys : SdmKeys) (data expected : list Z) : bool :=
  bool_decide (session_mac keys data = expected).

Definition aes_ecb_encrypt_block (key input : list Z) : list Z := aes_block key input.

(** ** verifier.rs *)

Definition MAX_SDM_ENC_FILE_DATA_BYTES : nat := 256.

Definition plain_uid_offset (m : PlainMirror) : option Z :=
  match m with PlainMirror_Uid uid | PlainMirror_Both uid _ => Some uid | PlainMirror_RCtr _ => None end.

Definition plain_rctr_offset (m : PlainMirror) : option Z :=
  match m with PlainMirror_RCtr c | PlainMirror_Both _ c => Some (rcm_offset c) | PlainMirror_Uid _ => None end.

Definition verifier_try_new (settings : Sdm) (mode : CryptoMode) : result Verifier SdmError :=
  file_read ←? ok_or (sdm_file_read settings)
    (InvalidConfiguration (lit "SDM read access is missing - no MAC key configured"));
  let '(picc_source, meta_read_key) :=
    match sdm_picc_data settings with
    | PiccData_Encrypted key offset _ => (PS_Encrypted offset, Some key)
    | PiccData_Plain plain => (PS_Plain (plain_uid_offset plain) (plain_rctr_offset plain), None)
    | PiccData_None => (PS_None, None)
    end in
  Ok (mkVerifier mode picc_source meta_read_key (file_read_key file_read)
        (mw_input (window file_read)) (mw_mac (window file_read)) (sdm_tamper_status settings)
        ((λ e, (efd_start e, efd_start e + efd_length e)) <$> file_read_enc file_read)).

Definition v_mac_range (v : Verifier) : Z * Z := (v_mac_input_offset v, v_mac_offset v).

Definition free_features : ReadCtrFeatures := mkReadCtrFeatures None CtrRet_Free.

(** [Option::map(Offset::new).transpose()]. *)
Definition opt_offset (o : option Z) : result (option Z) FileSettingsError :=
  match o with Some v => v ←? Offset_new v; Ok (Some v) | None => Ok None end.

Definition validate_picc (v : Verifier) : result PiccData FileSettingsError :=
  match v_picc_source v with
  | PS_Encrypted offset =>
      o ←? Offset_new offset; key ←? ok_or (v_meta_read_key v) InvalidSdmFlags;
      Ok (PiccData_Encrypted key o (EncContent_Both free_features))
  | PS_Plain (Some off) None => o ←? Offset_new off; Ok (PiccData_Plain (PlainMirror_Uid o))
  | PS_Plain None (Some off) =>
      o ←? Offset_new off; Ok (PiccData_Plain (PlainMirror_RCtr (mkReadCtrMirror o free_features)))
  | PS_Plain (Some uid_off) (Some rctr_off) =>
      u ←? Offset_new uid_off; r ←? Offset_new rctr_off;
      Ok (PiccData_Plain (PlainMirror_Both u (mkReadCtrMirror r free_features)))
  | PS_Plain None None => Ok PiccData_None
  | PS_None => Ok PiccData_None
  end.

Definition validate_file_read (v : Verifier) (w : MacWindow) : result FileRead FileSettingsError :=
  match v_enc_data v with
  | Some (start, end_) =>
      s ←? Offset_new start;
      n ←? (if decide (end_ < start) then Err (EncLengthInvalid 0) else Ok (end_ - start));
      len ←? EncLength_new n;
      Ok (FileRead_MacAndEnc (v_file_read_key v) w (mkEncFileData s len))
  | None => Ok (FileRead_MacOnly (v_file_read_key v) w)
  end.

Definition is_encrypted (s : PiccSource) : bool := match s with PS_Encrypted _ => true | _ => false end.

Definition validate (v : Verifier) : result () FileSettingsError :=
  if negb (is_encrypted (v_picc_source v)) && bool_decide (is_Some (v_meta_read_key v)) then Err InvalidSdmFlags else
  picc_data ←? validate_picc v;
  input ←? Offset_new (v_mac_input_offset v);
  mac ←? Offset_new (v_mac_offset v);
  file_read ←? validate_file_read v (mkMacWindow input mac);
  tamper ←? opt_offset (v_tamper_status_offset v);
  _ ←? Sdm_try_new picc_data (Some file_read) tamper (v_mode v);
  Ok tt.

(** [add] of [with_offset]: checked, then limited to an NDEF file. *)
Definition offset_add (a b : Z) : option Z :=
  r ← (if decide (b < 0) then
         if decide (b = - 2 ^ 31 ∨ a < - b) then None else Some (a + b)
       else if decide (2 ^ 32 ≤ a + b) then None else Some (a + b));
  if decide (r ≤ 255) then Some r else None.

(** A present offset moves; [None] outside when the sum is out of range. *)
Definition offset_add_opt (a : option Z) (b : Z) : option (option Z) :=
  match a with Some a => Some <$> offset_add a b | None => Some None end.

Definition with_offset (v : Verifier) (inc : Z) : option Verifier :=
  src ← match v_picc_source v with
        | PS_Encrypted o => PS_Encrypted <$> offset_add o inc
        | PS_Plain u r => u ← offset_add_opt u inc; r ← offset_add_opt r inc; Some (PS_Plain u r)
        | PS_None => Some PS_None
        end;
  mi ← offset_add (v_mac_input_offset v) inc;
  tt ← offset_add_opt (v_tamper_status_offset v) inc;
  mo ← offset_add (v_mac_offset v) inc;
  enc ← match v_enc_data v with
        | Some (s, e) => s ← offset_add s inc; e ← offset_add e inc; Some (Some (s, e))
        | None => Some None
        end;
  Some (mkVerifier (v_mode v) src (v_meta_read_key v) (v_file_read_key v) mi mo tt enc).

Definition U32_MAX : Z := 2 ^ 32 - 1.

Definition v_start (v : Verifier) : Z :=
  let picc_offset :=
    match v_picc_source v with
    | PS_Encrypted offset => offset
    | PS_Plain u r => Z.min (default U32_MAX u) (default U32_MAX r)
    | PS_None => U32_MAX
    end in
  Z.min (Z.min (Z.min (Z.min picc_offset (v_mac_input_offset v)) (v_mac_offset v))
    (default U32_MAX (v_tamper_status_offset v))) (default U32_MAX (fst <$> v_enc_data v)).

(** A plain mirror, when configured: length check, then the digits. *)
Definition plain_mirror (n : nat) (data : list Z) (off : option Z) : V (option (list Z)) :=
  match off with
  | Some off => _ ←? ensure_len data (off + 2 * Z.of_nat n); b ←? decode_hex_array n data off; Ok (Some b)
  | None => Ok None
  end.

Definition extract_picc_data (v : Verifier) (data meta_key : list Z) : V (option (list Z) * option (list Z)) :=
  match v_picc_source v with
  | PS_Encrypted offset =>
      _ ←? ensure_len data (offset + picc_blob_ascii_len (v_mode v));
      match v_mode v with
      | Aes => enc ←? decode_hex_array 16 data offset; decrypt_picc_data_aes meta_key enc
      | NtagTypes.Lrp => wire ←? decode_hex_array 24 data offset; decrypt_picc_data_lrp meta_key wire
      end
  | PS_Plain uid_offset read_ctr_offset =>
      uid ←? plain_mirror 7 data uid_offset;
      ctr ←? plain_mirror 3 data read_ctr_offset;
      Ok (uid, reverse <$> ctr)
  | PS_None => Ok (None, None)
  end.

(** [u32::from_le_bytes] of the three bytes and a zero. *)
Definition ctr_value (c : list Z) : Z := le_val (take 3 c).

Definition decrypt_picc_data (v : Verifier) (meta_key data : list Z) : V (option (list Z) * option Z) :=
  picc ←? extract_picc_data v data meta_key;
  Ok (picc.1, ctr_value <$> picc.2).

Definition decrypt_enc_file_data (v : Verifier) (data : list Z) (keys : SdmKeys) (read_ctr : option (list Z)) :
    V (option (list Z)) :=
  match v_enc_data v with
  | None => Ok None
  | Some (start, end_) =>
      if decide (end_ < start) then panic else
      let ascii_len := end_ - start in
      _ ←? ensure_len data (start + ascii_len);
      let binary_len := Z.to_nat (ascii_len / 2) in
      if decide (MAX_SDM_ENC_FILE_DATA_BYTES < binary_len)%nat then
        sdm_err (InvalidConfiguration (lit "enc_data decrypted length exceeds verifier buffer limit"))
      else
      ct ←? sdm_decode_hex_into (replicate binary_len 0) data start;
      let ctr := default [0; 0; 0] read_ctr in
      match keys with
      | SdmKeys_Aes enc_key _ =>
          let iv := aes_ecb_encrypt_block enc_key (ctr ++ replicate 13 0) in
          match aes_cbc_decrypt enc_key iv ct with
          | Some plain => Ok (Some plain)
          | None => sdm_err (InvalidConfiguration (lit "AES decryption failed: cipher buffer is not block-aligned"))
          end
      | SdmKeys_Lrp enc _ =>
          match lricb_decrypt_in_place enc (ctr ++ [0; 0; 0]) ct with
          | Some (_, plain) => Ok (Some plain)
          | None => sdm_err (InvalidConfiguration (lit "LRICB decryption failed: invalid buffer length"))
          end
      end
  end.

Definition tamper_in_enc (v : Verifier) (offset : Z) : option Z :=
  match v_enc_data v with
  | Some (start, end_) => if decide (start ≤ offset ∧ offset < end_) then Some (offset - start) else None
  | None => None
  end.

Definition extract_tamper_status (v : Verifier) (data : list Z) (enc_file_data : option (list Z)) :
    V (option TagTamperStatusReadout) :=
  match v_tamper_status_offset v with
  | None => Ok None
  | Some offset =>
      match tamper_in_enc v offset with
      | Some relative_plain =>
          plain ←? ok_or enc_file_data (Fault_Error (InvalidConfiguration
            (lit "tamper_status inside enc_data requires decrypted file data")));
          if decide (Z.of_nat (length plain) < relative_plain + 2) then
            sdm_err (InvalidConfiguration (lit "tamper_status offset exceeds enc_data bounds"))
          else p ←? byte_at plain relative_plain; c ←? byte_at plain (relative_plain + 1);
               Ok (Some (readout_new p c))
      | None =>
          _ ←? ensure_len data (offset + 2);
          p ←? byte_at data offset; c ←? byte_at data (offset + 1);
          Ok (Some (readout_new p c))
      end
  end.

Definition derive_keys_for (mode : CryptoMode) (key : list Z) (uid ctr : option (list Z)) : SdmKeys :=
  match mode with
  | Aes => derive_sdm_keys_aes key uid ctr
  | NtagTypes.Lrp => derive_sdm_keys_lrp key uid ctr
  end.

Definition verify_inner (v : Verifier) (data sdm_file_read_key sdm_meta_read_key : list Z) : V SdmVerification :=
  picc ←? extract_picc_data v data sdm_meta_read_key;
  let '(uid, read_ctr_bytes) := picc in
  let keys := derive_keys_for (v_mode v) sdm_file_read_key uid read_ctr_bytes in
  _ ←? ensure_len data (v_mac_offset v + 16);
  mac_input ←? ok_or (get_range data (Z.to_nat (v_mac_input_offset v)) (Z.to_nat (v_mac_offset v))) Fault_Panic;
  expected_mac ←? decode_hex_array 8 data (v_mac_offset v);
  if negb (verify_mac keys mac_input expected_mac) then sdm_err MacMismatch else
  enc_file_data ←? decrypt_enc_file_data v data keys read_ctr_bytes;
  tamper_status ←? extract_tamper_status v data enc_file_data;
  Ok (mkSdmVerification uid (ctr_value <$> read_ctr_bytes) tamper_status enc_file_data).

Definition verify (v : Verifier) (data key : list Z) : V SdmVerification := verify_inner v data key key.

Definition verify_with_meta_key (v : Verifier) (data sdm_file_read_key sdm_meta_read_key : list Z) :
    V SdmVerification := verify_inner v data sdm_file_read_key sdm_meta_read_key.

(** The call of [safe_inspect] and of the diagnosis ([Verifier::try_new(..).ok()],
    then [verify_with_meta_key(..).ok()]): the parameter [verify_sdm] of their
    models. *)
Definition inspect_verify (sdm : Sdm) (ndef k2 k1 : list Z) : option SdmVerification :=
  v ← ok (verifier_try_new sdm Aes); ok (verify_with_meta_key v ndef k2 k1).
End verifier.

(** ** Vectors from the tests of the source (AN12196, AN12321) *)

Definition both_free : EncryptedContent := EncContent_Both (mkReadCtrFeatures None CtrRet_NoAccess).

Definition table4_settings : Sdm :=
  mkSdm (PiccData_Encrypted Key0 10 both_free) (Some (FileRead_MacOnly Key0 (mkMacWindow 42 42))) None.
Definition table4_ndef : list Z := lit "HELLOWORLDEF963FF7828658A599F3041510671E8894EED9EE65337086".

Definition lrp_enc_settings : Sdm :=
  mkSdm (PiccData_Encrypted Key0 14 both_free)
    (Some (FileRead_MacAndEnc Key0 (mkMacWindow 0 96) (mkEncFileData 63 32))) None.
Definition lrp_enc_ndef : list Z :=
  lit "any.domain/?m=65628ED36888CF9C84797E43ECACF114C6ED9A5E101EB592x4ADE304B5AB9474CB40AFFCAB0607A85x87E287E8135BFC06".

Section vectors.
#[local] Existing Instance Aes128.
#[local] Existing Instance ref_cmac.

Example verify_encrypted_picc_empty_mac :
  (v ←? map_err Fault_Error (verifier_try_new table4_settings Aes); verify v table4_ndef (replicate 16 0)) =
  Ok (mkSdmVerification (Some [0x04; 0xDE; 0x5F; 0x1E; 0xAC; 0xC0; 0x40]) (Some 61) None None).
Proof. vm_compute. reflexivity. Qed.

Example verify_rejects_short_ndef :
  (v ←? map_err Fault_Error (verifier_try_new table4_settings Aes); verify v (take 40 table4_ndef) (replicate 16 0)) =
  sdm_err (NdefTooShort 42 40).
Proof. vm_compute. reflexivity. Qed.

Example verify_lrp_with_enc_file_data :
  (v ←? map_err Fault_Error (verifier_try_new lrp_enc_settings NtagTypes.Lrp); verify v lrp_enc_ndef (replicate 16 0)) =
  Ok (mkSdmVerification (Some [0x04; 0x2E; 0x1D; 0x22; 0x2A; 0x63; 0x80]) (Some 123) None
        (Some (lit "0102030400000000"))).
Proof. vm_compute. reflexivity. Qed.
End vectors.

(** ** Reading at offsets *)

Lemma byte_at_in data i : 0 ≤ i < Z.of_nat (length data) → ∃ b, byte_at data i = Ok b.
Proof.
  intros Hi. unfold byte_at. destruct (lookup_lt_is_Some_2 data (Z.to_nat i)) as [b ->]; [lia|].
  rewrite decide_True by lia. eauto.
Qed.

Lemma ensure_len_ok data n u : ensure_len data n = Ok u → n ≤ Z.of_nat (length data).
Proof. unfold ensure_len. case_decide; [done|lia]. Qed.

Definition no_panic {A} (r : V A) : Prop := r ≠ panic.

Lemma np_ok {A} (a : A) : no_panic (Ok a : V A).
Proof. done. Qed.

Lemma np_err {A} e : no_panic (sdm_err e : V A).
Proof. done. Qed.

Lemma np_bind {A B} (m : V A) (k : A → V B) :
  no_panic m → (∀ a, m = Ok a → no_panic (k a)) → no_panic (and_then m k).
Proof. unfold no_panic, panic. destruct m as [a|[e|]]; simpl; intros; [by eauto|done..]. Qed.

Create HintDb sdm.
#[local] Hint Resolve np_ok np_err : sdm.

Lemma np_nibble b o : no_panic (sdm_hex_nibble b o).
Proof. unfold sdm_hex_nibble. repeat case_decide; auto with sdm. Qed.

Lemma np_ensure_len data n : no_panic (ensure_len data n).
Proof. unfold ensure_len. case_decide; auto with sdm. Qed.

Lemma np_byte_at data i : 0 ≤ i < Z.of_nat (length data) → no_panic (byte_at data i).
Proof. intros Hi. destruct (byte_at_in _ _ Hi) as [b ->]. auto with sdm. Qed.
#[local] Hint Resolve np_nibble np_ensure_len np_byte_at : sdm.

Lemma np_hex n data o : 0 ≤ o → o + 2 * Z.of_nat n ≤ Z.of_nat (length data) → no_panic (decode_hex_at n data o).
Proof.
  revert o. induction n as [|n IH]; intros o H0 Hl; unfold decode_hex_at; fold decode_hex_at; [auto with sdm|].
  do 2 (apply np_bind; [apply np_byte_at; lia|intros ? _]; apply np_bind; [auto with sdm|intros ? _]).
  apply np_bind; [apply IH; lia|auto with sdm].
Qed.

Lemma hex_at_length n data o l : decode_hex_at n data o = Ok l → length l = n.
Proof.
  revert o l. induction n as [|n IH]; intros o l; unfold decode_hex_at; fold decode_hex_at; [by intros [= <-]|].
  intros H. do 5 (apply and_then_ok in H as (? & ? & H)). injection H as <-. simpl. f_equal. eauto.
Qed.

(** ** When a verifier cannot panic *)

(** What the slices of [verify_inner] need. *)
Record ranges_ok (v : Verifier) : Prop := {
  ro_picc : match v_picc_source v with
            | PS_Encrypted o => 0 ≤ o
            | PS_Plain u r => (∀ o, u = Some o → 0 ≤ o) ∧ (∀ o, r = Some o → 0 ≤ o)
            | PS_None => True
            end;
  ro_window : 0 ≤ v_mac_input_offset v ≤ v_mac_offset v;
  ro_tamper : ∀ o, v_tamper_status_offset v = Some o → 0 ≤ o;
  ro_enc : ∀ s e, v_enc_data v = Some (s, e) → 0 ≤ s ≤ e }.

Section no_panic.
  Context {C : AesCrypto} {K : CmacCrate}.

Lemma np_tag plain : no_panic (parse_picc_data_tag plain).
Proof. unfold parse_picc_data_tag. split_match; auto with sdm. Qed.

Lemma np_extract v data key : ranges_ok v → no_panic (extract_picc_data v data key).
Proof.
  intros [Hp _ _ _]. unfold extract_picc_data. destruct (v_picc_source v) as [o|u r|]; [|clear key|auto with sdm].
  - apply np_bind; [auto with sdm|intros ? Hl%ensure_len_ok].
    destruct (v_mode v); (apply np_bind; [apply np_hex; unfold picc_blob_ascii_len, PICC_BLOB_LEN_AES, PICC_BLOB_LEN_LRP in Hl; lia|intros ? _]).
    + apply np_tag.
    + unfold decrypt_picc_data_lrp. split_match; [|auto with sdm]. destruct p. apply np_tag.
  - assert (∀ n off, (∀ o, off = Some o → 0 ≤ o) → no_panic (plain_mirror n data off)) as Hm.
    { intros n [o|] Ho; unfold plain_mirror; [|auto with sdm].
      apply np_bind; [auto with sdm|intros ? Hl%ensure_len_ok].
      apply np_bind; [apply np_hex; [by apply Ho|lia]|auto with sdm]. }
    destruct Hp. apply np_bind; [by apply Hm|intros ? _]. apply np_bind; [by apply Hm|auto with sdm].
Qed.

Lemma np_enc v data keys ctr : ranges_ok v → no_panic (decrypt_enc_file_data v data keys ctr).
Proof.
  intros [_ _ _ He]. unfold decrypt_enc_file_data. destruct (v_enc_data v) as [[s e]|]; [|auto with sdm].
  destruct (He s e eq_refl). rewrite decide_False by lia.
  apply np_bind; [auto with sdm|intros ? Hl%ensure_len_ok]. case_decide; [auto with sdm|].
  apply np_bind; [|intros ct _].
  - unfold sdm_decode_hex_into. rewrite length_replicate. apply np_hex; [lia|].
    pose proof (Z.mul_div_le (e - s) 2 ltac:(lia)). pose proof (Z.div_pos (e - s) 2 ltac:(lia) ltac:(lia)). lia.
  - destruct keys; split_match; try destruct p; auto with sdm.
Qed.

Lemma np_tamper v data enc : ranges_ok v → no_panic (extract_tamper_status v data enc).
Proof.
  intros [_ _ Ht He]. unfold extract_tamper_status, tamper_in_enc. destruct (v_tamper_status_offset v) as [o|]; [|auto with sdm].
  specialize (Ht o eq_refl).
  assert (no_panic (_ ←? ensure_len data (o + 2); p ←? byte_at data o; c ←? byte_at data (o + 1);
                    Ok (Some (readout_new p c)))) as Hout.
  { apply np_bind; [auto with sdm|intros ? Hl%ensure_len_ok].
    do 2 (apply np_bind; [apply np_byte_at; lia|intros ? _]). auto with sdm. }
  destruct (v_enc_data v) as [[s e]|]; [|done]. case_decide; [|done].
  apply np_bind; [by destruct enc|intros plain _]. case_decide; [auto with sdm|].
  do 2 (apply np_bind; [apply np_byte_at; lia|intros ? _]). auto with sdm.
Qed.

Lemma np_verify v data kf km : ranges_ok v → no_panic (verify_inner v data kf km).
Proof.
  intros Hv. unfold verify_inner. apply np_bind; [by apply np_extract|intros [uid ctr] _].
  apply np_bind; [auto with sdm|intros ? Hl%ensure_len_ok]. pose proof (ro_window v Hv).
  apply np_bind.
  { unfold get_range. rewrite decide_True by lia. done. }
  intros input _. apply np_bind; [apply np_hex; lia|intros mac _]. destruct (negb _); [auto with sdm|].
  apply np_bind; [by apply np_enc|intros enc _]. apply np_bind; [by apply np_tamper|auto with sdm].
Qed.
End no_panic.

(** ** Where verifiers come from *)

(** The fields are [u32]. *)
Definition opt_nonneg (o : option Z) : Prop := ∀ z, o = Some z → 0 ≤ z.

Record u32_fields (v : Verifier) : Prop := {
  uf_picc : match v_picc_source v with
            | PS_Encrypted o => 0 ≤ o
            | PS_Plain u r => opt_nonneg u ∧ opt_nonneg r
            | PS_None => True
            end;
  uf_window : 0 ≤ v_mac_input_offset v ∧ 0 ≤ v_mac_offset v;
  uf_tamper : opt_nonneg (v_tamper_status_offset v);
  uf_enc : ∀ s e, v_enc_data v = Some (s, e) → 0 ≤ s ∧ 0 ≤ e }.

(** Every way the program obtains a verifier: from settings that satisfy their
    invariant (which decoding and the constructors establish), from stored data
    after [validate], and by shifting one. *)
Inductive built : Verifier → Prop :=
| built_settings s mode v : sdm_wf s → verifier_try_new s mode = Ok v → built v
| built_validated v : u32_fields v → validate v = Ok tt → built v
| built_shifted v inc v' : built v → with_offset v inc = Some v' → built v'.

Lemma Offset_new_ok v o : Offset_new v = Ok o → o = v ∧ v < 2 ^ 24.
Proof. unfold Offset_new. case_decide; [done|]. intros [= <-]. lia. Qed.

Lemma EncLength_new_ok v o : EncLength_new v = Ok o → o = v.
Proof. unfold EncLength_new. case_decide; [done|]. by intros [= <-]. Qed.

Lemma offset_add_some a b r : offset_add a b = Some r → 0 ≤ a → r = a + b ∧ 0 ≤ r ≤ 255.
Proof.
  unfold offset_add. intros H Ha. repeat case_decide; cbn [mbind option_bind] in H; try done;
    case_decide; simplify_eq; lia.
Qed.

Lemma offset_add_opt_some a b r : offset_add_opt a b = Some r → opt_nonneg a →
  opt_nonneg r ∧ r = (λ z, z + b) <$> a.
Proof.
  destruct a as [a|]; simpl; [|by intros [= <-]]. intros H Ha. destruct (offset_add a b) as [z|] eqn:E; [|done].
  simpl in H. simplify_eq. apply offset_add_some in E as [-> ?]; [|by apply Ha]. split; [|done]. intros ? [= <-]. lia.
Qed.

(** What a shift does, field by field. *)
Definition shift_source (k : Z) (s : PiccSource) : PiccSource :=
  match s with
  | PS_Encrypted o => PS_Encrypted (o + k)
  | PS_Plain u r => PS_Plain ((λ z, z + k) <$> u) ((λ z, z + k) <$> r)
  | PS_None => PS_None
  end.

Definition shift_verifier (k : Z) (v : Verifier) : Verifier :=
  mkVerifier (v_mode v) (shift_source k (v_picc_source v)) (v_meta_read_key v) (v_file_read_key v)
    (v_mac_input_offset v + k) (v_mac_offset v + k) ((λ z, z + k) <$> v_tamper_status_offset v)
    ((λ p, (p.1 + k, p.2 + k)) <$> v_enc_data v).

Lemma ranges_ok_u32 v : ranges_ok v → u32_fields v.
Proof.
  intros [Hp Hw Ht He]. constructor; [done|lia|done|]. intros s e E. destruct (He s e E). lia.
Qed.

Lemma with_offset_shift v inc v' : u32_fields v → with_offset v inc = Some v' →
  v' = shift_verifier inc v ∧ u32_fields v'.
Proof.
  intros [Hp Hw Ht He] H. unfold with_offset in H.
  apply bind_Some in H as (src & Hsrc & H). apply bind_Some in H as (mi & Hmi & H).
  apply bind_Some in H as (tt & Htt & H). apply bind_Some in H as (mo & Hmo & H).
  apply bind_Some in H as (enc & Henc & H). injection H as <-.
  apply offset_add_some in Hmi as [-> ?]; [|lia]. apply offset_add_some in Hmo as [-> ?]; [|lia].
  apply offset_add_opt_some in Htt as [? ->]; [|done].
  assert (src = shift_source inc (v_picc_source v) ∧
    match src with PS_Encrypted o => 0 ≤ o | PS_Plain u r => opt_nonneg u ∧ opt_nonneg r | PS_None => True end)
    as [-> ?].
  { destruct (v_picc_source v) as [o|u r|]; simpl in *; [| |by injection Hsrc as <-].
    - apply fmap_Some in Hsrc as (z & Hz & ->). apply offset_add_some in Hz as [-> ?]; [|done]. split; [done|lia].
    - apply bind_Some in Hsrc as (u' & Hu & Hsrc). apply bind_Some in Hsrc as (r' & Hr & Hsrc). injection Hsrc as <-.
      apply offset_add_opt_some in Hu as [? ->]; [|naive_solver]. apply offset_add_opt_some in Hr as [? ->]; [|naive_solver]. done. }
  assert (enc = (λ p, (p.1 + inc, p.2 + inc)) <$> v_enc_data v ∧ ∀ s e, enc = Some (s, e) → 0 ≤ s ∧ 0 ≤ e) as [-> ?].
  { destruct (v_enc_data v) as [[s e]|]; simpl in *; [|by injection Henc as <-]. destruct (He s e eq_refl).
    apply bind_Some in Henc as (s' & Hs & Henc). apply bind_Some in Henc as (e' & He' & Henc). injection Henc as <-.
    apply offset_add_some in Hs as [-> ?]; [|done]. apply offset_add_some in He' as [-> ?]; [|done].
    split; [done|]. intros ? ? [= <- <-]. lia. }
  split; [done|]. constructor; simpl; [done|lia|done|done].
Qed.

Lemma shift_ranges_ok v k : ranges_ok v → u32_fields (shift_verifier k v) → ranges_ok (shift_verifier k v).
Proof.
  intros [_ Hw _ He] [Hp' Hw' Ht' He']. constructor; simpl in *; [done|lia|done|].
  intros s e E. destruct (He' s e E). destruct (v_enc_data v) as [[s0 e0]|]; [|done].
  simplify_eq/=. destruct (He s0 e0 eq_refl). lia.
Qed.

Lemma settings_ranges_ok s mode v : sdm_wf s → verifier_try_new s mode = Ok v → ranges_ok v.
Proof.
  intros [Hp Hf Ht Hc] H. unfold verifier_try_new in H. apply and_then_ok in H as (fr & Hfr & H).
  destruct (sdm_file_read s) as [fr'|] eqn:Es; [|done]. injection Hfr as ->.
  destruct (Hf fr eq_refl) as (Hi & Hm & He). pose proof (co_window s Hc fr Es).
  assert (v_picc_source v = match sdm_picc_data s with
    | PiccData_Encrypted _ o _ => PS_Encrypted o
    | PiccData_Plain p => PS_Plain (plain_uid_offset p) (plain_rctr_offset p)
    | PiccData_None => PS_None end ∧
    v_mac_input_offset v = mw_input (window fr) ∧ v_mac_offset v = mw_mac (window fr) ∧
    v_tamper_status_offset v = sdm_tamper_status s ∧
    v_enc_data v = (λ e, (efd_start e, efd_start e + efd_length e)) <$> file_read_enc fr) as (Ep & Ei & Em & Et & Ee).
  { by destruct (sdm_picc_data s); injection H as <-. }
  unfold is_offset, is_enc_length in *. constructor; rewrite ?Ep, ?Ei, ?Em, ?Et, ?Ee.
  - destruct Hp as [Hp _]. destruct (sdm_picc_data s) as [|[| |]|]; simpl in *; try done; unfold is_offset in *; try split; intros; simplify_eq; destruct_and?; lia.
  - lia.
  - intros o Ho. destruct (Ht o Ho). lia.
  - intros a b. destruct (file_read_enc fr) as [e|]; simpl; [|done]. intros [= <- <-].
    destruct (He e eq_refl) as [? [? _]]. unfold is_offset in *; lia.
Qed.

Lemma validate_ranges_ok v : u32_fields v → validate v = Ok tt → ranges_ok v.
Proof.
  intros [Hp Hw Ht He] H. unfold validate in H. destruct (_ && _); [done|].
  apply and_then_ok in H as (p & _ & H). apply and_then_ok in H as (i & Hi & H). apply and_then_ok in H as (m & Hm & H).
  apply and_then_ok in H as (fr & Hfr & H). apply and_then_ok in H as (t & _ & H). apply and_then_ok in H as (s & Hs & _).
  apply Offset_new_ok in Hi as [-> _]. apply Offset_new_ok in Hm as [-> _].
  assert (window fr = mkMacWindow (v_mac_input_offset v) (v_mac_offset v) ∧ (∀ s e, v_enc_data v = Some (s, e) → s ≤ e) ∧
    enc_len_nonneg (Some fr)) as (Hwin & Hle & Hnn).
  { unfold validate_file_read in Hfr. destruct (v_enc_data v) as [[a b]|].
    - apply and_then_ok in Hfr as (a' & Ha & Hfr). apply and_then_ok in Hfr as (n & Hn & Hfr).
      apply and_then_ok in Hfr as (l & Hl & Hfr). injection Hfr as <-. case_decide; [done|]. injection Hn as <-.
      apply EncLength_new_ok in Hl as ->. split_and!; [done| |].
      + intros ? ? [= <- <-]. lia.
      + intros ? ? ? [= <- <- <-]. simpl. lia.
    - injection Hfr as <-. split_and!; [done..|]. by intros ? ? ?. }
  apply Sdm_try_new_ok in Hs as (-> & Hc & _); [|done]. pose proof (co_window _ Hc fr eq_refl) as Hww. rewrite Hwin in Hww. simpl in Hww.
  constructor; [done|lia|done|]. intros a b E. destruct (He a b E). specialize (Hle a b E). lia.
Qed.

Lemma built_ranges_ok v : built v → ranges_ok v.
Proof.
  induction 1 as [s mode v Hs Hv|v Hf Hv|v inc v' _ IH Hs].
  - by eapply settings_ranges_ok.
  - by apply validate_ranges_ok.
  - apply with_offset_shift in Hs as [-> Hu]; [|by apply ranges_ok_u32]. by apply shift_ranges_ok.
Qed.

(** C31. No verifier the program can obtain crashes. However it was obtained (from
    settings that satisfy their invariant, from stored data that passed
    [validate], by any number of shifts), on every byte string of every length and
    under every key, in both modes, verification and the decryption of the identity
    data end in a value or in an error: no slice is out of bounds, no subtraction
    underflows. *)
Theorem verifier_never_panics {C : AesCrypto} {K : CmacCrate} (v : Verifier) (data kf km : list Z) :
  built v →
  verify_with_meta_key v data kf km ≠ Err Fault_Panic ∧ verify v data kf ≠ Err Fault_Panic ∧
  decrypt_picc_data v km data ≠ Err Fault_Panic.
Proof.
  intros Hv%built_ranges_ok. split_and!; [by apply np_verify..|].
  apply np_bind; [by apply np_extract|auto with sdm].
Qed.

Lemma verifier_never_panics_witness :
  let v := mkVerifier Aes (PS_Encrypted 10) (Some Key0) Key0 42 42 None None in
  built v ∧ verify_with_meta_key (C := Aes128) (K := ref_cmac) v [] [] [] ≠ Err Fault_Panic.
Proof.
  assert (built (mkVerifier Aes (PS_Encrypted 10) (Some Key0) Key0 42 42 None None)) as Hb.
  { apply built_validated; [|reflexivity]. constructor; simpl; [lia|lia|done|done]. }
  split; [exact Hb|].
  exact (proj1 (@verifier_never_panics Aes128 ref_cmac _ [] [] [] Hb)).
Defined.

(** ** Shifting *)

Definition shift_fault (k : Z) (f : Fault SdmError) : Fault SdmError :=
  match f with
  | Fault_Error (NdefTooShort n h) => Fault_Error (NdefTooShort (n + k) (h + k))
  | Fault_Error (InvalidHex o) => Fault_Error (InvalidHex (o + k))
  | f => f
  end.

(** A computation on shifted data: the same value, the error at its new place. *)
Definition shifted {A} (k : Z) (m' m : V A) : Prop := m' = map_err (shift_fault k) m.

Lemma sh_bind {A B} k (m m' : V A) (f f' : A → V B) :
  shifted k m' m → (∀ a, shifted k (f' a) (f a)) → shifted k (and_then m' f') (and_then m f).
Proof. unfold shifted. intros -> H. destruct m; simpl; [apply H|done]. Qed.

Lemma shift_verifier_inv k v : shift_verifier (- k) (shift_verifier k v) = v.
Proof.
  destruct v as [mode src mk fk mi mo tt enc]. unfold shift_verifier. simpl.
  assert (∀ o : option Z, (λ z, z + - k) <$> ((λ z, z + k) <$> o) = o) as Ho.
  { intros [z|]; simpl; [|done]. f_equal. lia. }
  rewrite Ho. f_equal; [|lia|lia|].
  - destruct src as [o|u r|]; simpl; [f_equal; lia|by rewrite !Ho|done].
  - destruct enc as [[s e]|]; simpl; [|done]. do 2 f_equal; lia.
Qed.

Section shifting.
  Context (pre data : list Z).
Let k := Z.of_nat (length pre).

Lemma sh_byte i : 0 ≤ i → byte_at (pre ++ data) (i + k) = byte_at data i.
Proof.
  intros Hi. unfold byte_at, k. rewrite lookup_app_r by lia.
  replace (Z.to_nat (i + Z.of_nat (length pre)) - length pre)%nat with (Z.to_nat i) by lia.
  destruct (_ !! _); [|done]. by rewrite !decide_True by lia.
Qed.

Lemma sh_nibble b o : shifted k (sdm_hex_nibble b (o + k)) (sdm_hex_nibble b o).
Proof. unfold shifted, sdm_hex_nibble. by repeat case_decide. Qed.

Lemma byte_at_shifted i : 0 ≤ i → shifted k (byte_at (pre ++ data) (i + k)) (byte_at data i).
Proof.
  intros Hi. unfold shifted. rewrite sh_byte by done. unfold byte_at.
  destruct (_ !! _); [|done]. by case_decide.
Qed.

Lemma sh_hex n o : 0 ≤ o → shifted k (decode_hex_at n (pre ++ data) (o + k)) (decode_hex_at n data o).
Proof.
  revert o. induction n as [|n IH]; intros o Ho; unfold decode_hex_at; fold decode_hex_at; [done|].
  replace (o + k + 1) with (o + 1 + k) by lia. replace (o + k + 2) with (o + 2 + k) by lia.
  do 2 (apply sh_bind; [apply byte_at_shifted; lia|intros ?]; apply sh_bind; [apply sh_nibble|intros ?]).
  apply sh_bind; [apply IH; lia|done].
Qed.

Lemma sh_ensure n : shifted k (ensure_len (pre ++ data) (n + k)) (ensure_len data n).
Proof.
  unfold shifted, ensure_len, k. rewrite length_app, Nat2Z.inj_add. repeat case_decide; try lia; [|done].
  by rewrite (Z.add_comm (Z.of_nat (length pre))).
Qed.

Lemma sh_range a b : 0 ≤ a → 0 ≤ b →
  get_range (pre ++ data) (Z.to_nat (a + k)) (Z.to_nat (b + k)) = get_range data (Z.to_nat a) (Z.to_nat b).
Proof.
  intros Ha Hb. unfold get_range, k. rewrite length_app. repeat case_decide; try lia; [|done].
  f_equal. rewrite skipn_app, (skipn_all2 pre) by lia. simpl. f_equal; [lia|f_equal; lia].
Qed.

Context {C : AesCrypto} {K : CmacCrate}.

Lemma sh_mirror n o : opt_nonneg o →
  shifted k (plain_mirror n (pre ++ data) ((λ z, z + k) <$> o)) (plain_mirror n data o).
Proof.
  intros Ho. destruct o as [o|]; simpl; [|done]. specialize (Ho o eq_refl). unfold decode_hex_array.
  replace (o + k + 2 * Z.of_nat n) with (o + 2 * Z.of_nat n + k) by lia.
  apply sh_bind; [apply sh_ensure|intros _]. apply sh_bind; [by apply sh_hex|done].
Qed.

Lemma parse_shift z plain : shifted z (parse_picc_data_tag plain) (parse_picc_data_tag plain).
Proof. unfold shifted, parse_picc_data_tag. by destruct (_ && _). Qed.

Lemma sh_extract v key : u32_fields v →
  shifted k (extract_picc_data (shift_verifier k v) (pre ++ data) key) (extract_picc_data v data key).
Proof.
  intros [Hp _ _ _]. unfold extract_picc_data, decode_hex_array. simpl. destruct (v_picc_source v) as [o|u r|]; simpl; [|clear key|done].
  - replace (o + k + picc_blob_ascii_len (v_mode v)) with (o + picc_blob_ascii_len (v_mode v) + k) by lia.
    apply sh_bind; [apply sh_ensure|intros _].
    destruct (v_mode v); (apply sh_bind; [by apply sh_hex|intros b]); [apply parse_shift|].
    unfold decrypt_picc_data_lrp. destruct (lricb_decrypt_in_place _ _ _) as [[]|]; [apply parse_shift|done].
  - destruct Hp. apply sh_bind; [by apply sh_mirror|intros ?]. by apply sh_bind; [apply sh_mirror|].
Qed.

Lemma sh_enc v keys ctr : u32_fields v →
  shifted k (decrypt_enc_file_data (shift_verifier k v) (pre ++ data) keys ctr) (decrypt_enc_file_data v data keys ctr).
Proof.
  intros [_ _ _ He]. unfold decrypt_enc_file_data, sdm_decode_hex_into. simpl. destruct (v_enc_data v) as [[s e]|]; simpl; [|done].
  destruct (He s e eq_refl). replace (e + k - (s + k)) with (e - s) by lia.
  destruct (decide (e < s)); [by rewrite decide_True by lia|]. rewrite decide_False by lia.
  replace (s + k + (e - s)) with (s + (e - s) + k) by lia.
  apply sh_bind; [apply sh_ensure|intros _]. case_decide; [done|].
  apply sh_bind; [by apply sh_hex|intros ct]. unfold shifted. destruct keys; split_match; try destruct p; done.
Qed.

Lemma sh_tamper v enc : u32_fields v →
  shifted k (extract_tamper_status (shift_verifier k v) (pre ++ data) enc) (extract_tamper_status v data enc).
Proof.
  intros [_ _ Ht _]. unfold extract_tamper_status. simpl. destruct (v_tamper_status_offset v) as [o|]; simpl; [|done].
  specialize (Ht o eq_refl). assert (tamper_in_enc (shift_verifier k v) (o + k) = tamper_in_enc v o) as ->.
  { unfold tamper_in_enc. simpl. destruct (v_enc_data v) as [[s e]|]; simpl; [|done].
    repeat case_decide; try lia; [|done]. f_equal. lia. }
  destruct (tamper_in_enc v o) as [rel|].
  - apply sh_bind; [by destruct enc|intros plain]. case_decide; [done|].
    do 2 (apply sh_bind; [unfold shifted, byte_at; destruct (plain !! _); [by case_decide|done]|intros ?]). done.
  - replace (o + k + 2) with (o + 2 + k) by lia. replace (o + k + 1) with (o + 1 + k) by lia.
    apply sh_bind; [apply sh_ensure|intros _].
    do 2 (apply sh_bind; [apply byte_at_shifted; lia|intros ?]). done.
Qed.

Lemma sh_verify v kf km : u32_fields v →
  shifted k (verify_inner (shift_verifier k v) (pre ++ data) kf km) (verify_inner v data kf km).
Proof.
  intros Hv. unfold verify_inner, decode_hex_array. pose proof (uf_window v Hv) as [Hi Hm].
  apply sh_bind; [by apply sh_extract|intros [uid ctr]]. cbn [v_mac_offset v_mac_input_offset shift_verifier v_mode].
  replace (v_mac_offset v + k + 16) with (v_mac_offset v + 16 + k) by lia.
  apply sh_bind; [apply sh_ensure|intros _]. rewrite sh_range by done.
  apply sh_bind; [by destruct (get_range _ _ _)|intros input]. apply sh_bind; [by apply sh_hex|intros mac].
  destruct (negb _); [done|]. apply sh_bind; [by apply sh_enc|intros enc].
  by apply sh_bind; [apply sh_tamper|].
Qed.
End shifting.

(** A shifted verifier verifies the shifted file. When [with_offset] accepts a
    shift forward, the new verifier gives on a file with that many bytes put in
    front exactly what the old one gives on the file: the same values, the same
    refusals, with the positions in error reports moved along. Backwards, it gives
    on the file with its first bytes cut off what the old one gives on the file. *)
Theorem with_offset_verifies {C : AesCrypto} {K : CmacCrate} (v v' : Verifier) (inc : Z) (pre data kf km : list Z) :
  u32_fields v → with_offset v inc = Some v' → Z.of_nat (length pre) = Z.abs inc →
  if decide (0 ≤ inc) then
    verify_with_meta_key v' (pre ++ data) kf km = map_err (shift_fault inc) (verify_with_meta_key v data kf km)
  else
    verify_with_meta_key v (pre ++ data) kf km = map_err (shift_fault (- inc)) (verify_with_meta_key v' data kf km).
Proof.
  intros Hv Hw Hl. destruct (with_offset_shift _ _ _ Hv Hw) as [-> Hv']. unfold verify_with_meta_key. case_decide.
  - replace inc with (Z.of_nat (length pre)) by lia. by apply sh_verify.
  - rewrite <-(shift_verifier_inv inc v) at 1. replace (- inc) with (Z.of_nat (length pre)) by lia.
    by apply sh_verify.
Qed.

Lemma with_offset_verifies_witness :
  let v := mkVerifier Aes (PS_Encrypted 10) (Some Key0) Key0 42 42 None None in
  let v' := mkVerifier Aes (PS_Encrypted 3) (Some Key0) Key0 35 35 None None in
  verify_with_meta_key (C := Aes128) (K := ref_cmac) v (take 7 table4_ndef ++ drop 7 table4_ndef) (replicate 16 0) (replicate 16 0) =
  map_err (shift_fault 7) (verify_with_meta_key (C := Aes128) (K := ref_cmac) v' (drop 7 table4_ndef) (replicate 16 0) (replicate 16 0)).
Proof.
  apply (@with_offset_verifies Aes128 ref_cmac (mkVerifier Aes (PS_Encrypted 10) (Some Key0) Key0 42 42 None None)
    (mkVerifier Aes (PS_Encrypted 3) (Some Key0) Key0 35 35 None None) (-7) (take 7 table4_ndef)
    (drop 7 table4_ndef) (replicate 16 0) (replicate 16 0)).
  - constructor; simpl; [lia|lia|done|done].
  - reflexivity.
  - reflexivity.
Defined.
