(* ===== verification/WireFiles.v ===== *)
(** * Files under the protection of a session, and the remaining commands

    [vendor/ntag424/src/commands]: ReadData and WriteData in the MAC and full
    communication modes, chunk by chunk ([read_data.rs], [write_data.rs]), the
    answers that are always encrypted ([get_card_uid.rs], [get_file_counters.rs],
    [get_tt_status.rs], [read_sig.rs]), [set_configuration.rs] with
    [types/configuration.rs], [iso_update_binary.rs], the second authentication of a
    session ([authenticate/aes.rs]) and the session methods over them
    ([session/authenticated.rs]).

    [Vault] is what a card does with the two file commands, after its data sheet;
    the theorem at the end runs the reader against it. *)

From S2P Require Import Prelude Str Hex Derivation Picc NtagTypes FileSettings Channel Session Wire Link SdmVerify.

Definition MAC_READ_CHUNK : nat := 248.
Definition FULL_READ_CHUNK : nat := 239.
Definition MAC_WRITE_CHUNK : nat := 240.
Definition FULL_WRITE_CHUNK : nat := 239.
Definition SIGNATURE_LEN : nat := 56.
Definition READ_SIG_CT_LEN : nat := 64.
Definition COUNTER_RESP_LEN : nat := 5.
Definition COUNTER_CT_LEN : nat := 16.
Definition ISO_UPDATE_BINARY_MAX : nat := 255.

(** ** types/configuration.rs *)

Record Configuration := mkConfiguration {
  cf_picc : option (list Z);
  cf_secure_messaging : option (list Z);
  cf_capability : option (list Z);
  cf_tag_tamper : option (list Z);
  cf_failed_auth_counter : option (list Z);
  cf_hw : option (list Z) }.

Definition Configuration_new : Configuration := mkConfiguration None None None None None None.

(** [get_or_insert([0; n])] and an assignment to one byte. *)
Definition set_byte (n i : nat) (f : Z → Z) (o : option (list Z)) : option (list Z) :=
  Some (alter f i (default (replicate n 0) o)).

Definition with_random_uid_enabled (c : Configuration) : Configuration :=
  mkConfiguration (set_byte 1 0 (λ b, Z.lor b (Z.shiftl 1 1)) (cf_picc c)) (cf_secure_messaging c) (cf_capability c)
    (cf_tag_tamper c) (cf_failed_auth_counter c) (cf_hw c).
Definition with_chained_writing_disabled (c : Configuration) : Configuration :=
  mkConfiguration (cf_picc c) (set_byte 2 0 (λ b, Z.lor b (Z.shiftl 1 2)) (cf_secure_messaging c)) (cf_capability c)
    (cf_tag_tamper c) (cf_failed_auth_counter c) (cf_hw c).
Definition with_capability (i : nat) (f : Z → Z) (c : Configuration) : Configuration :=
  mkConfiguration (cf_picc c) (cf_secure_messaging c) (set_byte 10 i f (cf_capability c))
    (cf_tag_tamper c) (cf_failed_auth_counter c) (cf_hw c).
Definition with_lrp_enabled : Configuration → Configuration := with_capability 4 (λ b, Z.lor b (Z.shiftl 1 1)).
Definition with_pdcap2_5 (byte : Z) : Configuration → Configuration := with_capability 8 (λ _, byte).
Definition with_pdcap2_6 (byte : Z) : Configuration → Configuration := with_capability 9 (λ _, byte).

Definition with_tag_tamper_enabled (status_access : Access) (c : Configuration) : Configuration :=
  let nibble := match status_access with Access_Key k => as_byte k | Access_Free => 0x0E | Access_NoAccess => 0x0F end in
  mkConfiguration (cf_picc c) (cf_secure_messaging c) (cf_capability c) (Some [0x01; nibble])
    (cf_failed_auth_counter c) (cf_hw c).
Definition with_failed_auth_counter (bytes : list Z) (c : Configuration) : Configuration :=
  mkConfiguration (cf_picc c) (cf_secure_messaging c) (cf_capability c) (cf_tag_tamper c) (Some bytes) (cf_hw c).
Definition with_failed_auth_counter_enabled (limit decrement : Z) : Configuration → Configuration :=
  with_failed_auth_counter ([1] ++ le_bytes 2 limit ++ le_bytes 2 decrement).
Definition with_failed_auth_counter_disabled : Configuration → Configuration := with_failed_auth_counter (replicate 5 0).
Definition with_strong_back_modulation (strong : bool) (c : Configuration) : Configuration :=
  mkConfiguration (cf_picc c) (cf_secure_messaging c) (cf_capability c) (cf_tag_tamper c) (cf_failed_auth_counter c)
    (Some [Z.b2z strong]).

Definition configuration_build (c : Configuration) : list (Z * list Z) :=
  omap (λ p : Z * option (list Z), pair p.1 <$> p.2)
    [(0x00, cf_picc c); (0x04, cf_secure_messaging c); (0x05, cf_capability c); (0x07, cf_tag_tamper c);
     (0x0A, cf_failed_auth_counter c); (0x0B, cf_hw c)].

Section files.
  Context {C : AesCrypto} {T TE : Type} {AP : Apdu T TE} (compat : bool).

Abbreviation Ch := (Ch (T := T) (TE := TE)).
Abbreviation W := (M T (SessionError (Fault TE))).

(** ** secure_channel.rs: answers that are always encrypted *)

Definition decrypt_full_fixed (ct p : nat) (rc : Z) (body : list Z) : Ch (list Z) :=
  ciphertext ← verify_response_mac_and_advance compat rc body;
  ch_ensure (bool_decide (length ciphertext = ct))
    (SE_UnexpectedLength (Z.of_nat (length ciphertext)) (Z.of_nat ct)) ;;
  buf ← decrypt_response ciphertext;
  ch_ensure (bool_decide (strip_m2_padding buf = Some p)) SE_ResponseMacMismatch ;;
  mret (take p buf).

Definition wire_get_card_uid : Ch (list Z) :=
  mac ← compute_cmd_mac 0x51 [] [];
  resp ← ch_transmit ([0x90; 0x51; 0x00; 0x00; 0x08] ++ mac ++ [0x00]);
  native_ok resp ;;
  decrypt_full_fixed 16 7 (ra_sw2 resp) (ra_data resp).

Definition wire_get_tt_status : Ch TagTamperStatusReadout :=
  mac ← compute_cmd_mac 0xF7 [] [];
  resp ← ch_transmit ([0x90; 0xF7; 0x00; 0x00; 0x08] ++ mac ++ [0x00]);
  native_ok resp ;;
  plain ← decrypt_full_fixed 16 2 (ra_sw2 resp) (ra_data resp);
  mret (readout_new (nth 0 plain 0) (nth 1 plain 0)).

(** Some cards answer ReadSig with [91 90]. *)
Definition sig_status_ok (r : Rapdu) : bool :=
  let status := rc_status (RC_Desfire (ra_sw1 r) (ra_sw2 r)) in
  bool_decide (status = OperationOk) || bool_decide (status = Unknown 0x9190).

Definition wire_read_sig : W (list Z) :=
  resp ← wire_transmit [0x90; 0x3C; 0x00; 0x00; 0x01; 0x00; 0x00];
  if sig_status_ok resp then expect_length SIGNATURE_LEN (ra_data resp)
  else fail (SE_ErrorResponse (rc_status (RC_Desfire (ra_sw1 resp) (ra_sw2 resp)))).

Definition wire_read_sig_mac : Ch (list Z) :=
  mac ← compute_cmd_mac 0x3C [0x00] [];
  resp ← ch_transmit ([0x90; 0x3C; 0x00; 0x00; 0x09; 0x00] ++ mac ++ [0x00]);
  ch_ensure (sig_status_ok resp) (SE_ErrorResponse (rc_status (RC_Desfire (ra_sw1 resp) (ra_sw2 resp)))) ;;
  decrypt_full_fixed READ_SIG_CT_LEN SIGNATURE_LEN (ra_sw2 resp) (ra_data resp).

(** [get_file_counters.rs]: the answer is plain or encrypted, by its length. *)
Definition wire_get_file_counters (file_no : Z) : Ch Z :=
  resp ← send_mac compat 0xF6 0x00 0x00 [file_no] [];
  data ← (if decide (length resp = COUNTER_RESP_LEN) then mret resp
          else if decide (length resp = COUNTER_CT_LEN) then
            ct ← decrypt_response resp;
            ch_ensure (bool_decide (strip_m2_padding ct = Some COUNTER_RESP_LEN))
              (SE_UnexpectedLength (Z.of_nat COUNTER_CT_LEN) (Z.of_nat COUNTER_RESP_LEN)) ;;
            mret (take COUNTER_RESP_LEN ct)
          else ch_fail (SE_UnexpectedLength (Z.of_nat (length resp)) (Z.of_nat COUNTER_RESP_LEN)));
  mret (le_val (take 3 data)).

(** ** set_configuration.rs

    [None] is the panic of a copy into one block that the data does not fit. *)
Definition config_block (data : list Z) : option (list Z) :=
  if decide (length data < 16)%nat then Some (data ++ [0x80] ++ replicate (15 - length data) 0) else None.

Definition set_configuration_one (option_id : Z) (data : list Z) : Ch () :=
  plaintext ← ch_of (config_block data);
  ct ← encrypt_command plaintext;
  mac ← compute_cmd_mac 0x5C [option_id] ct;
  resp ← ch_transmit ([0x90; 0x5C; 0x00; 0x00; 0x19; option_id] ++ ct ++ mac ++ [0x00]);
  native_ok resp ;;
  if decide (ra_data resp = []) then advance_counter
  else verify_response_mac_and_advance compat (ra_sw2 resp) (ra_data resp) ;; mret tt.

Fixpoint set_options (l : list (Z * list Z)) : Ch () :=
  match l with [] => mret tt | (option_id, data) :: l => set_configuration_one option_id data ;; set_options l end.

Definition set_configuration (c : Configuration) : Ch () := set_options (configuration_build c).

(** ** iso_update_binary.rs *)

Definition iso_update_binary (short_file_id : option Z) (offset : Z) (data : list Z) : W () :=
  if decide (data = []) then bad_parameter (lit "data.len()") 0 (lit "must be non-zero")
  else if decide (ISO_UPDATE_BINARY_MAX < length data)%nat then
    fail (SE_ApduBodyTooLarge (Z.of_nat (length data)) (Z.of_nat ISO_UPDATE_BINARY_MAX))
  else
    p ← match short_file_id with
        | Some sfid =>
            if decide (0x01 ≤ sfid ≤ 0x1E) then
              if decide (0xFF < offset) then
                bad_parameter (lit "offset") offset (lit "must be <= 0xFF with a short FileID")
              else mret (Z.lor 0x80 sfid, u8 offset)
            else bad_parameter (lit "short_file_id") sfid (lit "must be 0x01..=0x1E")
        | None =>
            if decide (0x7FFF < offset) then bad_parameter (lit "offset") offset (lit "must be <= 0x7FFF")
            else mret (Z.shiftr offset 8, u8 offset)
        end;
    resp ← wire_transmit ([0x00; 0xD6; p.1; p.2; u8 (Z.of_nat (length data))] ++ data);
    iso_expect_ok resp.

(** ** read_data.rs

    The offset of a later chunk is not checked again; [data_header] keeps its low 24
    bits. *)

Definition read_data_mac_one_apdu (file_no offset length_ : Z) (buf : list Z) : Ch (nat * list Z) :=
  let want := want_plain_bytes length_ (length buf) in
  let header := data_header file_no offset length_ in
  mac ← compute_cmd_mac 0xAD header [];
  resp ← ch_transmit ([0x90; 0xAD; 0x00; 0x00; 0x0F] ++ header ++ mac ++ [0x00]);
  native_ok resp ;;
  data ← verify_response_mac_and_advance compat (ra_sw2 resp) (ra_data resp);
  ch_ensure (bool_decide (length data ≤ want)%nat)
    (SE_UnexpectedLength (Z.of_nat (length data)) (Z.of_nat want)) ;;
  mret (length data, copy_at 0 data buf).

Definition read_data_full_one_apdu (file_no offset length_ : Z) (buf : list Z) : Ch (nat * list Z) :=
  let header := data_header file_no offset length_ in
  mac ← compute_cmd_mac 0xAD header [];
  resp ← ch_transmit ([0x90; 0xAD; 0x00; 0x00; 0x0F] ++ header ++ mac ++ [0x00]);
  native_ok resp ;;
  ciphertext ← verify_response_mac_and_advance compat (ra_sw2 resp) (ra_data resp);
  let ct_len := length ciphertext in
  ch_ensure (bool_decide (block_aligned ciphertext))
    (SE_UnexpectedLength (Z.of_nat ct_len) (Z.of_nat ((Nat.max ct_len 1 + 15) `div` 16 * 16))) ;;
  scratch ← decrypt_response ciphertext;
  match strip_m2_padding scratch with
  | None => ch_fail (SE_UnexpectedLength (Z.of_nat ct_len) (Z.of_nat ct_len))
  | Some pad_start =>
      ch_ensure (bool_decide (length_ = 0 ∨ Z.of_nat pad_start = length_))
        (SE_UnexpectedLength (Z.of_nat pad_start) length_) ;;
      ch_ensure (bool_decide (pad_start ≤ length buf)%nat)
        (SE_UnexpectedLength (Z.of_nat pad_start) (Z.of_nat (length buf))) ;;
      mret (pad_start, copy_at 0 (take pad_start scratch) buf)
  end.

(** The chunk loop of both modes: [target] bytes in all, [total] of them read.  With
    [eof] a short answer ends it. *)
Fixpoint read_loop (one : Z → Z → Z → list Z → Ch (nat * list Z)) (eof : bool) (max fuel : nat)
    (file_no offset : Z) (total target : nat) (buf : list Z) : Ch (nat * list Z) :=
  if decide (target ≤ total)%nat then mret (total, buf)
  else match fuel with
  | O => ch_panic
  | S fuel =>
      let chunk := Nat.min (target - total) max in
      part ← ch_of (get_range buf total (total + chunk));
      r ← one file_no offset (Z.of_nat chunk) part;
      let buf := copy_at total r.2 buf in
      if eof && bool_decide (r.1 < chunk)%nat then mret ((total + r.1)%nat, buf)
      else read_loop one eof max fuel file_no (u32 (offset + Z.of_nat chunk)) (total + r.1) target buf
  end.

Definition read_target (length_ : Z) (buf : list Z) : nat := if decide (length_ = 0) then length buf else Z.to_nat length_.

Definition read_data_mac (file_no offset length_ : Z) (buf : list Z) : Ch (nat * list Z) :=
  ch_lift (validate_request file_no offset length_ (length buf)) ;;
  read_loop read_data_mac_one_apdu true MAC_READ_CHUNK (read_target length_ buf) file_no offset 0 (read_target length_ buf) buf.
Definition read_data_full (file_no offset length_ : Z) (buf : list Z) : Ch (nat * list Z) :=
  ch_lift (validate_request file_no offset length_ (length buf)) ;;
  read_loop read_data_full_one_apdu false FULL_READ_CHUNK (read_target length_ buf) file_no offset 0 (read_target length_ buf) buf.

(** ** write_data.rs *)

Definition write_data_mac_one_apdu (file_no offset : Z) (data : list Z) : Ch () :=
  body ← send_mac compat 0x8D 0x00 0x00 (data_header file_no offset (Z.of_nat (length data))) data;
  ch_ensure (bool_decide (body = [])) (SE_UnexpectedLength (Z.of_nat (length body)) 0).

Definition write_data_full_one_apdu (file_no offset : Z) (data : list Z) : Ch () :=
  let header := data_header file_no offset (Z.of_nat (length data)) in
  let padded_len := ((length data + 1 + (BLOCK - 1)) `div` BLOCK * BLOCK)%nat in
  ch_lift (validate_body_len (7 + padded_len + MAC_LEN)) ;;
  ct ← encrypt_command (m2_pad data);
  mac ← compute_cmd_mac 0x8D header ct;
  resp ← ch_transmit ([0x90; 0x8D; 0x00; 0x00; u8 (Z.of_nat (7 + length ct + MAC_LEN))] ++ header ++ ct ++ mac ++ [0x00]);
  native_ok resp ;;
  verify_response_mac_and_advance compat (ra_sw2 resp) (ra_data resp) ;; mret tt.

Fixpoint write_loop (one : Z → Z → list Z → Ch ()) (max fuel : nat) (file_no offset : Z) (data : list Z) : Ch () :=
  match data with
  | [] => mret tt
  | _ =>
      match fuel with
      | O => ch_panic
      | S fuel =>
          one file_no offset (take max data) ;;
          write_loop one max fuel file_no (u32 (offset + Z.of_nat (length (take max data)))) (drop max data)
      end
  end.

Definition write_data_mac (file_no offset : Z) (data : list Z) : Ch () :=
  ch_lift (validate_header file_no offset (length data)) ;;
  write_loop write_data_mac_one_apdu MAC_WRITE_CHUNK (length data) file_no offset data.
Definition write_data_full (file_no offset : Z) (data : list Z) : Ch () :=
  ch_lift (validate_header file_no offset (length data)) ;;
  write_loop write_data_full_one_apdu FULL_WRITE_CHUNK (length data) file_no offset data.

(** ** session/authenticated.rs *)

Definition read_file_with_mode (mode : CommMode) (file_no offset length_ : Z) (buf : list Z) : Ch (nat * list Z) :=
  match mode with
  | Plain => read_file_plain_chunked compat file_no offset length_ buf
  | Mac => read_data_mac file_no offset length_ buf
  | Full => read_data_full file_no offset length_ buf
  end.

Definition write_file_with_mode (mode : CommMode) (file_no offset : Z) (data : list Z) : Ch () :=
  match mode with
  | Plain => write_file_plain_chunked compat file_no offset data
  | Mac => write_data_mac file_no offset data
  | Full => write_data_full file_no offset data
  end.

(** The mode the card expects: plain when access is free and not by this key. *)
Definition effective_mode (me : KeyNumber) (one both : Access) (mode : CommMode) : CommMode :=
  let free_access := bool_decide (one = Access_Free) || bool_decide (both = Access_Free) in
  let mine := bool_decide (one = Access_Key me) || bool_decide (both = Access_Key me) in
  if free_access && negb mine then Plain else mode.

Definition read_file (file_no offset length_ : Z) (buf : list Z) : Ch (nat * list Z) :=
  settings ← wire_get_file_settings_mac compat file_no;
  s ← ch_state;
  let rights := fs_access_rights settings in
  read_file_with_mode (effective_mode (an_key_number s) (ar_read rights) (ar_read_write rights) (fs_comm_mode settings))
    file_no offset length_ buf.

Definition write_file (file_no offset : Z) (data : list Z) : Ch () :=
  settings ← wire_get_file_settings_mac compat file_no;
  s ← ch_state;
  let rights := fs_access_rights settings in
  write_file_with_mode (effective_mode (an_key_number s) (ar_write rights) (ar_read_write rights) (fs_comm_mode settings))
    file_no offset data.

(** ** The second authentication of a session *)

Definition finish_auth_non_first (key rnd_a rnd_b enc : list Z) : result AesSuite (SessionError (Fault TE)) :=
  if decide (rotate_right (aes_cbc_decrypt_n key zero_iv enc) = rnd_a) then Ok (suite_derive key rnd_a rnd_b)
  else Err SE_AuthenticationMismatch.

Definition authenticate_ev2_non_first (key_no : KeyNumber) (key rnd_a : list Z) : W AesSuite :=
  r1 ← wire_transmit [0x90; 0x77; 0x00; 0x00; 0x01; as_byte key_no; 0x00];
  let status := rc_status (RC_Desfire (ra_sw1 r1) (ra_sw2 r1)) in
  if decide (status = AdditionalFrame) then
    rnd_b_enc ← expect_length 16 (ra_data r1);
    let rnd_b := aes_cbc_decrypt_n key zero_iv rnd_b_enc in
    r2 ← wire_transmit (build_part2_apdu key rnd_a rnd_b);
    let code := RC_Desfire (ra_sw1 r2) (ra_sw2 r2) in
    if rc_ok code then
      resp_enc ← expect_length 16 (ra_data r2);
      wire_of (finish_auth_non_first key rnd_a rnd_b resp_enc)
    else fail (SE_ErrorResponse (rc_status code))
  else fail (SE_ErrorResponse status).

(** [authenticate] of an open session: new keys, the rest stays. *)
Definition session_authenticate (key_no : KeyNumber) (key rnd_a : list Z) : Ch () := λ w,
  match authenticate_ev2_non_first key_no key rnd_a w.2 with
  | (Ok suite, t) =>
      let a := an_auth_result w.1 in
      (Ok tt, (mkAuthenticated (mkAuthResult suite (ah_ti a) (ah_pd_cap2 a) (ah_pcd_cap2 a)) key_no (an_cmd_counter w.1), t))
  | (Err e, t) => (Err e, (w.1, t))
  end.
End files.

(** ** What holds of any card *)

(** Every option of a configuration fits its block, so [set_configuration] sends one
    command per option that was set and never panics. *)
Inductive configured : Configuration → Prop :=
| configured_new : configured Configuration_new
| configured_uid c : configured c → configured (with_random_uid_enabled c)
| configured_chained c : configured c → configured (with_chained_writing_disabled c)
| configured_capability i f c : configured c → configured (with_capability i f c)
| configured_tamper a c : configured c → configured (with_tag_tamper_enabled a c)
| configured_counter l d c : configured c → configured (with_failed_auth_counter_enabled l d c)
| configured_no_counter c : configured c → configured (with_failed_auth_counter_disabled c)
| configured_hw b c : configured c → configured (with_strong_back_modulation b c).

Definition option_fits (n : nat) (o : option (list Z)) : Prop := length (default (replicate n 0) o) = n.

Lemma set_byte_fits n i f o : option_fits n o → option_fits n (set_byte n i f o).
Proof. unfold option_fits, set_byte. simpl. by rewrite length_alter. Qed.

Lemma configured_fits c : configured c →
  option_fits 1 (cf_picc c) ∧ option_fits 2 (cf_secure_messaging c) ∧ option_fits 10 (cf_capability c) ∧
  option_fits 2 (cf_tag_tamper c) ∧ option_fits 5 (cf_failed_auth_counter c) ∧ option_fits 1 (cf_hw c).
Proof.
  induction 1; [done|..]; destruct IHconfigured as (? & ? & ? & ? & ? & ?); repeat split; simpl;
    first [done|by apply set_byte_fits].
Qed.

Lemma configuration_blocks c : configured c →
  Forall (λ p, (1 ≤ length p.2 ≤ 10)%nat ∧ is_Some (config_block p.2)) (configuration_build c).
Proof.
  intros (H1 & H2 & H3 & H4 & H5 & H6)%configured_fits. apply Forall_forall. intros [id d] Hin.
  assert (∃ n, (1 ≤ n ≤ 10)%nat ∧ length d = n) as (n & Hn & Hl).
  { unfold configuration_build in Hin. apply list_elem_of_omap in Hin as ((id' & [d'|]) & Hin & [= <- <-]).
    unfold option_fits in *. rewrite !elem_of_cons, elem_of_nil in Hin.
    repeat (destruct Hin as [[= _ Hd]|Hin]; [rewrite <-Hd in *; simpl in *; eexists; split; [|eassumption]; lia|]). done. }
  simpl. split; [lia|]. unfold config_block. rewrite decide_True by lia. eauto.
Qed.

(** An answer that passes carries the MAC of the open session at the next counter,
    and then both ends have counted; a refused one leaves the state. *)
Section answers.
  Context {C : AesCrypto} {T TE : Type}.

Lemma verified_answer rc body (s : Authenticated) (t : T) :
  match verify_response_mac_and_advance (TE := TE) false rc body (s, t) with
  | (Ok data, w) => w = (an_advance s, t) ∧
      body = data ++ suite_mac (an_suite s) ([rc] ++ le_bytes 2 (u16 (an_cmd_counter s + 1)) ++ an_ti s ++ data)
  | (Err _, w) => w = (s, t)
  end.
Proof.
  unfold verify_response_mac_and_advance. case_decide; [done|].
  set (n := (_ - _)%nat). unfold mbind, M_bind. simpl. unfold fill_mac_input. case_decide; simpl; [|done].
  case_decide as Hm; simpl; [|done]. split; [done|]. rewrite app_nil_r in Hm. by rewrite Hm, take_drop.
Qed.

(** A second authentication replaces the keys and the key number; transaction
    identifier, capabilities and counter are kept, whatever the card answers. *)
Lemma session_authenticate_keeps {AP : Apdu T TE} key_no key rnd_a (s : Authenticated) (t : T) :
  let '(r, (s', _)) := session_authenticate (TE := TE) key_no key rnd_a (s, t) in
  an_ti s' = an_ti s ∧ an_cmd_counter s' = an_cmd_counter s ∧
  match r with
  | Ok _ => an_key_number s' = key_no ∧ ∃ rnd_b, an_suite s' = suite_derive key rnd_a rnd_b
  | Err _ => s' = s
  end.
Proof.
  unfold session_authenticate. simpl. destruct (authenticate_ev2_non_first key_no key rnd_a t) as [[k|e] t'] eqn:E; [|done].
  do 3 (split; [done|]). revert E.
  unfold authenticate_ev2_non_first, mbind, M_bind, mret, M_ret, expect_length, wire_of, finish_auth_non_first.
  intros. repeat (case_match; simplify_eq/=; try done). by eexists.
Qed.
End answers.

(** The chunk loops check the offset once.  Offset and length each fit 24 bits, their
    sum need not: a later chunk then asks for a position near the start. *)
Lemma later_offset_wraps :
  let offset := 0xFFFF80 in
  (∀ w, validate_request (T := unit) (TE := unit) 2 offset 300 300 w = (Ok tt, w)) ∧
  data_header 2 (offset + Z.of_nat MAC_READ_CHUNK) 52 = data_header 2 0x78 52.
Proof. split; [done|]. by vm_compute. Qed.

(** ** A card that keeps a file under a session

    After sections 9.1 and 10.8 of the card's data sheet: a command is accepted when
    its MAC covers it under the keys, the identifier and the counter of the session;
    in full mode its data is encrypted; the answer carries a MAC at the next counter. *)

Record Vault := mkVault { va_session : Authenticated; va_mode : CommMode; va_file : Z; va_data : list Z }.

Section vault.
  Context {C : AesCrypto}.

Definition rsp_iv (s : Authenticated) : list Z :=
  suite_iv (an_suite s) Dir_Response (an_ti s) (u16 (an_cmd_counter s + 1)).

Definition vault_seal (v : Vault) (out : list Z) : list Z :=
  if decide (va_mode v = Full) then
    aes_cbc_encrypt_n (as_enc_key (an_suite (va_session v))) (rsp_iv (va_session v)) (m2_pad out)
  else out.

Definition vault_open (v : Vault) (payload : list Z) : option (list Z) :=
  if decide (va_mode v = Full) then
    plain ← aes_cbc_decrypt (as_enc_key (an_suite (va_session v))) (cmd_iv (va_session v)) payload;
    n ← strip_m2_padding plain;
    Some (take n plain)
  else Some payload.

Definition vault_refuse (sw2 : Z) (v : Vault) : Rapdu * Vault := (mkRapdu [] 0x91 sw2, v).
Definition vault_accept (v : Vault) (answer data : list Z) : Rapdu * Vault :=
  (mkRapdu (answer ++ rsp_mac (va_session v) answer) 0x91 0x00,
   mkVault (an_advance (va_session v)) (va_mode v) (va_file v) data).

Definition vault_do (v : Vault) (ins : Z) (header payload mac : list Z) : Rapdu * Vault :=
  let offset := Z.to_nat (le_val (sub_list 1 4 header)) in
  let len := Z.to_nat (le_val (sub_list 4 7 header)) in
  if decide (mac ≠ cmd_mac (va_session v) ins header payload) then vault_refuse 0x1E v
  else if decide (nth 0 header 0 ≠ va_file v) then vault_refuse 0xF0 v
  else if decide (length (va_data v) < offset + len)%nat then vault_refuse 0xBE v
  else if decide (ins = 0xAD) then
    vault_accept v (vault_seal v (sub_list offset (offset + len) (va_data v))) (va_data v)
  else if decide (ins = 0x8D) then
    match vault_open v payload with
    | Some plain => if decide (length plain = len) then vault_accept v [] (copy_at offset plain (va_data v))
                    else vault_refuse 0x7E v
    | None => vault_refuse 0x7E v
    end
  else vault_refuse 0x1C v.

Definition vault_handle (v : Vault) (apdu : list Z) : Rapdu * Vault :=
  let lc := Z.to_nat (nth 4 apdu 0) in
  let body := take lc (drop 5 apdu) in
  vault_do v (nth 1 apdu 0) (take 7 body) (sub_list 7 (lc - 8) body) (drop (lc - 8) body).

(** The file commands never ask the transport for a UID. *)
#[export] Instance vault_apdu : Apdu Vault () :=
  { apdu_transmit apdu := λ v, let '(r, v) := vault_handle v apdu in (Ok r, v);
    apdu_get_uid := fail (Fault_Error tt) }.
End vault.

(** ** The reader against it *)

Section in_step.
  Context {C : AesCrypto} `{!AesLaws C} (compat : bool).

Abbreviation Chv := (Ch (T := Vault) (TE := ())).

(** The card at the state of session [s], with [data] in the file. *)
Definition vault_at (v : Vault) (s : Authenticated) (data : list Z) : Vault := mkVault s (va_mode v) (va_file v) data.

Lemma vault_parse v cla ins p1 p2 lc header payload mac :
  length header = 7%nat → length mac = 8%nat → lc = Z.of_nat (length header + length payload + MAC_LEN) →
  vault_handle v ([cla; ins; p1; p2; lc] ++ header ++ payload ++ mac ++ [0x00]) = vault_do v ins header payload mac.
Proof.
  intros Hh Hm Hlc. unfold vault_handle. set (body := header ++ payload ++ mac ++ [0x00]).
  change (nth 4 ([cla; ins; p1; p2; lc] ++ body) 0) with lc. change (nth 1 ([cla; ins; p1; p2; lc] ++ body) 0) with ins.
  change (drop 5 ([cla; ins; p1; p2; lc] ++ body)) with body. unfold body.
  rewrite Hlc, Nat2Z.id. unfold MAC_LEN.
  rewrite (assoc_L (++) payload), (assoc_L (++) header).
  rewrite (take_app_exact (header ++ payload ++ mac)) by (rewrite !length_app; lia).
  f_equal.
  - by apply take_app_exact.
  - apply sub_list_mid; lia.
  - rewrite (assoc_L (++)). apply drop_app_exact. rewrite length_app. lia.
Qed.

Lemma data_header_length f offset len : length (data_header f offset len) = 7%nat.
Proof. done. Qed.

Lemma header_fields f offset len : 0 ≤ offset ≤ U24_MAX → 0 ≤ len ≤ U24_MAX →
  nth 0 (data_header f offset len) 0 = f ∧
  le_val (sub_list 1 4 (data_header f offset len)) = offset ∧
  le_val (sub_list 4 7 (data_header f offset len)) = len.
Proof.
  intros Ho Hl. unfold data_header. split; [done|]. split.
  - rewrite (sub_list_mid [f] (le_bytes 3 offset) (le_bytes 3 len)) by done. by apply le_val_u24.
  - rewrite (assoc_L (++)), <-(app_nil_r (le_bytes 3 len)).
    rewrite (sub_list_mid ([f] ++ le_bytes 3 offset) (le_bytes 3 len) []) by done. by apply le_val_u24.
Qed.

Lemma rsp_iv_array s : array 4 (an_ti s) → array 16 (rsp_iv s).
Proof. apply suite_iv_array. Qed.

(** One command: the card accepts and both ends count it. *)
Lemma vault_reads v s data f offset len :
  va_file v = f → 0 ≤ offset → 0 ≤ len → Z.of_nat (length data) ≤ U24_MAX → offset + len ≤ Z.of_nat (length data) →
  let out := sub_list (Z.to_nat offset) (Z.to_nat offset + Z.to_nat len) data in
  vault_do (vault_at v s data) 0xAD (data_header f offset len) [] (cmd_mac s 0xAD (data_header f offset len) []) =
  (mkRapdu (vault_seal (vault_at v s data) out ++ rsp_mac s (vault_seal (vault_at v s data) out)) 0x91 0x00,
   vault_at v (an_advance s) data).
Proof.
  intros Hf Ho Hl Hd Hin out. unfold vault_do. destruct (header_fields f offset len) as (H1 & H2 & H3); [lia..|].
  cbn [va_session va_file va_data vault_at]. rewrite H1, H2, H3, Hf.
  rewrite decide_False by (by intros []). rewrite decide_False by (by intros []). rewrite decide_False by lia.
  by rewrite decide_True.
Qed.

Lemma vault_writes v s data f offset part payload :
  va_file v = f → 0 ≤ offset → Z.of_nat (length data) ≤ U24_MAX → offset + Z.of_nat (length part) ≤ Z.of_nat (length data) →
  vault_open (vault_at v s data) payload = Some part →
  vault_do (vault_at v s data) 0x8D (data_header f offset (Z.of_nat (length part))) payload
    (cmd_mac s 0x8D (data_header f offset (Z.of_nat (length part))) payload) =
  (mkRapdu (rsp_mac s []) 0x91 0x00, vault_at v (an_advance s) (copy_at (Z.to_nat offset) part data)).
Proof.
  intros Hf Ho Hd Hin Hopen. unfold vault_do.
  destruct (header_fields f offset (Z.of_nat (length part))) as (H1 & H2 & H3); [lia..|].
  cbn [va_session va_file va_data vault_at]. rewrite H1, H2, H3, Hf, Nat2Z.id.
  rewrite decide_False by (by intros []). rewrite decide_False by (by intros []). rewrite decide_False by lia.
  rewrite decide_False by done. rewrite decide_True by done. cbn [vault_at] in Hopen. rewrite Hopen.
  by rewrite decide_True.
Qed.

Lemma runs_vault s apdu v r v' : vault_handle v apdu = (r, v') →
  runs (ch_transmit apdu : Chv _) (s, v) r (s, v').
Proof. unfold runs, ch_transmit. simpl. by intros ->. Qed.

Lemma sub_list_length a b (l : list Z) : (a ≤ b ≤ length l)%nat → length (sub_list a b l) = (b - a)%nat.
Proof. intros. unfold sub_list. rewrite length_take, length_drop. lia. Qed.

Lemma sub_list_bytes a b l : bytes l → bytes (sub_list a b l).
Proof. intros. unfold sub_list. auto with bolty. Qed.

Lemma copy_at_all src dst : length src = length dst → copy_at 0 src dst = src.
Proof. intros H. unfold copy_at. simpl. rewrite drop_ge by lia. by rewrite app_nil_r. Qed.

(** The head of both read commands, up to the payload of the answer. *)
Lemma runs_read_head {A} v s data f offset len (k : list Z → Chv A) a w' :
  array 4 (an_ti s) → va_file v = f → 0 ≤ offset → 0 ≤ len ≤ 255 → Z.of_nat (length data) ≤ U24_MAX →
  offset + len ≤ Z.of_nat (length data) →
  let header := data_header f offset len in
  let answer := vault_seal (vault_at v s data) (sub_list (Z.to_nat offset) (Z.to_nat offset + Z.to_nat len) data) in
  (length answer ≤ 255)%nat →
  runs (k answer) (an_advance s, vault_at v (an_advance s) data) a w' →
  runs (mac ← compute_cmd_mac 0xAD header [];
        resp ← ch_transmit ([0x90; 0xAD; 0x00; 0x00; 0x0F] ++ header ++ mac ++ [0x00]);
        native_ok resp ;;
        data ← verify_response_mac_and_advance compat (ra_sw2 resp) (ra_data resp);
        k data) (s, vault_at v s data) a w'.
Proof.
  intros Ht Hf Ho Hl Hd Hin header answer Ha Hk.
  eapply runs_bind; [apply runs_mac; [done|simpl; lia]|].
  eapply runs_bind.
  { apply runs_vault. rewrite <-(app_nil_l (cmd_mac s 0xAD header [] ++ [0x00])).
    rewrite (vault_parse _ 0x90 0xAD _ _ _ header [] (cmd_mac s 0xAD header [])) by done.
    apply vault_reads; [done|lia..]. }
  eapply runs_bind; [apply runs_native|]. fold answer. cbn [ra_sw2 ra_data].
  by eapply runs_bind; [apply runs_verify_response|].
Qed.

Lemma runs_read_mac v s data f offset (n : nat) buf :
  va_mode v = Mac → va_file v = f → array 4 (an_ti s) → Z.of_nat (length data) ≤ U24_MAX →
  0 ≤ offset → (0 < n ≤ MAC_READ_CHUNK)%nat → length buf = n → offset + Z.of_nat n ≤ Z.of_nat (length data) →
  runs (read_data_mac_one_apdu compat f offset (Z.of_nat n) buf : Chv _) (s, vault_at v s data)
    (n, sub_list (Z.to_nat offset) (Z.to_nat offset + n) data) (an_advance s, vault_at v (an_advance s) data).
Proof.
  intros Hm Hf Ht Hd Ho Hn Hb Hin. unfold MAC_READ_CHUNK in Hn. unfold read_data_mac_one_apdu.
  set (out := sub_list (Z.to_nat offset) (Z.to_nat offset + n) data).
  assert (length out = n) as Hlo by (unfold out; rewrite sub_list_length; lia).
  eapply runs_read_head; [done|done|lia..| |].
  { unfold vault_seal. cbn [va_mode vault_at]. rewrite Hm, decide_False, Nat2Z.id by done. fold out. lia. }
  unfold vault_seal. cbn [va_mode vault_at]. rewrite Hm, decide_False, Nat2Z.id by done. fold out.
  eapply runs_bind. { unfold ch_ensure. rewrite bool_decide_true; [apply runs_ret|].
    unfold want_plain_bytes, READ_DATA_RESP_CAP. rewrite decide_False by lia. lia. }
  rewrite copy_at_all, Hlo by lia. apply runs_ret.
Qed.

(** A padded chunk, encrypted: its blocks, and that it is read back. *)
Lemma padded_seal k iv raw : array 16 iv → bytes raw →
  ∃ n i, let ct := aes_cbc_encrypt_n k iv (m2_pad raw) in
  array (16 * S n) (m2_pad raw) ∧ array (16 * S n) ct ∧ m2_pad raw = raw ++ [0x80] ++ replicate i 0 ∧
  (16 * n ≤ length raw)%nat ∧ aes_cbc_encrypt k iv (m2_pad raw) = Some ct ∧ aes_cbc_decrypt k iv ct = Some (m2_pad raw).
Proof.
  intros Hi Hr. destruct (m2_pad_array _ Hr) as (n & i & Hp & He & Hn). exists n, i. simpl.
  destruct (aes_cbc_n_roundtrip k iv n _ Hi Hp) as (H1 & H2 & H3). done.
Qed.

Lemma strip_padded raw i pad : pad = raw ++ [0x80] ++ replicate i 0 →
  strip_m2_padding pad = Some (length raw) ∧ take (length raw) pad = raw.
Proof. intros ->. split; [apply strip_m2_padded|apply take_app_length]. Qed.

Lemma runs_read_full v s data f offset (n : nat) buf :
  va_mode v = Full → va_file v = f → array 4 (an_ti s) → bytes data → Z.of_nat (length data) ≤ U24_MAX →
  0 ≤ offset → (0 < n ≤ FULL_READ_CHUNK)%nat → length buf = n → offset + Z.of_nat n ≤ Z.of_nat (length data) →
  runs (read_data_full_one_apdu compat f offset (Z.of_nat n) buf : Chv _) (s, vault_at v s data)
    (n, sub_list (Z.to_nat offset) (Z.to_nat offset + n) data) (an_advance s, vault_at v (an_advance s) data).
Proof.
  intros Hm Hf Ht Hb Hd Ho Hn Hlb Hin. unfold FULL_READ_CHUNK in Hn. unfold read_data_full_one_apdu.
  set (out := sub_list (Z.to_nat offset) (Z.to_nat offset + n) data).
  assert (length out = n) as Hlo by (unfold out; rewrite sub_list_length; lia).
  assert (vault_seal (vault_at v s data) (sub_list (Z.to_nat offset) (Z.to_nat offset + Z.to_nat (Z.of_nat n)) data) =
    aes_cbc_encrypt_n (as_enc_key (an_suite s)) (rsp_iv s) (m2_pad out)) as Hseal.
  { unfold vault_seal. cbn [va_mode vault_at]. by rewrite Hm, decide_True, Nat2Z.id. }
  destruct (padded_seal (as_enc_key (an_suite s)) (rsp_iv s) out) as (m & i & Hp & [Hct _] & Hpad & Hle & _ & Hdec);
    [by apply rsp_iv_array|by apply sub_list_bytes|].
  eapply runs_read_head; [done|done|lia..| |]; rewrite Hseal; [rewrite Hct; lia|].
  destruct (strip_padded _ _ _ Hpad) as [Hs1 Hs2].
  eapply runs_bind. { unfold ch_ensure. rewrite bool_decide_true; [apply runs_ret|]. by eapply aligned. }
  eapply runs_bind.
  { unfold decrypt_response. eapply runs_bind; [done|]. simpl. unfold suite_decrypt.
    change (suite_iv _ _ _ _) with (rsp_iv s). change (an_suite (an_advance s)) with (an_suite s). rewrite Hdec. apply runs_ret. }
  rewrite Hs1, Hlo.
  eapply runs_bind. { unfold ch_ensure. rewrite bool_decide_true by auto. apply runs_ret. }
  eapply runs_bind. { unfold ch_ensure. rewrite bool_decide_true by lia. apply runs_ret. }
  rewrite <-Hlo at 2. rewrite Hs2, copy_at_all by lia. apply runs_ret.
Qed.

Lemma runs_write_mac v s data f offset part :
  va_mode v = Mac → va_file v = f → array 4 (an_ti s) → Z.of_nat (length data) ≤ U24_MAX →
  0 ≤ offset → (0 < length part ≤ MAC_WRITE_CHUNK)%nat → offset + Z.of_nat (length part) ≤ Z.of_nat (length data) →
  runs (write_data_mac_one_apdu compat f offset part : Chv _) (s, vault_at v s data) tt
    (an_advance s, vault_at v (an_advance s) (copy_at (Z.to_nat offset) part data)).
Proof.
  intros Hm Hf Ht Hd Ho Hn Hin. unfold MAC_WRITE_CHUNK in Hn. unfold write_data_mac_one_apdu, send_mac.
  set (header := data_header f offset (Z.of_nat (length part))).
  eapply (runs_bind _ _ _ []); [|apply runs_ret].
  eapply runs_bind. { unfold ch_ensure. rewrite bool_decide_true; [apply runs_ret|].
    change (length header) with 7%nat. unfold MAC_LEN, MAX_APDU_BODY. lia. }
  eapply runs_bind; [apply runs_mac; [done|change (length header) with 7%nat; lia]|].
  eapply runs_bind.
  { apply runs_vault. rewrite (vault_parse _ 0x90 0x8D _ _ _ header part) by done.
    apply vault_writes; [done|lia..|]. unfold vault_open. cbn [va_mode vault_at]. by rewrite Hm, decide_False. }
  eapply runs_bind; [apply runs_native|]. cbn [ra_sw2 ra_data].
  eapply runs_bind; [apply (runs_verify_response _ s []); [done|simpl; lia]|].
  eapply runs_bind; [apply runs_ret|]. apply runs_ret.
Qed.

Lemma runs_write_full v s data f offset part :
  va_mode v = Full → va_file v = f → array 4 (an_ti s) → bytes part → Z.of_nat (length data) ≤ U24_MAX →
  0 ≤ offset → (0 < length part ≤ FULL_WRITE_CHUNK)%nat → offset + Z.of_nat (length part) ≤ Z.of_nat (length data) →
  runs (write_data_full_one_apdu compat f offset part : Chv _) (s, vault_at v s data) tt
    (an_advance s, vault_at v (an_advance s) (copy_at (Z.to_nat offset) part data)).
Proof.
  intros Hm Hf Ht Hb Hd Ho Hn Hin. unfold FULL_WRITE_CHUNK in Hn. unfold write_data_full_one_apdu.
  set (header := data_header f offset (Z.of_nat (length part))).
  destruct (padded_seal (as_enc_key (an_suite s)) (cmd_iv s) part) as (m & i & [Hlp Hbp] & [Hct _] & Hpad & Hle & Henc & Hdec);
    [by apply cmd_iv_array|done|].
  destruct (strip_padded _ _ _ Hpad) as [Hs1 Hs2].
  assert ((length part + 1 + (BLOCK - 1)) / BLOCK * BLOCK = length (m2_pad part))%nat as ->.
  { unfold m2_pad. rewrite !length_app, length_replicate. simpl length. unfold BLOCK. change (16 - 1)%nat with 15%nat.
    pose proof (Nat.div_mod_eq (length part + 1 + 15) 16). pose proof (Nat.mod_upper_bound (length part + 1 + 15) 16). lia. }
  eapply runs_bind. { apply runs_ch_lift. unfold validate_body_len, MAC_LEN, MAX_APDU_BODY. rewrite decide_False by lia. apply runs_ret. }
  eapply runs_bind; [apply (runs_encrypt _ m); [done|by split]|]. fold (sealed s (m2_pad part)) in Hct, Hdec.
  eapply runs_bind; [apply runs_mac; [done|change (length header) with 7%nat; lia]|].
  eapply runs_bind.
  { apply runs_vault. rewrite (vault_parse _ 0x90 0x8D _ _ _ header (sealed s (m2_pad part))); [|done|done|].
    2:{ change (length header) with 7%nat. unfold u8. rewrite Z.mod_small; [done|]. unfold MAC_LEN. lia. }
    apply vault_writes; [done|lia..|]. unfold vault_open. cbn [va_mode va_session vault_at].
    rewrite Hm, decide_True, Hdec by done. simpl. by rewrite Hs1; simpl; rewrite Hs2. }
  eapply runs_bind; [apply runs_native|]. cbn [ra_sw2 ra_data].
  eapply runs_bind; [apply (runs_verify_response _ s []); [done|simpl; lia]|]. apply runs_ret.
Qed.

(** [n] bytes in chunks of at most [max]. *)
Definition rounds (max n : nat) : nat := (n + (max - 1)) `div` max.

Lemma rounds_0 max : (0 < max)%nat → rounds max 0 = 0%nat.
Proof. intros. unfold rounds. apply Nat.div_small. lia. Qed.

Lemma rounds_step max n : (0 < max)%nat → (0 < n)%nat → rounds max n = S (rounds max (n - Nat.min n max)).
Proof.
  intros Hm Hn. unfold rounds. destruct (Nat.le_ge_cases n max) as [H|H].
  - rewrite Nat.min_l, Nat.sub_diag, (Nat.div_small (0 + _)) by lia.
    replace (n + (max - 1))%nat with ((n - 1) + 1 * max)%nat by lia.
    rewrite Nat.div_add, Nat.div_small by lia. done.
  - rewrite Nat.min_r by lia. replace (n + (max - 1))%nat with ((n - max + (max - 1)) + 1 * max)%nat by lia.
    rewrite Nat.div_add by lia. lia.
Qed.

Definition advanced (n : nat) (s : Authenticated) : Authenticated := Nat.iter n an_advance s.

Lemma advanced_S n s : advanced (S n) s = advanced n (an_advance s).
Proof. unfold advanced. apply Nat.iter_succ_r. Qed.

Lemma advanced_ti n s : an_ti (advanced n s) = an_ti s.
Proof. unfold advanced. by induction n. Qed.

Lemma u32_small x : 0 ≤ x ≤ U24_MAX → u32 x = x.
Proof. intros. unfold u32, U24_MAX in *. apply Z.mod_small. lia. Qed.

Lemma copy_at_next p a b q n : length p = n → length a = length b →
  copy_at n a (p ++ b ++ q) = p ++ a ++ q.
Proof.
  intros <- H. unfold copy_at. rewrite take_app_length, H, (assoc_L (++) p b q). by rewrite <-length_app, drop_app_length.
Qed.

Lemma sub_list_split a b c (l : list Z) : (a ≤ b ≤ c)%nat → sub_list a c l = sub_list a b l ++ sub_list b c l.
Proof.
  intros. unfold sub_list. replace (c - a)%nat with ((b - a) + (c - b))%nat by lia.
  rewrite <-take_take_drop, drop_drop. do 3 f_equal. lia.
Qed.

(** The loop of reads, given what one round does. *)
Lemma runs_vault_read_loop one eof max v data f :
  (∀ s offset n buf, array 4 (an_ti s) → 0 ≤ offset → (0 < n ≤ max)%nat → length buf = n →
    offset + Z.of_nat n ≤ Z.of_nat (length data) →
    runs (one f offset (Z.of_nat n) buf : Chv _) (s, vault_at v s data)
      (n, sub_list (Z.to_nat offset) (Z.to_nat offset + n) data) (an_advance s, vault_at v (an_advance s) data)) →
  (0 < max)%nat → Z.of_nat (length data) ≤ U24_MAX →
  ∀ fuel s offset done_ rest, array 4 (an_ti s) → 0 ≤ offset → (length rest ≤ fuel)%nat →
    offset + Z.of_nat (length rest) ≤ Z.of_nat (length data) →
    let s' := advanced (rounds max (length rest)) s in
    runs (read_loop one eof max fuel f offset (length done_) (length done_ + length rest) (done_ ++ rest))
      (s, vault_at v s data)
      ((length done_ + length rest)%nat, done_ ++ sub_list (Z.to_nat offset) (Z.to_nat offset + length rest) data)
      (s', vault_at v s' data).
Proof.
  intros Hone Hmax Hd. induction fuel as [|fuel IH]; intros s offset done_ rest Ht Ho Hf Hin; simpl read_loop.
  { destruct rest; [|simpl in Hf; lia]. rewrite decide_True by (simpl; lia).
    rewrite rounds_0, !Nat.add_0_r by done. unfold sub_list. rewrite Nat.sub_diag, take_0. apply runs_ret. }
  destruct (decide (length rest = 0%nat)) as [E|E].
  { destruct rest; [|done]. rewrite decide_True by (simpl; lia).
    simpl length. rewrite rounds_0, !Nat.add_0_r by done. unfold sub_list. rewrite Nat.sub_diag, take_0. apply runs_ret. }
  rewrite decide_False by lia. replace (_ + _ - _)%nat with (length rest) by lia.
  remember (Nat.min (length rest) max) as n eqn:Hn.
  assert (∃ r1 r2, rest = r1 ++ r2 ∧ length r1 = n) as (r1 & r2 & Hr & H1).
  { exists (take n rest), (drop n rest). split; [by rewrite take_drop|rewrite length_take; lia]. }
  assert (length rest = (n + length r2)%nat) as H3 by (rewrite Hr, length_app; lia).
  rewrite H3 in Hn, Hin, Hf, E |- *. clear H3. subst rest.
  eapply runs_bind. { rewrite (get_range_mid done_ r1 r2) by lia. apply runs_ret. }
  eapply runs_bind; [apply Hone; [done..|lia|done|lia]|]. cbn [fst snd].
  rewrite bool_decide_false, andb_false_r by lia.
  set (d1 := sub_list _ _ data). assert (length d1 = n) as Hd1 by (unfold d1; rewrite sub_list_length; lia).
  rewrite copy_at_next by lia. rewrite u32_small by (unfold U24_MAX in *; lia).
  rewrite (assoc_L (++) done_ d1 r2).
  specialize (IH (an_advance s) (offset + Z.of_nat n) (done_ ++ d1) r2 Ht ltac:(lia) ltac:(lia) ltac:(lia)).
  simpl in IH. rewrite length_app, Hd1 in IH.
  rewrite (rounds_step max (n + length r2)) by lia. rewrite advanced_S.
  rewrite <-Hn. replace (n + length r2 - n)%nat with (length r2) by lia.
  rewrite !(Nat.add_assoc (length done_)). rewrite (sub_list_split _ (Z.to_nat offset + n)) by lia. fold d1.
  rewrite (assoc_L (++)). replace (Z.to_nat (offset + Z.of_nat n)) with (Z.to_nat offset + n)%nat in IH by lia.
  by rewrite (Nat.add_assoc (Z.to_nat offset)).
Qed.

Lemma copy_at_twice a1 a2 (o : nat) l : (o + length (a1 ++ a2) ≤ length l)%nat →
  copy_at (o + length a1) a2 (copy_at o a1 l) = copy_at o (a1 ++ a2) l.
Proof.
  intros H. rewrite length_app in H. unfold copy_at at 1 2. set (p := take o l).
  assert (length p = o) as Hp by (unfold p; rewrite length_take; lia).
  rewrite (assoc_L (++) p a1), take_app_exact by (rewrite length_app; lia).
  rewrite drop_app_ge by (rewrite length_app; lia). rewrite drop_drop, length_app, Hp.
  unfold copy_at. rewrite length_app, <-!(assoc_L (++)). do 4 f_equal. lia.
Qed.

(** The loop of writes, given what one round does. *)
Lemma runs_vault_write_loop one max v f :
  (∀ s data offset part, array 4 (an_ti s) → bytes part → Z.of_nat (length data) ≤ U24_MAX → 0 ≤ offset →
    (0 < length part ≤ max)%nat → offset + Z.of_nat (length part) ≤ Z.of_nat (length data) →
    runs (one f offset part : Chv _) (s, vault_at v s data) tt
      (an_advance s, vault_at v (an_advance s) (copy_at (Z.to_nat offset) part data))) →
  (0 < max)%nat →
  ∀ fuel s data offset todo, array 4 (an_ti s) → bytes todo → Z.of_nat (length data) ≤ U24_MAX → 0 ≤ offset →
    (length todo ≤ fuel)%nat → offset + Z.of_nat (length todo) ≤ Z.of_nat (length data) →
    let s' := advanced (rounds max (length todo)) s in
    runs (write_loop one max fuel f offset todo) (s, vault_at v s data) tt
      (s', vault_at v s' (copy_at (Z.to_nat offset) todo data)).
Proof.
  intros Hone Hmax. induction fuel as [|fuel IH]; intros s data offset todo Ht Hb Hd Ho Hf Hin;
    (destruct (decide (todo = [])) as [->|Hne];
      [unfold copy_at; simpl length; rewrite rounds_0, Nat.add_0_r by done; simpl; rewrite take_drop; apply runs_ret|]).
  { destruct todo; [done|simpl in Hf; lia]. }
  assert (0 < length todo)%nat by (destruct todo; [done|simpl; lia]).
  assert (write_loop one max (S fuel) f offset todo =
    (one f offset (take max todo) ;; write_loop one max fuel f (u32 (offset + Z.of_nat (length (take max todo)))) (drop max todo))) as ->
    by (by destruct todo).
  assert (∃ r1 r2, todo = r1 ++ r2 ∧ take max todo = r1 ∧ drop max todo = r2 ∧ length r1 = Nat.min (length todo) max)
    as (r1 & r2 & -> & -> & -> & H1).
  { exists (take max todo), (drop max todo). rewrite take_drop, length_take. split_and!; [done..|lia]. }
  apply Forall_app in Hb as [Hb1 Hb2]. rewrite length_app in *.
  eapply runs_bind; [apply Hone; [done..|lia|lia|lia]|].
  rewrite u32_small by (unfold U24_MAX in *; lia).
  assert (length (copy_at (Z.to_nat offset) r1 data) = length data) as Hlen by (apply copy_at_length; lia).
  specialize (IH (an_advance s) (copy_at (Z.to_nat offset) r1 data) (offset + Z.of_nat (length r1)) r2 Ht Hb2).
  rewrite Hlen in IH. specialize (IH Hd ltac:(lia) ltac:(lia) ltac:(lia)). simpl in IH.
  replace (Z.to_nat (offset + Z.of_nat (length r1))) with (Z.to_nat offset + length r1)%nat in IH by lia.
  rewrite copy_at_twice in IH by (rewrite length_app; lia).
  rewrite (rounds_step max (length r1 + length r2)), <-H1 by lia. rewrite advanced_S.
  by replace (length r1 + length r2 - length r1)%nat with (length r2) by lia.
Qed.

Definition write_chunk (m : CommMode) : nat := match m with Plain => PLAIN_WRITE_CHUNK | Mac => MAC_WRITE_CHUNK | Full => FULL_WRITE_CHUNK end.
Definition read_chunk (m : CommMode) : nat := match m with Plain => PLAIN_READ_CHUNK | Mac => MAC_READ_CHUNK | Full => FULL_READ_CHUNK end.

Lemma runs_vault_write v s file data offset :
  va_mode v ≠ Plain → va_file v ≤ 0x1F → array 4 (an_ti s) → Z.of_nat (length file) ≤ U24_MAX →
  bytes data → data ≠ [] → 0 ≤ offset → offset + Z.of_nat (length data) ≤ Z.of_nat (length file) →
  let s' := advanced (rounds (write_chunk (va_mode v)) (length data)) s in
  runs (write_file_with_mode compat (va_mode v) (va_file v) offset data : Chv _) (s, vault_at v s file) tt
    (s', vault_at v s' (copy_at (Z.to_nat offset) data file)).
Proof.
  intros Hm Hf Ht Hl Hb Hne Ho Hin.
  assert (length data ≠ 0%nat) as Hn by (by destruct data).
  assert (runs (ch_lift (validate_header (va_file v) offset (length data)) : Chv ()) (s, vault_at v s file) tt
    (s, vault_at v s file)) as Hv.
  { apply runs_ch_lift. unfold validate_header. rewrite !decide_False by lia. apply runs_ret. }
  destruct (va_mode v) eqn:E; [done|..]; simpl.
  - eapply runs_bind; [exact Hv|]. apply runs_vault_write_loop; [|unfold MAC_WRITE_CHUNK; lia|done..|lia|lia].
    intros. by apply runs_write_mac.
  - eapply runs_bind; [exact Hv|]. apply runs_vault_write_loop; [|unfold FULL_WRITE_CHUNK; lia|done..|lia|lia].
    intros. by apply runs_write_full.
Qed.

Lemma runs_vault_read v s file offset buf :
  va_mode v ≠ Plain → va_file v ≤ 0x1F → array 4 (an_ti s) → bytes file → Z.of_nat (length file) ≤ U24_MAX →
  buf ≠ [] → 0 ≤ offset → offset + Z.of_nat (length buf) ≤ Z.of_nat (length file) →
  let s' := advanced (rounds (read_chunk (va_mode v)) (length buf)) s in
  runs (read_file_with_mode compat (va_mode v) (va_file v) offset (Z.of_nat (length buf)) buf : Chv _) (s, vault_at v s file)
    (length buf, sub_list (Z.to_nat offset) (Z.to_nat offset + length buf) file) (s', vault_at v s' file).
Proof.
  intros Hm Hf Ht Hb Hl Hne Ho Hin.
  assert (length buf ≠ 0%nat) as Hn by (by destruct buf).
  assert (runs (ch_lift (validate_request (va_file v) offset (Z.of_nat (length buf)) (length buf)) : Chv ())
    (s, vault_at v s file) tt (s, vault_at v s file)) as Hv.
  { apply runs_ch_lift. unfold validate_request. rewrite !decide_False by lia. apply runs_ret. }
  assert (read_target (Z.of_nat (length buf)) buf = length buf) as Htg.
  { unfold read_target. rewrite decide_False by lia. lia. }
  destruct (va_mode v) eqn:E; [done|..]; simpl.
  - eapply runs_bind; [exact Hv|]. rewrite Htg.
    refine (runs_vault_read_loop (read_data_mac_one_apdu compat) true MAC_READ_CHUNK v file (va_file v) _ _ Hl (length buf) s offset [] buf Ht Ho _ Hin);
      [|unfold MAC_READ_CHUNK; lia|lia]. intros. by apply runs_read_mac.
  - eapply runs_bind; [exact Hv|]. rewrite Htg.
    refine (runs_vault_read_loop (read_data_full_one_apdu compat) false FULL_READ_CHUNK v file (va_file v) _ _ Hl (length buf) s offset [] buf Ht Ho _ Hin);
      [|unfold FULL_READ_CHUNK; lia|lia]. intros. by apply runs_read_full.
Qed.

Lemma sub_list_copy o d (l : list Z) : (o + length d ≤ length l)%nat → sub_list o (o + length d) (copy_at o d l) = d.
Proof. intros. unfold copy_at. apply sub_list_mid; rewrite length_take; lia. Qed.

Lemma copy_at_bytes o d l : bytes d → bytes l → bytes (copy_at o d l).
Proof. intros. unfold copy_at. auto with bolty. Qed.

(** C32. A file under the protection of a session, in MAC or in full mode, against a
    card after the data sheet: WriteData of any length succeeds and the card's file
    holds the data at its place and is otherwise unchanged; ReadData of any range
    then returns exactly the card's bytes; reading the range that was written
    returns what was written.  Reader and card agree on the session throughout, and
    the counter has moved by the number of chunks. *)
Theorem secured_file_roundtrip (v : Vault) (s : Authenticated) (file data : list Z) (offset : Z) :
  va_mode v ≠ Plain → va_file v ≤ 0x1F → array 4 (an_ti s) → bytes file → Z.of_nat (length file) ≤ U24_MAX →
  bytes data → data ≠ [] → 0 ≤ offset → offset + Z.of_nat (length data) ≤ Z.of_nat (length file) →
  let file' := copy_at (Z.to_nat offset) data file in
  let s1 := advanced (rounds (write_chunk (va_mode v)) (length data)) s in
  runs (write_file_with_mode compat (va_mode v) (va_file v) offset data : Chv _) (s, vault_at v s file) tt
    (s1, vault_at v s1 file') ∧
  (∀ from buf, buf ≠ [] → 0 ≤ from → from + Z.of_nat (length buf) ≤ Z.of_nat (length file) →
    let s2 := advanced (rounds (read_chunk (va_mode v)) (length buf)) s1 in
    let out := sub_list (Z.to_nat from) (Z.to_nat from + length buf) file' in
    runs (read_file_with_mode compat (va_mode v) (va_file v) from (Z.of_nat (length buf)) buf : Chv _)
      (s1, vault_at v s1 file') (length buf, out) (s2, vault_at v s2 file') ∧
    (from = offset → length buf = length data → out = data)).
Proof.
  intros Hm Hf Ht Hb Hl Hd Hne Ho Hin file' s1.
  assert (length file' = length file) as Hlen by (apply copy_at_length; lia).
  split; [by apply runs_vault_write|]. intros from buf Hbuf Hfrom Hin2 s2 out. split.
  - apply runs_vault_read; try done; [unfold s1; by rewrite advanced_ti|by apply copy_at_bytes|lia..].
  - intros -> Hlb. unfold out. rewrite Hlb. apply sub_list_copy. lia.
Qed.
End in_step.

(** 300 bytes in full mode, written in two chunks and read back from the middle. *)
Lemma secured_file_roundtrip_witness :
  let s := mkAuthenticated (mkAuthResult (suite_derive (C := toy_crypto) (replicate 16 1) (replicate 16 2) (replicate 16 3))
             [1; 2; 3; 4] [] []) Key0 65535 in
  let v := mkVault s Full 3 [] in
  let file := replicate 400 7 in
  let s1 := advanced 2 s in
  an_cmd_counter s1 = 1 ∧
  runs (write_file_with_mode (C := toy_crypto) (AP := vault_apdu (C := toy_crypto)) false Full 3 20 (replicate 300 9)) (s, vault_at v s file) tt
    (s1, vault_at v s1 (copy_at 20 (replicate 300 9) file)) ∧
  runs (read_file_with_mode (C := toy_crypto) (AP := vault_apdu (C := toy_crypto)) false Full 3 10 20 (replicate 20 0)) (s1, vault_at v s1 (copy_at 20 (replicate 300 9) file))
    (20%nat, replicate 10 7 ++ replicate 10 9) (advanced 1 s1, vault_at v (advanced 1 s1) (copy_at 20 (replicate 300 9) file)).
Proof.
  intros s v file s1. split; [by vm_compute|].
  destruct (@secured_file_roundtrip toy_crypto toy_laws false v s file (replicate 300 9) 20) as [Hw Hr];
    [done|done|apply (bool_decide_unpack _); vm_compute; exact I..|done|by vm_compute|].
  split; [exact Hw|].
  by destruct (Hr 10 (replicate 20 0)) as [H _].
Defined.
