(* ===== verification/HighLevel.v ===== *)
(** * Keys from a master key, and the verifier with a replay counter

    [vendor/ntag424/src]: key diversification after AN10922
    ([crypto/key_diversification.rs]), the keys of a provisioned tag
    ([high_level/provision.rs], [high_level/mod.rs]) and the application verifier,
    which checks a message with [SdmVerify.v] and refuses read counters it has seen
    ([high_level/verification.rs]). *)

From S2P Require Import Prelude Str Hex Derivation AesRef Picc NtagTypes FileSettings Channel Lrp SdmVerify.
From Stdlib Require Import Sorting.Sorted.

(** ** crypto/key_diversification.rs *)

Definition DIV_CONST_AES128 : Z := 0x01.
Definition RB : Z := 0x87.
Definition NTAG424_AID : list Z := [0xD2; 0x76; 0x00; 0x00; 0x85; 0x01; 0x01].
Definition MAX_SYSTEM_ID_LEN : nat := 16.
Definition SYSTEM_IDENTIFIER : list Z := lit "NTAG424DNA".

(** The loop runs from the last byte to the first. *)
Fixpoint double_rev (carry : Z) (l : list Z) : list Z :=
  match l with
  | [] => []
  | b :: l => Z.lor (u8 (Z.shiftl b 1)) carry :: double_rev (Z.shiftr b 7) l
  end.

Definition double (block : list Z) : list Z :=
  let out := reverse (double_rev 0 (reverse block)) in
  if decide (Z.land (nth 0 block 0) 0x80 ≠ 0) then alter (λ b, Z.lxor b RB) 15%nat out else out.

Section keys.
  Context {C : AesCrypto}.

(** [None] is the panic of the assertion. *)
Definition diversify_aes128 (master_key m : list Z) : option (list Z) :=
  if decide (m ≠ [] ∧ length m ≤ 31)%nat then
    let k1 := double (aes_block master_key (replicate 16 0)) in
    let k2 := double k1 in
    let padded := bool_decide (length m < 31)%nat in
    let d := [DIV_CONST_AES128] ++ m ++ (if padded then [0x80] ++ replicate (30 - length m) 0 else []) in
    let last := xor_bytes (drop 16 d) (if padded then k2 else k1) in
    let state := aes_block master_key (xor_bytes (replicate 16 0) (take 16 d)) in
    Some (aes_block master_key (xor_bytes state last))
  else None.

Definition diversify_ntag424 (master_key uid : list Z) (key_number : KeyNumber) (system_identifier : list Z) :
    option (list Z) :=
  if decide (length system_identifier ≤ MAX_SYSTEM_ID_LEN)%nat then
    diversify_aes128 master_key (uid ++ NTAG424_AID ++ [as_byte key_number] ++ system_identifier)
  else None.

(** ** high_level/mod.rs, provision.rs *)

Definition picc_key (master : list Z) : option (list Z) := diversify_aes128 master (lit "PICC").

Definition get_key (master_key : list Z) (key_number : KeyNumber) (uid system_identifier : list Z) : option (list Z) :=
  match key_number with
  | Key1 => picc_key master_key
  | k => diversify_ntag424 master_key uid k system_identifier
  end.

Definition derive_keys_for_uid (master_key uid : list Z) : option (list (list Z)) :=
  key1 ← picc_key master_key;
  key0 ← diversify_ntag424 master_key uid Key0 SYSTEM_IDENTIFIER;
  key2 ← diversify_ntag424 master_key uid Key2 SYSTEM_IDENTIFIER;
  key3 ← diversify_ntag424 master_key uid Key3 SYSTEM_IDENTIFIER;
  key4 ← diversify_ntag424 master_key uid Key4 SYSTEM_IDENTIFIER;
  Some [key0; key1; key2; key3; key4].
End keys.

(** ** high_level/verification.rs *)

(** [ReadCounterStorage]. *)
Class CounterStore (S E : Type) := {
  store_get : list Z → M S E Z;
  store_set : list Z → Z → M S E () }.

Inductive VerificationError (E : Type) :=
| VE_TagValidationFailed (e : FileSettingsError)
| VE_SdmError (e : SdmError)
| VE_StoreError (e : E)
| VE_ReadCounterTooLow (stored actual : Z)
| VE_NoUid
| VE_PrefixMismatch.
Arguments VE_TagValidationFailed {E} _.
Arguments VE_SdmError {E} _.
Arguments VE_StoreError {E} _.
Arguments VE_ReadCounterTooLow {E} _ _.
Arguments VE_NoUid {E}.
Arguments VE_PrefixMismatch {E}.

Record ApplicationVerifier := mkApplicationVerifier {
  ap_verifier : Verifier;
  ap_prefix : option (list Z);
  ap_system_identifier : list Z }.

Record VerifiedTagReadout := mkVerifiedTagReadout {
  vt_uid : list Z; vt_read_ctr : option Z; vt_tamper_status : option TagTamperStatusReadout }.

Section app_verify.
  Context {C : AesCrypto} {K : CmacCrate} {S E : Type} {ST : CounterStore S E}.

Abbreviation A := (M S (Fault (VerificationError E))).

Definition app_fail {X} (e : VerificationError E) : A X := fail (Fault_Error e).
Definition app_of {X} (o : option X) : A X := match o with Some x => mret x | None => fail Fault_Panic end.
Definition app_sdm {X} (r : result X (Fault SdmError)) : A X :=
  match r with
  | Ok x => mret x
  | Err (Fault_Error e) => app_fail (VE_SdmError e)
  | Err Fault_Panic => fail Fault_Panic
  end.
Definition app_store {X} (m : M S E X) : A X := lift_err (λ e, Fault_Error (VE_StoreError e)) m.

(** The counter is compared and stored only when the message carries one. *)
Definition bump_counter (uid : list Z) (read_ctr : option Z) : A () :=
  match read_ctr with
  | None => mret tt
  | Some counter =>
      stored ← app_store (store_get uid);
      if decide (counter ≤ stored) then app_fail (VE_ReadCounterTooLow stored counter)
      else app_store (store_set uid counter)
  end.

Definition app_verify (ap : ApplicationVerifier) (master_key input : list Z) : A VerifiedTagReadout :=
  let v := ap_verifier ap in
  (match ap_prefix ap with
   | Some prefix => if decide (prefix `prefix_of` input) then mret tt else app_fail VE_PrefixMismatch
   | None => mret tt
   end) ;;
  (match validate v with Ok _ => mret tt | Err e => app_fail (VE_TagValidationFailed e) end) ;;
  picc_meta_key ← app_of (picc_key master_key);
  picc ← app_sdm (decrypt_picc_data v picc_meta_key input);
  match picc.1 with
  | None => app_fail VE_NoUid
  | Some uid =>
      file_read_key ← app_of (get_key master_key (v_file_read_key v) uid (ap_system_identifier ap));
      verification ← app_sdm (verify_with_meta_key v input file_read_key picc_meta_key);
      bump_counter uid (sv_read_ctr verification) ;;
      mret (mkVerifiedTagReadout uid (sv_read_ctr verification) (sv_tamper_status verification))
  end.

(** A service: inputs as they arrive, answers in order. *)
Fixpoint app_serve (ap : ApplicationVerifier) (master_key : list Z) (inputs : list (list Z)) (s : S) :
    list (result VerifiedTagReadout (Fault (VerificationError E))) :=
  match inputs with
  | [] => []
  | input :: inputs => let '(r, s) := app_verify ap master_key input s in r :: app_serve ap master_key inputs s
  end.
End app_verify.

(** ** AN10922, section 2.2.1 (the vector of the source's tests) *)

Definition an10922_key : list Z := hex16 "00112233445566778899AABBCCDDEEFF".
Definition an10922_m : list Z := [0x04; 0x78; 0x2E; 0x21; 0x80; 0x1D; 0x80; 0x30; 0x42; 0xF5] ++ lit "NXP Abu".

Example an10922_vector :
  diversify_aes128 (C := Aes128) an10922_key an10922_m = Some (hex16 "A8DD63A3B89D54B37CA802473FDA9175").
Proof. vm_compute. reflexivity. Qed.

(** ** The subkeys are those of CMAC *)

Lemma shifted_byte b c : is_u8 b → (c = 0 ∨ c = 1) →
  Z.lor (u8 (Z.shiftl b 1)) c = (2 * b) mod 256 + c ∧ (Z.shiftr b 7 = 0 ∨ Z.shiftr b 7 = 1) ∧
  2 * b = (2 * b) mod 256 + 256 * Z.shiftr b 7.
Proof.
  intros Hb Hc. unfold is_u8 in Hb. rewrite Z.shiftl_mul_pow2, Z.shiftr_div_pow2 by done. unfold u8.
  change (2 ^ 1) with 2. change (2 ^ 7) with 128. rewrite (Z.mul_comm b 2).
  assert (b / 128 = 0 ∨ b / 128 = 1) as Hq.
  { assert (0 ≤ b / 128 < 2); [|lia]. split; [by apply Z.div_pos; lia|apply Z.div_lt_upper_bound; lia]. }
  assert ((2 * b) mod 256 = 2 * (b mod 128)) as E by (change 256 with (2 * 128); by rewrite Z.mul_mod_distr_l).
  split_and!; [|done|].
  - change (2 ^ 8) with 256. rewrite E. destruct Hc as [->| ->]; [by rewrite Z.lor_0_r, Z.add_0_r|].
    rewrite <-Z.add_lor_land, Z.add_comm. replace (Z.land _ 1) with 0; [lia|].
    change 1 with (Z.ones 1). rewrite Z.land_ones by done. change (2 ^ 1) with 2. by rewrite Z.mul_comm, Z.mod_mul.
  - rewrite E. pose proof (Z.div_mod b 128 ltac:(done)). lia.
Qed.

Lemma double_rev_spec c l : bytes l → (c = 0 ∨ c = 1) →
  bytes (double_rev c l) ∧ length (double_rev c l) = length l ∧
  le_val (double_rev c l) = (2 * le_val l + c) mod 2 ^ (8 * Z.of_nat (length l)).
Proof.
  intros Hl. revert c. induction Hl as [|b l Hb Hl IH]; intros c Hc; simpl double_rev.
  { split_and!; [constructor|done|]. simpl. by rewrite Z.mod_1_r. }
  destruct (shifted_byte b c Hb Hc) as (E1 & E2 & E3). destruct (IH _ E2) as (I1 & I2 & I3).
  rewrite E1. assert (0 ≤ (2 * b) mod 256 ≤ 254) as Hr.
  { change 256 with (2 * 128). rewrite Z.mul_mod_distr_l by done. pose proof (Z.mod_pos_bound b 128). lia. }
  split_and!; [constructor; [unfold is_u8; lia|done]|simpl; lia|].
  cbn [le_val length]. rewrite I3. set (P := 2 ^ (8 * Z.of_nat (length l))).
  replace (2 ^ (8 * Z.of_nat (S (length l)))) with (256 * P).
  2:{ unfold P. rewrite Nat2Z.inj_succ. replace (8 * Z.succ _) with (8 + 8 * Z.of_nat (length l)) by lia. by rewrite Z.pow_add_r by lia. }
  assert (0 < P) by (apply Z.pow_pos_nonneg; lia).
  set (lo := (2 * b) mod 256 + c). set (hi := 2 * le_val l + Z.shiftr b 7).
  replace (2 * (b + 2 ^ 8 * le_val l) + c) with (lo + hi * 256) by (unfold lo, hi; change (2 ^ 8) with 256; lia).
  rewrite Z.rem_mul_r by lia. rewrite Z.mod_add, Z.div_add by lia.
  by rewrite (Z.mod_small lo), (Z.div_small lo) by (unfold lo; lia).
Qed.

Lemma low_high_disjoint x T : 0 ≤ x < 2 ^ 8 → Z.land x (T * 2 ^ 8) = 0.
Proof.
  intros Hx. apply Z.bits_inj'. intros n Hn. rewrite Z.land_spec, Z.bits_0.
  destruct (Z.lt_ge_cases n 8); [by rewrite Z.mul_pow2_bits_low, andb_false_r by lia|].
  by rewrite <-(Z.mod_small x (2 ^ 8)), Z.mod_pow2_bits_high by lia.
Qed.

Lemma lxor_low x y T : is_u8 x → is_u8 y → Z.lxor (x + 2 ^ 8 * T) y = Z.lxor x y + 2 ^ 8 * T.
Proof.
  intros Hx Hy. rewrite (Z.mul_comm (2 ^ 8)).
  rewrite !Z.add_nocarry_lxor by (apply low_high_disjoint; [exact Hx || by apply lxor_u8]).
  by rewrite !Z.lxor_assoc, (Z.lxor_comm y).
Qed.

Lemma alter_last f (l : list Z) : length l = 16%nat → alter f 15%nat (reverse l) = reverse (alter f 0%nat l).
Proof. intros H. by do 16 (destruct l as [|? l]; [discriminate H|]); destruct l; [|discriminate H]. Qed.

Lemma top_bit b0 V : is_u8 b0 → 0 ≤ V < 2 ^ 120 →
  Z.testbit (Z.shiftl (b0 * 2 ^ 120 + V) 1) 128 = bool_decide (Z.land b0 0x80 ≠ 0).
Proof.
  intros Hb HV. rewrite Z.shiftl_spec by done. change (128 - 1) with (7 + 120).
  rewrite <-Z.shiftr_spec, Z.shiftr_div_pow2 by done. rewrite Z.add_comm, Z.div_add, Z.div_small by lia. simpl (0 + _).
  clear HV. revert b0 Hb. assert (∀ n, (n < 256)%nat → Z.testbit (Z.of_nat n) 7 = bool_decide (Z.land (Z.of_nat n) 128 ≠ 0)) as G.
  { intros n Hn. do 256 (destruct n as [|n]; [reflexivity|]). lia. }
  intros b0 [H0 H1]. specialize (G (Z.to_nat b0)). rewrite Z2Nat.id in G by done. apply G. lia.
Qed.

(** [double] is multiplication by x in the field of CMAC. *)
Lemma double_dbl b : array 16 b → double b = dbl b.
Proof.
  intros [Hl Hb]. set (L := reverse b). assert (length L = 16%nat) as HL by (unfold L; by rewrite length_reverse).
  assert (bytes L) as HbL by (by apply Forall_reverse).
  destruct (double_rev_spec 0 L HbL (or_introl eq_refl)) as (D1 & D2 & D3). rewrite HL in D2, D3. rewrite Z.add_0_r in D3.
  set (D := double_rev 0 L) in *.
  assert (le_val (alter (λ x, Z.lxor x RB) 0%nat D) = Z.lxor (le_val D) RB ∧ bytes (alter (λ x, Z.lxor x RB) 0%nat D)) as [X1 X2].
  { destruct D as [|x D']; [done|]. apply Forall_cons in D1 as [Hx HD]. simpl. split.
    - rewrite lxor_low; [done|apply Hx|done].
    - constructor; [|done]. by apply lxor_u8. }
  unfold double, dbl. fold L. fold D.
  assert (Z.land (Z.shiftl (be_val b) 1) (Z.ones 128) = le_val D) as ->.
  { rewrite Z.land_ones, Z.shiftl_mul_pow2 by done. rewrite D3. unfold be_val. fold L. by rewrite Z.mul_comm. }
  assert (Z.testbit (Z.shiftl (be_val b) 1) 128 = bool_decide (Z.land (nth 0 b 0) 0x80 ≠ 0)) as ->.
  { destruct b as [|b0 b]; [done|]. rewrite be_val_cons. apply Forall_cons in Hb as [Hb0 Hb]. simpl length in *.
    replace (Z.of_nat (length b)) with 15 by lia. change (256 ^ 15) with (2 ^ 120). apply top_bit; [done|].
    unfold be_val. replace 120 with (8 * Z.of_nat (length (reverse b))) by (rewrite length_reverse; lia).
    by apply le_val_bound, Forall_reverse. }
  rewrite bool_decide_decide. case_decide.
  - rewrite alter_last by done. change 0x87 with RB. rewrite <-X1. f_equal.
    replace 16%nat with (length (alter (λ x, Z.lxor x RB) 0%nat D)) by (by rewrite length_alter). by rewrite le_bytes_val.
  - f_equal. replace 16%nat with (length D) by done. by rewrite le_bytes_val.
Qed.

(** A diversified key over two blocks is a CMAC of the input behind its constant. *)
Lemma diversify_is_cmac {C : AesCrypto} `{!AesLaws C} master m : (16 ≤ length m ≤ 31)%nat → bytes m →
  diversify_aes128 master m = Some (block_cmac (aes_block master) (DIV_CONST_AES128 :: m)).
Proof.
  intros Hl Hb. assert (array 16 (aes_block master (replicate 16 0))) as HE.
  { apply aes_block_array. split; [done|]. by apply Forall_replicate. }
  assert (array 16 (dbl (aes_block master (replicate 16 0)))) as HK.
  { split; [unfold dbl; by rewrite length_reverse, le_bytes_length|]. apply Forall_reverse, le_bytes_bytes. }
  unfold diversify_aes128, block_cmac. rewrite decide_True by (split; [intros ->; simpl in Hl; lia|lia]).
  rewrite (double_dbl (aes_block _ _)), (double_dbl (dbl _)) by done.
  set (k1 := dbl (aes_block master (replicate 16 0))). cbn [length].
  set (D := DIV_CONST_AES128 :: m). assert (length D = S (length m)) as HD by done.
  cbn [cbc_mac]. rewrite decide_False by lia.
  rewrite decide_True by (rewrite length_drop; lia). rewrite length_drop, HD.
  assert (∀ pad, drop 16 ([DIV_CONST_AES128] ++ m ++ pad) = drop 16 D ++ pad) as Hdrop.
  { intros pad. change ([DIV_CONST_AES128] ++ m ++ pad) with (D ++ pad). by rewrite drop_app_le by lia. }
  assert (∀ pad, take 16 ([DIV_CONST_AES128] ++ m ++ pad) = take 16 D) as Htake.
  { intros pad. change ([DIV_CONST_AES128] ++ m ++ pad) with (D ++ pad). by rewrite take_app_le by lia. }
  rewrite Hdrop, Htake. do 2 f_equal. case_bool_decide.
  - rewrite decide_False by lia. f_equal. f_equal.
    rewrite take_app_ge by (rewrite length_drop; lia). f_equal. rewrite length_drop, HD.
    replace (16 - (S (length m) - 16))%nat with (S (30 - length m))%nat by lia.
    change (take (S ?n) (0x80 :: ?l)) with (0x80 :: take n l). cbn [app]. f_equal. rewrite take_replicate. f_equal. lia.
  - rewrite decide_True by lia. by rewrite app_nil_r.
Qed.

(** ** No message is accepted twice *)

(** What a store promises: it remembers what was set, and never goes back.  A failed
    [set] may or may not have taken effect. *)
Class CounterLaws {S E : Type} (ST : CounterStore S E) (view : S → list Z → Z) : Prop := {
  store_get_spec uid s :
    match store_get uid s with
    | (Ok n, s') => n = view s uid ∧ view s' = view s
    | (Err _, s') => view s' = view s
    end;
  store_set_spec uid n s : view s uid < n →
    let '(r, s') := store_set uid n s in
    (∀ u, view s u ≤ view s' u) ∧ (is_ok r = true → view s' uid = n) }.

(** The counters of the messages accepted for one tag, in order. *)
Definition accepted {E} (uid : list Z) (l : list (result VerifiedTagReadout (Fault (VerificationError E)))) : list Z :=
  omap (λ r, match r with
             | Ok t => if decide (vt_uid t = uid) then vt_read_ctr t else None
             | Err _ => None
             end) l.

Section replay.
  Context {C : AesCrypto} {K : CmacCrate} {S E : Type} {ST : CounterStore S E} (view : S → list Z → Z).
  Context `{!CounterLaws ST view}.

Abbreviation A := (M S (Fault (VerificationError E))).

(** The view never goes back, and what was accepted is above it and is its new value. *)
Definition bumped (s : S) {X} (uid : X → list Z) (ctr : X → option Z) (r : result X (Fault (VerificationError E))) (s' : S) : Prop :=
  (∀ u, view s u ≤ view s' u) ∧
  match r with Ok x => ∀ n, ctr x = Some n → view s (uid x) < n ∧ view s' (uid x) = n | Err _ => True end.

Lemma bump_counter_spec uid ctr s : wp (bump_counter uid ctr) (bumped s (λ _, uid) (λ _, ctr)) s.
Proof.
  unfold bump_counter, bumped. destruct ctr as [n|]; [|by split].
  unfold wp, mbind, M_bind, app_store, lift_err.
  pose proof (store_get_spec uid s) as Hg. destruct (store_get uid s) as [[m|e] s1]; simpl.
  2:{ split; [by rewrite Hg|done]. }
  destruct Hg as [-> Hv]. case_decide as Hle; simpl; [split; [by rewrite Hv|done]|].
  pose proof (store_set_spec uid n s1) as Hs. rewrite Hv in Hs. specialize (Hs ltac:(lia)).
  destruct (store_set uid n s1) as [r s2]. destruct Hs as [H1 H2]. split; [done|].
  destruct r; [|done]. intros n' [= <-]. split; [lia|]. by apply H2.
Qed.

(** A step that does not touch the store. *)
Lemma wp_stateless {X Y} (m : A X) (k : X → A Y) Q s :
  (m s).2 = s → (∀ e, Q (Err e) s) → (∀ x, wp (k x) Q s) → wp (m ≫= k) Q s.
Proof.
  intros Hs He Hk. apply wp_bind. unfold wp. rewrite Hs. destruct (m s).1; [apply Hk|apply He].
Qed.

Lemma app_verify_spec ap master_key input s :
  wp (app_verify ap master_key input) (bumped s vt_uid vt_read_ctr) s.
Proof.
  assert (∀ e, bumped (X := VerifiedTagReadout) s vt_uid vt_read_ctr (Err e) s) as He by done.
  unfold app_verify. apply wp_stateless; [destruct (ap_prefix ap); [by case_decide|done]|exact He|intros _].
  apply wp_stateless; [by destruct (validate _)|exact He|intros _].
  apply wp_stateless; [by destruct (picc_key _)|exact He|intros meta].
  apply wp_stateless; [by destruct (decrypt_picc_data _ _ _) as [|[]]|exact He|intros [[uid|] c]; [|apply He]].
  apply wp_stateless; [by destruct (get_key _ _ _ _)|exact He|intros key].
  apply wp_stateless; [by destruct (verify_with_meta_key _ _ _ _) as [|[]]|exact He|intros sv].
  apply wp_bind. eapply wp_mono; [apply bump_counter_spec|]. intros [[]|e] s' [H1 H2]; [|by split]. by split.
Qed.

(** Of the messages a service accepts for one tag, those that carry a read counter
    have strictly increasing counters, all above what was stored at the start: in
    particular no message is accepted twice.  This holds for every list of inputs, in
    any order and with any failures of the store between them. *)
Theorem no_replay ap master_key inputs uid s :
  StronglySorted Z.lt (view s uid :: accepted uid (app_serve ap master_key inputs s)).
Proof.
  revert s. induction inputs as [|input inputs IH]; intros s; [repeat constructor|]. simpl.
  pose proof (app_verify_spec ap master_key input s) as H. unfold wp in H.
  destruct (app_verify ap master_key input s) as [r s']. destruct H as [Hmono Hr]. simpl in Hmono, Hr.
  specialize (IH s'). apply StronglySorted_inv in IH as [IHs IHf]. unfold accepted in *. simpl.
  assert (∀ l, Forall (Z.lt (view s' uid)) l → Forall (Z.lt (view s uid)) l) as Hw.
  { intros l Hl. eapply Forall_impl; [exact Hl|]. intros z Hz. specialize (Hmono uid). cbv beta in *. lia. }
  destruct r as [t|e]; [|constructor; auto]. case_decide as Hu; [|constructor; auto].
  destruct (vt_read_ctr t) as [n|] eqn:En; [|constructor; auto].
  destruct (Hr n eq_refl) as [H1 H2]. rewrite Hu in *. rewrite H2 in IHf.
  constructor; [by constructor|]. constructor; [done|]. rewrite <-H2 in IHf. auto.
Qed.
End replay.

(** The store of the source's tests and examples, one number for one tag. *)
#[local] Instance number_store : CounterStore Z Empty_set :=
  {| store_get _ := λ n, (Ok n, n); store_set _ n := λ _, (Ok tt, n) |}.

#[local] Instance number_store_laws : CounterLaws number_store (λ n _, n).
Proof. constructor; simpl; [done|]. intros _ n s H. split; [intros; lia|done]. Qed.
