(* ===== verification/Provision.v ===== *)
(** * Provisioning and resetting a tag with derived keys

    [vendor/ntag424/src/high_level]: [provision.rs] and [reset.rs], the crate's own
    workflows, which set a factory tag up in LRP mode and take it back.  They use the
    session of the crate ([session/authenticated_session.rs], either suite) through
    the interface [TagSession]; what its operations can do to a tag is [TagLaws].

    ChangeKey of a key other than the master key sends the new key combined with the
    old one and a checksum of the new one (Table 63 of the data sheet, [Wire.v]), so a
    tag whose key is not the old one accepts the command only if the checksums of two
    keys collide. *)

From S2P Require Import Prelude Str Hex Derivation AesRef Picc NtagTypes FileSettings SdmUrl Session Channel Lrp SdmVerify Wire WireFiles HighLevel Cc.

(** ** The session *)

Class TagSession (T TE : Type) := {
  TSess : Type;
  Sig : Type;
  tag_get_version : M T (SessionError TE) Version;
  tag_auth_aes : KeyNumber → AesKey → list Z → M T (SessionError TE) TSess;
  tag_auth_lrp : KeyNumber → AesKey → list Z → M T (SessionError TE) TSess;
  tag_enable_lrp : TSess → M T (SessionError TE) ();
  tag_get_uid : TSess → M T (SessionError TE) (list Z * TSess);
  tag_verify_originality : TSess → list Z → M T (SessionError TE) (TSess * Sig);
  tag_set_configuration : TSess → Configuration → M T (SessionError TE) TSess;
  tag_get_tt_status : TSess → M T (SessionError TE) (TagTamperStatusReadout * TSess);
  tag_write_file : TSess → File → Z → list Z → M T (SessionError TE) TSess;
  tag_write_file_with_mode : TSess → File → Z → list Z → CommMode → M T (SessionError TE) TSess;
  tag_change_file_settings : TSess → File → FileSettingsUpdate → M T (SessionError TE) TSess;
  tag_change_key : TSess → NonMasterKeyNumber → AesKey → Z → AesKey → M T (SessionError TE) TSess;
  tag_change_master_key : TSess → AesKey → Z → M T (SessionError TE) () }.

(** ** provision.rs *)

Definition MODE : CryptoMode := NtagTypes.Lrp.

Inductive ProvisioningError (TE K : Type) :=
| Prov_NoUid
| Prov_SdmError (e : SdmError)
| Prov_SdmUrlError (e : SdmUrlError)
| Prov_SessionError (e : SessionError TE)
| Prov_VersionMismatch (hw_type : Z)
| Prov_Tampered (status : TagTamperStatusReadout)
| Prov_Offset
| Prov_NoUidMirroring
| Prov_KeyGenerationError (e : K).
Arguments Prov_NoUid {TE K}.
Arguments Prov_SdmError {TE K} _.
Arguments Prov_SdmUrlError {TE K} _.
Arguments Prov_SessionError {TE K} _.
Arguments Prov_VersionMismatch {TE K} _.
Arguments Prov_Tampered {TE K} _.
Arguments Prov_Offset {TE K}.
Arguments Prov_NoUidMirroring {TE K}.
Arguments Prov_KeyGenerationError {TE K} _.

Definition hw_sub_type (v : Version) : Z := nth 2 (ver_part1 v) 0.
Definition has_tag_tamper_support (v : Version) : bool := bool_decide (Z.land (hw_sub_type v) 0x0F = 0x08).

Definition provision_sdm_opts : SdmUrlOptions :=
  mkSdmUrlOptions Key1 Key2 (suo_ctr_ret SdmUrlOptions_new) (suo_max_file_size SdmUrlOptions_new).

(** The planner has no panic on a [&str]. *)
Definition create_sdm_url_config {TE K} (url_template : list Z) (mode : CryptoMode) :
    result (SdmNdefPlan * Verifier) (ProvisioningError TE K) :=
  plan ←? map_err Prov_SdmUrlError (default (Err MissingMac) (sdm_url_plan url_template mode provision_sdm_opts));
  v ←? map_err Prov_SdmError (verifier_try_new (pl_sdm_settings plan) mode);
  match with_offset v (Z.of_nat (pl_prefix_len plan) - URI_AT) with
  | Some v => Ok (plan, v)
  | None => Err Prov_Offset
  end.

Definition app_verifier_of (plan : SdmNdefPlan) (v : Verifier) : ApplicationVerifier :=
  mkApplicationVerifier v (prefix_of_code (pl_prefix_code plan)) SYSTEM_IDENTIFIER.

Definition create_app_verifier {TE K} (url_template : list Z) : result ApplicationVerifier (ProvisioningError TE K) :=
  pv ←? create_sdm_url_config url_template MODE; Ok (app_verifier_of pv.1 pv.2).

Definition get_file_settings_update_for_sdm (sdm : Sdm) : FileSettingsUpdate :=
  with_sdm (update_new Plain (mkAccessRights Access_Free Access_NoAccess (Access_Key Key0) (Access_Key Key0))) sdm.

(** [FileSettingsView::factory] of types/file_settings/codec.rs. *)
Definition FileSettingsView_factory (f : File) : FileSettingsView :=
  match f with
  | File_CapabilityContainer =>
      mkFileSettingsView StandardData 32 Plain
        (mkAccessRights Access_Free (Access_Key Key0) (Access_Key Key0) (Access_Key Key0)) None
  | File_Ndef => ndef_factory
  | File_Proprietary =>
      mkFileSettingsView StandardData 128 Full
        (mkAccessRights (Access_Key Key2) (Access_Key Key3) (Access_Key Key3) (Access_Key Key0)) None
  end.

Definition provisioned_cc : list Z :=
  CapabilityContainer_to_bytes (with_ndef_write_access (AC_ProprietaryKey Key0) CapabilityContainer_default).

Section provision.
  Context {T TE K : Type} {D : TagSession T TE}.

Abbreviation P := (M T (ProvisioningError TE K)).
Abbreviation W := (M T (SessionError TE)).

Definition prov_session {A} (m : W A) : P A := lift_err Prov_SessionError m.
Definition prov_of {A} (r : result A (ProvisioningError TE K)) : P A :=
  match r with Ok a => mret a | Err e => fail e end.

Definition configure_ndef (session : TSess) (plan : SdmNdefPlan) : W TSess :=
  session ← tag_write_file session File_Ndef 0 (pl_ndef_bytes plan);
  session ← tag_change_file_settings session File_Ndef (get_file_settings_update_for_sdm (pl_sdm_settings plan));
  tag_write_file_with_mode session File_CapabilityContainer 0 provisioned_cc Plain.

(** The loop over the keys but the master key. *)
Fixpoint change_keys (version : Z) (changes : list (NonMasterKeyNumber * AesKey * AesKey)) (session : TSess) : W TSess :=
  match changes with
  | [] => mret session
  | (n, new, old) :: changes =>
      session ← tag_change_key session n new version old;
      change_keys version changes session
  end.

Definition provision_key_changes (keys : CardKeys) : list (NonMasterKeyNumber * AesKey * AesKey) :=
  [(NmKey1, k1 keys, replicate 16 0); (NmKey2, k2 keys, replicate 16 0);
   (NmKey3, k3 keys, replicate 16 0); (NmKey4, k4 keys, replicate 16 0)].

Definition provision_keys (session : TSess) (keys : CardKeys) : W () :=
  session ← change_keys 0x01 (provision_key_changes keys) session;
  tag_change_master_key session (k0 keys) 0x01.

Definition configuration_for (tamper : bool) : Configuration :=
  let c := with_random_uid_enabled Configuration_new in
  if tamper then with_tag_tamper_enabled Access_Free c else c.

Definition configure (session : TSess) (version : Version) (enable_tag_tamper : bool) : P TSess :=
  let tamper := has_tag_tamper_support version && enable_tag_tamper in
  session ← prov_session (tag_set_configuration session (configuration_for tamper));
  if tamper then
    r ← prov_session (tag_get_tt_status session);
    if is_tampered r.1 then fail (Prov_Tampered r.1) else mret r.2
  else mret session.

Definition verify_originality (session : TSess) : W (list Z * TSess * Sig) :=
  r ← tag_get_uid session;
  s ← tag_verify_originality r.2 r.1;
  mret (r.1, s.1, s.2).

Definition check_version : P Version :=
  version ← prov_session tag_get_version;
  if decide (hw_type version ≠ 0x04) then fail (Prov_VersionMismatch (hw_type version)) else mret version.

(** An error of the first authentication, whatever it is, leads to the second. *)
Definition authenticate_using_factory_defaults (rnd1 rnd2 : list Z) : W TSess :=
  r ← attempt (tag_auth_aes Key0 (replicate 16 0) rnd1);
  match r with
  | Ok s => _ ← tag_enable_lrp s; tag_auth_lrp Key0 (replicate 16 0) rnd2
  | Err _ => tag_auth_lrp Key0 (replicate 16 0) rnd2
  end.

Definition provision_with_fn (url_template : list Z) (keys : list Z → result CardKeys K) (rnd1 rnd2 : list Z) :
    P (ApplicationVerifier * list Z * Sig) :=
  pv ← prov_of (create_sdm_url_config url_template MODE);
  let '(plan, verifier) := pv in
  if negb (mirrors_uid (plan_config plan)) then fail Prov_NoUidMirroring else
  version ← check_version;
  session ← prov_session (authenticate_using_factory_defaults rnd1 rnd2);
  r ← prov_session (verify_originality session);
  let '(uid, session, sig) := r in
  new_keys ← prov_of (map_err Prov_KeyGenerationError (keys uid));
  session ← configure session version (bool_decide (is_Some (sdm_tamper_status (pl_sdm_settings plan))));
  session ← prov_session (configure_ndef session plan);
  prov_session (provision_keys session new_keys) ;;
  mret (app_verifier_of plan verifier, uid, sig).

Definition provision_with_keys (url_template : list Z) (keys : CardKeys) (rnd1 rnd2 : list Z) :
    P (ApplicationVerifier * list Z * Sig) :=
  provision_with_fn url_template (λ _, Ok keys) rnd1 rnd2.
End provision.

(** [derive_keys_for_uid] as the five keys; [None] is a panic. *)
Definition keys_for_uid {C : AesCrypto} (master_key uid : list Z) : option CardKeys :=
  match derive_keys_for_uid master_key uid with
  | Some [k0; k1; k2; k3; k4] => Some (mkCardKeys k0 k1 k2 k3 k4)
  | _ => None
  end.

(** [provision]; the error of the key function is a panic. *)
Definition provision {C : AesCrypto} {T TE} {D : TagSession T TE} (url_template master_key rnd1 rnd2 : list Z) :
    M T (ProvisioningError TE ()) (ApplicationVerifier * list Z * Sig) :=
  provision_with_fn url_template (λ uid, ok_or (keys_for_uid master_key uid) ()) rnd1 rnd2.

(** ** reset.rs *)

Inductive ResetError (TE K : Type) := Reset_SessionError (e : SessionError TE) | Reset_KeyGenerationError (e : K).
Arguments Reset_SessionError {TE K} _.
Arguments Reset_KeyGenerationError {TE K} _.

Section reset.
  Context {T TE K : Type} {D : TagSession T TE}.

Abbreviation R := (M T (ResetError TE K)).
Abbreviation W := (M T (SessionError TE)).

Definition reset_key_changes (keys : CardKeys) : list (NonMasterKeyNumber * AesKey * AesKey) :=
  [(NmKey1, replicate 16 0, k1 keys); (NmKey2, replicate 16 0, k2 keys);
   (NmKey3, replicate 16 0, k3 keys); (NmKey4, replicate 16 0, k4 keys)].

(** The files back to their delivery settings and contents. *)
Definition reset_files (session : TSess) : W TSess :=
  session ← tag_change_file_settings session File_Ndef (into_update (FileSettingsView_factory File_Ndef));
  session ← tag_change_file_settings session File_CapabilityContainer
    (into_update (FileSettingsView_factory File_CapabilityContainer));
  session ← tag_write_file_with_mode session File_CapabilityContainer 0
    (CapabilityContainer_to_bytes CapabilityContainer_default) Plain;
  tag_write_file_with_mode session File_Ndef 0 (replicate 256 0) Plain.

Definition reset_authenticate (key rnd1 rnd2 : list Z) : W TSess :=
  r ← attempt (tag_auth_lrp Key0 key rnd1);
  match r with
  | Ok s => mret s
  | Err _ => tag_auth_aes Key0 key rnd2
  end.

Definition reset_session (current_keys : CardKeys) (rnd1 rnd2 : list Z) : W () :=
  session ← reset_authenticate (k0 current_keys) rnd1 rnd2;
  session ← reset_files session;
  session ← change_keys 0x00 (reset_key_changes current_keys) session;
  tag_change_master_key session (replicate 16 0) 0x00.

Definition reset_with_fn (uid : list Z) (keys : list Z → result CardKeys K) (rnd1 rnd2 : list Z) : R () :=
  match keys uid with
  | Err e => fail (Reset_KeyGenerationError e)
  | Ok current_keys => lift_err Reset_SessionError (reset_session current_keys rnd1 rnd2)
  end.

Definition reset_with_keys (uid : list Z) (keys : CardKeys) (rnd1 rnd2 : list Z) : R () :=
  reset_with_fn uid (λ _, Ok keys) rnd1 rnd2.
End reset.

Section derived_reset.
  Context {C : AesCrypto} {T TE : Type} {D : TagSession T TE}.

(** Without a UID the tag is asked for it, under key 1; [None] is a panic. *)
Definition resolve_uid (master_key : list Z) (uid : option (list Z)) (rnd : list Z) :
    M T (ResetError TE ()) (list Z) :=
  match uid with
  | Some uid => mret uid
  | None =>
      match picc_key master_key with
      | None => fail (Reset_KeyGenerationError ())
      | Some key1 =>
          session ← lift_err Reset_SessionError (tag_auth_lrp Key1 key1 rnd);
          r ← lift_err Reset_SessionError (tag_get_uid session);
          mret r.1
      end
  end.

Definition reset (master_key : list Z) (uid : option (list Z)) (rnd0 rnd1 rnd2 : list Z) :
    M T (ResetError TE ()) (list Z) :=
  uid ← resolve_uid master_key uid rnd0;
  reset_with_fn uid (λ uid, ok_or (keys_for_uid master_key uid) ()) rnd1 rnd2 ;;
  mret uid.
End derived_reset.

(** ** What the operations do to a tag *)

(** The settings are those a ChangeFileSettings replaces; [tg_config] lists the
    options of SetConfiguration the tag has taken, and [tg_lrp] the one that switches
    to LRP.  None of these can be undone. *)
Record Tag := mkTag {
  tg_keys : CardKeys;
  tg_vers : KeyVersions;
  tg_ndef : list Z;
  tg_cc : list Z;
  tg_ndef_settings : FileSettingsUpdate;
  tg_cc_settings : FileSettingsUpdate;
  tg_lrp : bool;
  tg_config : list (Z * list Z) }.

Definition tg_key (n : KeyNumber) (k : AesKey) (ver : Z) (t : Tag) : Tag :=
  mkTag (set_key n k (tg_keys t)) (set_ver n ver (tg_vers t)) (tg_ndef t) (tg_cc t) (tg_ndef_settings t) (tg_cc_settings t)
    (tg_lrp t) (tg_config t).
Definition tg_content (f : File) (t : Tag) : list Z :=
  match f with File_CapabilityContainer => tg_cc t | File_Ndef => tg_ndef t | File_Proprietary => [] end.
Definition tg_put (f : File) (d : list Z) (t : Tag) : Tag :=
  match f with
  | File_CapabilityContainer => mkTag (tg_keys t) (tg_vers t) (tg_ndef t) d (tg_ndef_settings t) (tg_cc_settings t) (tg_lrp t) (tg_config t)
  | File_Ndef => mkTag (tg_keys t) (tg_vers t) d (tg_cc t) (tg_ndef_settings t) (tg_cc_settings t) (tg_lrp t) (tg_config t)
  | File_Proprietary => t
  end.
Definition tg_settings (f : File) (u : FileSettingsUpdate) (t : Tag) : Tag :=
  match f with
  | File_CapabilityContainer => mkTag (tg_keys t) (tg_vers t) (tg_ndef t) (tg_cc t) (tg_ndef_settings t) u (tg_lrp t) (tg_config t)
  | File_Ndef => mkTag (tg_keys t) (tg_vers t) (tg_ndef t) (tg_cc t) u (tg_cc_settings t) (tg_lrp t) (tg_config t)
  | File_Proprietary => t
  end.
Definition tg_enable_lrp (t : Tag) : Tag :=
  mkTag (tg_keys t) (tg_vers t) (tg_ndef t) (tg_cc t) (tg_ndef_settings t) (tg_cc_settings t) true (tg_config t).
Definition tg_configure (options : list (Z * list Z)) (t : Tag) : Tag :=
  mkTag (tg_keys t) (tg_vers t) (tg_ndef t) (tg_cc t) (tg_ndef_settings t) (tg_cc_settings t) (tg_lrp t) (tg_config t ++ options).

(** The key a ChangeKey with [new] and [old] leaves on a tag whose key is [current]:
    the tag undoes the combination with its own key and compares the checksums. *)
Definition accepted_key (new old current : AesKey) : option AesKey :=
  let k := xor_bytes (xor_bytes new old) current in
  if decide (crc32 k = crc32 new) then Some k else None.

Definition key_changed (n : NonMasterKeyNumber) (new old : AesKey) (ver : Z) (t : Tag) : option Tag :=
  (λ k, tg_key (key_number_from n) k ver t) <$> accepted_key new old (NtagTypes.get_key (key_number_from n) (tg_keys t)).

(** A command whose effect is [t'] if it is executed: a failure may hide it. *)
Definition may_do {A E} (t : Tag) (t' : option Tag) (r : result A E) (now : Tag) : Prop :=
  (now = t ∨ t' = Some now) ∧ ∀ a, r = Ok a → t' = Some now.

Class TagLaws {T TE} (D : TagSession T TE) := {
  tag : T → Tag;
  tag_law_version w : wp tag_get_version (λ _ w', tag w' = tag w) w;
  tag_law_aes n k rnd w : wp (tag_auth_aes n k rnd) (λ r w', tag w' = tag w ∧
    ∀ s, r = Ok s → NtagTypes.get_key n (tg_keys (tag w)) = k ∧ tg_lrp (tag w) = false) w;
  tag_law_lrp n k rnd w : wp (tag_auth_lrp n k rnd) (λ r w', tag w' = tag w ∧
    ∀ s, r = Ok s → NtagTypes.get_key n (tg_keys (tag w)) = k ∧ tg_lrp (tag w) = true) w;
  tag_law_enable s w : wp (tag_enable_lrp s) (λ r w', may_do (tag w) (Some (tg_enable_lrp (tag w))) r (tag w')) w;
  tag_law_uid s w : wp (tag_get_uid s) (λ _ w', tag w' = tag w) w;
  tag_law_originality s uid w : wp (tag_verify_originality s uid) (λ _ w', tag w' = tag w) w;
  tag_law_config s c w : wp (tag_set_configuration s c) (λ r w',
    (∃ n, tag w' = tg_configure (take n (configuration_build c)) (tag w)) ∧
    ∀ s', r = Ok s' → tag w' = tg_configure (configuration_build c) (tag w)) w;
  tag_law_tt s w : wp (tag_get_tt_status s) (λ _ w', tag w' = tag w) w;
  tag_law_write s f off d w : wp (tag_write_file s f off d) (λ r w',
    (∃ got, tag w' = tg_put f got (tag w)) ∧
    ∀ s', r = Ok s' → tag w' = tg_put f (copy_at (Z.to_nat off) d (tg_content f (tag w))) (tag w)) w;
  tag_law_write_mode s f off d m w : wp (tag_write_file_with_mode s f off d m) (λ r w',
    (∃ got, tag w' = tg_put f got (tag w)) ∧
    ∀ s', r = Ok s' → tag w' = tg_put f (copy_at (Z.to_nat off) d (tg_content f (tag w))) (tag w)) w;
  tag_law_settings s f u w : wp (tag_change_file_settings s f u) (λ r w',
    may_do (tag w) (Some (tg_settings f u (tag w))) r (tag w')) w;
  tag_law_key s n new ver old w : wp (tag_change_key s n new ver old) (λ r w',
    may_do (tag w) (key_changed n new old ver (tag w)) r (tag w')) w;
  tag_law_master s new ver w : wp (tag_change_master_key s new ver) (λ r w',
    may_do (tag w) (Some (tg_key Key0 new ver (tag w))) r (tag w')) w }.

(** ** Changing keys *)

Fixpoint apply_changes (ver : Z) (changes : list (NonMasterKeyNumber * AesKey * AesKey)) (t : Tag) : option Tag :=
  match changes with
  | [] => Some t
  | (n, new, old) :: changes => t' ← key_changed n new old ver t; apply_changes ver changes t'
  end.

(** The master key and everything but the keys. *)
Definition master_kept (t t' : Tag) : Prop :=
  k0 (tg_keys t') = k0 (tg_keys t) ∧ v0 (tg_vers t') = v0 (tg_vers t).
Definition rest_kept (t t' : Tag) : Prop :=
  (tg_ndef t', tg_cc t', tg_ndef_settings t', tg_cc_settings t', tg_lrp t', tg_config t') =
  (tg_ndef t, tg_cc t, tg_ndef_settings t, tg_cc_settings t, tg_lrp t, tg_config t).

Lemma key_changed_kept n new old ver t t' :
  key_changed n new old ver t = Some t' → master_kept t t' ∧ rest_kept t t'.
Proof. unfold key_changed. intros (k & _ & ->)%fmap_Some. by destruct n. Qed.

Lemma apply_changes_kept ver cs t t' : apply_changes ver cs t = Some t' → master_kept t t' ∧ rest_kept t t'.
Proof.
  revert t. induction cs as [|[[n new] old] cs IH]; intros t; simpl; [by intros [= <-]|].
  intros (t1 & [[Hk Hv] Hr]%key_changed_kept & [[Hk' Hv'] Hr']%IH)%bind_Some.
  unfold master_kept, rest_kept in *. split; [split; congruence|congruence].
Qed.

Lemma accepted_match new key : length new = 16%nat → length key = 16%nat → accepted_key new key key = Some new.
Proof. intros Hn Hk. unfold accepted_key. rewrite xor_bytes_cancel by lia. by rewrite decide_True. Qed.

(** A key that is zero already, to be set to zero again with another key as the old
    one. *)
Lemma accepted_zero old : length old = 16%nat → crc32 old ≠ crc32 (replicate 16 0) →
  accepted_key (replicate 16 0) old (replicate 16 0) = None.
Proof.
  intros Hl Hc. unfold accepted_key.
  assert (xor_bytes (xor_bytes (replicate 16 0) old) (replicate 16 0) = old) as ->; [|by rewrite decide_False].
  do 16 (destruct old as [|? old]; [done|]). destruct old; [|done]. cbn [xor_bytes replicate]. by rewrite !Z.lxor_0_r.
Qed.

Section laws.
  Context {T TE : Type} {D : TagSession T TE} {L : TagLaws D}.

(** The run of the key changes: some of them took effect, in order, and on success all
    of them. *)
Lemma change_keys_spec ver cs s w :
  wp (change_keys ver cs s) (λ r w', (∃ n, apply_changes ver (take n cs) (tag w) = Some (tag w')) ∧
    ∀ s', r = Ok s' → apply_changes ver cs (tag w) = Some (tag w')) w.
Proof.
  revert s w. induction cs as [|[[n new] old] cs IH]; intros s w; simpl.
  { apply wp_ret. split; [by exists 0%nat|done]. }
  apply wp_bind. eapply wp_mono; [apply tag_law_key|]. intros [s1|e] w1 [Hm Hok].
  - eapply wp_mono; [apply IH|]. intros r w2 [(i & Hi) Hr]. rewrite (Hok s1 eq_refl). split; [|done].
    exists (S i). simpl. by rewrite (Hok s1 eq_refl).
  - split; [|done]. destruct Hm as [-> | Hm]; [by exists 0%nat|]. exists 1%nat. simpl. by rewrite Hm.
Qed.

(** Changing the other keys and then the master key: until everything else is done
    the master key is the one before. *)
Lemma change_all_spec ver cs new s w :
  wp (s ← change_keys ver cs s; tag_change_master_key s new ver) (λ r w',
    (master_kept (tag w) (tag w') ∨
     ∃ t, apply_changes ver cs (tag w) = Some t ∧ tag w' = tg_key Key0 new ver t) ∧ rest_kept (tag w) (tag w') ∧
    ∀ u, r = Ok u → ∃ t, apply_changes ver cs (tag w) = Some t ∧ tag w' = tg_key Key0 new ver t) w.
Proof.
  apply wp_bind. eapply wp_mono; [apply change_keys_spec|]. intros [s1|e] w1 [(i & Hi) Hok].
  - specialize (Hok s1 eq_refl). destruct (apply_changes_kept _ _ _ _ Hok) as [Hk Hr].
    eapply wp_mono; [apply tag_law_master|]. intros r w2 [Hm Hok2].
    assert (rest_kept (tag w) (tag w2)) as Hrest by (by destruct Hm as [-> | [= <-]]).
    split_and!; [|done|].
    + destruct Hm as [-> | [= <-]]; [by left|right]. by exists (tag w1).
    + intros u Hu. exists (tag w1). specialize (Hok2 u Hu). split; [done|]. congruence.
  - destruct (apply_changes_kept _ _ _ _ Hi) as [Hk Hr]. split_and!; [by left|done|done].
Qed.

(** ** Resetting *)

Lemma reset_authenticate_spec key rnd1 rnd2 w :
  wp (reset_authenticate key rnd1 rnd2) (λ r w', tag w' = tag w ∧ ∀ s, r = Ok s → k0 (tg_keys (tag w)) = key) w.
Proof.
  unfold reset_authenticate. apply wp_bind, wp_attempt. eapply wp_mono; [apply tag_law_lrp|].
  intros [s|e] w1 [Hw Hs]; [apply wp_ret; split; [done|]; intros ? _; by apply (Hs s)|].
  eapply wp_mono; [apply tag_law_aes|]. intros r w2 [Hw2 Hs2]. rewrite Hw in *. split; [done|].
  intros s Hr. by apply (Hs2 s).
Qed.

(** The tag with its files as delivered. *)
Definition files_reset (t : Tag) : Tag :=
  tg_put File_Ndef (copy_at 0 (replicate 256 0) (tg_ndef t))
    (tg_put File_CapabilityContainer (copy_at 0 (CapabilityContainer_to_bytes CapabilityContainer_default) (tg_cc t))
       (tg_settings File_CapabilityContainer (into_update (FileSettingsView_factory File_CapabilityContainer))
          (tg_settings File_Ndef (into_update (FileSettingsView_factory File_Ndef)) t))).

(** Keys, and what only configuration changes. *)
Definition keys_kept (t t' : Tag) : Prop :=
  (tg_keys t', tg_vers t', tg_lrp t', tg_config t') = (tg_keys t, tg_vers t, tg_lrp t, tg_config t).

Lemma reset_files_spec s w :
  wp (reset_files s) (λ r w', keys_kept (tag w) (tag w') ∧ ∀ s', r = Ok s' → tag w' = files_reset (tag w)) w.
Proof.
  assert (∀ t t1 t2, keys_kept t t1 → keys_kept t1 t2 → keys_kept t t2) as Htr by (unfold keys_kept; congruence).
  unfold reset_files. apply wp_bind. eapply wp_mono; [apply tag_law_settings|]. intros [s1|e] w1 [H1 Hok1].
  2:{ by destruct H1 as [-> | [= <-]]. }
  specialize (Hok1 s1 eq_refl). injection Hok1 as Hok1. apply wp_bind.
  eapply wp_mono; [apply tag_law_settings|]. intros [s2|e] w2 [H2 Hok2].
  2:{ by destruct H2 as [-> | [= <-]]; rewrite <-Hok1. }
  specialize (Hok2 s2 eq_refl). injection Hok2 as Hok2. apply wp_bind.
  eapply wp_mono; [apply tag_law_write_mode|]. intros [s3|e] w3 [(g & H3) Hok3].
  2:{ by rewrite H3, <-Hok2, <-Hok1. }
  specialize (Hok3 s3 eq_refl).
  eapply wp_mono; [apply tag_law_write_mode|]. intros r w4 [(g' & H4) Hok4]. split.
  - by rewrite H4, H3, <-Hok2, <-Hok1.
  - intros s' Hr. by rewrite (Hok4 s' Hr), Hok3, <-Hok2, <-Hok1.
Qed.

(** Keys 1 to 4 of a tag, all of the width of a key. *)
Definition holds_keys (keys : CardKeys) (t : Tag) : Prop :=
  ∀ n : NonMasterKeyNumber, NtagTypes.get_key (key_number_from n) (tg_keys t) = NtagTypes.get_key (key_number_from n) keys ∧
    length (NtagTypes.get_key (key_number_from n) keys) = 16%nat.

(** All five keys and versions of a tag. *)
Definition has_keys (keys : CardKeys) (ver : Z) (t : Tag) : Prop := tg_keys t = keys ∧ tg_vers t = all_versions ver.

Definition zero_key : AesKey := replicate 16 0.
Definition zero_keys : CardKeys := mkCardKeys zero_key zero_key zero_key zero_key zero_key.

(** Every change of the list is of the key the tag has. *)
Lemma apply_changes_match ver cs t :
  NoDup (cs.*1.*1) →
  (∀ n new old, (n, new, old) ∈ cs → length new = 16%nat ∧ length old = 16%nat ∧
     NtagTypes.get_key (key_number_from n) (tg_keys t) = old) →
  apply_changes ver cs t = Some (foldl (λ t c, tg_key (key_number_from c.1.1) c.1.2 ver t) t cs).
Proof.
  revert t. induction cs as [|[[n new] old] cs IH]; intros t Hnd Hcs; simpl; [done|].
  apply NoDup_cons in Hnd as [Hn Hnd].
  destruct (Hcs n new old) as (Hl & Ho & Hk); [by left|]. unfold key_changed.
  rewrite Hk, accepted_match by done. simpl. apply IH; [done|].
  intros n' new' old' Hin. destruct (Hcs n' new' old') as (Hl' & Ho' & Hk'); [by right|]. split_and!; [done|done|].
  rewrite <-Hk'. assert (n' ≠ n).
  { intros ->. apply Hn. apply list_elem_of_fmap. exists (n, new'). split; [done|]. apply list_elem_of_fmap.
    by exists (n, new', old'). }
  by destruct n, n'.
Qed.

Lemma reset_changes_match cur t : holds_keys cur t →
  apply_changes 0x00 (reset_key_changes cur) t =
  Some (foldl (λ t c, tg_key (key_number_from c.1.1) c.1.2 0x00 t) t (reset_key_changes cur)).
Proof.
  intros Hk. apply apply_changes_match; [by repeat constructor; set_solver|].
  intros n new old Hin. unfold reset_key_changes in Hin. destruct (Hk n) as [H1 H2].
  repeat (apply elem_of_cons in Hin as [[= -> -> ->]|Hin]; [done|]). by apply elem_of_nil in Hin.
Qed.

(** A reset on any tag: until the end the master key is the one before. *)
Lemma reset_session_spec cur rnd1 rnd2 w :
  wp (reset_session cur rnd1 rnd2) (λ r w',
    (master_kept (tag w) (tag w') ∨
     ∃ t, apply_changes 0x00 (reset_key_changes cur) (files_reset (tag w)) = Some t ∧ tag w' = tg_key Key0 zero_key 0x00 t) ∧
    ∀ u, r = Ok u → k0 (tg_keys (tag w)) = k0 cur ∧
      ∃ t, apply_changes 0x00 (reset_key_changes cur) (files_reset (tag w)) = Some t ∧ tag w' = tg_key Key0 zero_key 0x00 t) w.
Proof.
  unfold reset_session. apply wp_bind. eapply wp_mono; [apply reset_authenticate_spec|].
  intros [s|e] w1 [Hw1 Hk]; [|rewrite Hw1; by split; [left|]]. specialize (Hk s eq_refl).
  apply wp_bind. eapply wp_mono; [apply reset_files_spec|]. intros [s2|e] w2 [Hkept Hok].
  - specialize (Hok s2 eq_refl). rewrite Hw1 in Hok. eapply wp_mono; [apply change_all_spec|].
    intros r w3 (Hm & _ & Hr). rewrite Hok in *. split; [|intros u Hu; split; [done|by apply (Hr u)]].
    destruct Hm as [Hm|Hm]; [left|by right]. exact Hm.
  - rewrite Hw1 in Hkept. split; [left|done]. unfold keys_kept in Hkept. unfold master_kept. split; congruence.
Qed.

(** What a reset with the tag's keys leaves. *)
Definition reset_tag (t : Tag) : Tag :=
  mkTag zero_keys (all_versions 0x00) (tg_ndef (files_reset t)) (tg_cc (files_reset t)) (tg_ndef_settings (files_reset t))
    (tg_cc_settings (files_reset t)) (tg_lrp t) (tg_config t).

Lemma reset_match cur t t' : holds_keys cur t →
  apply_changes 0x00 (reset_key_changes cur) (files_reset t) = Some t' → tg_key Key0 zero_key 0x00 t' = reset_tag t.
Proof.
  intros Hk. rewrite reset_changes_match by exact Hk. intros [= <-]. done.
Qed.

(** Reset changes the master key last, and a reset that reports success has restored
    the delivery state: zero keys at version zero, delivery settings and contents of
    both files.  LRP mode and configuration stay as they were. *)
Theorem reset_restores {K} (uid : list Z) (keys : CardKeys) (rnd1 rnd2 : list Z) (w : T) :
  holds_keys keys (tag w) →
  wp (reset_with_keys (K := K) uid keys rnd1 rnd2) (λ r w',
    (master_kept (tag w) (tag w') ∨ tag w' = reset_tag (tag w)) ∧
    (r = Ok () → k0 (tg_keys (tag w)) = k0 keys ∧ tag w' = reset_tag (tag w))) w.
Proof.
  intros Hk. unfold reset_with_keys, reset_with_fn. apply wp_lift_err. eapply wp_mono; [apply reset_session_spec|].
  intros r w' [Hm Hr]. split.
  - destruct Hm as [Hm|(t & Ht & ->)]; [by left|right]. by apply (reset_match keys).
  - destruct r as [[]|e]; [|done]. intros _. destruct (Hr () eq_refl) as (Hk0 & t & Ht & ->). split; [done|].
    by apply (reset_match keys).
Qed.

(** A tag on which an earlier reset was interrupted after it had zeroed one of the keys
    1 to 4 cannot be reset with the same keys again: the change of that key is
    refused, so the run fails with the master key still in place.  The exception
    is a key whose checksum is that of the zero key. *)
Theorem reset_retry_refused {K} (uid : list Z) (keys : CardKeys) (n : NonMasterKeyNumber) (rnd1 rnd2 : list Z) (w : T) :
  NtagTypes.get_key (key_number_from n) (tg_keys (tag w)) = zero_key →
  length (NtagTypes.get_key (key_number_from n) keys) = 16%nat →
  crc32 (NtagTypes.get_key (key_number_from n) keys) ≠ crc32 zero_key →
  wp (reset_with_keys (K := K) uid keys rnd1 rnd2) (λ r w', is_ok r = false ∧ master_kept (tag w) (tag w')) w.
Proof.
  intros Hz Hl Hc. assert (apply_changes 0x00 (reset_key_changes keys) (files_reset (tag w)) = None) as Hnone.
  { assert (∀ old t, accepted_key zero_key old zero_key = None → NtagTypes.get_key (key_number_from n) (tg_keys t) = zero_key →
      key_changed n zero_key old 0x00 t = None) as Hrefuse by (intros old t Ha Ht; unfold key_changed; by rewrite Ht, Ha).
    pose proof (accepted_zero _ Hl Hc) as Ha. unfold reset_key_changes. cbn [apply_changes].
    destruct n; simpl in Ha, Hz; cbn [apply_changes].
    - by rewrite (Hrefuse (k1 keys)).
    - destruct (key_changed NmKey1 _ _ _ _) as [t1|] eqn:H1; [|done]. simpl.
      assert (k2 (tg_keys t1) = zero_key) by (unfold key_changed in H1; apply fmap_Some in H1 as (k & _ & ->); done).
      by rewrite (Hrefuse (k2 keys)).
    - destruct (key_changed NmKey1 _ _ _ _) as [t1|] eqn:H1; [|done]. simpl.
      destruct (key_changed NmKey2 _ _ _ _) as [t2|] eqn:H2; [|done]. simpl.
      assert (k3 (tg_keys t2) = zero_key) by (unfold key_changed in H1, H2; apply fmap_Some in H1 as (k & _ & ->), H2 as (k' & _ & ->); done).
      by rewrite (Hrefuse (k3 keys)).
    - destruct (key_changed NmKey1 _ _ _ _) as [t1|] eqn:H1; [|done]. simpl.
      destruct (key_changed NmKey2 _ _ _ _) as [t2|] eqn:H2; [|done]. simpl.
      destruct (key_changed NmKey3 _ _ _ _) as [t3|] eqn:H3; [|done]. simpl.
      assert (k4 (tg_keys t3) = zero_key) by (unfold key_changed in H1, H2, H3;
        apply fmap_Some in H1 as (k & _ & ->), H2 as (k' & _ & ->), H3 as (k'' & _ & ->); done).
      by rewrite (Hrefuse (k4 keys)). }
  unfold reset_with_keys, reset_with_fn. apply wp_lift_err. eapply wp_mono; [apply reset_session_spec|].
  rewrite Hnone. intros r w' [Hm Hr]. split.
  - destruct r as [[]|e]; [|done]. by destruct (Hr () eq_refl) as (_ & t & [=] & _).
  - by destruct Hm as [Hm|(t & [=] & _)].
Qed.

(** ** Provisioning *)

Definition same_keys (t t' : Tag) : Prop := tg_keys t' = tg_keys t ∧ tg_vers t' = tg_vers t.

Lemma enable_lrp_idle t : tg_lrp t = true → tg_enable_lrp t = t.
Proof. destruct t. simpl. by intros ->. Qed.

Lemma auth_factory_spec rnd1 rnd2 w :
  wp (authenticate_using_factory_defaults rnd1 rnd2) (λ r w', same_keys (tag w) (tag w') ∧
    ∀ s, r = Ok s → k0 (tg_keys (tag w)) = zero_key ∧ tag w' = tg_enable_lrp (tag w)) w.
Proof.
  assert (∀ w w1, (tag w1 = tag w ∨ tag w1 = tg_enable_lrp (tag w)) →
    wp (tag_auth_lrp Key0 (replicate 16 0) rnd2) (λ r w', same_keys (tag w) (tag w') ∧
      ∀ s, r = Ok s → k0 (tg_keys (tag w)) = zero_key ∧ tag w' = tg_enable_lrp (tag w)) w1) as Hlrp.
  { intros w0 w1 Hw1. eapply wp_mono; [apply tag_law_lrp|]. intros r w2 [Hw2 Hr].
    split; [by rewrite Hw2; destruct Hw1 as [-> | ->]|]. intros s ->. destruct (Hr s eq_refl) as [Hk Hlrp].
    destruct Hw1 as [Hw1|Hw1]; rewrite Hw2, Hw1 in *; [|done]. by rewrite enable_lrp_idle. }
  unfold authenticate_using_factory_defaults. apply wp_bind, wp_attempt. eapply wp_mono; [apply tag_law_aes|].
  intros [s|e] w1 [Hw1 _]; [|apply Hlrp; by left]. apply wp_bind. eapply wp_mono; [apply tag_law_enable|].
  intros [[]|e] w2 [Hm _]; rewrite Hw1 in Hm.
  - apply Hlrp. destruct Hm as [Hm|[= Hm]]; auto.
  - split; [|done]. by destruct Hm as [-> | [= <-]].
Qed.

Abbreviation tamper_of v en := (has_tag_tamper_support v && en).

Lemma configure_spec {K} s v en w :
  wp (configure (K := K) s v en) (λ r w', same_keys (tag w) (tag w') ∧
    ∀ s', r = Ok s' → tag w' = tg_configure (configuration_build (configuration_for (tamper_of v en))) (tag w)) w.
Proof.
  unfold configure. apply wp_bind, wp_lift_err. eapply wp_mono; [apply tag_law_config|].
  intros [s1|e] w1 [[n Hn] Hok]; [|by split; [rewrite Hn|]]. specialize (Hok s1 eq_refl). simpl.
  destruct (tamper_of v en); [|by apply wp_ret; rewrite Hok].
  apply wp_bind, wp_lift_err. eapply wp_mono; [apply tag_law_tt|]. intros [[st s2]|e] w2 Hw2; rewrite Hw2, Hok; simpl; [|by split].
  destruct (is_tampered st); [by apply wp_fail; rewrite Hw2, Hok|by apply wp_ret; rewrite Hw2, Hok].
Qed.

Definition ndef_configured (plan : SdmNdefPlan) (t : Tag) : Tag :=
  tg_put File_CapabilityContainer (copy_at 0 provisioned_cc (tg_cc t))
    (tg_settings File_Ndef (get_file_settings_update_for_sdm (pl_sdm_settings plan))
       (tg_put File_Ndef (copy_at 0 (pl_ndef_bytes plan) (tg_ndef t)) t)).

Lemma configure_ndef_spec s plan w :
  wp (configure_ndef s plan) (λ r w', same_keys (tag w) (tag w') ∧ ∀ s', r = Ok s' → tag w' = ndef_configured plan (tag w)) w.
Proof.
  unfold configure_ndef. apply wp_bind. eapply wp_mono; [apply tag_law_write|]. intros [s1|e] w1 [[g H1] Hok1].
  2:{ by rewrite H1. }
  specialize (Hok1 s1 eq_refl). apply wp_bind. eapply wp_mono; [apply tag_law_settings|]. intros [s2|e] w2 [H2 Hok2].
  2:{ by destruct H2 as [-> | [= <-]]; rewrite Hok1. }
  specialize (Hok2 s2 eq_refl). injection Hok2 as Hok2. eapply wp_mono; [apply tag_law_write_mode|].
  intros r w3 [[g' H3] Hok3]. split; [by rewrite H3, <-Hok2, Hok1|]. intros s' Hr. by rewrite (Hok3 s' Hr), <-Hok2, Hok1.
Qed.

Lemma originality_spec s w : wp (verify_originality s) (λ _ w', tag w' = tag w) w.
Proof.
  unfold verify_originality. apply wp_bind. eapply wp_mono; [apply tag_law_uid|]. intros [r|e] w1 Hw1; [|done].
  apply wp_bind. eapply wp_mono; [apply tag_law_originality|]. intros [x|e] w2 Hw2; [|congruence]. apply wp_ret. congruence.
Qed.

(** The tag after a provisioning that reports success. *)
Definition provisioned_tag (plan : SdmNdefPlan) (tamper : bool) (keys : CardKeys) (t : Tag) : Tag :=
  mkTag keys (all_versions 0x01) (copy_at 0 (pl_ndef_bytes plan) (tg_ndef t)) (copy_at 0 provisioned_cc (tg_cc t))
    (get_file_settings_update_for_sdm (pl_sdm_settings plan)) (tg_cc_settings t) true
    (tg_config t ++ configuration_build (configuration_for tamper)).

Lemma provision_changes_match keys t : holds_keys zero_keys t → Forall (λ k, length k = 16%nat) [k1 keys; k2 keys; k3 keys; k4 keys] →
  apply_changes 0x01 (provision_key_changes keys) t =
  Some (foldl (λ t c, tg_key (key_number_from c.1.1) c.1.2 0x01 t) t (provision_key_changes keys)).
Proof.
  intros Hk Hl. apply apply_changes_match; [by repeat constructor; set_solver|].
  intros n new old Hin. unfold provision_key_changes in Hin. pose proof (λ n, proj1 (Hk n)) as H1.
  rewrite !Forall_cons in Hl. destruct Hl as (L1 & L2 & L3 & L4 & _).
  repeat (apply elem_of_cons in Hin as [[= -> -> ->]|Hin]; [split_and!; [done|done|]; rewrite H1; done|]). by apply elem_of_nil in Hin.
Qed.

(** The keys of a factory tag are set to the given ones: the master key changes last. *)
Lemma provision_keys_spec s keys w :
  holds_keys zero_keys (tag w) → Forall (λ k, length k = 16%nat) [k1 keys; k2 keys; k3 keys; k4 keys] →
  wp (provision_keys s keys) (λ r w', (master_kept (tag w) (tag w') ∨ has_keys keys 0x01 (tag w')) ∧ rest_kept (tag w) (tag w') ∧
    (∀ u, r = Ok u → has_keys keys 0x01 (tag w'))) w.
Proof.
  intros Hk Hl. eapply wp_mono; [apply change_all_spec|]. intros r w' (Hm & Hr & Hok).
  assert (∀ t, apply_changes 0x01 (provision_key_changes keys) (tag w) = Some t → has_keys keys 0x01 (tg_key Key0 (k0 keys) 0x01 t)) as Hfin.
  { intros t. rewrite provision_changes_match by done. intros [= <-]. by destruct keys. }
  split_and!; [|done|].
  - destruct Hm as [Hm|(t & Ht & ->)]; [by left|right]. by apply Hfin.
  - intros u Hu. destruct (Hok u Hu) as (t & Ht & ->). by apply Hfin.
Qed.

Lemma wp_prov_of {K A B} (r : result A (ProvisioningError TE K)) (k : A → M T (ProvisioningError TE K) B) Q w :
  (∀ a, r = Ok a → wp (k a) Q w) → (∀ e, r = Err e → Q (Err e) w) → wp (prov_of r ≫= k) Q w.
Proof. intros Hk He. apply wp_bind. destruct r as [a|e]; [by apply wp_ret, Hk|by apply wp_fail, He]. Qed.

Lemma check_version_spec {K} w : wp (check_version (K := K)) (λ _ w', tag w' = tag w) w.
Proof.
  unfold check_version. apply wp_bind, wp_lift_err. eapply wp_mono; [apply tag_law_version|].
  intros [v|e] w1 Hw1; simpl; [|done]. by case_decide.
Qed.

(** Provisioning of a tag with factory keys: until the end the master key is the
    factory key; a run that reports success has set up everything it should, for the
    tag that has the returned UID, and returns the verifier of the template. *)
Theorem provision_sets_up {K} (url_template : list Z) (keys : list Z → result CardKeys K) (rnd1 rnd2 : list Z) (w : T) :
  holds_keys zero_keys (tag w) →
  (∀ uid nk, keys uid = Ok nk → Forall (λ k, length k = 16%nat) [k1 nk; k2 nk; k3 nk; k4 nk]) →
  wp (provision_with_fn url_template keys rnd1 rnd2) (λ r w',
    (master_kept (tag w) (tag w') ∨ ∃ uid nk, keys uid = Ok nk ∧ has_keys nk 0x01 (tag w')) ∧
    ∀ ap uid sig, r = Ok (ap, uid, sig) → ∃ plan v nk tamper,
      create_sdm_url_config (TE := TE) (K := K) url_template MODE = Ok (plan, v) ∧ mirrors_uid (plan_config plan) = true ∧
      keys uid = Ok nk ∧ ap = app_verifier_of plan v ∧ k0 (tg_keys (tag w)) = zero_key ∧
      tag w' = provisioned_tag plan tamper nk (tag w)) w.
Proof.
  intros Hk Hl. assert (∀ t, same_keys (tag w) t → master_kept (tag w) t) as Hsame by (unfold same_keys, master_kept; intros t []; split; congruence).
  assert (∀ t, same_keys (tag w) t → holds_keys zero_keys t) as Hholds by (unfold same_keys, holds_keys; intros t [-> _]; done).
  assert (∀ t1 t2, same_keys t1 t2 → same_keys (tag w) t1 → same_keys (tag w) t2) as Htr by (unfold same_keys; intros t1 t2 [] []; split; congruence).
  unfold provision_with_fn. apply wp_prov_of; [|intros e _; by split; [left|]]. intros [plan v] Hplan.
  destruct (mirrors_uid (plan_config plan)) eqn:Hmir; simpl; [|apply wp_fail; by split; [left|]].
  apply wp_bind. eapply wp_mono; [apply check_version_spec|]. intros [ver|e] w1 Hw1; [|rewrite Hw1; by split; [left|]].
  apply wp_bind, wp_lift_err. eapply wp_mono; [apply auth_factory_spec|]. rewrite Hw1.
  intros [s|e] w2 [Hs2 Hok2]; simpl; [|split; [left; by apply Hsame|done]]. destruct (Hok2 s eq_refl) as [Hk0 Hw2].
  apply wp_bind, wp_lift_err. eapply wp_mono; [apply originality_spec|].
  intros [[[uid s3] sig]|e] w3 Hw3; simpl; [|split; [left; rewrite Hw3; by apply Hsame|done]].
  apply wp_prov_of; [|intros e _; split; [left; rewrite Hw3; by apply Hsame|done]].
  intros nk Hnk. assert (keys uid = Ok nk) as Hkeys by (destruct (keys uid); simplify_eq/=; done).
  apply wp_bind. eapply wp_mono; [apply configure_spec|]. rewrite Hw3. intros [s4|e] w4 [Hs4 Hok4].
  2:{ split; [left; apply Hsame; by eapply Htr|done]. }
  specialize (Hok4 s4 eq_refl). apply wp_bind, wp_lift_err. eapply wp_mono; [apply configure_ndef_spec|].
  intros [s5|e] w5 [Hs5 Hok5]; simpl; (assert (same_keys (tag w) (tag w5)) as Hs by (eapply Htr; [done|]; by eapply Htr)).
  2:{ split; [left; by apply Hsame|done]. }
  specialize (Hok5 s5 eq_refl). apply wp_bind, wp_lift_err.
  eapply wp_mono; [apply provision_keys_spec; [by apply Hholds|by eapply Hl]|].
  intros [[]|e] w6 (Hm & Hrest & Hok6); simpl.
  - specialize (Hok6 () eq_refl). apply wp_ret. split; [right; by exists uid, nk|]. intros ap uid' sig' [= <- <- <-].
    exists plan, v, nk, (tamper_of ver (bool_decide (is_Some (sdm_tamper_status (pl_sdm_settings plan))))).
    split_and!; [done..|]. destruct Hok6 as [Hkk Hvv]. unfold rest_kept in Hrest. rewrite Hok5, Hok4, Hw2 in Hrest.
    destruct (tag w6). simpl in *. unfold provisioned_tag. congruence.
  - split; [|done]. destruct Hm as [Hm|Hm]; [left|right; by exists uid, nk].
    unfold master_kept, same_keys in *. destruct Hs, Hm. split; congruence.
Qed.

(** What a provisioning and a reset with the same keys leave of a factory tag: the
    delivery state, except that LRP mode and the configuration stay. *)
Theorem provision_then_reset {K} (url_template : list Z) (keys : CardKeys) (rnd1 rnd2 rnd3 rnd4 : list Z) (w w1 w2 : T)
    (ap : ApplicationVerifier) (uid : list Z) (sig : Sig) :
  holds_keys zero_keys (tag w) → Forall (λ k, length k = 16%nat) [k1 keys; k2 keys; k3 keys; k4 keys] →
  provision_with_keys (K := K) url_template keys rnd1 rnd2 w = (Ok (ap, uid, sig), w1) →
  reset_with_keys (K := K) uid keys rnd3 rnd4 w1 = (Ok (), w2) →
  has_keys zero_keys 0x00 (tag w2) ∧ tg_cc_settings (tag w2) = into_update (FileSettingsView_factory File_CapabilityContainer) ∧
  tg_ndef_settings (tag w2) = into_update (FileSettingsView_factory File_Ndef) ∧
  tg_ndef (tag w2) = copy_at 0 (replicate 256 0) (tg_ndef (tag w1)) ∧
  tg_lrp (tag w2) = true ∧ tg_config (tag w1) `prefix_of` tg_config (tag w2).
Proof.
  intros Hk Hl Hp Hr.
  assert (∀ (uid : list Z) nk, Ok keys = (Ok nk : result CardKeys K) → Forall (λ k, length k = 16%nat) [k1 nk; k2 nk; k3 nk; k4 nk])
    as Hl' by (by intros _ nk [= <-]).
  destruct (wp_run _ _ _ _ _ (provision_sets_up url_template (λ _, Ok keys) rnd1 rnd2 w Hk Hl') Hp) as [_ Hprov].
  destruct (Hprov ap uid sig eq_refl) as (plan & v & nk & tamper & _ & _ & [= <-] & _ & _ & Ht1).
  assert (holds_keys keys (tag w1)) as Hk1.
  { rewrite Ht1. intros n. rewrite !Forall_cons in Hl. by destruct n; destruct Hl as (? & ? & ? & ? & _). }
  destruct (wp_run _ _ _ _ _ (reset_restores uid keys rnd3 rnd4 w1 Hk1) Hr) as [_ Hreset].
  destruct (Hreset eq_refl) as [_ ->]. rewrite Ht1. by split_and!.
Qed.

(** A template that cannot be provisioned is refused before the tag is touched. *)
Theorem provision_refuses_first {K} (url_template : list Z) (keys : list Z → result CardKeys K) (rnd1 rnd2 : list Z) (w : T) :
  (∀ plan v, create_sdm_url_config (TE := TE) (K := K) url_template MODE = Ok (plan, v) → mirrors_uid (plan_config plan) = false) →
  ∃ e, provision_with_fn url_template keys rnd1 rnd2 w = (Err e, w).
Proof.
  intros Hbad. unfold provision_with_fn, mbind, M_bind, prov_of.
  destruct (create_sdm_url_config url_template MODE) as [[plan v]|e]; [|by eexists].
  simpl. rewrite (Hbad plan v eq_refl). by eexists.
Qed.
End laws.

(** ** An instance *)

(** A tag that answers everything, genuine or not. *)
Definition SimTag : Type := Tag * bool.

Definition sim_tag (b : bool) (t : Tag) {A} (a : A) (e : SessionError ()) (w : SimTag) : result A (SessionError ()) * SimTag :=
  if b then (Ok a, (t, w.2)) else (Err e, w).

#[local] Instance sim_session : TagSession SimTag () := {|
  TSess := ();
  Sig := ();
  tag_get_version w := (Ok (mkVersion [4; 4; 2; 0x30; 0; 0x11; 5] [] []), w);
  tag_auth_aes n k _ w :=
    sim_tag (bool_decide (NtagTypes.get_key n (tg_keys w.1) = k ∧ tg_lrp w.1 = false)) w.1 () SE_AuthenticationMismatch w;
  tag_auth_lrp n k _ w :=
    sim_tag (bool_decide (NtagTypes.get_key n (tg_keys w.1) = k ∧ tg_lrp w.1 = true)) w.1 () SE_AuthenticationMismatch w;
  tag_enable_lrp _ w := sim_tag true (tg_enable_lrp w.1) () SE_AuthenticationMismatch w;
  tag_get_uid _ w := (Ok ([4; 1; 2; 3; 4; 5; 6], ()), w);
  tag_verify_originality _ _ w := sim_tag w.2 w.1 ((), ()) SE_OriginalityVerificationFailed w;
  tag_set_configuration _ c w := sim_tag true (tg_configure (configuration_build c) w.1) () SE_AuthenticationMismatch w;
  tag_get_tt_status _ w := (Ok (readout_new 0x43 0x43, ()), w);
  tag_write_file _ f off d w := sim_tag true (tg_put f (copy_at (Z.to_nat off) d (tg_content f w.1)) w.1) () SE_AuthenticationMismatch w;
  tag_write_file_with_mode _ f off d _ w :=
    sim_tag true (tg_put f (copy_at (Z.to_nat off) d (tg_content f w.1)) w.1) () SE_AuthenticationMismatch w;
  tag_change_file_settings _ f u w := sim_tag true (tg_settings f u w.1) () SE_AuthenticationMismatch w;
  tag_change_key _ n new ver old w :=
    match key_changed n new old ver w.1 with
    | Some t => sim_tag true t () SE_AuthenticationMismatch w
    | None => (Err (SE_ErrorResponse IntegrityError), w)
    end;
  tag_change_master_key _ new ver w := sim_tag true (tg_key Key0 new ver w.1) () SE_AuthenticationMismatch w |}.

#[local] Program Instance sim_laws : TagLaws sim_session := {| tag w := w.1 |}.
Solve All Obligations with try done.
Next Obligation. intros n k rnd w. unfold wp, sim_tag. simpl. by case_bool_decide. Qed.
Next Obligation. intros n k rnd w. unfold wp, sim_tag. simpl. by case_bool_decide. Qed.
Next Obligation. intros s w. unfold wp, sim_tag, may_do. simpl. auto. Qed.
Next Obligation. intros s uid w. unfold wp, sim_tag. simpl. by destruct w.2. Qed.
Next Obligation.
  intros s c w. unfold wp, sim_tag. simpl. split; [|done]. exists (length (configuration_build c)). by rewrite firstn_all.
Qed.
Next Obligation. intros s f off d w. unfold wp, sim_tag. simpl. eauto. Qed.
Next Obligation. intros s f off d m w. unfold wp, sim_tag. simpl. eauto. Qed.
Next Obligation. intros s f u w. unfold wp, sim_tag, may_do. simpl. auto. Qed.
Next Obligation.
  intros s n new ver old w. unfold wp, sim_tag, may_do. simpl. destruct (key_changed _ _ _ _ _); simpl; auto. by split; [left|].
Qed.
Next Obligation. intros s new ver w. unfold wp, sim_tag, may_do. simpl. auto. Qed.

Definition blank_tag : Tag :=
  mkTag zero_keys (all_versions 0x00) (replicate 256 0) (replicate 32 0) (into_update (FileSettingsView_factory File_Ndef))
    (into_update (FileSettingsView_factory File_CapabilityContainer)) false [].
Definition sample_template : list Z := lit "https://a.b/?p={picc}&c={mac}".
Definition sample_keys : CardKeys := mkCardKeys (replicate 16 1) (replicate 16 2) (replicate 16 3) (replicate 16 4) (replicate 16 5).

Definition sim_provision (genuine : bool) : result (ApplicationVerifier * list Z * ()) (ProvisioningError () ()) * SimTag :=
  provision_with_keys sample_template sample_keys [] [] (blank_tag, genuine).

Example provision_then_reset_runs :
  is_ok (sim_provision true).1 = true ∧
  has_keys sample_keys 0x01 (sim_provision true).2.1 ∧
  (reset_with_keys (K := ()) [] sample_keys [] [] (sim_provision true).2).1 = Ok () ∧
  has_keys zero_keys 0x00 (reset_with_keys (K := ()) [] sample_keys [] [] (sim_provision true).2).2.1.
Proof. by vm_compute. Qed.

(** LRP mode is switched on before the signature is checked: a tag that turns out not
    to be genuine stays in LRP mode. *)
Example lrp_before_originality :
  (sim_provision false).1 = Err (Prov_SessionError SE_OriginalityVerificationFailed) ∧
  tg_lrp (sim_provision false).2.1 = true.
Proof. by vm_compute. Qed.

(** A reset that was cut short after key 1, tried again. *)
Definition cut_short : SimTag := (tg_key Key1 zero_key 0x00 (sim_provision true).2.1, true).

Example retry_fails :
  (reset_with_keys (K := ()) [] sample_keys [] [] cut_short).1 =
    Err (Reset_SessionError (SE_ErrorResponse IntegrityError)) ∧
  k0 (tg_keys (reset_with_keys (K := ()) [] sample_keys [] [] cut_short).2.1) = replicate 16 1.
Proof. by vm_compute. Qed.

(** The keys of a UID exist. *)
Lemma keys_for_uid_some {C : AesCrypto} (master_key uid : list Z) : length uid = 7%nat → is_Some (keys_for_uid master_key uid).
Proof.
  intros Hl. unfold keys_for_uid, derive_keys_for_uid, picc_key, diversify_ntag424.
  rewrite !(decide_True (P := (length SYSTEM_IDENTIFIER ≤ MAX_SYSTEM_ID_LEN)%nat)) by (by apply (bool_decide_unpack _)).
  unfold diversify_aes128. rewrite !decide_True; [by eexists|..];
    (split; [by destruct uid|]; rewrite ?length_app, ?Hl; simpl; lia).
Qed.
