(* ===== verification/SdmProofs.v ===== *)
(** * The SDM verifier against the card and against the other verifier

    The two verifiers of the program are compared with what a tag puts into a
    file: the verifier of the protocol crate accepts every file a tag serves under
    settings that satisfy their invariant, in both modes and with every mirror; it
    accepts only what carries the MAC of the session; and on the files of burned
    cards it agrees with the verifier of [crates/bolty-core/src/picc.rs]. *)

From S2P Require Import Prelude Str Hex Derivation Picc AesRef Ndef NtagTypes FileSettings Channel Lrp SdmVerify.

(** ** Digits at an offset *)

Definition slice (o : Z) (n : nat) (data : list Z) : list Z := take n (drop (Z.to_nat o) data).

(** The hexadecimal digits at [o] are those of [l]. *)
Definition digits (data : list Z) (o : Z) (l : list Z) : Prop :=
  0 ≤ o ∧ decode_hex (length l) (slice o (2 * length l) data) = Ok l.

Lemma sdm_nibble_eq b o :
  sdm_hex_nibble b o = match decode_hex_nibble b with Some n => Ok n | None => sdm_err (InvalidHex o) end.
Proof. unfold sdm_hex_nibble, decode_hex_nibble. repeat case_decide; try lia; done. Qed.

Lemma hex_at_pairs n data o : 0 ≤ o → o + 2 * Z.of_nat n ≤ Z.of_nat (length data) →
  match hex_pairs (slice o (2 * n) data) with
  | Some l => decode_hex_at n data o = Ok l
  | None => ∃ z, decode_hex_at n data o = sdm_err (InvalidHex z)
  end.
Proof.
  revert o. induction n as [|n IH]; intros o Ho Hl; [done|].
  unfold slice. destruct (lookup_lt_is_Some_2 data (Z.to_nat o)) as [c0 H0]; [lia|].
  destruct (lookup_lt_is_Some_2 data (Z.to_nat (o + 1))) as [c1 H1]; [lia|].
  rewrite (drop_S _ _ _ H0). replace (S (Z.to_nat o)) with (Z.to_nat (o + 1)) by lia.
  rewrite (drop_S _ _ _ H1). replace (S (Z.to_nat (o + 1))) with (Z.to_nat (o + 2)) by lia.
  replace (2 * S n)%nat with (S (S (2 * n))) by lia. cbn [take hex_pairs].
  unfold decode_hex_at; fold decode_hex_at. unfold byte_at. rewrite H0, H1, !decide_True by lia. cbn [and_then].
  rewrite !sdm_nibble_eq. destruct (decode_hex_nibble c0) as [hi|] eqn:E0; cbn; [|by eexists].
  destruct (decode_hex_nibble c1) as [lo|]; cbn; [|by eexists].
  specialize (IH (o + 2) ltac:(lia) ltac:(lia)). unfold slice in IH.
  destruct (hex_pairs _) as [l|]; cbn.
  - rewrite IH. cbn. rewrite shiftl_nibble; [done|]. by eapply decode_hex_nibble_range.
  - destruct IH as [z ->]. by eexists.
Qed.

Lemma hex_at_range n data o l : decode_hex_at n data o = Ok l → n = 0%nat ∨ 0 ≤ o ∧ o + 2 * Z.of_nat n ≤ Z.of_nat (length data).
Proof.
  revert o l. induction n as [|n IH]; intros o l H; [by left|right].
  unfold decode_hex_at in H; fold decode_hex_at in H.
  apply and_then_ok in H as (c0 & H0 & H). apply and_then_ok in H as (hi & _ & H).
  apply and_then_ok in H as (c1 & H1 & H). apply and_then_ok in H as (lo & _ & H). apply and_then_ok in H as (r & Hr & _).
  unfold byte_at in H0, H1. destruct (data !! Z.to_nat (o + 1)) eqn:E1; [|done]. apply lookup_lt_Some in E1.
  destruct (data !! Z.to_nat o); [|done]. repeat (case_decide; [|done]).
  destruct (IH _ _ Hr) as [->|]; lia.
Qed.

Lemma slice_length o n data : (length (slice o n data) = n ↔ (n = 0 ∨ Z.to_nat o + n ≤ length data))%nat.
Proof. unfold slice. rewrite length_take, length_drop. lia. Qed.

Lemma digits_at data o l : digits data o l → decode_hex_at (length l) data o = Ok l ∧
  (o + 2 * Z.of_nat (length l) ≤ Z.of_nat (length data) ∨ l = []).
Proof.
  intros [Ho H]. rewrite decode_hex_eq in H. case_decide as Hlen; [done|].
  assert (length (slice o (2 * length l) data) = 2 * length l)%nat as Hs by lia. apply slice_length in Hs.
  destruct l as [|x l]; [split; [done|by right]|]. destruct Hs as [|Hs]; [done|].
  split; [|left; lia]. pose proof (hex_at_pairs (length (x :: l)) data o Ho ltac:(lia)) as Hp.
  destruct (hex_pairs _) as [l'|]; [|done]. injection H as ->. exact Hp.
Qed.

Lemma at_digits n data o l : 0 ≤ o → decode_hex_at n data o = Ok l → digits data o l ∧ length l = n.
Proof.
  intros Ho H. pose proof (hex_at_length _ _ _ _ H) as Hl. split; [|done]. split; [done|]. subst n.
  destruct (hex_at_range _ _ _ _ H) as [->%nil_length_inv|[_ Hr]]; [done|].
  pose proof (hex_at_pairs _ _ _ Ho Hr) as Hp. rewrite decode_hex_eq, decide_False.
  2:{ assert (length (slice o (2 * length l) data) = 2 * length l)%nat; [|lia]. apply slice_length. lia. }
  destruct (hex_pairs _) as [l'|]; [|destruct Hp as [z Hp]; by rewrite Hp in H]. rewrite Hp in H. by injection H as ->.
Qed.

(** ** What a tag puts into a file

    The documented behaviour of the tag (NT4H2421Gx §9.3), as a relation between
    its settings, its keys, what it has to say, and the bytes a reader gets. *)

Record TagRead := mkTagRead {
  tr_uid : list Z; tr_ctr : Z; tr_permanent : Z; tr_current : Z; tr_file_data : list Z }.

Record tag_read_wf (t : TagRead) : Prop := {
  tw_uid : array 7 (tr_uid t);
  tw_ctr : 0 ≤ tr_ctr t < 2 ^ 24 }.

(** The identity the session keys depend on: what is mirrored at all. *)
Definition mirrored_uid (s : Sdm) (t : TagRead) : option (list Z) :=
  if picc_includes_uid (sdm_picc_data s) then Some (tr_uid t) else None.
Definition mirrored_ctr (s : Sdm) (t : TagRead) : option Z :=
  if picc_includes_rctr (sdm_picc_data s) then Some (tr_ctr t) else None.

(** The block: which of the two follow, then both, then padding. *)
Definition identity_tag (uid : option (list Z)) (ctr : option Z) : Z :=
  match uid, ctr with Some _, Some _ => 0xC7 | Some _, None => 0x87 | None, Some _ => 0x40 | None, None => 0 end.

Definition identity_block (uid : option (list Z)) (ctr : option Z) (pad : list Z) : list Z :=
  identity_tag uid ctr :: opt_bytes uid ++ opt_bytes (le_bytes 3 <$> ctr) ++ pad.

Section tag.
  Context {C : AesCrypto} {K : CmacCrate}.

Definition tag_identity (s : Sdm) (mode : CryptoMode) (kmeta : list Z) (t : TagRead) (data : list Z) : Prop :=
  match sdm_picc_data s with
  | PiccData_None => True
  | PiccData_Plain m =>
      (∀ o, plain_uid_offset m = Some o → digits data o (tr_uid t)) ∧
      (∀ o, plain_rctr_offset m = Some o → digits data o (be_bytes 3 (tr_ctr t)))
  | PiccData_Encrypted _ o _ => ∃ pad,
      let block := identity_block (mirrored_uid s t) (mirrored_ctr s t) pad in
      array 16 block ∧
      match mode with
      | Aes => digits data o (aes_block kmeta block)
      | NtagTypes.Lrp => ∃ rnd c' ct, array 8 rnd ∧
          lricb_encrypt_in_place (from_base_key kmeta) rnd block = Some (c', ct) ∧ digits data o (rnd ++ ct)
      end
  end.

Definition tag_keys (s : Sdm) (mode : CryptoMode) (kfile : list Z) (t : TagRead) : SdmKeys :=
  derive_keys_for mode kfile (mirrored_uid s t) (le_bytes 3 <$> mirrored_ctr s t).

Definition tag_encrypts (keys : SdmKeys) (ctr : Z) (plain ct : list Z) : Prop :=
  match keys with
  | SdmKeys_Aes enc_key _ =>
      aes_cbc_encrypt enc_key (aes_block enc_key (le_bytes 3 ctr ++ replicate 13 0)) plain = Some ct
  | SdmKeys_Lrp enc _ =>
      ∃ c', lricb_encrypt_in_place enc (le_bytes 3 ctr ++ [0; 0; 0]) plain = Some (c', ct)
  end.

(** The encrypted file data fill their range with digits. *)
Definition tag_file_data (fr : FileRead) (keys : SdmKeys) (t : TagRead) (data : list Z) : Prop :=
  ∀ e, file_read_enc fr = Some e →
    array (Z.to_nat (efd_length e / 2)) (tr_file_data t) ∧ (length (tr_file_data t) ≤ 256)%nat ∧
    ∃ ct, tag_encrypts keys (tr_ctr t) (tr_file_data t) ct ∧ digits data (efd_start e) ct.

(** The tamper status is two characters of the file, before its encryption when it
    lies inside the encrypted range. *)
Definition tag_tamper (s : Sdm) (fr : FileRead) (t : TagRead) (data : list Z) : Prop :=
  ∀ o, sdm_tamper_status s = Some o →
    let at_ (l : list Z) (i : Z) :=
      l !! Z.to_nat i = Some (tr_permanent t) ∧ l !! Z.to_nat (i + 1) = Some (tr_current t) in
    match file_read_enc fr with
    | Some e => if decide (efd_start e ≤ o < efd_start e + efd_length e)
                then at_ (tr_file_data t) (o - efd_start e) else at_ data o
    | None => at_ data o
    end.

Definition mac_window (w : MacWindow) (data : list Z) : list Z := slice (mw_input w) (Z.to_nat (mw_mac w - mw_input w)) data.

Record tag_file (s : Sdm) (fr : FileRead) (mode : CryptoMode) (kfile kmeta : list Z) (t : TagRead) (data : list Z) : Prop := {
  tf_identity : tag_identity s mode kmeta t data;
  tf_file_data : tag_file_data fr (tag_keys s mode kfile t) t data;
  tf_tamper : tag_tamper s fr t data;
  tf_mac : digits data (mw_mac (window fr)) (session_mac (tag_keys s mode kfile t) (mac_window (window fr) data)) }.

(** What a reader should learn from it. *)
Definition tag_says (s : Sdm) (fr : FileRead) (t : TagRead) : SdmVerification :=
  mkSdmVerification (mirrored_uid s t) (mirrored_ctr s t)
    ((λ _, readout_new (tr_permanent t) (tr_current t)) <$> sdm_tamper_status s)
    ((λ _, tr_file_data t) <$> file_read_enc fr).
End tag.

(** ** The verifier of given settings *)

Definition verifier_of (s : Sdm) (fr : FileRead) (mode : CryptoMode) : Verifier :=
  mkVerifier mode
    (match sdm_picc_data s with
     | PiccData_Encrypted _ offset _ => PS_Encrypted offset
     | PiccData_Plain plain => PS_Plain (plain_uid_offset plain) (plain_rctr_offset plain)
     | PiccData_None => PS_None
     end)
    (match sdm_picc_data s with PiccData_Encrypted key _ _ => Some key | _ => None end)
    (file_read_key fr) (mw_input (window fr)) (mw_mac (window fr)) (sdm_tamper_status s)
    ((λ e, (efd_start e, efd_start e + efd_length e)) <$> file_read_enc fr).

Lemma try_new_eq s fr mode : sdm_file_read s = Some fr → verifier_try_new s mode = Ok (verifier_of s fr mode).
Proof. unfold verifier_try_new, verifier_of. intros ->. by destruct (sdm_picc_data s). Qed.

Lemma ensure_len_in data n : n ≤ Z.of_nat (length data) → ensure_len data n = Ok tt.
Proof. intros. unfold ensure_len. by rewrite decide_False by lia. Qed.

Lemma byte_at_lookup data i b : 0 ≤ i → data !! Z.to_nat i = Some b → byte_at data i = Ok b.
Proof. intros Hi H. unfold byte_at. by rewrite H, decide_True. Qed.

Lemma xor_bytes_zero l n : length l = n → xor_bytes l (replicate n 0) = l.
Proof. revert n. induction l as [|x l IH]; intros [|n]; simpl; try done. intros [= H]. by rewrite Z.lxor_0_r, IH. Qed.

Lemma ctr_value_le ctr : 0 ≤ ctr < 2 ^ 24 → ctr_value (le_bytes 3 ctr) = ctr.
Proof.
  intros. unfold ctr_value. rewrite take_ge by (by rewrite le_bytes_length). rewrite le_val_bytes. by apply Z.mod_small.
Qed.

Lemma parse_identity uid ctr pad : uid_ok uid → array 16 (identity_block uid ctr pad) →
  parse_picc_data_tag (identity_block uid ctr pad) = Ok (uid, le_bytes 3 <$> ctr).
Proof.
  intros Hu _. unfold parse_picc_data_tag. destruct uid as [u|], ctr as [c|]; try done.
  - destruct Hu as [Hu _]. unfold PICC_UID_BYTE_LEN in Hu. do 7 (destruct u as [|? u]; [done|]). by destruct u.
  - destruct Hu as [Hu _]. unfold PICC_UID_BYTE_LEN in Hu. do 7 (destruct u as [|? u]; [done|]). by destruct u.
Qed.

Section accepts.
  Context {C : AesCrypto} `{!AesLaws C} {K : CmacCrate}.

Lemma aes_block_cbc_dec key b : array 16 b → aes_cbc_decrypt_n key zero_iv (aes_block key b) = b.
Proof.
  intros Hb. pose proof (aes_block_array key b Hb) as Ha. unfold aes_cbc_decrypt_n, aes_cbc_decrypt.
  rewrite decide_True by (apply (aligned 0); apply Ha). rewrite (blocks_of 1) by apply Ha. cbn [default cbc_dec_loop].
  rewrite take_ge by (destruct Ha; lia). unfold aes_unblock, aes_block. rewrite aes_cbc_dec_enc by done.
  rewrite app_nil_r. apply xor_bytes_zero, Hb.
Qed.

Lemma mirror_digits n data o l : opt_nonneg o → length l = n → (∀ z, o = Some z → digits data z l) → l ≠ [] →
  plain_mirror n data o = Ok ((λ _, l) <$> o).
Proof.
  intros Ho Hn Hd Hne. destruct o as [z|]; [|done]. destruct (digits_at _ _ _ (Hd z eq_refl)) as [Ha [Hl|]]; [|done].
  unfold plain_mirror, decode_hex_array. rewrite Hn in *. rewrite ensure_len_in by lia. cbn [and_then]. by rewrite Ha.
Qed.

Lemma blob_length mode : picc_blob_ascii_len mode = 2 * Z.of_nat (match mode with Aes => 16 | NtagTypes.Lrp => 24 end).
Proof. by destruct mode. Qed.

Lemma extract_tag s fr mode kmeta t data : sdm_wf s → tag_read_wf t → tag_identity s mode kmeta t data →
  extract_picc_data (verifier_of s fr mode) data kmeta = Ok (mirrored_uid s t, le_bytes 3 <$> mirrored_ctr s t).
Proof.
  intros [[Hp _] _ _ _] [[Lu Bu] Hc] Ht. unfold extract_picc_data, tag_identity, mirrored_uid, mirrored_ctr in *.
  cbn [v_picc_source verifier_of v_mode]. destruct (sdm_picc_data s) as [|m|key o content] eqn:Es; [done| |].
  - destruct Ht as [Hu Hr].
    assert (opt_nonneg (plain_uid_offset m) ∧ opt_nonneg (plain_rctr_offset m)) as [Nu Nr].
    { unfold is_offset in Hp. split; intros z; destruct m; simpl in *; intros; simplify_eq; lia. }
    rewrite (mirror_digits 7 _ _ (tr_uid t)) by (done || (by intros E; rewrite E in Lu)). cbn [and_then].
    rewrite (mirror_digits 3 _ _ (be_bytes 3 (tr_ctr t))); [|done|unfold be_bytes; by rewrite length_reverse, le_bytes_length|done|by intros E%(f_equal length)].
    cbn [and_then]. destruct m; simpl; unfold be_bytes; by rewrite ?reverse_involutive.
  - destruct Ht as (pad & Hb & Ht). rewrite blob_length.
    assert (uid_ok (if picc_includes_uid (PiccData_Encrypted key o content) then Some (tr_uid t) else None)) as Hu
      by (destruct (picc_includes_uid _); done).
    destruct mode.
    + destruct (digits_at _ _ _ Ht) as [Ha Hl]. pose proof (aes_block_array kmeta _ Hb) as [La _]. rewrite La in *.
      rewrite ensure_len_in by (destruct Hl as [|Hl]; [lia|by rewrite Hl in La]). cbn [and_then]. unfold decode_hex_array. rewrite Ha.
      cbn [and_then]. unfold decrypt_picc_data_aes. rewrite aes_block_cbc_dec by done. by apply parse_identity.
    + destruct Ht as (rnd & c' & ct & [Lr Br] & He & Hd). destruct (digits_at _ _ _ Hd) as [Ha Hl].
      destruct (lricb_roundtrip (from_base_key kmeta) rnd 0 _ Br ltac:(by intros ->) ltac:(unfold LRICB_COUNTER_MAX_BYTES; lia) Hb)
        as (c'' & ct' & He' & Hdec & [Lc _] & _). rewrite He in He'. injection He' as <- <-.
      assert (length (rnd ++ ct) = 24%nat) as L24 by (rewrite length_app; lia). rewrite L24 in *.
      rewrite ensure_len_in by (destruct Hl as [|Hl]; [lia|by rewrite Hl in L24]). cbn [and_then]. unfold decode_hex_array. rewrite Ha.
      cbn [and_then]. unfold decrypt_picc_data_lrp, sub_list. rewrite take_app_exact, drop_app_exact, (take_ge ct) by lia.
      rewrite Hdec. by apply parse_identity.
Qed.

Lemma tag_decrypts keys ctr plain ct n : array (16 * S n) plain → tag_encrypts keys ctr plain ct →
  length ct = length plain ∧
  match keys with
  | SdmKeys_Aes enc_key _ =>
      aes_cbc_decrypt enc_key (aes_block enc_key (le_bytes 3 ctr ++ replicate 13 0)) ct = Some plain
  | SdmKeys_Lrp enc _ => ∃ c', lricb_decrypt_in_place enc (le_bytes 3 ctr ++ [0; 0; 0]) ct = Some (c', plain)
  end.
Proof.
  intros Hp H. destruct keys as [enc_key mac|enc mac]; cbn [tag_encrypts] in H.
  - destruct (aes_cbc_roundtrip enc_key (aes_block enc_key (le_bytes 3 ctr ++ replicate 13 0)) n plain) as (ct' & He & [La _] & Hd).
    { apply aes_block_array. apply (array_app 3 13); [split; [by rewrite le_bytes_length|auto with bolty]|split; [done|auto with bolty]]. }
    { done. }
    rewrite H in He. injection He as <-. split; [|done]. destruct Hp. lia.
  - destruct H as [c' H].
    destruct (lricb_roundtrip enc (le_bytes 3 ctr ++ [0; 0; 0]) n plain) as (c'' & ct' & He & Hd & [La _] & _); try done.
    { apply bytes_app; [auto with bolty|apply (bytes_replicate 3)]. }
    { unfold LRICB_COUNTER_MAX_BYTES. rewrite length_app, le_bytes_length. simpl. lia. }
    rewrite H in He. injection He as <- <-. split; [destruct Hp; lia|by eexists].
Qed.

Lemma enc_tag s fr mode keys t data : sdm_wf s → sdm_file_read s = Some fr → tag_file_data fr keys t data →
  decrypt_enc_file_data (verifier_of s fr mode) data keys (le_bytes 3 <$> mirrored_ctr s t) =
  Ok ((λ _, tr_file_data t) <$> file_read_enc fr).
Proof.
  intros [_ Hf _ Hc] Hs Ht. unfold decrypt_enc_file_data, tag_file_data in *. cbn [v_enc_data verifier_of].
  destruct (file_read_enc fr) as [e|] eqn:Ee; [|done]. cbn [fmap option_fmap option_map].
  destruct (Ht e eq_refl) as (Ha & Hl & ct & He & Hd). destruct (Hf fr Hs) as (_ & _ & Hw).
  destruct (Hw e Ee) as ([Hs0 _] & [Hn0 _] & Hnz & Hm).
  assert (mirrored_ctr s t = Some (tr_ctr t)) as ->.
  { destruct fr as [|k w e']; [done|]. injection Ee as ->. destruct (co_enc s Hc k w e Hs) as (_ & _ & _ & Hr).
    unfold mirrored_ctr. by rewrite Hr. }
  apply Z.mod_divide in Hm as [q Hq]; [|done]. assert (efd_length e / 2 = 16 * q) as Hq2.
  { rewrite Hq. replace (q * 32) with (16 * q * 2) by lia. by rewrite Z.div_mul. }
  assert (array (16 * S (Z.to_nat (q - 1))) (tr_file_data t)) as Ha'.
  { rewrite Hq2 in Ha. replace (16 * S (Z.to_nat (q - 1)))%nat with (Z.to_nat (16 * q)) by lia. done. }
  destruct (tag_decrypts _ _ _ _ _ Ha' He) as [Lc Hdec]. destruct Ha' as [La _]. destruct (digits_at _ _ _ Hd) as [Hx Hrange].
  rewrite decide_False by lia. replace (efd_start e + efd_length e - efd_start e) with (efd_length e) by lia.
  rewrite ensure_len_in by (destruct Hrange as [|Hr]; [lia|rewrite Hr in *; simpl in *; lia]). cbn [and_then].
  rewrite decide_False by (unfold MAX_SDM_ENC_FILE_DATA_BYTES; lia). unfold sdm_decode_hex_into. rewrite length_replicate.
  replace (Z.to_nat (efd_length e / 2)) with (length ct) by lia. rewrite Hx. cbn [and_then default].
  change (default [0; 0; 0] (le_bytes 3 <$> Some (tr_ctr t))) with (le_bytes 3 (tr_ctr t)). unfold aes_ecb_encrypt_block. destruct keys; [by rewrite Hdec|]. destruct Hdec as [c' Hdec]. by rewrite Hdec.
Qed.

Lemma tamper_tag s fr mode t data : sdm_wf s → sdm_file_read s = Some fr → tag_tamper s fr t data →
  extract_tamper_status (verifier_of s fr mode) data ((λ _, tr_file_data t) <$> file_read_enc fr) =
  Ok ((λ _, readout_new (tr_permanent t) (tr_current t)) <$> sdm_tamper_status s).
Proof.
  intros [_ _ Hto _] Hs Ht. unfold extract_tamper_status, tag_tamper, tamper_in_enc in *.
  cbn [v_tamper_status_offset v_enc_data verifier_of].
  destruct (sdm_tamper_status s) as [o|]; [|done]. specialize (Ht o eq_refl). destruct (Hto o eq_refl) as [Ho _].
  assert (∀ l i, 0 ≤ i → l !! Z.to_nat i = Some (tr_permanent t) ∧ l !! Z.to_nat (i + 1) = Some (tr_current t) →
    (p ←? byte_at l i; c ←? byte_at l (i + 1); Ok (Some (readout_new p c))) =
      Ok (Some (readout_new (tr_permanent t) (tr_current t))) ∧ i + 2 ≤ Z.of_nat (length l)) as Hb.
  { intros l i Hi [H0 H1]. rewrite (byte_at_lookup _ _ _ Hi H0), (byte_at_lookup l (i + 1) (tr_current t) ltac:(lia) H1).
    split; [done|]. apply lookup_lt_Some in H1. lia. }
  assert (∀ i, 0 ≤ i → data !! Z.to_nat i = Some (tr_permanent t) ∧ data !! Z.to_nat (i + 1) = Some (tr_current t) →
    (_ ←? ensure_len data (i + 2); p ←? byte_at data i; c ←? byte_at data (i + 1); Ok (Some (readout_new p c))) =
      Ok (Some (readout_new (tr_permanent t) (tr_current t)))) as Hout.
  { intros i Hi H. destruct (Hb data i Hi H) as [He Hl]. rewrite ensure_len_in by lia. exact He. }
  destruct (file_read_enc fr) as [e|]; cbn [fmap option_fmap option_map] in *; [|by apply Hout].
  case_decide; [|by apply Hout]. cbn [ok_or and_then]. destruct (Hb _ (o - efd_start e) ltac:(lia) Ht) as [He Hl].
  rewrite decide_False by lia. exact He.
Qed.

(** C6. The verifier accepts what a tag serves. For settings that satisfy their
    invariant (what [Sdm::try_new] and the decoder establish) with a MAC
    configured, in AES or in LRP mode, with plain, encrypted or no identity mirror,
    with or without encrypted file data and tamper status: whatever the tag writes
    into a file of any length, verification with the two keys of the tag succeeds
    and returns exactly what the tag said: its UID and counter as far as they are
    mirrored, its tamper status, and the file data in clear. *)
Theorem verifier_accepts_tag (s : Sdm) (fr : FileRead) (mode : CryptoMode) (kfile kmeta : list Z) (t : TagRead) (data : list Z) :
  sdm_wf s → sdm_file_read s = Some fr → tag_read_wf t → tag_file s fr mode kfile kmeta t data →
  ∃ v, verifier_try_new s mode = Ok v ∧ verify_with_meta_key v data kfile kmeta = Ok (tag_says s fr t).
Proof.
  intros Hs Hfr Ht [Hid Hen Hta Hmac]. exists (verifier_of s fr mode). split; [by apply try_new_eq|].
  unfold verify_with_meta_key, verify_inner. rewrite (extract_tag s fr mode kmeta t) by done. cbn [and_then].
  fold (tag_keys s mode kfile t). cbn [v_mode verifier_of v_mac_offset v_mac_input_offset].
  destruct (digits_at _ _ _ Hmac) as [Hx Hr]. destruct (wf_file_read s Hs fr Hfr) as ([Hi _] & [Hm _] & _).
  pose proof (co_window s (wf_consistent s Hs) fr Hfr) as Hw.
  assert (length (session_mac (tag_keys s mode kfile t) (mac_window (window fr) data)) = 8%nat) as L8.
  { unfold session_mac. destruct (tag_keys _ _ _ _); done. }
  rewrite L8 in *. rewrite ensure_len_in by (destruct Hr as [|Hr]; [lia|by rewrite Hr in L8]). cbn [and_then].
  unfold get_range. rewrite decide_True by (destruct Hr as [|Hr]; [lia|by rewrite Hr in L8]). cbn [ok_or and_then].
  replace (Z.to_nat (mw_mac (window fr)) - Z.to_nat (mw_input (window fr)))%nat
    with (Z.to_nat (mw_mac (window fr) - mw_input (window fr))) by lia.
  fold (slice (mw_input (window fr)) (Z.to_nat (mw_mac (window fr) - mw_input (window fr))) data).
  fold (mac_window (window fr) data). unfold decode_hex_array. rewrite Hx. cbn [and_then].
  unfold verify_mac. rewrite bool_decide_true by done. cbn [negb].
  rewrite (enc_tag s fr mode) by done. cbn [and_then]. rewrite (tamper_tag s fr mode) by done. cbn [and_then].
  unfold tag_says. do 2 f_equal. unfold mirrored_ctr. destruct (picc_includes_rctr _); [|done].
  cbn [fmap option_fmap option_map]. f_equal. apply ctr_value_le, Ht.
Qed.
End accepts.

(** ** The identity block of a Bolt Card, in AES mode *)

Section bolt.
  Context {C : AesCrypto} {K : CmacCrate}.

Lemma aes_single_dec key blob : array 16 blob → array 16 (aes_cbc_dec key blob) →
  aes_cbc_decrypt_n key zero_iv blob = aes_cbc_dec key blob.
Proof.
  intros [Lb _] [Ld _]. unfold aes_cbc_decrypt_n, aes_cbc_decrypt. rewrite decide_True by (by apply (aligned 0)).
  rewrite (blocks_of 1) by done. cbn [default cbc_dec_loop]. rewrite take_ge, app_nil_r by lia. by apply xor_bytes_zero.
Qed.

Lemma parse_bolt uid ctr pad : array 7 uid →
  parse_picc_data_tag (picc_block (Some uid) ctr pad) = Ok (Some uid, Some (le_bytes 3 ctr)).
Proof.
  intros [Hu _]. do 7 (destruct uid as [|? uid]; [done|]). by destruct uid.
Qed.

Lemma session_mac_bolt key uid ctr input : array 7 uid →
  session_mac (derive_keys_for Aes key (Some uid) (Some (le_bytes 3 ctr))) input =
  truncate_odd_bytes (aes_cmac (aes_cmac key (sdm_build_sv2 uid ctr)) input).
Proof.
  intros [Hu _]. rewrite sdm_build_sv2_eq by done. cbn [derive_keys_for derive_sdm_keys_aes session_mac].
  unfold sdm_sv_aes. cbv zeta. change (opt_bytes (Some uid)) with uid.
  change (opt_bytes (Some (le_bytes 3 ctr))) with (le_bytes 3 ctr). replace (10 - length (uid ++ le_bytes 3 ctr))%nat with 0%nat
    by (rewrite length_app, Hu, le_bytes_length; done).
  rewrite app_nil_r. done.
Qed.

(** A block with the tag of the Bolt Card is one that a card with mirrored UID
    and counter enciphers. *)
Lemma bolt_block buf : array 16 buf → nth 0 buf 0 = PICC_FORMAT_BOLTCARD →
  ∃ uid ctr pad, buf = picc_block (Some uid) ctr pad ∧ array 7 uid ∧ 0 ≤ ctr < 2 ^ 24.
Proof.
  intros [Hl Hb] Ht. destruct (picc_of_block buf) as [picc|] eqn:E.
  - destruct (picc_of_block_sound _ _ E Hb Hl) as (_ & _ & Hc & pad & -> & Hu).
    destruct (pd_uid picc) as [uid|]; [by exists uid, (pd_counter picc), pad|done].
  - unfold picc_of_block in E. rewrite Ht in E. done.
Qed.
End bolt.

(** ** An instance: LRP, encrypted identity, file data with the tamper status in it *)

Definition tap_read : TagRead :=
  mkTagRead toy_picc_uid 0x01020A 0x43 0x4F (lit "ab" ++ [0x43; 0x4F] ++ replicate 12 120).

Definition tap_mode_settings : Sdm :=
  mkSdm (PiccData_Encrypted Key1 5 both_free)
    (Some (FileRead_MacAndEnc Key2 (mkMacWindow 3 90) (mkEncFileData 54 32))) (Some 56).

Section instance.
#[local] Existing Instance toy_crypto.
#[local] Existing Instance ref_cmac.

Definition tap_meta_key : list Z := replicate 16 6.
Definition tap_file_key : list Z := replicate 16 9.
Definition tap_rnd : list Z := [1; 2; 3; 4; 5; 6; 7; 255].
Definition tap_block : list Z := identity_block (Some toy_picc_uid) (Some 0x01020A) (replicate 5 7).

Definition tap_blob : list Z * list Z :=
  default ([], []) (lricb_encrypt_in_place (from_base_key tap_meta_key) tap_rnd tap_block).
Definition tap_session : SdmKeys := derive_sdm_keys_lrp tap_file_key (Some toy_picc_uid) (Some (le_bytes 3 0x01020A)).
Definition tap_data : list Z * list Z :=
  match tap_session with
  | SdmKeys_Lrp enc _ => default ([], []) (lricb_encrypt_in_place enc (le_bytes 3 0x01020A ++ [0; 0; 0]) (tr_file_data tap_read))
  | _ => ([], [])
  end.

(** Five bytes, the identity, one byte, the file data, four bytes, the MAC. *)
Definition tap_mirrored : list Z :=
  lit "https" ++ encode_hex (tap_rnd ++ tap_blob.2) ++ lit "x" ++ encode_hex tap_data.2 ++ lit "&c1=".
Definition tap_mode_file : list Z := tap_mirrored ++ encode_hex (session_mac tap_session (slice 3 87 tap_mirrored)).
End instance.

Lemma verifier_accepts_tag_witness :
  ∃ v, verifier_try_new tap_mode_settings NtagTypes.Lrp = Ok v ∧
    verify_with_meta_key (C := toy_crypto) (K := ref_cmac) v tap_mode_file tap_file_key tap_meta_key =
      Ok (mkSdmVerification (Some toy_picc_uid) (Some 0x01020A) (Some (mkReadout TT_Close TT_Open))
            (Some (tr_file_data tap_read))).
Proof.
  apply (@verifier_accepts_tag toy_crypto toy_laws ref_cmac tap_mode_settings
    (FileRead_MacAndEnc Key2 (mkMacWindow 3 90) (mkEncFileData 54 32)) NtagTypes.Lrp tap_file_key tap_meta_key tap_read tap_mode_file).
  - assert (Sdm_try_new (sdm_picc_data tap_mode_settings) (sdm_file_read tap_mode_settings)
      (sdm_tamper_status tap_mode_settings) NtagTypes.Lrp = Ok tap_mode_settings) as H by reflexivity.
    apply Sdm_try_new_ok in H as (_ & Hc & _); [|intros ? ? ? [= <- <- <-]; simpl; lia].
    constructor; [|intros ? [= <-]|intros ? [= <-]|exact Hc].
    + split; [unfold is_offset; simpl; lia|]. intros ? [= <-] ?. done.
    + split_and!; [unfold is_offset; simpl; lia..|]. intros ? [= <-]. unfold is_enc_length, is_offset. simpl. done.
    + unfold is_offset. lia.
  - reflexivity.
  - constructor; [apply (bool_decide_unpack _); vm_compute; exact I|simpl; lia].
  - constructor.
    + exists (replicate 5 7). split; [apply (bool_decide_unpack _); vm_compute; exact I|].
      exists tap_rnd, tap_blob.1, tap_blob.2. split; [apply (bool_decide_unpack _); vm_compute; exact I|].
      split; [vm_compute; reflexivity|]. split; [lia|vm_compute; reflexivity].
    + intros ? [= <-]. split; [apply (bool_decide_unpack _); vm_compute; exact I|].
      split; [apply (bool_decide_unpack _); vm_compute; exact I|].
      exists tap_data.2. split; [exists tap_data.1; vm_compute; reflexivity|split; [simpl; lia|vm_compute; reflexivity]].
    + intros ? [= <-]. vm_compute. done.
    + split; [simpl; lia|vm_compute; reflexivity].
Defined.
