(* ===== verification/Tap.v ===== *)
(** * From burn to tap

    The parts joined: [burn] of [crates/bolty-ntag/src/lib.rs] with the planner of
    [vendor/ntag424/src/sdm_url.rs], the message a tapped card serves, the NDEF
    reader of [crates/bolty-ntag/src/lib.rs] and the verifier of
    [crates/bolty-core/src/picc.rs].  A card that was burned with a Bolt Card
    template is accepted, with its own UID and counter. *)

From S2P Require Import Prelude Str Hex Derivation Picc AesRef Ndef NtagTypes FileSettings SdmUrl Session Ntag NtagProofs Channel Lrp SdmVerify SdmProofs.

(** ** What a card serves

    The documented behaviour of the tag (not code of the repository) for the
    settings that [burn] writes: encrypted UID and counter, and a MAC over a window
    of the file.  On a read, the 32 digits at the offset of the identity data are
    the encrypted block, with padding of the card's choice; the 16 digits at the
    offset of the MAC are the truncated session MAC over the window, in which the
    identity data is already in place. *)

Section tap.
  Context {C : AesCrypto}.

Definition sdm_window_mac (key uid : list Z) (ctr : Z) (input : list Z) : list Z :=
  truncate_odd_bytes (aes_cmac (aes_cmac key (sdm_build_sv2 uid ctr)) input).

Definition file_window (w : MacWindow) (file : list Z) : list Z :=
  take (Z.to_nat (mw_mac w - mw_input w)) (drop (Z.to_nat (mw_input w)) file).

Inductive serves (c : Card) (ctr : Z) : list Z → Prop :=
| serves_intro uid pkey o f mkey w p_hex c_hex pad :
    c_uid c = Uid_Fixed uid → array 7 uid →
    card_sdm c = Some (mkSdm (PiccData_Encrypted pkey o (EncContent_Both f)) (Some (FileRead_MacOnly mkey w)) None) →
    array 5 pad →
    decode_hex 16 p_hex = Ok (aes_cbc_enc (get_key pkey (c_keys c)) (picc_block (Some uid) ctr pad)) →
    let file := copy_at (Z.to_nat o) p_hex (c_ndef c) in
    decode_hex 8 c_hex = Ok (sdm_window_mac (get_key mkey (c_keys c)) uid ctr (file_window w file)) →
    serves c ctr (copy_at (Z.to_nat (mw_mac w)) c_hex file).

(** ** Splicing *)

Lemma copy_at_mid (a x y b : list Z) off :
  off = length a → length x = length y → copy_at off x (a ++ y ++ b) = a ++ x ++ b.
Proof.
  intros -> Hl. unfold copy_at. rewrite take_app_length, Hl. do 2 f_equal.
  rewrite <-length_app, (assoc_L (++)). apply drop_app_length.
Qed.

Lemma ndef_file_rest msg rest : ndef_file msg [] ++ rest = ndef_file msg rest.
Proof. unfold ndef_file. by rewrite app_nil_r, (assoc_L (++)). Qed.

(** The seven bytes before the text depend on the lengths only. *)
Definition ndef_head (code : Z) (n : nat) : list Z := take 7 (ndef_file (uri_message true code (replicate n 0)) []).

Lemma ndef_head_ok code text rest : 1 + Z.of_nat (length text) ≤ 255 →
  ndef_file (uri_message true code text) rest = ndef_head code (length text) ++ text ++ rest ∧
  length (ndef_head code (length text)) = 7%nat.
Proof.
  intros Hl. rewrite <-ndef_file_rest.
  unfold ndef_head. rewrite !ndef_header by (rewrite ?length_replicate; lia). by rewrite length_replicate, <-(assoc_L (++)).
Qed.

(** Both parameters spliced into the planned file, at the planned offsets. *)
Lemma bolt_spliced code body p c rest :
  Z.of_nat (length body) ≤ 195 → length p = 32%nat → length c = 16%nat →
  copy_at (Z.to_nat (mac_at body)) c (copy_at (Z.to_nat (picc_at body)) p
    (ndef_file (uri_message true code (bolt_text body (replicate 32 48) (replicate 16 48))) rest)) =
  ndef_file (uri_message true code (bolt_text body p c)) rest.
Proof.
  intros Hl Hp Hc. pose proof (bolt_text_length body (replicate 32 48) (replicate 16 48)) as L0.
  pose proof (bolt_text_length body p c) as L1. rewrite !length_replicate in L0.
  destruct (ndef_head_ok code (bolt_text body (replicate 32 48) (replicate 16 48)) rest ltac:(lia)) as [-> Hh].
  destruct (ndef_head_ok code (bolt_text body p c) rest ltac:(lia)) as [-> _].
  replace (length (bolt_text body p c)) with (length (bolt_text body (replicate 32 48) (replicate 16 48))) by lia.
  set (h := ndef_head _ _) in *. unfold bolt_text, picc_at, mac_at, URI_AT.
  replace (h ++ (body ++ lit "?p=" ++ replicate 32 48 ++ lit "&c=" ++ replicate 16 48) ++ rest) with
    ((h ++ body ++ lit "?p=") ++ replicate 32 48 ++ lit "&c=" ++ replicate 16 48 ++ rest)
    by (by rewrite <-!(assoc_L (++))).
  rewrite copy_at_mid by (rewrite ?length_app, ?length_replicate, ?Hh; simpl; lia).
  replace ((h ++ body ++ lit "?p=") ++ p ++ lit "&c=" ++ replicate 16 48 ++ rest) with
    ((h ++ body ++ lit "?p=" ++ p ++ lit "&c=") ++ replicate 16 48 ++ rest) by (by rewrite <-!(assoc_L (++))).
  rewrite copy_at_mid by (rewrite ?length_app, ?length_replicate, ?Hh, ?Hp; simpl; lia).
  by rewrite <-!(assoc_L (++)).
Qed.

(** ** Reading it back *)

Lemma hex_ascii n hex l : decode_hex n hex = Ok l → Forall is_ascii hex ∧ 0 ∉ hex.
Proof.
  intros H%decode_hex_digits. assert (Forall (λ c, is_ascii c ∧ c ≠ 0) hex) as Ha.
  { eapply Forall_impl; [done|]. intros c. unfold decode_hex_nibble, is_ascii. repeat case_decide; try lia. done. }
  rewrite Forall_and in Ha. destruct Ha as [? Hz]. split; [done|]. rewrite Forall_forall in Hz. intros Hz0. by apply (Hz 0).
Qed.

Lemma bolt_parsed code prefix body p c rest lp lc :
  URI_PREFIXES !! Z.to_nat code = Some prefix → utf8 body → Z.of_nat (length body) ≤ 195 →
  decode_hex 16 p = Ok lp → decode_hex 8 c = Ok lc →
  parse_ndef_uri (ndef_file (uri_message true code (bolt_text body p c)) rest) =
  Some (mkNdefUri (prefix ++ bolt_text body p c) (Some p) (Some c)).
Proof.
  intros Hpre Hu Hl Hp Hc. destruct (hex_ascii _ _ _ Hp) as [Ap _], (hex_ascii _ _ _ Hc) as [Ac Zc].
  apply decode_hex_ok in Hp as Lp. apply decode_hex_ok in Hc as Lc. destruct Lp as [Lp _], Lc as [Lc _].
  rewrite (parse_ndef_uri_roundtrip true code prefix); [|done|..].
  - unfold parsed_uri, bolt_text. rewrite extract_p_then_c by (by eapply decode_hex_delim_free). done.
  - apply from_utf8_iff. unfold bolt_text. apply utf8_app; [done|].
    apply utf8_ascii. rewrite !Forall_app. split_and!; [|done| |done]; by apply (bool_decide_unpack _).
  - destruct c as [|x c _] using rev_ind; [done|].
    unfold bolt_text. rewrite !(assoc_L (++)), last_snoc. intros [= ->]. set_solver.
  - rewrite bolt_text_length. lia.
Qed.

Lemma window_empty w file : mw_input w = mw_mac w → file_window w file = [].
Proof. intros H. unfold file_window. rewrite H, Z.sub_diag. by rewrite take_0. Qed.

Lemma bolt_accepted `{!AesLaws C} key1 key2 base p c uid ctr pad :
  array 7 uid → 0 ≤ ctr < 2 ^ 24 → array 5 pad →
  decode_hex 16 p = Ok (aes_cbc_enc key1 (picc_block (Some uid) ctr pad)) →
  decode_hex 8 c = Ok (sdm_window_mac key2 uid ctr []) →
  picc_parse_url key1 key2 (base ++ lit "?p=" ++ p ++ lit "&c=" ++ c) = mkPiccData true (Some uid) ctr true.
Proof.
  intros Hu Hctr [Lp Bp] Hp Hc. unfold picc_parse_url.
  rewrite extract_p_then_c by (by eapply decode_hex_delim_free).
  rewrite (picc_decrypt_p_ok _ _ _ Hp), aes_cbc_dec_enc by (by apply picc_block_array).
  rewrite picc_of_block_ok by done. by rewrite (proj2 (picc_verify_c_spec _ _ _)).
Qed.
End tap.

(** ** The two verifiers

    On a file of the planned form the verifier of [picc.rs] reads the URL and the
    verifier of the protocol crate the bytes at the offsets of the settings. *)

Section verifiers.
  Context {C : AesCrypto} {K : CmacCrate}.

(** The settings of a plan, whatever the keys. *)
Definition bolt_settings (body : list Z) (pkey mkey : KeyNumber) (f : ReadCtrFeatures) : Sdm :=
  mkSdm (PiccData_Encrypted pkey (picc_at body) (EncContent_Both f))
    (Some (FileRead_MacOnly mkey (mkMacWindow (mac_at body) (mac_at body)))) None.

(** What both are to decide: the parameters are those of a card with these keys. *)
Definition bolt_genuine (key1 key2 p c uid : list Z) (ctr : Z) : Prop :=
  ∃ blob pad, decode_hex 16 p = Ok blob ∧ aes_cbc_dec key1 blob = picc_block (Some uid) ctr pad ∧
    array 7 uid ∧ 0 ≤ ctr < 2 ^ 24 ∧ decode_hex 8 c = Ok (sdm_window_mac key2 uid ctr []).

Definition bolt_file (code : Z) (body p c rest : list Z) : list Z := ndef_file (uri_message true code (bolt_text body p c)) rest.

Lemma picc_genuine key1 key2 base p c uid ctr :
  (∀ b, array 16 b → array 16 (aes_cbc_dec key1 b)) → delim_free p → delim_free c →
  picc_parse_url key1 key2 (base ++ lit "?p=" ++ p ++ lit "&c=" ++ c) = mkPiccData true (Some uid) ctr true ↔
  bolt_genuine key1 key2 p c uid ctr.
Proof.
  intros Hdec Dp Dc. unfold picc_parse_url. rewrite extract_p_then_c by done. split.
  - destruct (picc_decrypt_p key1 p) as [picc|] eqn:Hd; [|done].
    destruct (picc_verify_c key2 picc c) eqn:Hv; simpl; [|done]. intros [= Hu Hctr].
    unfold picc_decrypt_p in Hd. case_decide; [done|]. pose proof (decode_hex_into_case 16 p) as E.
    destruct (decode_hex_into p _) as [[[]|] blob]; [|done]. pose proof (decode_hex_ok _ _ _ E) as [_ Hb].
    destruct (Hdec blob Hb) as [Hl Hby]. apply picc_verify_c_spec in Hv as [_ Hv].
    destruct (picc_of_block_sound _ _ Hd Hby Hl) as (_ & _ & Hc & pad & Hblk & Hok).
    destruct picc as [valid u n h]. simpl in *. subst u n. by exists blob, pad.
  - intros (blob & pad & Hp & Hblk & Hu & Hctr & Hc). rewrite (picc_decrypt_p_ok _ _ _ Hp), Hblk, picc_of_block_ok by done.
    by rewrite (proj2 (picc_verify_c_spec _ _ _)).
Qed.

(** Where the parameters are in the file. *)
Lemma bolt_slices code body p c rest :
  Z.of_nat (length body) ≤ 195 → length p = 32%nat → length c = 16%nat →
  let file := bolt_file code body p c rest in
  slice (picc_at body) 32 file = p ∧ slice (mac_at body) 16 file = c ∧ mac_at body + 16 ≤ Z.of_nat (length file).
Proof.
  intros Hl Hp Hc file. pose proof (bolt_text_length body p c) as L. unfold file, bolt_file.
  destruct (ndef_head_ok code (bolt_text body p c) rest ltac:(lia)) as [-> Hh].
  set (h := ndef_head _ _) in *. unfold slice, bolt_text, picc_at, mac_at, URI_AT.
  assert (h ++ (body ++ lit "?p=" ++ p ++ lit "&c=" ++ c) ++ rest = (h ++ body ++ lit "?p=") ++ p ++ lit "&c=" ++ c ++ rest) as ->
    by (by rewrite <-!(assoc_L (++))).
  assert ((h ++ body ++ lit "?p=") ++ p ++ lit "&c=" ++ c ++ rest = (h ++ body ++ lit "?p=" ++ p ++ lit "&c=") ++ c ++ rest) as E
    by (by rewrite <-!(assoc_L (++))).
  split_and!.
  - rewrite drop_app_exact by (rewrite !length_app, Hh; simpl; lia). by apply take_app_exact.
  - rewrite E, drop_app_exact by (rewrite !length_app, Hh; simpl; lia). by apply take_app_exact.
  - rewrite !length_app, Hh, Hp, Hc. simpl. lia.
Qed.

(** The bytes of the two parameters, found at the offsets of the settings. *)
Lemma bolt_digits code body p c rest blob mac :
  Z.of_nat (length body) ≤ 195 → decode_hex 16 p = Ok blob → decode_hex 8 c = Ok mac →
  let file := bolt_file code body p c rest in
  decode_hex_at 16 file (picc_at body) = Ok blob ∧ decode_hex_at 8 file (mac_at body) = Ok mac.
Proof.
  intros Hl Hb Hm. pose proof (decode_hex_ok _ _ _ Hb) as [Lp [La _]]. pose proof (decode_hex_ok _ _ _ Hm) as [Lc [Lm _]].
  destruct (bolt_slices code body p c rest Hl Lp Lc) as (Sp & Sc & _). simpl in La, Lm.
  split; rewrite <-?La, <-?Lm; apply digits_at; (split; [unfold picc_at, mac_at, URI_AT; lia|]).
  - rewrite La. change (2 * 16)%nat with 32%nat. by rewrite Sp.
  - rewrite Lm. change (2 * 8)%nat with 16%nat. by rewrite Sc.
Qed.

(** The verifier of these settings on such a file, up to its second step. *)
Lemma inspect_steps code body p c rest pkey mkey f key1 key2 :
  Z.of_nat (length body) ≤ 195 → length p = 32%nat → length c = 16%nat →
  let file := bolt_file code body p c rest in
  inspect_verify (bolt_settings body pkey mkey f) file key2 key1 =
  ok (blob ←? decode_hex_at 16 file (picc_at body);
      ids ←? decrypt_picc_data_aes key1 blob;
      mac ←? decode_hex_at 8 file (mac_at body);
      if negb (verify_mac (derive_keys_for Aes key2 ids.1 ids.2) [] mac) then sdm_err MacMismatch
      else Ok (mkSdmVerification ids.1 (ctr_value <$> ids.2) None None)).
Proof.
  intros Hl Hp Hc file. destruct (bolt_slices code body p c rest Hl Hp Hc) as (_ & _ & Hlen). fold file in Hlen.
  assert (0 ≤ picc_at body ∧ 0 ≤ mac_at body ∧ picc_at body + 32 ≤ mac_at body) as (H1 & H2 & H3)
    by (unfold picc_at, mac_at, URI_AT; lia).
  unfold inspect_verify. rewrite (try_new_eq _ (FileRead_MacOnly mkey (mkMacWindow (mac_at body) (mac_at body)))) by done.
  cbn [ok mbind option_bind]. unfold verify_with_meta_key, verify_inner, extract_picc_data, decode_hex_array.
  cbn [v_picc_source verifier_of sdm_picc_data bolt_settings v_mode v_mac_offset v_mac_input_offset window mw_mac mw_input].
  rewrite !ensure_len_in by (unfold picc_blob_ascii_len, PICC_BLOB_LEN_AES; lia). cbn [and_then].
  unfold get_range. rewrite decide_True by lia. rewrite Nat.sub_diag, take_0. cbn [ok_or and_then].
  destruct (decode_hex_at 16 file (picc_at body)) as [blob|]; [|done]. cbn [and_then].
  destruct (decrypt_picc_data_aes key1 blob) as [[uid ctr]|]; done.
Qed.

Lemma inspect_complete code body p c rest pkey mkey f key1 key2 uid ctr blob pad :
  Z.of_nat (length body) ≤ 195 → decode_hex 16 p = Ok blob → array 16 (aes_cbc_dec key1 blob) →
  aes_cbc_dec key1 blob = picc_block (Some uid) ctr pad → array 7 uid → 0 ≤ ctr < 2 ^ 24 →
  decode_hex 8 c = Ok (sdm_window_mac key2 uid ctr []) →
  inspect_verify (bolt_settings body pkey mkey f) (bolt_file code body p c rest) key2 key1 =
    Some (mkSdmVerification (Some uid) (Some ctr) None None).
Proof.
  intros Hl Hb Hd Hblk Hu Hctr Hm. pose proof (decode_hex_ok _ _ _ Hb) as [Lp Ha]. pose proof (decode_hex_ok _ _ _ Hm) as [Lc _].
  destruct (bolt_digits code body p c rest _ _ Hl Hb Hm) as [Hx Hy].
  rewrite inspect_steps by done. rewrite Hx, Hy. cbn [and_then]. unfold decrypt_picc_data_aes.
  rewrite aes_single_dec by done. rewrite Hblk, parse_bolt by done. cbn [and_then fst snd].
  unfold verify_mac. rewrite session_mac_bolt, bool_decide_true by done. cbn [negb ok fmap option_fmap option_map].
  by rewrite ctr_value_le.
Qed.

Lemma inspect_genuine code body p c rest pkey mkey f key1 key2 uid ctr :
  (∀ b, array 16 b → array 16 (aes_cbc_dec key1 b)) →
  Z.of_nat (length body) ≤ 195 → length p = 32%nat → length c = 16%nat →
  inspect_verify (bolt_settings body pkey mkey f) (bolt_file code body p c rest) key2 key1 =
    Some (mkSdmVerification (Some uid) (Some ctr) None None) ∧
  (∃ blob, decode_hex 16 p = Ok blob ∧ nth 0 (aes_cbc_dec key1 blob) 0 = PICC_FORMAT_BOLTCARD) ↔
  bolt_genuine key1 key2 p c uid ctr.
Proof.
  intros Hdec Hl Hp Hc. split.
  - rewrite inspect_steps by done. intros [Hv (blob & Hb & Ht)]. pose proof (decode_hex_ok _ _ _ Hb) as [_ Ha].
    destruct (bolt_slices code body p c rest Hl Hp Hc) as (Sp & Sc & _). set (file := bolt_file _ _ _ _ _) in *.
    assert (0 ≤ picc_at body ∧ 0 ≤ mac_at body) as [H1 H2] by (unfold picc_at, mac_at, URI_AT; lia).
    destruct (digits_at file (picc_at body) blob) as [Hx _].
    { split; [done|]. destruct Ha as [La _]. rewrite La. change (2 * 16)%nat with 32%nat. by rewrite Sp. }
    destruct Ha as [La Ba]. rewrite La in Hx. rewrite Hx in Hv. cbn [and_then] in Hv. unfold decrypt_picc_data_aes in Hv.
    rewrite aes_single_dec in Hv by (done || by apply Hdec).
    destruct (bolt_block _ (Hdec blob (conj La Ba)) Ht) as (u & n & pad & Hblk & Hu & Hn).
    rewrite Hblk, parse_bolt in Hv by done. cbn [and_then fst snd] in Hv.
    destruct (decode_hex_at 8 file (mac_at body)) as [mac|] eqn:Em; [|done]. cbn [and_then] in Hv.
    apply at_digits in Em as [[_ Em] L8]; [|done]. rewrite L8 in Em. change (2 * 8)%nat with 16%nat in Em. rewrite Sc in Em.
    unfold verify_mac in Hv. case_bool_decide as Hm; [|done]. cbn [negb ok fmap option_fmap option_map] in Hv.
    rewrite ctr_value_le in Hv by done. injection Hv as <- <-.
    exists blob, pad. split_and!; try done; try lia; try apply Hu. rewrite Em, <-Hm. f_equal. by apply session_mac_bolt.
  - intros (blob & pad & Hb & Hblk & Hu & Hn & Hm). pose proof (decode_hex_ok _ _ _ Hb) as [_ Ha].
    split; [|exists blob; by rewrite Hblk]. eapply inspect_complete; eauto.
Qed.

(** C7. The two verifiers agree on the files of Bolt Cards. For any file of the
    planned form (any address, any 32 and 16 characters that contain no delimiter
    as parameters, anything after the message), under any two keys: the verifier
    of the core crate accepts the URL with a UID and a counter if and only if the
    verifier of the protocol crate, reading the file at the offsets of the
    settings, accepts it with the same UID and counter and the identity block has
    the tag of a Bolt Card. (Without the last condition the protocol crate accepts
    more: it reads the reserved bits of the tag as nothing.) *)
Theorem verifiers_agree (code : Z) (prefix body p c rest : list Z) (pkey mkey : KeyNumber) (f : ReadCtrFeatures)
    (key1 key2 uid : list Z) (ctr : Z) :
  (∀ b, array 16 b → array 16 (aes_cbc_dec key1 b)) →
  Z.of_nat (length body) ≤ 195 → length p = 32%nat → length c = 16%nat → delim_free p → delim_free c →
  picc_parse_url key1 key2 (prefix ++ bolt_text body p c) = mkPiccData true (Some uid) ctr true ↔
  inspect_verify (bolt_settings body pkey mkey f) (bolt_file code body p c rest) key2 key1 =
    Some (mkSdmVerification (Some uid) (Some ctr) None None) ∧
  (∃ blob, decode_hex 16 p = Ok blob ∧ nth 0 (aes_cbc_dec key1 blob) 0 = PICC_FORMAT_BOLTCARD).
Proof.
  intros Hdec Hl Hp Hc Dp Dc. rewrite inspect_genuine by done. unfold bolt_text. rewrite (assoc_L (++)).
  by apply picc_genuine.
Qed.
End verifiers.

(** ** The end-to-end theorem *)

Section burned.
  Context {C : AesCrypto} `{!AesLaws C} {K : CmacCrate}.
  Context {T TE : Type} {D : NtagDevice T TE} {L : NtagLaws D}.

(** A template a server hands out: a plain URL, then [p] and [c], short enough for
    the file of the card. *)
Definition bolt_url (base name : list Z) : Prop :=
  utf8 base ∧ Forall plain_char base ∧ name ∈ both_names ∧
  Z.of_nat (length base - (detect_uri_prefix base).2) ≤ 195.

(** What the card holds after a burn with such a template. *)
Lemma burned_bolt_card params rnd_a base name (w w' : T) uid :
  bp_lnurl params = bolt_template base name → bolt_url base name →
  burn sdm_url_config params rnd_a w = (Ok uid, w') →
  uid = uid_to_fixed (c_uid (card w)) ∧
  provisioned (bolt_plan burn_sdm_opts (detect_uri_prefix base).1 (drop (detect_uri_prefix base).2 base))
    params (card w) (card w').
Proof.
  intros Hurl (Hu & Hp & Hn & Hl) H.
  destruct (wp_run _ _ _ _ _ (burn_outcome sdm_url_config params rnd_a w) H) as [_ Ho].
  destruct (Ho uid eq_refl) as (-> & _ & plan & Hplan & Hprov). split; [done|].
  pose proof (bolt_template_planned base name burn_sdm_opts) as Ht. rewrite Hurl in Hplan.
  destruct (detect_uri_prefix base) as [code n]. simpl in *. rewrite Ht in Hplan by (done || (simpl; lia)).
  by injection Hplan as <-.
Qed.

(** What a tapped card serves after such a burn: the file of the plan with the two
    parameters of the tag in their places. *)
Lemma burned_serves params rnd_a base name uid served (w w' : T) ctr :
  bp_lnurl params = bolt_template base name → bolt_url base name →
  burn sdm_url_config params rnd_a w = (Ok uid, w') → serves (card w') ctr served →
  let code := (detect_uri_prefix base).1 in
  let body := drop (detect_uri_prefix base).2 base in
  ∃ p c rest pad,
    served = bolt_file code body p c rest ∧ Z.of_nat (length body) ≤ 195 ∧
    card_sdm (card w') = Some (bolt_settings body Key1 Key2 (mkReadCtrFeatures None CtrRet_NoAccess)) ∧
    array 7 uid ∧ array 5 pad ∧
    decode_hex 16 p = Ok (aes_cbc_enc (k1 (bp_keys params)) (picc_block (Some uid) ctr pad)) ∧
    decode_hex 8 c = Ok (sdm_window_mac (k2 (bp_keys params)) uid ctr []).
Proof.
  intros Hurl Hb H Hs. destruct (burned_bolt_card _ _ _ _ _ _ _ Hurl Hb H) as [-> [Pu Pk _ Pn _ _ Ps]].
  destruct Hb as (Hu & _ & _ & Hl). cbv zeta.
  set (code := (detect_uri_prefix base).1) in *. set (n := (detect_uri_prefix base).2) in *.
  inversion Hs as [uid pkey o f mkey win p c pad Hcu Ha Hsdm Hpad Hp file Hc Hserved]. subst served file.
  rewrite Ps in Hsdm. injection Hsdm as <- <- <- <- <-. rewrite Pk in Hp, Hc. simpl in Hp, Hc.
  rewrite window_empty in Hc by done. rewrite Pu in Hcu. rewrite Hcu. simpl uid_to_fixed.
  exists p, c, (drop (length (ndef_bytes (bolt_plan burn_sdm_opts code (drop n base)))) (c_ndef (card w'))), pad.
  split; [|rewrite Ps; split_and!; try done; try apply Ha; try apply Hpad; rewrite length_drop; lia].
  rewrite <-(take_drop (length (ndef_bytes (bolt_plan burn_sdm_opts code (drop n base)))) (c_ndef (card w'))) at 1. rewrite Pn.
  cbn [ndef_bytes bolt_plan mw_mac]. rewrite ndef_file_rest.
  apply decode_hex_ok in Hp as Lp. apply decode_hex_ok in Hc as Lc.
  rewrite bolt_spliced by (rewrite ?length_drop; (lia || apply Lp || apply Lc)). done.
Qed.

(** C5. From burn to tap. After a burn that reports success, with any template of
    the usual form, every message the card serves (at any counter, with any padding
    of its own) parses as the URL of the template with the two parameters filled
    in, and both verifiers accept it under the burned keys K1 and K2, with the
    card's own UID, the one the burn reported, and that counter: the one of the
    core crate from the URL, the one of the protocol crate, which inspection and
    diagnosis use, from the bytes and the settings on the card. *)
Theorem burned_card_verifies (params : BurnParams) (rnd_a : AesKey) (base name uid served : list Z) (w w' : T) (ctr : Z) :
  bp_lnurl params = bolt_template base name → bolt_url base name →
  burn sdm_url_config params rnd_a w = (Ok uid, w') →
  0 ≤ ctr < 2 ^ 24 → serves (card w') ctr served →
  (∃ p c, let url := base ++ lit "?p=" ++ p ++ lit "&c=" ++ c in
    parse_ndef_uri served = Some (mkNdefUri url (Some p) (Some c)) ∧
    picc_parse_url (k1 (bp_keys params)) (k2 (bp_keys params)) url = Picc.mkPiccData true (Some uid) ctr true) ∧
  (∃ sdm, card_sdm (card w') = Some sdm ∧
    inspect_verify sdm served (k2 (bp_keys params)) (k1 (bp_keys params)) =
      Some (mkSdmVerification (Some uid) (Some ctr) None None)).
Proof.
  intros Hurl Hb H Hctr Hs. destruct (burned_serves _ _ _ _ _ _ _ _ _ Hurl Hb H Hs)
    as (p & c & rest & pad & -> & Hl & Hsdm & Hu & Hpad & Hp & Hc).
  pose proof (picc_block_array (Some uid) ctr pad Hu (proj2 Hpad) (proj1 Hpad)) as Hblk. split.
  - exists p, c. split; [|by eapply bolt_accepted].
    assert (detect_uri_prefix base = ((detect_uri_prefix base).1, (detect_uri_prefix base).2)) as Hd by apply surjective_pairing.
    destruct (detect_uri_prefix_spec _ _ _ Hd) as [Hpre _].
    pose proof (detect_uri_prefix_boundary base (proj1 Hb)) as Hbd. unfold bolt_file.
    erewrite bolt_parsed; [|done|done|done|done..].
    do 2 f_equal. unfold bolt_text. by rewrite (assoc_L (++)), take_drop.
  - eexists. split; [exact Hsdm|]. eapply inspect_complete; rewrite ?aes_cbc_dec_enc by done; done.
Qed.
End burned.

(** ** An instance: the simulated card, burned and tapped *)

Definition tap_base : list Z := lit "https://card.example/bolt".
Definition tap_params : BurnParams :=
  mkBurnParams (bolt_template tap_base (lit "picc:uid+ctr")) sample_keys 1 FACTORY_KEY CardKeys_zeroed.
Definition tap_card : Sim := (burn sdm_url_config tap_params (replicate 16 9) sim_factory).2.

(** The message after 42 taps, under the toy cipher. *)
Definition tap_p : list Z := encode_hex (picc_block (Some toy_picc_uid) 42 (replicate 5 7)).
Definition tap_c : list Z := encode_hex (sdm_window_mac (C := toy_crypto) (replicate 16 3) toy_picc_uid 42 []).
Definition tap_served : list Z := copy_at 62 tap_c (copy_at 27 tap_p (c_ndef (card tap_card))).

Lemma burned_card_verifies_witness :
  serves (C := toy_crypto) (card tap_card) 42 tap_served ∧
  (∃ p c, let url := tap_base ++ lit "?p=" ++ p ++ lit "&c=" ++ c in
    parse_ndef_uri tap_served = Some (mkNdefUri url (Some p) (Some c)) ∧
    picc_parse_url (C := toy_crypto) (replicate 16 2) (replicate 16 3) url =
      Picc.mkPiccData true (Some toy_picc_uid) 42 true) ∧
  (∃ sdm, card_sdm (card tap_card) = Some sdm ∧
    inspect_verify (C := toy_crypto) (K := ref_cmac) sdm tap_served (replicate 16 3) (replicate 16 2) =
      Some (mkSdmVerification (Some toy_picc_uid) (Some 42) None None)).
Proof.
  assert (serves (C := toy_crypto) (card tap_card) 42 tap_served) as Hs.
  { apply (serves_intro (C := toy_crypto) (card tap_card) 42 toy_picc_uid Key1 27 (mkReadCtrFeatures None CtrRet_NoAccess)
      Key2 (mkMacWindow 62 62) tap_p tap_c (replicate 5 7));
      try (apply (bool_decide_unpack _); vm_compute; exact I); vm_compute; reflexivity. }
  split; [exact Hs|].
  apply (@burned_card_verifies toy_crypto toy_laws ref_cmac _ _ _ _ tap_params (replicate 16 9) tap_base
    (lit "picc:uid+ctr") toy_picc_uid tap_served sim_factory tap_card 42).
  - reflexivity.
  - split; [by vm_compute|]. split; [apply (bool_decide_unpack _); vm_compute; exact I|].
    split; [apply (bool_decide_unpack _); vm_compute; exact I|]. vm_compute. discriminate.
  - vm_compute. reflexivity.
  - lia.
  - exact Hs.
Defined.

(** The card of the other witness, read by both. *)
Lemma verifiers_agree_witness :
  let settings := bolt_settings (drop 8 tap_base) Key1 Key2 (mkReadCtrFeatures None CtrRet_NoAccess) in
  picc_parse_url (C := toy_crypto) (replicate 16 2) (replicate 16 3) (lit "https://" ++ bolt_text (drop 8 tap_base) tap_p tap_c) =
    Picc.mkPiccData true (Some toy_picc_uid) 42 true ↔
  inspect_verify (C := toy_crypto) (K := ref_cmac) settings (bolt_file 4 (drop 8 tap_base) tap_p tap_c [])
    (replicate 16 3) (replicate 16 2) = Some (mkSdmVerification (Some toy_picc_uid) (Some 42) None None) ∧
  (∃ blob, decode_hex 16 tap_p = Ok blob ∧ nth 0 blob 0 = PICC_FORMAT_BOLTCARD).
Proof.
  apply (@verifiers_agree toy_crypto ref_cmac 4 (lit "https://") (drop 8 tap_base) tap_p tap_c [] Key1 Key2
    (mkReadCtrFeatures None CtrRet_NoAccess) (replicate 16 2) (replicate 16 3) toy_picc_uid 42).
  - intros b Hb. exact Hb.
  - vm_compute. discriminate.
  - reflexivity.
  - reflexivity.
  - apply (bool_decide_unpack _). vm_compute. exact I.
  - apply (bool_decide_unpack _). vm_compute. exact I.
Defined.

(** A block whose tag has a reserved bit set ([0xD7]), under a correct MAC: the
    protocol crate accepts it, the core crate does not. *)
Definition odd_p : list Z := encode_hex (0xD7 :: drop 1 (picc_block (Some toy_picc_uid) 42 (replicate 5 7))).

Example reserved_tag_bit :
  let settings := bolt_settings (drop 8 tap_base) Key1 Key2 (mkReadCtrFeatures None CtrRet_NoAccess) in
  inspect_verify (C := toy_crypto) (K := ref_cmac) settings (bolt_file 4 (drop 8 tap_base) odd_p tap_c [])
    (replicate 16 3) (replicate 16 2) = Some (mkSdmVerification (Some toy_picc_uid) (Some 42) None None) ∧
  picc_parse_url (C := toy_crypto) (replicate 16 2) (replicate 16 3) (lit "https://" ++ bolt_text (drop 8 tap_base) odd_p tap_c) =
    PiccData_default.
Proof. split; vm_compute; reflexivity. Qed.
