(* ===== verification/EmuProofs.v ===== *)
(** * What the emulated card guarantees

    The card of [EmuCard.v] behind the commands of [Wire.v] gives the account
    [NtagAnswers] of [Session.v] that the workflows need, so [burn] and [wipe] of
    [Ntag.v] run to their end on it, APDU by APDU.  Sessions of any length refine the
    specification [does]; and no APDU changes keys, versions or settings without the
    MAC of the open session. *)

From S2P Require Import Prelude Str Hex Derivation Picc AesRef Ndef NtagTypes FileSettings SdmUrl Channel Session Wire Link EmuCard EmuLink Ntag NtagProofs Tap.

(** ** The card the workflows see *)

Definition card_keys (w : MockTransport) : CardKeys :=
  let k i := nth i (mt_keys w) [] in mkCardKeys (k 0%nat) (k 1%nat) (k 2%nat) (k 3%nat) (k 4%nat).
Definition card_vers (w : MockTransport) : KeyVersions :=
  let v i := nth i (mt_key_versions w) 0 in mkKeyVersions (v 0%nat) (v 1%nat) (v 2%nat) (v 3%nat) (v 4%nat).
Definition card_view (w : MockTransport) : FileSettingsView :=
  default (mkFileSettingsView StandardData 0 Plain (mkAccessRights Access_Free Access_Free Access_Free Access_Free) None)
    (ok (decode (mt_file_settings w))).

Definition emu_shown (w : MockTransport) : Card :=
  mkCard (Uid_Fixed (mt_uid w)) (mkVersion VERSION_PART1 VERSION_PART2 VERSION_PART3)
    (card_keys w) (card_vers w) (mt_ndef w) (card_view w).

Record emu_up (w : MockTransport) : Prop := {
  up_uid : length (mt_uid w) = 7%nat;
  up_keys : length (mt_keys w) = 5%nat ∧ Forall (array 16) (mt_keys w);
  up_vers : length (mt_key_versions w) = 5%nat;
  up_settings : ∃ v, view_wf v ∧ mt_file_settings w = get_answer (fs_file_size v) (update_wire (into_update v)) }.

Lemma emu_kept w w' : memory w' = memory w → emu_up w → emu_up w' ∧ (mt_ndef w' = mt_ndef w → emu_shown w' = emu_shown w).
Proof.
  intros [= Hu Hk Hv Hf] []. split; [constructor; by rewrite ?Hu, ?Hk, ?Hv, ?Hf|].
  intros Hn. unfold emu_shown, card_keys, card_vers, card_view. by rewrite Hu, Hk, Hv, Hf, Hn.
Qed.

Lemma list5 {A} (l : list A) : length l = 5%nat → ∃ a b c d e, l = [a; b; c; d; e].
Proof. intros H. destruct l as [|a [|b [|c [|d [|e [|]]]]]]; try discriminate. by exists a, b, c, d, e. Qed.

Lemma card_key_at w n : emu_up w → mt_keys w !! Z.to_nat (as_byte n) = Some (get_key n (card_keys w)).
Proof.
  intros [_ [Hl _] _ _]. unfold card_keys. destruct (list5 _ Hl) as (a & b & c & d & e & ->). by destruct n.
Qed.

Lemma card_ver_at w n : emu_up w → mt_key_versions w !! Z.to_nat (as_byte n) = Some (get_ver n (card_vers w)).
Proof.
  intros [_ _ Hl _]. unfold card_vers. destruct (list5 _ Hl) as (a & b & c & d & e & ->). by destruct n.
Qed.

Lemma card_key_array w n : emu_up w → array 16 (get_key n (card_keys w)).
Proof. intros H. by eapply Forall_lookup_1; [apply H|apply card_key_at]. Qed.

Lemma put_keys_up w n k v : emu_up w → array 16 k → let w' := put_keys (Z.to_nat (as_byte n)) k v w in
  emu_up w' ∧ emu_shown w' = set_card_key n k v (emu_shown w).
Proof.
  intros [Hu [Hl Ha] Hv Hf] Hk w'. split.
  - constructor; simpl; rewrite ?length_insert; [done|split; [done|by apply Forall_insert]|done|done].
  - unfold emu_shown, card_keys, card_vers, set_card_key. simpl.
    destruct (list5 _ Hl) as (? & ? & ? & ? & ? & ->), (list5 _ Hv) as (? & ? & ? & ? & ? & ->). by destruct n.
Qed.

Lemma put_settings_up w u : emu_up w → (∀ s, fu_sdm u = Some s → sdm_wf s) →
  ∃ size old, mt_file_settings w = get_answer size (update_wire old) ∧ (∀ s, fu_sdm old = Some s → sdm_wf s) ∧
    let w' := put_file_settings (get_answer size (update_wire u)) w in
    emu_up w' ∧ emu_shown w' = set_card_file u (emu_shown w).
Proof.
  intros [Hu Hk Hv (v & Hwf & Hf)] Hs.
  assert (∀ m ar s t z, into_update (mkFileSettingsView t z m ar s) = mkFileSettingsUpdate m ar s) as Hinto
    by (by intros ? ? [] ? ?).
  destruct v as [[] size m ar sdm]. rewrite Hinto in Hf. simpl in Hf.
  exists size, (mkFileSettingsUpdate m ar sdm). split; [done|]. split; [apply Hwf|].
  destruct u as [um uar us]. set (v' := mkFileSettingsView StandardData size um uar us).
  assert (view_wf v') as Hwf' by (split; [apply Hwf|exact Hs]). split.
  - constructor; [done..|]. exists v'. split; [done|]. unfold v'. by rewrite Hinto.
  - pose proof (decode_wire _ Hwf) as Hd. pose proof (decode_wire _ Hwf') as Hd'.
    unfold v' in Hd'. rewrite Hinto in Hd, Hd'. cbn [fs_file_size] in Hd, Hd'.
    unfold emu_shown, card_view, set_card_file. cbn [mt_file_settings put_file_settings].
    rewrite Hf, Hd, Hd'. done.
Qed.

Lemma settings_readable w : emu_up w → decode (mt_file_settings w) = Ok (card_view w) ∧
  (length (mt_file_settings w) ≤ 247)%nat.
Proof.
  intros [_ _ _ (v & Hwf & Hf)]. unfold card_view. rewrite Hf, decode_wire by done. split; [done|].
  assert (∀ s, fu_sdm (into_update v) = Some s → sdm_wf s) as Hs.
  { intros s. destruct Hwf as [_ Hw], v as [? ? ? ? []]; [|done]. intros [= <-]. by apply Hw. }
  pose proof (update_wire_length _ Hs) as [_ Hl]. unfold MAX_CHANGE_FILE_SETTINGS_LEN in Hl.
  unfold get_answer. rewrite !length_app, length_take, length_drop, le_bytes_length. cbn [length]. change (1 + 2 + 1 + 2 + 9 * 3)%nat with 33%nat in Hl. lia.
Qed.

Section emu.
  Context {C : AesCrypto} `{!AesLaws C}.

Abbreviation Chm := (Ch (T := MockTransport) (TE := MockTransportError)).

(** The session of the reader and that of the card are in step. *)
Definition emu_opened (w : MockTransport) (s : Sess Authenticated) (n : KeyNumber) : Prop := in_step (se_state s) w.

Lemma runs_with_session {A} s (m : Chm A) w a st w' : runs m (se_state s, w) a (st, w') →
  runs (with_session s m) w (a, mkSess st (se_ndef_selected s) (se_ef_selected s)) w'.
Proof. unfold runs, with_session. by intros ->. Qed.

Lemma runs_with_session_ s (m : Chm ()) w st w' : runs m (se_state s, w) tt (st, w') →
  runs (with_session_ s m) w (mkSess st (se_ndef_selected s) (se_ef_selected s)) w'.
Proof. intros Hr. eapply runs_bind; [by apply runs_with_session|]. apply runs_ret. Qed.

Lemma key_change_up s w n k v apdu : emu_up w → array 16 k → in_step s w →
  let w' := counted s (put_keys (Z.to_nat (as_byte n)) k v (put_log apdu w)) in
  emu_up w' ∧ emu_shown w' = set_card_key n k v (emu_shown w) ∧ in_step (an_advance s) w'.
Proof.
  intros Hu Hk Hs w'. destruct (emu_kept w (put_log apdu w) eq_refl Hu) as [Hu1 Hsh1].
  destruct (put_keys_up _ n k v Hu1 Hk) as [Hu2 Hsh2]. rewrite Hsh1 in Hsh2 by done.
  destruct (emu_kept (put_keys (Z.to_nat (as_byte n)) k v (put_log apdu w)) w' eq_refl Hu2) as [Hu3 Hsh3].
  split; [done|]. split; [by rewrite Hsh3|]. by apply counted_step, in_step_keys, in_step_log.
Qed.

Lemma emu_change_key s n k ver old w : emu_up w → in_step s w → array 16 k → is_u8 ver →
  get_key (key_number_from n) (card_keys w) = old →
  ∃ w', runs (wire_change_key false n k ver old : Chm _) (s, w) tt (an_advance s, w') ∧
    emu_up w' ∧ emu_shown w' = set_card_key (key_number_from n) k ver (emu_shown w) ∧ in_step (an_advance s) w'.
Proof.
  intros Hu Hs Hk Hv <-. set (kn := key_number_from n). set (old := get_key kn (card_keys w)).
  assert (array 16 old) as Ho by (by apply card_key_array).
  destruct (runs_change_key_transmit false s w kn (change_key_plaintext k ver old) old) as [apdu Hr];
    [done|by apply change_key_plaintext_array|by apply card_key_at|].
  eexists. rewrite bool_decide_true in Hr by (by destruct n). split; [exact Hr|].
  unfold key_changed, carried. rewrite !decide_False by (by destruct n).
  assert (length (xor_bytes k old) = 16%nat) as Hx by (destruct Hk as [? _], Ho as [? _]; rewrite xor_bytes_length; lia).
  unfold change_key_plaintext. rewrite take_app_exact by done.
  rewrite xor_bytes_cancel by (destruct Hk as [-> _], Ho as [-> _]; done).
  rewrite app_nth2, Hx by (rewrite Hx; lia). by apply key_change_up.
Qed.

Lemma emu_change_master s k ver w : emu_up w → in_step s w → array 16 k → is_u8 ver →
  ∃ w', runs (wire_change_master_key false k ver : Chm _) (s, w) tt (an_advance s, w') ∧
    emu_up w' ∧ emu_shown w' = set_card_key Key0 k ver (emu_shown w).
Proof.
  intros Hu Hs Hk Hv.
  destruct (runs_change_key_transmit false s w Key0 (change_master_plaintext k ver) (get_key Key0 (card_keys w)))
    as [apdu Hr]; [done|by apply change_master_plaintext_array|by apply card_key_at|].
  eexists. rewrite bool_decide_false in Hr by tauto. split; [exact Hr|].
  unfold key_changed, carried. cbn [as_byte]. rewrite !decide_True by done.
  unfold change_master_plaintext. rewrite take_app_exact by apply Hk.
  rewrite app_nth2 by (destruct Hk as [-> _]; lia). replace (nth (16 - length k) _ 0) with ver by (by destruct Hk as [-> _]).
  destruct (key_change_up s w Key0 k ver apdu) as (Hu2 & Hsh2 & _); [done..|].
  set (w2 := counted _ _) in *. destruct (emu_kept w2 (put_session None w2) eq_refl Hu2) as [Hu3 Hsh3].
  split; [exact Hu3|]. rewrite Hsh3; done.
Qed.

Lemma emu_change_file s u w : emu_up w → in_step s w → (∀ d, fu_sdm u = Some d → sdm_wf d) →
  ∃ w', runs (wire_change_file_settings false 0x02 u : Chm _) (s, w) tt (an_advance s, w') ∧
    emu_up w' ∧ emu_shown w' = set_card_file u (emu_shown w) ∧ in_step (an_advance s) w'.
Proof.
  intros Hu Hs Hd. destruct (put_settings_up w u Hu Hd) as (size & old & Hf & Ho & Hu2 & Hsh).
  destruct (runs_change_file false s w size old u) as [apdu Hr]; [done..|]. eexists. split; [exact Hr|].
  set (w' := counted _ _) in *.
  destruct (emu_kept (put_file_settings (get_answer size (update_wire u)) w) w' eq_refl Hu2) as [Hu3 Hsh3].
  split; [done|]. split; [by rewrite Hsh3|]. by apply counted_step, in_step_file, in_step_log.
Qed.

Lemma emu_written w w' d : memory w' = memory w → mt_ndef w' = copy_at 0 d (mt_ndef w) → emu_up w →
  emu_up w' ∧ emu_shown w' = set_card_ndef (copy_at 0 d (c_ndef (emu_shown w))) (emu_shown w).
Proof.
  intros Hm Hn Hu. destruct (emu_kept w w' Hm Hu) as [Hu' _]. split; [done|].
  destruct (emu_kept (put_ndef (mt_ndef w') w) w' Hm) as [_ Hsh]; [by destruct Hu; constructor|].
  by rewrite Hsh, Hn.
Qed.

#[export] Instance emu_answers : NtagAnswers (wire_device (T := MockTransport) false).
Proof.
  unshelve refine (Build_NtagAnswers _ _ (wire_device (T := MockTransport) false) emu_shown emu_up emu_opened (array 16) is_u8
    (λ o, ∀ s, o = Some s → sdm_wf s) (λ _, 256%nat) _ _ _ _ _ _ _ _ _ _ _ _ _); try done.
  - apply (bool_decide_unpack _); by vm_compute.
  - intros w Hu. eapply (runs_wp _ _ (Uid_Fixed (mt_uid w)) w); [|by eauto].
    eapply runs_bind; [done|]. rewrite decide_True by apply Hu. apply runs_ret.
  - intros n k rnd w Hu Hb <-. destruct (runs_authenticate w n (get_key n (card_keys w)) rnd) as (s & w' & Hr & Hs & Hm & Hn);
      [by apply card_key_at|done|]. eapply runs_wp; [exact Hr|]. destruct (emu_kept w w' Hm Hu) as [Hu' Hsh]. eexists. split; [done|]. eauto.
  - intros s n w Hu Hs. destruct (settings_readable w Hu) as [Hd Hl].
    destruct (runs_get_settings false _ w (card_view w) Hs Hl Hd) as [apdu Hr].
    eapply runs_wp; [by apply runs_with_session|]. eexists. split; [done|].
    destruct (emu_kept w (counted (se_state s) (put_log apdu w)) eq_refl Hu) as [Hu' Hsh].
    split; [done|]. split; [by apply Hsh|]. split; [done|]. by apply counted_step, in_step_log.
  - intros s n u w Hu Hs _ Hd. destruct (emu_change_file _ u w Hu Hs Hd) as (w' & Hr & ? & ? & ?).
    eapply runs_wp; [by apply runs_with_session_|]. eauto.
  - intros s n d w Hu Hs _ _ Hd Hl. destruct (runs_write_file _ w d Hs Hd) as (s' & w' & Hr & Hs' & Hn & Hm);
      [unfold U24_MAX; lia|]. eapply runs_wp; [by apply runs_with_session_|]. eexists. split; [done|].
    by destruct (emu_written w w' d Hm Hn Hu).
  - intros s n d w Hu Hs _ _ _ Hd Hl Hn. destruct (runs_read_file _ w d Hs Hd Hl Hn) as (apdu & buf & Hr & Hb).
    eapply runs_wp. { eapply runs_bind; [by apply runs_with_session|]. apply runs_ret. }
    destruct (emu_kept w (counted (se_state s) (put_log apdu w)) eq_refl Hu) as [Hu' Hsh].
    eexists. split; [done|]. split; [done|]. split; [by apply Hsh|]. split; [|done]. by apply counted_step, in_step_log.
  - intros s n k ver old w Hu Hs Hk Hv Ho. destruct (emu_change_key _ n k ver old w Hu Hs Hk Hv Ho) as (w' & Hr & ? & ? & ?).
    eapply runs_wp; [by apply runs_with_session_|]. eauto.
  - intros s n m w Hu Hs. destruct (runs_get_key_version false _ w n _ Hs (card_ver_at w n Hu)) as [apdu Hr].
    eapply runs_wp; [by apply runs_with_session|]. eexists. split; [done|].
    destruct (emu_kept w (counted (se_state s) (put_log apdu w)) eq_refl Hu) as [Hu' Hsh].
    split; [done|]. split; [by apply counted_step, in_step_log|]. split; [by apply Hsh|done].
  - intros s k ver w Hu Hs Hk Hv. destruct (emu_change_master _ k ver w Hu Hs Hk Hv) as (w' & Hr & ? & ?).
    eapply runs_wp. { eapply runs_bind; [by apply runs_with_session_|]. apply runs_ret. }
    eauto.
Defined.
End emu.

(** ** What an APDU can do to the card *)

Create HintDb emu.

Section guard.
  Context {C : AesCrypto}.

(** A computation that leaves keys, versions, settings and UID alone. *)
Definition keeps {A} (m : Em A) : Prop := ∀ w, memory (m w).2 = memory w.

Lemma kept_bind {A B} (m : Em A) (k : A → Em B) : keeps m → (∀ a, keeps (k a)) → keeps (m ≫= k).
Proof.
  intros Hm Hk w. specialize (Hm w). unfold mbind, M_bind. destruct (m w) as [[a|e] w'].
  - by rewrite Hk.
  - done.
Qed.
Lemma kept_ret {A} (a : A) : keeps (mret a).
Proof. done. Qed.
Lemma keeps_of {A} (o : option A) : keeps (em_of o).
Proof. by destruct o. Qed.
Lemma keeps_assert b : keeps (em_assert b).
Proof. by destruct b. Qed.
Lemma keeps_gets {A} (f : MockTransport → A) : keeps (em_gets f).
Proof. done. Qed.
Lemma keeps_modify f : (∀ w, memory (f w) = memory w) → keeps (em_modify f).
Proof. intros H w. apply H. Qed.
End guard.

(** Peels a computation that keeps the memory. *)
Ltac keeps_step :=
  match goal with
  | |- keeps (if ?b then _ else _) => destruct b
  | |- keeps (match ?x with _ => _ end) => destruct x
  | |- keeps (let _ := _ in _) => cbv zeta
  | |- keeps (_ ≫= _) => apply kept_bind; [|intros]
  | |- keeps _ => first [apply kept_ret|apply keeps_of|apply keeps_assert|apply keeps_gets
                        |apply keeps_modify; intros; reflexivity]
  end.

Section guard.
  Context {C : AesCrypto}.

Lemma keeps_prefix apdu head : keeps (em_prefix apdu head).
Proof. unfold em_prefix. repeat keeps_step. Qed.
Lemma keeps_ends apdu : keeps (em_ends_in_zero apdu).
Proof. unfold em_ends_in_zero. repeat keeps_step. Qed.
Lemma keeps_is apdu i b : keeps (em_is apdu i b).
Proof. unfold em_is, em_at. repeat keeps_step. Qed.
Lemma keeps_step_counter : keeps step_counter.
Proof. unfold step_counter, session_. repeat keeps_step. Qed.

#[local] Hint Resolve keeps_prefix keeps_ends keeps_is keeps_step_counter : emu.

(** With the lemmas of the helpers. *)
Ltac peel := repeat first [solve [auto 1 with emu]|keeps_step].

Lemma keeps_response data : keeps (response_with_mac data).
Proof. unfold response_with_mac, session_. peel. Qed.
Lemma keeps_verify cmd h d mac : keeps (verify_request_mac cmd h d mac).
Proof. unfold verify_request_mac, session_. peel. Qed.
Lemma keeps_selected : keeps require_ndef_selected.
Proof. unfold require_ndef_selected. peel. Qed.
Lemma keeps_count_plain : keeps count_plain.
Proof. unfold count_plain. peel. Qed.
Lemma keeps_session : keeps session_.
Proof. unfold session_. peel. Qed.

#[local] Hint Resolve keeps_response keeps_verify keeps_selected keeps_count_plain keeps_session : emu.

Lemma keeps_auth1 apdu : keeps (handle_auth_part1 apdu).
Proof. unfold handle_auth_part1, em_at. peel. Qed.
Lemma keeps_auth2 apdu : keeps (handle_auth_part2 apdu).
Proof. unfold handle_auth_part2. peel. Qed.
#[local] Hint Resolve keeps_auth2 : emu.
Lemma keeps_version apdu : keeps (p ← em_gets mt_pending_auth;
  if decide (is_Some p) then handle_auth_part2 apdu else handle_get_version_continue).
Proof. unfold handle_get_version_continue. peel. Qed.
Lemma keeps_settings_plain apdu : keeps (handle_get_file_settings_plain apdu).
Proof. unfold handle_get_file_settings_plain. peel. Qed.
Lemma keeps_settings_mac apdu : keeps (handle_get_file_settings_mac apdu).
Proof. unfold handle_get_file_settings_mac. peel. Qed.
Lemma keeps_key_version apdu : keeps (handle_get_key_version apdu).
Proof. unfold handle_get_key_version, em_at. peel. Qed.
Lemma keeps_read apdu : keeps (handle_read_data_plain apdu).
Proof. unfold handle_read_data_plain. peel. Qed.
Lemma keeps_write apdu : keeps (handle_write_data_plain apdu).
Proof. unfold handle_write_data_plain. peel. Qed.
Lemma keeps_iso_read apdu : keeps (handle_iso_read_binary apdu).
Proof. unfold handle_iso_read_binary, em_at. peel. Qed.
Lemma keeps_iso apdu : keeps (handle_iso_generic apdu).
Proof. unfold handle_iso_generic, handle_iso_select, em_at. peel. Qed.
Lemma keeps_unknown apdu : keeps (handle_unknown_cla apdu).
Proof. unfold handle_unknown_cla, em_at. peel. Qed.
End guard.

(** ** Reads *)

Section guard.
  Context {C : AesCrypto}.

Definition reads_only {A} (m : Em A) : Prop := ∀ w, (m w).2 = w.

Lemma wp_reads {A B} (m : Em A) (k : A → Em B) Q w :
  reads_only m → (∀ e, Q (Err e) w) → (∀ a, m w = (Ok a, w) → wp (k a) Q w) → wp (m ≫= k) Q w.
Proof.
  intros Hm He Hk. unfold wp, mbind, M_bind. specialize (Hm w). destruct (m w) as [[a|e] w'] eqn:E; simpl in Hm; subst w'.
  - by apply Hk.
  - apply He.
Qed.

Lemma looks_bind {A B} (m : Em A) (k : A → Em B) : reads_only m → (∀ a, reads_only (k a)) → reads_only (m ≫= k).
Proof.
  intros Hm Hk w. specialize (Hm w). unfold mbind, M_bind. destruct (m w) as [[a|e] w']; simpl in Hm; subst w'; [apply Hk|done].
Qed.
Lemma reads_of {A} (o : option A) : reads_only (em_of o).
Proof. by destruct o. Qed.
Lemma reads_assert b : reads_only (em_assert b).
Proof. by destruct b. Qed.
Lemma reads_gets {A} (f : MockTransport → A) : reads_only (em_gets f).
Proof. done. Qed.

Ltac peel_reads := repeat first [apply reads_of|apply reads_assert|apply reads_gets|apply looks_bind; [|intros]].

Lemma reads_is apdu i b : reads_only (em_is apdu i b).
Proof. unfold em_is, em_at. peel_reads. Qed.
Lemma reads_ends apdu : reads_only (em_ends_in_zero apdu).
Proof. unfold em_ends_in_zero. peel_reads. Qed.
Lemma reads_session : reads_only session_.
Proof. unfold session_. peel_reads. Qed.
Lemma reads_selected : reads_only require_ndef_selected.
Proof. unfold require_ndef_selected. peel_reads. Qed.
Lemma reads_verify cmd h d mac : reads_only (verify_request_mac cmd h d mac).
Proof. unfold verify_request_mac, session_. peel_reads. Qed.

Lemma of_inv {A} (o : option A) a w : em_of o w = (Ok a, w) → o = Some a.
Proof. destruct o; [|discriminate]. by intros [= ->]. Qed.
Lemma assert_inv b w : em_assert b w = (Ok tt, w) → b = true.
Proof. by destruct b. Qed.
Lemma verify_inv cmd h d mac w : verify_request_mac cmd h d mac w = (Ok tt, w) →
  ∃ s, mt_session w = Some s ∧ mac = compute_command_mac s cmd h d.
Proof.
  unfold verify_request_mac, session_, mbind, M_bind. simpl. destruct (mt_session w) as [s|]; simpl; [|discriminate].
  intros H. apply assert_inv, bool_decide_eq_true in H. eauto.
Qed.

(** A command under the MAC of the open session. *)
Definition signed (cmd : Z) (apdu : list Z) (w : MockTransport) : Prop :=
  ∃ s head header data rest, mt_session w = Some s ∧ length head = 5%nat ∧ length header = 1%nat ∧
    apdu = head ++ header ++ data ++ compute_command_mac s cmd header data ++ rest.

(** What can change, and by which commands. *)
Inductive touched (apdu : list Z) (w w' : MockTransport) : Prop :=
| touched_nothing : memory w' = memory w → touched apdu w w'
| touched_settings d : signed 0x5F apdu w → memory w' = memory (put_file_settings d w) → touched apdu w w'
| touched_key n k v : signed 0xC4 apdu w → (n < 5)%nat → memory w' = memory (put_keys n k v w) → touched apdu w w'.

Lemma get_range_split {A} (l m : list A) i j : get_range l i j = Some m → drop i l = m ++ drop j l.
Proof.
  unfold get_range. case_decide as H; [|discriminate]. intros [= <-].
  rewrite <-(take_drop (j - i) (drop i l)) at 1. rewrite drop_drop. by replace (i + (j - i))%nat with j by lia.
Qed.

Lemma touched_kept {A} (m : Em A) apdu w w1 : keeps m → touched apdu w w1 → touched apdu w (m w1).2.
Proof.
  intros Hm [H|d Hs H|n k v Hs Hn H]; specialize (Hm w1).
  - apply touched_nothing. by rewrite Hm.
  - eapply touched_settings; [done|]. by rewrite Hm.
  - eapply touched_key; [done..|]. by rewrite Hm.
Qed.

Lemma wp_snd {A} (m : Em A) (P : MockTransport → Prop) w : P (m w).2 → wp m (λ _ w', P w') w.
Proof. unfold wp. by destruct (m w). Qed.

Lemma snd_wp {A} (m : Em A) (P : MockTransport → Prop) w : wp m (λ _ w', P w') w → P (m w).2.
Proof. unfold wp. by destruct (m w). Qed.

Lemma wp_put {A} (k : Em A) f apdu w w0 : keeps k → touched apdu w0 (f w) →
  wp (em_modify f ≫= λ _, k) (λ _ w', touched apdu w0 w') w.
Proof. intros Hk H. apply wp_snd. by apply (touched_kept k). Qed.

Lemma key_guard apdu w : wp (handle_change_key apdu) (λ _ w', touched apdu w w') w.
Proof.
  unfold handle_change_key, em_at.
  apply wp_reads; [apply reads_selected|by intros; apply touched_nothing|]. intros _ _.
  apply wp_reads; [apply reads_is|by intros; apply touched_nothing|]. intros _ _.
  apply wp_reads; [apply reads_is|by intros; apply touched_nothing|]. intros _ _.
  apply wp_reads; [apply reads_is|by intros; apply touched_nothing|]. intros _ _.
  apply wp_reads; [apply reads_ends|by intros; apply touched_nothing|]. intros _ _.
  apply wp_reads; [apply reads_of|by intros; apply touched_nothing|]. intros n Hn%of_inv.
  apply wp_reads; [apply reads_assert|by intros; apply touched_nothing|]. intros [] Hn5%assert_inv%bool_decide_eq_true.
  apply wp_reads; [apply reads_of|by intros; apply touched_nothing|]. intros ct Hct%of_inv.
  apply wp_reads; [apply reads_of|by intros; apply touched_nothing|]. intros mac Hmac%of_inv.
  apply wp_reads; [apply reads_verify|by intros; apply touched_nothing|]. intros [] (s & Hs & Hm)%verify_inv.
  assert (signed 0xC4 apdu w) as Hsig.
  { exists s, (take 5 apdu), [n], ct, (drop 46 apdu). split; [done|].
    split; [apply lookup_lt_Some in Hn; rewrite length_take; lia|]. split; [done|].
    rewrite <-Hm, <-(get_range_split _ _ _ _ Hmac), <-(get_range_split _ _ _ _ Hct).
    rewrite <-(take_drop 5 apdu) at 1. f_equal. by apply drop_S. }
  apply wp_reads; [apply reads_session|by intros; apply touched_nothing|]. intros s' _.
  apply wp_reads; [apply reads_of|by intros; apply touched_nothing|]. intros plain _. cbv zeta. case_decide.
  - apply wp_put; [repeat first [apply keeps_step_counter|keeps_step]|].
    eapply (touched_key _ _ _ 0); [done|lia|done].
  - apply wp_reads; [apply reads_gets|by intros; apply touched_nothing|]. intros keys _.
    apply wp_reads; [apply reads_of|by intros; apply touched_nothing|]. intros old _.
    apply wp_put; [apply keeps_response|]. eapply (touched_key _ _ _ (Z.to_nat n)); [done|lia|done].
Qed.

Lemma settings_guard apdu w : wp (handle_change_file_settings apdu) (λ _ w', touched apdu w w') w.
Proof.
  unfold handle_change_file_settings.
  apply wp_reads; [apply reads_selected|by intros; apply touched_nothing|]. intros _ _.
  apply wp_reads; [apply reads_assert|by intros; apply touched_nothing|]. intros [] Hl%assert_inv%bool_decide_eq_true.
  apply wp_reads; [apply reads_is|by intros; apply touched_nothing|]. intros _ _.
  apply wp_reads; [apply reads_is|by intros; apply touched_nothing|]. intros _ _.
  apply wp_reads; [apply reads_is|by intros; apply touched_nothing|]. intros _ _.
  apply wp_reads; [apply reads_ends|by intros; apply touched_nothing|]. intros _ _. cbv zeta.
  set (body := sub_list 5 (length apdu - 1) apdu). set (payload := take (length body - 8) body).
  apply wp_reads; [apply reads_verify|by intros; apply touched_nothing|]. intros [] (s & Hs & Hm)%verify_inv.
  assert (length body = (length apdu - 6)%nat) as Hbl.
  { unfold body, sub_list. rewrite length_take, length_drop. lia. }
  assert (length payload = (length apdu - 14)%nat) as Hpl by (unfold payload; rewrite length_take; lia).
  assert (signed 0x5F apdu w) as Hsig.
  { exists s, (take 5 apdu), (take 1 payload), (drop 1 payload), (drop (length apdu - 1) apdu). split; [done|].
    split; [rewrite length_take; lia|]. split; [rewrite length_take; lia|].
    rewrite <-Hm. rewrite (assoc_L (++) (take 1 payload)), take_drop, (assoc_L (++) payload).
    unfold payload. rewrite take_drop. unfold body, sub_list.
    rewrite <-(take_drop 5 apdu) at 1. f_equal.
    rewrite <-(take_drop (length apdu - 1 - 5) (drop 5 apdu)) at 1. f_equal. rewrite drop_drop. f_equal. lia. }
  apply wp_reads; [apply reads_session|by intros; apply touched_nothing|]. intros s' _.
  apply wp_reads; [apply reads_of|by intros; apply touched_nothing|]. intros plain _.
  apply wp_reads; [apply reads_of|by intros; apply touched_nothing|]. intros n _.
  apply wp_bind. unfold update_file_settings_from_patch, em_at.
  apply wp_reads; [apply reads_gets|by intros; apply touched_nothing|]. intros fs _.
  apply wp_reads; [apply reads_of|by intros; apply touched_nothing|]. intros ft _.
  apply wp_reads; [apply reads_of|by intros; apply touched_nothing|]. intros size _.
  apply wp_reads; [apply reads_of|by intros; apply touched_nothing|]. intros hd _.
  unfold wp. simpl. apply (wp_snd (response_with_mac []) (touched apdu w)).
  apply (touched_kept _ _ _ _ (keeps_response [])). by eapply touched_settings.
Qed.

Lemma kept_guard {A} (m : Em A) apdu w : keeps m → wp m (λ _ w', touched apdu w w') w.
Proof. intros H. apply wp_snd. apply touched_nothing, H. Qed.

Lemma signed_log cmd apdu w : signed cmd apdu (put_log apdu w) → signed cmd apdu w.
Proof. done. Qed.

Lemma touched_log apdu w w' : touched apdu (put_log apdu w) w' → touched apdu w w'.
Proof. intros [H|d Hs H|n k v Hs Hn H]; [by apply touched_nothing|by apply (touched_settings _ _ _ d)|by apply (touched_key _ _ _ n k v)]. Qed.

(** C10. Nothing gets past the secure channel of the emulated card. Whatever bytes it
    receives in whatever state, its UID, keys, key versions and file settings stay as
    they are, except that a ChangeFileSettings may replace the settings, and a
    ChangeKey one key with its version, when a session is open and the command
    carries the MAC of that session over its own number, counter and data. *)
Theorem emu_card_guard (apdu : list Z) (w : MockTransport) : touched apdu w (mock_transmit apdu w).2.
Proof.
  apply touched_log. unfold mock_transmit. unfold mbind at 1, M_bind at 1. cbn [em_modify].
  set (w1 := put_log apdu w).
  apply (snd_wp _ (touched apdu w1)).
  repeat case_match.
  all: first [apply key_guard|apply settings_guard|apply kept_guard].
  all: first [apply keeps_iso_read|apply keeps_auth1|apply keeps_version|apply keeps_settings_plain
    |apply keeps_settings_mac|apply keeps_key_version|apply keeps_read|apply keeps_write|apply keeps_iso
    |apply keeps_unknown|unfold handle_get_version_start; repeat first [apply keeps_selected|keeps_step]].
Qed.
End guard.

(** ** Sessions of any length *)

(** The commands of an open session, except the change of the master key, which ends it. *)
Inductive Command :=
| Cmd_GetFileSettings
| Cmd_ChangeFileSettings (u : FileSettingsUpdate)
| Cmd_WriteNdef (d : list Z)
| Cmd_ReadNdef (d : list Z)
| Cmd_ChangeKey (n : NonMasterKeyNumber) (k : list Z) (ver : Z) (old : list Z)
| Cmd_GetKeyVersion (n : KeyNumber).

Inductive Answer := Ans_Done | Ans_Settings (v : FileSettingsView) | Ans_Bytes (d : list Z) | Ans_Version (v : Z).

Section session.
  Context {C : AesCrypto} `{!AesLaws C}.

Abbreviation Chm := (Ch (T := MockTransport) (TE := MockTransportError)).

(** What the reader sends and returns. *)
Definition on_wire (c : Command) : Chm Answer :=
  match c with
  | Cmd_GetFileSettings => v ← wire_get_file_settings_mac false (file_no File_Ndef); mret (Ans_Settings v)
  | Cmd_ChangeFileSettings u => wire_change_file_settings false (file_no File_Ndef) u ;; mret Ans_Done
  | Cmd_WriteNdef d => write_file_plain_chunked false (file_no File_Ndef) 0 d ;; mret Ans_Done
  | Cmd_ReadNdef d =>
      r ← read_file_plain_chunked false (file_no File_Ndef) 0 (Z.of_nat (length d)) (replicate 256 0);
      mret (Ans_Bytes (take r.1 r.2))
  | Cmd_ChangeKey n k ver old => wire_change_key false n k ver old ;; mret Ans_Done
  | Cmd_GetKeyVersion n => v ← wire_get_key_version false n; mret (Ans_Version v)
  end.

Fixpoint on_wire_all (cs : list Command) : Chm (list Answer) :=
  match cs with
  | [] => mret []
  | c :: cs => a ← on_wire c; l ← on_wire_all cs; mret (a :: l)
  end.

(** What a card does with it, the specification: the commands it can carry out, its
    answers and its next state. *)
Inductive does (c : Card) : Command → Answer → Card → Prop :=
| does_settings : does c Cmd_GetFileSettings (Ans_Settings (c_file c)) c
| does_change u : (∀ s, fu_sdm u = Some s → sdm_wf s) →
    does c (Cmd_ChangeFileSettings u) Ans_Done (set_card_file u c)
| does_write d : d ≠ [] → (length d ≤ 256)%nat →
    does c (Cmd_WriteNdef d) Ans_Done (set_card_ndef (copy_at 0 d (c_ndef c)) c)
| does_read d : d ≠ [] → (length d ≤ 256)%nat → take (length d) (c_ndef c) = d →
    does c (Cmd_ReadNdef d) (Ans_Bytes d) c
| does_key n k ver : array 16 k → is_u8 ver →
    does c (Cmd_ChangeKey n k ver (get_key (key_number_from n) (c_keys c))) Ans_Done
      (set_card_key (key_number_from n) k ver c)
| does_version n : does c (Cmd_GetKeyVersion n) (Ans_Version (get_ver n (c_vers c))) c.

Inductive does_all (c : Card) : list Command → list Answer → Card → Prop :=
| does_nil : does_all c [] [] c
| does_cons x a c1 xs l c2 : does c x a c1 → does_all c1 xs l c2 → does_all c (x :: xs) (a :: l) c2.

(** A step of the specification is a step of reader and card, which stay in step. *)
Lemma command_refines x a c1 s w : emu_up w → in_step s w → does (emu_shown w) x a c1 →
  ∃ s' w', runs (on_wire x : Chm _) (s, w) a (s', w') ∧ emu_up w' ∧ in_step s' w' ∧ emu_shown w' = c1.
Proof.
  intros Hu Hs Hx. inversion Hx as [|u Hd|d Hd Hl|d Hd Hl Hn|n k ver Hk Hv|n]; subst x a c1.
  - destruct (settings_readable w Hu) as [Hd Hl]. destruct (runs_get_settings false s w _ Hs Hl Hd) as [apdu Hr].
    eexists _, _. split; [eapply runs_bind; [exact Hr|apply runs_ret]|].
    destruct (emu_kept w (counted s (put_log apdu w)) eq_refl Hu) as [Hu' Hsh].
    split; [done|]. split; [by apply counted_step, in_step_log|by apply Hsh].
  - destruct (emu_change_file s u w Hu Hs Hd) as (w' & Hr & Hu' & Hsh & Hs').
    eexists _, w'. split; [eapply runs_bind; [exact Hr|apply runs_ret]|done].
  - destruct (runs_write_file s w d Hs Hd) as (s' & w' & Hr & Hs' & Hn & Hm); [unfold U24_MAX; lia|].
    eexists _, w'. split; [eapply runs_bind; [exact Hr|apply runs_ret]|].
    destruct (emu_written w w' d Hm Hn Hu). done.
  - destruct (runs_read_file s w d Hs Hd Hl Hn) as (apdu & buf & Hr & Hb).
    eexists _, _. split; [eapply runs_bind; [exact Hr|cbn [fst snd]; rewrite Hb; apply runs_ret]|].
    destruct (emu_kept w (counted s (put_log apdu w)) eq_refl Hu) as [Hu' Hsh].
    split; [done|]. split; [by apply counted_step, in_step_log|by apply Hsh].
  - destruct (emu_change_key s n k ver _ w Hu Hs Hk Hv eq_refl) as (w' & Hr & Hu' & Hsh & Hs').
    eexists _, w'. split; [eapply runs_bind; [exact Hr|apply runs_ret]|done].
  - destruct (runs_get_key_version false s w n _ Hs (card_ver_at w n Hu)) as [apdu Hr].
    eexists _, _. split; [eapply runs_bind; [exact Hr|apply runs_ret]|].
    destruct (emu_kept w (counted s (put_log apdu w)) eq_refl Hu) as [Hu' Hsh].
    split; [done|]. split; [by apply counted_step, in_step_log|by apply Hsh].
Qed.

Lemma commands_refine xs l c1 s w : emu_up w → in_step s w → does_all (emu_shown w) xs l c1 →
  ∃ s' w', runs (on_wire_all xs : Chm _) (s, w) l (s', w') ∧ emu_up w' ∧ in_step s' w' ∧ emu_shown w' = c1.
Proof.
  revert l s w. induction xs as [|x xs IH]; intros l s w Hu Hs H; inversion H as [|? a c' ? l' ? Hx Hxs]; subst.
  { exists s, w. done. }
  destruct (command_refines x a c' s w Hu Hs Hx) as (s1 & w1 & Hr & Hu1 & Hs1 & <-).
  destruct (IH l' s1 w1 Hu1 Hs1 Hxs) as (s2 & w2 & Hr2 & Hrest). exists s2, w2. split; [|done].
  eapply runs_bind; [exact Hr|]. eapply runs_bind; [exact Hr2|]. apply runs_ret.
Qed.

(** C9. The secure channel carries any session. With the key of any slot and any
    challenge, the AES handshake with the emulated card succeeds; and every sequence
    of commands the card's specification allows runs over the wire, each with the
    answer of the specification, to the card state of the specification. *)
Theorem session_refines (w : MockTransport) (n : KeyNumber) (rnd_a : list Z) (xs : list Command) (l : list Answer) (c : Card) :
  emu_up w → array 16 rnd_a → does_all (emu_shown w) xs l c →
  ∃ s w1 s' w', session_authenticate_aes session_new n (get_key n (c_keys (emu_shown w))) rnd_a w = (Ok s, w1) ∧
    with_session s (on_wire_all xs) w1 = (Ok (l, s'), w') ∧ emu_up w' ∧ emu_shown w' = c ∧
    in_step (se_state s') w'.
Proof.
  intros Hu Ha Hxs. destruct (runs_authenticate w n _ rnd_a (card_key_at w n Hu) Ha) as (s & w1 & Hr & Hs & Hm & Hn).
  destruct (emu_kept w w1 Hm Hu) as [Hu1 Hsh]. rewrite <-(Hsh Hn) in Hxs.
  destruct (commands_refine xs l c _ w1 Hu1 Hs Hxs) as (s' & w' & Hr' & Hu' & Hs' & Hc).
  exists s, w1, (mkSess s' (se_ndef_selected s) (se_ef_selected s)), w'.
  split; [exact Hr|]. split; [exact (runs_with_session _ _ _ _ _ _ Hr')|done].
Qed.
End session.

Lemma wp_runs {S E A} (m : M S E A) Q w : wp m Q w → ∃ r w', m w = (r, w') ∧ Q r w'.
Proof. unfold wp. destruct (m w) as [r w']. eauto. Qed.

Section life.
  Context {C : AesCrypto} `{!AesLaws C}.

Abbreviation emu := (wire_device (T := MockTransport) (TE := MockTransportError) false).

(** C8. The whole stack. On any emulated card that is ready for the burn (the caller
    knows its keys and it grants the accesses; see [burn_ready]), [burn] with
    the planner and the commands of the crate, down to single APDUs under the secure
    channel, succeeds and provisions the card; a [wipe] with the burned keys then
    succeeds and restores the delivery state. *)
Theorem emulated_burn_wipe (params : BurnParams) (plan : SdmUrlConfig) (rnd_a rnd_b : list Z) (w : MockTransport) :
  emu_up w → array 16 rnd_a → array 16 rnd_b →
  sdm_url_config (standardize_url_template (bp_lnurl params)) Aes burn_sdm_opts = Ok plan →
  burn_ready (D := emu) plan params (emu_shown w) →
  ∃ w1 w2, burn (D := emu) sdm_url_config params rnd_a w = (Ok (mt_uid w), w1) ∧
    provisioned plan params (emu_shown w) (emu_shown w1) ∧
    wipe (D := emu) (bp_keys params) rnd_b w1 = (Ok (mt_uid w), w2) ∧
    emu_up w2 ∧ factory_reset (emu_shown w1) (emu_shown w2).
Proof.
  intros Hu Ha Hb Hplan Hready.
  pose proof (burn_live (D := emu) sdm_url_config plan params rnd_a w Hu Ha Hplan Hready) as Hburn.
  destruct (wp_runs _ _ _ Hburn) as (r & w1 & Hr & -> & Hu1 & Hp).
  assert (wipe_ready (D := emu) (bp_keys params) (emu_shown w1)) as Hw.
  { destruct Hp as [_ Pk _ _ Pc Pa _]. constructor; [done| |exact (eq_trans Pc (ready_comm _ _ _ Hready))|by apply (Nat.leb_le 2 256)].
    exact (f_equal (λ a, granted Key0 (ar_change a)) Pa). }
  pose proof (wipe_live (D := emu) (bp_keys params) rnd_b w1 Hu1 Hb Hw) as Hwipe.
  destruct (wp_runs _ _ _ Hwipe) as (r2 & w2 & Hr2 & -> & Hu2 & Hf).
  destruct Hp as [Pu Hp2]. exists w1, w2. split; [exact Hr|]. split; [by constructor|].
  rewrite Pu in Hr2. done.
Qed.
End life.

(** ** Known answers and an instance *)

Example session_keys_an12196 :
  suite_derive (C := Aes128) (replicate 16 0) (hex16 "13C5DB8A5930439FC3DEF9A4C675360F") EMU_RND_B =
  mkAesSuite (hex16 "4C6626F5E72EA694202139295C7A7FC7") (hex16 "1309C877509E5A215007FF0ED19CA564").
Proof. by vm_compute. Qed.

Example crc32_an12196 : crc32 (hex16 "F3847D627727ED3BC9C4CC050489B966") = [0x78; 0x9D; 0xFA; 0xDC].
Proof. by vm_compute. Qed.

Lemma blank_up : emu_up mock_new.
Proof.
  constructor; [done|split; [done|apply (bool_decide_unpack _); by vm_compute]|done|].
  exists (mkFileSettingsView StandardData 256 Plain
    (mkAccessRights Access_Free Access_Free Access_Free (Access_Key Key0)) None).
  split; [split; [by vm_compute|done]|by vm_compute].
Qed.

(** Settings that the decoder gives back are well-formed. *)
Lemma decoded_sdm_wf (v : FileSettingsView) (s : Sdm) :
  decode (get_answer (fs_file_size v) (update_wire (into_update v))) = Ok v → fs_sdm v = Some s → sdm_wf s.
Proof.
  intros Hd Hs. unfold decode in Hd.
  assert (bytes (get_answer (fs_file_size v) (update_wire (into_update v)))) as Hb.
  { unfold get_answer. repeat apply bytes_app; auto using update_wire_bytes with bolty. by apply bytes_singleton. }
  pose proof (decode_view_wf (mkCursor _ 0) Hb) as [_ Hw]. rewrite Hd in Hw. by apply Hw.
Qed.

Definition tap_plan : SdmUrlConfig :=
  bolt_plan burn_sdm_opts (detect_uri_prefix tap_base).1 (drop (detect_uri_prefix tap_base).2 tap_base).

Lemma tap_sdm_wf : sdm_wf (sdm_settings tap_plan).
Proof.
  apply (decoded_sdm_wf (mkFileSettingsView StandardData 256 Plain burned_ndef_access_rights (Some (sdm_settings tap_plan))));
    [by vm_compute|done].
Qed.

(** Decides a closed proposition by evaluation. *)
Ltac evaluate := apply (bool_decide_unpack _); vm_compute; exact I.

Section instance.
  #[local] Existing Instances toy_crypto toy_laws.

Lemma tap_ready : burn_ready (D := wire_device (T := MockTransport) (TE := MockTransportError) false) tap_plan tap_params
  (emu_shown mock_new).
Proof.
  constructor; try (vm_compute; reflexivity); try (repeat constructor; fail); try evaluate.
  intros s [= <-]. apply tap_sdm_wf.
Qed.

Lemma emulated_burn_wipe_witness :
  ∃ w1 w2, burn (D := wire_device (T := MockTransport) (TE := MockTransportError) false) sdm_url_config tap_params (replicate 16 9) mock_new = (Ok EMU_UID, w1) ∧
    provisioned tap_plan tap_params (emu_shown mock_new) (emu_shown w1) ∧
    wipe (D := wire_device (T := MockTransport) (TE := MockTransportError) false) (bp_keys tap_params) (replicate 16 7) w1 = (Ok EMU_UID, w2) ∧
    emu_up w2 ∧ factory_reset (emu_shown w1) (emu_shown w2).
Proof.
  apply (emulated_burn_wipe tap_params tap_plan (replicate 16 9) (replicate 16 7) mock_new).
  - apply blank_up.
  - evaluate.
  - evaluate.
  - vm_compute. reflexivity.
  - apply tap_ready.
Defined.

Lemma session_refines_witness :
  let xs := [Cmd_GetKeyVersion Key3; Cmd_ChangeKey NmKey1 (replicate 16 7) 1 (replicate 16 0);
             Cmd_WriteNdef [0; 1; 0xD5]; Cmd_ReadNdef [0; 1]; Cmd_GetFileSettings] in
  let c := set_card_ndef [0; 1; 0xD5] (set_card_key Key1 (replicate 16 7) 1 (emu_shown mock_new)) in
  ∃ s w1 s' w', session_authenticate_aes session_new Key2 (replicate 16 0) (replicate 16 9) mock_new = (Ok s, w1) ∧
    with_session s (on_wire_all xs) w1 =
      (Ok ([Ans_Version 0; Ans_Done; Ans_Done; Ans_Bytes [0; 1]; Ans_Settings ndef_factory], s'), w') ∧
    emu_up w' ∧ emu_shown w' = c ∧ in_step (se_state s') w'.
Proof.
  intros xs c.
  apply (session_refines mock_new Key2 (replicate 16 9) xs
    [Ans_Version 0; Ans_Done; Ans_Done; Ans_Bytes [0; 1]; Ans_Settings ndef_factory] c).
  - apply blank_up.
  - evaluate.
  - set (c1 := set_card_key Key1 (replicate 16 7) 1 (emu_shown mock_new)).
    apply (does_cons _ _ _ (emu_shown mock_new)); [exact (does_version (emu_shown mock_new) Key3)|].
    apply (does_cons _ _ _ c1); [apply (does_key (emu_shown mock_new) NmKey1); evaluate|].
    apply (does_cons _ _ _ c); [apply (does_write c1 [0; 1; 0xD5]); [done|vm_compute; lia]|].
    apply (does_cons _ _ _ c); [apply (does_read c [0; 1]); [done|vm_compute; lia|done]|].
    apply (does_cons _ _ _ c); [exact (does_settings c)|apply does_nil].
Defined.
End instance.

(** The same burn under AES itself, with every APDU evaluated. *)
Section aes.
  #[local] Existing Instance Aes128.

Definition aes_burned : result (list Z) (Error (Fault MockTransportError)) * MockTransport :=
  burn (D := wire_device false) sdm_url_config tap_params (replicate 16 9) mock_new.

Example emulated_burn_aes : aes_burned.1 = Ok EMU_UID ∧
  mt_keys aes_burned.2 = [replicate 16 1; replicate 16 2; replicate 16 3; replicate 16 4; replicate 16 5] ∧
  length (mt_apdu_log aes_burned.2) = 22%nat.
Proof. by vm_compute. Qed.
End aes.
