(* ===== verification/Cli.v ===== *)
(** * Command-line workflows: burn and wipe

    [apps/bolty-cli/src/common.rs], [burn.rs] and [wipe.rs]: the commands an
    operator runs, wrapped around the library workflows of [Ntag] with their
    safety gates: UID confirmation, dry run, template checks, the
    authentication retry ladder, the circuit breaker on failed
    authentications, and the pre-wipe verification of the mirrored SUN
    message.

    Terminal output is not modelled; audit events are.  The process state is
    the device, the number of random draws, the process-wide count of failed
    authentications and the audit log. *)

From S2P Require Import Prelude Str Hex Derivation Assessment Picc Ndef NtagTypes Session Ntag.

Definition AUTH_RETRY_DELAYS : list Z := [0; 0; 0; 0; 0; 0; 0; 0; 0; 0].
Definition CIRCUIT_BREAKER_THRESHOLD : Z := 10.

(** [AuthRetry::next_delay]: the delay and the advanced retry state. *)
Definition next_delay (attempt : nat) : option (Z * nat) :=
  delay_secs ← AUTH_RETRY_DELAYS !! attempt;
  Some (delay_secs, S attempt).

Definition is_sdm_functionally_active (sdm : option Sdm) : bool :=
  match sdm with
  | Some s => negb (bool_decide (sdm_picc_data s = PiccData_None)) ||
              bool_decide (is_Some (sdm_file_read s))
  | None => false
  end.

Definition privacy_template (url : list Z) : bool :=
  contains (lit "{picc:ctr}") url && negb (contains (lit "{picc:uid") url).

(** Why a command stopped.  [Exit] is [std::process::exit], which no caller
    can intercept; [OutOfFuel] is the model's bound on the retry loop. *)
Inductive CliError (TE : Type) :=
| Cli_Ntag (e : Error TE)
| Cli_Session (what : list Z) (e : SessionError TE)
| Cli_Bail (reason : list Z)
| Cli_SdmUrl (e : SdmUrlError)
| Cli_RngFailed
| Cli_Exit (code : Z)
| Cli_OutOfFuel.
Arguments Cli_Ntag {TE} _.
Arguments Cli_Session {TE} _ _.
Arguments Cli_Bail {TE} _.
Arguments Cli_SdmUrl {TE} _.
Arguments Cli_RngFailed {TE}.
Arguments Cli_Exit {TE} _.
Arguments Cli_OutOfFuel {TE}.

Record Cli (T : Type) := mkCli {
  cli_dev : T;
  cli_draws : nat;
  cli_failures : Z;
  cli_audit : list (list Z * option KeyProvenance);
}.
Arguments mkCli {T} _ _ _ _.
Arguments cli_dev {T} _.
Arguments cli_draws {T} _.
Arguments cli_failures {T} _.
Arguments cli_audit {T} _.

Record BurnOptions := mkBurnOptions {
  bo_version : Z;
  bo_verbose : bool;
  bo_dry_run : bool;
  bo_confirm_uid : option (list Z);
  bo_force : bool;
}.

(** The command line parser guarantees that exactly one source is given. *)
Inductive WipeKeySource :=
| Wipe_Issuer (issuer_key : list Z)
| Wipe_Raw (raw_keys : CardKeys).

Record WipeOptions := mkWipeOptions {
  wo_verbose : bool;
  wo_dry_run : bool;
  wo_skip_preverify : bool;
  wo_confirm_uid : option (list Z);
}.

Section cli.
  Context {T TE : Type} {D : NtagDevice T TE} `{C : AesCrypto}.
  Context (sdm_url_config : list Z → CryptoMode → SdmUrlOptions → result SdmUrlConfig SdmUrlError).
  (** The system random source, by draw; [None] when it fails. *)
  Context (rng : nat → option (list Z)).
  (** The environment variable [BOLTY_ASSUME_NTAG424]. *)
  Context (assume_ntag424 : bool).

  Local Notation P := (M (Cli T) (CliError TE)).

(** A device operation inside the process. *)
Definition on_dev {E A} (m : M T E A) : M (Cli T) E A := λ s,
  let '(r, t) := m (cli_dev s) in
  (r, mkCli t (cli_draws s) (cli_failures s) (cli_audit s)).

Definition log_event (event : list Z) (provenance : option KeyProvenance) : P unit := λ s,
  (Ok tt, mkCli (cli_dev s) (cli_draws s) (cli_failures s) (cli_audit s ++ [(event, provenance)])).

Definition gen_rnd_a : P (list Z) := λ s,
  (match rng (cli_draws s) with Some r => Ok r | None => Err Cli_RngFailed end,
   mkCli (cli_dev s) (S (cli_draws s)) (cli_failures s) (cli_audit s)).

Definition record_auth_failure : P unit := λ s,
  let count := u32 (cli_failures s + 1) in
  (if decide (CIRCUIT_BREAKER_THRESHOLD ≤ count) then Err (Cli_Exit 6) else Ok tt,
   mkCli (cli_dev s) (cli_draws s) count (cli_audit s)).

(** The retry loop every probe runs: authentication delays are waited out up
    to the end of the ladder ([exhausted]), any other failure goes to
    [rejected]. *)
Fixpoint auth_loop (fuel : nat) {A} (slot : KeyNumber) (key : AesKey) (accepted : A)
    (exhausted : CliError TE) (rejected : P A) (retry : nat) : P A :=
  match fuel with
  | O => fail Cli_OutOfFuel
  | S fuel =>
      rnd_a ← gen_rnd_a;
      r ← attempt (on_dev (authenticate_aes session_default slot key rnd_a));
      match r with
      | Ok _ => mret accepted
      | Err e =>
          if is_session_auth_delay e then
            match next_delay retry with
            | Some (_, retry) => auth_loop fuel slot key accepted exhausted rejected retry
            | None => fail exhausted
            end
          else rejected
      end
  end.

Definition AUTH_FUEL : nat := S (length AUTH_RETRY_DELAYS).

Definition exhausted_msg : list Z := lit "authentication failed after 11 attempts".

(** A probe that counts a rejection against the circuit breaker. *)
Definition probe_key (key : AesKey) : P bool :=
  auth_loop AUTH_FUEL Key0 key true (Cli_Bail exhausted_msg)
    (_ ← record_auth_failure; mret false) 0.

Definition authenticate_slot_with_retry (slot : KeyNumber) (key : AesKey) : P unit :=
  auth_loop AUTH_FUEL slot key tt (Cli_Bail exhausted_msg)
    (_ ← record_auth_failure; fail (Cli_Bail (lit "authentication failed - wrong key for this slot"))) 0.

Definition confirm (confirm_uid : option (list Z)) (uid_fixed : list Z) (msg : list Z) : P unit :=
  match confirm_uid with
  | Some expected => if decide (uid_fixed ≠ expected) then fail (Cli_Bail msg) else mret tt
  | None => mret tt
  end.

(** The probes of [burn_card] that decide the current and the previous keys. *)
Definition burn_current_keys (keys : CardKeys) (provenance : KeyProvenance) :
    P (AesKey * CardKeys) :=
  factory_works ← probe_key FACTORY_KEY;
  if (factory_works : bool) then
    _ ← log_event (lit "burn: authenticated with factory K0") (Some FactoryDefault);
    mret (FACTORY_KEY, CardKeys_zeroed)
  else
    provided_works ← probe_key (k0 keys);
    if (provided_works : bool) then
      _ ← log_event (lit "burn: authenticated with provided K0 (re-burn)") (Some provenance);
      mret (k0 keys, keys)
    else fail (Cli_Bail (lit "authentication failed with both factory and provided K0")).

Definition burn_card (keys : CardKeys) (url : list Z) (opts : BurnOptions)
    (provenance : KeyProvenance) : P unit :=
  uid_fixed ← lift_err Cli_Ntag (on_dev (preflight_with_chip_check assume_ntag424));
  _ ← confirm (bo_confirm_uid opts) uid_fixed (lit "UID mismatch - refusing to burn wrong card");
  if bo_dry_run opts then
    match sdm_url_config (standardize_url_template url) Aes burn_sdm_opts with
    | Err e => fail (Cli_SdmUrl e)
    | Ok _ => mret tt
    end
  else
  if negb (bo_force opts) && (negb (contains (lit "{picc") url) || negb (contains MAC_MARK url)) then
    fail (Cli_Bail (lit "URL must contain {picc} and {mac} placeholders for SDM"))
  else
  _ ← (if negb (bo_force opts) then
         auth_loop AUTH_FUEL Key0 FACTORY_KEY true
           (Cli_Bail (lit "card is in AUTH_DELAY state")) (mret false) 0
       else mret true);
  cur ← burn_current_keys keys provenance;
  let params := mkBurnParams url keys (bo_version opts) cur.1 cur.2 in
  rnd_a ← gen_rnd_a;
  _ ← log_event (lit "burn: starting — UID=" ++ encode_hex uid_fixed ++ lit ", version=" ++
        show_u8 (bo_version opts) ++ lit ", url=" ++ url) (Some provenance);
  r ← attempt (on_dev (burn sdm_url_config params rnd_a));
  match r with
  | Err e =>
      _ ← log_event (lit "burn: FAILED") (Some provenance);
      fail (Cli_Ntag e)
  | Ok _ =>
      log_event (lit "burn: SUCCESS — K1-K4 + K0 installed (" ++ to_audit_tag provenance ++ lit ")")
        (Some provenance)
  end.

Definition cmd_burn (issuer_key : list Z) (url : list Z) (opts : BurnOptions) : P unit :=
  uid_fixed ← lift_err Cli_Ntag (on_dev (preflight_with_chip_check assume_ntag424));
  let keys := derive_keys issuer_key uid_fixed (bo_version opts) in
  burn_card (CardKeySet_keys keys) url opts (DerivedIssuer (bo_version opts)).

Definition is_hex (s : list Z) : bool :=
  negb (bool_decide (s = [])) && forallb (λ b, bool_decide (is_Some (decode_hex_nibble b))) s.

Definition is_zero_hex (s : list Z) : bool := forallb (λ b, b =? 48) s.

(** The verdict of [pre_verify_pc] on the bytes it read. *)
Definition pre_verify_data (keys : CardKeySet) (uid_fixed data : list Z) :
    result unit (list Z) :=
  match parse_ndef_uri data with
  | None => Err (lit "pre-verification: NDEF unreadable")
  | Some parsed =>
      match extract_p_and_c (nu_url parsed) with
      | None => Ok tt
      | Some (p_hex, c_hex) =>
          if negb (is_hex p_hex) || negb (is_hex c_hex) then Ok tt
          else if is_zero_hex p_hex || is_zero_hex c_hex then Ok tt
          else match picc_decrypt_p (ks_k1 keys) p_hex with
               | None => Err (lit "pre-verification: p= decryption failed")
               | Some picc =>
                   if match pd_uid picc with
                      | Some p_uid => bool_decide (p_uid = uid_fixed)
                      | None => true
                      end
                   then if picc_verify_c (ks_k2 keys) picc c_hex then Ok tt
                        else Err (lit "pre-verification: SUN MAC mismatch")
                   else Err (lit "pre-verification: p= UID does not match card UID")
               end
      end
  end.

Definition pre_verify_pc (keys : CardKeySet) (uid_fixed : list Z) : P unit := λ s,
  let '(r, buf, _, t) := read_file_unauthenticated session_default 0 (replicate 256 0) (cli_dev s) in
  (match r with
   | Err e => Err (Cli_Session (lit "pre-verification: failed to read NDEF") e)
   | Ok len => map_err Cli_Bail (pre_verify_data keys uid_fixed (take (Nat.min len (length buf)) buf))
   end,
   mkCli t (cli_draws s) (cli_failures s) (cli_audit s)).

(** The second factory probe of [cmd_wipe]: [true] when the card turns out to
    be already wiped. *)
Definition wipe_factory_check : P bool :=
  rnd_a ← gen_rnd_a;
  r ← attempt (on_dev (authenticate_aes session_default Key0 FACTORY_KEY rnd_a));
  match r with
  | Err _ => mret false
  | Ok session =>
      fs ← lift_err (Cli_Session (lit "failed to read file settings with factory K0"))
             (on_dev (get_file_settings session));
      let has_sdm := is_sdm_functionally_active (fs_sdm fs.1) in
      rd ← lift_err (Cli_Session (lit "failed to read NDEF with factory K0"))
             (on_dev (read_file_plain fs.2 0 0 (replicate 256 0)));
      let '(len, buf, _) := rd in
      let has_ndef := bool_decide ((2 ≤ len)%nat) &&
        (negb (nth 0 buf 0 =? 0) || negb (nth 1 buf 0 =? 0)) in
      if negb has_sdm && negb has_ndef then mret true
      else fail (Cli_Bail (lit "Factory K0 works but card has residual state"))
  end.

Fixpoint verify_slots (slots : list (KeyNumber * AesKey)) : P unit :=
  match slots with
  | [] => mret tt
  | (slot, key) :: slots =>
      _ ← authenticate_slot_with_retry slot key;
      verify_slots slots
  end.

Definition wipe_keyset (source : WipeKeySource) (version : Z) (uid_fixed : list Z) :
    CardKeySet * KeyProvenance :=
  match source with
  | Wipe_Issuer issuer_key => (derive_keys issuer_key uid_fixed version, DerivedIssuer version)
  | Wipe_Raw raw =>
      ({| ks_card_key := FACTORY_KEY; ks_k0 := k0 raw; ks_k1 := k1 raw; ks_k2 := k2 raw;
          ks_k3 := k3 raw; ks_k4 := k4 raw; ks_card_id := replicate 16 0 |}, UnknownExternal)
  end.

Definition is_raw (source : WipeKeySource) : bool :=
  match source with Wipe_Raw _ => true | Wipe_Issuer _ => false end.

(** The gates between the factory probes and the first mutating command. *)
Definition wipe_gates (source : WipeKeySource) (keys : CardKeySet) (provenance : KeyProvenance)
    (uid_fixed : list Z) (skip_preverify : bool) : P unit :=
  _ ← (if skip_preverify then
         log_event (lit "wipe: p/c pre-verification skipped by explicit flag") (Some provenance)
       else pre_verify_pc keys uid_fixed);
  r ← attempt (authenticate_slot_with_retry Key0 (ks_k0 keys));
  match r with
  | Err (Cli_Exit c) => fail (Cli_Exit c)
  | Err Cli_OutOfFuel => fail Cli_OutOfFuel
  | Err _ => fail (Cli_Bail (lit "K0 authentication failed"))
  | Ok _ =>
      if is_raw source then
        _ ← verify_slots [(Key1, ks_k1 keys); (Key2, ks_k2 keys); (Key3, ks_k3 keys); (Key4, ks_k4 keys)];
        log_event (lit "wipe: raw keyset K0–K4 verified before first mutation") (Some provenance)
      else mret tt
  end.

Definition cmd_wipe (source : WipeKeySource) (version : Z) (opts : WipeOptions) : P unit :=
  if is_raw source && bool_decide (wo_confirm_uid opts = None) then
    fail (Cli_Bail (lit "--raw-keys requires --confirm-uid"))
  else
  uid_fixed ← lift_err Cli_Ntag (on_dev (preflight_with_chip_check assume_ntag424));
  _ ← confirm (wo_confirm_uid opts) uid_fixed (lit "UID mismatch - refusing to wipe wrong card");
  let '(keys, provenance) := wipe_keyset source version uid_fixed in
  if wo_dry_run opts then mret tt else
  rnd_a ← gen_rnd_a;
  factory_probe ← attempt (on_dev (authenticate_aes session_default Key0 FACTORY_KEY rnd_a));
  if is_ok factory_probe then
    fail (Cli_Bail (lit "card has factory K0 — already BLANK or half-wiped"))
  else
  already_wiped ← wipe_factory_check;
  if (already_wiped : bool) then mret tt else
  _ ← wipe_gates source keys provenance uid_fixed (wo_skip_preverify opts);
  rnd_a ← gen_rnd_a;
  _ ← log_event (lit "wipe: starting — UID=" ++ encode_hex uid_fixed ++ lit ", version=" ++
        show_u8 version) (Some provenance);
  r ← attempt (on_dev (wipe (CardKeySet_keys keys) rnd_a));
  match r with
  | Err e =>
      _ ← log_event (lit "wipe: FAILED") (Some provenance);
      fail (Cli_Ntag e)
  | Ok _ => log_event (lit "wipe: SUCCESS — all keys reset to factory zeros") (Some provenance)
  end.
End cli.
