(* ===== verification/CliProofs.v ===== *)
(** * Safety of the burn and wipe commands

    Each command is specified by one postcondition on the process state:
    what must hold for the card to have been touched at all, what success
    means, and how many authentications and recorded failures a run can cost.
    The theorems project that postcondition. *)

From S2P Require Import Prelude Str Hex Derivation Assessment Picc Ndef NtagTypes Session Ntag NtagProofs Cli.

Section cli_lemmas.
  Context {T TE : Type} {D : NtagDevice T TE} {L : NtagLaws D} `{C : AesCrypto}.
  Context (rng : nat → option (list Z)).

  Local Notation P := (M (Cli T) (CliError TE)).

(** The card behind the process. *)
Definition dcard (s : Cli T) : Card := card (cli_dev s).

(** A stretch of a command that costs at most [n] random draws (hence at most
    [n] authentications) and [k] recorded failures, and leaves the card alone. *)
Definition spent (n : nat) (k : Z) (s s' : Cli T) : Prop :=
  dcard s' = dcard s ∧ (cli_draws s ≤ cli_draws s' ≤ cli_draws s + n)%nat ∧
  cli_failures s ≤ cli_failures s' ≤ cli_failures s + k.

(** The circuit breaker: the count stays below the threshold unless the
    process has exited. *)
Definition breaker_ok {A} (r : result A (CliError TE)) (s : Cli T) : Prop :=
  0 ≤ cli_failures s ≤ CIRCUIT_BREAKER_THRESHOLD ∧
  (r ≠ Err (Cli_Exit 6) → cli_failures s < CIRCUIT_BREAKER_THRESHOLD).

Definition breaker_low (s : Cli T) : Prop := 0 ≤ cli_failures s < CIRCUIT_BREAKER_THRESHOLD.

Lemma spent_refl n k s : 0 ≤ k → spent n k s s.
Proof. unfold spent. intros. split; [done|lia]. Qed.

Lemma spent_trans n k n' k' s1 s2 s3 :
  spent n k s1 s2 → spent n' k' s2 s3 → spent (n + n') (k + k') s1 s3.
Proof. unfold spent. intros (-> & ? & ?) (? & ? & ?). split; [done|]. lia. Qed.

Lemma spent_weaken n k n' k' s s' :
  spent n k s s' → (n ≤ n')%nat → k ≤ k' → spent n' k' s s'.
Proof. unfold spent. intros (? & ? & ?) ? ?. split; [done|]. lia. Qed.

Lemma wp_on_dev {E A} (m : M T E A) (Q : result A E → Cli T → Prop) s :
  wp m (λ r t, Q r (mkCli t (cli_draws s) (cli_failures s) (cli_audit s))) (cli_dev s) →
  wp (on_dev m) Q s.
Proof. unfold wp, on_dev. by destruct (m (cli_dev s)). Qed.

Lemma wp_gen_rnd_a (Q : result (list Z) (CliError TE) → Cli T → Prop) s :
  (∀ r s', spent 1 0 s s' → cli_failures s' = cli_failures s → r ≠ Err (Cli_Exit 6) →
     r ≠ Err Cli_OutOfFuel → Q r s') →
  wp (gen_rnd_a rng) Q s.
Proof.
  intros H. unfold wp, gen_rnd_a. simpl.
  apply H; [unfold spent, dcard; simpl; split; [done|lia]|done|..];
    by destruct (rng (cli_draws s)).
Qed.

Lemma wp_log_event e p (Q : result unit (CliError TE) → Cli T → Prop) s :
  (∀ s', spent 0 0 s s' → cli_failures s' = cli_failures s →
    cli_audit s' = cli_audit s ++ [(e, p)] → Q (Ok tt) s') →
  wp (log_event e p) Q s.
Proof. intros H. apply H; try done. unfold spent, dcard. simpl. split; [done|lia]. Qed.

(** [authenticate_aes] inside the process. *)
Lemma wp_try_auth {E} slot key rnd (Q : result (result ASess (SessionError TE)) E → Cli T → Prop) s :
  (∀ r s', dcard s' = dcard s → cli_draws s' = cli_draws s → cli_failures s' = cli_failures s →
     cli_audit s' = cli_audit s →
     (is_ok r = true → get_key slot (c_keys (dcard s)) = key) → Q (Ok r) s') →
  wp (attempt (on_dev (authenticate_aes session_default slot key rnd))) Q s.
Proof.
  intros H. apply wp_attempt, wp_on_dev. eapply wp_mono; [apply law_auth|].
  intros r t [Hc Hk]. apply H; try done. intros Ho. destruct r as [s'|]; [|done].
  by apply (Hk s').
Qed.

(** The retry ladder: it ends within its fuel, and only in an acceptance for
    the right key, an exhausted ladder, a failed random source, or the
    rejection branch. *)
Lemma wp_auth_loop {A} fuel slot key (acc : A) exh rej retry (Q : result A (CliError TE) → Cli T → Prop) s :
  (retry ≤ length AUTH_RETRY_DELAYS < fuel + retry)%nat →
  (∀ s', spent fuel 0 s s' → cli_failures s' = cli_failures s →
     (get_key slot (c_keys (dcard s)) = key → Q (Ok acc) s') ∧ Q (Err exh) s' ∧
     (∀ e, e ≠ Cli_Exit 6 → e ≠ Cli_OutOfFuel → Q (Err e) s') ∧ wp rej Q s') →
  wp (auth_loop rng fuel slot key acc exh rej retry) Q s.
Proof.
  revert retry s. induction fuel as [|fuel IH]; intros retry s Hf HQ; [lia|]. cbn [auth_loop].
  apply wp_bind, wp_gen_rnd_a. intros r s1 Hs1 Hf1 Hne1 Hne2. destruct r as [rnd|e].
  2:{ apply HQ; try congruence. eapply spent_weaken; [exact Hs1|lia|lia]. }
  apply wp_bind. apply wp_try_auth. intros r s2 Hc2 Hd2 Hf2 _ Hk2.
  assert (spent 1 0 s s2) as Hs2.
  { unfold spent in *. rewrite Hc2, Hd2, Hf2. exact Hs1. }
  assert (spent (S fuel) 0 s s2) as Hs2' by (eapply spent_weaken; [exact Hs2|lia|lia]).
  destruct (HQ s2 Hs2' ltac:(congruence)) as (HQok & HQexh & _ & HQrej).
  destruct r as [s'|e].
  - apply wp_ret, HQok. destruct Hs1 as [Hc1 _]. rewrite <-Hc1. by apply Hk2.
  - destruct (is_session_auth_delay e); [|done].
    destruct (next_delay retry) as [[d retry']|] eqn:En; [|by apply wp_fail].
    unfold next_delay in En. destruct (AUTH_RETRY_DELAYS !! retry) as [d'|] eqn:El; [|done].
    injection En as <- <-. apply lookup_lt_Some in El. apply IH; [lia|].
    intros s3 Hs3 Hf3.
    assert (spent (S fuel) 0 s s3) as Hs3'.
    { eapply spent_weaken; [eapply spent_trans; [exact Hs2|exact Hs3]|lia|lia]. }
    destruct Hs2 as [Hc _]. rewrite Hc. apply HQ; [done|congruence].
Qed.

Lemma wp_record (Q : result unit (CliError TE) → Cli T → Prop) s :
  breaker_low s →
  (∀ r s', spent 0 1 s s' → breaker_ok r s' → r ≠ Err Cli_OutOfFuel → Q r s') →
  wp record_auth_failure Q s.
Proof.
  intros Hb H. unfold breaker_low, CIRCUIT_BREAKER_THRESHOLD in Hb.
  unfold wp, record_auth_failure. simpl. unfold u32. rewrite Z.mod_small by lia.
  apply H; unfold spent, breaker_ok, dcard, CIRCUIT_BREAKER_THRESHOLD; simpl.
  - split; [done|lia].
  - case_decide; (split; [lia|]); intros; [congruence|lia].
  - by case_decide.
Qed.

(** The two recording probes. *)
Lemma wp_probe_key key (Q : result bool (CliError TE) → Cli T → Prop) s :
  breaker_low s →
  (∀ r s', spent 11 1 s s' → breaker_ok r s' → r ≠ Err Cli_OutOfFuel →
     (r = Ok true → k0 (c_keys (dcard s)) = key) → Q r s') →
  wp (probe_key rng key) Q s.
Proof.
  intros Hb HQ. unfold probe_key. apply wp_auth_loop; [simpl; lia|].
  intros s1 Hs1 Hf1. change AUTH_FUEL with 11%nat in Hs1.
  assert (spent 11 1 s s1) as Hs1' by (eapply spent_weaken; [exact Hs1|lia|lia]).
  assert (∀ r : result bool (CliError TE), breaker_ok r s1) as Hb1.
  { unfold breaker_ok, breaker_low in *. intros r. rewrite Hf1. lia. }
  split; [|split; [|split]].
  - intros Hk. apply HQ; auto.
  - by apply HQ.
  - intros e He1 He2. apply HQ; congruence || auto.
  - apply wp_bind, wp_record; [unfold breaker_low in *; by rewrite Hf1|].
    intros r s2 Hs2 Hb2 Hne. assert (spent 11 1 s s2) as Hs2'.
    { eapply spent_weaken; [eapply spent_trans; [exact Hs1|exact Hs2]|simpl; lia|lia]. }
    destruct r as [[]|e]; [apply wp_ret|]; apply HQ; try done.
    + unfold breaker_ok in *. split; [lia|]. intros _. apply Hb2. congruence.
    + unfold breaker_ok in *. split; [lia|]. intros He. apply Hb2. congruence.
    + congruence.
Qed.

Lemma wp_auth_slot slot key (Q : result unit (CliError TE) → Cli T → Prop) s :
  breaker_low s →
  (∀ r s', spent 11 1 s s' → breaker_ok r s' → r ≠ Err Cli_OutOfFuel →
     (r = Ok tt → spent 11 0 s s' ∧ breaker_low s' ∧ get_key slot (c_keys (dcard s)) = key) → Q r s') →
  wp (authenticate_slot_with_retry rng slot key) Q s.
Proof.
  intros Hb HQ. unfold authenticate_slot_with_retry. apply wp_auth_loop; [simpl; lia|].
  intros s1 Hs1 Hf1. change AUTH_FUEL with 11%nat in Hs1.
  assert (spent 11 1 s s1) as Hs1' by (eapply spent_weaken; [exact Hs1|lia|lia]).
  assert (∀ r : result unit (CliError TE), breaker_ok r s1) as Hb1.
  { unfold breaker_ok, breaker_low in *. intros r. rewrite Hf1. lia. }
  split; [|split; [|split]].
  - intros Hk. apply HQ; auto. intros _. split; [done|]. split; [|done].
    unfold breaker_low in *. by rewrite Hf1.
  - by apply HQ.
  - intros e He1 He2. apply HQ; congruence || auto.
  - apply wp_bind, wp_record; [unfold breaker_low in *; by rewrite Hf1|].
    intros r s2 Hs2 Hb2 Hne. assert (spent 11 1 s s2) as Hs2'.
    { eapply spent_weaken; [eapply spent_trans; [exact Hs1|exact Hs2]|simpl; lia|lia]. }
    destruct r as [[]|e]; [apply wp_fail|]; apply HQ; try done.
    + unfold breaker_ok in *. split; [lia|]. intros _. apply Hb2. congruence.
Qed.
Lemma breaker_keep {A} (r : result A (CliError TE)) (s s' : Cli T) :
  breaker_low s → cli_failures s' = cli_failures s → breaker_ok r s'.
Proof. unfold breaker_low, breaker_ok. intros ? ->. lia. Qed.

Lemma breaker_ok_low {A} (r : result A (CliError TE)) (s : Cli T) :
  breaker_ok r s → r ≠ Err (Cli_Exit 6) → breaker_low s.
Proof. unfold breaker_low, breaker_ok. intros [? H] Hr. specialize (H Hr). lia. Qed.

Lemma breaker_err {A B} (e : CliError TE) (s : Cli T) :
  breaker_ok (Err (A := A) e) s → breaker_ok (Err (A := B) e) s.
Proof. unfold breaker_ok. intros [? H]. split; [done|]. intros Hne. apply H. congruence. Qed.

End cli_lemmas.

(** An exit before the first modification, [H] being what was spent. *)
Ltac early lem H :=
  eapply lem; [exact H|lia|lia
    |first [done | by eapply breaker_err | eapply breaker_keep; [eassumption|congruence]]
    |congruence|done || (intros _; by left)].

(** Adding up two spendings. *)
Ltac spend H1 H2 :=
  eapply spent_weaken; [eapply spent_trans; [exact H1|exact H2]|simpl; lia|lia].

Section burn_command.
  Context {T TE : Type} {D : NtagDevice T TE} {L : NtagLaws D} `{C : AesCrypto}.
  Context (sdm_url_config : list Z → CryptoMode → SdmUrlOptions → result SdmUrlConfig SdmUrlError).
  Context (rng : nat → option (list Z)) (assume : bool).

Lemma wp_preflight (Q : result (list Z) (CliError TE) → Cli T → Prop) s :
  (∀ r s', spent 0 0 s s' → cli_failures s' = cli_failures s → r ≠ Err (Cli_Exit 6) →
     r ≠ Err Cli_OutOfFuel → (∀ uid, r = Ok uid → uid = uid_to_fixed (c_uid (dcard s))) → Q r s') →
  wp (lift_err Cli_Ntag (on_dev (preflight_with_chip_check assume))) Q s.
Proof.
  intros H. apply wp_lift_err, wp_on_dev. eapply wp_mono; [apply preflight_spec|].
  intros r t [Hc Hu]. apply H.
  - unfold spent, dcard. simpl. split; [done|lia].
  - done.
  - by destruct r.
  - by destruct r.
  - destruct r; simpl; [|intros ? [=]]. intros uid [= <-]. by apply Hu.
Qed.

Lemma wp_confirm o uid msg (Q : result unit (CliError TE) → Cli T → Prop) s :
  (o = None ∨ o = Some uid → Q (Ok tt) s) → Q (Err (Cli_Bail msg)) s →
  wp (confirm o uid msg) Q s.
Proof.
  intros Hok Herr. unfold confirm. destruct o as [u|]; [|by apply wp_ret, Hok; left].
  case_decide as Hd; [by apply wp_fail|]. apply wp_ret, Hok. right.
  destruct (decide (uid = u)) as [-> | ]; done.
Qed.

(** What must have held for a burn to touch the card. *)
Definition burn_gates (keys : CardKeys) (url : list Z) (opts : BurnOptions) (c : Card) : Prop :=
  bo_dry_run opts = false ∧
  (bo_confirm_uid opts = None ∨ bo_confirm_uid opts = Some (uid_to_fixed (c_uid c))) ∧
  (bo_force opts = true ∨ contains (lit "{picc") url = true ∧ contains MAC_MARK url = true) ∧
  (k0 (c_keys c) = FACTORY_KEY ∨ k0 (c_keys c) = k0 keys).

(** The parameters the command passes down: its keys and URL, at its version. *)
Definition burned_as (keys : CardKeys) (url : list Z) (ver : Z) (c c' : Card) : Prop :=
  ∃ plan params, sdm_url_config (standardize_url_template url) Aes burn_sdm_opts = Ok plan ∧
    bp_keys params = keys ∧ bp_key_version params = ver ∧ provisioned plan params c c'.

Record burn_post (keys : CardKeys) (url : list Z) (opts : BurnOptions) (s : Cli T)
    (r : result unit (CliError TE)) (s' : Cli T) : Prop := {
  bpost_breaker : breaker_ok r s';
  bpost_fuel : r ≠ Err Cli_OutOfFuel;
  bpost_draws : (cli_draws s' ≤ cli_draws s + 34)%nat;
  bpost_failures : cli_failures s' ≤ cli_failures s + 2;
  bpost_gates : dcard s' = dcard s ∨ burn_gates keys url opts (dcard s);
  bpost_master : master_kept (dcard s) (dcard s') ∨
    burned_as keys url (bo_version opts) (dcard s) (dcard s');
  bpost_ok : r = Ok tt →
    if bo_dry_run opts then dcard s' = dcard s
    else burned_as keys url (bo_version opts) (dcard s) (dcard s');
}.

Lemma burn_post_early keys url opts n k s r s' :
  spent n k s s' → (n ≤ 34)%nat → k ≤ 2 → breaker_ok r s' → r ≠ Err Cli_OutOfFuel →
  (r = Ok tt → bo_dry_run opts = true) → burn_post keys url opts s r s'.
Proof.
  intros (Hc & Hd & Hf) Hn Hk Hb Hr Hdry. constructor; try done; try lia.
  - by left.
  - left. by rewrite Hc.
  - intros Hok. by rewrite (Hdry Hok).
Qed.

(** Finding out which keys the card has. *)
Lemma wp_burn_current_keys keys prov (Q : result (AesKey * CardKeys) (CliError TE) → Cli T → Prop) s :
  breaker_low s →
  (∀ r s', spent 22 2 s s' → breaker_ok r s' → r ≠ Err Cli_OutOfFuel →
     (∀ cur, r = Ok cur → cur.1 = k0 (c_keys (dcard s)) ∧ (cur.1 = FACTORY_KEY ∨ cur.1 = k0 keys)) →
     Q r s') →
  wp (burn_current_keys rng keys prov) Q s.
Proof.
  intros Hb HQ. unfold burn_current_keys.
  apply wp_bind, wp_probe_key; [done|]. intros r1 s1 Hs1 Hb1 Hn1 Hk1. destruct r1 as [[]|e].
  - apply wp_bind, wp_log_event. intros s2 Hs2 Hf2 _. apply wp_ret. apply HQ; [| | done |].
    + eapply spent_weaken; [eapply spent_trans; [exact Hs1|exact Hs2]|simpl; lia|lia].
    + eapply breaker_keep; [eapply breaker_ok_low; [exact Hb1|done]|done].
    + intros cur [= <-]. simpl. rewrite Hk1 by done. auto.
  - assert (breaker_low s1) as Hl1 by (eapply breaker_ok_low; [exact Hb1|done]).
    apply wp_bind, wp_probe_key; [done|]. intros r2 s2 Hs2 Hb2 Hn2 Hk2.
    assert (spent 22 2 s s2) as Hs by
      (eapply spent_weaken; [eapply spent_trans; [exact Hs1|exact Hs2]|simpl; lia|lia]).
    destruct r2 as [[]|e].
    + apply wp_bind, wp_log_event. intros s3 Hs3 Hf3 _. apply wp_ret. apply HQ; [| | done |].
      * eapply spent_weaken; [eapply spent_trans; [exact Hs|exact Hs3]|simpl; lia|lia].
      * eapply breaker_keep; [eapply breaker_ok_low; [exact Hb2|done]|done].
      * intros cur [= <-]. simpl. destruct Hs1 as [Hc1 _]. rewrite <-Hc1, Hk2 by done. auto.
    + apply wp_fail. apply HQ; try done.
      eapply breaker_keep; [eapply breaker_ok_low; [exact Hb2|done]|done].
    + apply HQ; try done; [by eapply breaker_err|congruence].
  - apply HQ; try done; [|by eapply breaker_err|congruence].
    eapply spent_weaken; [exact Hs1|lia|lia].
Qed.

(** The burn itself, inside the process. *)
Lemma wp_burn_dev params rnd (Q : result (result (list Z) (Error TE)) (CliError TE) → Cli T → Prop) s :
  (∀ r s', cli_draws s' = cli_draws s → cli_failures s' = cli_failures s →
     (master_kept (dcard s) (dcard s') ∨
      burned_as (bp_keys params) (bp_lnurl params) (bp_key_version params) (dcard s) (dcard s')) →
     (is_ok r = true →
      burned_as (bp_keys params) (bp_lnurl params) (bp_key_version params) (dcard s) (dcard s')) →
     Q (Ok r) s') →
  wp (attempt (on_dev (burn sdm_url_config params rnd))) Q s.
Proof.
  intros H. apply wp_attempt, wp_on_dev. eapply wp_mono; [apply burn_outcome|].
  intros r t [Hor Hok]. apply H; try done.
  - destruct Hor as [?|(plan & Hp & Hprov)]; [by left|]. right. by exists plan, params.
  - intros Hr. destruct r as [u|e]; [|done].
    destruct (Hok _ eq_refl) as (_ & _ & plan & Hp & Hprov). by exists plan, params.
Qed.

Lemma burn_post_final keys url opts s s1 r s2 s3 n k :
  spent n k s s1 → (n ≤ 34)%nat → k ≤ 2 → breaker_low s1 →
  cli_draws s2 = cli_draws s1 → cli_failures s2 = cli_failures s1 →
  spent 0 0 s2 s3 → cli_failures s3 = cli_failures s2 →
  burn_gates keys url opts (dcard s) →
  (master_kept (dcard s1) (dcard s2) ∨ burned_as keys url (bo_version opts) (dcard s1) (dcard s2)) →
  (r = Ok tt → burned_as keys url (bo_version opts) (dcard s1) (dcard s2)) →
  r ≠ Err Cli_OutOfFuel → burn_post keys url opts s r s3.
Proof.
  intros (Hc1 & Hd1 & Hf1) Hn Hk Hb Hd2 Hf2 (Hc3 & Hd3 & _) Hf3 Hg Hor Hok Hr.
  rewrite Hc1 in *. constructor; rewrite ?Hc3; auto; try lia.
  - eapply breaker_keep; [exact Hb|congruence].
  - intros ->. destruct Hg as [-> _]. auto.
Qed.

(** The probe for a running authentication delay, skipped when forced. *)
Lemma wp_delay_check (force : bool) exh rej (Q : result bool (CliError TE) → Cli T → Prop) s :
  (∀ r s', spent 11 0 s s' → cli_failures s' = cli_failures s → r ≠ Err (Cli_Exit 6) →
     r ≠ Err Cli_OutOfFuel → Q r s') →
  wp (if negb force then
        auth_loop rng AUTH_FUEL Key0 FACTORY_KEY true (Cli_Bail exh) (mret rej) 0
      else mret true) Q s.
Proof.
  intros HQ. destruct (negb force).
  - apply wp_auth_loop; [simpl; lia|]. intros s2 Hs2 Hf2.
    repeat split; intros; try apply wp_ret; apply HQ; congruence || done.
  - apply wp_ret, HQ; [apply spent_refl; lia|done..].
Qed.

(** The burn itself and its audit event, once every gate has passed. *)
Lemma wp_burn_tail keys url opts prov cur rnd s s1 :
  spent 34 2 s s1 → breaker_low s1 → burn_gates keys url opts (dcard s) →
  wp (r ← attempt (on_dev (burn sdm_url_config
            (mkBurnParams url keys (bo_version opts) cur.1 cur.2) rnd));
      match r with
      | Err e => _ ← log_event (lit "burn: FAILED") (Some prov); fail (Cli_Ntag e)
      | Ok _ => log_event (lit "burn: SUCCESS — K1-K4 + K0 installed (" ++ to_audit_tag prov ++ lit ")")
                  (Some prov)
      end) (burn_post keys url opts s) s1.
Proof.
  intros Hs Hb Hg. apply wp_bind, wp_burn_dev. intros r s2 Hd2 Hf2 Hor Hok. destruct r as [u|e].
  - apply wp_log_event. intros s3 Hs3 Hf3 _.
    eapply burn_post_final with (s1 := s1) (s2 := s2); eauto; lia || congruence.
  - apply wp_bind, wp_log_event. intros s3 Hs3 Hf3 _. apply wp_fail.
    eapply burn_post_final with (s1 := s1) (s2 := s2); eauto; lia || congruence.
Qed.

Lemma burn_card_spec keys url opts prov s :
  breaker_low s →
  wp (burn_card sdm_url_config rng assume keys url opts prov) (burn_post keys url opts s) s.
Proof.
  intros Hb. unfold burn_card.
  apply wp_bind, wp_preflight. intros r1 s1 Hs1 Hf1 Hx1 Ho1 Hu1.
  destruct r1 as [uid|e]; [|early burn_post_early Hs1]. rewrite (Hu1 _ eq_refl). clear Hu1.
  apply wp_bind, wp_confirm; [|early burn_post_early Hs1].
  intros Hconf. destruct (bo_dry_run opts) eqn:Edry.
  { destruct (sdm_url_config _ _ _); [apply wp_ret|apply wp_fail]; early burn_post_early Hs1. }
  destruct (negb (bo_force opts) && _) eqn:Etpl; [apply wp_fail; early burn_post_early Hs1|].
  assert (bo_force opts = true ∨ contains (lit "{picc") url = true ∧ contains MAC_MARK url = true) as Htpl.
  { destruct (bo_force opts); [by left|]. right. simpl in Etpl.
    apply orb_false_iff in Etpl as [E1 E2]. by apply negb_false_iff in E1, E2. }
  apply wp_bind, wp_delay_check. intros r2 s2 Hs2 Hf2 Hx2 Ho2.
  assert (breaker_low s2) as Hb2 by (unfold breaker_low in *; by rewrite Hf2, Hf1).
  assert (spent 11 0 s s2) as Hs22 by spend Hs1 Hs2.
  destruct r2 as [b|e]; [|early burn_post_early Hs22].
  apply wp_bind, wp_burn_current_keys; [done|]. intros r3 s3 Hs3 Hb3 Ho3 Hcur.
  assert (spent 33 2 s s3) as Hs33 by spend Hs22 Hs3.
  destruct r3 as [cur|e]; [|early burn_post_early Hs33].
  destruct (Hcur _ eq_refl) as [Hk0 Hkey].
  assert (breaker_low s3) as Hb3' by (by eapply breaker_ok_low).
  apply wp_bind, wp_gen_rnd_a. intros r4 s4 Hs4 Hf4 Hx4 Ho4.
  assert (spent 34 2 s s4) as Hs44 by spend Hs33 Hs4.
  destruct r4 as [rnd|e]; [|early burn_post_early Hs44].
  apply wp_bind, wp_log_event. intros s5 Hs5 Hf5 _.
  apply wp_burn_tail; [spend Hs44 Hs5|unfold breaker_low in *; by rewrite Hf5, Hf4|].
  destruct Hs22 as [Hc2 _]. rewrite Hc2 in Hk0. unfold burn_gates. rewrite <-Hk0. auto.
Qed.
End burn_command.

Section wipe_command.
  Context {T TE : Type} {D : NtagDevice T TE} {L : NtagLaws D} `{C : AesCrypto}.
  Context (rng : nat → option (list Z)) (assume : bool).

Lemma wp_pre_verify keys uid (Q : result unit (CliError TE) → Cli T → Prop) s :
  (∀ r s', spent 0 0 s s' → cli_failures s' = cli_failures s → r ≠ Err (Cli_Exit 6) →
     r ≠ Err Cli_OutOfFuel → r = (pre_verify_pc keys uid s).1 → Q r s') →
  wp (pre_verify_pc keys uid) Q s.
Proof.
  intros H. unfold wp, pre_verify_pc.
  pose proof (law_read_u session_default 0 (replicate 256 0) (cli_dev s)) as Hr.
  destruct (read_file_unauthenticated _ 0 _ _) as [[[r buf] us] t] eqn:Er. destruct Hr as [Hc _].
  cbn [fst snd]. apply H.
  - unfold spent, dcard. simpl. split; [done|lia].
  - done.
  - destruct r as [len|]; [|done]. by destruct (pre_verify_data _ _ _).
  - destruct r as [len|]; [|done]. by destruct (pre_verify_data _ _ _).
  - unfold pre_verify_pc. by rewrite Er.
Qed.

Lemma wp_factory_check (Q : result bool (CliError TE) → Cli T → Prop) s :
  (∀ r s', spent 1 0 s s' → cli_failures s' = cli_failures s → r ≠ Err (Cli_Exit 6) →
     r ≠ Err Cli_OutOfFuel → (r = Ok true → k0 (c_keys (dcard s)) = FACTORY_KEY) → Q r s') →
  wp (wipe_factory_check rng) Q s.
Proof.
  intros H. unfold wipe_factory_check. apply wp_bind, wp_gen_rnd_a.
  intros r1 s1 Hs1 Hf1 Hx1 Ho1. destruct r1 as [rnd|e].
  2:{ apply H; try done; congruence. }
  apply wp_bind, wp_try_auth. intros r2 s2 Hc2 Hd2 Hf2 _ Hk2.
  assert (spent 1 0 s s2) as Hs2.
  { unfold spent in *. rewrite Hc2, Hd2, Hf2. done. }
  destruct r2 as [session|e]; [|by apply wp_ret, H; try congruence].
  assert (k0 (c_keys (dcard s)) = FACTORY_KEY) as HK.
  { destruct Hs1 as [Hc1 _]. rewrite <-Hc1. by apply Hk2. }
  apply wp_bind, wp_lift_err, wp_on_dev. eapply wp_mono; [apply law_file_settings|].
  intros r3 t3 [Hc3 _].
  set (s3 := mkCli t3 _ _ _). assert (spent 1 0 s s3) as Hs3.
  { unfold spent, dcard in *. simpl. rewrite Hc3. done. }
  destruct r3 as [[fs session2]|e]; [|by apply H; simpl; congruence].
  apply wp_bind, wp_lift_err, wp_on_dev. eapply wp_mono; [apply law_read; lia|].
  intros r4 t4 [Hc4 _].
  set (s4 := mkCli t4 _ _ _). assert (spent 1 0 s s4) as Hs4.
  { unfold spent, dcard in *. simpl. rewrite Hc4. done. }
  destruct r4 as [[[n buf] session3]|e]; [|by apply H; simpl; congruence].
  simpl. destruct (_ && _); [apply wp_ret|apply wp_fail]; apply H; simpl; congruence || done.
Qed.

Lemma wp_verify_slots slots (Q : result unit (CliError TE) → Cli T → Prop) s :
  breaker_low s →
  (∀ r s', spent (11 * length slots) 1 s s' → breaker_ok r s' → r ≠ Err Cli_OutOfFuel →
     (r = Ok tt → spent (11 * length slots) 0 s s' ∧ breaker_low s' ∧
        Forall (λ '(n, k), get_key n (c_keys (dcard s)) = k) slots) → Q r s') →
  wp (verify_slots rng slots) Q s.
Proof.
  revert s. induction slots as [|[slot key] slots IH]; intros s Hb HQ; cbn [verify_slots].
  { apply wp_ret, HQ; try done.
    - by apply spent_refl.
    - by eapply breaker_keep.
    - intros _. split; [by apply spent_refl|]. done. }
  apply wp_bind, wp_auth_slot; [done|]. intros r1 s1 Hs1 Hb1 Ho1 Hok1. destruct r1 as [[]|e].
  2:{ apply HQ; try done. eapply spent_weaken; [exact Hs1|simpl; lia|lia]. }
  destruct (Hok1 eq_refl) as (Hs1' & Hb1' & Hk1).
  apply IH; [done|]. intros r2 s2 Hs2 Hb2 Ho2 Hok2. apply HQ; try done.
  - eapply spent_weaken; [eapply spent_trans; [exact Hs1'|exact Hs2]|simpl; lia|lia].
  - intros E. destruct (Hok2 E) as (Hs2' & Hb2' & Hall). split; [|split; [done|]].
    + eapply spent_weaken; [eapply spent_trans; [exact Hs1'|exact Hs2']|simpl; lia|lia].
    + constructor; [done|]. destruct Hs1' as [Hc1 _]. by rewrite <-Hc1.
Qed.

Lemma wp_wipe_gates source keys prov uid skip (Q : result unit (CliError TE) → Cli T → Prop) s :
  breaker_low s →
  (∀ r s', spent 55 1 s s' → breaker_ok r s' → r ≠ Err Cli_OutOfFuel →
     (r = Ok tt → breaker_low s' ∧ k0 (c_keys (dcard s)) = ks_k0 keys ∧
        (is_raw source = true → c_keys (dcard s) = CardKeySet_keys keys) ∧
        (skip = false → (pre_verify_pc keys uid s).1 = Ok tt)) → Q r s') →
  wp (wipe_gates rng source keys prov uid skip) Q s.
Proof.
  intros Hb HQ. unfold wipe_gates.
  apply wp_bind. eapply (wp_mono _ (λ r s', spent 0 0 s s' ∧ cli_failures s' = cli_failures s ∧
    r ≠ Err (Cli_Exit 6) ∧ r ≠ Err Cli_OutOfFuel ∧
    (r = Ok tt → skip = false → (pre_verify_pc keys uid s).1 = Ok tt))).
  { destruct skip; [apply wp_log_event|apply wp_pre_verify]; naive_solver. }
  intros r1 s1 (Hs1 & Hf1 & Hx1 & Ho1 & Hpre).
  assert (breaker_low s1) as Hb1 by (unfold breaker_low in *; by rewrite Hf1).
  destruct r1 as [[]|e].
  2:{ apply HQ; try congruence; [eapply spent_weaken; [exact Hs1|lia|lia]|by eapply breaker_keep]. }
  apply wp_bind, wp_attempt, wp_auth_slot; [done|]. intros r2 s2 Hs2 Hb2 Ho2 Hok2.
  assert (spent 55 1 s s2) as Hs22.
  { eapply spent_weaken; [eapply spent_trans; [exact Hs1|exact Hs2]|simpl; lia|lia]. }
  destruct r2 as [[]|e].
  2:{ assert (e = Cli_Exit 6 ∨ breaker_low s2) as Hor.
      { destruct e; try (right; eapply breaker_ok_low; [exact Hb2|congruence]).
        destruct (decide (code = 6)) as [-> | ]; [by left|].
        right. eapply breaker_ok_low; [exact Hb2|congruence]. }
      destruct Hor as [-> |Hl]; [apply wp_fail, HQ; done|].
      destruct e; try done; apply wp_fail, HQ; try done; by eapply breaker_keep. }
  destruct (Hok2 eq_refl) as (Hs2' & Hb2' & Hk0).
  assert (dcard s2 = dcard s ∧ dcard s1 = dcard s) as [Hc2 Hc1] by (split; [apply Hs22|apply Hs1]).
  rewrite Hc1 in Hk0. cbn [get_key] in Hk0.
  destruct (is_raw source) eqn:Eraw.
  - apply wp_bind, wp_verify_slots; [done|]. intros r3 s3 Hs3 Hb3 Ho3 Hok3.
    assert (spent 55 1 s s3) as Hs33.
    { eapply spent_weaken; [eapply spent_trans; [exact Hs1|eapply spent_trans; [exact Hs2'|exact Hs3]]
        |simpl; lia|lia]. }
    destruct r3 as [[]|e]; [|by apply HQ].
    destruct (Hok3 eq_refl) as (Hs3' & Hb3' & Hall).
    apply wp_log_event. intros s4 Hs4 Hf4 _.
    assert (breaker_low s4) as Hb4 by (unfold breaker_low in *; by rewrite Hf4).
    apply HQ; [| by eapply breaker_keep| done |].
    + eapply spent_weaken; [eapply spent_trans; [exact Hs33|exact Hs4]|lia|lia].
    + intros _. split; [done|]. split; [done|]. split; [|auto]. intros _.
      rewrite Hc2 in Hall. clear -Hall Hk0. destruct (c_keys (dcard s)). unfold CardKeySet_keys.
      repeat match goal with H : Forall _ (_ :: _) |- _ => inversion_clear H end. simpl in *.
      congruence.
  - apply wp_ret, HQ; try done. intros _. split; [done|]. split; [done|]. split; [done|]. auto.
Qed.

(** What the command does with the card before its gates: the preflight and the
    two probes with the factory key. *)
Definition wipe_probes : M (Cli T) (CliError TE) bool :=
  _ ← lift_err Cli_Ntag (on_dev (preflight_with_chip_check assume));
  rnd_a ← gen_rnd_a rng;
  _ ← attempt (on_dev (authenticate_aes session_default Key0 FACTORY_KEY rnd_a));
  wipe_factory_check rng.

(** What must have held for a wipe started in state [s] to touch the card.  The
    message that passed pre-verification is the one the card gave in this run,
    to the read that follows the probes. *)
Definition wipe_allowed (source : WipeKeySource) (version : Z) (opts : WipeOptions) (s : Cli T) : Prop :=
  let c := dcard s in
  let uid := uid_to_fixed (c_uid c) in
  let keys := (wipe_keyset source version uid).1 in
  wo_dry_run opts = false ∧
  (wo_confirm_uid opts = None ∨ wo_confirm_uid opts = Some uid) ∧
  (is_raw source = true → wo_confirm_uid opts = Some uid ∧ c_keys c = CardKeySet_keys keys) ∧
  k0 (c_keys c) = ks_k0 keys ∧
  (wo_skip_preverify opts = false → ∃ s1, wipe_probes s = (Ok false, s1) ∧
     (pre_verify_pc keys uid s1).1 = Ok tt).

Definition WIPE_SUCCESS : list Z := lit "wipe: SUCCESS — all keys reset to factory zeros".

Record wipe_post (source : WipeKeySource) (version : Z) (opts : WipeOptions) (s : Cli T)
    (r : result unit (CliError TE)) (s' : Cli T) : Prop := {
  wpost_breaker : breaker_ok r s';
  wpost_fuel : r ≠ Err Cli_OutOfFuel;
  wpost_draws : (cli_draws s' ≤ cli_draws s + 58)%nat;
  wpost_failures : cli_failures s' ≤ cli_failures s + 1;
  wpost_gates : dcard s' = dcard s ∨ wipe_allowed source version opts s;
  wpost_master : master_kept (dcard s) (dcard s') ∨ factory_reset (dcard s) (dcard s');
  wpost_ok : r = Ok tt →
    (dcard s' = dcard s ∧ (wo_dry_run opts = true ∨ k0 (c_keys (dcard s)) = FACTORY_KEY)) ∨
    (factory_reset (dcard s) (dcard s') ∧ ∃ p, last (cli_audit s') = Some (WIPE_SUCCESS, p));
}.

Lemma wipe_post_early source version opts n k s r s' :
  spent n k s s' → (n ≤ 58)%nat → k ≤ 1 → breaker_ok r s' → r ≠ Err Cli_OutOfFuel →
  (r = Ok tt → wo_dry_run opts = true ∨ k0 (c_keys (dcard s)) = FACTORY_KEY) →
  wipe_post source version opts s r s'.
Proof.
  intros (Hc & Hd & Hf) Hn Hk Hb Hr Hdry. constructor; try done; try lia.
  - by left.
  - left. by rewrite Hc.
  - intros Hok. auto.
Qed.

(** The wipe itself, inside the process. *)
Lemma wp_wipe_dev keys rnd (Q : result (result (list Z) (Error TE)) (CliError TE) → Cli T → Prop) s :
  (∀ r s', cli_draws s' = cli_draws s → cli_failures s' = cli_failures s →
     (master_kept (dcard s) (dcard s') ∨ factory_reset (dcard s) (dcard s')) →
     (is_ok r = true → factory_reset (dcard s) (dcard s')) → Q (Ok r) s') →
  wp (attempt (on_dev (wipe keys rnd))) Q s.
Proof.
  intros H. apply wp_attempt, wp_on_dev. eapply wp_mono; [apply wipe_outcome|].
  intros r t [Hor Hok]. apply H; try done.
  intros Hr. destruct r as [u|e]; [|done]. by destruct (Hok _ eq_refl) as (_ & _ & ?).
Qed.

Lemma wipe_post_final source version opts s s1 r s2 s3 n k :
  spent n k s s1 → (n ≤ 58)%nat → k ≤ 1 → breaker_low s1 →
  cli_draws s2 = cli_draws s1 → cli_failures s2 = cli_failures s1 →
  spent 0 0 s2 s3 → cli_failures s3 = cli_failures s2 →
  wipe_allowed source version opts s →
  (master_kept (dcard s1) (dcard s2) ∨ factory_reset (dcard s1) (dcard s2)) →
  (r = Ok tt → factory_reset (dcard s1) (dcard s2) ∧
     ∃ p, last (cli_audit s3) = Some (WIPE_SUCCESS, p)) →
  r ≠ Err Cli_OutOfFuel → wipe_post source version opts s r s3.
Proof.
  intros (Hc1 & Hd1 & Hf1) Hn Hk Hb Hd2 Hf2 (Hc3 & Hd3 & _) Hf3 Hg Hor Hok Hr.
  rewrite Hc1 in *. constructor; rewrite ?Hc3; auto; try lia.
  eapply breaker_keep; [exact Hb|congruence].
Qed.

(** The wipe itself and its audit event, once every gate has passed. *)
Lemma wp_wipe_tail source version opts keys prov rnd s s1 :
  spent 58 1 s s1 → breaker_low s1 → wipe_allowed source version opts s →
  wp (r ← attempt (on_dev (wipe keys rnd));
      match r with
      | Err e => _ ← log_event (lit "wipe: FAILED") (Some prov); fail (Cli_Ntag e)
      | Ok _ => log_event (lit "wipe: SUCCESS — all keys reset to factory zeros") (Some prov)
      end) (wipe_post source version opts s) s1.
Proof.
  intros Hs Hb Hg. apply wp_bind, wp_wipe_dev. intros r s2 Hd2 Hf2 Hor Hok. destruct r as [u|e].
  - apply wp_log_event. intros s3 Hs3 Hf3 Haud.
    eapply wipe_post_final with (s1 := s1) (s2 := s2); eauto; try lia; try congruence.
    intros _. split; [by apply Hok|]. exists (Some prov). by rewrite Haud, last_snoc.
  - apply wp_bind, wp_log_event. intros s3 Hs3 Hf3 _. apply wp_fail.
    eapply wipe_post_final with (s1 := s1) (s2 := s2); eauto; try lia; congruence.
Qed.

Lemma cmd_wipe_spec source version opts s :
  breaker_low s →
  wp (cmd_wipe rng assume source version opts) (wipe_post source version opts s) s.
Proof.
  intros Hb. unfold cmd_wipe. assert (spent 0 0 s s) as Hs0 by (apply spent_refl; lia).
  destruct (is_raw source && _) eqn:Eraw; [apply wp_fail; early wipe_post_early Hs0|].
  apply wp_bind, wp_remember, wp_preflight. intros r1 s1 Hs1 Hf1 Hx1 Ho1 Hu1 E1.
  destruct r1 as [uid|e]; [|early wipe_post_early Hs1]. rewrite (Hu1 _ eq_refl). clear Hu1.
  apply wp_bind, wp_confirm; [|early wipe_post_early Hs1].
  intros Hconf. destruct (wipe_keyset _ _ _) as [keys prov] eqn:Ekeys.
  destruct (wo_dry_run opts) eqn:Edry; [apply wp_ret; early wipe_post_early Hs1|].
  apply wp_bind, wp_remember, wp_gen_rnd_a. intros r2 s2 Hs2 Hf2 Hx2 Ho2 E2.
  assert (spent 1 0 s s2) as Hs22 by spend Hs1 Hs2.
  destruct r2 as [rnd|e]; [|early wipe_post_early Hs22].
  apply wp_bind, wp_remember, wp_try_auth. intros r3 s3 Hc3 Hd3 Hf3 _ _ E3.
  assert (spent 1 0 s s3) as Hs33 by (unfold spent in *; by rewrite Hc3, Hd3, Hf3).
  destruct (is_ok r3); [apply wp_fail; early wipe_post_early Hs33|].
  apply wp_bind, wp_remember, wp_factory_check. intros r4 s4 Hs4 Hf4 Hx4 Ho4 Hk4 E4.
  assert (spent 2 0 s s4) as Hs44 by spend Hs33 Hs4.
  assert (breaker_low s4) as Hb4 by (unfold breaker_low in *; by rewrite Hf4, Hf3, Hf2, Hf1).
  assert (dcard s3 = dcard s ∧ dcard s4 = dcard s) as [Hcs3 Hcs4] by (split; [apply Hs33|apply Hs44]).
  destruct r4 as [[]|e]; [|clear Hk4|early wipe_post_early Hs44].
  { apply wp_ret. eapply wipe_post_early; [exact Hs44|lia|lia|by eapply breaker_keep|congruence|].
    intros _. right. rewrite <-Hcs3. auto. }
  apply wp_bind, wp_wipe_gates; [done|]. intros r5 s5 Hs5 Hb5 Ho5 Hok5.
  assert (spent 57 1 s s5) as Hs55 by spend Hs44 Hs5.
  destruct r5 as [[]|e]; [|early wipe_post_early Hs55].
  destruct (Hok5 eq_refl) as (Hb5' & Hk0 & Hall & Hpre). rewrite Hcs4 in Hk0, Hall.
  apply wp_bind, wp_gen_rnd_a. intros r6 s6 Hs6 Hf6 Hx6 Ho6.
  assert (spent 58 1 s s6) as Hs66 by spend Hs55 Hs6.
  destruct r6 as [rnd2|e]; [|early wipe_post_early Hs66].
  apply wp_bind, wp_log_event. intros s7 Hs7 Hf7 _.
  apply wp_wipe_tail; [spend Hs66 Hs7|unfold breaker_low in *; by rewrite Hf7, Hf6|].
  unfold wipe_allowed. rewrite Ekeys. cbn [fst].
  split; [done|]. split; [done|]. split_and!; [|done|].
  - intros E. split; [|auto]. destruct Hconf as [Hc|Hc]; [|done].
    rewrite E in Eraw. by apply bool_decide_eq_false in Eraw.
  - intros Hskip. exists s4. split; [|auto]. unfold wipe_probes, mbind, M_bind. by rewrite E1, E2, E3, E4.
Qed.
End wipe_command.

(** ** The commands *)

Section command_claims.
  Context {T TE : Type} {D : NtagDevice T TE} {L : NtagLaws D} `{C : AesCrypto}.
  Context (rng : nat → option (list Z)) (assume : bool).

(** C17. No wipe without its gates: if a run of the wipe command changes
    anything on the card, then it was not a dry run, a given confirmation UID
    is the card's, the master key in use is the card's own, and with a raw key
    set the UID was confirmed and all five keys are the card's. Unless
    pre-verification was explicitly skipped, the probes with the factory key
    found no wiped card, and the message the card then answered to the read of
    this very run passed pre-verification under the keys of the command and
    the card's UID. *)
Theorem cmd_wipe_gated (source : WipeKeySource) (version : Z) (opts : WipeOptions) (s s' : Cli T) r :
  breaker_low s → cmd_wipe rng assume source version opts s = (r, s') →
  dcard s' = dcard s ∨ wipe_allowed rng assume source version opts s.
Proof.
  intros Hb H. apply (wp_run _ _ _ _ _ (cmd_wipe_spec rng assume source version opts s Hb) H).
Qed.

(** C18. A wipe command that exits successfully, and was not a dry run, has
    either restored the delivery state and logged its success as the last
    audit event, or found a card that already carries the factory master key
    and left it alone; and on every outcome the master key changes last. *)
Theorem cmd_wipe_success (source : WipeKeySource) (version : Z) (opts : WipeOptions) (s s' : Cli T) r :
  breaker_low s → wo_dry_run opts = false →
  cmd_wipe rng assume source version opts s = (r, s') →
  (master_kept (dcard s) (dcard s') ∨ factory_reset (dcard s) (dcard s')) ∧
  (r = Ok tt →
    (dcard s' = dcard s ∧ k0 (c_keys (dcard s)) = FACTORY_KEY) ∨
    (factory_reset (dcard s) (dcard s') ∧ ∃ p, last (cli_audit s') = Some (WIPE_SUCCESS, p))).
Proof.
  intros Hb Hdry H.
  destruct (wp_run _ _ _ _ _ (cmd_wipe_spec rng assume source version opts s Hb) H)
    as [_ _ _ _ _ Hm Hok].
  split; [done|]. intros E. destruct (Hok E) as [[? [?|?]]|?]; [congruence|auto|auto].
Qed.

Context (sdm_url_config : list Z → CryptoMode → SdmUrlOptions → result SdmUrlConfig SdmUrlError).

(** C19. No burn without its gates: if a run of the burn command changes
    anything on the card, then it was not a dry run, a given confirmation UID
    is the card's, the URL carries both SDM placeholders unless the operator
    forced it, and the card's master key was the factory key or the one being
    installed. *)
Theorem burn_card_gated (keys : CardKeys) (url : list Z) (opts : BurnOptions) (prov : KeyProvenance)
    (s s' : Cli T) r :
  breaker_low s → burn_card sdm_url_config rng assume keys url opts prov s = (r, s') →
  dcard s' = dcard s ∨ burn_gates keys url opts (dcard s).
Proof.
  intros Hb H.
  apply (wp_run _ _ _ _ _ (burn_card_spec sdm_url_config rng assume keys url opts prov s Hb) H).
Qed.

(** A burn command that exits successfully has provisioned the card with
    exactly the key set, URL plan and version it was given, or was a dry run
    and left the card alone; on every outcome either the master key is still
    the old one or the card is completely provisioned. *)
Theorem burn_card_success (keys : CardKeys) (url : list Z) (opts : BurnOptions) (prov : KeyProvenance)
    (s s' : Cli T) r :
  breaker_low s → burn_card sdm_url_config rng assume keys url opts prov s = (r, s') →
  (master_kept (dcard s) (dcard s') ∨
   burned_as sdm_url_config keys url (bo_version opts) (dcard s) (dcard s')) ∧
  (r = Ok tt → if bo_dry_run opts then dcard s' = dcard s
               else burned_as sdm_url_config keys url (bo_version opts) (dcard s) (dcard s')).
Proof.
  intros Hb H.
  by destruct (wp_run _ _ _ _ _ (burn_card_spec sdm_url_config rng assume keys url opts prov s Hb) H).
Qed.

(** Authentication is rationed: the retry ladder always ends; a burn
    command makes at most 34 random draws, hence at most 33 probe
    authentications of its own, and records at most two failures, a wipe
    command at most 58 draws and one recorded failure; and whenever either
    command returns to its caller the failure count is below the
    circuit-breaker threshold. *)
Theorem auth_attempts_rationed (keys : CardKeys) (url : list Z) (bopts : BurnOptions)
    (prov : KeyProvenance) (source : WipeKeySource) (version : Z) (wopts : WipeOptions) (s : Cli T) :
  breaker_low s →
  (let '(r, s') := burn_card sdm_url_config rng assume keys url bopts prov s in
   r ≠ Err Cli_OutOfFuel ∧ (cli_draws s' ≤ cli_draws s + 34)%nat ∧
   cli_failures s' ≤ cli_failures s + 2 ∧ breaker_ok r s') ∧
  (let '(r, s') := cmd_wipe rng assume source version wopts s in
   r ≠ Err Cli_OutOfFuel ∧ (cli_draws s' ≤ cli_draws s + 58)%nat ∧
   cli_failures s' ≤ cli_failures s + 1 ∧ breaker_ok r s').
Proof.
  intros Hb.
  pose proof (burn_card_spec sdm_url_config rng assume keys url bopts prov s Hb) as [].
  pose proof (cmd_wipe_spec rng assume source version wopts s Hb) as [].
  destruct (burn_card _ _ _ _ _ _ _ s), (cmd_wipe _ _ _ _ _ s). simpl in *. auto 10.
Qed.
End command_claims.

(** ** Instances *)

Definition sim_cli (w : Sim) : Cli Sim := mkCli w 0 0 [].
Definition sim_rng (n : nat) : option (list Z) := Some (replicate 16 (Z.of_nat n)).

Definition sample_burn_opts : BurnOptions :=
  mkBurnOptions 1 false false (Some [4; 0x10; 0x65; 0xFA; 0x96; 0x73; 0x80]) false.
Definition sample_wipe_opts : WipeOptions :=
  mkWipeOptions false false false (Some [4; 0x10; 0x65; 0xFA; 0x96; 0x73; 0x80]).

Definition sample_url : list Z := lit "card.example/?p={picc:uid+ctr}&c={mac}".

Definition burned_cli : Cli Sim :=
  (burn_card sample_planner sim_rng false sample_keys sample_url sample_burn_opts ProxyIssued
    (sim_cli sim_factory)).2.

(** The whole cycle runs: burn, then wipe with the raw key set. *)
Example burn_then_wipe_commands :
  (burn_card sample_planner sim_rng false sample_keys sample_url sample_burn_opts ProxyIssued
     (sim_cli sim_factory)).1 = Ok tt ∧
  (cmd_wipe (C := toy_crypto) sim_rng false (Wipe_Raw sample_keys) 1 sample_wipe_opts burned_cli).1 = Ok tt.
Proof. split; vm_compute; reflexivity. Qed.

Lemma sim_cli_low w : breaker_low (sim_cli w).
Proof. unfold breaker_low. simpl. done. Qed.

Lemma burned_cli_low : breaker_low burned_cli.
Proof. apply (bool_decide_unpack _). vm_compute. exact I. Qed.

Lemma burn_card_gated_witness :
  dcard burned_cli = dcard (sim_cli sim_factory) ∨
  burn_gates sample_keys sample_url sample_burn_opts (dcard (sim_cli sim_factory)).
Proof.
  eapply (burn_card_gated sim_rng false sample_planner).
  - apply sim_cli_low.
  - apply surjective_pairing.
Defined.

Lemma burn_card_success_witness :
  burned_as sample_planner sample_keys sample_url 1 (dcard (sim_cli sim_factory)) (dcard burned_cli).
Proof.
  eapply (burn_card_success sim_rng false sample_planner sample_keys sample_url sample_burn_opts
    ProxyIssued (sim_cli sim_factory) burned_cli).
  - apply sim_cli_low.
  - apply surjective_pairing.
  - vm_compute. reflexivity.
Defined.

Lemma cmd_wipe_gated_witness :
  let s' := (cmd_wipe (C := toy_crypto) sim_rng false (Wipe_Raw sample_keys) 1 sample_wipe_opts burned_cli).2 in
  (dcard s' = dcard burned_cli ∨
   wipe_allowed (C := toy_crypto) sim_rng false (Wipe_Raw sample_keys) 1 sample_wipe_opts burned_cli) ∧
  c_keys (dcard s') ≠ c_keys (dcard burned_cli).
Proof.
  split; [|vm_compute; discriminate].
  eapply (cmd_wipe_gated sim_rng false).
  - apply burned_cli_low.
  - apply surjective_pairing.
Defined.

Lemma cmd_wipe_success_witness :
  let '(r, s') := cmd_wipe (C := toy_crypto) sim_rng false (Wipe_Raw sample_keys) 1 sample_wipe_opts burned_cli in
  (master_kept (dcard burned_cli) (dcard s') ∨ factory_reset (dcard burned_cli) (dcard s')) ∧
  (r = Ok tt →
    (dcard s' = dcard burned_cli ∧ k0 (c_keys (dcard burned_cli)) = FACTORY_KEY) ∨
    (factory_reset (dcard burned_cli) (dcard s') ∧ ∃ p, last (cli_audit s') = Some (WIPE_SUCCESS, p))).
Proof.
  destruct (cmd_wipe _ _ _ _ _ burned_cli) as [r s'] eqn:E.
  apply (cmd_wipe_success (C := toy_crypto) sim_rng false (Wipe_Raw sample_keys) 1 sample_wipe_opts burned_cli s' r).
  - apply burned_cli_low.
  - reflexivity.
  - exact E.
Defined.

Lemma auth_attempts_rationed_witness :
  let s := sim_cli sim_factory in
  (let '(r, s') := burn_card sample_planner sim_rng false sample_keys sample_url sample_burn_opts ProxyIssued s in
   r ≠ Err Cli_OutOfFuel ∧ (cli_draws s' ≤ cli_draws s + 34)%nat ∧
   cli_failures s' ≤ cli_failures s + 2 ∧ breaker_ok r s') ∧
  (let '(r, s') := cmd_wipe (C := toy_crypto) sim_rng false (Wipe_Raw sample_keys) 1 sample_wipe_opts s in
   r ≠ Err Cli_OutOfFuel ∧ (cli_draws s' ≤ cli_draws s + 58)%nat ∧
   cli_failures s' ≤ cli_failures s + 1 ∧ breaker_ok r s').
Proof.
  apply (auth_attempts_rationed sim_rng false sample_planner). apply sim_cli_low.
Defined.
