(* ===== verification/CliTools.v ===== *)
(** * Command-line diagnostics

    The other commands of [apps/bolty-cli]: [diagnose], [scan-keys],
    [try-key], [keyver], [testck], [f5-probe], [picc], [inspect] and the
    proxy provisioning parser.  A command's printed verdict is its result
    here; the rest of its output is not modelled.  Every command but [testck]
    must leave the card alone, and a reported key must be the card's. *)

From S2P Require Import Prelude Str Hex Derivation Assessment Picc Ndef NtagTypes Session Ntag NtagProofs Cli CliProofs.

(** ** diagnose.rs *)

Definition DIAGNOSE_VERSION : Z := 1.

Definition classify_card_state (auth_delay has_sdm has_ndef_content factory_auth_ok : bool) : list Z :=
  if auth_delay then lit "AUTH_DELAY"
  else if negb has_sdm && negb has_ndef_content then
    if factory_auth_ok then lit "BLANK" else lit "INCONSISTENT"
  else if has_sdm && has_ndef_content then lit "PROVISIONED"
  else lit "HALF-WIPED".

Definition classify_key_provenance (factory_auth_ok picc_ok static_test_auth_ok : bool) : KeyProvenance :=
  if factory_auth_ok then FactoryDefault
  else if picc_ok then DerivedIssuer DIAGNOSE_VERSION
  else if static_test_auth_ok then StaticTestKey
  else UnknownExternal.

Definition show_bool (b : bool) : list Z := if b then lit "true" else lit "false".

Definition QUOTE : list Z := [34].
Definition json_str (k v : list Z) : list Z := QUOTE ++ k ++ QUOTE ++ lit ":" ++ QUOTE ++ v ++ QUOTE.

Definition build_diagnose_json (uid_hex state : list Z) (has_sdm mac_valid : bool)
    (provenance : KeyProvenance) : list Z :=
  let prov_name := as_json_name provenance in
  let prov_version_field :=
    match json_version provenance with
    | Some v => lit "," ++ QUOTE ++ lit "key_provenance_version" ++ QUOTE ++ lit ":" ++ show_u8 v
    | None => []
    end in
  lit "{" ++ QUOTE ++ lit "ok" ++ QUOTE ++ lit ":true," ++ json_str (lit "uid") uid_hex ++ lit "," ++
  json_str (lit "state") state ++ lit "," ++ QUOTE ++ lit "sdm_active" ++ QUOTE ++ lit ":" ++
  show_bool has_sdm ++ lit "," ++ QUOTE ++ lit "mac_valid" ++ QUOTE ++ lit ":" ++ show_bool mac_valid ++
  lit "," ++ json_str (lit "key_provenance") prov_name ++ prov_version_field ++ lit "}".

Record Diagnosis := mkDiagnosis {
  dg_uid : list Z;
  dg_state : list Z;
  dg_has_sdm : bool;
  dg_picc_ok : bool;
  dg_provenance : KeyProvenance;
}.

(** What the three unauthenticated reads of [cmd_diagnose] saw. *)
Record Signals := mkSignals {
  sg_sdm : option Sdm;
  sg_has_sdm : bool;
  sg_ndef : list Z;
  sg_parsed : option NdefUri;
}.

(** ** scan_keys.rs *)

Inductive AuthResult := Auth_Success | Auth_WrongKey | Auth_Delay | Auth_Error.

(** Verdict of [try-key]. *)
Inductive KeyTrial := Trial_Accepted | Trial_Rejected | Trial_DelayPersists.

Definition clampZ (lo hi x : Z) : Z := Z.max lo (Z.min hi x).

Definition TEST_KEY : list Z :=
  [0xAA; 0xBB; 0xCC; 0xDD; 0x11; 0x22; 0x33; 0x44; 0x55; 0x66; 0x77; 0x88; 0x99; 0x00; 0xEE; 0xFF].

Definition STATIC_TEST_KEY : list Z := replicate 16 0x11.

Definition key_number_of (key_no : Z) : option KeyNumber :=
  if decide (key_no = 0) then Some Key0
  else if decide (key_no = 1) then Some Key1
  else if decide (key_no = 2) then Some Key2
  else if decide (key_no = 3) then Some Key3
  else if decide (key_no = 4) then Some Key4
  else None.

Section tools.
  Context {T TE : Type} {D : NtagDevice T TE} `{C : AesCrypto}.
  Context {V : Type} (verify_sdm : Sdm → list Z → AesKey → AesKey → option V).
  Context (rng : nat → option (list Z)).

  Local Notation P := (M (Cli T) (CliError TE)).

Definition read_signals : P Signals := λ s,
  let '(fs, session, t) := get_file_settings_u session_default (cli_dev s) in
  let sdm := match fs with Ok settings => fs_sdm settings | Err _ => None end in
  let has_sdm := match fs with
                 | Ok settings => is_sdm_functionally_active (fs_sdm settings)
                 | Err _ => false
                 end in
  let '(r, buf, _, t) := read_file_unauthenticated session 0 (replicate 256 0) t in
  let '(data, parsed) := match r with
    | Ok len => let data := take (Nat.min len (length buf)) buf in (data, parse_ndef_uri data)
    | Err _ => ([], None)
    end in
  (Ok (mkSignals sdm has_sdm data parsed),
   mkCli t (cli_draws s) (cli_failures s) (cli_audit s)).

(** The offline verification of the mirrored SUN message. *)
Definition diagnose_picc_ok (issuer_key uid_fixed : list Z) (sg : Signals) : bool :=
  if sg_has_sdm sg then
    match sg_parsed sg with
    | Some parsed =>
        match nu_picc_hex parsed, nu_mac_hex parsed with
        | Some p_hex, Some _ =>
            let keys := derive_keys issuer_key uid_fixed DIAGNOSE_VERSION in
            match picc_decrypt_p (ks_k1 keys) p_hex with
            | Some picc =>
                let uid_match := bool_decide (pd_uid picc = Some uid_fixed) in
                let mac_ok := match sg_sdm sg with
                  | Some sdm => bool_decide (is_Some (verify_sdm sdm (sg_ndef sg) (ks_k2 keys) (ks_k1 keys)))
                  | None => false
                  end in
                uid_match && mac_ok
            | None => false
            end
        | _, _ => false
        end
    | None => false
    end
  else false.

(** One bounded probe: the answer, and whether the card was delaying. *)
Definition probe_once (key : AesKey) : P (bool * bool) :=
  rnd_a ← gen_rnd_a rng;
  r ← attempt (on_dev (authenticate_aes session_default Key0 key rnd_a));
  match r with
  | Ok _ => mret (true, false)
  | Err e => mret (false, is_session_auth_delay e)
  end.

Definition cmd_diagnose (issuer_key : list Z) : P Diagnosis :=
  uid ← lift_err (Cli_Session (lit "failed to read UID")) (on_dev (get_selected_uid session_default));
  let uid_fixed := uid_to_fixed uid in
  _ ← attempt (on_dev (get_version session_default));
  sg ← read_signals;
  let has_sdm := sg_has_sdm sg in
  let has_ndef_content := bool_decide (is_Some (sg_parsed sg)) in
  let picc_ok := diagnose_picc_ok issuer_key uid_fixed sg in
  let looks_blank := negb has_sdm && negb has_ndef_content in
  fa ← (if looks_blank then probe_once FACTORY_KEY else mret (false, false));
  let '(factory_auth_ok, auth_delay) := fa in
  st ← (if negb factory_auth_ok && negb picc_ok && negb auth_delay
        then probe_once STATIC_TEST_KEY else mret (false, false));
  let provenance := classify_key_provenance factory_auth_ok picc_ok st.1 in
  let state := classify_card_state auth_delay has_sdm has_ndef_content factory_auth_ok in
  mret (mkDiagnosis uid_fixed state has_sdm picc_ok provenance).

(** [try_auth]: the 91AD keep-trying ladder for one candidate. *)
Fixpoint try_auth (attempts : nat) (key : AesKey) : P AuthResult :=
  match attempts with
  | O => mret Auth_Delay
  | S attempts =>
      rnd_a ← attempt (gen_rnd_a rng : P (list Z));
      match rnd_a with
      | Err _ => mret Auth_Error
      | Ok rnd_a =>
          r ← attempt (on_dev (authenticate_aes session_default Key0 key rnd_a));
          match r with
          | Ok _ => mret Auth_Success
          | Err (SE_ErrorResponse AuthenticationError) => mret Auth_WrongKey
          | Err (SE_ErrorResponse AuthenticationDelay) => try_auth attempts key
          | Err _ => mret Auth_Error
          end
      end
  end.

Fixpoint scan_candidates (attempts : nat) (candidates : list (list Z * AesKey)) :
    P (option (list Z * AesKey)) :=
  match candidates with
  | [] =>
      _ ← log_event (lit "scan-keys: no candidate matched") None;
      mret None
  | (label, key) :: candidates =>
      _ ← log_event (lit "scan-keys: trying " ++ label) None;
      r ← try_auth attempts key;
      match r with
      | Auth_Success =>
          _ ← log_event (lit "scan-keys: ACCEPTED " ++ label ++ lit " = " ++ encode_hex key) None;
          mret (Some (label, key))
      | Auth_WrongKey =>
          _ ← record_auth_failure;
          _ ← log_event (lit "scan-keys: REJECTED " ++ label) None;
          scan_candidates attempts candidates
      | Auth_Delay =>
          _ ← log_event (lit "scan-keys: AUTH DELAY detected, aborting") None;
          fail (Cli_Bail (lit "auth delay triggered during scan"))
      | Auth_Error =>
          _ ← log_event (lit "scan-keys: ERROR on " ++ label) None;
          scan_candidates attempts candidates
      end
  end.

Definition scan_list (issuer_key card_uid : list Z) : list (list Z * AesKey) :=
  let v n := derive_keys issuer_key card_uid n in
  [(lit "factory K0 (zeros)", replicate 16 0);
   (lit "derived K0 v0", ks_k0 (v 0));
   (lit "derived K0 v1", ks_k0 (v 1));
   (lit "derived K0 v2", ks_k0 (v 2));
   (lit "derived K0 v3", ks_k0 (v 3));
   (lit "static test key (0x11..11)", STATIC_TEST_KEY);
   (lit "card key v1", ks_card_key (v 1))].

Definition cmd_scan_keys (issuer_key : list Z) (attempts : Z) : P (option (list Z * AesKey)) :=
  let attempts := clampZ 1 1000 attempts in
  uid ← lift_err (Cli_Session (lit "failed to read UID")) (on_dev (get_selected_uid session_default));
  scan_candidates (Z.to_nat attempts) (scan_list issuer_key (uid_to_fixed uid)).

Definition UNKNOWN_PROV : option KeyProvenance := Some UnknownExternal.

Fixpoint try_key_loop (attempts : nat) (target : KeyNumber) (key : AesKey) : P KeyTrial :=
  match attempts with
  | O =>
      _ ← log_event (lit "try-key: auth delay persists") UNKNOWN_PROV;
      mret Trial_DelayPersists
  | S attempts =>
      rnd_a ← gen_rnd_a rng;
      r ← attempt (on_dev (authenticate_aes session_default target key rnd_a));
      match r with
      | Ok _ => _ ← log_event (lit "try-key: ACCEPTED") UNKNOWN_PROV; mret Trial_Accepted
      | Err (SE_ErrorResponse AuthenticationError) =>
          _ ← log_event (lit "try-key: REJECTED") UNKNOWN_PROV; mret Trial_Rejected
      | Err (SE_ErrorResponse AuthenticationDelay) => try_key_loop attempts target key
      | Err e => fail (Cli_Session (lit "unexpected error") e)
      end
  end.

Definition cmd_try_key (key : AesKey) (key_no attempts : Z) : P KeyTrial :=
  _ ← attempt (on_dev (get_selected_uid session_default));
  match key_number_of key_no with
  | None => fail (Cli_Bail (lit "invalid key number (must be 0-4)"))
  | Some target_key =>
      _ ← log_event (lit "try-key: K" ++ show_u8 key_no ++ lit " = " ++ encode_hex key) UNKNOWN_PROV;
      try_key_loop (Z.to_nat (clampZ 1 1000 attempts)) target_key key
  end.

(** [keyver] once the UID is known: the versions and the key that opened them. *)
Definition keyver_query (issuer_key uid_fixed : list Z) (version : Z) : P (list Z * AesKey) :=
  let derived_k0 := ks_k0 (derive_keys issuer_key uid_fixed version) in
  rnd_a ← gen_rnd_a rng;
  r ← attempt (on_dev (check_key_versions derived_k0 rnd_a));
  match r with
  | Ok v => mret (v, derived_k0)
  | Err _ =>
      rnd_a ← gen_rnd_a rng;
      v ← lift_err Cli_Ntag (on_dev (check_key_versions FACTORY_KEY rnd_a));
      mret (v, FACTORY_KEY)
  end.

(** [testck]: a ChangeKey round trip on key 1 of a blank card. *)
Definition cmd_testck : P unit :=
  let ctx what := Cli_Session what in
  _ ← lift_err (ctx (lit "failed to read UID")) (on_dev (get_selected_uid session_default));
  _ ← log_event (lit "testck: starting") (Some StaticTestKey);
  rnd_a ← gen_rnd_a rng;
  session ← lift_err (ctx (lit "factory K0 auth failed"))
    (on_dev (authenticate_aes session_default Key0 (replicate 16 0) rnd_a));
  kv ← lift_err (ctx []) (on_dev (get_key_version session Key1));
  if decide (kv.1 ≠ 0) then fail (Cli_Bail (lit "[testck] Key 1 not at factory (0x00)")) else
  session ← lift_err (ctx (lit "ChangeKey step 1 failed"))
    (on_dev (change_key kv.2 NmKey1 TEST_KEY 1 (replicate 16 0)));
  kv ← lift_err (ctx []) (on_dev (get_key_version session Key1));
  if decide (kv.1 ≠ 1) then fail (Cli_Bail (lit "[testck] Step 1 FAIL")) else
  session ← lift_err (ctx (lit "ChangeKey step 2 failed"))
    (on_dev (change_key kv.2 NmKey1 (replicate 16 0) 0 TEST_KEY));
  kv ← lift_err (ctx []) (on_dev (get_key_version session Key1));
  if decide (kv.1 ≠ 0) then fail (Cli_Bail (lit "[testck] Step 2 FAIL")) else
  log_event (lit "testck: ALL PASS") (Some StaticTestKey).

(** [f5-probe]: exit code 1 unless every counter is complete. *)
Definition cmd_f5probe (force : bool) : P unit :=
  rnd_a ← gen_rnd_a rng;
  r ← lift_err Cli_Ntag (on_dev (f5probe rnd_a force));
  if write_skipped r then
    if bool_decide (read_f5 r = 3 ∧ read_ad r = 3) then mret tt else fail (Cli_Exit 1)
  else if bool_decide (read_f5 r = 3 ∧ read_ad r = 3 ∧ write_f5 r = 2 ∧ write_8d r = 1) then mret tt
  else fail (Cli_Exit 1).

(** [picc]: [None] when [p=] does not decrypt, otherwise the data, whether the
    UID matches and whether the CMAC is valid. *)
Definition picc_verdict (issuer_key uid_fixed data : list Z) :
    result (option (Picc.PiccData * bool * bool)) (list Z) :=
  let keys := derive_keys issuer_key uid_fixed DIAGNOSE_VERSION in
  match parse_ndef_uri data with
  | None => Err (lit "NDEF content is not a valid URI record")
  | Some parsed =>
      match nu_picc_hex parsed, nu_mac_hex parsed with
      | Some p_hex, Some c_hex =>
          Ok (picc ← picc_decrypt_p (ks_k1 keys) p_hex;
              let uid_match := match pd_uid picc with
                | Some uid => bool_decide (uid = uid_fixed)
                | None => true
                end in
              Some (picc, uid_match, picc_verify_c (ks_k2 keys) picc c_hex))
      | _, _ => Err (lit "No p= and c= parameters found in NDEF URL")
      end
  end.

Definition picc_read (issuer_key uid_fixed : list Z) : P (option (Picc.PiccData * bool * bool)) := λ s,
  let '(r, buf, _, t) := read_file_unauthenticated session_default 0 (replicate 256 0) (cli_dev s) in
  (match r with
   | Err e => Err (Cli_Session (lit "failed to read NDEF content") e)
   | Ok len => map_err Cli_Bail
       (picc_verdict issuer_key uid_fixed (take (Nat.min len (length buf)) buf))
   end, mkCli t (cli_draws s) (cli_failures s) (cli_audit s)).

Definition cmd_picc (issuer_key : list Z) : P (option (Picc.PiccData * bool * bool)) :=
  uid ← lift_err (Cli_Session (lit "failed to read UID")) (on_dev (get_selected_uid session_default));
  picc_read issuer_key (uid_to_fixed uid).
End tools.

(** ** provision.rs *)

(** The decoded [create_bolt_card_response] document. *)
Record ProvisionResponse := mkProvisionResponse {
  pr_protocol_name : list Z;
  pr_protocol_version : Z;
  pr_lnurlw_base : list Z;
  pr_k0 : list Z; pr_k1 : list Z; pr_k2 : list Z; pr_k3 : list Z; pr_k4 : list Z;
  pr_uid_privacy : list Z;
}.

Record ProvisionKeys := mkProvisionKeys {
  pk_keys : CardKeys;
  pk_url : list Z;
  pk_uid_privacy : bool;
}.

Inductive ProvisionError :=
| Prov_NotJson | Prov_ProtocolName | Prov_ProtocolVersion
| Prov_InvalidKey (n : nat) | Prov_SuspiciousBase.

Definition provision_key (n : nat) (hex : list Z) : result AesKey ProvisionError :=
  map_err (λ _, Prov_InvalidKey n) (AesKey_from_hex (trim hex)).

Definition provision_of (resp : ProvisionResponse) : result ProvisionKeys ProvisionError :=
  if decide (pr_protocol_name resp ≠ lit "create_bolt_card_response") then Err Prov_ProtocolName else
  if decide (pr_protocol_version resp ≠ 2) then Err Prov_ProtocolVersion else
  a ←? provision_key 0 (pr_k0 resp);
  b ←? provision_key 1 (pr_k1 resp);
  c ←? provision_key 2 (pr_k2 resp);
  d ←? provision_key 3 (pr_k3 resp);
  e ←? provision_key 4 (pr_k4 resp);
  let base := trim (pr_lnurlw_base resp) in
  if negb (starts_with (lit "lnurlw://") base || starts_with (lit "https://") base) ||
     contains (lit "{") base then Err Prov_SuspiciousBase else
  let priv := trim (pr_uid_privacy resp) in
  let uid_privacy := bool_decide (priv = lit "true" ∨ priv = lit "TRUE" ∨ priv = lit "True") in
  let picc_placeholder := if uid_privacy then lit "{picc:ctr}" else lit "{picc:uid+ctr}" in
  let url := base ++ lit "?p=" ++ picc_placeholder ++ lit "&c={mac}" in
  Ok (mkProvisionKeys (mkCardKeys a b c d e) url uid_privacy).

(** [serde_json] is a parameter: it yields the document or nothing. *)
Definition parse_provision_response (from_json : list Z → option ProvisionResponse) (body : list Z) :
    result ProvisionKeys ProvisionError :=
  match from_json body with
  | None => Err Prov_NotJson
  | Some resp => provision_of resp
  end.

(** The one-time code must be non-empty and alphanumeric before it goes into
    the request URL. *)
Definition is_ascii_alphanumeric (c : Z) : bool :=
  bool_decide (48 ≤ c ≤ 57 ∨ 65 ≤ c ≤ 90 ∨ 97 ≤ c ≤ 122).

Definition provision_request_url (proxy_base code : list Z) : option (list Z) :=
  let base := trim_end_matches 47 proxy_base in
  if bool_decide (code = []) || negb (forallb is_ascii_alphanumeric code) then None
  else Some (base ++ lit "/new?a=" ++ code).

(** [burn_provisioned]. *)
Definition burn_provisioned {T TE} {D : NtagDevice T TE}
    (sdm_url_config : list Z → CryptoMode → SdmUrlOptions → result SdmUrlConfig SdmUrlError)
    (rng : nat → option (list Z)) (assume : bool) (p : ProvisionKeys) (verbose : bool)
    (confirm_uid : option (list Z)) (force : bool) : M (Cli T) (CliError TE) unit :=
  burn_card sdm_url_config rng assume (pk_keys p) (pk_url p)
    (mkBurnOptions 1 verbose false confirm_uid force) ProxyIssued.

(** ** uid.rs *)

(** [u8::from_str_radix(_, 16)] on a two-byte string: an optional leading [+]
    is accepted. *)
Definition u8_from_hex_pair (pair : list Z) : option Z :=
  match pair with
  | [a; b] =>
      if decide (a = 43) then decode_hex_nibble b
      else h ← decode_hex_nibble a; l ← decode_hex_nibble b; Some (h * 16 + l)
  | _ => None
  end.

Fixpoint uid_hex_pairs (hex : list Z) (n : nat) : option (list Z) :=
  match n with
  | O => Some []
  | S n =>
      match hex with
      | a :: b :: hex => x ← u8_from_hex_pair [a; b]; r ← uid_hex_pairs hex n; Some (x :: r)
      | _ => Some (replicate (S n) 0)
      end
  end.

(** Pairs beyond the end of the string leave their slots zero. *)
Definition uid_hex_to_fixed (hex : list Z) : option (list Z) := uid_hex_pairs hex 7.

(** ** Properties *)

(** The command line and the core library classify a card alike: for every
    combination of signals the state [diagnose] prints is the name of the
    lifecycle state computed from the same signals. *)
Theorem classify_agrees (auth_delay has_sdm has_ndef factory : bool) :
  classify_card_state auth_delay has_sdm has_ndef factory =
  lifecycle_as_str (from_signals auth_delay has_sdm has_ndef factory).
Proof. by destruct auth_delay, has_sdm, has_ndef, factory. Qed.

Section tool_lemmas.
  Context {T TE : Type} {D : NtagDevice T TE} {L : NtagLaws D}.
  Context (rng : nat → option (list Z)).

Lemma wp_get_uid what (Q : result Uid (CliError TE) → Cli T → Prop) s :
  (∀ r s', spent 0 0 s s' → cli_failures s' = cli_failures s →
     (∀ u, r = Ok u → u = c_uid (dcard s)) → Q r s') →
  wp (lift_err (Cli_Session what) (on_dev (get_selected_uid session_default))) Q s.
Proof.
  intros H. apply wp_lift_err, wp_on_dev. eapply wp_mono; [apply law_uid|].
  intros r t [Hc Hu]. apply H.
  - unfold spent, dcard. simpl. split; [done|lia].
  - done.
  - destruct r; simpl; [|intros ? [=]]. intros u [= <-]. by apply Hu.
Qed.

Lemma wp_probe_once key (Q : result (bool * bool) (CliError TE) → Cli T → Prop) s :
  (∀ r s', spent 1 0 s s' → (∀ d, r = Ok (true, d) → k0 (c_keys (dcard s)) = key) → Q r s') →
  wp (probe_once rng key) Q s.
Proof.
  intros H. unfold probe_once. apply wp_bind, wp_gen_rnd_a. intros r1 s1 Hs1 _ _ _.
  destruct r1 as [rnd|e]; [|by apply H].
  apply wp_bind, wp_try_auth. intros r2 s2 Hc2 Hd2 Hf2 _ Hk2.
  assert (spent 1 0 s s2) as Hs2 by (unfold spent in *; by rewrite Hc2, Hd2, Hf2).
  destruct r2; apply wp_ret, H; try done. intros d _. destruct Hs1 as [Hc1 _]. rewrite <-Hc1.
  by apply Hk2.
Qed.

Lemma wp_read_signals (Q : result Signals (CliError TE) → Cli T → Prop) s :
  (∀ sg s', spent 0 0 s s' →
     (sg_has_sdm sg = true → is_sdm_functionally_active (card_sdm (dcard s)) = true) →
     Q (Ok sg) s') →
  wp read_signals Q s.
Proof.
  intros H. unfold wp, read_signals.
  pose proof (law_file_settings_u session_default (cli_dev s)) as H1.
  destruct (get_file_settings_u _ _) as [[r1 s1] t1]. destruct H1 as [Hc1 Hfs].
  pose proof (law_read_u s1 0 (replicate 256 0) t1) as H2.
  destruct (read_file_unauthenticated _ 0 _ t1) as [[[r2 buf] s2] t2]. destruct H2 as [Hc2 _].
  destruct r2; cbn [fst snd]; (apply H; [unfold spent, dcard; simpl; split; [congruence|lia]|]);
    simpl; (destruct r1; [|done]); intros Hs; by rewrite (Hfs _ eq_refl) in Hs.
Qed.
End tool_lemmas.

Section tool_claims.
  Context {T TE : Type} {D : NtagDevice T TE} {L : NtagLaws D} `{C : AesCrypto}.
  Context {V : Type} (verify_sdm : Sdm → list Z → AesKey → AesKey → option V).
  Context (rng : nat → option (list Z)).

(** A probe the command makes only under a condition. *)
Lemma wp_probe_if (c : bool) key n (Q : result (bool * bool) (CliError TE) → Cli T → Prop) s s1 :
  spent n 0 s s1 →
  (∀ r s', spent (S n) 0 s s' →
     (∀ d, r = Ok (true, d) → k0 (c_keys (dcard s)) = key) → Q r s') →
  wp (if c then probe_once rng key else mret (false, false)) Q s1.
Proof.
  intros Hs HQ. assert (dcard s1 = dcard s) as Hc by apply Hs. destruct c.
  - apply wp_probe_once. intros r s2 Hs2 Hk. rewrite Hc in Hk. apply HQ; [|done].
    eapply spent_weaken; [eapply spent_trans; [exact Hs|exact Hs2]|lia|lia].
  - apply wp_ret, HQ; [|done]. eapply spent_weaken; [exact Hs|lia|lia].
Qed.

(** Diagnosis is non-destructive and honest: it never changes the card and
    spends at most two authentications; it says BLANK or factory provenance
    only when the card really holds the factory master key, the static test
    provenance only when the card really holds that key, and SDM active only
    when the card has an active SDM configuration; the UID is the card's. *)
Theorem cmd_diagnose_honest (issuer_key : list Z) (s : Cli T) :
  let '(r, s') := cmd_diagnose verify_sdm rng issuer_key s in
  spent 2 0 s s' ∧
  ∀ d, r = Ok d →
    dg_uid d = uid_to_fixed (c_uid (dcard s)) ∧
    (dg_state d = lit "BLANK" ∨ dg_provenance d = FactoryDefault →
       k0 (c_keys (dcard s)) = FACTORY_KEY) ∧
    (dg_provenance d = StaticTestKey → k0 (c_keys (dcard s)) = STATIC_TEST_KEY) ∧
    (dg_has_sdm d = true → is_sdm_functionally_active (card_sdm (dcard s)) = true).
Proof.
  set (Post := λ (r : result Diagnosis (CliError TE)) s', spent 2 0 s s' ∧ ∀ d, r = Ok d →
    dg_uid d = uid_to_fixed (c_uid (dcard s)) ∧
    (dg_state d = lit "BLANK" ∨ dg_provenance d = FactoryDefault →
       k0 (c_keys (dcard s)) = FACTORY_KEY) ∧
    (dg_provenance d = StaticTestKey → k0 (c_keys (dcard s)) = STATIC_TEST_KEY) ∧
    (dg_has_sdm d = true → is_sdm_functionally_active (card_sdm (dcard s)) = true)).
  assert (wp (cmd_diagnose verify_sdm rng issuer_key) Post s) as H.
  { unfold cmd_diagnose, Post. apply wp_bind, wp_get_uid. intros r1 s1 Hs1 _ Hu1.
    destruct r1 as [uid|e]; [|split; [eapply spent_weaken; [exact Hs1|lia|lia]|done]].
    rewrite (Hu1 _ eq_refl).
    apply wp_bind, wp_attempt, wp_on_dev. eapply wp_mono; [apply law_version|].
    intros rv t2 [Hc2 _]. set (s2 := mkCli t2 _ _ _).
    assert (spent 0 0 s s2) as Hs2 by (unfold spent, dcard in *; simpl; by rewrite Hc2).
    apply wp_bind, wp_read_signals. intros sg s3 Hs3 Hsdm.
    assert (spent 0 0 s s3) as Hs33 by (eapply (spent_trans 0 0 0 0); [exact Hs2|exact Hs3]).
    assert (dcard s2 = dcard s) as Hcs2 by apply Hs2. rewrite Hcs2 in Hsdm.
    assert (dcard s3 = dcard s) as Hcs3 by apply Hs33.
    set (blank := negb (sg_has_sdm sg) && _).
    set (picc_ok := diagnose_picc_ok _ _ _ _).
    apply wp_bind, (wp_probe_if _ _ 0 _ s); [exact Hs33|]. intros r4 s4 Hs4 Hk4.
    destruct r4 as [[fok del]|e]; [|split; [eapply spent_weaken; [exact Hs4|lia|lia]|done]].
    apply wp_bind, (wp_probe_if _ _ 1 _ s); [exact Hs4|]. intros r5 s5 Hs5 Hk5.
    destruct r5 as [[sok d2]|e]; [|by split]. apply wp_ret. split; [done|].
    intros d [= <-]. simpl. unfold classify_card_state, classify_key_provenance.
    repeat split.
    - destruct fok; [intros; by eapply Hk4|].
      destruct del, (sg_has_sdm sg), (bool_decide _), picc_ok, sok; simpl; intros [E|E];
        vm_compute in E; congruence.
    - destruct fok, picc_ok, sok; simpl; (congruence || intros _; by eapply Hk5).
    - done. }
  unfold wp, Post in H. by destruct (cmd_diagnose _ _ _ s).
Qed.
End tool_claims.

Section search.
  Context {T TE : Type} {D : NtagDevice T TE} {L : NtagLaws D}.
  Context (rng : nat → option (list Z)).

Lemma wp_try_auth_ladder n key (Q : result AuthResult (CliError TE) → Cli T → Prop) s :
  (∀ a s', spent n 0 s s' → cli_failures s' = cli_failures s →
     (a = Auth_Success → k0 (c_keys (dcard s)) = key) → Q (Ok a) s') →
  wp (try_auth rng n key) Q s.
Proof.
  revert s. induction n as [|n IH]; intros s HQ; cbn [try_auth].
  { apply wp_ret, HQ; [by apply spent_refl|done|done]. }
  apply wp_bind, wp_attempt, wp_gen_rnd_a. intros r1 s1 Hs1 Hf1 _ _.
  assert (spent (S n) 0 s s1) as Hs1' by (eapply spent_weaken; [exact Hs1|lia|lia]).
  destruct r1 as [rnd|e]; [|by apply wp_ret, HQ].
  apply wp_bind, wp_try_auth. intros r2 s2 Hc2 Hd2 Hf2 _ Hk2.
  assert (spent 1 0 s s2) as Hs2 by (unfold spent in *; by rewrite Hc2, Hd2, Hf2).
  assert (spent (S n) 0 s s2) as Hs2' by (eapply spent_weaken; [exact Hs2|lia|lia]).
  assert (dcard s1 = dcard s) as Hc1 by apply Hs1. rewrite Hc1 in Hk2.
  assert (∀ a, a ≠ Auth_Success → Q (Ok a) s2) as Hfail.
  { intros a Ha. apply HQ; [done|congruence|done]. }
  destruct r2 as [sess|e]; [apply wp_ret, HQ; [done|congruence|by auto]|].
  destruct e as [| st | | | | | | | | |]; try by apply wp_ret, Hfail.
  destruct st; try by apply wp_ret, Hfail.
  apply IH. intros a s3 Hs3 Hf3 Hk3. apply HQ.
  - eapply (spent_trans 1 0 n 0); [exact Hs2|exact Hs3].
  - congruence.
  - rewrite Hc2, Hc1 in Hk3. done.
Qed.

Lemma scan_candidates_spec n cands s :
  breaker_low s →
  wp (scan_candidates rng n cands) (λ r s',
    spent (n * length cands) (Z.of_nat (length cands)) s s' ∧ breaker_ok r s' ∧
    ∀ label key, r = Ok (Some (label, key)) →
      (label, key) ∈ cands ∧ k0 (c_keys (dcard s)) = key) s.
Proof.
  revert s. induction cands as [|[label key] cands IH]; intros s Hb; cbn [scan_candidates].
  { apply wp_bind, wp_log_event. intros s1 Hs1 Hf1 _. apply wp_ret.
    split; [eapply spent_weaken; [exact Hs1|lia|simpl; lia]|]. split; [by eapply breaker_keep|done]. }
  apply wp_bind, wp_log_event. intros s1 Hs1 Hf1 _.
  apply wp_bind, wp_try_auth_ladder. intros a s2 Hs2 Hf2 Hk2.
  assert (spent n 0 s s2) as Hs22 by (eapply (spent_trans 0 0 n 0); [exact Hs1|exact Hs2]).
  assert (breaker_low s2) as Hb2 by (unfold breaker_low in *; by rewrite Hf2, Hf1).
  assert (dcard s1 = dcard s) as Hc1 by apply Hs1. rewrite Hc1 in Hk2.
  assert (∀ k s3, spent n k s s3 → 0 ≤ k ≤ 1 →
    spent (n * S (length cands)) (Z.of_nat (S (length cands))) s s3) as Hw.
  { intros k s3 H ?. eapply spent_weaken; [exact H|lia|lia]. }
  assert (∀ s3 k, spent n k s s3 → 0 ≤ k ≤ 1 → breaker_low s3 → wp (scan_candidates rng n cands) (λ r s',
    spent (n * S (length cands)) (Z.of_nat (S (length cands))) s s' ∧ breaker_ok r s' ∧
    ∀ label' key', r = Ok (Some (label', key')) →
      (label', key') ∈ (label, key) :: cands ∧ k0 (c_keys (dcard s)) = key') s3) as Hrec.
  { intros s3 k Hs3 Hk Hb3. eapply wp_mono; [by apply IH|]. intros r s4 (Hs4 & Hb4 & Hok).
    split; [eapply spent_weaken; [eapply spent_trans; [exact Hs3|exact Hs4]|lia|lia]|].
    split; [done|]. intros l' k' E. destruct (Hok _ _ E) as [Hin HK].
    assert (dcard s3 = dcard s) as Hc3 by apply Hs3. rewrite Hc3 in HK.
    split; [by right|done]. }
  destruct a; (apply wp_bind; first [apply wp_log_event|apply wp_record; [done|]]).
  - intros s3 Hs3 Hf3 _. apply wp_ret. split; [|split].
    + apply (Hw 0); [|lia]. eapply spent_weaken; [eapply spent_trans; [exact Hs22|exact Hs3]|lia|lia].
    + by eapply breaker_keep.
    + intros l' k' [= <- <-]. split; [by left|auto].
  - intros r3 s3 Hs3 Hb3 _.
    assert (spent n 1 s s3) as Hs33 by
      (eapply spent_weaken; [eapply spent_trans; [exact Hs22|exact Hs3]|lia|lia]).
    destruct r3 as [[]|e]; [|split; [by apply (Hw 1)|split; [by eapply breaker_err|done]]].
    assert (breaker_low s3) as Hb3' by (eapply breaker_ok_low; [exact Hb3|done]).
    apply wp_bind, wp_log_event. intros s4 Hs4 Hf4 _. apply (Hrec s4 1); [|lia|].
    + eapply spent_weaken; [eapply spent_trans; [exact Hs33|exact Hs4]|lia|lia].
    + unfold breaker_low in *. by rewrite Hf4.
  - intros s3 Hs3 Hf3 _. apply wp_fail. split; [|split; [by eapply breaker_keep|done]].
    apply (Hw 0); [|lia]. eapply spent_weaken; [eapply spent_trans; [exact Hs22|exact Hs3]|lia|lia].
  - intros s3 Hs3 Hf3 _. apply (Hrec s3 0); [|lia|].
    + eapply spent_weaken; [eapply spent_trans; [exact Hs22|exact Hs3]|lia|lia].
    + unfold breaker_low in *. by rewrite Hf3.
Qed.

Lemma try_key_loop_spec n target key s :
  wp (try_key_loop rng n target key) (λ r s', spent n 0 s s' ∧
    (r = Ok Trial_Accepted → get_key target (c_keys (dcard s)) = key)) s.
Proof.
  revert s. induction n as [|n IH]; intros s; cbn [try_key_loop].
  { apply wp_bind, wp_log_event. intros s1 Hs1 _ _. by apply wp_ret. }
  apply wp_bind, wp_gen_rnd_a. intros r1 s1 Hs1 Hf1 _ _.
  assert (spent (S n) 0 s s1) as Hs1' by (eapply spent_weaken; [exact Hs1|lia|lia]).
  destruct r1 as [rnd|e]; [|by split].
  apply wp_bind, wp_try_auth. intros r2 s2 Hc2 Hd2 Hf2 _ Hk2.
  assert (spent 1 0 s s2) as Hs2 by (unfold spent in *; by rewrite Hc2, Hd2, Hf2).
  assert (spent (S n) 0 s s2) as Hs2' by (eapply spent_weaken; [exact Hs2|lia|lia]).
  assert (dcard s1 = dcard s) as Hc1 by apply Hs1. rewrite Hc1 in Hk2.
  assert (∀ s3, spent 0 0 s2 s3 → spent (S n) 0 s s3) as Hlog.
  { intros s3 H. eapply spent_weaken; [eapply spent_trans; [exact Hs2'|exact H]|lia|lia]. }
  destruct r2 as [sess|e].
  { apply wp_bind, wp_log_event. intros s3 Hs3 _ _. apply wp_ret. auto. }
  destruct e as [| st | | | | | | | | |]; try by apply wp_fail.
  destruct st; try by apply wp_fail.
  - eapply wp_mono; [apply IH|]. intros r s3 [Hs3 Hk]. split.
    + eapply (spent_trans 1 0 n 0); [exact Hs2|exact Hs3].
    + intros E. rewrite <-Hc1, <-Hc2. auto.
  - apply wp_bind, wp_log_event. intros s3 Hs3 _ _. apply wp_ret. split; [by apply Hlog|done].
Qed.
End search.

Section search_claims.
  Context {T TE : Type} {D : NtagDevice T TE} {L : NtagLaws D} `{C : AesCrypto}.
  Context (rng : nat → option (list Z)).

(** The key searches are honest and bounded: neither [scan-keys] nor
    [try-key] changes the card; a key [scan-keys] reports is one of its seven
    candidates and is the card's master key, a key [try-key] accepts is the
    card's key in that slot; [scan-keys] records at most seven failures, and
    each candidate costs at most the requested number of attempts, clamped to
    1..1000. *)
Theorem key_search_honest (issuer_key : list Z) (attempts : Z) (key : AesKey) (key_no : Z) (s : Cli T) :
  breaker_low s →
  (let '(r, s') := cmd_scan_keys rng issuer_key attempts s in
   spent (Z.to_nat (clampZ 1 1000 attempts) * 7) 7 s s' ∧ breaker_ok r s' ∧
   ∀ label k, r = Ok (Some (label, k)) →
     (label, k) ∈ scan_list issuer_key (uid_to_fixed (c_uid (dcard s))) ∧ k0 (c_keys (dcard s)) = k) ∧
  (let '(r, s') := cmd_try_key rng key key_no attempts s in
   spent (Z.to_nat (clampZ 1 1000 attempts)) 0 s s' ∧
   (r = Ok Trial_Accepted →
      ∃ n, key_number_of key_no = Some n ∧ get_key n (c_keys (dcard s)) = key)).
Proof.
  intros Hb. split.
  - set (Post := λ (r : result (option (list Z * AesKey)) (CliError TE)) s',
      spent (Z.to_nat (clampZ 1 1000 attempts) * 7) 7 s s' ∧ breaker_ok r s' ∧
      ∀ label k, r = Ok (Some (label, k)) →
      (label, k) ∈ scan_list issuer_key (uid_to_fixed (c_uid (dcard s))) ∧ k0 (c_keys (dcard s)) = k).
    assert (wp (cmd_scan_keys rng issuer_key attempts) Post s) as H.
    { unfold cmd_scan_keys, Post. apply wp_bind, wp_get_uid. intros r1 s1 Hs1 Hf1 Hu1.
      destruct r1 as [uid|e].
      2:{ split; [eapply spent_weaken; [exact Hs1|lia|lia]|].
          split; [by eapply breaker_keep|done]. }
      rewrite (Hu1 _ eq_refl). eapply wp_mono.
      { apply scan_candidates_spec. unfold breaker_low in *. by rewrite Hf1. }
      intros r s2 (Hs2 & Hb2 & Hok). split; [|split; [done|]].
      - eapply (spent_trans 0 0 (_ * 7) 7); [exact Hs1|exact Hs2].
      - intros label k E. assert (dcard s1 = dcard s) as Hc1 by apply Hs1.
        rewrite <-Hc1 at 2. rewrite Hc1 in Hok. rewrite Hc1. by apply Hok. }
    unfold wp, Post in H. by destruct (cmd_scan_keys _ _ _ s).
  - set (Post := λ (r : result KeyTrial (CliError TE)) s',
      spent (Z.to_nat (clampZ 1 1000 attempts)) 0 s s' ∧
      (r = Ok Trial_Accepted →
      ∃ n, key_number_of key_no = Some n ∧ get_key n (c_keys (dcard s)) = key)).
    assert (wp (cmd_try_key rng key key_no attempts) Post s) as H.
    { unfold cmd_try_key, Post. apply wp_bind, wp_attempt, wp_on_dev.
      eapply wp_mono; [apply law_uid|]. intros r0 t0 [Hc0 _]. set (s1 := mkCli t0 _ _ _).
      assert (spent 0 0 s s1) as Hs1 by (unfold spent, dcard; simpl; split; [done|lia]).
      destruct (key_number_of key_no) as [n|].
      2:{ apply wp_fail. split; [eapply spent_weaken; [exact Hs1|lia|lia]|done]. }
      apply wp_bind, wp_log_event. intros s2 Hs2 _ _.
      assert (spent 0 0 s s2) as Hs22 by (eapply (spent_trans 0 0 0 0); [exact Hs1|exact Hs2]).
      eapply wp_mono; [apply try_key_loop_spec|]. intros r s3 [Hs3 Hk]. split.
      - eapply (spent_trans 0 0 _ 0); [exact Hs22|exact Hs3].
      - intros E. exists n. split; [done|]. assert (dcard s2 = dcard s) as <- by apply Hs22. auto. }
    unfold wp, Post in H. by destruct (cmd_try_key _ _ _ _ s).
Qed.
End search_claims.

Lemma key_search_honest_witness :
  let s := sim_cli sim_factory in
  (let '(r, s') := cmd_scan_keys (C := toy_crypto) sim_rng (replicate 16 7) 5 s in
   spent (Z.to_nat (clampZ 1 1000 5) * 7) 7 s s' ∧ breaker_ok r s' ∧
   ∀ label k, r = Ok (Some (label, k)) →
     (label, k) ∈ scan_list (C := toy_crypto) (replicate 16 7) (uid_to_fixed (c_uid (dcard s))) ∧
     k0 (c_keys (dcard s)) = k) ∧
  (let '(r, s') := cmd_try_key sim_rng (replicate 16 0) 0 5 s in
   spent (Z.to_nat (clampZ 1 1000 5)) 0 s s' ∧
   (r = Ok Trial_Accepted →
      ∃ n, key_number_of 0 = Some n ∧ get_key n (c_keys (dcard s)) = replicate 16 0)).
Proof. apply (key_search_honest (C := toy_crypto) sim_rng). apply sim_cli_low. Defined.

(** ** Provisioning from a proxy *)

Lemma contains_app_l p a s : contains p s = true → contains p (a ++ s) = true.
Proof.
  rewrite !contains_spec. intros (x & y & ->). exists (a ++ x), y. by rewrite <-app_assoc.
Qed.

(** A provisioning response the parser accepts can always be burned as it
    is: its URL carries both SDM placeholders, so the burn command's template
    gate lets it pass without force; the counter-only placeholder is used
    exactly when the proxy asked for UID privacy; the base URL has one of the
    two permitted schemes; and the five keys are 16 bytes each. *)
Theorem provision_of_burnable (resp : ProvisionResponse) (p : ProvisionKeys) :
  provision_of resp = Ok p →
  contains (lit "{picc") (pk_url p) = true ∧ contains MAC_MARK (pk_url p) = true ∧
  (pk_uid_privacy p = true → contains (lit "{picc:ctr}") (pk_url p) = true) ∧
  (pk_uid_privacy p = false → contains (lit "{picc:uid") (pk_url p) = true) ∧
  (starts_with (lit "lnurlw://") (pk_url p) = true ∨ starts_with (lit "https://") (pk_url p) = true) ∧
  ∀ n, array 16 (get_key n (pk_keys p)).
Proof.
  unfold provision_of. intros H.
  case_decide; [done|]. case_decide; [done|].
  assert (∀ n hex k, provision_key n hex = Ok k → array 16 k) as Hkey.
  { intros n hex k Hk. unfold provision_key, AesKey_from_hex in Hk.
    destruct (decode_hex 16 (trim hex)) eqn:E; [|done]. injection Hk as <-.
    by apply decode_hex_ok in E as [_ ?]. }
  destruct (provision_key 0 _) as [a|] eqn:E0; [|done].
  destruct (provision_key 1 _) as [b|] eqn:E1; [|done].
  destruct (provision_key 2 _) as [c|] eqn:E2; [|done].
  destruct (provision_key 3 _) as [d|] eqn:E3; [|done].
  destruct (provision_key 4 _) as [e|] eqn:E4; [|done]. cbn [and_then] in H.
  destruct (negb _ || _) eqn:Eb; [done|]. apply orb_false_iff in Eb as [Eb _].
  apply negb_false_iff, orb_true_iff in Eb. injection H as <-. cbn [pk_url pk_uid_privacy pk_keys].
  set (priv := bool_decide _). clearbody priv.
  assert (∀ x y : list Z, starts_with x (trim (pr_lnurlw_base resp)) = true →
    starts_with x (trim (pr_lnurlw_base resp) ++ y) = true) as Hpre.
  { intros x y. rewrite !starts_with_spec. apply prefix_app_r. }
  repeat split.
  - destruct priv; apply contains_app_l; reflexivity.
  - destruct priv; apply contains_app_l; reflexivity.
  - intros ->. apply contains_app_l; reflexivity.
  - intros ->. apply contains_app_l; reflexivity.
  - destruct Eb; [left|right]; by apply Hpre.
  - destruct n; simpl; eapply Hkey; eauto.
  - destruct n; simpl; eapply Hkey; eauto.
Qed.

Definition sample_response : ProvisionResponse :=
  mkProvisionResponse (lit "create_bolt_card_response") 2 (lit " lnurlw://card.example/ln ")
    (lit "00112233445566778899aabbccddeeff") (lit "11111111111111111111111111111111")
    (lit "22222222222222222222222222222222") (lit "33333333333333333333333333333333")
    (lit "44444444444444444444444444444444") (lit "true").

Example provision_sample :
  pk_url <$> ok (provision_of sample_response) =
    Some (lit "lnurlw://card.example/ln?p={picc:ctr}&c={mac}").
Proof. vm_compute. reflexivity. Qed.

(** The [u8::from_str_radix] conversion of a fallback UID accepts strings that
    are not hexadecimal: a plus sign in front of a digit. *)
Example uid_hex_plus :
  uid_hex_to_fixed (lit "+4+f+a+9000001") = Some [4; 15; 10; 9; 0; 0; 1].
Proof. reflexivity. Qed.

(** ** The ChangeKey self test *)

Section testck.
  Context {T TE : Type} {D : NtagDevice T TE} {L : NtagLaws D}.
  Context (rng : nat → option (list Z)).

(** The card with key 1 set, and the states [testck] can leave. *)
Definition with_k1 (k : AesKey) (v : Z) (c : Card) : Card := set_card_key Key1 k v c.

Definition testck_states (c c' : Card) : Prop :=
  c' = c ∨ c' = with_k1 TEST_KEY 1 c ∨ c' = with_k1 (replicate 16 0) 0 c.

(** A device call in the command: the card of the next state, on both outcomes. *)
Lemma wp_dev_step {A B} what (m : M T (SessionError TE) A) (k : A → M (Cli T) (CliError TE) B)
    (Pd : result A (SessionError TE) → T → Prop) (Q : result B (CliError TE) → Cli T → Prop) s :
  wp m Pd (cli_dev s) →
  (∀ a s', Pd (Ok a) (cli_dev s') → wp (k a) Q s') →
  (∀ e s', Pd (Err e) (cli_dev s') → Q (Err (Cli_Session what e)) s') →
  wp (lift_err (Cli_Session what) (on_dev m) ≫= k) Q s.
Proof.
  intros Hm Hk He. apply wp_bind, wp_lift_err, wp_on_dev. eapply wp_mono; [exact Hm|].
  intros [a|e] t Ht; simpl; [apply Hk|apply He]; done.
Qed.

(** The ChangeKey self test touches key 1 and nothing else: on every
    outcome the card is as it was, or differs in key 1 alone, which then holds
    the published test key or the factory key; a passing run needed the
    factory master key and leaves key 1 at the factory key and version, so a
    blank card comes out unchanged. *)
Theorem testck_restores (s : Cli T) :
  let '(r, s') := cmd_testck rng s in
  testck_states (dcard s) (dcard s') ∧
  (r = Ok tt → k0 (c_keys (dcard s)) = FACTORY_KEY ∧ dcard s' = with_k1 FACTORY_KEY 0 (dcard s) ∧
     (k1 (c_keys (dcard s)) = FACTORY_KEY → dcard s' = dcard s)).
Proof.
  set (Post := λ (r : result unit (CliError TE)) s', testck_states (dcard s) (dcard s') ∧
    (r = Ok tt → k0 (c_keys (dcard s)) = FACTORY_KEY ∧ v1 (c_vers (dcard s)) = 0 ∧
       dcard s' = with_k1 FACTORY_KEY 0 (dcard s))).
  assert (wp (cmd_testck rng) Post s) as H.
  { unfold cmd_testck, Post, testck_states.
    eapply wp_dev_step; [apply law_uid| |intros e s1 [? _]; by split; [left|]].
    intros u s1 [Hc1 _]. apply wp_bind, wp_log_event. intros s2 [Hc2 _] _ _.
    apply wp_bind, wp_gen_rnd_a. intros r3 s3 [Hc3 _] _ _ _.
    unfold dcard in *. rewrite Hc2, Hc1 in Hc3.
    destruct r3 as [rnd|e]; [|by split; [left|]].
    eapply wp_dev_step; [apply law_auth| |intros e s4 [? _]; split; [left; congruence|done]].
    intros sess s4 [Hc4 Hk]. specialize (Hk _ eq_refl). rewrite Hc3 in Hc4, Hk. simpl in Hk.
    eapply wp_dev_step; [apply law_key_version| |intros e s5 [? _]; split; [left; congruence|done]].
    intros [v sess2] s5 [Hc5 Hv]. specialize (Hv _ _ eq_refl). rewrite Hc4 in Hc5, Hv. cbn [fst snd].
    case_decide as Hv0; [by apply wp_fail; split; [left|]|].
    eapply wp_dev_step; [apply law_change_key| |].
    2:{ intros e s6 [[-> | ->] _]; rewrite Hc5; (split; [|done]); [by left|by right; left]. }
    intros sess3 s6 [_ Hc6]. specialize (Hc6 _ eq_refl). rewrite Hc5 in Hc6.
    eapply wp_dev_step; [apply law_key_version| |].
    2:{ intros e s7 [-> _]. rewrite Hc6. split; [by right; left|done]. }
    intros [v' sess4] s7 [Hc7 _]. rewrite Hc6 in Hc7. cbn [fst snd].
    case_decide; [apply wp_fail; rewrite Hc7; split; [by right; left|done]|].
    eapply wp_dev_step; [apply law_change_key| |].
    2:{ intros e s8 [[-> | ->] _]; rewrite Hc7; (split; [|done]); [by right; left|by right; right]. }
    intros sess5 s8 [_ Hc8]. specialize (Hc8 _ eq_refl). rewrite Hc7 in Hc8.
    eapply wp_dev_step; [apply law_key_version| |].
    2:{ intros e s9 [-> _]. rewrite Hc8. split; [by right; right|done]. }
    intros [v'' sess6] s9 [Hc9 _]. rewrite Hc8 in Hc9. cbn [fst snd].
    case_decide; [apply wp_fail; rewrite Hc9; split; [by right; right|done]|].
    apply wp_log_event. intros s10 [Hc10 _] _ _. unfold dcard in Hc10. rewrite Hc9 in Hc10.
    rewrite Hc10. split; [by right; right|]. intros _. split; [done|]. split; [|done].
    simpl in Hv. destruct (decide (v = 0)); congruence. }
  unfold wp, Post in H. destruct (cmd_testck rng s) as [r s']. simpl in H.
  destruct H as [Hst Hok]. split; [done|]. intros E. destruct (Hok E) as (HK & HV & HC).
  split; [done|]. split; [done|]. intros Hk1. rewrite HC. unfold with_k1, set_card_key.
  destruct (dcard s) as [u ver ks vs nd fl]. destruct ks, vs. simpl in *. by subst.
Qed.
End testck.
