(* ===== verification/Transport.v ===== *)
(** * The PC/SC transport of the command line

    [apps/bolty-cli/src/transport.rs] (reader selection, connection ladder, APDU
    exchange, UID) and [bench_lock.rs] (the advisory lock that keeps two sessions
    off one physical reader).  The smart-card service and the lock file are the
    interface [Host]; every call on it is recorded in a trace. *)

From S2P Require Import Prelude Str Hex.

Inductive ScError : Type := Sc_NoSmartcard | Sc_Other (code : Z).
Inductive Protocols : Type := Proto_T1 | Proto_RAW | Proto_T0.

#[export] Instance Protocols_eq_dec : EqDecision Protocols.
Proof. solve_decision. Defined.

Inductive PcscError : Type :=
| NoReaders
| NoCardInReader (reader : list Z)
| PinUnmatched (want : list Z)
| BenchLocked (msg : list Z)
| Pcsc (e : ScError)
| Transmit (msg : list Z).

(** ** Reader selection *)

Definition str_lower (s : list Z) : list Z := to_ascii_lowercase <$> s.

Definition is_virtual (name : list Z) : bool :=
  let lower := str_lower name in
  contains (lit "virtual") lower || contains (lit "vpcd") lower || contains (lit "vpicc") lower.

(** [Iterator::find]. *)
Fixpoint find_first {A} (f : A → bool) (l : list A) : option A :=
  match l with
  | [] => None
  | x :: l => if f x then Some x else find_first f l
  end.

Definition or_else {A} (o p : option A) : option A := match o with Some _ => o | None => p end.

Definition select_reader (names : list (list Z)) (pin : option (list Z)) : result (list Z) PcscError :=
  match pin with
  | Some want => ok_or (find_first (contains want) names) (PinUnmatched want)
  | None =>
      let candidates := List.filter (λ n, negb (is_virtual n)) names in
      ok_or (or_else (find_first (contains (lit "PICC")) candidates)
               (or_else (find_first (λ n, negb (contains (lit "SAM") n)) candidates) (head candidates)))
        NoReaders
  end.

(** ** The host *)

Class Host (K : Type) : Type := {
  sc_establish : M K ScError ();
  sc_list_readers : M K ScError (list (list Z));
  sc_connect : list Z → Protocols → M K ScError ();
  sc_disconnect_unpower : M K ScError ();
  sc_reconnect_reset : Protocols → M K ScError ();
  sc_transmit : list Z → M K ScError (list Z);
  lock_open : M K (list Z) ();
  lock_flock_ex_nb : M K (list Z) bool;
  lock_store : list Z → K → K;
  lock_contents : K → list Z }.

(** Reader names are C strings. *)
Class HostLaws {K} (H : Host K) : Prop := {
  law_list_readers k : wp sc_list_readers (λ r _, ∀ l, r = Ok l → Forall (λ n, 0 ∉ n) l) k }.

(** The environment variables read by the transport, and the process facts that
    go into the lock file. *)
Record Env : Type := mkEnv {
  env_reader : option (list Z);
  env_skip_bench_lock : bool;
  env_uid_override : option (list Z);
  env_skip_ffca_reconnect : bool;
  env_arg0 : option (list Z);
  env_pid : Z;
  env_unix_secs : Z }.

Inductive HostEvent : Type :=
| Ev_Connect (reader : list Z) (p : Protocols) (ok : bool)
| Ev_Flock (taken : bool)
| Ev_Disconnect | Ev_Reconnect
| Ev_Apdu (apdu : list Z).

Record Pc (K : Type) : Type := mkPc { pc_host : K; pc_trace : list HostEvent }.
Arguments mkPc {K} _ _.
Arguments pc_host {K} _.
Arguments pc_trace {K} _.

(** An open connection: what [PcscTransport] holds besides the handles. *)
Record PcscTransport : Type := mkTransport {
  pt_reader_name : list Z;
  pt_protocol : Protocols;
  pt_bench_lock : bool }.

Record ReaderStatus : Type := mkReaderStatus {
  rd_name : list Z;
  rd_virtual : bool;
  rd_card_present : option bool }.

Record Response : Type := mkResponse { rsp_data : list Z; rsp_sw1 : Z; rsp_sw2 : Z }.

Section transport.
  Context {K : Type} {H : Host K} (env : Env) (show_sc_error : ScError → list Z).

  Local Notation St := (Pc K).

(** A host call and the event it leaves in the trace. *)
Definition host {E F A} (m : M K E A) (f : E → F) (ev : result A E → list HostEvent) : M St F A := λ s,
  let '(r, k) := m (pc_host s) in (map_err f r, mkPc k (pc_trace s ++ ev r)).

Definition connect (reader : list Z) (p : Protocols) : M St ScError () :=
  host (sc_connect reader p) id (λ r, [Ev_Connect reader p (is_ok r)]).

(** [connect(T1).or_else(connect(RAW)).or_else(connect(T0))]. *)
Definition connect_ladder (reader : list Z) : M St ScError Protocols := λ s,
  match connect reader Proto_T1 s with
  | (Ok _, s) => (Ok Proto_T1, s)
  | (Err _, s) =>
      match connect reader Proto_RAW s with
      | (Ok _, s) => (Ok Proto_RAW, s)
      | (Err _, s) =>
          match connect reader Proto_T0 s with
          | (Ok _, s) => (Ok Proto_T0, s)
          | (Err e, s) => (Err e, s)
          end
      end
  end.

(** A name that is not UTF-8 is shown as unknown. *)
Definition reader_text (r : list Z) : list Z := default (lit "(unknown)") (from_utf8 r).

(** [CString::new(..).unwrap_or_default()]: a name with a NUL becomes empty. *)
Definition c_name (s : list Z) : list Z := if decide (0 ∈ s) then [] else s.

Definition list_readers : M St PcscError (list (list Z)) :=
  host sc_establish Pcsc (λ _, []) ;; host sc_list_readers Pcsc (λ _, []).

(** ** bench_lock.rs *)

Definition SKIP_ENV : list Z := lit "BOLTY_SKIP_BENCH_LOCK".
Definition BENCH_LOCK_PATH : list Z := lit "/tmp/amperstrand-bench.lock".

Definition holder_text (reason : list Z) : list Z :=
  lit "session: bolty-cli" ++ [10] ++ lit "pid: " ++ show_uint (env_pid env) ++ [10] ++
  lit "project: bolty-rs" ++
  (match reason with [] => [] | _ => [10] ++ lit "cmd: " ++ reason end) ++
  [10] ++ lit "since: unix+" ++ show_uint (env_unix_secs env).

Record BenchLockHeld : Type := mkBenchLockHeld { held_holder : list Z; held_path : list Z }.

Definition held_display (e : BenchLockHeld) : list Z :=
  lit "bench lock " ++ held_path e ++ lit " is held by another session:" ++ [10] ++ held_holder e ++ [10] ++
  lit "pcscd gates nothing (#209): a bare CLI must not race other lanes on physical readers. " ++
  lit "Take the labgrid place / bench lock first, or wait for the holder. Override (harness children " ++
  lit "whose parent already holds the lock, CI, virtual readers): " ++ SKIP_ENV ++ lit "=1".

(** The guard is [true] when it holds the flock. *)
Definition acquire (reason : list Z) : M St BenchLockHeld bool := λ s,
  if env_skip_bench_lock env then (Ok false, s)
  else
    match host lock_open id (λ _, []) s with
    | (Err e, s) => (Err (mkBenchLockHeld (lit "(lock file unopenable: " ++ e ++ lit ")") BENCH_LOCK_PATH), s)
    | (Ok _, s) =>
        match host lock_flock_ex_nb id
                (λ r, [Ev_Flock (match r with Ok true => true | _ => false end)]) s with
        | (Ok true, s) => (Ok true, mkPc (lock_store (holder_text reason) (pc_host s)) (pc_trace s))
        | (Ok false, s) => (Err (mkBenchLockHeld (trim (lock_contents (pc_host s))) BENCH_LOCK_PATH), s)
        | (Err e, s) => (Err (mkBenchLockHeld (lit "(flock failed: " ++ e ++ lit ")") BENCH_LOCK_PATH), s)
        end
    end.

(** ** Connecting *)

(** [rsplit('/').next()]: the text after the last slash. *)
Definition base_name (s : list Z) : list Z := List.last (split_on 47 [] s) [].

(** The lock, then the connection, once a reader is selected. *)
Definition connect_selected (selected : list Z) : M St PcscError PcscTransport :=
  bench_lock ← (if is_virtual selected then mret false
                else
                  let reason := default (lit "bolty-cli") (base_name <$> env_arg0 env) in
                  lift_err (λ held, BenchLocked (held_display held)) (acquire reason));
  protocol ← lift_err (λ e, match e with Sc_NoSmartcard => NoCardInReader selected | _ => Pcsc e end)
    (connect_ladder (c_name selected));
  mret (mkTransport selected protocol bench_lock).

Definition connect_with (pin : option (list Z)) : M St PcscError PcscTransport :=
  readers ← list_readers;
  let names := reader_text <$> readers in
  let effective_pin := or_else pin (env_reader env) in
  match select_reader names effective_pin with
  | Err e => fail e
  | Ok selected => connect_selected selected
  end.

Definition presence_of (r : result Protocols ScError) : option bool :=
  match r with
  | Ok _ => Some true
  | Err Sc_NoSmartcard => Some false
  | Err _ => None
  end.

Fixpoint probe_readers (readers : list (list Z)) : M St PcscError (list ReaderStatus) :=
  match readers with
  | [] => mret []
  | reader :: readers =>
      r ← attempt (connect_ladder reader);
      let name := reader_text reader in
      rest ← probe_readers readers;
      mret (mkReaderStatus name (is_virtual name) (presence_of r) :: rest)
  end.

Definition list_readers_with_presence : M St PcscError (list ReaderStatus) :=
  readers ← list_readers; probe_readers readers.

Definition power_cycle (t : PcscTransport) : M St PcscError PcscTransport :=
  host sc_disconnect_unpower Pcsc (λ _, [Ev_Disconnect]) ;;
  protocol ← lift_err Pcsc (connect_ladder (c_name (pt_reader_name t)));
  mret (mkTransport (c_name (pt_reader_name t)) protocol (pt_bench_lock t)).

(** ** APDUs *)

Definition transmit (apdu : list Z) : M St PcscError Response :=
  rapdu ← host (sc_transmit apdu) (λ e, Transmit (show_sc_error e)) (λ _, [Ev_Apdu apdu]);
  if decide (length rapdu < 2)%nat then
    fail (Transmit (lit "response too short (" ++ show_uint (Z.of_nat (length rapdu)) ++ lit " bytes)"))
  else
    let n := (length rapdu - 2)%nat in
    mret (mkResponse (take n rapdu) (nth n rapdu 0) (nth (S n) rapdu 0)).

(** [char::to_digit(16)]. *)
Definition digit_or_0 (c : option Z) : Z := default 0 (c ≫= decode_hex_nibble).

Definition decode_override (s : list Z) : list Z :=
  (λ i, Z.lor (u8 (Z.shiftl (digit_or_0 (s !! (2 * i)%nat)) 4)) (digit_or_0 (s !! (2 * i + 1)%nat)))
    <$> seq 0 7.

Definition is_hexdigit (c : Z) : bool := bool_decide (is_Some (decode_hex_nibble c)).

Definition uid_override : option (list Z) :=
  u ← env_uid_override env;
  let s := str_lower u in
  if bool_decide (length s = 14%nat) && forallb is_hexdigit s then Some (decode_override s) else None.

Definition GET_UID_APDU : list Z := [0xFF; 0xCA; 0x00; 0x00; 0x00].
Definition SELECT_NDEF_APDU : list Z :=
  [0x00; 0xA4; 0x04; 0x00; 0x07; 0xD2; 0x76; 0x00; 0x00; 0x85; 0x01; 0x01; 0x00].

Definition get_uid (t : PcscTransport) : M St PcscError (list Z) :=
  match uid_override with
  | Some out => mret out
  | None =>
      response ← transmit GET_UID_APDU;
      _ ← (if env_skip_ffca_reconnect env then mret ()
           else
             attempt (host (sc_reconnect_reset (pt_protocol t)) Pcsc (λ _, [Ev_Reconnect])) ;;
             host (sc_transmit SELECT_NDEF_APDU)
               (λ e, Transmit (lit "NDEF re-select after reconnect: " ++ show_sc_error e))
               (λ _, [Ev_Apdu SELECT_NDEF_APDU]) ;;
             mret ());
      if bool_decide (rsp_sw1 response ≠ 0x90) || bool_decide (rsp_sw2 response ≠ 0x00) then
        fail (Transmit (lit "GET UID failed: SW=" ++
          [hex_upper (Z.shiftr (rsp_sw1 response) 4); hex_upper (Z.land (rsp_sw1 response) 0xf);
           hex_upper (Z.shiftr (rsp_sw2 response) 4); hex_upper (Z.land (rsp_sw2 response) 0xf)]))
      else mret (rsp_data response)
  end.
End transport.

(** ** Selection policy *)

Lemma find_first_some {A} (f : A → bool) l x :
  find_first f l = Some x → x ∈ l ∧ f x = true.
Proof.
  induction l as [|y l IH]; simpl; [done|]. destruct (f y) eqn:Hy.
  - intros [= ->]. split; [by left|done].
  - intros H. destruct (IH H). split; [by right|done].
Qed.

Lemma find_first_none {A} (f : A → bool) l : find_first f l = None ↔ Forall (λ x, f x = false) l.
Proof.
  induction l as [|y l IH]; simpl; [by rewrite Forall_nil|]. rewrite Forall_cons.
  destruct (f y); [naive_solver|]. rewrite IH. tauto.
Qed.

Lemma elem_of_physical n names :
  n ∈ List.filter (λ n, negb (is_virtual n)) names ↔ n ∈ names ∧ is_virtual n = false.
Proof. rewrite !list_elem_of_In, filter_In, negb_true_iff. done. Qed.

(** Which reader a card-writing tool talks to. With a pin the reader is the
    first whose name contains it, virtual or not, and a pin that matches nothing
    is an error, never a fallback. Without a pin the reader is never a virtual
    one; a PICC interface is taken if there is a physical one, otherwise a slot
    that is not a SAM if there is one; and there is an error exactly when every
    reader is virtual. *)
Theorem select_reader_policy (names : list (list Z)) (pin : option (list Z)) :
  match pin, select_reader names pin with
  | Some want, Ok n =>
      ∃ before after, names = before ++ n :: after ∧ contains want n = true ∧
        Forall (λ m, contains want m = false) before
  | Some want, Err e => e = PinUnmatched want ∧ Forall (λ m, contains want m = false) names
  | None, Ok n =>
      n ∈ names ∧ is_virtual n = false ∧
      ∀ m, m ∈ names → is_virtual m = false →
        (contains (lit "PICC") m = true → contains (lit "PICC") n = true) ∧
        (contains (lit "SAM") m = false → contains (lit "SAM") n = false ∨ contains (lit "PICC") n = true)
  | None, Err e => e = NoReaders ∧ Forall (λ m, is_virtual m = true) names
  end.
Proof.
  unfold select_reader. destruct pin as [want|].
  - destruct (find_first (contains want) names) as [n|] eqn:Hf; simpl; [|split; [done|by apply find_first_none]].
    induction names as [|y names IH]; [done|]. simpl in Hf. destruct (contains want y) eqn:Hy.
    + injection Hf as ->. by exists [], names.
    + destruct (IH Hf) as (b & a & -> & Hn & Hb). exists (y :: b), a. split; [done|]. split; [done|].
      by constructor.
  - set (cands := List.filter _ names).
    destruct (find_first (contains (lit "PICC")) cands) as [n|] eqn:Hp; simpl.
    { apply find_first_some in Hp as [[Hin Hv]%elem_of_physical Hc].
      split; [done|]. split; [done|]. intros m _ _. split; [done|by right]. }
    apply find_first_none in Hp.
    assert (∀ m, m ∈ names → is_virtual m = false → contains (lit "PICC") m = false) as Hno.
    { intros m Hm Hv. rewrite Forall_forall in Hp. apply Hp, elem_of_physical. done. }
    destruct (find_first (λ n, negb (contains (lit "SAM") n)) cands) as [n|] eqn:Hs; simpl.
    { apply find_first_some in Hs as [Hin%elem_of_physical Hc]. apply negb_true_iff in Hc.
      destruct Hin as [Hin Hv]. split; [done|]. split; [done|]. intros m Hm Hmv. rewrite (Hno m) by done.
      split; [done|by left]. }
    apply find_first_none in Hs. destruct (head cands) as [n|] eqn:Hh; simpl.
    { assert (n ∈ cands) as Hin by (destruct cands; [done|]; injection Hh as ->; by left).
      assert (n ∈ names ∧ is_virtual n = false) as [??] by (by apply elem_of_physical).
      split; [done|]. split; [done|]. intros m Hm Hv. rewrite (Hno m) by done.
      split; [done|]. intros Hsam. rewrite Forall_forall in Hs.
      assert (m ∈ cands) as Hmc by (by apply elem_of_physical). specialize (Hs m Hmc). simpl in Hs.
      by rewrite Hsam in Hs. }
    split; [done|]. apply Forall_forall. intros m Hm. destruct (is_virtual m) eqn:Hv; [done|].
    assert (m ∈ cands) as Hmc by (by apply elem_of_physical). destruct cands; [by apply not_elem_of_nil in Hmc|done].
Qed.

(** ** Physical readers and the lock *)

Section lock.
  Context {K : Type} {H : Host K} (env : Env) (show_sc_error : ScError → list Z).

  Local Notation St := (Pc K).

(** Scans a trace: connections to physical readers come after the lock. *)
Fixpoint locked_first (held : bool) (tr : list HostEvent) : Prop :=
  match tr with
  | [] => True
  | Ev_Flock taken :: tr => locked_first (held || taken) tr
  | Ev_Connect reader _ _ :: tr => (held = true ∨ is_virtual reader = true) ∧ locked_first held tr
  | _ :: tr => locked_first held tr
  end.

Lemma locked_first_app held a b :
  locked_first held a → locked_first (held || existsb (λ e, match e with Ev_Flock t => t | _ => false end) a) b →
  locked_first held (a ++ b).
Proof.
  revert held. induction a as [|e a IH]; intros held; simpl; [by rewrite orb_false_r|].
  destruct e; simpl; rewrite ?orb_assoc; intros Ha Hb; try (by apply IH). split; [tauto|]. apply IH; tauto.
Qed.

(** The events a computation appends. *)
Definition emits {E A} (m : M St E A) (Q : result A E → list HostEvent → Prop) : Prop :=
  ∀ s, ∃ tr, pc_trace (m s).2 = pc_trace s ++ tr ∧ Q (m s).1 tr.

Lemma emits_bind {E A B} (m : M St E A) (k : A → M St E B) Q R :
  emits m Q → (∀ a, emits (k a) (R a)) →
  emits (m ≫= k) (λ r tr, (∃ e, r = Err e ∧ Q (Err e) tr) ∨
    ∃ a t1 t2, tr = t1 ++ t2 ∧ Q (Ok a) t1 ∧ R a r t2).
Proof.
  intros Hm Hk s. destruct (Hm s) as (t1 & E1 & Hq). unfold mbind, M_bind.
  destruct (m s) as [[a|e] s']; simpl in *; [|by exists t1; eauto].
  destruct (Hk a s') as (t2 & E2 & Hr). exists (t1 ++ t2). rewrite E2, E1, <- app_assoc. split; [done|].
  right. eauto 10.
Qed.

Lemma emits_ladder reader :
  emits (connect_ladder reader) (λ r tr,
    Forall (λ e, ∃ p ok, e = Ev_Connect reader p ok) tr ∧ (1 ≤ length tr ≤ 3)%nat).
Proof.
  intros s. unfold connect_ladder, connect, host.
  destruct (sc_connect reader Proto_T1 (pc_host s)) as [[[]|e1] k1]; simpl.
  { eexists [_]. split; [done|]. split; [repeat constructor; eauto|simpl; lia]. }
  destruct (sc_connect reader Proto_RAW k1) as [[[]|e2] k2]; simpl.
  { eexists [_; _]. rewrite <- app_assoc. split; [done|]. split; [repeat constructor; eauto|simpl; lia]. }
  destruct (sc_connect reader Proto_T0 k2) as [[[]|e3] k3]; simpl;
    (eexists [_; _; _]; rewrite <- !app_assoc; split; [done|]; split; [repeat constructor; eauto|simpl; lia]).
Qed.

Lemma emits_acquire reason :
  emits (acquire env reason) (λ r tr,
    (tr = [] ∧ (is_ok r = true → env_skip_bench_lock env = true)) ∨
    (∃ taken, tr = [Ev_Flock taken] ∧ (is_ok r = true → taken = true))).
Proof.
  intros s. unfold acquire, host. destruct (env_skip_bench_lock env).
  { exists []. rewrite app_nil_r. split; [done|]. by left. }
  destruct (lock_open (pc_host s)) as [[[]|e] k1]; simpl.
  2:{ exists []. rewrite !app_nil_r. split; [done|]. by left. }
  destruct (lock_flock_ex_nb k1) as [[[]|e] k2]; simpl; rewrite app_nil_r;
    (eexists [_]; split; [done|]; right; eauto).
Qed.

Lemma locked_ladder reader tr held :
  Forall (λ e, ∃ p ok, e = Ev_Connect reader p ok) tr → held = true ∨ is_virtual reader = true →
  locked_first held tr.
Proof. induction 1 as [|e tr (p & o & ->) _ IH]; intros Hh; simpl; [done|]. auto. Qed.

Lemma emits_list : emits (list_readers (K := K)) (λ _ tr, tr = []).
Proof.
  intros s. exists []. unfold list_readers, host, mbind, M_bind.
  destruct (sc_establish (pc_host s)) as [[[]|e] k1]; simpl; [|by rewrite app_nil_r].
  destruct (sc_list_readers k1) as [r k2]; simpl. by rewrite !app_nil_r.
Qed.

(** What connecting may leave in the trace. *)
Definition discreet (r : result PcscTransport PcscError) (tr : list HostEvent) : Prop :=
  (length tr ≤ 4)%nat ∧
  (env_skip_bench_lock env = false → locked_first false tr) ∧
  Forall (λ e, match e with Ev_Connect _ _ _ | Ev_Flock _ => True | _ => False end) tr ∧
  (∃ reader, ∀ n p ok, Ev_Connect n p ok ∈ tr → n = reader) ∧
  (∀ t, r = Ok t → is_virtual (pt_reader_name t) = false → env_skip_bench_lock env = false →
     pt_bench_lock t = true).

Lemma discreet_nil e : discreet (Err e) [].
Proof.
  split; [simpl; lia|]. split; [done|]. split; [constructor|]. split; [|done].
  exists []. intros n p ok Hin. by apply not_elem_of_nil in Hin.
Qed.

Lemma discreet_flock e taken : discreet (Err e) [Ev_Flock taken].
Proof.
  split; [simpl; lia|]. split; [done|]. split; [by repeat constructor|]. split; [|done].
  exists []. intros n p ok Hin. by apply list_elem_of_singleton in Hin.
Qed.

(** After the lock ([pre]), the ladder on the selected reader. *)
Lemma discreet_ladder selected pre tr b r :
  0 ∉ selected → Forall (λ e, ∃ p ok, e = Ev_Connect (c_name selected) p ok) tr → (length tr ≤ 3)%nat →
  pre = [] ∧ (is_virtual selected = true ∨ env_skip_bench_lock env = true) ∨ pre = [Ev_Flock true] ∧ b = true →
  (∀ t, r = Ok t → pt_reader_name t = selected ∧ pt_bench_lock t = b) →
  discreet r (pre ++ tr).
Proof.
  intros H0 Htr Hl Hpre Hr. assert (c_name selected = selected) as Hc by (unfold c_name; by rewrite decide_False).
  rewrite Hc in Htr. split; [|split; [|split; [|split]]].
  - destruct Hpre as [[-> _]|[-> _]]; simpl; lia.
  - intros Hs. destruct Hpre as [[-> [Hv|?]]|[-> _]]; [|congruence|]; simpl; eapply locked_ladder; eauto.
  - assert (Forall (λ e, match e with Ev_Connect _ _ _ | Ev_Flock _ => True | _ => False end) tr) as Hf.
    { eapply Forall_impl; [done|]. by intros e (p & o & ->). }
    destruct Hpre as [[-> _]|[-> _]]; [done|]. by constructor.
  - exists selected. intros n p ok Hin. apply elem_of_app in Hin as [Hin|Hin].
    + destruct Hpre as [[-> _]|[-> _]]; [by apply not_elem_of_nil in Hin|by apply list_elem_of_singleton in Hin].
    + rewrite Forall_forall in Htr. destruct (Htr _ Hin) as (p' & o & E). by injection E.
  - intros t Ht Hv Hs. destruct (Hr t Ht) as [Hname ->]. rewrite Hname in Hv.
    destruct Hpre as [[_ [?|?]]|[_ ->]]; [congruence..|done].
Qed.

Lemma emits_selected selected : 0 ∉ selected → emits (connect_selected env selected) discreet.
Proof.
  intros H0 s. unfold connect_selected. unfold mret, M_ret, mbind, M_bind, lift_err.
  destruct (is_virtual selected) eqn:Hv.
  - destruct (emits_ladder (c_name selected) s) as (tr & E & Htr & Hl).
    destruct (connect_ladder (c_name selected) s) as [[p|e] s']; simpl in *; exists tr; (split; [done|]);
      (apply (discreet_ladder selected [] tr false); [done|done|lia|by left; auto|]).
    + intros t Ht. simpl in Ht. by injection Ht as <-.
    + done.
  - destruct (emits_acquire (default (lit "bolty-cli") (base_name <$> env_arg0 env)) s) as (t1 & E1 & Hq).
    destruct (acquire env _ s) as [[b|held] s1] eqn:Ea; simpl in *.
    2:{ exists t1. split; [done|]. destruct Hq as [[-> _]|(taken & -> & _)]; [apply discreet_nil|apply discreet_flock]. }
    destruct (emits_ladder (c_name selected) s1) as (tr & E & Htr & Hl).
    assert (t1 = [] ∧ (is_virtual selected = true ∨ env_skip_bench_lock env = true) ∨ t1 = [Ev_Flock true] ∧ b = true) as Hpre.
    { destruct Hq as [[-> Hq]|(taken & -> & Hq)]; [left; auto|right]. rewrite Hq by done. split; [done|].
      unfold acquire, host in Ea. repeat case_match; simplify_eq/=; try done.
      exfalso. clear -E1. apply (f_equal length) in E1. rewrite length_app in E1. simpl in E1. lia. }
    destruct (connect_ladder (c_name selected) s1) as [[p|e] s']; simpl in *; exists (t1 ++ tr);
      rewrite E, E1, <- app_assoc; (split; [done|]);
      (apply (discreet_ladder selected t1 tr b); [done|done|lia|done|]).
    + intros t Ht. simpl in Ht. by injection Ht as <-.
    + done.
Qed.

Lemma select_in names pin n : select_reader names pin = Ok n → n ∈ names.
Proof.
  unfold select_reader. destruct pin as [want|].
  - destruct (find_first _ _) eqn:E; simpl; [|done]. intros [= ->]. by apply find_first_some in E as [? _].
  - assert (∀ f x, find_first f (List.filter (λ n, negb (is_virtual n)) names) = Some x → x ∈ names) as Hf.
    { intros f x [Hx%elem_of_physical _]%find_first_some. tauto. }
    destruct (or_else _ _) as [x|] eqn:E; simpl; [|done]. intros [= ->]. unfold or_else in E.
    destruct (find_first (contains (lit "PICC")) _) eqn:E1; [injection E as ->; eauto|].
    destruct (find_first (λ n, negb (contains (lit "SAM") n)) _) eqn:E2; [injection E as ->; eauto|].
    assert (n ∈ List.filter (λ n, negb (is_virtual n)) names) as Hin%elem_of_physical; [|tauto].
    destruct (List.filter _ names); [done|]. injection E as ->. by left.
Qed.

Lemma list_names (HC : HostLaws H) (s : St) readers :
  (list_readers s).1 = Ok readers → Forall (λ n, 0 ∉ n) (reader_text <$> readers).
Proof.
  unfold list_readers, mbind, M_bind, host. destruct (sc_establish (pc_host s)) as [[[]|e] k1]; simpl; [|done].
  pose proof (law_list_readers k1) as Hl. unfold wp in Hl. destruct (sc_list_readers k1) as [r k2]; simpl in *.
  intros Hr. destruct r; [|done]. injection Hr as ->. specialize (Hl readers eq_refl).
  apply Forall_fmap. eapply Forall_impl; [done|]. intros n Hn. simpl. unfold reader_text.
  destruct (from_utf8 n) as [x|] eqn:Hu; simpl; [by apply from_utf8_id in Hu as ->|].
  apply (bool_decide_unpack _). by vm_compute.
Qed.

(** C21. No session touches a physical reader without the bench lock. Whatever the
    smart-card service and the lock file answer, connecting addresses one reader
    only, in at most four events (the lock and the connection attempts), sends no
    APDU, and, unless the lock was waived by the environment, connects to a physical
    reader only after the exclusive lock was taken; a transport on a physical reader
    holds the lock. *)
Theorem connect_with_locked (HC : HostLaws H) (pin : option (list Z)) (s : St) :
  let '(r, s') := connect_with env pin s in
  ∃ tr, pc_trace s' = pc_trace s ++ tr ∧ (length tr ≤ 4)%nat ∧
    (env_skip_bench_lock env = false → locked_first false tr) ∧
    Forall (λ e, match e with Ev_Connect _ _ _ | Ev_Flock _ => True | _ => False end) tr ∧
    (∃ reader, ∀ n p ok, Ev_Connect n p ok ∈ tr → n = reader) ∧
    (∀ t, r = Ok t → is_virtual (pt_reader_name t) = false → env_skip_bench_lock env = false →
       pt_bench_lock t = true).
Proof.
  unfold connect_with, mbind, M_bind.
  destruct (emits_list s) as (t0 & E0 & ->). pose proof (list_names HC s) as Hn. rewrite app_nil_r in E0.
  destruct (list_readers s) as [[readers|e] s1]; simpl in *; rewrite <- E0.
  2:{ exists []. rewrite app_nil_r. split; [done|]. apply discreet_nil. }
  destruct (select_reader _ _) as [selected|e] eqn:Esel.
  2:{ exists []. rewrite app_nil_r. split; [done|]. apply discreet_nil. }
  assert (0 ∉ selected) as H0.
  { specialize (Hn readers eq_refl). rewrite Forall_forall in Hn. by eapply Hn, select_in. }
  destruct (emits_selected selected H0 s1) as (tr & E & Hd).
  destruct (connect_selected env selected s1) as [r s2]. exists tr. done.
Qed.
End lock.

(** ** Exchanges *)

Section exchange.
  Context {K : Type} {H : Host K} (env : Env) (show_sc_error : ScError → list Z).

  Local Notation St := (Pc K).

(** A response is the raw answer cut before its last two bytes. *)
Lemma transmit_split apdu (s : St) :
  match transmit show_sc_error apdu s with
  | (Ok r, s') => (sc_transmit apdu (pc_host s)).1 = Ok (rsp_data r ++ [rsp_sw1 r; rsp_sw2 r])
  | (Err _, _) => ∀ raw, (sc_transmit apdu (pc_host s)).1 = Ok raw → (length raw < 2)%nat
  end ∧ pc_trace (transmit show_sc_error apdu s).2 = pc_trace s ++ [Ev_Apdu apdu].
Proof.
  unfold transmit, mbind, M_bind, host. destruct (sc_transmit apdu (pc_host s)) as [[raw|e] k]; simpl; [|done].
  case_decide as Hl; simpl; [by split; [intros ? [= <-]|]|]. split; [|done]. f_equal.
  rewrite <- (take_drop (length raw - 2) raw) at 1. f_equal.
  destruct (drop (length raw - 2) raw) as [|x [|y [|z l]]] eqn:Ed;
    try (apply (f_equal length) in Ed; rewrite length_drop in Ed; simpl in Ed; lia).
  assert (∀ i, nth (length raw - 2 + i) raw 0 = nth i [x; y] 0) as Hn.
  { intros i. rewrite <- Ed. rewrite <- nth_skipn. done. }
  pose proof (Hn 0%nat) as H0. pose proof (Hn 1%nat) as H1. simpl in H0, H1.
  rewrite Nat.add_0_r in H0. rewrite Nat.add_1_r in H1. by rewrite H0, H1.
Qed.

(** The override is decoded like any other hex text. *)
Lemma decode_override_hex u : uid_override env = Some u → ∃ s, env_uid_override env = Some s ∧
  decode_hex 7 (str_lower s) = Ok u.
Proof.
  unfold uid_override. destruct (env_uid_override env) as [s|]; simpl; [|done].
  destruct (bool_decide _ && _) eqn:Hc; [|done]. intros [= <-]. exists s. split; [done|].
  apply andb_true_iff in Hc as [Hl Hd]. apply bool_decide_eq_true in Hl.
  set (t := str_lower s) in *. clearbody t. rewrite decode_hex_eq, decide_False by lia.
  do 15 (destruct t as [|? t]; try done).
  cbn [forallb] in Hd. unfold is_hexdigit in Hd. repeat (rewrite andb_true_iff in Hd). rewrite !bool_decide_eq_true in Hd.
  destruct Hd as ((?&?)&(?&?)&(?&?)&(?&?)&(?&?)&(?&?)&(?&?)&(?&?)&(?&?)&(?&?)&(?&?)&(?&?)&(?&?)&(?&?)&_).
  cbn [hex_pairs]. unfold decode_override. cbn [seq fmap list_fmap]. cbn -[Z.lor Z.shiftl u8].
  repeat match goal with E : decode_hex_nibble ?c = Some ?n |- _ => rewrite E end. simpl.
  rewrite !shiftl_nibble by (eapply decode_hex_nibble_range; eassumption). done.
Qed.

(** Reading the UID leaves the card ready for native commands: without an
    override, a UID is returned only if the reader answered the pseudo-APDU with
    status 9000 and these bytes, and (unless the environment waived it) only after
    the card was reset and the NDEF application selected again, so that no other
    APDU can come in between; with an override no APDU is sent at all and the
    seven bytes are the override's hex decoding. *)
Theorem get_uid_reselects (t : PcscTransport) (s : St) :
  let '(r, s') := get_uid env show_sc_error t s in
  ∀ uid, r = Ok uid →
    match uid_override env with
    | Some u => uid = u ∧ s' = s ∧ ∃ text, env_uid_override env = Some text ∧ decode_hex 7 (str_lower text) = Ok u
    | None =>
        (sc_transmit GET_UID_APDU (pc_host s)).1 = Ok (uid ++ [0x90; 0x00]) ∧
        pc_trace s' = pc_trace s ++ [Ev_Apdu GET_UID_APDU] ++
          (if env_skip_ffca_reconnect env then [] else [Ev_Reconnect; Ev_Apdu SELECT_NDEF_APDU])
    end.
Proof.
  unfold get_uid. destruct (uid_override env) as [u|] eqn:Hu.
  { intros uid [= <-]. split; [done|]. split; [done|]. by apply decode_override_hex. }
  unfold mret, M_ret, mbind, M_bind. destruct (transmit_split GET_UID_APDU s) as [Hraw Htr].
  destruct (transmit show_sc_error GET_UID_APDU s) as [[resp|e] s1]; simpl in *; [|done].
  destruct (env_skip_ffca_reconnect env); simpl.
  - destruct (bool_decide (rsp_sw1 resp ≠ 0x90) || _) eqn:Hsw; [done|]. intros uid [= <-].
    apply orb_false_iff in Hsw as [H1 H2]. apply bool_decide_eq_false in H1, H2.
    assert (rsp_sw1 resp = 0x90) as E1 by lia. assert (rsp_sw2 resp = 0x00) as E2 by lia.
    rewrite E1, E2 in Hraw. done.
  - unfold attempt, host. destruct (sc_reconnect_reset (pt_protocol t) (pc_host s1)) as [rc k1]. simpl.
    destruct (sc_transmit SELECT_NDEF_APDU k1) as [[sel|e] k2]; simpl; [|done].
    destruct (bool_decide (rsp_sw1 resp ≠ 0x90) || _) eqn:Hsw; [done|]. intros uid [= <-].
    apply orb_false_iff in Hsw as [H1 H2]. apply bool_decide_eq_false in H1, H2.
    assert (rsp_sw1 resp = 0x90) as E1 by lia. assert (rsp_sw2 resp = 0x00) as E2 by lia.
    rewrite E1, E2 in Hraw. split; [done|]. simpl. rewrite Htr, <- !app_assoc. done.
Qed.
End exchange.

(** ** A simulated bench

    Two readers, one of them virtual; [sb_free] says whether the lock is free,
    [sb_card] which reader has a card. *)

Record SimBench : Type := mkSimBench { sb_readers : list (list Z); sb_free : bool; sb_card : list Z }.

#[export] Instance sim_host : Host SimBench := {|
  sc_establish k := (Ok (), k);
  sc_list_readers k := (Ok (List.filter (λ n, bool_decide (0 ∉ n)) (sb_readers k)), k);
  sc_connect reader p k :=
    (if decide (reader = sb_card k ∧ p = Proto_RAW) then Ok () else Err Sc_NoSmartcard, k);
  sc_disconnect_unpower k := (Ok (), k);
  sc_reconnect_reset _ k := (Ok (), k);
  sc_transmit _ k := (Ok [0x90; 0x00], k);
  lock_open k := (Ok (), k);
  lock_flock_ex_nb k := (Ok (sb_free k), mkSimBench (sb_readers k) false (sb_card k));
  lock_store _ k := k;
  lock_contents _ := lit "session: other" |}.

#[export] Instance sim_host_laws : HostLaws sim_host.
Proof.
  split. intros k l [= <-]. apply Forall_forall. intros n Hn.
  apply list_elem_of_In, filter_In in Hn as [_ Hn]. by apply bool_decide_eq_true in Hn.
Qed.

Definition acr : list Z := lit "ACS ACR1252 [PICC] 03 00".
Definition bench : SimBench := mkSimBench [lit "Virtual PICC vpcd 00 00"; acr] true acr.
Definition plain_env : Env := mkEnv None false None false (Some (lit "/usr/bin/bolty-cli")) 77 0.

Lemma connect_with_locked_witness :
  let '(r, s') := connect_with plain_env None (mkPc bench []) in
  r = Ok (mkTransport acr Proto_RAW true) ∧
  pc_trace s' = [Ev_Flock true; Ev_Connect acr Proto_T1 false; Ev_Connect acr Proto_RAW true] ∧
  locked_first false (pc_trace s').
Proof.
  pose proof (connect_with_locked plain_env sim_host_laws None (mkPc bench [])) as H.
  destruct (connect_with plain_env None (mkPc bench [])) as [r s'] eqn:E.
  destruct H as (tr & Ht & _ & Hl & _). simpl in Ht. rewrite Ht.
  assert (r = Ok (mkTransport acr Proto_RAW true) ∧
    pc_trace s' = [Ev_Flock true; Ev_Connect acr Proto_T1 false; Ev_Connect acr Proto_RAW true]) as [-> Htr]
    by (vm_compute in E; injection E as <- <-; vm_compute; split; reflexivity).
  split; [reflexivity|]. split; [congruence|]. apply Hl. reflexivity.
Defined.

(** The inventory of readers connects to physical readers without the lock. *)
Lemma inventory_unlocked :
  pc_trace (list_readers_with_presence (mkPc bench [])).2 =
    [Ev_Connect (lit "Virtual PICC vpcd 00 00") Proto_T1 false;
     Ev_Connect (lit "Virtual PICC vpcd 00 00") Proto_RAW false;
     Ev_Connect (lit "Virtual PICC vpcd 00 00") Proto_T0 false;
     Ev_Connect acr Proto_T1 false; Ev_Connect acr Proto_RAW true].
Proof. vm_compute. reflexivity. Qed.
