(* ===== verification/CliMain.v ===== *)
(** * The command line as a whole

    [apps/bolty-cli/src/main.rs]: arguments, the order in which a subcommand
    parses, connects and acts, and the exit code; with the remaining commands of
    [inspect.rs], [ver.rs], [uid.rs], [keyver.rs] and [set_card_uid.rs].  The
    commands themselves are those of [Cli] and [CliTools].  Printed text is not
    modelled; what a read-only command found out is its result. *)

From S2P Require Import Prelude Str Hex Derivation Assessment Picc Ndef NtagTypes Session Ntag NtagProofs Cli CliProofs CliTools Transport.

(** ** Arguments *)

Inductive Command : Type :=
| Readers
| Budget (log : option (list Z))
| Uid
| Ver
| Keyver (issuer_key : list Z) (version : Z)
| Inspect (issuer_key : option (list Z)) (version : Z) (verbose : bool)
| Url
| Burn (issuer_key url : list Z) (version : Z) (verbose dry_run : bool) (confirm_uid : option (list Z))
    (force : bool)
| Provision (proxy code : list Z) (verbose dry_run : bool) (confirm_uid : option (list Z)) (force : bool)
| Wipe (issuer_key raw_keys : option (list Z)) (version : Z) (verbose dry_run skip_preverify : bool)
    (confirm_uid : option (list Z))
| Cycle (issuer_key url : list Z) (version : Z) (verbose : bool)
| PiccCmd (issuer_key : list Z)
| Diagnose (issuer_key : list Z)
| DeriveKeys (uid issuer_key : list Z) (version : Z) (verbose : bool)
| F5Probe (force : bool)
| SetCardUid (uid : list Z)
| TryKey (key : list Z) (key_no attempts : Z)
| ScanKeys (issuer_key : list Z) (attempts : Z)
| ResetCard
| TestCk.

Record Args : Type := mkArgs { arg_json : bool; arg_reader : option (list Z); arg_command : Command }.

(** Why [run] failed: with a [PcscError] in its chain of causes, with text only,
    or inside a command. *)
Inductive RunError (TE : Type) : Type :=
| Run_Pcsc (e : PcscError)
| Run_Message (msg : list Z)
| Run_Cli (e : CliError TE).
Arguments Run_Pcsc {TE} _.
Arguments Run_Message {TE} _.
Arguments Run_Cli {TE} _.

Definition hex_error_text (e : HexError) : list Z :=
  match e with
  | InvalidLength => lit "hex string has invalid length"
  | InvalidHexCharacter => lit "hex string contains invalid character"
  end.

Definition parse_hex_16 {TE} (s : list Z) : result (list Z) (RunError TE) :=
  map_err (λ e, Run_Message (hex_error_text e)) (decode_hex 16 (trim s)).

Definition parse_hex_7 {TE} (s : list Z) : result (list Z) (RunError TE) :=
  map_err (λ e, Run_Message (hex_error_text e)) (decode_hex 7 (trim s)).

(** [o.map(f).transpose()?]. *)
Definition transpose {A B E} (f : A → result B E) (o : option A) : result (option B) E :=
  match o with
  | None => Ok None
  | Some a => match f a with Ok b => Ok (Some b) | Err e => Err e end
  end.

Fixpoint parse_key_parts {TE} (slot : nat) (parts : list (list Z)) : result (list (list Z)) (RunError TE) :=
  match parts with
  | [] => Ok []
  | part :: parts =>
      k ←? map_err (λ e, Run_Message (lit "--raw-keys: k" ++ show_uint (Z.of_nat slot) ++ lit ": " ++
             match e with Run_Message m => m | _ => [] end)) (parse_hex_16 (TE := TE) part);
      ks ←? parse_key_parts (S slot) parts;
      Ok (k :: ks)
  end.

Definition parse_raw_keyset {TE} (s : list Z) : result CardKeys (RunError TE) :=
  let parts := split_on 43 [] s in
  if decide (length parts ≠ 5%nat) then
    Err (Run_Message (lit "--raw-keys needs exactly 5 keys joined by '+' (k0+k1+k2+k3+k4), got " ++
      show_uint (Z.of_nat (length parts))))
  else
    parsed ←? parse_key_parts 0 parts;
    match parsed with
    | [a; b; c; d; e] => Ok (mkCardKeys a b c d e)
    | _ => Err (Run_Message (lit "--raw-keys: needed 5 keys"))
    end.

(** ** Exit codes *)

(** The causes [exit_code_for] looks for in the chain of an error. *)
Inductive Cause : Type := Cause_Pcsc (e : PcscError) | Cause_Hex (e : HexError) | Cause_Other.

Fixpoint exit_code_for (chain : list Cause) : Z :=
  match chain with
  | [] => 1
  | Cause_Pcsc NoReaders :: _ => 2
  | Cause_Pcsc (NoCardInReader _) :: _ => 3
  | Cause_Pcsc _ :: _ => 4
  | Cause_Hex _ :: _ => 5
  | Cause_Other :: chain => exit_code_for chain
  end.

(** [anyhow!("{e}")] keeps the text of an error and drops its type; a session
    error that wraps a transport error is transparent, its own type hides the
    transport's. *)
Definition chain_of {TE} (e : RunError TE) : list Cause :=
  match e with
  | Run_Pcsc e => [Cause_Pcsc e]
  | Run_Message _ => [Cause_Other]
  | Run_Cli (Cli_Session _ _) => [Cause_Other; Cause_Other]
  | Run_Cli _ => [Cause_Other]
  end.

(** [main]: the status the process exits with. *)
Definition exit_status {TE} (r : result () (RunError TE)) : Z :=
  match r with
  | Ok _ => 0
  | Err (Run_Cli (Cli_Exit code)) => code
  | Err e => exit_code_for (chain_of e)
  end.

(** ** uid.rs, inspect.rs, ver.rs, keyver.rs, set_card_uid.rs *)

Inductive UidFallback : Type := Placeholder | EnvOrBail.

Inductive AuthVerdict : Type := Auth_RngFailed | Auth_Ok | Auth_Delayed | Auth_Failed.

(** What [inspect] found: the version and settings if readable, the NDEF bytes,
    the decrypted SUN message with its MAC verdict, the K0 verdict. *)
Record InspectReport (TE : Type) : Type := mkInspectReport {
  ir_uid : list Z;
  ir_version : result Version (SessionError TE);
  ir_settings : result FileSettingsView (SessionError TE);
  ir_ndef : result (list Z) (SessionError TE);
  ir_url : option (list Z);
  ir_sdm : option (option (Picc.PiccData * bool));
  ir_auth : option AuthVerdict }.
Arguments mkInspectReport {TE} _ _ _ _ _ _ _.

(** [AsRef<[u8]> for Uid]. *)
Definition uid_bytes (uid : NtagTypes.Uid) : list Z :=
  match uid with Uid_Fixed b | Uid_Random b => b end.

(** [decrypt_and_display_sdm]: [None] when the URL carries no [p] and [c]. *)
Definition decrypt_sdm `{AesCrypto} (key1 key2 : AesKey) (parsed : NdefUri) :
    option (option (Picc.PiccData * bool)) :=
  p_hex ← nu_picc_hex parsed;
  c_hex ← nu_mac_hex parsed;
  Some (picc ← picc_decrypt_p key1 p_hex; Some (picc, picc_verify_c key2 picc c_hex)).

Section commands.
  Context {T TE : Type} {D : NtagDevice T TE} `{C : AesCrypto}.
  Context (rng : nat → option (list Z)).

  Local Notation P := (M (Cli T) (CliError TE)).

Definition uid_or_fallback (env_fallback : option (list Z)) (mode : UidFallback) : P (list Z) :=
  r ← attempt (on_dev (get_selected_uid session_default));
  match r with
  | Ok uid => mret (encode_hex (uid_bytes uid))
  | Err _ =>
      match mode with
      | Placeholder => mret (lit "(unreadable via this transport)")
      | EnvOrBail =>
          match env_fallback with
          | Some hex =>
              if decide (length hex = 14%nat) then mret (to_ascii_lowercase <$> hex)
              else fail (Cli_Bail (lit "UID unreadable via this transport"))
          | None => fail (Cli_Bail (lit "UID unreadable via this transport"))
          end
      end
  end.

Definition cmd_uid : P (list Z) :=
  uid ← lift_err (Cli_Session (lit "failed to read UID")) (on_dev (get_selected_uid session_default));
  mret (uid_to_fixed uid).

(** An unauthenticated read of the NDEF file: the bytes returned. *)
Definition read_ndef (session : USess) : P (result (list Z) (SessionError TE)) := λ s,
  let '(r, buf, _, t) := read_file_unauthenticated session 0 (replicate 256 0) (cli_dev s) in
  (Ok (match r with Ok len => Ok (take (Nat.min len (length buf)) buf) | Err e => Err e end),
   mkCli t (cli_draws s) (cli_failures s) (cli_audit s)).

Definition read_settings : P (result FileSettingsView (SessionError TE) * USess) := λ s,
  let '(r, session, t) := get_file_settings_u session_default (cli_dev s) in
  (Ok (r, session), mkCli t (cli_draws s) (cli_failures s) (cli_audit s)).

Definition cmd_url : P (list Z) :=
  r ← read_ndef session_default;
  match r with
  | Err e => fail (Cli_Session (lit "failed to read NDEF") e)
  | Ok data =>
      match parse_ndef_uri data with
      | None => fail (Cli_Bail (lit "NDEF content is not a valid URI record"))
      | Some parsed => mret (nu_url parsed)
      end
  end.

Definition authenticate_and_verify (key0 : AesKey) : P AuthVerdict :=
  rnd_a ← attempt (gen_rnd_a rng : P (list Z));
  match rnd_a with
  | Err _ => mret Auth_RngFailed
  | Ok rnd_a =>
      r ← attempt (on_dev (authenticate_aes session_default Key0 key0 rnd_a));
      mret (match r with
            | Ok _ => Auth_Ok
            | Err e => if is_session_auth_delay e then Auth_Delayed else Auth_Failed
            end)
  end.

Definition cmd_inspect (issuer_key : option (list Z)) (version : Z) : P (InspectReport TE) :=
  uid ← lift_err (Cli_Session (lit "failed to read UID")) (on_dev (get_selected_uid session_default));
  let uid_fixed := uid_to_fixed uid in
  v ← attempt (on_dev (get_version session_default));
  fs ← read_settings;
  ndef ← read_ndef fs.2;
  match ok ndef ≫= parse_ndef_uri with
  | None => mret (mkInspectReport uid_fixed v fs.1 ndef None None None)
  | Some parsed =>
      match issuer_key with
      | None => mret (mkInspectReport uid_fixed v fs.1 ndef (Some (nu_url parsed)) None None)
      | Some issuer_key =>
          let keys := derive_keys issuer_key uid_fixed version in
          let sdm := decrypt_sdm (ks_k1 keys) (ks_k2 keys) parsed in
          verdict ← authenticate_and_verify (ks_k0 keys);
          mret (mkInspectReport uid_fixed v fs.1 ndef (Some (nu_url parsed)) sdm (Some verdict))
      end
  end.

Definition cmd_ver : P (Version * bool) :=
  v ← lift_err (Cli_Session (lit "failed to read version")) (on_dev (get_version session_default));
  mret (v, bool_decide (hw_vendor_id v = 0x04 ∧ hw_type v = 0x04)).

Definition cmd_keyver (env_fallback : option (list Z)) (issuer_key : list Z) (version : Z) :
    P (list Z * AesKey) :=
  uid_hex ← uid_or_fallback env_fallback EnvOrBail;
  match uid_hex_to_fixed uid_hex with
  | None => fail (Cli_Bail (lit "bad fallback hex"))
  | Some uid_fixed => keyver_query rng issuer_key uid_fixed version
  end.

(** The applet helper sends one raw APDU, [INS 52], after authenticating. *)
Definition cmd_set_card_uid (raw_transmit : list Z → M T TE Response) (uid_hex : list Z) : P unit :=
  match decode_hex 7 (trim uid_hex) with
  | Err e => fail (Cli_Bail (lit "uid: " ++ hex_error_text e))
  | Ok uid =>
      _ ← lift_err (Cli_Session []) (on_dev (get_selected_uid session_default));
      rnd_a ← gen_rnd_a rng;
      _ ← lift_err (Cli_Session (lit "factory K0 auth failed (card must be BLANK for this helper)"))
        (on_dev (authenticate_aes session_default Key0 (replicate 16 0) rnd_a));
      resp ← lift_err (λ _, Cli_Bail (lit "transmit 0x52"))
        (on_dev (raw_transmit ([0x90; 0x52; 0x00; 0x00; 0x07] ++ uid)));
      if decide (rsp_sw1 resp = 0x91 ∧ rsp_sw2 resp = 0x00) then mret tt
      else fail (Cli_Bail (lit "SetCardUid failed"))
  end.
End commands.

(** ** run *)

(** The process: the reader pin, the connection once there is one, and how often
    a connection was attempted. *)
Record Process (T : Type) : Type := mkProcess {
  pr_pin : option (list Z);
  pr_cli : option (Cli T);
  pr_connects : nat;
  pr_codes : nat }.
Arguments mkProcess {T} _ _ _ _.
Arguments pr_pin {T} _.
Arguments pr_cli {T} _.
Arguments pr_connects {T} _.
Arguments pr_codes {T} _.

(** [Wipe]: exactly one key source, parsed. *)
Definition wipe_source {TE} (issuer_key raw_keys : option (list Z)) : result WipeKeySource (RunError TE) :=
  match issuer_key, raw_keys with
  | Some ik, None => ik ←? parse_hex_16 ik; Ok (Wipe_Issuer ik)
  | None, Some rk => raw ←? parse_raw_keyset rk; Ok (Wipe_Raw raw)
  | None, None => Err (Run_Message (lit "wipe requires --issuer-key or --raw-keys"))
  | Some _, Some _ => Err (Run_Message (lit "--issuer-key and --raw-keys are mutually exclusive"))
  end.

Section run.
  Context {T TE : Type} {D : NtagDevice T TE} `{C : AesCrypto}.
  Context {V : Type} (verify_sdm : Sdm → list Z → AesKey → AesKey → option V).
  Context (sdm_url_config : list Z → CryptoMode → SdmUrlOptions → result SdmUrlConfig SdmUrlError).
  Context (rng : nat → option (list Z)) (assume_ntag424 : bool) (uid_fallback : option (list Z)).
  (** The reader behind [connect_with], the inventory, the audit log file, the
      proxy and the raw exchange of the transport. *)
  Context (open_reader : option (list Z) → result T PcscError)
    (inventory : result (list ReaderStatus) PcscError)
    (read_log : option (list Z) → option (list Z))
    (fetch : list Z → option (list Z))
    (from_json : list Z → option ProvisionResponse)
    (raw_transmit : list Z → M T TE Response).

  Local Notation R := (M (Process T) (RunError TE)).

Definition pure {A} (r : result A (RunError TE)) : R A := λ s, (r, s).

Definition connect_transport : R unit := λ s,
  match open_reader (pr_pin s) with
  | Err e => (Err (Run_Pcsc e), mkProcess (pr_pin s) (pr_cli s) (S (pr_connects s)) (pr_codes s))
  | Ok t => (Ok tt, mkProcess (pr_pin s) (Some (mkCli t 0 0 [])) (S (pr_connects s)) (pr_codes s))
  end.

(** A command on the connected transport. *)
Definition command {A} (m : M (Cli T) (CliError TE) A) : R unit := λ s,
  match pr_cli s with
  | None => (Ok tt, s)
  | Some c =>
      let '(r, c) := m c in
      (match r with Ok _ => Ok tt | Err e => Err (Run_Cli e) end,
       mkProcess (pr_pin s) (Some c) (pr_connects s) (pr_codes s))
  end.

(** [fetch_provision_keys] consumes the one-time code. *)
Definition fetch_provision_keys (proxy code : list Z) : R ProvisionKeys := λ s,
  match provision_request_url proxy code with
  | None => (Err (Run_Message (lit "one-time code must be non-empty alphanumeric")), s)
  | Some url =>
      let s := mkProcess (pr_pin s) (pr_cli s) (pr_connects s) (S (pr_codes s)) in
      match fetch url with
      | None => (Err (Run_Message (lit "request failed")), s)
      | Some body => (map_err (λ _, Run_Message (lit "provisioning response rejected"))
                        (parse_provision_response from_json body), s)
      end
  end.

Definition cycle_burn (issuer_key url : list Z) (version : Z) (verbose : bool) : M (Cli T) (CliError TE) unit :=
  cmd_burn sdm_url_config rng assume_ntag424 issuer_key url (mkBurnOptions version verbose false None false).

Definition run_burn (issuer_key url : list Z) (version : Z) (verbose dry_run : bool)
    (confirm_uid : option (list Z)) (force : bool) : R unit :=
  ik ← pure (parse_hex_16 issuer_key);
  cu ← pure (transpose parse_hex_7 confirm_uid);
  connect_transport ;;
  command (cmd_burn sdm_url_config rng assume_ntag424 ik url (mkBurnOptions version verbose dry_run cu force)).

Definition run_provision (proxy code : list Z) (verbose dry_run : bool) (confirm_uid : option (list Z))
    (force : bool) : R unit :=
  cu ← pure (transpose parse_hex_7 confirm_uid);
  provisioned ← fetch_provision_keys proxy code;
  if dry_run then mret tt
  else
    connect_transport ;;
    command (burn_provisioned sdm_url_config rng assume_ntag424 provisioned verbose cu force).

Definition run_wipe (issuer_key raw_keys : option (list Z)) (version : Z)
    (verbose dry_run skip_preverify : bool) (confirm_uid : option (list Z)) : R unit :=
  cu ← pure (transpose parse_hex_7 confirm_uid);
  source ← pure (wipe_source issuer_key raw_keys);
  connect_transport ;;
  command (cmd_wipe rng assume_ntag424 source version (mkWipeOptions verbose dry_run skip_preverify cu)).

Definition run_cycle (issuer_key url : list Z) (version : Z) (verbose : bool) : R unit :=
  ik ← pure (parse_hex_16 issuer_key);
  connect_transport ;;
  command (cycle_burn ik url version verbose) ;;
  command (cmd_wipe rng assume_ntag424 (Wipe_Issuer ik) version (mkWipeOptions verbose false false None)) ;;
  command (cycle_burn ik url version verbose).

(** The keys [derive-keys] prints. *)
Definition derived_output (uid issuer_key : list Z) (version : Z) : result CardKeySet (RunError TE) :=
  u ←? parse_hex_7 uid;
  ik ←? parse_hex_16 issuer_key;
  Ok (derive_keys ik u version).

Definition run (cmd : Command) : R unit :=
  match cmd with
  | SetCardUid uid => connect_transport ;; command (cmd_set_card_uid rng raw_transmit uid)
  | F5Probe force => connect_transport ;; command (cmd_f5probe rng force)
  | Readers => pure (match inventory with Ok _ => Ok tt | Err _ => Err (Run_Message (lit "PCSC error")) end)
  | Budget log =>
      pure (match read_log log with
            | Some _ => Ok tt
            | None => Err (Run_Message (lit "cannot read audit log"))
            end)
  | Uid => connect_transport ;; command (cmd_uid (TE := TE))
  | Ver => connect_transport ;; command (cmd_ver (TE := TE))
  | Keyver issuer_key version =>
      ik ← pure (parse_hex_16 issuer_key);
      connect_transport ;; command (cmd_keyver rng uid_fallback ik version)
  | Inspect issuer_key version _ =>
      connect_transport ;;
      ik ← pure (transpose parse_hex_16 issuer_key);
      command (cmd_inspect rng ik version)
  | Url => connect_transport ;; command (cmd_url (TE := TE))
  | Burn issuer_key url version verbose dry_run confirm_uid force =>
      run_burn issuer_key url version verbose dry_run confirm_uid force
  | Provision proxy code verbose dry_run confirm_uid force =>
      run_provision proxy code verbose dry_run confirm_uid force
  | Wipe issuer_key raw_keys version verbose dry_run skip_preverify confirm_uid =>
      run_wipe issuer_key raw_keys version verbose dry_run skip_preverify confirm_uid
  | PiccCmd issuer_key =>
      ik ← pure (parse_hex_16 issuer_key);
      connect_transport ;; command (cmd_picc (TE := TE) ik)
  | Diagnose issuer_key =>
      ik ← pure (parse_hex_16 issuer_key);
      connect_transport ;; command (cmd_diagnose verify_sdm rng ik)
  | DeriveKeys uid issuer_key version _ => keys ← pure (derived_output uid issuer_key version); mret tt
  | Cycle issuer_key url version verbose => run_cycle issuer_key url version verbose
  | TryKey key key_no attempts =>
      k ← pure (parse_hex_16 key);
      connect_transport ;; command (cmd_try_key rng k key_no attempts)
  | ScanKeys issuer_key attempts =>
      ik ← pure (parse_hex_16 issuer_key);
      connect_transport ;; command (cmd_scan_keys rng ik attempts)
  | ResetCard => connect_transport ;; command (cmd_try_key rng (replicate 16 0) 0 20)
  | TestCk => connect_transport ;; command (cmd_testck rng)
  end.

Definition main (args : Args) : Z * Process T :=
  let '(r, s) := run (arg_command args) (mkProcess (arg_reader args) None 0 0) in
  (exit_status r, s).
End run.
