(* ===== verification/CliMainProofs.v ===== *)
(** * The command line as a whole: properties

    What holds of every run of the command line: malformed arguments are
    refused before anything is contacted, the commands that only read leave the
    card alone, the exit status says what went wrong, and a completed [cycle]
    leaves the card provisioned with the derived keys. *)

From S2P Require Import Prelude Str Hex Derivation Assessment Picc Ndef NtagTypes Session Ntag NtagProofs Cli CliProofs CliTools Transport CliMain.

(** ** Commands that stay within a relation

    [obeys R ok m]: every run of [m] relates its states by [R], and fails only
    with an error [ok] accepts. *)

Section obeys.
  Context {S E : Type} (R : S → S → Prop) `{!PreOrder R} (ok : E → Prop).

Definition obeys {A} (m : M S E A) : Prop :=
  ∀ s, R s (m s).2 ∧ ∀ e, (m s).1 = Err e → ok e.

Lemma obeys_ret {A} (a : A) : obeys (mret a).
Proof. intros s. split; [reflexivity|]. by intros e [=]. Qed.

Lemma obeys_fail {A} (e : E) : ok e → obeys (fail (A := A) e).
Proof. intros He s. split; [reflexivity|]. by intros e' [= <-]. Qed.

Lemma obeys_bind {A B} (m : M S E A) (k : A → M S E B) :
  obeys m → (∀ a, obeys (k a)) → obeys (m ≫= k).
Proof.
  intros Hm Hk s. unfold mbind, M_bind. destruct (Hm s) as [HR He].
  destruct (m s) as [[a|e] s1]; cbn [fst snd] in *.
  - destruct (Hk a s1) as [HR' He']. split; [by etrans|done].
  - split; [done|]. intros e' [= <-]. by apply He.
Qed.

Lemma obeys_attempt {F A} (m : M S F A) : (∀ s, R s (m s).2) → obeys (attempt m).
Proof. intros Hm s. specialize (Hm s). unfold attempt. destruct (m s). by split. Qed.

Lemma obeys_lift {F A} (f : F → E) (m : M S F A) :
  (∀ s, R s (m s).2) → (∀ e, ok (f e)) → obeys (lift_err f m).
Proof.
  intros Hm Hf s. specialize (Hm s). unfold lift_err. destruct (m s) as [[a|e] s1]; split;
    try done; intros e' [= <-]; apply Hf.
Qed.

(** A failure that is inspected keeps what is known about it. *)
Lemma obeys_attempt_bind {A B} (m : M S E A) (k : result A E → M S E B) :
  obeys m → (∀ a, obeys (k (Ok a))) → (∀ e, ok e → obeys (k (Err e))) → obeys (attempt m ≫= k).
Proof.
  intros Hm Hk He s. unfold mbind, M_bind, attempt. destruct (Hm s) as [HR Hs].
  destruct (m s) as [[a|e] s1]; cbn [fst snd] in *.
  - destruct (Hk a s1). split; [by etrans|done].
  - destruct (He e (Hs _ eq_refl) s1). split; [by etrans|done].
Qed.
End obeys.

Create HintDb obeys.
#[export] Hint Resolve obeys_ret : obeys.

(** The codes a command may exit with on its own. *)
Definition exits {TE} (e : CliError TE) : Prop :=
  match e with Cli_Exit code => code = 1 ∨ code = 6 | _ => True end.

Section primitives.
  Context {T TE : Type} {D : NtagDevice T TE} {L : NtagLaws D}.
  Context (rng : nat → option (list Z)).

Definition same_card (s s' : Cli T) : Prop := dcard s' = dcard s.

#[export] Instance same_card_preorder : PreOrder same_card.
Proof. unfold same_card. split; [done|]. intros x y z ??. congruence. Qed.

  Local Notation keeps := (obeys same_card (exits (TE := TE))).

Lemma dev_same {F A} (m : M T F A) :
  (∀ w, wp m (λ _ w', card w' = card w) w) → ∀ s, same_card s (on_dev m s).2.
Proof.
  intros H s. unfold same_card, dcard, on_dev. specialize (H (cli_dev s)). unfold wp in H.
  by destruct (m (cli_dev s)).
Qed.

Lemma uid_same (s : Cli T) : same_card s (on_dev (get_selected_uid session_default) s).2.
Proof. apply dev_same. intros w. eapply wp_mono; [apply law_uid|]. by intros r w' []. Qed.

Lemma version_same (s : Cli T) : same_card s (on_dev (get_version session_default) s).2.
Proof. apply dev_same. intros w. eapply wp_mono; [apply law_version|]. by intros r w' []. Qed.

Lemma auth_same slot key rnd (s : Cli T) :
  same_card s (on_dev (authenticate_aes session_default slot key rnd) s).2.
Proof. apply dev_same. intros w. eapply wp_mono; [apply law_auth|]. by intros r w' []. Qed.

Lemma versions_same key rnd (s : Cli T) : same_card s (on_dev (check_key_versions key rnd) s).2.
Proof. apply dev_same. intros w. eapply wp_mono; [apply check_key_versions_spec|]. by intros r w' []. Qed.

Lemma keeps_gen_rnd_a : keeps (gen_rnd_a rng).
Proof. intros s. split; [done|]. unfold gen_rnd_a. simpl. by destruct (rng _); intros e [= <-]. Qed.

Lemma keeps_log_event ev p : keeps (log_event ev p).
Proof. intros s. by split. Qed.

Lemma keeps_record : keeps record_auth_failure.
Proof.
  intros s. split; [done|]. unfold record_auth_failure. simpl. case_decide; intros e [= <-].
  by right.
Qed.
End primitives.

#[export] Hint Resolve uid_same version_same auth_same versions_same keeps_gen_rnd_a
  keeps_log_event keeps_record : obeys.
#[export] Hint Extern 1 (exits _) => exact I : obeys.

(** One step through a command: the continuation's cases are left to the caller. *)
Ltac obey :=
  repeat first
    [ progress intros
    | solve [auto with obeys typeclass_instances]
    | apply obeys_bind
    | apply obeys_attempt
    | apply obeys_lift
    | apply obeys_fail
    | progress cbn beta iota zeta
    | case_match ].

(** ** The commands that only read *)

Section readers.
  Context {T TE : Type} {D : NtagDevice T TE} {L : NtagLaws D} `{C : AesCrypto}.
  Context {V : Type} (verify_sdm : Sdm → list Z → AesKey → AesKey → option V).
  Context (rng : nat → option (list Z)).

  Local Notation keeps := (obeys (same_card (T := T)) (exits (TE := TE))).

Lemma read_ndef_same session : keeps (read_ndef session).
Proof.
  intros s. unfold same_card, dcard, read_ndef.
  pose proof (law_read_u session 0 (replicate 256 0) (cli_dev s)) as H.
  destruct (read_file_unauthenticated _ _ _ _) as [[[r buf] us] t]. destruct H as [Hc _].
  by split.
Qed.

Lemma read_settings_same : keeps read_settings.
Proof.
  intros s. unfold same_card, dcard, read_settings.
  pose proof (law_file_settings_u session_default (cli_dev s)) as H.
  destruct (get_file_settings_u _ _) as [[r us] t]. destruct H as [Hc _]. by split.
Qed.

Lemma read_signals_same : keeps read_signals.
Proof.
  intros s. apply (wp_read_signals (λ r s', same_card s s' ∧ ∀ e, r = Err e → exits e)).
  intros sg s' [Hc _] _. by split.
Qed.

Lemma picc_read_same ik uid : keeps (picc_read ik uid).
Proof.
  intros s. unfold same_card, dcard, picc_read.
  pose proof (law_read_u session_default 0 (replicate 256 0) (cli_dev s)) as H.
  destruct (read_file_unauthenticated _ _ _ _) as [[[r buf] us] t]. destruct H as [Hc _].
  split; [done|]. cbn [fst]. destruct r as [n|e]; [destruct (picc_verdict _ _ _)|]; by intros ? [= <-].
Qed.
End readers.

#[export] Hint Resolve read_ndef_same read_settings_same read_signals_same picc_read_same : obeys.

Section readers_commands.
  Context {T TE : Type} {D : NtagDevice T TE} {L : NtagLaws D} `{C : AesCrypto}.
  Context {V : Type} (verify_sdm : Sdm → list Z → AesKey → AesKey → option V).
  Context (rng : nat → option (list Z)).

  Local Notation keeps := (obeys (same_card (T := T)) (exits (TE := TE))).

Lemma cmd_uid_same : keeps cmd_uid.
Proof. unfold cmd_uid. obey. Qed.

Lemma cmd_ver_same : keeps cmd_ver.
Proof. unfold cmd_ver. obey. Qed.

Lemma cmd_url_same : keeps cmd_url.
Proof. unfold cmd_url. obey. Qed.

Lemma cmd_picc_same ik : keeps (cmd_picc ik).
Proof. unfold cmd_picc. obey. Qed.

Lemma keyver_query_same ik uid v : keeps (keyver_query rng ik uid v).
Proof. unfold keyver_query. obey. Qed.

Lemma uid_or_fallback_same env mode : keeps (uid_or_fallback env mode).
Proof. unfold uid_or_fallback. obey. Qed.

Lemma authenticate_and_verify_same k : keeps (authenticate_and_verify rng k).
Proof.
  unfold authenticate_and_verify. apply obeys_attempt_bind; [apply _|auto with obeys|..]; obey.
Qed.

Lemma probe_once_same k : keeps (probe_once rng k).
Proof. unfold probe_once. obey. Qed.

Lemma try_auth_same n k : keeps (try_auth rng n k).
Proof.
  induction n as [|n IH]; cbn [try_auth]; [obey|].
  apply obeys_attempt_bind; [apply _|auto with obeys|..]; obey.
Qed.

Lemma try_key_loop_same n t k : keeps (try_key_loop rng n t k).
Proof. induction n as [|n IH]; cbn [try_key_loop]; obey. Qed.
End readers_commands.

#[export] Hint Resolve cmd_uid_same cmd_ver_same cmd_url_same cmd_picc_same keyver_query_same
  uid_or_fallback_same authenticate_and_verify_same probe_once_same try_auth_same
  try_key_loop_same : obeys.

Section survey_commands.
  Context {T TE : Type} {D : NtagDevice T TE} {L : NtagLaws D} `{C : AesCrypto}.
  Context {V : Type} (verify_sdm : Sdm → list Z → AesKey → AesKey → option V).
  Context (rng : nat → option (list Z)).

  Local Notation keeps := (obeys (same_card (T := T)) (exits (TE := TE))).

Lemma cmd_inspect_same ik v : keeps (cmd_inspect rng ik v).
Proof. unfold cmd_inspect. obey. Qed.

Lemma cmd_keyver_same env ik v : keeps (cmd_keyver rng env ik v).
Proof. unfold cmd_keyver. obey. Qed.

Lemma cmd_diagnose_same ik : keeps (cmd_diagnose verify_sdm rng ik).
Proof. unfold cmd_diagnose. obey. Qed.

Lemma scan_candidates_same n l : keeps (scan_candidates rng n l).
Proof. induction l as [|[label k] l IH]; cbn [scan_candidates]; obey. Qed.

Lemma cmd_scan_keys_same ik n : keeps (cmd_scan_keys rng ik n).
Proof. unfold cmd_scan_keys. pose proof scan_candidates_same. obey. Qed.

Lemma cmd_try_key_same k n a : keeps (cmd_try_key rng k n a).
Proof. unfold cmd_try_key. obey. Qed.
End survey_commands.

(** ** Every command: how it may exit *)

Definition anything {S} (_ _ : S) : Prop := True.

#[export] Instance anything_preorder {S} : PreOrder (anything (S := S)).
Proof. by split. Qed.

#[export] Hint Extern 1 (anything _ _) => exact I : obeys.

Lemma obeys_anything {S E A} (R : S → S → Prop) (ok : E → Prop) (m : M S E A) :
  obeys R ok m → obeys anything ok m.
Proof. intros H s. split; [done|]. apply H. Qed.

Section exit_commands.
  Context {T TE : Type} {D : NtagDevice T TE} {L : NtagLaws D} `{C : AesCrypto}.
  Context (sdm_url_config : list Z → CryptoMode → SdmUrlOptions → result SdmUrlConfig SdmUrlError).
  Context (rng : nat → option (list Z)) (assume : bool).

  Local Notation runs := (obeys (anything (S := Cli T)) (exits (TE := TE))).

Lemma runs_gen_rnd_a : runs (gen_rnd_a rng).
Proof. eapply obeys_anything; auto with obeys. Qed.
Lemma runs_log_event ev p : runs (log_event ev p).
Proof. by eapply obeys_anything, keeps_log_event. Qed.
Lemma runs_record : runs record_auth_failure.
Proof. by eapply obeys_anything, keeps_record. Qed.
Hint Resolve runs_gen_rnd_a runs_log_event runs_record : obeys.

Lemma runs_auth_loop {A} fuel slot key (acc : A) exh rej n :
  exits exh → runs rej → runs (auth_loop rng fuel slot key acc exh rej n).
Proof. intros He Hr. revert n. induction fuel as [|fuel IH]; intros n; cbn [auth_loop]; obey. Qed.

Lemma runs_probe_key k : runs (probe_key rng k).
Proof. apply runs_auth_loop; [done|]. obey. Qed.

Lemma runs_auth_slot slot k : runs (authenticate_slot_with_retry rng slot k).
Proof. apply runs_auth_loop; [done|]. obey. Qed.

Lemma runs_pre_verify keys uid : runs (pre_verify_pc keys uid).
Proof.
  intros s. split; [done|]. unfold pre_verify_pc. destruct (read_file_unauthenticated _ _ _ _) as [[[r b] u] t].
  cbn [fst]. destruct r as [n|e]; [destruct (pre_verify_data _ _ _)|]; by intros ? [= <-].
Qed.

Lemma runs_verify_slots l : runs (verify_slots rng l).
Proof. pose proof runs_auth_slot. induction l as [|[slot k] l IH]; cbn [verify_slots]; obey. Qed.

Lemma runs_confirm o uid msg : runs (confirm o uid msg).
Proof. unfold confirm. obey. Qed.
Hint Resolve runs_probe_key runs_auth_slot runs_pre_verify runs_verify_slots runs_confirm : obeys.

Lemma runs_wipe_gates src keys prov uid skip : runs (wipe_gates rng src keys prov uid skip).
Proof.
  unfold wipe_gates. apply obeys_bind; [apply _|obey|]. intros _.
  apply obeys_attempt_bind; [apply _|auto with obeys|..]; obey.
Qed.

Lemma runs_factory_check : runs (wipe_factory_check rng).
Proof. unfold wipe_factory_check. obey. Qed.

Lemma runs_current_keys keys prov : runs (burn_current_keys rng keys prov).
Proof. unfold burn_current_keys. obey. Qed.
Hint Resolve runs_wipe_gates runs_factory_check runs_current_keys : obeys.

Lemma runs_burn_card keys url opts prov : runs (burn_card sdm_url_config rng assume keys url opts prov).
Proof. unfold burn_card. pose proof @runs_auth_loop. obey. Qed.

Lemma runs_cmd_burn ik url opts : runs (cmd_burn sdm_url_config rng assume ik url opts).
Proof. unfold cmd_burn. pose proof runs_burn_card. obey. Qed.

Lemma runs_cmd_wipe src v opts : runs (cmd_wipe rng assume src v opts).
Proof. unfold cmd_wipe. obey. Qed.

Lemma runs_testck : runs (cmd_testck rng).
Proof. unfold cmd_testck. obey. Qed.

Lemma runs_f5probe force : runs (cmd_f5probe rng force).
Proof. unfold cmd_f5probe. obey; by left. Qed.

Lemma runs_set_card_uid raw uid : runs (cmd_set_card_uid rng raw uid).
Proof. unfold cmd_set_card_uid. obey. Qed.
End exit_commands.

(** ** Arguments *)

(** A hexadecimal argument of [n] bytes, surrounded by white space or not. *)
Definition hex_arg (n : nat) (s : list Z) : bool :=
  bool_decide (length (trim s) = n * 2)%nat && forallb is_hexdigit (trim s).

Definition opt_arg (f : list Z → bool) (o : option (list Z)) : bool := from_option f true o.

(** Five keys joined by plus signs. *)
Definition keyset_arg (s : list Z) : bool :=
  let parts := split_on 43 [] s in
  bool_decide (length parts = 5%nat) && forallb (hex_arg 16) parts.

(** The arguments a subcommand checks before it does anything else; [inspect]
    and [set-card-uid] check theirs only after connecting. *)
Definition well_formed (cmd : Command) : bool :=
  match cmd with
  | Keyver ik _ | PiccCmd ik | Diagnose ik | ScanKeys ik _ | Cycle ik _ _ _ => hex_arg 16 ik
  | TryKey k _ _ => hex_arg 16 k
  | Burn ik _ _ _ _ cu _ => hex_arg 16 ik && opt_arg (hex_arg 7) cu
  | Provision _ code _ _ cu _ =>
      opt_arg (hex_arg 7) cu && negb (bool_decide (code = [])) && forallb is_ascii_alphanumeric code
  | Wipe ik rk _ _ _ _ cu =>
      opt_arg (hex_arg 7) cu &&
      match ik, rk with
      | Some ik, None => hex_arg 16 ik
      | None, Some rk => keyset_arg rk
      | _, _ => false
      end
  | DeriveKeys uid ik _ _ => hex_arg 7 uid && hex_arg 16 ik
  | _ => true
  end.

(** The subcommands that connect to the card once their arguments are fine,
    whatever else happens. *)
Definition contacts (cmd : Command) : bool :=
  match cmd with
  | Readers | Budget _ | DeriveKeys _ _ _ _ | Provision _ _ _ _ _ _ => false
  | _ => true
  end.

(** The subcommands that must not change a card. *)
Definition reads_only (cmd : Command) : bool :=
  match cmd with
  | Burn _ _ _ _ _ _ _ | Provision _ _ _ _ _ _ | Wipe _ _ _ _ _ _ _ | Cycle _ _ _ _
  | F5Probe _ | SetCardUid _ | TestCk => false
  | _ => true
  end.

Definition is_message {A TE} (r : result A (RunError TE)) : Prop := ∃ m, r = Err (Run_Message m).

Lemma hex_pairs_digits hex :
  Nat.even (length hex) = true →
  bool_decide (is_Some (hex_pairs hex)) = forallb is_hexdigit hex.
Proof.
  induction hex as [|c|c0 c1 hex IH] using pairs_ind; intros Hlen; [done|done|].
  cbn [forallb hex_pairs]. rewrite <-(IH Hlen). unfold is_hexdigit.
  destruct (decode_hex_nibble c0); [|done]. destruct (decode_hex_nibble c1); [|done].
  by destruct (hex_pairs hex).
Qed.

Lemma decode_hex_arg n s : is_ok (decode_hex n (trim s)) = hex_arg n s.
Proof.
  rewrite decode_hex_eq. unfold hex_arg. case_decide as Hn.
  - by rewrite bool_decide_eq_false_2.
  - assert (length (trim s) = n * 2)%nat as Hl by lia.
    rewrite bool_decide_eq_true_2 by done. simpl. rewrite <-hex_pairs_digits.
    + by destruct (hex_pairs (trim s)).
    + rewrite Hl, Nat.even_mul. apply orb_true_r.
Qed.

(** Parsing succeeds on well-formed arguments and fails with a message on others. *)
Definition parses {A TE} (b : bool) (r : result A (RunError TE)) : Prop :=
  if b then is_ok r = true else is_message r.

Lemma parse_hex_16_parses {TE} s : parses (hex_arg 16 s) (parse_hex_16 (TE := TE) s).
Proof.
  unfold parses, is_message, parse_hex_16. rewrite <-decode_hex_arg.
  destruct (decode_hex 16 (trim s)); simpl; [done|]. eauto.
Qed.

Lemma parse_hex_7_parses {TE} s : parses (hex_arg 7 s) (parse_hex_7 (TE := TE) s).
Proof.
  unfold parses, is_message, parse_hex_7. rewrite <-decode_hex_arg.
  destruct (decode_hex 7 (trim s)); simpl; [done|]. eauto.
Qed.

Lemma transpose_parses {A TE} g (f : list Z → result A (RunError TE)) o :
  (∀ s, parses (g s) (f s)) → parses (opt_arg g o) (transpose f o).
Proof.
  intros H. destruct o as [s|]; [|done]. simpl. specialize (H s). unfold parses, is_message in *.
  destruct (g s), (f s); naive_solver.
Qed.

Lemma parse_key_parts_spec {TE} slot parts :
  if forallb (hex_arg 16) parts
  then ∃ ks, parse_key_parts (TE := TE) slot parts = Ok ks ∧ length ks = length parts
  else is_message (parse_key_parts (TE := TE) slot parts).
Proof.
  revert slot. induction parts as [|p parts IH]; intros slot; simpl; [by exists []|].
  pose proof (parse_hex_16_parses (TE := TE) p) as Hp. specialize (IH (S slot)).
  unfold parses in Hp. destruct (hex_arg 16 p); simpl.
  - destruct (parse_hex_16 p) as [k|]; [|done]. simpl. destruct (forallb _ parts).
    + destruct IH as (ks & -> & Hl). simpl. eexists. split; [done|]. simpl. lia.
    + destruct IH as [m ->]. by exists m.
  - destruct Hp as [m ->]. simpl. eexists. done.
Qed.

Lemma parse_raw_keyset_parses {TE} s : parses (keyset_arg s) (parse_raw_keyset (TE := TE) s).
Proof.
  unfold keyset_arg, parse_raw_keyset. case_decide as Hl.
  { rewrite bool_decide_eq_false_2 by done. by eexists. }
  rewrite bool_decide_eq_true_2 by lia. simpl.
  pose proof (parse_key_parts_spec (TE := TE) 0 (split_on 43 [] s)) as H.
  destruct (forallb _ _).
  - destruct H as (ks & -> & Hk). simpl in *. do 5 (destruct ks as [|? ks]; [exfalso; simpl in *; lia|]).
    destruct ks; [done|]. exfalso. simpl in *. lia.
  - destruct H as [m ->]. by exists m.
Qed.

Lemma wipe_source_parses {TE} ik rk :
  parses (match ik, rk with
          | Some ik, None => hex_arg 16 ik
          | None, Some rk => keyset_arg rk
          | _, _ => false
          end) (wipe_source (TE := TE) ik rk).
Proof.
  destruct ik as [ik|], rk as [rk|]; simpl; try by eexists.
  - pose proof (parse_hex_16_parses (TE := TE) ik) as H. unfold parses, is_message in *.
    destruct (hex_arg 16 ik), (parse_hex_16 ik); naive_solver.
  - pose proof (parse_raw_keyset_parses (TE := TE) rk) as H. unfold parses, is_message in *.
    destruct (keyset_arg rk), (parse_raw_keyset rk); naive_solver.
Qed.

(** ** The shape of a run *)

(** What a connected command may fail with: never with a connection error. *)
Definition connected_error {TE} (e : RunError TE) : Prop :=
  match e with Run_Pcsc _ => False | Run_Message _ => True | Run_Cli e => exits e end.

Section shape.
  Context {T TE : Type} {D : NtagDevice T TE} {L : NtagLaws D} `{C : AesCrypto}.
  Context {V : Type} (verify_sdm : Sdm → list Z → AesKey → AesKey → option V).
  Context (sdm_url_config : list Z → CryptoMode → SdmUrlOptions → result SdmUrlConfig SdmUrlError).
  Context (rng : nat → option (list Z)) (assume : bool) (uid_fallback : option (list Z)).
  Context (open_reader : option (list Z) → result T PcscError)
    (inventory : result (list ReaderStatus) PcscError)
    (read_log : option (list Z) → option (list Z)) (fetch : list Z → option (list Z))
    (from_json : list Z → option ProvisionResponse) (raw : list Z → M T TE Response).

  Local Notation R := (M (Process T) (RunError TE)).
  Local Notation connect_transport := (connect_transport (TE := TE) open_reader).
  Local Notation run := (run verify_sdm sdm_url_config rng assume uid_fallback open_reader inventory
    read_log fetch from_json raw).

(** Connecting, then a command from the fresh process state. *)
Definition connected (m : M (Cli T) (RunError TE) unit) : R unit := λ s,
  match open_reader (pr_pin s) with
  | Err e => (Err (Run_Pcsc e), mkProcess (pr_pin s) (pr_cli s) (S (pr_connects s)) (pr_codes s))
  | Ok t =>
      let '(r, c) := m (mkCli t 0 0 []) in
      (r, mkProcess (pr_pin s) (Some c) (S (pr_connects s)) (pr_codes s))
  end.

Definition as_run {A} (m : M (Cli T) (CliError TE) A) : M (Cli T) (RunError TE) unit :=
  lift_err Run_Cli (m ≫= λ _, mret tt).

Lemma connect_command {A} (m : M (Cli T) (CliError TE) A) s :
  (connect_transport ;; command m) s = connected (as_run m) s.
Proof.
  unfold connected, as_run, command, mbind, M_bind, lift_err, connect_transport.
  destruct (open_reader (pr_pin s)); [|done]. simpl. by destruct (m _) as [[x|e] c].
Qed.

Lemma connect_then {A} (k : R A) s t :
  open_reader (pr_pin s) = Ok t →
  (connect_transport ;; k) s =
  k (mkProcess (pr_pin s) (Some (mkCli t 0 0 [])) (S (pr_connects s)) (pr_codes s)).
Proof. intros E. unfold mbind, M_bind, connect_transport. by rewrite E. Qed.

Lemma obeys_as_run {A} Rel (m : M (Cli T) (CliError TE) A) `{!PreOrder Rel} :
  obeys Rel exits m → obeys Rel connected_error (as_run m).
Proof.
  intros Hm s. destruct (Hm s) as [HR He]. unfold as_run, lift_err, mbind, M_bind.
  destruct (m s) as [[x|e] s1]; (split; [done|]); [by intros e [=]|].
  intros e' [= <-]. by apply He.
Qed.

(** The three ways a run can go. *)
Inductive run_shape (cmd : Command) (s : Process T) : result unit (RunError TE) * Process T → Prop :=
| Shape_Refused m : well_formed cmd = false → run_shape cmd s (Err (Run_Message m), s)
| Shape_Offline r codes :
    well_formed cmd = true → contacts cmd = false → (∀ e, r = Err e → ∃ m, e = Run_Message m) →
    run_shape cmd s (r, mkProcess (pr_pin s) (pr_cli s) (pr_connects s) codes)
| Shape_Connected m codes :
    well_formed cmd = true → obeys anything connected_error m →
    (reads_only cmd = true → obeys same_card connected_error m) →
    run_shape cmd s (connected m (mkProcess (pr_pin s) (pr_cli s) (pr_connects s) codes)).

Lemma pure_step {A B} b (r : result A (RunError TE)) (k : A → R B) s (Q : result B (RunError TE) * Process T → Prop) :
  parses b r →
  (∀ m, b = false → Q (Err (Run_Message m), s)) →
  (∀ a, b = true → r = Ok a → Q (k a s)) → Q ((pure r ≫= k) s).
Proof.
  unfold parses, is_message, pure, mbind, M_bind. intros H Hf Ht.
  destruct b; [|destruct H as [m ->]; by apply Hf]. destruct r; [|done]. by apply Ht.
Qed.

Lemma shape_keeps {A} cmd (m : M (Cli T) (CliError TE) A) s :
  well_formed cmd = true → obeys same_card exits m →
  run_shape cmd s ((connect_transport ;; command m) s).
Proof.
  intros Hw Hm. rewrite connect_command. destruct s as [p c n codes]. apply Shape_Connected; [done|..].
  - apply (obeys_anything same_card), obeys_as_run; [apply _|done].
  - intros _. apply obeys_as_run; [apply _|done].
Qed.

Lemma shape_runs {A} cmd (m : M (Cli T) (CliError TE) A) s codes :
  well_formed cmd = true → reads_only cmd = false → obeys anything exits m →
  run_shape cmd s ((connect_transport ;; command m)
    (mkProcess (pr_pin s) (pr_cli s) (pr_connects s) codes)).
Proof.
  intros Hw Hr Hm. rewrite connect_command. apply Shape_Connected; [done|..].
  - apply obeys_as_run; [apply _|done].
  - congruence.
Qed.

Lemma process_eta (s : Process T) : s = mkProcess (pr_pin s) (pr_cli s) (pr_connects s) (pr_codes s).
Proof. by destruct s. Qed.

(** The commands that only read and check one key argument first. *)
Lemma shape_key {A} cmd arg (m : list Z → M (Cli T) (CliError TE) A) s :
  well_formed cmd = hex_arg 16 arg → (∀ k, obeys same_card exits (m k)) →
  run_shape cmd s ((k ← pure (parse_hex_16 arg); connect_transport ;; command (m k)) s).
Proof.
  intros Hw Hm. eapply pure_step; [apply parse_hex_16_parses| |].
  - intros msg Hb. apply Shape_Refused. congruence.
  - intros k Hb _. apply shape_keeps; [congruence|done].
Qed.

Lemma shape_inspect ik v vb s : run_shape (Inspect ik v vb) s (run (Inspect ik v vb) s).
Proof.
  set (m := match transpose parse_hex_16 ik with
            | Ok ik => as_run (cmd_inspect rng ik v)
            | Err e => fail e
            end).
  assert (run (Inspect ik v vb) s = connected m s) as ->.
  { unfold m. cbn [CliMain.run]. unfold connected. destruct (open_reader (pr_pin s)) as [t|e] eqn:E.
    - rewrite (connect_then _ _ _ E). unfold pure, mbind, M_bind.
      destruct (transpose parse_hex_16 ik); [|done]. unfold command, as_run, lift_err, mbind, M_bind.
      simpl. by destruct (cmd_inspect _ _ _ _) as [[x|e] c].
    - unfold mbind, M_bind, CliMain.connect_transport. by rewrite E. }
  rewrite (process_eta s) at 2. assert (obeys same_card connected_error m) as Hm.
  { unfold m. pose proof (transpose_parses (TE := TE) _ _ ik parse_hex_16_parses) as Hp.
    destruct (transpose parse_hex_16 ik).
    - apply obeys_as_run; [apply _|]. apply cmd_inspect_same.
    - apply obeys_fail; [apply _|]. unfold parses, is_message in Hp.
      destruct (opt_arg _ ik); [done|]. destruct Hp as [m' [= ->]]. done. }
  apply Shape_Connected; [done| |done]. by apply (obeys_anything same_card).
Qed.

Lemma shape_burn ik url v vb dr cu fo s :
  run_shape (Burn ik url v vb dr cu fo) s (run (Burn ik url v vb dr cu fo) s).
Proof.
  cbn [CliMain.run]. unfold run_burn. eapply pure_step; [apply parse_hex_16_parses| |].
  { intros m Hb. apply Shape_Refused. simpl. by rewrite Hb. }
  intros k Hk _. eapply pure_step; [apply transpose_parses, parse_hex_7_parses| |].
  { intros m Hb. apply Shape_Refused. simpl. by rewrite Hk, Hb. }
  intros u Hu _. rewrite (process_eta s) at 2. apply shape_runs; [simpl; by rewrite Hk, Hu|done|].
  apply runs_cmd_burn.
Qed.

Lemma shape_wipe ik rk v vb dr sk cu s :
  run_shape (Wipe ik rk v vb dr sk cu) s (run (Wipe ik rk v vb dr sk cu) s).
Proof.
  cbn [CliMain.run]. unfold run_wipe. eapply pure_step; [apply transpose_parses, parse_hex_7_parses| |].
  { intros m Hb. apply Shape_Refused. simpl. by rewrite Hb. }
  intros u Hu _. eapply pure_step; [apply wipe_source_parses| |].
  { intros m Hb. apply Shape_Refused. simpl. rewrite Hu. exact Hb. }
  intros src Hs _. rewrite (process_eta s) at 2. apply shape_runs; [|done|].
  - simpl. rewrite Hu. exact Hs.
  - apply runs_cmd_wipe.
Qed.

Lemma shape_provision px code vb dr cu fo s :
  run_shape (Provision px code vb dr cu fo) s (run (Provision px code vb dr cu fo) s).
Proof.
  cbn [CliMain.run]. unfold run_provision. eapply pure_step; [apply transpose_parses, parse_hex_7_parses| |].
  { intros m Hb. apply Shape_Refused. simpl. by rewrite Hb. }
  intros u Hu _. unfold fetch_provision_keys, provision_request_url, mbind, M_bind.
  destruct (bool_decide (code = [])) eqn:Ec; simpl.
  { apply Shape_Refused. simpl. by rewrite Hu, Ec. }
  destruct (forallb is_ascii_alphanumeric code) eqn:Ea; simpl.
  2:{ apply Shape_Refused. simpl. by rewrite Hu, Ec, Ea. }
  assert (well_formed (Provision px code vb dr cu fo) = true) as Hw by (simpl; by rewrite Hu, Ec, Ea).
  destruct (fetch _) as [body|].
  2:{ apply Shape_Offline; [done|done|]. intros e' [= <-]. eauto. }
  destruct (parse_provision_response _ _) as [p|]; simpl.
  2:{ apply Shape_Offline; [done|done|]. intros e' [= <-]. eauto. }
  destruct dr.
  { apply Shape_Offline; [done|done|]. by intros e [=]. }
  apply (shape_runs (Provision px code vb false cu fo) _ s); [done|done|]. apply runs_burn_card.
Qed.

(** A cycle is one command on the connection. *)
Definition cycle_commands (ik url : list Z) (v : Z) (vb : bool) : M (Cli T) (CliError TE) unit :=
  cycle_burn sdm_url_config rng assume ik url v vb ;;
  cmd_wipe rng assume (Wipe_Issuer ik) v (mkWipeOptions vb false false None) ;;
  cycle_burn sdm_url_config rng assume ik url v vb.

Lemma bind_ext {A B} (m : R A) (k k' : A → R B) s :
  (∀ a s, k a s = k' a s) → (m ≫= k) s = (m ≫= k') s.
Proof. intros H. unfold mbind, M_bind. destruct (m s) as [[x|e] s1]; [apply H|done]. Qed.

Lemma command_seq {A B} (m : M (Cli T) (CliError TE) A) (k : M (Cli T) (CliError TE) B) (s : Process T) :
  (command m ;; command k) s = command (m ;; k) s.
Proof.
  unfold command, mbind, M_bind. destruct (pr_cli s) as [c|] eqn:E; [|by rewrite E].
  by destruct (m c) as [[x|e] c1].
Qed.

Lemma run_cycle_commands ik url v vb s :
  run (Cycle ik url v vb) s =
  (k ← pure (parse_hex_16 ik); connect_transport ;; command (cycle_commands k url v vb)) s.
Proof.
  cbn [CliMain.run]. unfold run_cycle. apply bind_ext. intros k s1. apply bind_ext. intros _ s2.
  unfold cycle_commands. rewrite <-command_seq. apply bind_ext. intros _ s3. apply command_seq.
Qed.

Lemma run_shaped cmd s : run_shape cmd s (run cmd s).
Proof.
  destruct cmd.
  - cbn [CliMain.run]. unfold pure. rewrite (process_eta s) at 2.
    apply Shape_Offline; [done|done|]. destruct inventory; intros e' [= <-]. eauto.
  - cbn [CliMain.run]. unfold pure. rewrite (process_eta s) at 2.
    apply Shape_Offline; [done|done|]. destruct (read_log log); intros e' [= <-]. eauto.
  - by apply shape_keeps, cmd_uid_same.
  - by apply shape_keeps, cmd_ver_same.
  - apply shape_key; [done|]. intros k. apply cmd_keyver_same.
  - apply shape_inspect.
  - by apply shape_keeps, cmd_url_same.
  - apply shape_burn.
  - apply shape_provision.
  - apply shape_wipe.
  - rewrite run_cycle_commands. eapply pure_step; [apply parse_hex_16_parses| |].
    + intros m Hb. by apply Shape_Refused.
    + intros k Hb _. rewrite (process_eta s) at 2. apply shape_runs; [done|done|].
      unfold cycle_commands, cycle_burn. pose proof @runs_cmd_burn. pose proof @runs_cmd_wipe. obey.
  - apply shape_key; [done|]. intros k. apply cmd_picc_same.
  - apply shape_key; [done|]. intros k. apply cmd_diagnose_same.
  - cbn [CliMain.run]. eapply (pure_step (hex_arg 7 uid && hex_arg 16 issuer_key)).
    + unfold derived_output, parses, is_message. pose proof (parse_hex_7_parses (TE := TE) uid) as Hu.
      pose proof (parse_hex_16_parses (TE := TE) issuer_key) as Hk. unfold parses, is_message in *.
      destruct (hex_arg 7 uid), (parse_hex_7 uid), (hex_arg 16 issuer_key), (parse_hex_16 issuer_key);
        naive_solver.
    + intros m Hb. by apply Shape_Refused.
    + intros ks Hb _. rewrite (process_eta s) at 2. apply Shape_Offline; [done|done|by intros e [=]].
  - cbn [CliMain.run]. rewrite (process_eta s) at 2. apply shape_runs; [done|done|]. apply runs_f5probe.
  - cbn [CliMain.run]. rewrite (process_eta s) at 2. apply shape_runs; [done|done|]. apply runs_set_card_uid.
  - apply (shape_key (TryKey key key_no attempts) key (λ k, cmd_try_key rng k key_no attempts)); [done|].
    intros k. apply cmd_try_key_same.
  - apply (shape_key (ScanKeys issuer_key attempts) issuer_key (λ k, cmd_scan_keys rng k attempts)); [done|].
    intros k. apply cmd_scan_keys_same.
  - by apply shape_keeps, cmd_try_key_same.
  - cbn [CliMain.run]. rewrite (process_eta s) at 2. apply shape_runs; [done|done|]. apply runs_testck.
Qed.
End shape.

(** ** Properties *)

(** What the exit status says about a failed connection. *)
Definition connect_code (e : PcscError) : Z :=
  match e with NoReaders => 2 | NoCardInReader _ => 3 | _ => 4 end.

Section claims.
  Context {T TE : Type} {D : NtagDevice T TE} {L : NtagLaws D} `{C : AesCrypto}.
  Context {V : Type} (verify_sdm : Sdm → list Z → AesKey → AesKey → option V).
  Context (sdm_url_config : list Z → CryptoMode → SdmUrlOptions → result SdmUrlConfig SdmUrlError).
  Context (rng : nat → option (list Z)) (assume : bool) (uid_fallback : option (list Z)).
  Context (open_reader : option (list Z) → result T PcscError)
    (inventory : result (list ReaderStatus) PcscError)
    (read_log : option (list Z) → option (list Z)) (fetch : list Z → option (list Z))
    (from_json : list Z → option ProvisionResponse) (raw : list Z → M T TE Response).

  Local Notation run := (run verify_sdm sdm_url_config rng assume uid_fallback open_reader inventory
    read_log fetch from_json raw).
  Local Notation main := (main verify_sdm sdm_url_config rng assume uid_fallback open_reader inventory
    read_log fetch from_json raw).
  Local Notation shaped := (run_shaped verify_sdm sdm_url_config rng assume uid_fallback open_reader
    inventory read_log fetch from_json raw).

(** Arguments come first: a subcommand whose keys, UIDs, key sources or
    one-time code are malformed fails with a message and has not connected to a
    reader, consumed a one-time code or done anything else; with well-formed
    arguments every subcommand that works on a card makes exactly one
    connection attempt, and none makes more. *)
Theorem arguments_checked_first (cmd : Command) (s : Process T) :
  let '(r, s') := run cmd s in
  if well_formed cmd
  then (pr_connects s' ≤ S (pr_connects s))%nat ∧
    (contacts cmd = true → pr_connects s' = S (pr_connects s))
  else s' = s ∧ ∃ m, r = Err (Run_Message m).
Proof.
  pose proof (shaped cmd s) as H. destruct H as [m Hw|r codes Hw Hc Hr|m codes Hw Hm _].
  - rewrite Hw. eauto.
  - rewrite Hw, Hc. simpl. split; [lia|done].
  - unfold connected. simpl. destruct (open_reader (pr_pin s)); [destruct (m _)|]; by rewrite Hw.
Qed.

(** The subcommands that inspect a card leave it alone: whatever the card
    and the reader do, after [uid], [ver], [keyver], [inspect], [url], [picc],
    [diagnose], [try-key], [scan-keys] or [reset-card] the card that was
    connected is exactly as it was. *)
Theorem readers_leave_card (cmd : Command) (s : Process T) (t : T) (c : Cli T) :
  reads_only cmd = true → pr_cli s = None → open_reader (pr_pin s) = Ok t →
  pr_cli (run cmd s).2 = Some c → dcard c = card t.
Proof.
  intros Hr Hs Ht. pose proof (shaped cmd s) as H.
  destruct H as [m Hw|r codes Hw Hc _|m codes Hw _ Hm]; simpl; [congruence|congruence|].
  specialize (Hm Hr). unfold connected. simpl. rewrite Ht.
  destruct (Hm (mkCli t 0 0 [])) as [HR _]. destruct (m _) as [r c'].
  simpl. intros [= <-]. exact HR.
Qed.

(** The exit status is exact: it is one of 0, 1, 2, 3, 4 and 6, and 2, 3 or
    4 mean precisely that the one connection attempt was made and failed, with
    no reader, with no card on the reader, or for another reason. *)
Theorem exit_status_exact (args : Args) :
  let '(code, s) := main args in
  code ∈ [0; 1; 2; 3; 4; 6] ∧
  (2 ≤ code ≤ 4 ↔ pr_connects s = 1%nat ∧ is_ok (open_reader (arg_reader args)) = false) ∧
  (∀ e, open_reader (arg_reader args) = Err e → pr_connects s = 1%nat → code = connect_code e).
Proof.
  unfold CliMain.main. set (s := mkProcess _ _ _ _). pose proof (shaped (arg_command args) s) as H.
  destruct H as [m Hw|r codes Hw Hc Hr|m codes Hw Hm _].
  - simpl. split; [set_solver|]. split; [lia|]. lia.
  - simpl. split; [|split; [|lia]]; (destruct r as [[]|e]; [|destruct (Hr _ eq_refl) as [msg ->]]); simpl.
    + set_solver.
    + set_solver.
    + lia.
    + lia.
  - unfold connected. simpl. destruct (open_reader (arg_reader args)) as [t|e].
    + destruct (Hm (mkCli t 0 0 [])) as [_ He]. destruct (m _) as [r c]. cbn [fst snd] in He.
      assert (exit_status r ∈ [0; 1; 6]) as Hcode.
      { destruct r as [[]|e]; [set_solver|]. specialize (He _ eq_refl).
        destruct e as [|msg|[| | | | |code|]]; simpl in *; set_solver. }
      split; [set_solver|]. split; [|done]. split; [|by intros [_ ?]].
      intros Hrange. exfalso. assert (exit_status r = 0 ∨ exit_status r = 1 ∨ exit_status r = 6) by set_solver.
      lia.
    + destruct e; simpl; (split; [set_solver|]; split; [split; [done|lia]|by intros ? [= <-] _]).
Qed.

(** One burn of the cycle. *)
Lemma cycle_burn_spec ik url v vb s :
  breaker_low s →
  wp (cycle_burn sdm_url_config rng assume ik url v vb) (λ r s', breaker_ok r s' ∧
    (r = Ok tt → burned_as sdm_url_config
       (CardKeySet_keys (derive_keys ik (uid_to_fixed (c_uid (dcard s))) v)) url v (dcard s) (dcard s'))) s.
Proof.
  intros Hb. unfold cycle_burn, cmd_burn. apply wp_bind, wp_preflight.
  intros r1 s1 Hs1 Hf1 _ _ Hu1. assert (dcard s1 = dcard s) as Hc by apply Hs1.
  destruct r1 as [uid|e]; [|split; [by eapply breaker_keep|done]].
  rewrite (Hu1 _ eq_refl). eapply wp_mono.
  { apply burn_card_spec. unfold breaker_low in *. by rewrite Hf1. }
  intros r s2 Hpost. split; [apply Hpost|]. intros E. pose proof (bpost_ok _ _ _ _ _ _ _ Hpost E) as H.
  simpl in H. by rewrite Hc in H.
Qed.

Lemma burned_as_uid keys url v c c' : burned_as sdm_url_config keys url v c c' → c_uid c' = c_uid c.
Proof. intros (plan & params & _ & _ & _ & H). apply H. Qed.

Lemma cycle_commands_spec ik url v vb s :
  breaker_low s →
  wp (cycle_commands sdm_url_config rng assume ik url v vb) (λ r s', r = Ok tt →
    let keys := CardKeySet_keys (derive_keys ik (uid_to_fixed (c_uid (dcard s))) v) in
    ∃ c1 c2, burned_as sdm_url_config keys url v (dcard s) c1 ∧
      (factory_reset c1 c2 ∨ c2 = c1 ∧ k0 c1.(c_keys) = FACTORY_KEY) ∧
      burned_as sdm_url_config keys url v c2 (dcard s')) s.
Proof.
  intros Hb. unfold cycle_commands. apply wp_bind. eapply wp_mono; [by apply cycle_burn_spec|].
  intros [[]|e] s1 [Hb1 H1]; [|by intros [=]]. specialize (H1 eq_refl).
  assert (breaker_low s1) as Hl1 by (eapply breaker_ok_low; [exact Hb1|done]).
  apply wp_bind. eapply wp_mono; [by apply cmd_wipe_spec|].
  intros [[]|e] s2 Hw; [|by intros [=]].
  assert (breaker_low s2) as Hl2 by (eapply breaker_ok_low; [apply Hw|done]).
  assert (factory_reset (dcard s1) (dcard s2) ∨ dcard s2 = dcard s1 ∧ k0 (c_keys (dcard s1)) = FACTORY_KEY)
    as H2 by (destruct (wpost_ok _ _ _ _ _ _ _ _ Hw eq_refl); naive_solver).
  eapply wp_mono; [by apply cycle_burn_spec|].
  intros r s3 [_ H3] E. specialize (H3 E). exists (dcard s1), (dcard s2).
  assert (c_uid (dcard s2) = c_uid (dcard s)) as Hu.
  { rewrite <-(burned_as_uid _ _ _ _ _ H1). destruct H2 as [H2|[-> _]]; [apply H2|done]. }
  rewrite Hu in H3. done.
Qed.

(** C20. A completed [cycle] has exercised the whole life of the card and leaves
    it provisioned: the card that was connected was burned with the keys
    derived from its UID, then reset to the delivery state (or found with the
    factory master key already), then burned again with the same keys and URL,
    and it is still the same card. *)
Theorem cycle_provisions (issuer_key url : list Z) (v : Z) (vb : bool) (s s' : Process T) :
  run (Cycle issuer_key url v vb) s = (Ok tt, s') →
  ∃ ik t c, decode_hex 16 (trim issuer_key) = Ok ik ∧ open_reader (pr_pin s) = Ok t ∧
    pr_cli s' = Some c ∧ c_uid (dcard c) = c_uid (card t) ∧
    let keys := CardKeySet_keys (derive_keys ik (uid_to_fixed (c_uid (card t))) v) in
    ∃ c1 c2, burned_as sdm_url_config keys url v (card t) c1 ∧
      (factory_reset c1 c2 ∨ c2 = c1 ∧ k0 c1.(c_keys) = FACTORY_KEY) ∧
      burned_as sdm_url_config keys url v c2 (dcard c).
Proof.
  rewrite run_cycle_commands. unfold pure, parse_hex_16. unfold mbind at 1, M_bind at 1.
  destruct (decode_hex 16 (trim issuer_key)) as [ik|]; [|done]. cbn [map_err]. rewrite connect_command.
  unfold connected. destruct (open_reader (pr_pin s)) as [t|]; [|done].
  pose proof (cycle_commands_spec ik url v vb (mkCli t 0 0 [])) as H.
  unfold as_run, lift_err, mbind, M_bind, wp in *.
  destruct (cycle_commands _ _ _ _ _ _ _ _) as [[[]|e] c] eqn:E; [|done].
  cbn [fst snd] in *. intros [= <-]. exists ik, t, c. split; [done|]. split; [done|]. split; [done|].
  destruct (H ltac:(done) eq_refl) as (c1 & c2 & H1 & H2 & H3). unfold dcard in *. simpl in *.
  split; [|by exists c1, c2].
  rewrite (burned_as_uid _ _ _ _ _ H3), <-(burned_as_uid _ _ _ _ _ H1).
  destruct H2 as [H2|[-> _]]; [apply H2|done].
Qed.
End claims.

(** ** The raw key set *)

(** The [--raw-keys] notation of a key set. *)
Definition show_raw_keyset (k : CardKeys) : list Z :=
  encode_hex (k0 k) ++ 43 :: encode_hex (k1 k) ++ 43 :: encode_hex (k2 k) ++ 43 ::
  encode_hex (k3 k) ++ 43 :: encode_hex (k4 k).

Lemma hexish_graphic l : Forall hexish l → Forall graphic l.
Proof. intros H. eapply Forall_impl; [exact H|]. unfold hexish, graphic. lia. Qed.

Lemma parse_hex_16_encode {TE} k : array 16 k → parse_hex_16 (TE := TE) (encode_hex k) = Ok k.
Proof.
  intros [Hl Hb]. unfold parse_hex_16.
  rewrite trim_graphic by (by apply hexish_graphic, encode_hex_hexish).
  rewrite decode_hex_eq, encode_hex_length, hex_pairs_encode by done.
  by rewrite decide_False by lia.
Qed.

Lemma split_on_last d cur l : d ∉ l → split_on d cur l = [cur ++ l].
Proof.
  revert cur. induction l as [|c l IH]; intros cur Hd; simpl; [by rewrite app_nil_r|].
  rewrite decide_False by set_solver. rewrite IH by set_solver. by rewrite <-app_assoc.
Qed.

Lemma plus_not_hex k : array 16 k → 43 ∉ encode_hex k.
Proof. intros [_ Hb]. apply hexish_not_in; [by apply encode_hex_hexish|unfold hexish; lia]. Qed.

(** The raw key set notation is read back exactly: five keys written in
    hexadecimal and joined by plus signs are the key set a wipe will verify and
    use. *)
Theorem parse_raw_keyset_roundtrip {TE} (k : CardKeys) :
  (∀ n, array 16 (get_key n k)) → parse_raw_keyset (TE := TE) (show_raw_keyset k) = Ok k.
Proof.
  intros Hk. pose proof (Hk Key0) as H0. pose proof (Hk Key1) as H1. pose proof (Hk Key2) as H2.
  pose proof (Hk Key3) as H3. pose proof (Hk Key4) as H4. simpl in *.
  unfold parse_raw_keyset, show_raw_keyset.
  rewrite !split_on_line, split_on_last by (by apply plus_not_hex). simpl.
  rewrite !parse_hex_16_encode by done. simpl. by destruct k.
Qed.

(** ** Witnesses *)

(** A process whose reader holds a factory card. *)
Definition sample_process : Process Sim := mkProcess None None 0 0.
Definition sim_open (_ : option (list Z)) : result Sim PcscError := Ok sim_factory.
Definition sim_raw (_ : list Z) : M Sim SimError Response := λ w, (Ok (mkResponse [] 0x91 0x00), w).

Definition sim_run (cmd : Command) : result unit (RunError SimError) * Process Sim :=
  run (C := toy_crypto) (V := unit) (λ _ _ _ _, None) sample_planner sim_rng false None sim_open (Ok [])
    (λ _, None) (λ _, None) (λ _, None) sim_raw cmd sample_process.

Definition hex_key : list Z := encode_hex (replicate 16 7).

Lemma readers_leave_card_witness :
  ∃ c, pr_cli (sim_run (Diagnose hex_key)).2 = Some c ∧ dcard c = card sim_factory.
Proof.
  destruct (pr_cli (sim_run (Diagnose hex_key)).2) as [c|] eqn:E; [|vm_compute in E; discriminate E].
  exists c. split; [reflexivity|].
  apply (readers_leave_card (C := toy_crypto) (V := unit) (λ _ _ _ _, None) sample_planner sim_rng false None
    sim_open (Ok []) (λ _, None) (λ _, None) (λ _, None) sim_raw (Diagnose hex_key) sample_process sim_factory c).
  - reflexivity.
  - reflexivity.
  - reflexivity.
  - exact E.
Defined.

Lemma cycle_provisions_witness :
  ∃ ik t c, decode_hex 16 (trim hex_key) = Ok ik ∧ sim_open None = Ok t ∧
    pr_cli (sim_run (Cycle hex_key sample_url 1 false)).2 = Some c ∧ c_uid (dcard c) = c_uid (card t) ∧
    let keys := CardKeySet_keys (derive_keys (C := toy_crypto) ik (uid_to_fixed (c_uid (card t))) 1) in
    ∃ c1 c2, burned_as sample_planner keys sample_url 1 (card t) c1 ∧
      (factory_reset c1 c2 ∨ c2 = c1 ∧ k0 c1.(c_keys) = FACTORY_KEY) ∧
      burned_as sample_planner keys sample_url 1 c2 (dcard c).
Proof.
  apply (cycle_provisions (C := toy_crypto) (V := unit) (λ _ _ _ _, None) sample_planner sim_rng false None
    sim_open (Ok []) (λ _, None) (λ _, None) (λ _, None) sim_raw hex_key sample_url 1 false sample_process).
  vm_compute. reflexivity.
Defined.

Lemma parse_raw_keyset_roundtrip_witness :
  parse_raw_keyset (TE := SimError) (show_raw_keyset sample_keys) = Ok sample_keys.
Proof.
  apply (parse_raw_keyset_roundtrip sample_keys). intros n.
  destruct n; (split; [reflexivity|]); apply (bool_decide_unpack _); vm_compute; exact I.
Defined.
