(* ===== verification/AuditLog.v ===== *)
(** * The audit log and the authentication budget

    [apps/bolty-cli/src/audit.rs] writes one line per APDU exchange and per
    event; [budget.rs] reads such a log back and accounts the failed key
    evaluations since the last wipe.  The two are specified against each
    other: the report on a rendered log is the account of the exchanges that
    were logged. *)

From S2P Require Import Prelude Str Hex Assessment.

(** ** audit.rs: the lines *)

(** [hex]: [{b:02X}] per byte. *)
Definition hex (l : list Z) : list Z :=
  b ← l; [hex_upper (Z.shiftr b 4); hex_upper (Z.land b 0xf)].

Inductive AuditEntry :=
| A_Tx (ts : Z) (apdu : list Z)
| A_RxOk (ts sw1 sw2 : Z) (data : list Z)
| A_RxErr (ts : Z) (error : list Z)
| A_GetUid (ts : Z)
| A_GetUidOk (ts : Z) (uid : list Z)
| A_Event (ts : Z) (msg : list Z) (provenance : option KeyProvenance)
| A_GetUidErr (ts : Z) (error : list Z)
| A_SessionStart (ts pid : Z) (host exe wall : list Z) (prior_future_delta_ms : option Z)
| A_ClockStep (ts delta reference : Z).

Definition stamp (ts : Z) : list Z := lit "[" ++ show_uint ts ++ lit "] ".

Definition render (e : AuditEntry) : list Z :=
  match e with
  | A_Tx ts apdu =>
      stamp ts ++ lit "TX APDU len=" ++ show_uint (Z.of_nat (length apdu)) ++ lit " data=" ++ hex apdu
  | A_RxOk ts sw1 sw2 data =>
      stamp ts ++ lit "RX OK   sw=" ++ hex [sw1; sw2] ++ lit " len=" ++
      show_uint (Z.of_nat (length data)) ++ lit " data=" ++ hex data
  | A_RxErr ts error => stamp ts ++ lit "RX ERR  error=" ++ error
  | A_GetUid ts => stamp ts ++ lit "GET_UID"
  | A_GetUidOk ts uid => stamp ts ++ lit "GET_UID OK   uid=" ++ hex uid
  | A_Event ts msg provenance =>
      stamp ts ++ lit "EVENT  " ++ msg ++
      match provenance with
      | Some p => lit " [provenance=" ++ to_audit_tag p ++ lit "]"
      | None => []
      end
  | A_GetUidErr ts error => stamp ts ++ lit "GET_UID ERR  error=" ++ error
  | A_SessionStart ts pid host exe wall delta =>
      stamp ts ++ lit "SESSION START pid=" ++ show_uint pid ++ lit " host=" ++ host ++ lit " exe=" ++ exe ++
      lit " wall=" ++ wall ++
      match delta with
      | Some delta => lit " prior_future_delta_ms=" ++ show_uint delta
      | None => []
      end
  | A_ClockStep ts delta reference =>
      stamp ts ++ lit "EVENT  CLOCK_STEP_BACKWARD delta_ms=" ++ show_uint delta ++
      lit " (reference point " ++ show_uint reference ++
      lit "; entries above/below may straddle the step)"
  end.

(** The entries that carry text from outside. *)
Definition free_text (e : AuditEntry) : bool :=
  match e with
  | A_RxErr _ _ | A_Event _ _ _ | A_GetUidErr _ _ | A_SessionStart _ _ _ _ _ _ | A_ClockStep _ _ _ => true
  | _ => false
  end.

(** The log file: [writeln!] per entry. *)
Definition render_log (log : list AuditEntry) : list Z :=
  e ← log; render e ++ [10].

(** ** budget.rs *)

Record BudgetReport := mkBudgetReport {
  auth_failures : Z;
  delay_events : Z;
  wipes : Z;
  log_lines : Z;
  since_last_wipe : option Z;
}.

(** The loop state: the report under construction, the failures since the last
    wipe, and whether one was seen. *)
Definition parse_line (st : BudgetReport * Z * bool) (line : list Z) : BudgetReport * Z * bool :=
  let '(report, failures_since_wipe, seen_wipe) := st in
  let report := mkBudgetReport (auth_failures report) (delay_events report) (wipes report)
    (log_lines report + 1) (since_last_wipe report) in
  let lower := to_ascii_lowercase <$> line in
  if contains (lit "rx") lower && contains (lit "sw=91ae") lower then
    (mkBudgetReport (auth_failures report + 1) (delay_events report) (wipes report)
       (log_lines report) (since_last_wipe report), failures_since_wipe + 1, seen_wipe)
  else if contains (lit "rx") lower && contains (lit "sw=91ad") lower then
    (mkBudgetReport (auth_failures report) (delay_events report + 1) (wipes report)
       (log_lines report) (since_last_wipe report), failures_since_wipe, seen_wipe)
  else if contains (lit "wipe: success") lower then
    (mkBudgetReport (auth_failures report) (delay_events report) (wipes report + 1)
       (log_lines report) (since_last_wipe report), 0, true)
  else (report, failures_since_wipe, seen_wipe).

Definition parse_audit (text : list Z) : BudgetReport :=
  let '(report, failures_since_wipe, seen_wipe) :=
    fold_left parse_line (lines text) (mkBudgetReport 0 0 0 0 None, 0, false) in
  mkBudgetReport (auth_failures report) (delay_events report) (wipes report) (log_lines report)
    (if seen_wipe then Some failures_since_wipe else None).

(** The figure [cmd_budget] reports against the ceiling of 1000, and its
    warning. *)
Definition effective_failures (r : BudgetReport) : Z :=
  default (auth_failures r) (since_last_wipe r).
Definition near_lock (r : BudgetReport) : bool := bool_decide (900 ≤ effective_failures r).

(** ** Reference accounting *)

Inductive Mark := Spend | Delayed | Wiped | Neutral.

#[export] Instance Mark_eq_dec : EqDecision Mark.
Proof. solve_decision. Defined.

Definition wipe_line (line : list Z) : bool :=
  contains (lit "wipe: success") (to_ascii_lowercase <$> line).

Definition mark (e : AuditEntry) : Mark :=
  match e with
  | A_RxOk _ sw1 sw2 _ =>
      if decide (sw1 = 0x91 ∧ sw2 = 0xAE) then Spend
      else if decide (sw1 = 0x91 ∧ sw2 = 0xAD) then Delayed
      else Neutral
  | _ => if free_text e && wipe_line (render e) then Wiped else Neutral
  end.

Definition count (m : Mark) (ms : list Mark) : Z := Z.of_nat (length (filter (λ x, x = m) ms)).

(** Spends after the last wipe. *)
Fixpoint tail_spends (ms : list Mark) : Z :=
  match ms with
  | [] => 0
  | m :: ms => if decide (Wiped ∈ ms) then tail_spends ms
               else (if decide (m = Spend) then 1 else 0) + count Spend ms
  end.

Definition account (log : list AuditEntry) : BudgetReport :=
  let ms := mark <$> log in
  mkBudgetReport (count Spend ms) (count Delayed ms) (count Wiped ms) (Z.of_nat (length log))
    (if decide (Wiped ∈ ms) then Some (tail_spends ms) else None).

(** An entry as the code writes it: bytes are bytes, texts are one line, and a
    free text does not quote a status word. *)
Definition well_formed (e : AuditEntry) : Prop :=
  match e with
  | A_Tx ts apdu => 0 ≤ ts ∧ bytes apdu
  | A_RxOk ts sw1 sw2 data => 0 ≤ ts ∧ is_u8 sw1 ∧ is_u8 sw2 ∧ bytes data
  | A_GetUid ts => 0 ≤ ts
  | A_GetUidOk ts uid => 0 ≤ ts ∧ bytes uid
  | A_RxErr ts _ | A_Event ts _ _ | A_GetUidErr ts _ | A_SessionStart ts _ _ _ _ _ | A_ClockStep ts _ _ =>
      0 ≤ ts ∧ 10 ∉ render e ∧ last (render e) ≠ Some 13 ∧
      contains (lit "sw=91a") (to_ascii_lowercase <$> render e) = false
  end.

#[export] Instance well_formed_dec e : Decision (well_formed e).
Proof. destruct e; unfold well_formed; apply _. Defined.

(** ** Characters of a rendered line *)

Notation lower l := (to_ascii_lowercase <$> l).

Lemma lower_digits l : Forall (λ c, 48 ≤ c ≤ 57) l → lower l = l.
Proof.
  induction 1 as [|c l Hc _ IH]; [done|]. rewrite fmap_cons, IH. f_equal.
  unfold to_ascii_lowercase. rewrite decide_False by lia. done.
Qed.

Lemma lower_hex_upper n : is_nibble n → to_ascii_lowercase (hex_upper n) = hex_digit n.
Proof. intros H. by_nibble H. Qed.

Lemma lower_hex l : bytes l → lower (hex l) = encode_hex l.
Proof.
  induction 1 as [|b l Hb _ IH]; [done|]. unfold hex in *. cbn [mbind list_bind app].
  rewrite !fmap_cons, IH. rewrite !lower_hex_upper by auto with bolty. done.
Qed.

Lemma digits_hexish l : Forall (λ c, 48 ≤ c ≤ 57) l → Forall hexish l.
Proof. intros H. eapply Forall_impl; [exact H|]. unfold hexish. lia. Qed.

(** Searching for a pattern whose first character is rare. *)
Lemma contains_absent x p s : x ∈ p → x ∉ s → contains p s = false.
Proof.
  intros Hp Hs. apply not_true_iff_false. rewrite contains_spec. intros (a & b & ->).
  apply Hs. apply elem_of_app. right. apply elem_of_app. by left.
Qed.

Lemma contains_once x p a b :
  x ∉ a → x ∉ b → contains (x :: p) (a ++ x :: b) = starts_with p b.
Proof.
  intros Ha Hb. apply eq_true_iff_eq. rewrite contains_spec, starts_with_spec. split.
  - intros (u & v & E). exists v. revert a Ha E.
    induction u as [|c u IH]; intros [|d a] Ha E; simplify_eq/=; [done|set_solver| |].
    + destruct Hb. set_solver.
    + apply (IH a); [set_solver|done].
  - intros [k ->]. exists a, k. done.
Qed.

Lemma starts_with_app p q s : starts_with (p ++ q) (p ++ s) = starts_with q s.
Proof.
  apply eq_true_iff_eq. rewrite !starts_with_spec. split; [apply prefix_app_inv|].
  apply prefix_app.
Qed.

Lemma starts_with_len p q s : length p = length q → starts_with p (q ++ s) = bool_decide (p = q).
Proof.
  intros Hlen. apply eq_true_iff_eq. rewrite starts_with_spec, bool_decide_eq_true. split.
  - intros [k E]. apply app_inj_1 in E; [|done]. by destruct E.
  - intros ->. by exists s.
Qed.

Lemma encode_hex_inj l k : bytes l → bytes k → encode_hex l = encode_hex k → l = k.
Proof.
  intros Hl Hk E. apply (f_equal hex_pairs) in E. rewrite !hex_pairs_encode in E by done. congruence.
Qed.

Lemma stamp_lower ts : 0 ≤ ts → ∃ d, lower (stamp ts) = lit "[" ++ d ++ lit "] " ∧ Forall hexish d.
Proof.
  intros H. exists (show_uint ts). pose proof (show_dec_digits (S (Z.to_nat (Z.log2 ts))) ts H) as Hd.
  split; [|by apply digits_hexish]. unfold stamp. rewrite !fmap_app.
  unfold show_uint. by rewrite (lower_digits _ Hd).
Qed.

Lemma uint_lower n : ∃ d, lower (show_uint (Z.of_nat n)) = d ∧ Forall hexish d.
Proof.
  exists (show_uint (Z.of_nat n)).
  pose proof (show_dec_digits (S (Z.to_nat (Z.log2 (Z.of_nat n)))) (Z.of_nat n) ltac:(lia)) as Hd.
  unfold show_uint. split; [by apply lower_digits|by apply digits_hexish].
Qed.

(** Refutes membership of a character in a concatenation of literals and
    hex-like pieces. *)
Ltac not_in :=
  rewrite ?not_elem_of_app; repeat split;
  first [ by apply (bool_decide_unpack _); vm_compute
        | eapply hexish_not_in; [eassumption|unfold hexish; lia] ].

(** The status word of a logged response. *)
Lemma rx_status ts sw1 sw2 data (s1 s2 : Z) :
  well_formed (A_RxOk ts sw1 sw2 data) → is_u8 s1 → is_u8 s2 →
  contains (lit "rx") (lower (render (A_RxOk ts sw1 sw2 data))) = true ∧
  contains (lit "sw=" ++ encode_hex [s1; s2]) (lower (render (A_RxOk ts sw1 sw2 data))) =
    bool_decide (sw1 = s1 ∧ sw2 = s2) ∧
  contains (lit "wipe: success") (lower (render (A_RxOk ts sw1 sw2 data))) = false.
Proof.
  intros (Hts & H1 & H2 & Hd) Hs1 Hs2.
  destruct (stamp_lower ts Hts) as (t & Et & Ht). destruct (uint_lower (length data)) as (n & En & Hn).
  assert (bytes [sw1; sw2]) as Hsw by auto with bolty.
  pose proof (encode_hex_hexish _ Hsw) as Hhx. pose proof (encode_hex_hexish _ Hd) as Hdx.
  assert (lower (render (A_RxOk ts sw1 sw2 data)) =
    ((lit "[" ++ t ++ lit "] ") ++ lit "rx ok   ") ++ 115 :: lit "w=" ++ encode_hex [sw1; sw2] ++
      lit " len=" ++ n ++ lit " data=" ++ encode_hex data) as E.
  { cbn [render]. rewrite !fmap_app, Et, En, !lower_hex by done. rewrite <-!app_assoc. reflexivity. }
  rewrite E. split; [|split].
  - apply contains_spec. exists (lit "[" ++ t ++ lit "] "). eexists. rewrite <-!app_assoc. reflexivity.
  - change (lit "sw=" ++ encode_hex [s1; s2]) with (115 :: lit "w=" ++ encode_hex [s1; s2]).
    rewrite contains_once; [|not_in|not_in].
    rewrite starts_with_app, starts_with_len by done.
    apply bool_decide_ext. split; [|by intros [-> ->]].
    intros Eq. apply encode_hex_inj in Eq; [naive_solver|auto with bolty|auto with bolty].
  - apply (contains_absent 112); [by apply (bool_decide_unpack _); vm_compute|].
    rewrite not_elem_of_app, not_elem_of_cons. split; [not_in|]. split; [done|not_in].
Qed.

Lemma quiet_line e :
  well_formed e → free_text e = false → (∀ ts a b d, e ≠ A_RxOk ts a b d) →
  contains (lit "rx") (lower (render e)) = false ∧
  contains (lit "wipe: success") (lower (render e)) = false.
Proof.
  intros Hwf Hf Hx. destruct e as [ts apdu|ts a b d|ts er|ts|ts uid|ts msg p|ts er|ts p h x w d|ts d r];
    try discriminate Hf; [|by destruct (Hx ts a b d)| |].
  - destruct Hwf as [Hts Hd]. destruct (stamp_lower ts Hts) as (t & Et & Ht).
    destruct (uint_lower (length apdu)) as (n & En & Hn). pose proof (encode_hex_hexish _ Hd) as Hdx.
    cbn [render]. rewrite !fmap_app, Et, En, lower_hex by done. split.
    + apply (contains_absent 114); [by apply (bool_decide_unpack _); vm_compute|]. not_in.
    + apply (contains_absent 119); [by apply (bool_decide_unpack _); vm_compute|]. not_in.
  - destruct (stamp_lower ts Hwf) as (t & Et & Ht). cbn [render]. rewrite !fmap_app, Et. split.
    + apply (contains_absent 114); [by apply (bool_decide_unpack _); vm_compute|]. not_in.
    + apply (contains_absent 119); [by apply (bool_decide_unpack _); vm_compute|]. not_in.
  - destruct Hwf as [Hts Hd]. destruct (stamp_lower ts Hts) as (t & Et & Ht).
    pose proof (encode_hex_hexish _ Hd) as Hdx.
    cbn [render]. rewrite !fmap_app, Et, lower_hex by done. split.
    + apply (contains_absent 114); [by apply (bool_decide_unpack _); vm_compute|]. not_in.
    + apply (contains_absent 119); [by apply (bool_decide_unpack _); vm_compute|]. not_in.
Qed.

(** A text free of [sw=91a] contains neither status word. *)
Lemma no_status l : contains (lit "sw=91a") l = false →
  contains (lit "sw=91ae") l = false ∧ contains (lit "sw=91ad") l = false.
Proof.
  intros H. split; apply not_true_iff_false; rewrite contains_spec; intros (a & b & ->);
    apply not_true_iff_false in H; apply H, contains_spec.
  - exists a, (lit "e" ++ b). reflexivity.
  - exists a, (lit "d" ++ b). reflexivity.
Qed.

(** ** The report is the account *)

Definition step_mark (st : BudgetReport * Z * bool) (m : Mark) : BudgetReport * Z * bool :=
  let '(r, f, seen) := st in
  let r' a d w := mkBudgetReport (auth_failures r + a) (delay_events r + d) (wipes r + w)
    (log_lines r + 1) (since_last_wipe r) in
  match m with
  | Spend => (r' 1 0 0, f + 1, seen)
  | Delayed => (r' 0 1 0, f, seen)
  | Wiped => (r' 0 0 1, 0, true)
  | Neutral => (r' 0 0 0, f, seen)
  end.

(** A line of free text is a wipe or nothing. *)
Lemma parse_line_free st e :
  well_formed e → free_text e = true → parse_line st (render e) = step_mark st (mark e).
Proof.
  intros Hwf Hf. destruct st as [[r f] seen].
  assert (contains (lit "sw=91a") (lower (render e)) = false) as Hn by (destruct e; naive_solver).
  assert (mark e = if wipe_line (render e) then Wiped else Neutral) as ->
    by (unfold mark; destruct e; try discriminate Hf; done).
  destruct (no_status _ Hn) as [E1 E2]. unfold parse_line. rewrite E1, E2, !andb_false_r. unfold wipe_line.
  destruct (contains (lit "wipe: success") _); simpl; by rewrite ?Z.add_0_r.
Qed.

Lemma parse_line_mark st e : well_formed e → parse_line st (render e) = step_mark st (mark e).
Proof.
  intros Hwf. destruct (free_text e) eqn:Hf; [by apply parse_line_free|].
  destruct st as [[r f] seen]. assert (∀ x, x + 0 = x) as Hz by lia.
  destruct e as [ts apdu|ts sw1 sw2 data|ts er|ts|ts uid|ts msg p|ts er|ts p h x w d|ts d r']; try discriminate Hf.
  2:{ destruct (rx_status ts sw1 sw2 data 0x91 0xAE Hwf ltac:(done) ltac:(done)) as (E1 & E2 & E3).
    destruct (rx_status ts sw1 sw2 data 0x91 0xAD Hwf ltac:(done) ltac:(done)) as (_ & E4 & _).
    change (lit "sw=" ++ encode_hex [0x91; 0xAE]) with (lit "sw=91ae") in E2.
    change (lit "sw=" ++ encode_hex [0x91; 0xAD]) with (lit "sw=91ad") in E4.
    unfold parse_line. rewrite E1, E2, E3, E4. cbn [mark andb].
    rewrite !bool_decide_decide. repeat case_decide; simpl; by rewrite ?Hz. }
  all: destruct (quiet_line _ Hwf Hf) as [E1 E2]; try done;
    unfold parse_line; rewrite E1, E2; simpl; by rewrite !Hz.
Qed.

Lemma count_snoc m ms x : count m (ms ++ [x]) = count m ms + (if decide (x = m) then 1 else 0).
Proof. unfold count. rewrite filter_app, length_app. rewrite filter_cons, filter_nil. case_decide; simpl; lia. Qed.

Lemma tail_spends_snoc ms x :
  tail_spends (ms ++ [x]) =
    if decide (x = Wiped) then 0 else tail_spends ms + (if decide (x = Spend) then 1 else 0).
Proof.
  induction ms as [|m ms IH]; cbn [app tail_spends].
  - rewrite decide_False by set_solver. unfold count. simpl. repeat case_decide; congruence || lia.
  - destruct (decide (x = Wiped)) as [->|Hx].
    + rewrite decide_True by set_solver. rewrite IH. done.
    + rewrite IH, count_snoc. destruct (decide (Wiped ∈ ms)).
      * rewrite decide_True by set_solver. done.
      * rewrite decide_False by set_solver. lia.
Qed.

Lemma fold_marks ms :
  fold_left step_mark ms (mkBudgetReport 0 0 0 0 None, 0, false) =
  (mkBudgetReport (count Spend ms) (count Delayed ms) (count Wiped ms) (Z.of_nat (length ms)) None,
   tail_spends ms, bool_decide (Wiped ∈ ms)).
Proof.
  induction ms as [|x ms IH] using rev_ind; [done|].
  rewrite fold_left_app, IH, !count_snoc, tail_spends_snoc, length_app.
  assert (bool_decide (Wiped ∈ ms ++ [x]) = bool_decide (Wiped ∈ ms) || bool_decide (x = Wiped)) as ->.
  { apply eq_true_iff_eq. rewrite orb_true_iff, !bool_decide_eq_true. set_solver. }
  replace (Z.of_nat (length ms + length [x])) with (Z.of_nat (length ms) + 1) by (simpl; lia).
  rewrite !bool_decide_decide.
  destruct x; cbn [fold_left step_mark auth_failures delay_events wipes log_lines since_last_wipe];
    repeat (rewrite (decide_False (P := _ = _)) by done || rewrite (decide_True (P := _ = _)) by done);
    by rewrite ?Z.add_0_r, ?orb_false_r, ?orb_true_r.
Qed.

Lemma strip_cr_none l : last l ≠ Some 13 → strip_cr l = l.
Proof.
  intros H. unfold strip_cr. destruct (reverse l) as [|c r] eqn:E.
  - apply (f_equal reverse) in E. by rewrite reverse_involutive in E.
  - rewrite decide_False; [done|]. intros ->. apply H.
    apply (f_equal reverse) in E. rewrite reverse_involutive, reverse_cons in E. subst l. apply last_snoc.
Qed.

Lemma lines_log (ls : list (list Z)) :
  Forall (λ l, 10 ∉ l ∧ last l ≠ Some 13) ls → lines (l ← ls; l ++ [10]) = ls.
Proof.
  intros H. assert (split_on 10 [] (l ← ls; l ++ [10]) = ls ++ [[]]) as E.
  { induction H as [|l ls [Hl _] _ IH]; [done|]. cbn [mbind list_bind] in *.
    rewrite <-app_assoc. simpl. rewrite split_on_line by done. simpl. by rewrite IH. }
  unfold lines. rewrite E, reverse_app. simpl. rewrite app_nil_r, reverse_involutive.
  clear E. induction H as [|l ls [_ Hl] _ IH]; [done|]. by rewrite fmap_cons, strip_cr_none, IH.
Qed.

(** Upper-case dumps and decimal numbers hold no line break. *)
Lemma hex_plain l : bytes l → Forall (λ c, 48 ≤ c ≤ 70) (hex l).
Proof.
  assert (∀ n, is_nibble n → 48 ≤ hex_upper n ≤ 70) as Hd.
  { intros n Hn. assert (hex_upper n = if decide (n < 10) then 48 + n else 55 + n) as ->.
    { by_nibble Hn. } unfold is_nibble in Hn. case_decide; lia. }
  induction 1 as [|b l Hb _ IH]; [constructor|]. unfold hex in *. cbn [mbind list_bind app].
  constructor; [auto with bolty|]. constructor; [auto with bolty|done].
Qed.

Definition printable (c : Z) : Prop := 32 ≤ c ≤ 126.

Lemma printable_line l : Forall printable l → 10 ∉ l ∧ last l ≠ Some 13.
Proof.
  intros H. split.
  - rewrite Forall_forall in H. intros Hin. apply H in Hin. unfold printable in Hin. lia.
  - intros E. apply last_Some in E as [k ->]. apply Forall_app in H as [_ H].
    inversion H. unfold printable in *. lia.
Qed.

Lemma uint_printable z : 0 ≤ z → Forall printable (show_uint z).
Proof.
  intros H. eapply Forall_impl; [by apply show_dec_digits|]. unfold printable. simpl. lia.
Qed.

Lemma hex_printable l : bytes l → Forall printable (hex l).
Proof.
  intros H. eapply Forall_impl; [by apply hex_plain|]. unfold printable. simpl. lia.
Qed.

Lemma render_line e : well_formed e → 10 ∉ render e ∧ last (render e) ≠ Some 13.
Proof.
  assert (∀ ts, 0 ≤ ts → Forall printable (stamp ts)) as Hs.
  { intros ts H. unfold stamp. apply Forall_app. split; [by apply (bool_decide_unpack _); vm_compute|].
    apply Forall_app. split; [by apply uint_printable|by apply (bool_decide_unpack _); vm_compute]. }
  assert (∀ n : nat, Forall printable (show_uint (Z.of_nat n))) as Hn.
  { intros n. apply uint_printable. lia. }
  intros Hwf. destruct (free_text e) eqn:Hf; [destruct e; naive_solver|].
  destruct e as [ts apdu|ts sw1 sw2 data|ts er|ts|ts uid|ts msg p|ts er|ts p h x w d|ts d r];
    try discriminate Hf; cbn [render].
  - destruct Hwf. apply printable_line. rewrite !Forall_app.
    repeat split; auto using hex_printable; by apply (bool_decide_unpack _); vm_compute.
  - destruct Hwf as (? & ? & ? & ?). apply printable_line. rewrite !Forall_app.
    repeat split; auto using hex_printable; try by apply (bool_decide_unpack _); vm_compute.
    apply hex_printable. auto with bolty.
  - apply printable_line. rewrite !Forall_app. simpl in Hwf.
    repeat split; auto; by apply (bool_decide_unpack _); vm_compute.
  - destruct Hwf. apply printable_line. rewrite !Forall_app.
    repeat split; auto using hex_printable; by apply (bool_decide_unpack _); vm_compute.
Qed.

(** Budget accounting reads the audit log right: on any log the audit layer
    wrote, [parse_audit] counts exactly the responses with status 91AE as
    spent evaluations, the 91AD ones as delays, every wipe success, and the
    spends since the last wipe; APDU dumps never confuse it, whatever bytes
    they contain. *)
Theorem parse_audit_accounts (log : list AuditEntry) :
  Forall well_formed log → parse_audit (render_log log) = account log.
Proof.
  intros H. unfold parse_audit.
  assert (render_log log = (l ← render <$> log; l ++ [10])) as ->.
  { unfold render_log. clear H. induction log as [|e log IH]; [done|]. cbn [mbind list_bind fmap list_fmap] in *.
    by rewrite IH. }
  rewrite lines_log.
  2:{ apply Forall_fmap. eapply Forall_impl; [exact H|]. apply render_line. }
  assert (∀ st, fold_left parse_line (render <$> log) st = fold_left step_mark (mark <$> log) st) as ->.
  { induction H as [|e log He _ IH]; intros st; [done|]. rewrite !fmap_cons. cbn [fold_left].
    by rewrite parse_line_mark. }
  rewrite fold_marks. unfold account. rewrite length_fmap. cbn [auth_failures delay_events wipes log_lines].
  f_equal. rewrite bool_decide_decide. by case_decide.
Qed.

Definition sample_log : list AuditEntry :=
  [A_Tx 1 [0x90; 0x71; 0x91; 0xAE]; A_RxOk 1 0x91 0xAE [];
   A_Event 2 (lit "wipe: SUCCESS - all keys reset to factory zeros") (Some FactoryDefault);
   A_RxOk 3 0x91 0xAD []; A_RxOk 4 0x91 0xAE [0x77; 0x69]; A_GetUidOk 5 [4; 5]].

Lemma parse_audit_accounts_witness :
  parse_audit (render_log sample_log) = account sample_log ∧
  account sample_log = mkBudgetReport 2 1 1 6 (Some 1).
Proof.
  split; [|vm_compute; reflexivity].
  apply parse_audit_accounts. apply (bool_decide_unpack _). vm_compute. exact I.
Defined.
