(* ===== verification/AuditClock.v ===== *)
(** * The audit log as a file, and its clock

    [apps/bolty-cli/src/audit.rs] below the lines of [AuditLog]: the process-wide
    state (path, one-shot banner, clock-step flag, last stamp), the dates it
    writes without a calendar library, and the transport wrapper.

    The wall clock is a stream of readings, one per call of [now_epoch_ms]; the
    host name, the executable and the process id are arguments.  A file that
    cannot be opened swallows what is written to it. *)

From stdpp Require Import gmap.
From S2P Require Import Prelude Str Hex Assessment AuditLog.

(** ** Dates *)

(** [civil_from_days], the body of [wall_utc]; divisions as in the source. *)
Definition civil_from_days (days : Z) : Z * Z * Z :=
  let z := days + 719468 in
  let era := z `div` 146097 in
  let doe := z `mod` 146097 in
  let yoe := Z.quot (doe - Z.quot doe 1460 + Z.quot doe 36524 - Z.quot doe 146096) 365 in
  let y := yoe + era * 400 in
  let doy := doe - (365 * yoe + Z.quot yoe 4 - Z.quot yoe 100) in
  let mp := Z.quot (5 * doy + 2) 153 in
  let d := doy - Z.quot (153 * mp + 2) 5 + 1 in
  let month := if decide (mp < 10) then mp + 3 else mp - 9 in
  let year := if decide (month ≤ 2) then y + 1 else y in
  (year, month, d).

(** [as i64]. *)
Definition i64 (z : Z) : Z := (z + 2 ^ 63) `mod` 2 ^ 64 - 2 ^ 63.

Record Wall : Type := mkWall {
  w_date : Z * Z * Z; w_hour : Z; w_minute : Z; w_second : Z; w_milli : Z }.

Definition wall_fields (epoch_ms : Z) : Wall :=
  let secs := i64 (epoch_ms `div` 1000) in
  let ms := epoch_ms `mod` 1000 in
  let days := secs `div` 86400 in
  let secs_of_day := secs `mod` 86400 in
  mkWall (civil_from_days days) (Z.quot secs_of_day 3600) (Z.quot (Z.rem secs_of_day 3600) 60)
    (Z.rem secs_of_day 60) ms.

(** [{:0w}]. *)
Definition pad0 (w : nat) (z : Z) : list Z :=
  let s := show_uint z in replicate (w - length s) 48 ++ s.

Definition wall_utc (epoch_ms : Z) : list Z :=
  let f := wall_fields epoch_ms in
  let '(year, month, d) := w_date f in
  pad0 4 year ++ lit "-" ++ pad0 2 month ++ lit "-" ++ pad0 2 d ++ lit "T" ++ pad0 2 (w_hour f) ++ lit ":" ++
  pad0 2 (w_minute f) ++ lit ":" ++ pad0 2 (w_second f) ++ lit "." ++ pad0 3 (w_milli f) ++ lit "Z".

(** ** Reading a log back *)

Fixpoint parse_digits (acc : Z) (s : list Z) : option Z :=
  match s with
  | [] => Some acc
  | c :: s => if decide (48 ≤ c ≤ 57) then parse_digits (acc * 10 + (c - 48)) s else None
  end.

(** [str::parse::<u128>]: an optional plus sign, then digits that fit. *)
Definition parse_u128 (s : list Z) : option Z :=
  let s := match s with 43 :: ((_ :: _) as rest) => rest | _ => s end in
  if decide (s = []) then None
  else n ← parse_digits 0 s; if decide (n < 2 ^ 128) then Some n else None.

(** [lines().map_while(Result::ok)]: reading stops at a line that is not UTF-8. *)
Fixpoint text_lines (ls : list (list Z)) : list (list Z) :=
  match ls with
  | [] => []
  | l :: ls => match from_utf8 l with Some l => l :: text_lines ls | None => [] end
  end.

Definition line_epoch_ms (line : list Z) : option Z :=
  rest ← strip_prefix [91] line;
  p ← split_once 93 rest;
  parse_u128 p.1.

Definition last_line_epoch_ms (content : list Z) : option Z :=
  fold_left (λ last line, match line_epoch_ms line with Some v => Some v | None => last end)
    (text_lines (lines content)) None.

(** ** The process-wide state *)

Record Audit : Type := mkAudit {
  au_path : option (list Z);
  au_start : option Z;
  au_banner : bool;
  au_step_noted : bool;
  au_last_stamp : Z;
  au_ticks : nat;
  au_files : gmap (list Z) (list Z) }.

Definition DEFAULT_PATH : list Z := lit "/tmp/bolty-audit.log".

Definition set_audit_log_path (path : list Z) (s : Audit) : Audit :=
  mkAudit (Some path) (au_start s) (au_banner s) (au_step_noted s) (au_last_stamp s) (au_ticks s) (au_files s).

Definition audit_log_path (s : Audit) : list Z := default DEFAULT_PATH (au_path s).

Section audit.
  Context (clock : nat → Z) (writable : list Z → bool).
  Context (pid : Z) (hostname_file exe_file : option (list Z)).

Definition hostname : list Z :=
  match (λ h, to_ascii_lowercase <$> trim h) <$> hostname_file with
  | Some (_ :: _ as h) => h
  | _ => lit "unknown-host"
  end.

Definition exe_name : list Z := default (lit "unknown-exe") exe_file.

Definition now_epoch_ms (s : Audit) : Z * Audit :=
  (clock (au_ticks s),
   mkAudit (au_path s) (au_start s) (au_banner s) (au_step_noted s) (au_last_stamp s) (S (au_ticks s)) (au_files s)).

(** [*PROCESS_START_MS]: the lazy value is the reading at its first use. *)
Definition process_start (s : Audit) : Z * Audit :=
  match au_start s with
  | Some start => (start, s)
  | None =>
      let '(now, s) := now_epoch_ms s in
      (now, mkAudit (au_path s) (Some now) (au_banner s) (au_step_noted s) (au_last_stamp s) (au_ticks s) (au_files s))
  end.

(** Opened for appending, created if need be. *)
Definition write_raw (path entry : list Z) (s : Audit) : Audit :=
  if writable path then
    mkAudit (au_path s) (au_start s) (au_banner s) (au_step_noted s) (au_last_stamp s) (au_ticks s)
      (<[path := default [] (au_files s !! path) ++ entry ++ [10]]> (au_files s))
  else s.

Definition write_session_banner (path : list Z) (s : Audit) : Audit :=
  if au_banner s then s
  else
    let s := mkAudit (au_path s) (au_start s) true (au_step_noted s) (au_last_stamp s) (au_ticks s) (au_files s) in
    let '(now, s) := now_epoch_ms s in
    let delta :=
      last ← au_files s !! path ≫= last_line_epoch_ms;
      if decide (now + 1000 < last) then Some (last - now) else None in
    write_raw path (render (A_SessionStart now pid hostname exe_name (wall_utc now) delta)) s.

Definition log_entry (entry : list Z) (s : Audit) : Audit :=
  let path := audit_log_path s in
  write_raw path entry (write_session_banner path s).

Definition set_step_noted (s : Audit) : Audit :=
  mkAudit (au_path s) (au_start s) (au_banner s) true (au_last_stamp s) (au_ticks s) (au_files s).

Definition set_last_stamp (now : Z) (s : Audit) : Audit :=
  mkAudit (au_path s) (au_start s) (au_banner s) (au_step_noted s) (Z.min now (2 ^ 64 - 1)) (au_ticks s) (au_files s).

(** What a stamp is compared with. *)
Definition reference_ms (prev start : Z) : Z := if decide (prev ≠ 0) then Z.max prev start else start.

Definition timestamp (s : Audit) : Z * Audit :=
  let '(now, s) := now_epoch_ms s in
  let prev := au_last_stamp s in
  let '(start, s) := process_start s in
  let reference := reference_ms prev start in
  let s :=
    if decide (now + 1000 < reference) then
      if au_step_noted s then s
      else
        let s := set_step_noted s in
        let path := audit_log_path s in
        write_raw path (render (A_ClockStep now (reference - now) reference)) (write_session_banner path s)
    else s in
  (now, set_last_stamp now s).

Definition log_event_with_provenance (msg : list Z) (provenance : option KeyProvenance) (s : Audit) : Audit :=
  let '(ts, s) := timestamp s in
  log_entry (render (A_Event ts msg provenance)) s.

(** ** LoggingTransport *)

Record Response : Type := mkResponse { rsp_data : list Z; rsp_sw1 : Z; rsp_sw2 : Z }.

Section logging.
  Context {T TE : Type} (inner_transmit : list Z → M T TE Response) (inner_get_uid : M T TE (list Z)).
  Context (debug : TE → list Z).

Definition transmit (apdu : list Z) : M (T * Audit) TE Response := λ '(t, s),
  let '(ts, s) := timestamp s in
  let s := log_entry (render (A_Tx ts apdu)) s in
  let '(result, t) := inner_transmit apdu t in
  let entry := match result with
    | Ok resp => A_RxOk ts (rsp_sw1 resp) (rsp_sw2 resp) (rsp_data resp)
    | Err e => A_RxErr ts (debug e)
    end in
  (result, (t, log_entry (render entry) s)).

Definition get_uid : M (T * Audit) TE (list Z) := λ '(t, s),
  let '(ts, s) := timestamp s in
  let s := log_entry (render (A_GetUid ts)) s in
  let '(result, t) := inner_get_uid t in
  let entry := match result with
    | Ok uid => A_GetUidOk ts uid
    | Err e => A_GetUidErr ts (debug e)
    end in
  (result, (t, log_entry (render entry) s)).
End logging.
End audit.

(** ** Examples *)

Example wall_epoch : wall_utc 0 = lit "1970-01-01T00:00:00.000Z".
Proof. vm_compute. reflexivity. Qed.

Example wall_known : wall_utc 1793275200000 = lit "2026-10-29T12:00:00.000Z" ∧
  wall_utc 1800000000500 = lit "2027-01-15T08:00:00.500Z" ∧
  wall_utc 1709210096789 = lit "2024-02-29T12:34:56.789Z".
Proof. vm_compute. done. Qed.

(** ** The calendar

    The reference: one day after another by the Gregorian rules, from the epoch. *)

Definition leap (y : Z) : bool :=
  (y `mod` 4 =? 0) && (negb (y `mod` 100 =? 0) || (y `mod` 400 =? 0)).

Definition month_days (l : bool) (m : Z) : Z :=
  if m =? 2 then if l then 29 else 28
  else if (m =? 4) || (m =? 6) || (m =? 9) || (m =? 11) then 30 else 31.

Definition next_day (date : Z * Z * Z) : Z * Z * Z :=
  let '(y, m, d) := date in
  if d <? month_days (leap y) m then (y, m, d + 1)
  else if m <? 12 then (y, m + 1, 1)
  else (y + 1, 1, 1).

Definition date_of (n : nat) : Z * Z * Z := Nat.iter n next_day (1970, 1, 1).

Lemma forall_table (P : Z → bool) (n : nat) :
  forallb P (seqZ 0 (Z.of_nat n)) = true → ∀ i, 0 ≤ i < Z.of_nat n → P i = true.
Proof.
  intros H i Hi. rewrite forallb_forall in H. apply H, list_elem_of_In, elem_of_seqZ. lia.
Qed.

(** Days of an era before its year [y], which starts in March. *)
Definition year_start (y : Z) : Z := if y =? 400 then 146097 else 365 * y + y `quot` 4 - y `quot` 100.

(** The day of the era with the leap days taken out, whose quotient by 365 is
    the year. *)
Definition squeezed (doe : Z) : Z := doe - doe `quot` 1460 + doe `quot` 36524 - doe `quot` 146096.

Lemma squeezed_mono a b : 0 ≤ a ≤ b → b < 146097 → squeezed a ≤ squeezed b.
Proof.
  intros [Ha Hab]. pattern b. apply (Zlt_lower_bound_ind _ a); [|done]. clear b Hab. intros b IH Hab Hb.
  destruct (decide (a = b)) as [->|Hne]; [done|]. specialize (IH (b - 1) ltac:(lia) ltac:(lia)).
  etrans; [exact IH|]. clear IH. destruct (decide (b = 146096)) as [->|Hb6]; [by vm_compute|].
  unfold squeezed. rewrite !Z.quot_div_nonneg by lia. rewrite !(Z.div_small _ 146096) by lia.
  assert (b `div` 1460 ≤ (b - 1) `div` 1460 + 1).
  { rewrite <-Z.div_add by lia. apply Z.div_le_mono; lia. }
  assert ((b - 1) `div` 36524 ≤ b `div` 36524) by (apply Z.div_le_mono; lia). lia.
Qed.

Lemma year_table y : 0 ≤ y < 400 →
  365 * y ≤ squeezed (year_start y) ∧ squeezed (year_start (y + 1) - 1) < 365 * (y + 1) ∧
  year_start (y + 1) - year_start y = (if leap (y + 1) then 366 else 365) ∧ 0 ≤ year_start y.
Proof.
  intros Hy.
  pose proof (forall_table (λ y, (365 * y <=? squeezed (year_start y)) &&
    (squeezed (year_start (y + 1) - 1) <? 365 * (y + 1)) &&
    (year_start (y + 1) - year_start y =? if leap (y + 1) then 366 else 365) && (0 <=? year_start y)) 400
    ltac:(vm_compute; reflexivity) y Hy) as H.
  simpl in H. lia.
Qed.

Lemma year_of_day doe : 0 ≤ doe < 146097 →
  ∃ y, 0 ≤ y < 400 ∧ year_start y ≤ doe < year_start (y + 1).
Proof.
  intros Hd. assert (∀ n : nat, (n ≤ 400)%nat → doe < year_start (Z.of_nat n) →
    ∃ y, 0 ≤ y < 400 ∧ year_start y ≤ doe < year_start (y + 1)) as H.
  { induction n as [|n IH]; intros Hn Hlt; [change (year_start (Z.of_nat 0)) with 0 in Hlt; lia|].
    destruct (decide (doe < year_start (Z.of_nat n))); [apply IH; lia|].
    exists (Z.of_nat n). replace (Z.of_nat n + 1) with (Z.of_nat (S n)) by lia. lia. }
  apply (H 400%nat); [lia|]. change (year_start (Z.of_nat 400)) with 146097. lia.
Qed.

Lemma year_start_le y : 0 ≤ y < 400 → year_start (y + 1) ≤ 146097.
Proof.
  intros Hy. pose proof (forall_table (λ y, year_start (y + 1) <=? 146097) 400
    ltac:(vm_compute; reflexivity) y Hy) as H. simpl in H. lia.
Qed.

Lemma year_found y doe : 0 ≤ y < 400 → year_start y ≤ doe < year_start (y + 1) →
  squeezed doe `quot` 365 = y.
Proof.
  intros Hy [Hl Hu]. destruct (year_table y Hy) as (H1 & H2 & _ & H0). pose proof (year_start_le y Hy).
  pose proof (squeezed_mono (year_start y) doe ltac:(lia) ltac:(lia)).
  pose proof (squeezed_mono doe (year_start (y + 1) - 1) ltac:(lia) ltac:(lia)).
  rewrite Z.quot_div_nonneg by lia. symmetry. apply Z.div_unique_pos with (r := squeezed doe - 365 * y); lia.
Qed.

(** Month and day from the day of a March-based year; [off] counts January and
    February to the next year. *)
Definition month_day (doy : Z) : Z * Z * Z :=
  let mp := (5 * doy + 2) `quot` 153 in
  let d := doy - (153 * mp + 2) `quot` 5 + 1 in
  let month := if decide (mp < 10) then mp + 3 else mp - 9 in
  (if decide (month ≤ 2) then 1 else 0, month, d).

Definition at_year (y : Z) (p : Z * Z * Z) : Z * Z * Z := let '(off, m, d) := p in (y + off, m, d).

Lemma civil_day era y doy :
  0 ≤ y < 400 → 0 ≤ doy < year_start (y + 1) - year_start y →
  civil_from_days (era * 146097 + year_start y + doy - 719468) = at_year (era * 400 + y) (month_day doy).
Proof.
  intros Hy Hd. destruct (year_table y Hy) as (_ & _ & _ & H0). pose proof (year_start_le y Hy).
  unfold civil_from_days.
  replace (era * 146097 + year_start y + doy - 719468 + 719468) with (year_start y + doy + era * 146097) by lia.
  rewrite Z.div_add, Z.mod_add, Z.div_small, Z.mod_small by lia.
  change (year_start y + doy - ?a + ?b - ?c) with (squeezed (year_start y + doy)).
  rewrite (year_found y) by lia.
  replace (year_start y + doy - (365 * y + y `quot` 4 - y `quot` 100)) with doy
    by (unfold year_start; destruct (Z.eqb_spec y 400); lia).
  unfold month_day. cbv zeta. unfold at_year. repeat f_equal; case_decide; lia.
Qed.

(** The next day of a March-based year, by its length. *)
Definition next_off (l : bool) (p : Z * Z * Z) : Z * Z * Z :=
  let '(off, m, d) := p in
  if d <? month_days l m then (off, m, d + 1)
  else if m <? 12 then (off, m + 1, 1)
  else (off + 1, 1, 1).

Lemma month_table (l : bool) (doy : Z) : 0 ≤ doy → doy + 1 < (if l then 366 else 365) →
  next_off l (month_day doy) = month_day (doy + 1).
Proof.
  intros H0 H1. apply (bool_decide_eq_true_1 _). revert doy H0 H1.
  assert (∀ b (n : nat), forallb (λ doy, bool_decide (next_off b (month_day doy) = month_day (doy + 1)))
    (seqZ 0 (Z.of_nat n)) = true → ∀ doy, 0 ≤ doy → doy < Z.of_nat n →
    bool_decide (next_off b (month_day doy) = month_day (doy + 1)) = true) as Ht.
  { intros b n H doy H0 H1. by apply (forall_table _ n H doy). }
  intros doy H0 H1. destruct l; [apply (Ht true 365%nat)|apply (Ht false 364%nat)];
    (by vm_compute) || lia.
Qed.

(** February, the only month whose length varies, belongs to the next year. *)
Lemma february_off doy : 0 ≤ doy < 366 → (month_day doy).1.2 = 2 → (month_day doy).1.1 = 1.
Proof.
  intros Hd Hm. unfold month_day in *. simpl in *. rewrite Hm. by rewrite decide_True by lia.
Qed.

Lemma month_days_other l l' m : m ≠ 2 → month_days l m = month_days l' m.
Proof. intros Hm. unfold month_days. by rewrite (proj2 (Z.eqb_neq m 2) Hm). Qed.

Lemma next_at_year y p l :
  (p.1.2 = 2 → p.1.1 = 1) → leap (y + 1) = l → next_day (at_year y p) = at_year y (next_off l p).
Proof.
  destruct p as [[off m] d]. simpl. intros Hoff <-. unfold next_day, next_off, at_year.
  assert (month_days (leap (y + off)) m = month_days (leap (y + 1)) m) as ->.
  { destruct (decide (m = 2)) as [->|Hm]; [by rewrite Hoff|by apply month_days_other]. }
  destruct (d <? _); [done|]. destruct (m <? 12); [done|]. by rewrite Z.add_assoc.
Qed.

Lemma leap_era era y : leap (era * 400 + y) = leap y.
Proof.
  unfold leap. replace (era * 400 + y) with (y + (era * 100) * 4) at 1 by lia.
  replace (era * 400 + y) with (y + (era * 4) * 100) at 1 by lia.
  replace (era * 400 + y) with (y + era * 400) by lia. by rewrite !Z.mod_add by lia.
Qed.

(** The last day of a March-based year is the last of February. *)
Lemma year_end (y : Z) (l : bool) :
  leap (y + 1) = l → next_day (at_year y (month_day (if l then 365 else 364))) = (y + 1, 3, 1).
Proof.
  intros Hl. rewrite (next_at_year _ _ l); [|by destruct l|done]. by destruct l.
Qed.

Lemma year_start_first : year_start 0 = 0.
Proof. reflexivity. Qed.
Lemma year_start_second : year_start (0 + 1) = 365.
Proof. reflexivity. Qed.
Lemma year_start_last : year_start (399 + 1) = 146097.
Proof. reflexivity. Qed.
Lemma march_first : month_day 0 = (0, 3, 1).
Proof. reflexivity. Qed.

Lemma civil_step z : civil_from_days (z + 1) = next_day (civil_from_days z).
Proof.
  set (era := (z + 719468) `div` 146097). set (doe := (z + 719468) `mod` 146097).
  assert (z = era * 146097 + doe - 719468) as Ez by (unfold era, doe; pose proof (Z.div_mod (z + 719468) 146097); lia).
  assert (0 ≤ doe < 146097) as Hdoe by (apply Z.mod_pos_bound; lia). clearbody era doe. subst z.
  destruct (year_of_day doe Hdoe) as (y & Hy & Hd).
  destruct (year_table y Hy) as (_ & _ & Hlen & H0).
  set (doy := doe - year_start y). assert (doe = year_start y + doy) as Edoe by (unfold doy; lia). clearbody doy. subst doe.
  rewrite Z.add_assoc, (civil_day era y doy) by lia.
  assert (leap (era * 400 + y + 1) = leap (y + 1)) as Hleap by (rewrite <-Z.add_assoc; apply leap_era).
  destruct (decide (doy + 1 < year_start (y + 1) - year_start y)) as [Hin|Hout].
  - replace (era * 146097 + year_start y + doy - 719468 + 1)
      with (era * 146097 + year_start y + (doy + 1) - 719468) by lia.
    rewrite civil_day by lia. rewrite (next_at_year _ _ (leap (y + 1))); [|apply february_off|done].
    + by rewrite month_table by (destruct (leap (y + 1)); lia).
    + destruct (leap (y + 1)); lia.
  - assert (doy = if leap (y + 1) then 365 else 364) as -> by (destruct (leap (y + 1)); lia).
    rewrite year_end by done.
    replace (era * 146097 + year_start y + (if leap (y + 1) then 365 else 364) - 719468 + 1)
      with (era * 146097 + year_start (y + 1) + 0 - 719468) by (destruct (leap (y + 1)); lia).
    destruct (decide (y = 399)) as [->|Hne].
    + replace (era * 146097 + year_start (399 + 1) + 0 - 719468)
        with ((era + 1) * 146097 + year_start 0 + 0 - 719468) by (rewrite year_start_last, year_start_first; lia).
      rewrite civil_day, march_first; [|lia|rewrite year_start_first, year_start_second; lia].
      unfold at_year. f_equal. f_equal. lia.
    + destruct (year_table (y + 1) ltac:(lia)) as (_ & _ & Hl' & _).
      assert (0 < year_start (y + 1 + 1) - year_start (y + 1)) by (rewrite Hl'; destruct (leap (y + 1 + 1)); lia).
      rewrite civil_day, march_first by lia. unfold at_year. f_equal. f_equal. lia.
Qed.

Lemma civil_date (n : nat) : civil_from_days (Z.of_nat n) = date_of n.
Proof.
  induction n as [|n IH]; [by vm_compute|].
  replace (Z.of_nat (S n)) with (Z.of_nat n + 1) by lia. rewrite civil_step, IH. done.
Qed.

(** The audit log's wall-clock times are right: for every instant before the
    year 292 million the date is the one reached by counting days one by one from
    the epoch by the Gregorian rules, and hour, minute, second and millisecond are
    in range and add up to the time of day. *)
Theorem wall_fields_correct (epoch_ms : Z) :
  0 ≤ epoch_ms < 2 ^ 63 * 1000 →
  let w := wall_fields epoch_ms in
  w_date w = date_of (Z.to_nat (epoch_ms `div` 86400000)) ∧
  0 ≤ w_hour w < 24 ∧ 0 ≤ w_minute w < 60 ∧ 0 ≤ w_second w < 60 ∧ 0 ≤ w_milli w < 1000 ∧
  ((w_hour w * 60 + w_minute w) * 60 + w_second w) * 1000 + w_milli w = epoch_ms `mod` 86400000.
Proof.
  intros H. unfold wall_fields. simpl.
  assert (0 ≤ epoch_ms `div` 1000 < 2 ^ 63) as Hs
    by (split; [apply Z.div_pos; lia|apply Z.div_lt_upper_bound; lia]).
  assert (i64 (epoch_ms `div` 1000) = epoch_ms `div` 1000) as ->
    by (unfold i64; rewrite Z.mod_small; lia).
  assert (epoch_ms `div` 1000 `div` 86400 = epoch_ms `div` 86400000) as Hd by (rewrite Z.div_div by lia; done).
  rewrite Hd. split.
  - rewrite <-civil_date. f_equal. rewrite Z2Nat.id; [done|]. apply Z.div_pos; lia.
  - clear Hs Hd. Z.to_euclidean_division_equations. lia.
Qed.

(** ** The trail

    [AuditOp] is one stamped operation: a stamp, then the entries that carry it
    (an event, or the two lines of an exchange). *)

Definition AuditOp : Type := list (Z → AuditEntry).

Definition is_banner (e : AuditEntry) : bool := match e with A_SessionStart _ _ _ _ _ _ => true | _ => false end.
Definition is_step (e : AuditEntry) : bool := match e with A_ClockStep _ _ _ => true | _ => false end.
Definition own (e : AuditEntry) : bool := negb (is_banner e) && negb (is_step e).

Definition file (s : Audit) (path : list Z) : list Z := default [] (au_files s !! path).

Section trail.
  Context (clock : nat → Z) (writable : list Z → bool).
  Context (pid : Z) (hostname_file exe_file : option (list Z)).

  Local Notation write_raw := (write_raw writable).
  Local Notation write_session_banner := (write_session_banner clock writable pid hostname_file exe_file).
  Local Notation log_entry := (log_entry clock writable pid hostname_file exe_file).
  Local Notation timestamp := (timestamp clock writable pid hostname_file exe_file).

Definition log_all (ts : Z) (op : AuditOp) (s : Audit) : Audit :=
  fold_left (λ s e, log_entry (render (e ts)) s) op s.

Definition run_op (op : AuditOp) (s : Audit) : Audit :=
  let '(ts, s) := timestamp s in log_all ts op s.

Fixpoint run_ops (ops : list AuditOp) (s : Audit) : Audit :=
  match ops with [] => s | op :: ops => run_ops ops (run_op op s) end.

(** An event and a wrapped exchange are such operations; the wrapper returns what
    the inner transport returns and leaves it in the same state. *)
Lemma log_event_run msg prov s :
  log_event_with_provenance clock writable pid hostname_file exe_file msg prov s =
  run_op [λ ts, A_Event ts msg prov] s.
Proof. unfold log_event_with_provenance, run_op. by destruct (timestamp s). Qed.

Lemma transmit_run {T TE} (inner : list Z → M T TE Response) debug apdu t s :
  transmit clock writable pid hostname_file exe_file inner debug apdu (t, s) =
  let '(r, t') := inner apdu t in
  (r, (t', run_op [λ ts, A_Tx ts apdu;
                   λ ts, match r with
                         | Ok resp => A_RxOk ts (rsp_sw1 resp) (rsp_sw2 resp) (rsp_data resp)
                         | Err e => A_RxErr ts (debug e)
                         end] s)).
Proof.
  unfold transmit, run_op, log_all. destruct (timestamp s) as [ts s1]. by destruct (inner apdu t) as [[r|e] t'].
Qed.

Lemma get_uid_run {T TE} (inner : M T TE (list Z)) debug t s :
  get_uid clock writable pid hostname_file exe_file inner debug (t, s) =
  let '(r, t') := inner t in
  (r, (t', run_op [λ ts, A_GetUid ts;
                   λ ts, match r with
                         | Ok uid => A_GetUidOk ts uid
                         | Err e => A_GetUidErr ts (debug e)
                         end] s)).
Proof.
  unfold get_uid, run_op, log_all. destruct (timestamp s) as [ts s1]. by destruct (inner t) as [[r|e] t'].
Qed.

(** *** What an operation writes *)

Definition banner_entry (path : list Z) (s : Audit) : AuditEntry :=
  let now := clock (au_ticks s) in
  A_SessionStart now pid (hostname hostname_file) (exe_name exe_file) (wall_utc now)
    (last ← au_files s !! path ≫= last_line_epoch_ms;
     if decide (now + 1000 < last) then Some (last - now) else None).

Definition banner_log (path : list Z) (s : Audit) : list AuditEntry :=
  if au_banner s then [] else [banner_entry path s].

Record wrote (path : list Z) (log : list AuditEntry) (s s' : Audit) : Prop := {
  wr_path : au_path s' = au_path s;
  wr_file : file s' path = file s path ++ render_log log;
  wr_other : ∀ q, q ≠ path → au_files s' !! q = au_files s !! q }.

Lemma wrote_nil path s s' : au_path s' = au_path s → au_files s' = au_files s → wrote path [] s s'.
Proof. intros Hp Hf. split; [done| |by rewrite Hf]. unfold file. rewrite Hf. simpl. by rewrite app_nil_r. Qed.

Lemma wrote_app path l1 l2 s1 s2 s3 :
  wrote path l1 s1 s2 → wrote path l2 s2 s3 → wrote path (l1 ++ l2) s1 s3.
Proof.
  intros [P1 F1 O1] [P2 F2 O2]. split; [congruence| |].
  - rewrite F2, F1, <-app_assoc. unfold render_log. by rewrite bind_app.
  - intros q Hq. rewrite O2, O1; done.
Qed.

Lemma write_raw_wrote path e s : writable path = true → wrote path [e] s (write_raw path (render e) s).
Proof.
  intros Hw. unfold AuditClock.write_raw. rewrite Hw. split; [done| |].
  - unfold file. simpl. rewrite lookup_insert_eq. simpl. by rewrite app_nil_r.
  - intros q Hq. simpl. by apply lookup_insert_ne.
Qed.

(** Everything but the files and the clock is kept by a write. *)
Definition flags (s : Audit) : bool * bool * Z * option Z :=
  (au_banner s, au_step_noted s, au_last_stamp s, au_start s).

Lemma write_raw_flags path e s : flags (write_raw path e s) = flags s ∧ au_ticks (write_raw path e s) = au_ticks s.
Proof. unfold AuditClock.write_raw. by destruct (writable path). Qed.

Lemma banner_wrote path s : writable path = true →
  wrote path (banner_log path s) s (write_session_banner path s) ∧
  flags (write_session_banner path s) = (true, au_step_noted s, au_last_stamp s, au_start s).
Proof.
  intros Hw. unfold banner_log, AuditClock.write_session_banner.
  destruct (au_banner s) eqn:Eb; [by split; [apply wrote_nil|unfold flags; rewrite Eb]|].
  cbn [now_epoch_ms au_ticks au_files]. set (s1 := mkAudit _ _ _ _ _ _ _). split.
  - apply (wrote_app path [] [banner_entry path s] s s1); [by apply wrote_nil|]. by apply write_raw_wrote.
  - rewrite (proj1 (write_raw_flags _ _ _)). done.
Qed.

Lemma log_entry_wrote e s : writable (audit_log_path s) = true →
  wrote (audit_log_path s) (banner_log (audit_log_path s) s ++ [e]) s (log_entry (render e) s) ∧
  flags (log_entry (render e) s) = (true, au_step_noted s, au_last_stamp s, au_start s).
Proof.
  intros Hw. unfold AuditClock.log_entry. destruct (banner_wrote _ s Hw) as [H1 H2]. split.
  - eapply wrote_app; [exact H1|by apply write_raw_wrote].
  - by rewrite (proj1 (write_raw_flags _ _ _)).
Qed.

Lemma wrote_log_path path l s s' : wrote path l s s' → audit_log_path s' = audit_log_path s.
Proof. intros [Hp _ _]. unfold audit_log_path. by rewrite Hp. Qed.

(** All the entries of an operation, after its stamp. *)
Lemma log_all_wrote ts op s : writable (audit_log_path s) = true → op ≠ [] →
  wrote (audit_log_path s) (banner_log (audit_log_path s) s ++ ((λ e, e ts) <$> op)) s (log_all ts op s) ∧
  flags (log_all ts op s) = (true, au_step_noted s, au_last_stamp s, au_start s).
Proof.
  intros Hw. revert s Hw. induction op as [|e op IH]; intros s Hw Hne; [done|]. unfold log_all. simpl.
  destruct (log_entry_wrote (e ts) s Hw) as [H1 H2]. pose proof (wrote_log_path _ _ _ _ H1) as Hp.
  pose proof H2 as H2'. injection H2' as Hb Hn Hl Hs.
  destruct op as [|e' op]; [by split|].
  destruct (IH (log_entry (render (e ts)) s)) as [H3 H4]; [by rewrite Hp|done|].
  rewrite Hp in H3. unfold log_all in H3, H4. split.
  - eapply wrote_app in H3; [|exact H1]. unfold banner_log at 2 in H3. rewrite Hb in H3.
    rewrite <-app_assoc in H3. exact H3.
  - rewrite H4. by rewrite Hn, Hl, Hs.
Qed.

(** The stamp: its reading, and the reference it is compared with. *)
Definition stamp_of (s : Audit) : Z := clock (au_ticks s).

Definition start_of (s : Audit) : Z := default (clock (S (au_ticks s))) (au_start s).

Definition reference_of (s : Audit) : Z := reference_ms (au_last_stamp s) (start_of s).

Definition stepped (s : Audit) : bool := bool_decide (stamp_of s + 1000 < reference_of s).

(** The state in which the stamp is compared. *)
Definition stamped (s : Audit) : Audit := (process_start clock (now_epoch_ms clock s).2).2.

Definition step_log (path : list Z) (s : Audit) : list AuditEntry :=
  if stepped s && negb (au_step_noted s)
  then banner_log path (stamped s) ++ [A_ClockStep (stamp_of s) (reference_of s - stamp_of s) (reference_of s)]
  else [].

Lemma stamped_flags s :
  flags (stamped s) = (au_banner s, au_step_noted s, au_last_stamp s, Some (start_of s)) ∧
  au_path (stamped s) = au_path s ∧ au_files (stamped s) = au_files s.
Proof. unfold stamped, process_start, start_of, flags. simpl. by destruct (au_start s) eqn:E; simpl; rewrite ?E. Qed.

Lemma stamp_start s : process_start clock (now_epoch_ms clock s).2 = (start_of s, stamped s).
Proof. unfold process_start, start_of, stamped. simpl. by destruct (au_start s). Qed.

Lemma timestamp_wrote s : writable (audit_log_path s) = true →
  let '(ts, s') := timestamp s in
  ts = stamp_of s ∧ wrote (audit_log_path s) (step_log (audit_log_path s) s) s s' ∧
  flags s' = (au_banner s || (stepped s && negb (au_step_noted s)), au_step_noted s || stepped s,
              Z.min (stamp_of s) (2 ^ 64 - 1), Some (start_of s)).
Proof.
  intros Hw. pose proof (stamped_flags s) as (Hf & Hp & Hfs). unfold stamped in Hf, Hp, Hfs.
  unfold AuditClock.timestamp, step_log, stepped, reference_of.
  change (now_epoch_ms clock s) with (stamp_of s, (now_epoch_ms clock s).2). cbv iota beta.
  change (au_last_stamp (now_epoch_ms clock s).2) with (au_last_stamp s). rewrite stamp_start.
  unfold stamped in Hf, Hp, Hfs. fold (stamped s) in Hf, Hp, Hfs. injection Hf as Hb Hn Hl Hs.
  split; [done|]. set (ref := reference_ms _ _).
  assert (audit_log_path (stamped s) = audit_log_path s) as Hpath by (unfold audit_log_path; by rewrite Hp).
  assert (∀ l s', wrote (audit_log_path s) l s s' → wrote (audit_log_path s) l s (set_last_stamp (stamp_of s) s')) as Hset.
  { intros l s' [W1 W2 W3]. by split. }
  case_bool_decide as Hd.
  - rewrite decide_True by done. rewrite Hn. destruct (au_step_noted s) eqn:En; cbn [andb negb].
    + split; [by apply Hset, wrote_nil|]. unfold flags. simpl. by rewrite Hb, Hn, Hs, orb_false_r.
    + set (s1 := set_step_noted (stamped s)). change (audit_log_path s1) with (audit_log_path (stamped s)).
      rewrite Hpath. destruct (banner_wrote (audit_log_path s) s1 Hw) as [H1 H2].
      injection H2 as Hb2 Hn2 Hl2 Hs2. split.
      * apply Hset. change (banner_log (audit_log_path s) (stamped s)) with (banner_log (audit_log_path s) s1).
        eapply wrote_app; [|by apply write_raw_wrote].
        apply (wrote_app _ [] _ s s1); [by apply wrote_nil|exact H1].
      * pose proof (proj1 (write_raw_flags (audit_log_path s)
          (render (A_ClockStep (stamp_of s) (ref - stamp_of s) ref)) (write_session_banner (audit_log_path s) s1))) as Hr.
        unfold flags in *. injection Hr as Hr1 Hr2 Hr3 Hr4. simpl. rewrite Hr1, Hr2, Hr4, Hb2, Hn2, Hs2. simpl.
        by rewrite orb_true_r, Hs.
  - rewrite decide_False by done. cbn [andb]. split; [by apply Hset, wrote_nil|].
    unfold flags. simpl. by rewrite Hb, Hn, Hs, !orb_false_r.
Qed.

Definition entries (op : AuditOp) (ts : Z) : list AuditEntry := (λ e, e ts) <$> op.

(** The lines an operation adds: the banner if it is the first, the note if the
    clock has stepped back for the first time, its own entries. *)
Definition op_log (op : AuditOp) (s : Audit) : list AuditEntry :=
  step_log (audit_log_path s) s ++ banner_log (audit_log_path s) (timestamp s).2 ++ entries op (stamp_of s).

Fixpoint run_log (ops : list AuditOp) (s : Audit) : list AuditEntry :=
  match ops with [] => [] | op :: ops => op_log op s ++ run_log ops (run_op op s) end.

Fixpoint run_entries (ops : list AuditOp) (s : Audit) : list AuditEntry :=
  match ops with [] => [] | op :: ops => entries op (stamp_of s) ++ run_entries ops (run_op op s) end.

(** The banner of a session that starts on these files. *)
Definition session_banner (path : list Z) (s : Audit) (b : AuditEntry) : Prop :=
  ∃ now, b = A_SessionStart now pid (hostname hostname_file) (exe_name exe_file) (wall_utc now)
    (last ← au_files s !! path ≫= last_line_epoch_ms;
     if decide (now + 1000 < last) then Some (last - now) else None).

Lemma op_log_shape op s : writable (audit_log_path s) = true → ∃ b, session_banner (audit_log_path s) s b ∧
  op_log op s = (if au_banner s then [] else [b]) ++
    (if stepped s && negb (au_step_noted s)
     then [A_ClockStep (stamp_of s) (reference_of s - stamp_of s) (reference_of s)] else []) ++
    entries op (stamp_of s).
Proof.
  intros Hw. pose proof (timestamp_wrote s Hw) as Ht. destruct (stamped_flags s) as (Hf & _ & Hfs).
  unfold op_log, step_log. destruct (timestamp s) as [ts s1] eqn:E. destruct Ht as (_ & Hwr & Hf1).
  cbn [snd]. unfold banner_log. injection Hf as -> _ _ _. injection Hf1 as -> _ _ _.
  destruct (stepped s && negb (au_step_noted s)) eqn:Es.
  - exists (banner_entry (audit_log_path s) (stamped s)). split.
    + unfold banner_entry. rewrite Hfs. by eexists.
    + rewrite orb_true_r. destruct (au_banner s); by rewrite <-?app_assoc.
  - exists (banner_entry (audit_log_path s) s1). split; [|by destruct (au_banner s)].
    assert (au_files s1 = au_files s) as Hfiles.
    { unfold AuditClock.timestamp in E. change (now_epoch_ms clock s) with (stamp_of s, (now_epoch_ms clock s).2) in E.
      cbv iota beta in E.
      rewrite stamp_start in E. change (au_last_stamp (now_epoch_ms clock s).2) with (au_last_stamp s) in E.
      unfold stepped, reference_of in Es. destruct (stamped_flags s) as (Hf & _ & Hfs'). injection Hf as _ Hn _ _.
      rewrite Hn in E. case_bool_decide; [rewrite decide_True in E by done|rewrite decide_False in E by done].
      - destruct (au_step_noted s); [|done]. by injection E as _ <-.
      - by injection E as _ <-. }
    unfold banner_entry. rewrite Hfiles. by eexists.
Qed.

Lemma run_op_wrote op s : writable (audit_log_path s) = true → op ≠ [] →
  wrote (audit_log_path s) (op_log op s) s (run_op op s) ∧
  flags (run_op op s) = (true, au_step_noted s || stepped s, Z.min (stamp_of s) (2 ^ 64 - 1), Some (start_of s)).
Proof.
  intros Hw Hne. unfold run_op, op_log. pose proof (timestamp_wrote s Hw) as Ht.
  destruct (timestamp s) as [ts s1]. destruct Ht as (-> & Hwr & Hf). pose proof (wrote_log_path _ _ _ _ Hwr) as Hp.
  destruct (log_all_wrote (stamp_of s) op s1) as [H1 H2]; [by rewrite Hp|done|]. rewrite Hp in H1.
  split; [by eapply wrote_app|]. rewrite H2. injection Hf as _ -> -> ->. done.
Qed.

(** Operations of the other parts of the tool: at least one line each, never a
    banner or a note. *)
Definition proper_op (op : AuditOp) : Prop := op ≠ [] ∧ ∀ ts, Forall (λ e, own e = true) (entries op ts).

Lemma run_ops_wrote ops s : writable (audit_log_path s) = true → Forall proper_op ops →
  wrote (audit_log_path s) (run_log ops s) s (run_ops ops s) ∧
  au_step_noted (run_ops ops s) = au_step_noted s || existsb is_step (run_log ops s).
Proof.
  intros Hw Hops. revert s Hw. induction Hops as [|op ops [Hne Hown] _ IH]; intros s Hw; simpl.
  { split; [by apply wrote_nil|]. by rewrite orb_false_r. }
  destruct (run_op_wrote op s Hw Hne) as [H1 H2]. pose proof (wrote_log_path _ _ _ _ H1) as Hp.
  destruct (IH (run_op op s)) as [H3 H4]; [by rewrite Hp|]. rewrite Hp in H3.
  split; [by eapply wrote_app|]. rewrite H4, existsb_app. injection H2 as _ -> _ _.
  destruct (op_log_shape op s Hw) as (b & [now ->] & ->). rewrite !existsb_app.
  assert (existsb is_step (entries op (stamp_of s)) = false) as ->.
  { apply not_true_iff_false. rewrite existsb_exists. intros (e & He & Hs). specialize (Hown (stamp_of s)).
    rewrite Forall_forall in Hown. apply list_elem_of_In, Hown in He. unfold own in He. rewrite Hs, andb_false_r in He. done. }
  by destruct (au_banner s), (stepped s), (au_step_noted s).
Qed.

(** Own entries, notes and banners of the lines of a run. *)
Lemma entries_own op ts : proper_op op → List.filter own (entries op ts) = entries op ts ∧
  List.filter is_step (entries op ts) = [] ∧ Forall (λ e, is_banner e = false) (entries op ts).
Proof.
  intros [_ H]. specialize (H ts). induction H as [|e l He _ (IH1 & IH2 & IH3)]; [done|].
  unfold own in He. apply andb_true_iff in He as [Hb Hs]. apply negb_true_iff in Hb, Hs. simpl.
  rewrite Hs, IH2. unfold own at 1. rewrite Hb, Hs. simpl. rewrite IH1. auto.
Qed.

Lemma run_log_counts ops s : writable (audit_log_path s) = true → Forall proper_op ops →
  List.filter own (run_log ops s) = run_entries ops s ∧
  (length (List.filter is_step (run_log ops s)) ≤ if au_step_noted s then 0 else 1)%nat ∧
  (au_banner s = true → Forall (λ e, is_banner e = false) (run_log ops s)).
Proof.
  intros Hw Hops. revert s Hw. induction Hops as [|op ops Hop _ IH]; intros s Hw; simpl; [split; [done|]; split; [lia|done]|].
  destruct (run_op_wrote op s Hw (proj1 Hop)) as [H1 H2]. pose proof (wrote_log_path _ _ _ _ H1) as Hp.
  destruct (IH (run_op op s)) as (I1 & I2 & I3); [by rewrite Hp|]. injection H2 as Hb2 Hn2 _ _. rewrite Hn2 in I2.
  destruct (op_log_shape op s Hw) as (b & [now ->] & ->).
  destruct (entries_own op (stamp_of s) Hop) as (E1 & E2 & E3).
  rewrite !List.filter_app, I1, E1, E2, !length_app.
  split; [|split].
  - by destruct (au_banner s), (stepped s), (au_step_noted s).
  - destruct (au_banner s), (stepped s), (au_step_noted s); simpl in *; lia.
  - intros ->. rewrite !Forall_app. split; [|by apply I3]. split; [done|]. split; [|done].
    destruct (stepped s && _); repeat constructor.
Qed.

Lemma run_ops_app a b s : run_ops (a ++ b) s = run_ops b (run_ops a s).
Proof. revert s. induction a as [|op a IH]; intros s; [done|]. apply IH. Qed.

Lemma run_log_app a b s : run_log (a ++ b) s = run_log a s ++ run_log b (run_ops a s).
Proof. revert s. induction a as [|op a IH]; intros s; [done|]. simpl. by rewrite IH, app_assoc. Qed.

(** A stamp far below its predecessor is preceded by a note. *)
Lemma step_back_noted pre op1 op2 s :
  (∀ n, 0 ≤ clock n) → writable (audit_log_path s) = true → Forall proper_op (pre ++ [op1; op2]) →
  au_step_noted s = false →
  let s1 := run_ops pre s in
  let s2 := run_op op1 s1 in
  stamp_of s2 + 1000 < stamp_of s1 < 2 ^ 64 →
  ∃ l, run_log (pre ++ [op1; op2]) s = l ++ entries op2 (stamp_of s2) ∧ existsb is_step l = true.
Proof.
  intros Hclock Hw Hops Hn s1 s2 [Hback Hmax].
  replace (pre ++ [op1; op2]) with ((pre ++ [op1]) ++ [op2]) in * by (by rewrite <-app_assoc).
  apply Forall_app in Hops as [Hpre Hop2]. rewrite run_log_app.
  assert (run_ops (pre ++ [op1]) s = s2) as Es2 by (rewrite run_ops_app; done). rewrite Es2.
  destruct (run_ops_wrote (pre ++ [op1]) s Hw Hpre) as [W1 W2]. rewrite Es2 in W1, W2.
  pose proof (wrote_log_path _ _ _ _ W1) as Hp2.
  apply Forall_app in Hpre as [Hpre Hop1]. inversion_clear Hop1 as [|? ? [Hne1 _] _].
  destruct (run_ops_wrote pre s Hw Hpre) as [V1 _]. fold s1 in V1. pose proof (wrote_log_path _ _ _ _ V1) as Hp1.
  destruct (run_op_wrote op1 s1) as [_ F]; [by rewrite Hp1|done|]. fold s2 in F. injection F as Fb Fn Fl Fs.
  assert (stepped s2 = true) as Hst.
  { unfold stepped. apply bool_decide_eq_true. unfold reference_of, reference_ms. rewrite Fl.
    pose proof (Hclock (au_ticks s2)). unfold stamp_of in *. case_decide; lia. }
  destruct (op_log_shape op2 s2) as (b & _ & E); [by rewrite Hp2|]. simpl. rewrite E, Fb, Hst, app_nil_r. simpl.
  rewrite Hn in W2. simpl in W2. rewrite app_assoc. eexists. split; [done|]. rewrite existsb_app, <-W2.
  destruct (au_step_noted s2); simpl; [done|]. done.
Qed.

(** C40. The audit trail is complete, append-only and self-describing. Run any
    operations of the tool from the start of the process: if the log can be
    opened, its old content is kept and exactly the following lines are appended,
    other files untouched: first one session banner, which flags a log whose last
    stamp is more than a second ahead of the clock; then every entry of every
    operation, in order and with its stamp; and among them at most one note of a
    clock that stepped back, which precedes the first entry stamped more than a
    second before its predecessor. A path that can be opened takes whole lines, and
    no other process writes to it. *)
Theorem audit_trail (ops : list AuditOp) (s : Audit) :
  (∀ n, 0 ≤ clock n) → au_banner s = false → au_step_noted s = false →
  writable (audit_log_path s) = true → ops ≠ [] → Forall proper_op ops →
  ∃ b rest, run_log ops s = b :: rest ∧
    wrote (audit_log_path s) (b :: rest) s (run_ops ops s) ∧
    session_banner (audit_log_path s) s b ∧ Forall (λ e, is_banner e = false) rest ∧
    List.filter own rest = run_entries ops s ∧ (length (List.filter is_step rest) ≤ 1)%nat ∧
    ∀ pre op1 op2 post, ops = pre ++ op1 :: op2 :: post →
      let s1 := run_ops pre s in
      let s2 := run_op op1 s1 in
      stamp_of s2 + 1000 < stamp_of s1 < 2 ^ 64 →
      ∃ l, run_log (pre ++ [op1; op2]) s = l ++ entries op2 (stamp_of s2) ∧ existsb is_step l = true.
Proof.
  intros Hclock Hb Hn Hw Hne Hops.
  destruct (run_ops_wrote ops s Hw Hops) as [W _]. destruct (run_log_counts ops s Hw Hops) as (C1 & C2 & _).
  rewrite Hn in C2. destruct ops as [|op ops]; [done|]. inversion Hops as [|? ? Hop Hops']; subst.
  destruct (run_op_wrote op s Hw (proj1 Hop)) as [W1 F]. injection F as Fb _ _ _.
  pose proof (wrote_log_path _ _ _ _ W1) as Hp.
  destruct (op_log_shape op s Hw) as (b & Hban & E). rewrite Hb in E.
  destruct (run_log_counts ops (run_op op s)) as (_ & _ & C3); [by rewrite Hp|done|].
  cbn [run_log] in *. rewrite E in *. cbn [app] in *. eexists b, _. split; [done|]. split; [exact W|].
  destruct (entries_own op (stamp_of s) Hop) as (_ & _ & E3).
  split; [done|]. destruct Hban as [now ->]. split.
  { rewrite !Forall_app. split; [|by apply C3]. split; [|done]. destruct (stepped s && _); repeat constructor. }
  simpl in C1, C2. split; [done|]. split; [done|].
  intros pre op1 op2 post Eops. cbv zeta. intros Hback. apply step_back_noted; try done.
  rewrite Eops in Hops. apply Forall_app in Hops as [H1 H2]. apply Forall_app. split; [done|].
  inversion_clear H2 as [|? ? ? H3]. inversion_clear H3. repeat constructor; done || apply H || apply H0.
Qed.
End trail.

(** ** Witnesses *)

Lemma wall_fields_correct_witness :
  w_date (wall_fields 5142896789) = date_of 59 ∧ date_of 59 = (1970, 3, 1).
Proof.
  destruct (wall_fields_correct 5142896789) as [H _]; [lia|]. split; [exact H|reflexivity].
Defined.

(** A clock that is set back by six seconds during the third operation. *)
Definition stepping_clock (n : nat) : Z := nth n [5000; 5001; 5002; 9000; 3000] 3001.

Definition fresh_audit : Audit :=
  mkAudit None None false false 0 0 {[DEFAULT_PATH := lit "[99999] EVENT  old" ++ [10]]}.

Definition three_ops : list AuditOp :=
  [[λ ts, A_Event ts (lit "begin") None];
   [λ ts, A_Tx ts [0x90; 0x60]; λ ts, A_RxOk ts 0x91 0xAF []];
   [λ ts, A_Event ts (lit "end") None]].

Definition sample_host : option (list Z) := Some (lit "Bench" ++ [10]).
Definition sample_exe : option (list Z) := Some (lit "bolty-cli").

Lemma audit_trail_witness :
  ∃ b rest, run_log stepping_clock (λ _, true) 7 sample_host sample_exe three_ops fresh_audit = b :: rest ∧
    wrote DEFAULT_PATH (b :: rest) fresh_audit
      (run_ops stepping_clock (λ _, true) 7 sample_host sample_exe three_ops fresh_audit) ∧
    length (List.filter is_step rest) = 1%nat ∧
    (∃ l, b :: rest = l ++ [A_Event 3000 (lit "end") None] ∧ existsb is_step l = true).
Proof.
  destruct (audit_trail stepping_clock (λ _, true) 7 sample_host sample_exe three_ops fresh_audit)
    as (b & rest & Hlog & Hwr & _ & _ & _ & _ & Hback).
  - intros n. do 6 (destruct n as [|n]; [by vm_compute|]). by destruct n.
  - reflexivity.
  - reflexivity.
  - reflexivity.
  - discriminate.
  - repeat constructor; discriminate.
  - exists b, rest. split; [exact Hlog|]. split; [exact Hwr|]. split.
    + assert (rest = drop 1 (run_log stepping_clock (λ _, true) 7 sample_host sample_exe three_ops fresh_audit))
        as -> by (rewrite Hlog; reflexivity). vm_compute. reflexivity.
    + rewrite <-Hlog. apply (Hback [[λ ts, A_Event ts (lit "begin") None]]
        [λ ts, A_Tx ts [0x90; 0x60]; λ ts, A_RxOk ts 0x91 0xAF []] [λ ts, A_Event ts (lit "end") None] []).
      * reflexivity.
      * vm_compute. split; reflexivity.
Defined.
