(* ===== verification/Console.v ===== *)
(** * Serial console framing

    [apps/bolty-esp32/src/console_framing.rs]: the assembler that folds console
    bytes into lines. The specification cuts the whole byte stream at the
    newlines first and judges each line by its length; the assembler, which sees
    one byte at a time and owns [N] bytes, emits the same events. *)

From S2P Require Import Prelude Str.

Definition MAX_LINE_LEN : nat := 512.

Inductive LineEvent : Type :=
| Line (s : list Z)
| Overflow.

#[export] Instance LineEvent_eq_dec : EqDecision LineEvent.
Proof. solve_decision. Defined.

Record LineAssembler : Type := mkAssembler {
  line : list Z;
  discarding : bool;
  done : bool }.

Definition LineAssembler_new : LineAssembler := mkAssembler [] false false.

(** [feed] on an assembler of capacity [n]. *)
Definition feed (n : nat) (self : LineAssembler) (byte : Z) : option LineEvent * LineAssembler :=
  let self := if done self then mkAssembler [] (discarding self) false else self in
  if decide (byte = 13) then (None, self)
  else if decide (byte = 10) then
    if discarding self then (None, mkAssembler (line self) false (done self))
    else if decide (line self = []) then (None, self)
    else (Some (Line (line self)), mkAssembler (line self) (discarding self) true)
  else
    if discarding self then (None, self)
    else match push_char n (line self) byte with
         | None => (Some Overflow, mkAssembler [] true (done self))
         | Some line' => (None, mkAssembler line' (discarding self) (done self))
         end.

(** The console loop: every byte is fed, every event is handled in order. *)
Fixpoint feed_all (n : nat) (self : LineAssembler) (input : list Z) : list LineEvent :=
  match input with
  | [] => []
  | b :: input =>
      let '(ev, self') := feed n self b in
      match ev with
      | Some e => e :: feed_all n self' input
      | None => feed_all n self' input
      end
  end.

(** ** Specification *)

(** What a line holds once its carriage returns are dropped and each byte is
    stored as a [char]. *)
Definition line_text (seg : list Z) : list Z :=
  filter (λ b, b ≠ 13) seg ≫= char_of_byte.

(** A terminated line: reported when it fits and is not empty, one [Overflow]
    when it does not fit. *)
Definition line_events (n : nat) (seg : list Z) : list LineEvent :=
  if decide (n < length (line_text seg))%nat then [Overflow]
  else if decide (line_text seg = []) then [] else [Line (line_text seg)].

(** The unterminated rest of the stream can only have overflowed. *)
Definition tail_events (n : nat) (seg : list Z) : list LineEvent :=
  if decide (n < length (line_text seg))%nat then [Overflow] else [].

Fixpoint stream_events (n : nat) (segs : list (list Z)) : list LineEvent :=
  match segs with
  | [] => []
  | [seg] => tail_events n seg
  | seg :: segs => line_events n seg ++ stream_events n segs
  end.

Lemma stream_events_cons n seg segs :
  segs ≠ [] → stream_events n (seg :: segs) = line_events n seg ++ stream_events n segs.
Proof. by destruct segs. Qed.

Lemma split_on_nonempty d cur s : split_on d cur s ≠ [].
Proof. revert cur. induction s as [|c s IH]; intros cur; simpl; [done|]. by case_decide. Qed.

Lemma line_text_snoc seg b :
  line_text (seg ++ [b]) =
  line_text seg ++ (if decide (b = 13) then [] else char_of_byte b).
Proof.
  unfold line_text. rewrite filter_app, bind_app. f_equal.
  destruct (decide (b = 13)) as [->|Hb].
  - by rewrite filter_cons_False by naive_solver.
  - rewrite filter_cons_True by done. simpl. by rewrite app_nil_r.
Qed.

(** ** Correctness *)

(** The assembler that has seen [seg] since the last newline. *)
Definition assembling (n : nat) (seg : list Z) (self : LineAssembler) : Prop :=
  let self := if done self then mkAssembler [] (discarding self) false else self in
  discarding self = bool_decide (n < length (line_text seg))%nat ∧
  line self = (if discarding self then [] else line_text seg).

(** The events that are still due on the line being assembled, given what was
    already reported of it. *)
Definition due (n : nat) (seg : list Z) (segs : list (list Z)) : list LineEvent :=
  if decide (n < length (line_text seg))%nat
  then drop 1 (stream_events n segs) else stream_events n segs.

Lemma split_on_head d cur s : ∃ rest segs, split_on d cur s = (cur ++ rest) :: segs.
Proof.
  revert cur. induction s as [|c s IH]; intros cur; simpl.
  - exists [], []. by rewrite app_nil_r.
  - case_decide.
    + exists [], (split_on d [] s). by rewrite app_nil_r.
    + destruct (IH (cur ++ [c])) as (rest & segs & ->).
      exists (c :: rest), segs. by rewrite <- app_assoc.
Qed.

Lemma line_text_mono seg rest :
  (length (line_text seg) ≤ length (line_text (seg ++ rest)))%nat.
Proof. unfold line_text. rewrite filter_app, bind_app, length_app. lia. Qed.

(** A line that has already overflowed still owes exactly the report the
    assembler has just made. *)
Lemma overflowed_stream n seg s :
  (n < length (line_text seg))%nat →
  ∃ evs, stream_events n (split_on 10 seg s) = Overflow :: evs.
Proof.
  intros Hn. destruct (split_on_head 10 seg s) as (rest & segs & ->).
  pose proof (line_text_mono seg rest).
  destruct segs; simpl; unfold tail_events, line_events;
    rewrite decide_True by lia; eauto.
Qed.

Lemma feed_all_spec n s seg self :
  assembling n seg self →
  feed_all n self s = due n seg (split_on 10 seg s).
Proof.
  revert seg self. induction s as [|b s IH]; intros seg self Hself.
  { unfold due. simpl. unfold tail_events. by case_decide. }
  cbn [feed_all split_on]. unfold feed.
  set (self0 := if done self then _ else self).
  destruct Hself as [Hd Hl]. fold self0 in Hd, Hl.
  assert (done self0 = false) as Hdone by (unfold self0; by destruct self as [?? []]).
  clearbody self0. destruct self0 as [l d f]. simpl in *. subst f l d.
  destruct (decide (b = 13)) as [->|H13].
  { rewrite decide_False by done. cbn zeta iota.
    assert (line_text (seg ++ [13]) = line_text seg) as Ht
      by (rewrite line_text_snoc; by rewrite app_nil_r).
    rewrite (IH (seg ++ [13])) by (split; simpl; by rewrite Ht).
    unfold due. by rewrite Ht. }
  destruct (decide (b = 10)) as [->|H10].
  { rewrite bool_decide_decide. unfold due.
    rewrite stream_events_cons by apply split_on_nonempty. unfold line_events.
    destruct (decide (n < length (line_text seg))%nat) as [Hn|Hn]; simpl.
    - rewrite (IH []) by done. done.
    - destruct (decide (line_text seg = [])) as [He|He]; simpl.
      + rewrite (IH []) by (split; simpl; rewrite ?He; done). done.
      + rewrite (IH []) by done. done. }
  rewrite bool_decide_decide.
  destruct (decide (n < length (line_text seg))%nat) as [Hn|Hn].
  { pose proof (line_text_mono seg [b]).
    rewrite (IH (seg ++ [b])).
    2:{ split; simpl; [|done]. by rewrite bool_decide_true by lia. }
    unfold due. by rewrite !decide_True by lia. }
  unfold push_char, push_str.
  assert (line_text (seg ++ [b]) = line_text seg ++ char_of_byte b) as Ht
    by (rewrite line_text_snoc, decide_False by done; done).
  pose proof (length_app (line_text seg) (char_of_byte b)) as Hlen.
  rewrite <- Ht in Hlen. unfold due at 1. rewrite (decide_False _ _ Hn).
  destruct (decide (length (line_text seg) + length (char_of_byte b) ≤ n)%nat) as [Hf|Hf].
  - rewrite (IH (seg ++ [b])).
    2:{ split; simpl; [by rewrite bool_decide_false by lia | by rewrite Ht]. }
    unfold due. by rewrite decide_False by lia.
  - rewrite (IH (seg ++ [b])).
    2:{ split; simpl; [by rewrite bool_decide_true by lia | done]. }
    unfold due. rewrite decide_True by lia.
    destruct (overflowed_stream n (seg ++ [b]) s) as [evs ->]; [lia|]. done.
Qed.


(** Every line the dispatcher sees fits the buffer. *)
Lemma stream_line_fits n segs s :
  In (Line s) (stream_events n segs) → (length s ≤ n)%nat ∧ s ≠ [].
Proof.
  induction segs as [|seg segs IH]; [done|].
  destruct segs as [|seg' segs].
  - simpl. unfold tail_events. case_decide; simpl; naive_solver.
  - rewrite stream_events_cons by done. rewrite in_app_iff. intros [H|H]; [|by apply IH].
    unfold line_events in H. repeat case_decide; simpl in H; naive_solver lia.
Qed.

Example overlong_swallowed :
  feed_all 4 LineAssembler_new (lit "aaaaaaaawipe" ++ [10] ++ lit "uid" ++ [13; 10])
  = [Overflow; Line (lit "uid")].
Proof. reflexivity. Qed.
