(* ===== verification/Commands.v ===== *)
(** * Serial command parser

    [apps/bolty-esp32/src/commands.rs]: the console grammar, the parser, and the
    matcher of the commands the console loop answers before the dispatcher. *)

From S2P Require Import Prelude Str Hex.

(** ** Data *)

Inductive ButtonMode : Type := Simple | Legacy.

Definition ButtonMode_as_str (m : ButtonMode) : list Z :=
  match m with Simple => lit "simple" | Legacy => lit "legacy" end.

Definition ButtonMode_from_str (s : list Z) : option ButtonMode :=
  if eq_ignore_ascii_case s (lit "simple") then Some Simple
  else if eq_ignore_ascii_case s (lit "legacy") then Some Legacy
  else None.

Inductive Command : Type :=
| Cmd_Help | Cmd_I2cScan | Cmd_Uid | Cmd_Status
| Cmd_SetKeys (keys : CardKeys)
| Cmd_SetIssuer (issuer_key : AesKey)
| Cmd_SetUrl (url : list Z)
| Cmd_SetWifi (ssid password : list Z)
| Cmd_WifiOff
| Cmd_Ota (url signature : list Z)
| Cmd_Burn | Cmd_Wipe | Cmd_Ndef | Cmd_Auth | Cmd_Ver | Cmd_KeyVer | Cmd_Check
| Cmd_DummyBurn | Cmd_Reset | Cmd_Inspect | Cmd_Picc | Cmd_Diagnose | Cmd_DeriveKeys
| Cmd_Issuer | Cmd_HwInfo
| Cmd_ButtonMode
| Cmd_ButtonModeSet (mode : ButtonMode)
| Cmd_SetToken (token : option (list Z)).

Inductive CommandError : Type := UnknownCommand | InvalidArgs | MissingArgs.

#[export] Instance ButtonMode_eq_dec : EqDecision ButtonMode.
Proof. solve_decision. Defined.
#[export] Instance Command_eq_dec : EqDecision Command.
Proof. solve_decision. Defined.
#[export] Instance CommandError_eq_dec : EqDecision CommandError.
Proof. solve_decision. Defined.

(** Capacities of the [heapless::String]s the commands own (config.rs). *)
Definition LNURL_CAP : nat := 256.
Definition URL_CAP : nat := 256.
Definition SSID_CAP : nat := 32.
Definition PASSWORD_CAP : nat := 64.
Definition REST_TOKEN_CAP : nat := 64.
Definition SIGNATURE_CAP : nat := 128.

(** ** Parser *)

Definition parse_hex_key (s : list Z) : option (list Z) := ok (decode_hex 16 s).

Definition expect_no_args (parts : list (list Z)) : result () CommandError :=
  match parts with [] => Ok () | _ => Err InvalidArgs end.

Definition parse_key_arg (value : option (list Z)) : result (list Z) CommandError :=
  match value with
  | None => Err MissingArgs
  | Some value => ok_or (parse_hex_key value) InvalidArgs
  end.

(** The iterator [parts] is the list of the words not read yet: [next] reads its
    head and leaves its tail. *)
Definition parse_keys_command (parts : list (list Z)) : result Command CommandError :=
  k0 ←? parse_key_arg (head parts); let parts := tail parts in
  k1 ←? parse_key_arg (head parts); let parts := tail parts in
  k2 ←? parse_key_arg (head parts); let parts := tail parts in
  k3 ←? parse_key_arg (head parts); let parts := tail parts in
  k4 ←? parse_key_arg (head parts); let parts := tail parts in
  match parts with
  | _ :: _ => Err InvalidArgs
  | [] => Ok (Cmd_SetKeys (mkCardKeys k0 k1 k2 k3 k4))
  end.

Definition parse_issuer_command (parts : list (list Z)) : result Command CommandError :=
  match parts with
  | [] => Ok Cmd_Issuer
  | hex :: parts =>
      key ←? ok_or (parse_hex_key hex) InvalidArgs;
      match parts with
      | _ :: _ => Err InvalidArgs
      | [] => Ok (Cmd_SetIssuer key)
      end
  end.

Definition parse_url_command (parts : list (list Z)) : result Command CommandError :=
  match parts with
  | [] => Err MissingArgs
  | _ :: _ :: _ => Err InvalidArgs
  | [url] =>
      lnurl ←? ok_or (push_str LNURL_CAP [] url) InvalidArgs;
      Ok (Cmd_SetUrl lnurl)
  end.

Definition parse_wifi_command (parts : list (list Z)) : result Command CommandError :=
  match parts with
  | [] => Err MissingArgs
  | first :: parts =>
      if eq_ignore_ascii_case first (lit "off") then
        match parts with _ :: _ => Err InvalidArgs | [] => Ok Cmd_WifiOff end
      else
        match parts with
        | [] => Err MissingArgs
        | _ :: _ :: _ => Err InvalidArgs
        | [password] =>
            ssid_out ←? ok_or (push_str SSID_CAP [] first) InvalidArgs;
            password_out ←? ok_or (push_str PASSWORD_CAP [] password) InvalidArgs;
            Ok (Cmd_SetWifi ssid_out password_out)
        end
  end.

Definition parse_ota_command (parts : list (list Z)) : result Command CommandError :=
  match parts with
  | [] | [_] => Err MissingArgs
  | _ :: _ :: _ :: _ => Err InvalidArgs
  | [url; signature] =>
      url_out ←? ok_or (push_str URL_CAP [] url) InvalidArgs;
      sig_out ←? ok_or (push_str SIGNATURE_CAP [] signature) InvalidArgs;
      Ok (Cmd_Ota url_out sig_out)
  end.

Definition parse_button_mode_command (parts : list (list Z)) : result Command CommandError :=
  match parts with
  | [] => Ok Cmd_ButtonMode
  | arg :: parts =>
      mode ←? ok_or (ButtonMode_from_str arg) InvalidArgs;
      match parts with
      | _ :: _ => Err InvalidArgs
      | [] => Ok (Cmd_ButtonModeSet mode)
      end
  end.

(** The [token] arm of [parse_command]. *)
Definition parse_token_command (parts : list (list Z)) : result Command CommandError :=
  match parts with
  | _ :: _ :: _ => Err InvalidArgs
  | [] => Err MissingArgs
  | [val] =>
      if decide (val = lit "off" ∨ val = lit "none" ∨ val = lit "clear")
      then Ok (Cmd_SetToken None)
      else
        token ←? ok_or (push_str REST_TOKEN_CAP [] val) InvalidArgs;
        Ok (Cmd_SetToken (Some token))
  end.

Definition parse_command (line : list Z) : result Command CommandError :=
  let trimmed := trim line in
  match trimmed with [] => Err UnknownCommand | _ =>
  match split_ascii_whitespace trimmed with
  | [] => Err UnknownCommand
  | command :: parts =>
  let kw s := eq_ignore_ascii_case command (lit s) in
  let plain c := (_ ←? expect_no_args parts; Ok c) in
  if kw "help" then plain Cmd_Help
  else if kw "i2cscan" then plain Cmd_I2cScan
  else if kw "uid" then plain Cmd_Uid
  else if kw "status" then plain Cmd_Status
  else if kw "keys" then parse_keys_command parts
  else if kw "issuer" then parse_issuer_command parts
  else if kw "url" then parse_url_command parts
  else if kw "wifi" then parse_wifi_command parts
  else if kw "ota" then parse_ota_command parts
  else if kw "burn" then plain Cmd_Burn
  else if kw "wipe" then plain Cmd_Wipe
  else if kw "ndef" then plain Cmd_Ndef
  else if kw "auth" then plain Cmd_Auth
  else if kw "ver" then plain Cmd_Ver
  else if kw "keyver" then plain Cmd_KeyVer
  else if kw "check" then plain Cmd_Check
  else if kw "inspect" then plain Cmd_Inspect
  else if kw "picc" then plain Cmd_Picc
  else if kw "diagnose" then plain Cmd_Diagnose
  else if kw "derivekeys" then plain Cmd_DeriveKeys
  else if kw "reset" then plain Cmd_Reset
  else if kw "hwinfo" then plain Cmd_HwInfo
  else if kw "button-mode" then parse_button_mode_command parts
  else if kw "token" then parse_token_command parts
  else Err UnknownCommand
  end end.

(** ** Pre-dispatch commands *)

Inductive PreDispatchCommand : Type :=
| Pre_Crashlog | Pre_HwTest | Pre_ProvisionCert
| Pre_ProvisionOtaKey (key_hex : list Z)
| Pre_ForceOn | Pre_ForceOff | Pre_ForceStatus
| Pre_GroveOn | Pre_GroveOff | Pre_GroveStatus.

Definition PRE_DISPATCH_COMMAND_WORDS : list (list Z) :=
  [lit "crashlog"; lit "hwtest"; lit "provision-cert"; lit "provision-ota-key";
   lit "force"; lit "grove"].

(** [trimmed.find(is_ascii_whitespace)]: the text before the first whitespace,
    and the text from it on. *)
Fixpoint find_ws (s : list Z) : list Z * option (list Z) :=
  match s with
  | [] => ([], None)
  | c :: s' =>
      if is_ascii_whitespace c then ([], Some s)
      else let '(h, r) := find_ws s' in (c :: h, r)
  end.

Definition parse_pre_dispatch_command (line : list Z) : option PreDispatchCommand :=
  let trimmed := trim line in
  let '(head, rest) := find_ws trimmed in
  let rest := trim <$> rest in
  let kw s := eq_ignore_ascii_case head (lit s) in
  let lever on off status :=
    match rest with
    | None => Some status
    | Some arg =>
        if eq_ignore_ascii_case arg (lit "on") then Some on
        else if eq_ignore_ascii_case arg (lit "off") then Some off
        else None
    end in
  let tail :=
    if kw "force" then lever Pre_ForceOn Pre_ForceOff Pre_ForceStatus
    else if kw "grove" then lever Pre_GroveOn Pre_GroveOff Pre_GroveStatus
    else None in
  let ota :=
    if kw "provision-ota-key" then
      match rest with Some key_hex => Some (Pre_ProvisionOtaKey key_hex) | None => tail end
    else tail in
  match rest with
  | None =>
      if kw "crashlog" then Some Pre_Crashlog
      else if kw "hwtest" then Some Pre_HwTest
      else if kw "provision-cert" then Some Pre_ProvisionCert
      else ota
  | Some _ => ota
  end.

(** ** The grammar of the console *)

(** The commands that take no argument. *)
Definition plain_words : list (string * Command) :=
  [("help"%string, Cmd_Help); ("i2cscan"%string, Cmd_I2cScan); ("uid"%string, Cmd_Uid);
   ("status"%string, Cmd_Status); ("burn"%string, Cmd_Burn); ("wipe"%string, Cmd_Wipe);
   ("ndef"%string, Cmd_Ndef); ("auth"%string, Cmd_Auth); ("ver"%string, Cmd_Ver);
   ("keyver"%string, Cmd_KeyVer); ("check"%string, Cmd_Check);
   ("inspect"%string, Cmd_Inspect); ("picc"%string, Cmd_Picc);
   ("diagnose"%string, Cmd_Diagnose); ("derivekeys"%string, Cmd_DeriveKeys);
   ("reset"%string, Cmd_Reset); ("hwinfo"%string, Cmd_HwInfo);
   ("issuer"%string, Cmd_Issuer); ("button-mode"%string, Cmd_ButtonMode)].

Definition is_key (a k : list Z) : Prop := decode_hex 16 a = Ok k.
Definition fits (cap : nat) (s : list Z) : Prop := (length s ≤ cap)%nat.
Definition is_off_word (v : list Z) : Prop := v = lit "off" ∨ v = lit "none" ∨ v = lit "clear".

(** [sentence ws c]: the argument words [ws] of the keyword denote the command
    [c]. No sentence has a word to spare. *)
Inductive sentence : string → list (list Z) → Command → Prop :=
| S_plain s c : (s, c) ∈ plain_words → sentence s [] c
| S_keys a0 a1 a2 a3 a4 k0 k1 k2 k3 k4 :
    is_key a0 k0 → is_key a1 k1 → is_key a2 k2 → is_key a3 k3 → is_key a4 k4 →
    sentence "keys" [a0; a1; a2; a3; a4] (Cmd_SetKeys (mkCardKeys k0 k1 k2 k3 k4))
| S_issuer a k : is_key a k → sentence "issuer" [a] (Cmd_SetIssuer k)
| S_url u : fits LNURL_CAP u → sentence "url" [u] (Cmd_SetUrl u)
| S_wifi_off a : eq_ignore_ascii_case a (lit "off") = true → sentence "wifi" [a] Cmd_WifiOff
| S_wifi s p :
    eq_ignore_ascii_case s (lit "off") = false → fits SSID_CAP s → fits PASSWORD_CAP p →
    sentence "wifi" [s; p] (Cmd_SetWifi s p)
| S_ota u g : fits URL_CAP u → fits SIGNATURE_CAP g → sentence "ota" [u; g] (Cmd_Ota u g)
| S_mode a m :
    eq_ignore_ascii_case a (ButtonMode_as_str m) = true →
    sentence "button-mode" [a] (Cmd_ButtonModeSet m)
| S_token_off a : is_off_word a → sentence "token" [a] (Cmd_SetToken None)
| S_token a : ¬ is_off_word a → fits REST_TOKEN_CAP a → sentence "token" [a] (Cmd_SetToken (Some a)).

Definition denotes (line : list Z) (c : Command) : Prop :=
  ∃ s w args, split_ascii_whitespace (trim line) = w :: args ∧
    eq_ignore_ascii_case w (lit s) = true ∧ sentence s args c.

(** ** Correctness of the parser *)

Lemma eq_ignore_case_trans w a b :
  eq_ignore_ascii_case w a = true → eq_ignore_ascii_case w b = eq_ignore_ascii_case a b.
Proof. unfold eq_ignore_ascii_case. intros ->%bool_decide_eq_true. done. Qed.

Lemma parse_hex_key_spec a k : parse_hex_key a = Some k ↔ is_key a k.
Proof. unfold parse_hex_key, is_key. destruct (decode_hex 16 a); naive_solver. Qed.

Lemma ok_or_spec {A E} (o : option A) (e : E) a : ok_or o e = Ok a ↔ o = Some a.
Proof. destruct o; naive_solver. Qed.

Lemma push_str_spec cap s r : push_str cap [] s = Some r ↔ r = s ∧ fits cap s.
Proof. apply heapless_from_spec. Qed.

Lemma parse_key_arg_spec parts k :
  parse_key_arg (head parts) = Ok k ↔ ∃ a, head parts = Some a ∧ is_key a k.
Proof.
  unfold parse_key_arg. destruct parts as [|a parts]; simpl; [naive_solver|].
  rewrite ok_or_spec, parse_hex_key_spec. naive_solver.
Qed.

Lemma ButtonMode_from_str_spec a m :
  ButtonMode_from_str a = Some m ↔ eq_ignore_ascii_case a (ButtonMode_as_str m) = true.
Proof.
  unfold ButtonMode_from_str.
  destruct (eq_ignore_ascii_case a (lit "simple")) eqn:Es.
  { rewrite (eq_ignore_case_trans _ _ _ Es). by destruct m. }
  destruct (eq_ignore_ascii_case a (lit "legacy")) eqn:El.
  { rewrite (eq_ignore_case_trans _ _ _ El). by destruct m. }
  split; [done|]. destruct m; simpl; congruence.
Qed.

(** Inverts a sentence of a known keyword. *)
Ltac invert_sentence H :=
  inversion H; subst; clear H;
  try match goal with
  | Hin : _ ∈ plain_words |- _ =>
      unfold plain_words in Hin;
      repeat (apply elem_of_cons in Hin as [Hin|Hin]; [try discriminate Hin; simplify_eq|]);
      try (by apply elem_of_nil in Hin)
  end.

Ltac plain_word :=
  apply S_plain; apply (bool_decide_unpack _); vm_compute; exact I.

Definition parses (p : list (list Z) → result Command CommandError) (s : string) : Prop :=
  ∀ parts c, p parts = Ok c ↔ sentence s parts c.

Lemma parse_keys_spec : parses parse_keys_command "keys".
Proof.
  intros parts c. unfold parse_keys_command. split.
  - repeat setoid_rewrite and_then_ok. repeat setoid_rewrite parse_key_arg_spec.
    intros (k0 & (a0 & E0 & ?) & k1 & (a1 & E1 & ?) & k2 & (a2 & E2 & ?)
      & k3 & (a3 & E3 & ?) & k4 & (a4 & E4 & ?) & E).
    destruct parts as [|? [|? [|? [|? [|? [|??]]]]]]; simplify_eq/=. by constructor.
  - intros H. invert_sentence H. unfold parse_key_arg. simpl.
    repeat match goal with H : is_key _ _ |- _ => apply parse_hex_key_spec in H; rewrite H; clear H; simpl end.
    done.
Qed.

Lemma parse_issuer_spec : parses parse_issuer_command "issuer".
Proof.
  intros [|a [|b parts]] c; simpl; rewrite ?and_then_ok.
  - split; [intros [= <-]; plain_word | intros H; by invert_sentence H].
  - setoid_rewrite ok_or_spec. setoid_rewrite parse_hex_key_spec. split.
    + intros (k & ? & [= <-]). by constructor.
    + intros H. invert_sentence H. eauto.
  - split; [naive_solver | intros H; invert_sentence H].
Qed.

Lemma parse_url_spec : parses parse_url_command "url".
Proof.
  intros [|a [|b parts]] c; simpl; rewrite ?and_then_ok.
  - split; [done | intros H; invert_sentence H].
  - setoid_rewrite ok_or_spec. setoid_rewrite push_str_spec. split.
    + intros (k & [-> ?] & [= <-]). by constructor.
    + intros H. invert_sentence H. eauto.
  - split; [done | intros H; invert_sentence H].
Qed.

Lemma parse_wifi_spec : parses parse_wifi_command "wifi".
Proof.
  intros [|a parts] c; simpl; [split; [done | intros H; invert_sentence H]|].
  destruct (eq_ignore_ascii_case a (lit "off")) eqn:Eo.
  { destruct parts; split; try done; try (intros [= <-]; by constructor);
      intros H; invert_sentence H; congruence. }
  destruct parts as [|b [|d parts]]; try (split; [done|]; intros H; invert_sentence H; congruence).
  setoid_rewrite and_then_ok. setoid_rewrite and_then_ok.
  setoid_rewrite ok_or_spec. setoid_rewrite push_str_spec. split.
  - intros (s & [-> ?] & p & [-> ?] & [= <-]). by constructor.
  - intros H. invert_sentence H. eauto 10.
Qed.

Lemma parse_ota_spec : parses parse_ota_command "ota".
Proof.
  intros [|a [|b [|d parts]]] c; simpl; try (split; [done | intros H; invert_sentence H]).
  setoid_rewrite and_then_ok. setoid_rewrite and_then_ok.
  setoid_rewrite ok_or_spec. setoid_rewrite push_str_spec. split.
  - intros (u & [-> ?] & g & [-> ?] & [= <-]). by constructor.
  - intros H. invert_sentence H. eauto 10.
Qed.

Lemma parse_button_mode_spec : parses parse_button_mode_command "button-mode".
Proof.
  intros [|a [|b parts]] c; simpl; rewrite ?and_then_ok.
  - split; [intros [= <-]; plain_word | intros H; by invert_sentence H].
  - setoid_rewrite ok_or_spec. setoid_rewrite ButtonMode_from_str_spec. split.
    + intros (m & ? & [= <-]). by constructor.
    + intros H. invert_sentence H. eauto.
  - split; [naive_solver | intros H; invert_sentence H].
Qed.

Lemma parse_token_spec : parses parse_token_command "token".
Proof.
  intros [|a [|b parts]] c; simpl; try (split; [done | intros H; invert_sentence H]).
  case_decide as Ho.
  - split; [intros [= <-]; by constructor | intros H; invert_sentence H; done].
  - rewrite and_then_ok. setoid_rewrite ok_or_spec. setoid_rewrite push_str_spec. split.
    + intros (k & [-> ?] & [= <-]). by constructor.
    + intros H. invert_sentence H; [done|eauto].
Qed.

(** A keyword without arguments. *)
Definition plain (c : Command) (parts : list (list Z)) : result Command CommandError :=
  _ ←? expect_no_args parts; Ok c.

Lemma parse_plain_spec s c0 :
  (∀ parts c, sentence s parts c ↔ parts = [] ∧ c = c0) → parses (plain c0) s.
Proof.
  intros Hs parts c. rewrite Hs. unfold plain, expect_no_args.
  destruct parts; simpl; naive_solver.
Qed.

Ltac plain_keyword :=
  apply parse_plain_spec; intros parts c; split;
  [intros H; by invert_sentence H | intros [-> ->]; plain_word].

(** The keyword table the chain of comparisons implements. *)
Definition handlers : list (string * (list (list Z) → result Command CommandError)) :=
  [("help"%string, plain Cmd_Help); ("i2cscan"%string, plain Cmd_I2cScan);
   ("uid"%string, plain Cmd_Uid); ("status"%string, plain Cmd_Status);
   ("keys"%string, parse_keys_command); ("issuer"%string, parse_issuer_command);
   ("url"%string, parse_url_command); ("wifi"%string, parse_wifi_command);
   ("ota"%string, parse_ota_command); ("burn"%string, plain Cmd_Burn);
   ("wipe"%string, plain Cmd_Wipe); ("ndef"%string, plain Cmd_Ndef);
   ("auth"%string, plain Cmd_Auth); ("ver"%string, plain Cmd_Ver);
   ("keyver"%string, plain Cmd_KeyVer); ("check"%string, plain Cmd_Check);
   ("inspect"%string, plain Cmd_Inspect); ("picc"%string, plain Cmd_Picc);
   ("diagnose"%string, plain Cmd_Diagnose); ("derivekeys"%string, plain Cmd_DeriveKeys);
   ("reset"%string, plain Cmd_Reset); ("hwinfo"%string, plain Cmd_HwInfo);
   ("button-mode"%string, parse_button_mode_command); ("token"%string, parse_token_command)].

Fixpoint run_handlers (hs : list (string * (list (list Z) → result Command CommandError)))
    (command : list Z) (parts : list (list Z)) : result Command CommandError :=
  match hs with
  | [] => Err UnknownCommand
  | (s, p) :: hs =>
      if eq_ignore_ascii_case command (lit s) then p parts else run_handlers hs command parts
  end.

Lemma parse_command_handlers line :
  parse_command line =
  match split_ascii_whitespace (trim line) with
  | [] => Err UnknownCommand
  | command :: parts => run_handlers handlers command parts
  end.
Proof.
  unfold parse_command. destruct (trim line) as [|c t] eqn:Et; [done|].
  destruct (split_ascii_whitespace (c :: t)); reflexivity.
Qed.

Lemma handlers_parse : Forall (λ h, parses h.2 h.1) handlers.
Proof.
  unfold handlers. repeat (apply Forall_cons_2; simpl); try apply Forall_nil_2;
    first [ apply parse_keys_spec | apply parse_issuer_spec | apply parse_url_spec
          | apply parse_wifi_spec | apply parse_ota_spec | apply parse_button_mode_spec
          | apply parse_token_spec | plain_keyword ].
Qed.

(** Keywords that stay distinct up to ASCII case are found by their position. *)
Definition folded (s : string) : list Z := to_ascii_lowercase <$> lit s.

Lemma run_handlers_distinct hs s p w parts :
  NoDup (folded <$> hs.*1) → (s, p) ∈ hs → eq_ignore_ascii_case w (lit s) = true →
  run_handlers hs w parts = p parts.
Proof.
  induction hs as [|[s' p'] hs IH]; intros Hnd Hin Hw; [by apply elem_of_nil in Hin|].
  simpl in *. apply NoDup_cons in Hnd as [Hnot Hnd].
  rewrite (eq_ignore_case_trans _ _ _ Hw). apply elem_of_cons in Hin as [[= -> ->]|Hin].
  - unfold eq_ignore_ascii_case. by rewrite bool_decide_true.
  - unfold eq_ignore_ascii_case at 1. rewrite bool_decide_false; [by apply IH|].
    intros Heq. apply Hnot. unfold folded at 1. rewrite <- Heq.
    apply (list_elem_of_fmap_2 folded), (list_elem_of_fmap_2 fst _ _ Hin).
Qed.

Lemma run_handlers_keyword s p w parts :
  (s, p) ∈ handlers → eq_ignore_ascii_case w (lit s) = true →
  run_handlers handlers w parts = p parts.
Proof. apply run_handlers_distinct. apply (bool_decide_unpack _). vm_compute. exact I. Qed.

Lemma run_handlers_ok hs w parts c :
  run_handlers hs w parts = Ok c →
  ∃ s p, (s, p) ∈ hs ∧ eq_ignore_ascii_case w (lit s) = true ∧ p parts = Ok c.
Proof.
  induction hs as [|[s p] hs IH]; simpl; [done|]. case_match.
  - intros. exists s, p. split; [left|done].
  - intros (s' & p' & ? & ?)%IH. exists s', p'. split; [by right|done].
Qed.

Lemma sentence_keyword s parts c : sentence s parts c → s ∈ handlers.*1.
Proof.
  intros H. inversion H; subst; try (apply (bool_decide_unpack _); vm_compute; exact I).
  assert (Forall (λ q, q.1 ∈ handlers.*1) plain_words) as Hall
    by (apply (bool_decide_unpack _); vm_compute; exact I).
  rewrite Forall_forall in Hall. by apply (Hall (s, c)).
Qed.

Lemma denotes_of_parse line c : parse_command line = Ok c → denotes line c.
Proof.
  rewrite parse_command_handlers.
  pose proof handlers_parse as Hp. rewrite Forall_forall in Hp. unfold denotes.
  destruct (split_ascii_whitespace (trim line)) as [|w parts]; [done|].
  intros (s & p & Hin & Hw & Hc)%run_handlers_ok.
  exists s, w, parts. split_and!; [done..|]. by apply (Hp (s, p)).
Qed.

Lemma parse_of_denotes line c : denotes line c → parse_command line = Ok c.
Proof.
  rewrite parse_command_handlers.
  pose proof handlers_parse as Hp. rewrite Forall_forall in Hp.
  intros (s & w & args & -> & Hw & Hs).
  pose proof (sentence_keyword _ _ _ Hs) as Hk.
  apply list_elem_of_fmap in Hk as ([s' p] & -> & Hin).
  rewrite (run_handlers_keyword s' p) by done. by apply (Hp (s', p)).
Qed.

(** C39. The parser accepts exactly the console grammar: a line parses to a
    command if and only if its words are a keyword (up to ASCII case) followed by
    that command's arguments and nothing else: five 16-byte hex keys, a URL
    within 256 bytes, an SSID and a password within 32 and 64, and so on. A
    surplus word, a short key or an oversized string never yields a command. *)
Theorem parse_command_grammar (line : list Z) (c : Command) :
  parse_command line = Ok c ↔ denotes line c.
Proof. split; [apply denotes_of_parse | apply parse_of_denotes]. Qed.

(** ** The pre-dispatch surface *)

Lemma split_ws_head h r :
  h ≠ [] → Forall (λ c, is_ascii_whitespace c = false) h →
  (match r with c :: _ => is_ascii_whitespace c = true | [] => True end) →
  head (split_ascii_whitespace (h ++ r)) = Some h.
Proof.
  unfold split_ascii_whitespace. intros Hne Hh Hr.
  assert (∀ cur, cur ++ h ≠ [] → head (split_ws cur (h ++ r)) = Some (cur ++ h)) as H;
    [|by apply (H [])].
  clear Hne. induction Hh as [|c h Hc Hh IH]; intros cur Hcur; simpl.
  - rewrite app_nil_r in *. destruct r as [|c r]; simpl; [by destruct cur|].
    rewrite Hr. by destruct cur.
  - rewrite Hc, IH by (rewrite <- app_assoc; destruct cur; done). by rewrite <- app_assoc.
Qed.

Lemma find_ws_spec s :
  s = (find_ws s).1 ++ default [] (find_ws s).2 ∧
  Forall (λ c, is_ascii_whitespace c = false) (find_ws s).1 ∧
  (match default [] (find_ws s).2 with c :: _ => is_ascii_whitespace c = true | [] => True end).
Proof.
  induction s as [|c s IH]; simpl; [done|].
  destruct (is_ascii_whitespace c) eqn:Ec; [done|].
  destruct (find_ws s) as [h r]. simpl in *. destruct IH as (IH1 & IH2 & IH3).
  split_and!; [by rewrite <- IH1 | by constructor | done].
Qed.

Ltac pre_word h w :=
  destruct (eq_ignore_ascii_case h (lit w)) eqn:?;
  [intros _; exists (lit w); split; [apply (bool_decide_unpack _); vm_compute; exact I | done]|].

(** A pre-dispatch command starts with one of the pinned words. *)
Lemma pre_dispatch_word line c :
  parse_pre_dispatch_command line = Some c →
  ∃ kw, kw ∈ PRE_DISPATCH_COMMAND_WORDS ∧
    eq_ignore_ascii_case (find_ws (trim line)).1 kw = true.
Proof.
  unfold parse_pre_dispatch_command, PRE_DISPATCH_COMMAND_WORDS.
  destruct (find_ws (trim line)) as [h r]. simpl.
  pre_word h "crashlog".
  pre_word h "hwtest".
  pre_word h "provision-cert".
  pre_word h "provision-ota-key".
  pre_word h "force".
  pre_word h "grove".
  by destruct r.
Qed.

Lemma run_handlers_unknown hs w kw parts :
  eq_ignore_ascii_case w kw = true →
  Forall (λ s, eq_ignore_ascii_case kw (lit s) = false) hs.*1 →
  run_handlers hs w parts = Err UnknownCommand.
Proof.
  intros Hw. induction hs as [|[s p] hs IH]; simpl; [done|].
  rewrite Forall_cons, (eq_ignore_case_trans _ _ _ Hw). intros [-> ?]. auto.
Qed.

Lemma pre_dispatch_words kw :
  kw ∈ PRE_DISPATCH_COMMAND_WORDS →
  eq_ignore_ascii_case [] kw = false ∧
  Forall (λ s, eq_ignore_ascii_case kw (lit s) = false) handlers.*1.
Proof.
  revert kw. apply Forall_forall. apply (bool_decide_unpack _). vm_compute. exact I.
Qed.

(** The two console surfaces are disjoint: a line the console loop answers
    itself (crash log, certificate and key provisioning, the force and Grove
    levers) is an unknown command to [parse_command], so no line can be taken by
    both the pre-dispatch path and the dispatcher. *)
Theorem pre_dispatch_disjoint (line : list Z) (c : PreDispatchCommand) :
  parse_pre_dispatch_command line = Some c → parse_command line = Err UnknownCommand.
Proof.
  intros (kw & Hwords%pre_dispatch_words & Hw)%pre_dispatch_word. rewrite parse_command_handlers.
  destruct (find_ws_spec (trim line)) as (Heq & Hws & Hr).
  pose proof (split_ws_head (find_ws (trim line)).1 (default [] (find_ws (trim line)).2)) as Hh.
  rewrite <- Heq in Hh. destruct (split_ascii_whitespace (trim line)) as [|w parts]; [done|].
  assert (w = (find_ws (trim line)).1) as ->.
  { assert (Some w = Some (find_ws (trim line)).1) as [= ?]; [|done]. apply Hh; [|done|done].
    intros E. rewrite E in Hw. by rewrite (proj1 Hwords) in Hw. }
  apply (run_handlers_unknown _ _ kw); [done|]. apply Hwords.
Qed.

Lemma pre_dispatch_disjoint_witness :
  parse_pre_dispatch_command (lit " FORCE  on ") = Some Pre_ForceOn ∧
  parse_command (lit " FORCE  on ") = Err UnknownCommand.
Proof.
  assert (parse_pre_dispatch_command (lit " FORCE  on ") = Some Pre_ForceOn) as H
    by (vm_compute; reflexivity).
  split; [exact H|]. exact (pre_dispatch_disjoint _ _ H).
Defined.

Example parse_url_line :
  parse_command (lit "  Url lnurlw://h/p?p={picc}&c={mac} ") =
  Ok (Cmd_SetUrl (lit "lnurlw://h/p?p={picc}&c={mac}")).
Proof. vm_compute. reflexivity. Qed.

Example parse_token_surplus : parse_command (lit "token X extra") = Err InvalidArgs.
Proof. vm_compute. reflexivity. Qed.
