(* ===== verification/Workflow.v ===== *)
(** * Firmware command dispatch

    [apps/bolty-esp32/src/service.rs] (the service interface), [workflow.rs] (the
    dispatcher every transport goes through), [ota_validity.rs] (the one-boot
    rollback gate the dispatcher feeds) and [button.rs] (debouncing). *)

From S2P Require Import Prelude Str Hex Derivation Assessment Commands.

(** ** service.rs *)

Inductive WorkflowResult : Type :=
| WR_Success | WR_CardNotPresent | WR_AuthFailed | WR_AuthDelay | WR_WipeRefused
| WR_Error (message : list Z).

#[export] Instance WorkflowResult_eq_dec : EqDecision WorkflowResult.
Proof. solve_decision. Defined.

Record ServiceStatus : Type := mkServiceStatus {
  ss_last_uid : option (list Z);
  ss_nfc_ready : bool;
  ss_lnurl : option (list Z) }.

Definition ServiceStatus_default : ServiceStatus := mkServiceStatus None false None.

(** The trait: what the dispatcher needs of a card service with state [S]. *)
Class BoltyService (S : Type) : Type := {
  svc_burn : option AesKey → option CardKeys → list Z → S → WorkflowResult * S;
  svc_wipe : option AesKey → option CardKeys → S → WorkflowResult * S;
  svc_inspect : M S WorkflowResult CardAssessment;
  svc_check_blank : S → WorkflowResult * S;
  svc_get_status : S → ServiceStatus }.

(** ** ota_validity.rs *)

Record ValidityGate : Type := mkValidityGate {
  marker : option (() → Z);
  marked : bool }.

Definition ValidityGate_new : ValidityGate := mkValidityGate None false.

Definition armed (g : ValidityGate) : bool := if marker g then true else false.

Definition arm (m : () → Z) (g : ValidityGate) : bool * ValidityGate :=
  if marked g then (false, g) else (true, mkValidityGate (Some m) (marked g)).

(** [true] exactly when this call ran the marker. *)
Definition note_serve_evidence (g : ValidityGate) : bool * ValidityGate :=
  match marker g with
  | None => (false, g)
  | Some _ => if marked g then (false, g) else (true, mkValidityGate (marker g) true)
  end.

(** ** workflow.rs *)

Definition ERROR_CAP : nat := 64.

Definition workflow_error (message : list Z) : WorkflowResult :=
  match push_str ERROR_CAP [] message with
  | Some buffer => WR_Error buffer
  | None => WR_Error []
  end.

Section dispatch.
  Context {S : Type} {B : BoltyService S}.

(** The state [dispatch_command] works on: the service, the shared
    configuration and the process-wide gate. *)
Record Device : Type := mkDevice {
  dv_service : S;
  dv_config : BoltyConfig;
  dv_gate : ValidityGate }.

Definition note_card_transaction (result : WorkflowResult) (g : ValidityGate) : ValidityGate :=
  match result with
  | WR_Success => (note_serve_evidence g).2
  | _ => g
  end.

Definition dispatch_command (cmd : Command) (d : Device) : WorkflowResult * Device :=
  let '(mkDevice service config gate) := d in
  match cmd with
  | Cmd_SetKeys keys =>
      (WR_Success, mkDevice service
         (mkBoltyConfig (lnurl config) (issuer_name config) (Some keys) (pending_issuer config)
            (rest_read_token config) (rest_write_token config) (force_unsafe config)) gate)
  | Cmd_SetIssuer issuer_key =>
      (WR_Success, mkDevice service
         (mkBoltyConfig (lnurl config) (issuer_name config) (pending_keys config) (Some issuer_key)
            (rest_read_token config) (rest_write_token config) (force_unsafe config)) gate)
  | Cmd_SetUrl url =>
      (WR_Success, mkDevice service
         (mkBoltyConfig (Some url) (issuer_name config) (pending_keys config) (pending_issuer config)
            (rest_read_token config) (rest_write_token config) (force_unsafe config)) gate)
  | Cmd_Burn =>
      match lnurl config with
      | None => (workflow_error (lit "missing lnurl"), d)
      | Some url =>
          match pending_keys config, pending_issuer config with
          | None, None => (workflow_error (lit "missing keys or issuer"), d)
          | _, _ =>
              if negb (force_unsafe config) && negb (contains (lit "{mac}") url)
              then (workflow_error (lit "lnurl missing {mac} SDM template marker"), d)
              else
                let '(result, service) :=
                  svc_burn (pending_issuer config) (pending_keys config) url service in
                (result, mkDevice service config (note_card_transaction result gate))
          end
      end
  | Cmd_Wipe =>
      let '(result, service) := svc_wipe (pending_issuer config) (pending_keys config) service in
      (result, mkDevice service config (note_card_transaction result gate))
  | Cmd_KeyVer | Cmd_Inspect =>
      let '(r, service) := svc_inspect service in
      let result := match r with Ok _ => WR_Success | Err err => err end in
      (result, mkDevice service config (note_card_transaction result gate))
  | Cmd_Check =>
      let '(result, service) := svc_check_blank service in
      (result, mkDevice service config (note_card_transaction result gate))
  | Cmd_Help | Cmd_I2cScan | Cmd_Status | Cmd_Uid | Cmd_SetWifi _ _ | Cmd_WifiOff | Cmd_Ota _ _
  | Cmd_Ndef | Cmd_Auth | Cmd_Ver | Cmd_DummyBurn | Cmd_Reset | Cmd_Picc | Cmd_Diagnose
  | Cmd_DeriveKeys | Cmd_Issuer | Cmd_HwInfo | Cmd_ButtonMode | Cmd_ButtonModeSet _
  | Cmd_SetToken _ => (WR_Success, d)
  end.
End dispatch.
Arguments Device : clear implicits.
Arguments mkDevice {S} _ _ _.
Arguments dv_service {S} _.
Arguments dv_config {S} _.
Arguments dv_gate {S} _.

(** ** button.rs *)

Definition DEBOUNCE_TICKS : Z := 2.
Definition LONG_PRESS_MS : Z := 1000.

Inductive ButtonEvent : Type := Ev_None | Ev_Click | Ev_LongPress.

#[export] Instance ButtonEvent_eq_dec : EqDecision ButtonEvent.
Proof. solve_decision. Defined.

Record ButtonDebounce : Type := mkDebounce {
  debounce_count : Z;
  debounced_pressed : bool;
  press_start_ms : Z;
  long_press_fired : bool }.

Definition ButtonDebounce_new : ButtonDebounce := mkDebounce 0 false 0 false.

(** [u8::saturating_add] and [u64::saturating_sub]. *)
Definition u8_saturating_add (a b : Z) : Z := Z.min 255 (a + b).
Definition u64_saturating_sub (a b : Z) : Z := Z.max 0 (a - b).

Definition button_update (raw_pressed : bool) (now_ms : Z) (b : ButtonDebounce) :
    ButtonEvent * ButtonDebounce :=
  if raw_pressed then
    if negb (debounced_pressed b) then
      let count := u8_saturating_add (debounce_count b) 1 in
      if decide (DEBOUNCE_TICKS ≤ count)
      then (Ev_None, mkDebounce count true now_ms false)
      else (Ev_None, mkDebounce count false (press_start_ms b) (long_press_fired b))
    else if negb (long_press_fired b) &&
            bool_decide (LONG_PRESS_MS ≤ u64_saturating_sub now_ms (press_start_ms b))
    then (Ev_LongPress, mkDebounce (debounce_count b) true (press_start_ms b) true)
    else (Ev_None, b)
  else
    if debounced_pressed b then
      (if long_press_fired b then Ev_None else Ev_Click,
       mkDebounce 0 false (press_start_ms b) (long_press_fired b))
    else (Ev_None, mkDebounce 0 false (press_start_ms b) (long_press_fired b)).

(** The stored button mode: one byte, 1 for legacy. *)
Definition button_mode_of_byte (b : Z) : ButtonMode := if decide (b = 1) then Legacy else Simple.
Definition byte_of_button_mode (m : ButtonMode) : Z := match m with Simple => 0 | Legacy => 1 end.

(** ** The gate runs its marker once *)

Inductive GateOp : Type := Op_Arm (m : () → Z) | Op_Evidence.

(** The markers run by a sequence of operations, in order. *)
Fixpoint gate_runs (ops : list GateOp) (g : ValidityGate) : list (() → Z) :=
  match ops with
  | [] => []
  | Op_Arm m :: ops => gate_runs ops (arm m g).2
  | Op_Evidence :: ops =>
      let '(ran, g') := note_serve_evidence g in
      match ran, marker g with
      | true, Some m => m :: gate_runs ops g'
      | _, _ => gate_runs ops g'
      end
  end.

(** What the gate promises: evidence without a marker is forgotten, the first
    evidence after an arming runs the marker armed last, and nothing runs after
    that. *)
Fixpoint gate_promise (installed : option (() → Z)) (ops : list GateOp) : list (() → Z) :=
  match ops with
  | [] => []
  | Op_Arm m :: ops => gate_promise (Some m) ops
  | Op_Evidence :: ops =>
      match installed with
      | None => gate_promise None ops
      | Some m => [m]
      end
  end.

Lemma gate_marked_silent ops m : gate_runs ops (mkValidityGate (Some m) true) = [].
Proof. induction ops as [|[m'|] ops IH]; simpl; auto. Qed.

Lemma gate_runs_unmarked ops installed :
  gate_runs ops (mkValidityGate installed false) = gate_promise installed ops.
Proof.
  revert installed. induction ops as [|[m|] ops IH]; intros installed; simpl; auto.
  destruct installed; simpl; auto. by rewrite gate_marked_silent.
Qed.

(** The rollback gate is a one-shot: over any interleaving of armings and
    serve evidence since boot, the markers it runs are none or one, namely the
    marker armed last before the first evidence seen while armed; evidence seen
    before arming does not latch. *)
Theorem gate_runs_once (ops : list GateOp) :
  gate_runs ops ValidityGate_new = gate_promise None ops ∧
  (length (gate_runs ops ValidityGate_new) ≤ 1)%nat.
Proof.
  unfold ValidityGate_new. rewrite gate_runs_unmarked. split; [done|].
  generalize (@None (() → Z)). induction ops as [|[m|] ops IH]; intros o; simpl; auto.
  destruct o; simpl; auto.
Qed.

(** ** One press, one event *)

(** A press burst: pressed samples at the given times, then a release. *)
Fixpoint button_samples (times : list Z) (b : ButtonDebounce) : list ButtonEvent * ButtonDebounce :=
  match times with
  | [] => ([], b)
  | t :: times =>
      let '(ev, b) := button_update true t b in
      let '(evs, b) := button_samples times b in
      (ev :: evs, b)
  end.

Definition burst_events (times : list Z) (release : Z) (b : ButtonDebounce) : list ButtonEvent :=
  let '(evs, b) := button_samples times b in
  filter (λ e, e ≠ Ev_None) (evs ++ [(button_update false release b).1]).

Definition held (start t : Z) : bool := bool_decide (LONG_PRESS_MS ≤ u64_saturating_sub t start).

Lemma samples_fired times start c :
  (button_samples times (mkDebounce c true start true)).2 = mkDebounce c true start true ∧
  filter (λ e, e ≠ Ev_None) (button_samples times (mkDebounce c true start true)).1 = [].
Proof.
  induction times as [|t times IH]; simpl; [done|].
  destruct (button_samples times _) as [evs b]. simpl in *. destruct IH as [-> IH].
  by rewrite filter_cons_False by naive_solver.
Qed.

Lemma samples_pressed times start c :
  (button_samples times (mkDebounce c true start false)).2 =
    mkDebounce c true start (existsb (held start) times) ∧
  filter (λ e, e ≠ Ev_None) (button_samples times (mkDebounce c true start false)).1 =
    (if existsb (held start) times then [Ev_LongPress] else []).
Proof.
  induction times as [|t times IH]; simpl; [done|].
  unfold button_update. simpl. fold (held start t). destruct (held start t); simpl.
  - pose proof (samples_fired times start c) as [Hb He].
    destruct (button_samples times (mkDebounce c true start true)) as [evs b].
    simpl in *. subst b. rewrite filter_cons_True by done. by rewrite He.
  - destruct (button_samples times _) as [evs b]. simpl in *. destruct IH as [-> IH].
    by rewrite filter_cons_False by naive_solver.
Qed.

(** Debouncing: from a released button, a burst of pressed samples followed
    by a release produces no event when it is shorter than two samples, one
    long press when some later sample comes a second or more after the second
    one, and one click otherwise: never two events for one press. *)
Theorem button_burst (times : list Z) (release start : Z) (fired : bool) :
  burst_events times release (mkDebounce 0 false start fired) =
  match times with
  | _ :: t1 :: rest => [if existsb (held t1) rest then Ev_LongPress else Ev_Click]
  | _ => []
  end.
Proof.
  unfold burst_events. destruct times as [|t0 [|t1 rest]]; [done|done|].
  pose proof (samples_pressed rest t1 2) as [Hb He]. simpl.
  change (u8_saturating_add (u8_saturating_add 0 1) 1) with 2.
  destruct (button_samples rest (mkDebounce 2 true t1 false)) as [evs b]. simpl in *. subst b.
  change (filter (λ e, e ≠ Ev_None) ([Ev_None; Ev_None] ++ evs ++
    [if existsb (held t1) rest then Ev_None else Ev_Click]) =
    [if existsb (held t1) rest then Ev_LongPress else Ev_Click]).
  rewrite !filter_app, He.
  by destruct (existsb (held t1) rest).
Qed.
