(* ===== verification/Ota.v ===== *)
(** * Firmware updates

    [apps/bolty-esp32/src/ota_header.rs] and [ota_server.rs] (the push server on
    the bench network) and [ota.rs] (the signed pull update). The ESP-IDF update
    API is a parameter: every call is recorded, and its return code is an
    arbitrary function of the calls made so far. *)

From S2P Require Import Prelude Str Hex.

(** ** ota_header.rs *)

Definition MAGIC_V1 : list Z := lit "OTA1".
Definition MAGIC_V2 : list Z := lit "OTA2".
Definition TOKEN_LEN : nat := 32.

Inductive OtaRefusal : Type :=
| BadSize | TooLarge | MissingToken | TokenMismatch | TokenRequired | BadMagic
| HeaderRead | NoPartition | TokenRead | ImageRead
| BeginFailed | WriteFailed | EndFailed | SetBootFailed
| TokenPanic.

Definition validate_size (announced partition_size : Z) : result () OtaRefusal :=
  if decide (announced = 0) then Err BadSize
  else if decide (partition_size < announced) then Err TooLarge
  else Ok ().

(** [option_env!("OTA_TOKEN")]: a token of the wrong length panics. *)
Definition compiled_token (env : option (list Z)) : result (option (list Z)) OtaRefusal :=
  match env with
  | None => Ok None
  | Some tok => if decide (length tok ≠ TOKEN_LEN) then Err TokenPanic else Ok (Some tok)
  end.

Definition authorize (magic : list Z) (token expected : option (list Z)) : result () OtaRefusal :=
  match bool_decide (magic = MAGIC_V2), expected with
  | true, Some want =>
      got ←? ok_or token MissingToken;
      if decide (got = want) then Ok () else Err TokenMismatch
  | true, None => Ok ()
  | false, Some _ => Err TokenRequired
  | false, None => if decide (magic = MAGIC_V1) then Ok () else Err BadMagic
  end.

(** ** ota_server.rs *)

Definition CHUNK : Z := 1024.

Inductive FlashOp : Type :=
| Ota_Begin | Ota_Write (data : list Z) | Ota_Abort | Ota_End | Ota_SetBoot | Ota_Restart.

#[export] Instance FlashOp_eq_dec : EqDecision FlashOp.
Proof. solve_decision. Defined.

(** A connection: the bytes the client still sends before it stalls or closes,
    and the update calls made so far. *)
Record Push : Type := mkPush {
  stream : list Z;
  flash : list FlashOp }.

Section push.
  (** The return code of the last call of a history, and the size of the next
      update partition if the table has one. *)
  Context (esp_rc : list FlashOp → Z) (partition : option Z).

  Local Notation P := (M Push OtaRefusal).

(** [read_exact]: all [n] bytes or an error. *)
Definition read_exact (n : nat) (e : OtaRefusal) : P (list Z) := λ s,
  if decide (n ≤ length (stream s))%nat
  then (Ok (take n (stream s)), mkPush (drop n (stream s)) (flash s))
  else (Err e, mkPush [] (flash s)).

Definition esp (op : FlashOp) : P Z := λ s,
  let flash' := flash s ++ [op] in (Ok (esp_rc flash'), mkPush (stream s) flash').

Definition esp_ok (op : FlashOp) (e : OtaRefusal) : P () :=
  rc ← esp op;
  if decide (rc ≠ 0) then fail e else mret ().

Definition lift_result {A} (r : result A OtaRefusal) : P A :=
  match r with Ok a => mret a | Err e => fail e end.

(** The write loop; every round takes at least one byte off [remaining], so
    [remaining] itself is enough fuel. *)
Fixpoint stream_image (fuel : nat) (remaining : Z) : P () :=
  match fuel with
  | O => mret ()
  | S fuel =>
      if decide (remaining ≤ 0) then mret () else
      let want := Z.min remaining CHUNK in
      buf ← read_exact (Z.to_nat want) ImageRead;
      _ ← esp_ok (Ota_Write buf) WriteFailed;
      stream_image fuel (remaining - want)
  end.

Definition handle (env : option (list Z)) : P () :=
  header ← read_exact 8 HeaderRead;
  let magic := take 4 header in
  let size := le_val (drop 4 header) in
  match partition with
  | None => fail NoPartition
  | Some partition_size =>
      _ ← lift_result (validate_size size partition_size);
      expected ← lift_result (compiled_token env);
      _ ← (if decide (magic = MAGIC_V2) then
             token ← read_exact TOKEN_LEN TokenRead;
             lift_result (authorize magic (Some token) expected)
           else lift_result (authorize magic None expected));
      _ ← esp_ok Ota_Begin BeginFailed;
      r ← attempt (stream_image (Z.to_nat size) size);
      match r with
      | Err message => _ ← esp Ota_Abort; fail message
      | Ok _ =>
          _ ← esp_ok Ota_End EndFailed;
          _ ← esp_ok Ota_SetBoot SetBootFailed;
          _ ← esp Ota_Restart;
          mret ()
      end
  end.
End push.

(** ** ota.rs *)

Inductive OtaError : Type :=
| Esp | Http | InvalidStatus (status : Z) | EmptyImage | SignatureUnprovisioned | SignatureInvalid.

Inductive PullOp : Type := Pull_Write (data : list Z) | Pull_Complete.

Section pull.
  (** SHA-256 and Ed25519 of the crates the updater calls, and the outcome of
      each call on the update handle, by the calls made before it. *)
  Context (sha256 : list Z → list Z) (ed25519_verify : list Z → list Z → list Z → bool).
  Context (write_ok : list PullOp → bool).

Definition decode_hex_signature (hex : list Z) : option (list Z) := ok (decode_hex 64 hex).

Definition verify_ed25519_signature (pubkey message signature : list Z) : result () OtaError :=
  if ed25519_verify pubkey message signature then Ok () else Err SignatureInvalid.

(** The download loop over the reads the connection yields: [Err] for a failed
    read, an empty read (or the end of the list) for the end of the body. *)
Fixpoint pull_loop (reads : list (result (list Z) ())) (ops : list PullOp) (hashed : list Z) :
    result (list Z) OtaError * list PullOp :=
  match reads with
  | [] | Ok [] :: _ => (Ok hashed, ops)
  | Err _ :: _ => (Err Http, ops)
  | Ok data :: reads =>
      let ops := ops ++ [Pull_Write data] in
      if write_ok ops then pull_loop reads ops (hashed ++ data) else (Err Esp, ops)
  end.

Definition update (pubkey : option (list Z)) (connected : result Z OtaError)
    (initiated : bool) (reads : list (result (list Z) ())) (signature_hex : list Z) :
    result () OtaError * list PullOp :=
  match pubkey with
  | None => (Err SignatureUnprovisioned, [])
  | Some signing_key =>
  match decode_hex_signature signature_hex with
  | None => (Err SignatureInvalid, [])
  | Some expected_sig =>
  match connected with
  | Err e => (Err e, [])
  | Ok status =>
  if decide (status ≠ 200) then (Err (InvalidStatus status), []) else
  if negb initiated then (Err Esp, []) else
  match pull_loop reads [] [] with
  | (Err e, ops) => (Err e, ops)
  | (Ok image, ops) =>
      if decide (length image = 0%nat) then (Err EmptyImage, ops) else
      match verify_ed25519_signature signing_key (sha256 image) expected_sig with
      | Err e => (Err e, ops)
      | Ok _ =>
          let ops := ops ++ [Pull_Complete] in
          if write_ok ops then (Ok (), ops) else (Err Esp, ops)
      end
  end end end end.
End pull.

(** ** What a push can do *)

(** The requests a server with build-time token [env] and an update partition of
    [psize] bytes admits, with the announced size and the bytes that follow the
    header and the token. *)
Inductive admitted (env : option (list Z)) (psize : Z) : list Z → Z → list Z → Prop :=
| Admit_token header tok body :
    length header = 8%nat → take 4 header = MAGIC_V2 → env = Some tok → length tok = TOKEN_LEN →
    0 < le_val (drop 4 header) ≤ psize →
    admitted env psize (header ++ tok ++ body) (le_val (drop 4 header)) body
| Admit_open header body :
    length header = 8%nat → take 4 header = MAGIC_V1 → env = None →
    0 < le_val (drop 4 header) ≤ psize →
    admitted env psize (header ++ body) (le_val (drop 4 header)) body
| Admit_ignored header tok body :
    length header = 8%nat → take 4 header = MAGIC_V2 → env = None → length tok = TOKEN_LEN →
    0 < le_val (drop 4 header) ≤ psize →
    admitted env psize (header ++ tok ++ body) (le_val (drop 4 header)) body.

(** Pieces of 1024 bytes, of which only the last may be shorter. *)
Definition pieces (ws : list (list Z)) : Prop :=
  ∀ i w, ws !! i = Some w →
    0 < Z.of_nat (length w) ≤ CHUNK ∧ ((S i < length ws)%nat → Z.of_nat (length w) = CHUNK).

(** After the calls [ops], each of these writes was accepted. *)
Definition accepted (rc : list FlashOp → Z) (ops : list FlashOp) (ws : list (list Z)) : Prop :=
  ∀ j, (0 < j ≤ length ws)%nat → rc (ops ++ (Ota_Write <$> take j ws)) = 0.

(** How the transfer of [size] bytes from a client that sends [body] ends, given
    the writes it made after the calls [ops]: the client stops short and every
    full piece it sent was written; or a write is refused and is the last; or
    everything is written. *)
Definition transferred (rc : list FlashOp → Z) (ops : list FlashOp) (size : Z) (body : list Z)
    (r : result () OtaRefusal) (ws : list (list Z)) : Prop :=
  match r with
  | Ok _ =>
      accepted rc ops ws ∧ pieces ws ∧ concat ws = take (Z.to_nat size) body ∧
      size ≤ Z.of_nat (length body)
  | Err ImageRead =>
      accepted rc ops ws ∧ Forall (λ w, Z.of_nat (length w) = CHUNK) ws ∧ concat ws `prefix_of` body ∧
      Z.of_nat (length body) < size ∧
      Z.of_nat (length body) < Z.of_nat (length (concat ws)) + CHUNK
  | Err WriteFailed =>
      ∃ good bad, ws = good ++ [bad] ∧ accepted rc ops good ∧ rc (ops ++ (Ota_Write <$> ws)) ≠ 0 ∧
        pieces ws ∧ concat ws `prefix_of` take (Z.to_nat size) body ∧
        (Z.of_nat (length bad) = CHUNK ∨ concat ws = take (Z.to_nat size) body)
  | Err _ => False
  end.

(** The update calls of one admitted push, and how it ends, by the return codes
    of the calls. *)
Inductive push_calls (rc : list FlashOp → Z) (size : Z) (body : list Z) :
    result () OtaRefusal → list FlashOp → Prop :=
| Push_begin : rc [Ota_Begin] ≠ 0 → push_calls rc size body (Err BeginFailed) [Ota_Begin]
| Push_abort e ws :
    rc [Ota_Begin] = 0 → transferred rc [Ota_Begin] size body (Err e) ws →
    push_calls rc size body (Err e) (Ota_Begin :: (Ota_Write <$> ws) ++ [Ota_Abort])
| Push_end ws ops :
    rc [Ota_Begin] = 0 → transferred rc [Ota_Begin] size body (Ok ()) ws →
    ops = Ota_Begin :: (Ota_Write <$> ws) ++ [Ota_End] →
    rc ops ≠ 0 → push_calls rc size body (Err EndFailed) ops
| Push_boot ws ops :
    rc [Ota_Begin] = 0 → transferred rc [Ota_Begin] size body (Ok ()) ws →
    ops = Ota_Begin :: (Ota_Write <$> ws) ++ [Ota_End] →
    rc ops = 0 → rc (ops ++ [Ota_SetBoot]) ≠ 0 →
    push_calls rc size body (Err SetBootFailed) (ops ++ [Ota_SetBoot])
| Push_done ws ops :
    rc [Ota_Begin] = 0 → transferred rc [Ota_Begin] size body (Ok ()) ws →
    ops = Ota_Begin :: (Ota_Write <$> ws) ++ [Ota_End] →
    rc ops = 0 → rc (ops ++ [Ota_SetBoot]) = 0 →
    push_calls rc size body (Ok ()) (ops ++ [Ota_SetBoot; Ota_Restart]).

Section push_proofs.
  Context (esp_rc : list FlashOp → Z) (partition : option Z).

Lemma accepted_nil ops : accepted esp_rc ops [].
Proof. intros j Hj. simpl in Hj. lia. Qed.

Lemma pieces_nil : pieces [].
Proof. by intros i w Hi. Qed.

Lemma accepted_cons ops w ws :
  esp_rc (ops ++ [Ota_Write w]) = 0 → accepted esp_rc (ops ++ [Ota_Write w]) ws →
  accepted esp_rc ops (w :: ws).
Proof.
  intros Hw Hws [|j] Hj; [lia|]. simpl. simpl in Hj. destruct j as [|j]; [done|].
  specialize (Hws (S j) ltac:(lia)). by rewrite <- app_assoc in Hws.
Qed.

Lemma pieces_cons w ws :
  0 < Z.of_nat (length w) ≤ CHUNK → (ws ≠ [] → Z.of_nat (length w) = CHUNK) → pieces ws →
  pieces (w :: ws).
Proof.
  intros Hw Hl Hws [|i] v; simpl.
  - intros [= <-]. split; [done|]. intros. apply Hl. destruct ws; [simpl in *; lia|done].
  - intros Hi. destruct (Hws i v Hi) as [? H]. split; [done|]. intros. apply H. lia.
Qed.

(** One more piece in front of a transfer. *)
Lemma transferred_cons ops size body r w ws :
  Z.of_nat (length w) = Z.min size CHUNK → 0 < size →
  esp_rc (ops ++ [Ota_Write w]) = 0 →
  transferred esp_rc (ops ++ [Ota_Write w]) (size - Z.min size CHUNK) body r ws →
  transferred esp_rc ops size (w ++ body) r (w :: ws).
Proof.
  intros Hw Hs Hrc Ht.
  assert (take (Z.to_nat size) (w ++ body) = w ++ take (Z.to_nat (size - Z.min size CHUNK)) body) as Hsplit.
  { rewrite take_app, take_ge by lia. do 2 f_equal. lia. }
  assert (0 < Z.of_nat (length w) ≤ CHUNK) as Hlen by (unfold CHUNK in *; lia).
  destruct r as [[]|e]; [|destruct e; try done]; cbn [transferred] in *.
  - destruct Ht as (Ha & Hp & Hc & Hl). split_and!; [by apply accepted_cons| | |rewrite length_app; lia].
    + apply pieces_cons; [done| |done]. intros Hne. destruct ws as [|v ws]; [done|].
      destruct (Hp 0%nat v eq_refl) as [Hv _]. apply (f_equal length) in Hc. revert Hc. simpl.
      rewrite length_app, length_take. unfold CHUNK in *. lia.
    + simpl. by rewrite Hsplit, Hc.
  - destruct Ht as (Ha & Hf & Hc & Hl & Hl'). simpl. rewrite !length_app. split_and!.
    + by apply accepted_cons.
    + constructor; [unfold CHUNK in *; lia|done].
    + by apply prefix_app.
    + lia.
    + lia.
  - destruct Ht as (good & bad & -> & Ha & Hn & Hp & Hc & Hb). exists (w :: good), bad. split_and!.
    + done.
    + by apply accepted_cons.
    + by rewrite <- app_assoc in Hn.
    + apply pieces_cons; [done| |done]. intros _.
      assert (0 < length bad)%nat as Hbad.
      { destruct (Hp (length good) bad) as [? _]; [|lia]. by apply list_lookup_middle. }
      apply prefix_length in Hc. revert Hc. rewrite concat_app, length_app, length_take. simpl.
      rewrite length_app. unfold CHUNK in *. lia.
    + simpl. rewrite Hsplit. by apply prefix_app.
    + simpl. rewrite Hsplit. destruct Hb as [Hb|Hb]; [by left|right]. by rewrite Hb.
Qed.

Lemma stream_image_spec fuel remaining s :
  remaining ≤ Z.of_nat fuel → 0 ≤ remaining →
  wp (stream_image esp_rc fuel remaining) (λ r s', ∃ ws,
    flash s' = flash s ++ (Ota_Write <$> ws) ∧
    transferred esp_rc (flash s) remaining (stream s) r ws) s.
Proof.
  revert remaining s. induction fuel as [|fuel IH]; intros remaining s Hf H0; cbn [stream_image].
  { apply wp_ret. exists []. rewrite app_nil_r. replace remaining with 0 by lia.
    split; [done|]. cbn [transferred]. split_and!; [apply accepted_nil|apply pieces_nil|done|lia]. }
  case_decide as Hr.
  { apply wp_ret. exists []. rewrite app_nil_r. replace remaining with 0 by lia.
    split; [done|]. cbn [transferred]. split_and!; [apply accepted_nil|apply pieces_nil|done|lia]. }
  set (want := Z.min remaining CHUNK).
  assert (0 < want ≤ remaining) as Hwant by (unfold want, CHUNK; lia).
  apply wp_bind. unfold wp at 1, read_exact. case_decide as Hlen; simpl.
  2:{ exists []. rewrite app_nil_r. unfold want, CHUNK in *.
      split; [done|]. cbn [transferred]. split_and!; [apply accepted_nil|constructor|apply prefix_nil|lia|simpl; lia]. }
  set (chunk := take (Z.to_nat want) (stream s)).
  assert (Z.of_nat (length chunk) = want) as Hchunk by (unfold chunk; rewrite length_take; lia).
  apply wp_bind. unfold esp_ok. apply wp_bind. unfold wp at 1, esp. simpl. case_decide as Hrc.
  { apply wp_fail. exists [chunk]. split; [done|]. exists [], chunk.
    split_and!; [done|apply accepted_nil|done| | |].
    - apply pieces_cons; [unfold CHUNK in *; lia|done|apply pieces_nil].
    - simpl. rewrite app_nil_r. unfold chunk. replace (Z.to_nat want) with (Z.to_nat want `min` Z.to_nat remaining)%nat by lia.
      rewrite <- take_take. apply prefix_take.
    - simpl. rewrite app_nil_r. destruct (decide (want = CHUNK)); [left; lia|right].
      unfold chunk, want in *. f_equal. lia. }
  apply wp_ret. eapply wp_mono; [apply IH; lia|]. cbn [flash stream].
  intros r s' (ws & Hfl & Ht). exists (chunk :: ws). rewrite Hfl, <- app_assoc. split; [done|].
  rewrite <- (take_drop (Z.to_nat want) (stream s)).
  by apply transferred_cons; [|lia| |].
Qed.

(** The part of [handle] that runs once the request is admitted. *)
Definition transfer (size : Z) : M Push OtaRefusal () :=
  _ ← esp_ok esp_rc Ota_Begin BeginFailed;
  r ← attempt (stream_image esp_rc (Z.to_nat size) size);
  match r with
  | Err message => _ ← esp esp_rc Ota_Abort; fail message
  | Ok _ =>
      _ ← esp_ok esp_rc Ota_End EndFailed;
      _ ← esp_ok esp_rc Ota_SetBoot SetBootFailed;
      _ ← esp esp_rc Ota_Restart;
      mret ()
  end.

Lemma transfer_spec size body :
  0 ≤ size →
  wp (transfer size) (λ r s', push_calls esp_rc size body r (flash s')) (mkPush body []).
Proof.
  intros Hs. unfold transfer. apply wp_bind. unfold esp_ok at 1. apply wp_bind. unfold wp at 1, esp at 1. simpl.
  case_decide as Hb; [apply wp_fail; by constructor|]. apply wp_ret.
  apply wp_bind, wp_attempt. eapply wp_mono; [apply stream_image_spec; lia|]. simpl.
  intros r [st fl] (ws & Hfl & Ht). simpl in Hfl. subst fl.
  destruct r as [[]|e].
  - unfold esp_ok. repeat (apply wp_bind; unfold wp at 1, esp; simpl).
    case_decide as He; [apply wp_fail; by eapply Push_end|]. apply wp_ret.
    repeat (apply wp_bind; unfold wp at 1, esp; simpl).
    case_decide as Hset; [apply wp_fail; exact (Push_boot esp_rc _ _ ws _ Hb Ht eq_refl He Hset)|].
    apply wp_ret.
    apply wp_bind; unfold wp at 1, esp; simpl. apply wp_ret.
    pose proof (Push_done esp_rc _ _ ws _ Hb Ht eq_refl He Hset) as Hd. simpl in *.
    simpl in *. rewrite <- ?app_assoc in *. simpl in *. exact Hd.
  - by apply (Push_abort esp_rc _ _ e ws).
Qed.

(** The requests a server admits are told apart by their header. *)
Lemma admitted_inv env psize st size body :
  admitted env psize st size body →
  (8 ≤ length st)%nat ∧ size = le_val (drop 4 (take 8 st)) ∧ 0 < size ≤ psize ∧
  ((take 4 st = MAGIC_V2 ∧ (8 + TOKEN_LEN ≤ length st)%nat ∧ body = drop TOKEN_LEN (drop 8 st) ∧
      (∀ tok, env = Some tok → length tok = TOKEN_LEN ∧ take TOKEN_LEN (drop 8 st) = tok)) ∨
   (take 4 st = MAGIC_V1 ∧ env = None ∧ body = drop 8 st)).
Proof.
  intros [header tok bd Hh Hm He Ht Hs|header bd Hh Hm He Hs|header tok bd Hh Hm He Ht Hs];
    rewrite (take_app_length' header), (drop_app_length' header), (take_app_le header), !length_app by lia.
  - split_and!; [lia|done|lia|lia|left]. rewrite (drop_app_length' tok), (take_app_length' tok) by done.
    split_and!; [done|lia|done|]. intros ? E. rewrite He in E. by injection E as <-.
  - split_and!; [lia|done|lia|lia|right]. done.
  - split_and!; [lia|done|lia|lia|left]. rewrite (drop_app_length' tok) by done.
    split_and!; [done|lia|done|]. intros ? E. congruence.
Qed.

(** What [handle] promises: an admitted request makes the calls of [push_calls],
    any other makes none. *)
Definition push_promise (env : option (list Z)) (st : list Z) (r : result () OtaRefusal)
    (s' : Push) : Prop :=
  (∀ psize size body, partition = Some psize → admitted env psize st size body →
     push_calls esp_rc size body r (flash s')) ∧
  ((∀ psize size body, partition = Some psize → ¬ admitted env psize st size body) →
     flash s' = [] ∧ is_ok r = false).

Lemma promise_refused env st e s' :
  flash s' = [] → (∀ psize size body, partition = Some psize → ¬ admitted env psize st size body) →
  push_promise env st (Err e) s'.
Proof. intros Hf Hn. split; [|done]. intros psize size body Hp Ha. by destruct (Hn _ _ _ Hp Ha). Qed.

Lemma promise_admitted env st psize size body :
  partition = Some psize → admitted env psize st size body →
  wp (transfer size) (push_promise env st) (mkPush body []).
Proof.
  intros Hp Ha. pose proof (admitted_inv _ _ _ _ _ Ha) as (_ & Hsize & Hs & Hb).
  eapply wp_mono; [apply transfer_spec; lia|]. intros r s' Hc. split; [|intros Hn; by destruct (Hn _ _ _ Hp Ha)].
  intros psize' size' body' Hp' Ha'. apply admitted_inv in Ha' as (_ & Hsize' & _ & Hb').
  replace size' with size by congruence. replace body' with body; [done|].
  destruct Hb as [(Hm & _ & -> & _)|(Hm & _ & ->)], Hb' as [(Hm' & _ & -> & _)|(Hm' & _ & ->)]; try done;
    by rewrite Hm in Hm'.
Qed.

Lemma handle_spec env st :
  bytes st → wp (handle esp_rc partition env) (push_promise env st) (mkPush st []).
Proof.
  intros Hbytes. unfold handle.
  assert (∀ e s', flash s' = [] → (∀ psize size body, partition = Some psize → admitted env psize st size body → False) →
    push_promise env st (Err e) s') as Href by (intros; by apply promise_refused).
  apply wp_bind. unfold wp at 1, read_exact. case_decide as H8; cbn [stream flash] in *.
  2:{ apply Href; [done|]. intros ??? _ Ha%admitted_inv. lia. }
  set (header := take 8 st).
  assert (length header = 8%nat) as Hh by (unfold header; rewrite length_take; lia).
  assert (st = header ++ drop 8 st) as Hst by (symmetry; apply take_drop).
  assert (take 4 header = take 4 st) as H4 by (unfold header; by rewrite take_take).
  destruct partition as [psize|] eqn:Ep; [|by apply wp_fail, Href].
  set (size := le_val (drop 4 header)).
  assert (0 ≤ size) as Hpos.
  { apply le_val_bound. unfold header. by apply Forall_drop, Forall_take. }
  assert (0 < size ≤ psize ∨ ∀ psize' size' body, Some psize = Some psize' → admitted env psize' st size' body → False)
    as Hsz.
  { destruct (decide (0 < size ≤ psize)) as [|Hn]; [by left|right]. intros ??? [= <-] (_ & -> & ? & _)%admitted_inv.
    by apply Hn. }
  apply wp_bind. unfold lift_result at 1, validate_size.
  case_decide as H0; [apply wp_fail, Href; [done|]; destruct Hsz; [lia|done]|].
  case_decide as H1; [apply wp_fail, Href; [done|]; destruct Hsz; [lia|done]|]. apply wp_ret.
  assert (0 < size ≤ psize) as Hsize by lia. clear Hsz.
  change (wp (expected ← lift_result (compiled_token env);
      _ ← (if decide (take 4 header = MAGIC_V2) then
             token ← read_exact TOKEN_LEN TokenRead;
             lift_result (authorize (take 4 header) (Some token) expected)
           else lift_result (authorize (take 4 header) None expected));
      transfer size) (push_promise env st) (mkPush (drop 8 st) [])).
  assert (∀ body, admitted env psize st size body → wp (transfer size) (push_promise env st) (mkPush body []))
    as Hgo by (intros; by apply (promise_admitted _ _ psize)).
  apply wp_bind. unfold lift_result at 1, compiled_token.
  destruct env as [tok|]; [case_decide as Ht|].
  { apply wp_fail, Href; [done|]. intros ??? _ (_ & _ & _ & [(_ & _ & _ & Htok)|(_ & ? & _)])%admitted_inv; [|done].
    by destruct (Htok _ eq_refl). }
  - apply wp_ret. apply wp_bind. case_decide as Hm.
    + apply wp_bind. unfold wp at 1, read_exact. cbn [stream flash]. case_decide as Hl.
      2:{ rewrite length_drop in Hl. apply Href; [done|].
          intros ??? _ (_ & _ & _ & [(_ & ? & _)|(_ & ? & _)])%admitted_inv; [lia|done]. }
      unfold authorize. rewrite bool_decide_true by done. cbn [ok_or lift_result].
      simpl. case_decide as Htok.
      * apply wp_ret, Hgo. rewrite Hst at 1. rewrite <- (take_drop TOKEN_LEN (drop 8 st)) at 1. rewrite Htok.
        by apply Admit_token.
      * apply wp_fail, Href; [done|]. intros ??? _ (_ & _ & _ & [(_ & _ & _ & Hk)|(_ & ? & _)])%admitted_inv; [|done].
        by destruct (Hk _ eq_refl).
    + unfold authorize. rewrite bool_decide_false by done. apply wp_fail, Href; [done|].
      intros ??? _ (_ & _ & _ & [(Hv & _)|(_ & ? & _)])%admitted_inv; [|done]. by rewrite <- H4 in Hv.
  - apply wp_ret. apply wp_bind. case_decide as Hm.
    + apply wp_bind. unfold wp at 1, read_exact. cbn [stream flash]. case_decide as Hl.
      2:{ rewrite length_drop in Hl. apply Href; [done|].
          intros ??? _ (_ & _ & _ & [(_ & ? & _)|(Hv & _ & _)])%admitted_inv; [lia|].
          by rewrite <- H4, Hm in Hv. }
      unfold authorize. rewrite bool_decide_true by done. apply wp_ret, Hgo.
      rewrite Hst at 1. rewrite <- (take_drop TOKEN_LEN (drop 8 st)) at 1.
      apply Admit_ignored; [done..|rewrite length_take; lia|done].
    + unfold authorize. rewrite bool_decide_false by done. case_decide as Hv1.
      * apply wp_ret, Hgo. rewrite Hst at 1. by apply Admit_open.
      * apply wp_fail, Href; [done|].
        intros ??? _ (_ & _ & _ & [(Hv & _)|(Hv & _ & _)])%admitted_inv; by rewrite <- H4 in Hv.
Qed.

(** C24. The push server, for every client and every behaviour of the flash. A
    request is admitted exactly if its size is positive and at most that of the
    partition and its magic and token fit the build: then the update calls and
    the result are those of [push_calls], by the return codes alone. The image
    is written in order in pieces of 1024 bytes (the last may be shorter); a
    client that stops short, or a write that is refused, ends the transfer
    there and it is aborted; only when the complete image was written and every
    write accepted is the update ended, only when that is accepted is the boot
    partition switched, and only then does the device restart. Any other
    request makes no update call at all and fails. *)
Theorem push_admission (env : option (list Z)) (st : list Z) :
  bytes st →
  let '(r, s') := handle esp_rc partition env (mkPush st []) in
  (∀ psize size body, partition = Some psize → admitted env psize st size body →
     push_calls esp_rc size body r (flash s')) ∧
  ((∀ psize size body, partition = Some psize → ¬ admitted env psize st size body) →
     flash s' = [] ∧ is_ok r = false).
Proof.
  intros Hb. pose proof (handle_spec env st Hb) as H. unfold wp in H.
  by destruct (handle _ _ _ _).
Qed.
End push_proofs.

(** A two-byte image pushed with a token to an armed build. *)
Definition sample_token : list Z := lit "0123456789abcdef0123456789abcdef".
Definition sample_push : list Z := lit "OTA2" ++ [2; 0; 0; 0] ++ sample_token ++ [0xE9; 7].

Lemma push_admission_witness :
  let '(r, s') := handle (λ _, 0) (Some 2) (Some sample_token) (mkPush sample_push []) in
  flash s' = [Ota_Begin; Ota_Write [0xE9; 7]; Ota_End; Ota_SetBoot; Ota_Restart] ∧
  push_calls (λ _, 0) 2 [0xE9; 7] r (flash s').
Proof.
  assert (bytes sample_push) as Hb by (apply (bool_decide_unpack _); vm_compute; exact I).
  pose proof (push_admission (λ _, 0) (Some 2) (Some sample_token) sample_push Hb) as H.
  destruct (handle (λ _, 0) (Some 2) (Some sample_token) (mkPush sample_push [])) as [r s'] eqn:E.
  split; [vm_compute in E; by injection E as _ <-|].
  apply (proj1 H 2 2 [0xE9; 7] eq_refl).
  apply (Admit_token (Some sample_token) 2 (lit "OTA2" ++ [2; 0; 0; 0]) sample_token [0xE9; 7]);
    [reflexivity..|split; vm_compute; congruence].
Defined.

(** A flash that refuses the second write of a larger image: the transfer is
    aborted and the boot partition stays. *)
Example push_aborted :
  let rc ops := if decide (length ops = 3%nat) then -1 else 0 in
  let image := replicate 1500 0xE9 in
  let '(r, s') := handle rc (Some 4096) None (mkPush (lit "OTA1" ++ [0xDC; 5; 0; 0] ++ image) []) in
  r = Err WriteFailed ∧
  flash s' = [Ota_Begin; Ota_Write (replicate 1024 0xE9); Ota_Write (replicate 476 0xE9); Ota_Abort].
Proof. vm_compute. done. Qed.

(** ** What a pull can do *)

Section pull_proofs.
  Context (sha256 : list Z → list Z) (ed25519_verify : list Z → list Z → list Z → bool).
  Context (write_ok : list PullOp → bool).

Lemma pull_loop_spec reads ops hashed :
  ∃ writes, (pull_loop write_ok reads ops hashed).2 = ops ++ (Pull_Write <$> writes) ∧
    ∀ image, (pull_loop write_ok reads ops hashed).1 = Ok image → image = hashed ++ concat writes.
Proof.
  revert ops hashed. induction reads as [|[[|b data]|u] reads IH]; intros ops hashed; simpl.
  1,2,4: exists []; rewrite app_nil_r; simpl; split; [done|]; intros image [= <-];
    by rewrite app_nil_r.
  destruct (write_ok _); simpl.
  - destruct (IH (ops ++ [Pull_Write (b :: data)]) (hashed ++ b :: data)) as (ws & -> & Hok).
    exists ((b :: data) :: ws). rewrite <- app_assoc. split; [done|].
    intros image ->%Hok. by rewrite <- app_assoc.
  - by exists [b :: data].
Qed.

End pull_proofs.
