(* ===== verification/Esp32.v ===== *)
(** * The ESP32 card service and its console

    [apps/bolty-esp32/src/firmware/service.rs], [card_operations.rs], [utils.rs]
    and [console_commands.rs], and the console, BLE, button and poll paths of
    [firmware.rs]: the service that implements the dispatcher's interface over a
    card reader, and the loops that feed it.

    Mutexes are not modelled: every path takes its locks for the whole of one
    command and the model runs commands one after another. Text output, the
    display and the I2C scan are left out, they do not touch the card or the
    configuration. *)

From S2P Require Import Prelude Str Hex Derivation Assessment Ndef NtagTypes Session Ntag Commands Console Workflow.

(** ** utils.rs *)

Definition copy_uid7 (uid : list Z) : option (list Z) :=
  if decide (length uid ≠ 7%nat) then None else Some uid.

Definition uid_storage_from_fixed (uid : list Z) : option (list Z) :=
  Some (copy_at 0 (take 7 uid) (replicate 12 0)).

Definition copy_lnurl (value : list Z) : option (list Z) := push_str LNURL_CAP [] value.

Fixpoint ndef_ascii_loop (bytes out : list Z) : list Z :=
  match bytes with
  | [] => out
  | byte :: bytes =>
      let ch := if decide (0x20 ≤ byte ≤ 0x7E) then byte else 46 in
      match push_char MAX_LINE_LEN out ch with
      | None => out
      | Some out => ndef_ascii_loop bytes out
      end
  end.

Definition ndef_ascii (bytes : list Z) : list Z := ndef_ascii_loop bytes [].

Definition looks_factory_default (file_settings : option FileSettingsView) : bool :=
  match file_settings with
  | None => false
  | Some fs =>
      bool_decide (fs_file_size fs = 256)
      && bool_decide (fs_comm_mode fs = Plain)
      && (if fs_sdm fs then false else true)
      && bool_decide (ar_read (fs_access_rights fs) = Access_Free)
      && bool_decide (ar_write (fs_access_rights fs) = Access_Free)
      && bool_decide (ar_read_write (fs_access_rights fs) = Access_Free)
      && bool_decide (ar_change (fs_access_rights fs) = Access_Key Key0)
  end.

Definition card_state_label (s : CardState) : list Z :=
  match s with
  | CardState_Blank => lit "blank"
  | CardState_Provisioned _ => lit "provisioned"
  | CardState_Foreign => lit "foreign"
  | CardState_Unknown => lit "unknown"
  end.

(** A message that does not fit is replaced, not cut. *)
Definition utils_workflow_error (message : list Z) : WorkflowResult :=
  match push_str ERROR_CAP [] message with
  | Some out => WR_Error out
  | None => WR_Error (lit "workflow error")
  end.

Definition nfc_unavailable_result : WorkflowResult := utils_workflow_error (lit "nfc unavailable").

(** ** service.rs: state *)

Inductive DiagnoseState : Type := D_Blank | D_Provisioned | D_AuthDelay | D_Inconsistent.

#[export] Instance DiagnoseState_eq_dec : EqDecision DiagnoseState.
Proof. solve_decision. Defined.

(** The service over a reader of type [T]; [es_draws] counts the random numbers
    drawn, [es_nvs_lnurl] is the template kept in flash. *)
Record Esp32 (T : Type) : Type := mkEsp32 {
  es_transceiver : option T;
  es_config : BoltyConfig;
  es_keys : option CardKeys;
  es_auth_key0 : option AesKey;
  es_last_card : CardAssessment;
  es_status : ServiceStatus;
  es_draws : nat;
  es_nvs_lnurl : option (list Z) }.
Arguments mkEsp32 {T} _ _ _ _ _ _ _ _.
Arguments es_transceiver {T} _.
Arguments es_config {T} _.
Arguments es_keys {T} _.
Arguments es_auth_key0 {T} _.
Arguments es_last_card {T} _.
Arguments es_status {T} _.
Arguments es_draws {T} _.
Arguments es_nvs_lnurl {T} _.

(** An assessment that differs from the default in these fields. *)
Definition seen_card (state : CardState) (uid : list Z) (has_ndef zero_key : bool) : CardAssessment :=
  let d := CardAssessment_default in
  {| ca_state := state; ca_present := true; ca_is_ntag424 := ca_is_ntag424 d;
     ca_uid := uid_storage_from_fixed uid; ca_uid_len := 7; ca_kind := ca_kind d;
     ca_key_versions := ca_key_versions d; ca_key_confidence := ca_key_confidence d;
     ca_zero_key_auth_ok := zero_key; ca_has_ndef := has_ndef; ca_has_uri := ca_has_uri d;
     ca_looks_like_boltcard := ca_looks_like_boltcard d;
     ca_deterministic_k1_match := ca_deterministic_k1_match d;
     ca_deterministic_full_match := ca_deterministic_full_match d;
     ca_reset_eligible := ca_reset_eligible d |}.

Definition sync_config {T} (s : Esp32 T) : Esp32 T :=
  let cfg := es_config s in
  mkEsp32 (es_transceiver s) cfg
    (match es_keys s with None => pending_keys cfg | Some k => Some k end)
    (es_auth_key0 s) (es_last_card s)
    (mkServiceStatus (ss_last_uid (es_status s)) (if es_transceiver s then true else false) (lnurl cfg))
    (es_draws s)
    (match lnurl cfg with Some l => Some l | None => es_nvs_lnurl s end).

Definition sync_from {T} (config : BoltyConfig) (s : Esp32 T) : Esp32 T :=
  sync_config (mkEsp32 (es_transceiver s) config (es_keys s) (es_auth_key0 s) (es_last_card s)
    (es_status s) (es_draws s) (es_nvs_lnurl s)).

Definition Esp32_new {T} (transceiver : option T) (config : BoltyConfig) (nvs : option (list Z)) :
    Esp32 T :=
  sync_config (mkEsp32 transceiver config None None CardAssessment_default
    (mkServiceStatus None (if transceiver then true else false) None) 0 nvs).

(** The status and last-card updates every successful card operation ends with. *)
Definition saw_card {T} (uid : list Z) (a : CardAssessment) (s : Esp32 T) : Esp32 T :=
  mkEsp32 (es_transceiver s) (es_config s) (es_keys s) (es_auth_key0 s) a
    (mkServiceStatus (Some uid) true (ss_lnurl (es_status s))) (es_draws s) (es_nvs_lnurl s).

Definition set_auth_key0 {T} (k : AesKey) (s : Esp32 T) : Esp32 T :=
  mkEsp32 (es_transceiver s) (es_config s) (es_keys s) (Some k) (es_last_card s) (es_status s)
    (es_draws s) (es_nvs_lnurl s).

(** ** The reader *)

(** [Mfrc522Transport::activate_with_delays]: select a card and return its UID
    bytes, or fail. *)
Class CardReader (T : Type) : Type := activate : T → option (list Z) * T.

Section service.
  Context {T TE : Type} {D : NtagDevice T TE} {R : CardReader T} `{C : AesCrypto}.
  Context (sdm_url_config : list Z → CryptoMode → SdmUrlOptions → result SdmUrlConfig SdmUrlError).
  Context {V : Type} (verify_sdm : Sdm → list Z → AesKey → AesKey → option V)
    (verified_uid : V → option (list Z)).
  (** The hardware random source, by draw. *)
  Context (rng : nat → list Z).
  (** The [Debug] rendering of an error, as far as an [ErrorString] holds it. *)
  Context (debug_error : Error TE → list Z).

  Local Notation P := (M (Esp32 T) WorkflowResult).
  (** A card transaction: the reader and the random source. *)
  Local Notation X := (M (T * nat) WorkflowResult).

Definition map_ntag_error (error : Error TE) : WorkflowResult :=
  if is_authentication_delay error then WR_AuthDelay
  else match error with
       | E_Session (SE_ErrorResponse _) => WR_AuthFailed
       | _ => WR_Error (debug_error error)
       end.

Definition dev {E A} (m : M T E A) : M (T * nat) E A := λ s,
  let '(r, t) := m s.1 in (r, (t, s.2)).

Definition esp_gen_rnd_a : X AesKey := λ s, (Ok (rng s.2), (s.1, S s.2)).

Definition ntag {A} (m : M T (Error TE) A) : X A := lift_err map_ntag_error (dev m).

(** [activate_transport] followed by the operations on the borrowed transport. *)
Definition transact {A} (body : list Z → X A) : P A := λ s,
  match es_transceiver s with
  | None =>
      (Err nfc_unavailable_result,
       mkEsp32 None (es_config s) (es_keys s) (es_auth_key0 s) CardAssessment_default
         (mkServiceStatus (ss_last_uid (es_status s)) false (ss_lnurl (es_status s)))
         (es_draws s) (es_nvs_lnurl s))
  | Some t =>
      match activate t with
      | (None, t) =>
          (Err WR_CardNotPresent,
           mkEsp32 (Some t) (es_config s) (es_keys s) (es_auth_key0 s) CardAssessment_default
             (mkServiceStatus (ss_last_uid (es_status s)) true (ss_lnurl (es_status s)))
             (es_draws s) (es_nvs_lnurl s))
      | (Some uid, t) =>
          let '(r, (t, n)) := body uid (t, es_draws s) in
          (r, mkEsp32 (Some t) (es_config s) (es_keys s) (es_auth_key0 s) (es_last_card s)
                (es_status s) n (es_nvs_lnurl s))
      end
  end.

Definition modify (f : Esp32 T → Esp32 T) : P () := λ s, (Ok (), f s).
Definition gets {A} (f : Esp32 T → A) : P A := λ s, (Ok (f s), s).

Definition require_uid7 (uid : list Z) : X (list Z) :=
  match copy_uid7 uid with
  | Some uid => mret uid
  | None => fail (utils_workflow_error (lit "unsupported uid length"))
  end.

(** ** card_operations.rs *)

Definition inspect_with_key (key : AesKey) : P CardAssessment :=
  res ← transact (λ raw,
    uid ← require_uid7 raw;
    rnd ← esp_gen_rnd_a;
    key_versions ← ntag (check_key_versions key rnd);
    mret (uid, key_versions));
  config ← gets es_config;
  let issuers :=
    match pending_issuer config with
    | Some issuer_key =>
        [mkIssuerConfig (issuer_name config) issuer_key
           (ic_derivation_version IssuerConfig_default) (ic_key_version IssuerConfig_default)]
    | None => []
    end in
  let assessment := assess_card res.1 res.2 issuers in
  _ ← modify (λ s, saw_card res.1 assessment (set_auth_key0 key s));
  mret assessment.

Record PiccResult : Type := mkPiccResult {
  pr_inspect : SafeInspectResult V;
  pr_keys_loaded : bool;
  pr_keys_confirmed : bool;
  pr_uid_match : option bool }.

Definition picc : P PiccResult :=
  keys ← gets es_keys;
  let keys_loaded := if (keys : option CardKeys) then true else false in
  inspect ← transact (λ _, ntag (safe_inspect verify_sdm (k1 <$> keys) (k2 <$> keys)));
  let uid_match :=
    match si_sdm_verification inspect with
    | Some v => (λ u, bool_decide (u = si_uid inspect)) <$> verified_uid v
    | None => None
    end in
  let keys_confirmed := (if si_sdm_verification inspect then true else false) && keys_loaded in
  _ ← modify (saw_card (si_uid inspect)
    (seen_card (if keys_confirmed then CardState_Provisioned 0 else CardState_Unknown)
       (si_uid inspect) (if si_ndef_bytes inspect then true else false) false));
  _ ← modify (λ s,
    match keys with
    | Some keys => if keys_confirmed then set_auth_key0 (k0 keys) s else s
    | None => s
    end);
  mret (mkPiccResult inspect keys_loaded keys_confirmed uid_match).

Record DiagnoseResult : Type := mkDiagnoseResult {
  dr_inspect : SafeInspectResult V;
  dr_zero_key_attempted : bool;
  dr_zero_key_auth_ok : bool;
  dr_state : DiagnoseState }.

(** The card half of [diagnose]. *)
Definition diagnose_card : X DiagnoseResult :=
  inspect ← ntag (safe_inspect verify_sdm None None);
  if looks_factory_default (si_file_settings inspect) then
    rnd ← esp_gen_rnd_a;
    r ← attempt (dev (authenticate_aes session_default Key0 FACTORY_KEY rnd));
    mret match r with
    | Ok _ => mkDiagnoseResult inspect true true D_Blank
    | Err e =>
        mkDiagnoseResult inspect true false
          (if is_session_auth_delay e then D_AuthDelay else D_Inconsistent)
    end
  else
    mret (mkDiagnoseResult inspect false false
      match si_file_settings inspect, si_ndef_bytes inspect with
      | None, None => D_Inconsistent
      | _, _ => D_Provisioned
      end).

Definition diagnose : P DiagnoseResult :=
  res ← transact (λ _, diagnose_card);
  _ ← modify (saw_card (si_uid (dr_inspect res))
    (seen_card
       match dr_state res with
       | D_Blank => CardState_Blank
       | D_Provisioned => CardState_Provisioned 0
       | D_AuthDelay | D_Inconsistent => CardState_Unknown
       end
       (si_uid (dr_inspect res)) (if si_ndef_bytes (dr_inspect res) then true else false)
       (dr_zero_key_auth_ok res)));
  mret res.

(** The keys of [burn] and [wipe]: derived from the staged issuer key and the
    UID of the selected card, or the staged keys; [missing] without either. *)
Definition card_keys_for (issuer : option AesKey) (keys : option CardKeys)
    (missing : WorkflowResult) (raw : list Z) : X CardKeys :=
  match issuer with
  | Some issuer_key =>
      uid ← require_uid7 raw;
      mret (CardKeySet_keys (derive_keys issuer_key uid (ic_key_version IssuerConfig_default)))
  | None => match keys with Some keys => mret keys | None => fail missing end
  end.

Definition FACTORY_KEYS : CardKeys :=
  mkCardKeys FACTORY_KEY FACTORY_KEY FACTORY_KEY FACTORY_KEY FACTORY_KEY.

(** Which master key opens the card now: the factory key, else the new one. *)
Definition find_current_key (keyset : CardKeys) : X (AesKey * CardKeys) :=
  rnd ← esp_gen_rnd_a;
  r ← attempt (dev (authenticate_aes session_default Key0 FACTORY_KEY rnd));
  match r with
  | Ok _ => mret (FACTORY_KEY, FACTORY_KEYS)
  | Err e =>
      if is_session_auth_delay e then fail WR_AuthDelay else
      rnd ← esp_gen_rnd_a;
      r ← attempt (dev (authenticate_aes session_default Key0 (k0 keyset) rnd));
      match r with
      | Ok _ => mret (k0 keyset, keyset)
      | Err e => fail (if is_session_auth_delay e then WR_AuthDelay else WR_AuthFailed)
      end
  end.

Definition burn_card_session (issuer : option AesKey) (keys : option CardKeys) (url : list Z)
    (raw : list Z) : X (list Z * CardKeys) :=
  card_keys ← card_keys_for issuer keys (utils_workflow_error (lit "missing keys or issuer")) raw;
  cur ← find_current_key card_keys;
  rnd ← esp_gen_rnd_a;
  uid ← ntag (burn sdm_url_config
    (mkBurnParams url card_keys (ic_key_version IssuerConfig_default) cur.1 cur.2) rnd);
  mret (uid, card_keys).

Definition esp_burn (issuer : option AesKey) (keys : option CardKeys) (url : list Z) : P () :=
  res ← transact (burn_card_session issuer keys url);
  modify (λ s, sync_config
    (mkEsp32 (es_transceiver s)
       (mkBoltyConfig (copy_lnurl url) (issuer_name (es_config s)) (Some res.2)
          (pending_issuer (es_config s)) (rest_read_token (es_config s))
          (rest_write_token (es_config s)) (force_unsafe (es_config s)))
       (Some res.2) (Some (k0 res.2)) (es_last_card s)
       (mkServiceStatus (Some res.1) true (ss_lnurl (es_status s))) (es_draws s) (es_nvs_lnurl s))).

Definition wipe_card_session (issuer : option AesKey) (keys : option CardKeys) (force_unsafe : bool)
    (raw : list Z) : X (list Z) :=
  card_keys ← card_keys_for issuer keys WR_WipeRefused raw;
  refused ←
    (if force_unsafe then mret false else
     r ← attempt (dev (safe_inspect verify_sdm None None));
     mret match r with
     | Ok inspect =>
         looks_factory_default (si_file_settings inspect)
         && (if si_ndef_bytes inspect then false else true)
     | Err _ => false
     end);
  if (refused : bool) then fail WR_WipeRefused else
  rnd ← esp_gen_rnd_a;
  ntag (wipe card_keys rnd).

Definition esp_wipe (issuer : option AesKey) (keys : option CardKeys) : P () :=
  force ← gets (λ s, force_unsafe (es_config s));
  uid ← transact (wipe_card_session issuer keys force);
  modify (λ s,
    mkEsp32 (es_transceiver s) (es_config s) None (Some FACTORY_KEY)
      (seen_card CardState_Blank uid false false)
      (mkServiceStatus (Some uid) true (ss_lnurl (es_status s))) (es_draws s) (es_nvs_lnurl s)).

Definition esp_inspect : P CardAssessment :=
  keys ← gets es_keys;
  match keys with
  | None => inspect_with_key FACTORY_KEY
  | Some keys =>
      r ← attempt (inspect_with_key (k0 keys));
      match r with
      | Ok assessment => mret assessment
      | Err WR_AuthFailed | Err WR_CardNotPresent => inspect_with_key FACTORY_KEY
      | Err err => fail err
      end
  end.

Definition esp_check_blank : P () :=
  assessment ← esp_inspect;
  if decide (ca_state assessment = CardState_Blank) then mret ()
  else fail (utils_workflow_error (lit "card not blank")).

Definition as_workflow (m : P ()) (s : Esp32 T) : WorkflowResult * Esp32 T :=
  let '(r, s) := m s in (match r with Ok _ => WR_Success | Err err => err end, s).

(** [impl BoltyService for Esp32BoltyService]. *)
#[local] Instance esp32_service : BoltyService (Esp32 T) := {|
  svc_burn issuer keys url := as_workflow (esp_burn issuer keys url);
  svc_wipe issuer keys := as_workflow (esp_wipe issuer keys);
  svc_inspect := esp_inspect;
  svc_check_blank := as_workflow esp_check_blank;
  svc_get_status := es_status |}.

(** ** The poll loop *)

Definition card_present (s : Esp32 T) : bool * Esp32 T :=
  let '(r, s) := transact (λ _, mret ()) s in (is_ok r, s).

Definition functionally_active (sdm : Sdm) : bool :=
  negb (bool_decide (sdm_picc_data sdm = PiccData_None)) || bool_decide (is_Some (sdm_file_read sdm)).

Definition poll_state (file_settings : option FileSettingsView) : CardState :=
  match file_settings with
  | Some settings =>
      match fs_sdm settings with
      | Some sdm => if functionally_active sdm then CardState_Provisioned 0 else CardState_Blank
      | None => CardState_Blank
      end
  | None => CardState_Unknown
  end.

Definition poll_safe : P CardAssessment :=
  inspect ← transact (λ raw, _ ← require_uid7 raw; ntag (safe_inspect verify_sdm None None));
  let assessment :=
    seen_card (poll_state (si_file_settings inspect)) (si_uid inspect) false false in
  _ ← modify (saw_card (si_uid inspect) assessment);
  mret assessment.

(** [poll_card], with the announcement it prints. *)
Definition poll_card (announced : bool) (s : Esp32 T) : option CardAssessment * bool * Esp32 T :=
  match es_transceiver s with
  | None => (None, false, s)
  | Some _ =>
      if announced then let '(present, s) := card_present s in (None, present, s)
      else match poll_safe s with
           | (Err _, s) => (None, false, s)
           | (Ok a, s) => if ca_present a then (Some a, true, s) else (None, false, s)
           end
  end.
End service.
