(* ===== verification/Firmware.v ===== *)
(** * The firmware main loop

    [apps/bolty-esp32/src/firmware.rs] and [firmware/console_commands.rs]: the
    console bytes, BLE commands, REST jobs, button events and poll ticks that
    reach the card service, as steps of one state machine. *)

From S2P Require Import Prelude Str Hex Derivation Assessment Ndef NtagTypes Session Ntag Commands Console Workflow Esp32.

(** ** State *)

Inductive LegacyOp : Type := Op_Idle | Op_Burn | Op_Wipe.
Inductive JobStatus : Type := Job_Idle | Job_Pending | Job_Running | Job_Completed.
Inductive JobCommand : Type := Job_Burn | Job_Wipe.

#[export] Instance JobStatus_eq_dec : EqDecision JobStatus.
Proof. solve_decision. Defined.

Definition to_command (j : JobCommand) : Command :=
  match j with Job_Burn => Cmd_Burn | Job_Wipe => Cmd_Wipe end.

Definition JobCommand_from_str (s : list Z) : option JobCommand :=
  if eq_ignore_ascii_case s (lit "burn") then Some Job_Burn
  else if eq_ignore_ascii_case s (lit "wipe") then Some Job_Wipe
  else None.

Record JobSlot : Type := mkJobSlot {
  job_id : Z;
  job_status : JobStatus;
  job_command : option JobCommand;
  job_result : option WorkflowResult }.

Definition JobSlot_new : JobSlot := mkJobSlot 0 Job_Idle None None.

(** Job identifiers wrap at 32 bits and skip zero. *)
Definition submit (cmd : JobCommand) (slot : JobSlot) : bool * JobSlot :=
  if bool_decide (job_status slot ≠ Job_Idle ∧ job_status slot ≠ Job_Completed) then (false, slot)
  else
    let id := u32 (job_id slot + 1) in
    let id := if decide (id = 0) then 1 else id in
    (true, mkJobSlot id Job_Pending (Some cmd) None).

(** [fw_mode] is the static button mode byte, [fw_nvs_force] the force flag in
    flash. *)
Record Firmware (T : Type) : Type := mkFirmware {
  fw_dev : Device (Esp32 T);
  fw_assembler : LineAssembler;
  fw_announced : bool;
  fw_nvs_force : bool;
  fw_mode : Z;
  fw_legacy : LegacyOp;
  fw_job : JobSlot }.
Arguments mkFirmware {T} _ _ _ _ _ _ _.
Arguments fw_dev {T} _.
Arguments fw_assembler {T} _.
Arguments fw_announced {T} _.
Arguments fw_nvs_force {T} _.
Arguments fw_mode {T} _.
Arguments fw_legacy {T} _.
Arguments fw_job {T} _.

Definition with_dev {T} (d : Device (Esp32 T)) (f : Firmware T) : Firmware T :=
  mkFirmware d (fw_assembler f) (fw_announced f) (fw_nvs_force f) (fw_mode f) (fw_legacy f) (fw_job f).

Definition on_service {T A} (m : Esp32 T → A * Esp32 T) (d : Device (Esp32 T)) :
    A * Device (Esp32 T) :=
  let '(a, s) := m (dv_service d) in (a, mkDevice s (dv_config d) (dv_gate d)).

Definition set_tokens (t : option (list Z)) (c : BoltyConfig) : BoltyConfig :=
  mkBoltyConfig (lnurl c) (issuer_name c) (pending_keys c) (pending_issuer c) t t (force_unsafe c).

Definition set_force (b : bool) (c : BoltyConfig) : BoltyConfig :=
  mkBoltyConfig (lnurl c) (issuer_name c) (pending_keys c) (pending_issuer c)
    (rest_read_token c) (rest_write_token c) b.

Definition on_config {S} (g : BoltyConfig → BoltyConfig) (d : Device S) : Device S :=
  mkDevice (dv_service d) (g (dv_config d)) (dv_gate d).

Definition to_workflow {A} (r : result A WorkflowResult) : WorkflowResult :=
  match r with Ok _ => WR_Success | Err e => e end.

Inductive FwEvent : Type :=
| Fw_Byte (b : Z)
| Fw_Ble (cmd : list Z)
| Fw_Poll
| Fw_SubmitJob (cmd : JobCommand)
| Fw_RunJob
| Fw_Buttons (front side : ButtonEvent).

Section firmware.
  Context {T TE : Type} {D : NtagDevice T TE} {R : CardReader T} `{C : AesCrypto}.
  Context (sdm_url_config : list Z → CryptoMode → SdmUrlOptions → result SdmUrlConfig SdmUrlError).
  Context {V : Type} (verify_sdm : Sdm → list Z → AesKey → AesKey → option V)
    (verified_uid : V → option (list Z)).
  Context (rng : nat → list Z) (debug_error : Error TE → list Z).
  (** The reply of the network commands, and how often the hardware test polls
      before its clock runs out. *)
  Context (network : Command → WorkflowResult) (tap_polls remove_polls : nat).
  (** Whether the board has buttons ([feature = "board-m5stick"]). *)
  Context (has_buttons : bool).

  Local Notation Dev := (Device (Esp32 T)).
Local Instance service : BoltyService (Esp32 T) :=
    esp32_service sdm_url_config verify_sdm rng debug_error.

(** [dispatch_command] and the [sync_from] its callers follow it with. *)
Definition dispatch_and_sync (cmd : Command) (d : Dev) : WorkflowResult * Dev :=
  let '(result, d) := dispatch_command cmd d in
  (result, mkDevice (sync_from (dv_config d) (dv_service d)) (dv_config d) (dv_gate d)).

(** [handle_line]: the reply and the new state of the shared objects and of the
    button mode byte. *)
Definition handle_line (line : list Z) (mode : Z) (d : Dev) :
    result WorkflowResult CommandError * Z * Dev :=
  match parse_command line with
  | Err err => (Err err, mode, d)
  | Ok command =>
      match command with
      | Cmd_SetWifi _ _ | Cmd_WifiOff | Cmd_Ota _ _ => (Ok (network command), mode, d)
      | Cmd_ButtonMode =>
          (Ok (if has_buttons then WR_Success
               else workflow_error (lit "buttons not available on this board")), mode, d)
      | Cmd_ButtonModeSet m =>
          if has_buttons then (Ok WR_Success, byte_of_button_mode m, d)
          else (Ok (workflow_error (lit "buttons not available on this board")), mode, d)
      | Cmd_SetToken token => (Ok WR_Success, mode, on_config (set_tokens token) d)
      | Cmd_I2cScan | Cmd_HwInfo => (Ok WR_Success, mode, d)
      | Cmd_Picc =>
          let '(r, d) := on_service (picc verify_sdm verified_uid debug_error) d in
          (Ok (to_workflow r), mode, d)
      | Cmd_Diagnose =>
          let '(r, d) := on_service (diagnose verify_sdm rng debug_error) d in
          (Ok (to_workflow r), mode, d)
      | _ =>
          let '(result, d) := dispatch_and_sync command d in (Ok result, mode, d)
      end
  end.

(** The two waiting loops of [run_hwtest] that use the reader. *)
Fixpoint hwtest_tap (polls : nat) (s : Esp32 T) : Esp32 T :=
  match polls with
  | O => s
  | S polls =>
      match poll_safe verify_sdm debug_error s with
      | (Ok a, s) => if ca_present a then s else hwtest_tap polls s
      | (Err _, s) => hwtest_tap polls s
      end
  end.

Fixpoint hwtest_remove (polls : nat) (s : Esp32 T) : Esp32 T :=
  match polls with
  | O => s
  | S polls =>
      let '(present, s) := card_present s in
      if present then hwtest_remove polls s else s
  end.

(** The pre-dispatch arms of the console loop. *)
Definition handle_pre_dispatch (cmd : PreDispatchCommand) (f : Firmware T) : Firmware T :=
  match cmd with
  | Pre_ForceOn =>
      let d := on_config (set_force true) (fw_dev f) in
      mkFirmware d (fw_assembler f) (fw_announced f) true (fw_mode f) (fw_legacy f) (fw_job f)
  | Pre_ForceOff =>
      let d := on_config (set_force false) (fw_dev f) in
      mkFirmware d (fw_assembler f) (fw_announced f) false (fw_mode f) (fw_legacy f) (fw_job f)
  | Pre_HwTest =>
      with_dev (on_service (λ s, ((), hwtest_remove remove_polls (hwtest_tap tap_polls s)))
                  (fw_dev f)).2 f
  | Pre_Crashlog | Pre_ProvisionCert | Pre_ProvisionOtaKey _ | Pre_ForceStatus
  | Pre_GroveOn | Pre_GroveOff | Pre_GroveStatus => f
  end.

Definition console_line (text : list Z) (f : Firmware T) : Firmware T :=
  let f :=
    match parse_pre_dispatch_command text with
    | Some cmd => handle_pre_dispatch cmd f
    | None =>
        let '(_, mode, d) := handle_line text (fw_mode f) (fw_dev f) in
        mkFirmware d (fw_assembler f) (fw_announced f) (fw_nvs_force f) mode (fw_legacy f) (fw_job f)
    end in
  mkFirmware (fw_dev f) (fw_assembler f) false (fw_nvs_force f) (fw_mode f) (fw_legacy f) (fw_job f).

Definition console_byte (b : Z) (f : Firmware T) : Firmware T :=
  let '(ev, a) := feed MAX_LINE_LEN (fw_assembler f) b in
  let f := mkFirmware (fw_dev f) a (fw_announced f) (fw_nvs_force f) (fw_mode f) (fw_legacy f) (fw_job f) in
  match ev with
  | Some (Line text) => console_line text f
  | Some Overflow | None => f
  end.

(** [process_ble_command]: [None] is a refusal. *)
Definition process_ble_command (cmd : list Z) (d : Dev) : option WorkflowResult * Dev :=
  match parse_command cmd with
  | Err _ => (None, d)
  | Ok Cmd_Status | Ok Cmd_Uid => (Some WR_Success, d)
  | Ok ((Cmd_Inspect | Cmd_Diagnose | Cmd_Picc | Cmd_Check) as command) =>
      let '(result, d) := dispatch_command command d in (Some result, d)
  | Ok _ => (None, d)
  end.

Definition process_rest_job (f : Firmware T) : Firmware T :=
  let slot := fw_job f in
  match job_status slot, job_command slot with
  | Job_Pending, Some cmd =>
      let '(result, d) := dispatch_and_sync (to_command cmd) (fw_dev f) in
      mkFirmware d (fw_assembler f) (fw_announced f) (fw_nvs_force f) (fw_mode f) (fw_legacy f)
        (mkJobSlot (job_id slot) Job_Completed (job_command slot) (Some result))
  | _, _ => f
  end.

(** ** Buttons *)

Definition do_burn_button (d : Dev) : WorkflowResult * Dev :=
  let config := dv_config d in
  match pending_issuer config, pending_keys config with
  | None, None => (workflow_error (lit "no issuer or keys"), d)
  | _, _ =>
      let url := default [] (lnurl config) in
      match url with
      | [] => (workflow_error (lit "no lnurl configured"), d)
      | _ =>
          let '(result, d) := on_service (svc_burn (pending_issuer config) (pending_keys config) url) d in
          (result, mkDevice (sync_from config (dv_service d)) (dv_config d) (dv_gate d))
      end
  end.

Definition do_wipe_button (d : Dev) : WorkflowResult * Dev :=
  let config := dv_config d in
  match pending_issuer config, pending_keys config with
  | None, None => (workflow_error (lit "no issuer or keys"), d)
  | _, _ => on_service (svc_wipe (pending_issuer config) (pending_keys config)) d
  end.

Definition do_smart_action (d : Dev) : WorkflowResult * Dev :=
  match ca_state (es_last_card (dv_service d)) with
  | CardState_Blank => do_burn_button d
  | CardState_Provisioned _ => do_wipe_button d
  | _ => (workflow_error (lit "no card or unknown state"), d)
  end.

Definition next_legacy_op (op : LegacyOp) : LegacyOp :=
  match op with Op_Idle => Op_Burn | Op_Burn => Op_Wipe | Op_Wipe => Op_Idle end.

Definition handle_button_events (front side : ButtonEvent) (f : Firmware T) : Firmware T :=
  match button_mode_of_byte (fw_mode f) with
  | Simple =>
      if decide (front = Ev_Click) then with_dev (do_smart_action (fw_dev f)).2 f else f
  | Legacy =>
      let op := if decide (front = Ev_Click) then next_legacy_op (fw_legacy f) else fw_legacy f in
      let d :=
        if decide (side = Ev_Click) then
          match op with
          | Op_Burn => (do_burn_button (fw_dev f)).2
          | Op_Wipe => (do_wipe_button (fw_dev f)).2
          | Op_Idle => fw_dev f
          end
        else fw_dev f in
      mkFirmware d (fw_assembler f) (fw_announced f) (fw_nvs_force f) (fw_mode f) op (fw_job f)
  end.

(** ** The loop *)

Definition fw_step (ev : FwEvent) (f : Firmware T) : Firmware T :=
  match ev with
  | Fw_Byte b => console_byte b f
  | Fw_Ble cmd => with_dev (process_ble_command cmd (fw_dev f)).2 f
  | Fw_Poll =>
      let '(_, announced, s) :=
        poll_card verify_sdm debug_error (fw_announced f) (dv_service (fw_dev f)) in
      let d := fw_dev f in
      mkFirmware (mkDevice s (dv_config d) (dv_gate d)) (fw_assembler f) announced
        (fw_nvs_force f) (fw_mode f) (fw_legacy f) (fw_job f)
  | Fw_SubmitJob cmd =>
      mkFirmware (fw_dev f) (fw_assembler f) (fw_announced f) (fw_nvs_force f) (fw_mode f)
        (fw_legacy f) (submit cmd (fw_job f)).2
  | Fw_RunJob => process_rest_job f
  | Fw_Buttons front side => handle_button_events front side f
  end.

Fixpoint fw_run (evs : list FwEvent) (f : Firmware T) : Firmware T :=
  match evs with
  | [] => f
  | ev :: evs => fw_run evs (fw_step ev f)
  end.
End firmware.
