(* ===== verification/FirmwareProofs.v ===== *)
(** * Correctness of the firmware paths

    What can reach the card through the ESP32 firmware: which events of the main
    loop can change it, and what a reported success of the dispatcher means. *)

From S2P Require Import Prelude Str Hex Derivation Assessment Ndef NtagTypes Session Ntag NtagProofs Commands Console Workflow Esp32 Firmware.

(** Selecting a card does not change what is stored on it, and a 7-byte UID from
    the anticollision is the card's own (a card with random identifiers answers
    with 4 bytes). *)
Class ReaderLaws {T TE} {D : NtagDevice T TE} (L : NtagLaws D) (R : CardReader T) : Prop := {
  law_activate t : card (activate t).2 = card t;
  law_activate_uid t uid : (activate t).1 = Some uid → length uid = 7%nat →
    uid = uid_to_fixed (c_uid (card t)) }.

Section firmware.
  Context {T TE : Type} {D : NtagDevice T TE} {L : NtagLaws D} {R : CardReader T}
    {RL : ReaderLaws L R} `{C : AesCrypto}.

(** The card in the reader's field, as the service sees it. *)
Definition svc_card (s : Esp32 T) : option Card := card <$> es_transceiver s.

(** ** Computations that leave the card alone *)

Definition reads {E A} (m : M (T * nat) E A) : Prop := ∀ s, card (m s).2.1 = card s.1.
Definition quiet {A} (m : M (Esp32 T) WorkflowResult A) : Prop := ∀ s, svc_card (m s).2 = svc_card s.

Lemma reads_ret {E A} (a : A) : reads (mret a : M (T * nat) E A).
Proof. done. Qed.
Lemma reads_fail {E A} (e : E) : reads (fail e : M (T * nat) E A).
Proof. done. Qed.

Lemma reads_bind {E A B} (m : M (T * nat) E A) (k : A → M (T * nat) E B) :
  reads m → (∀ a, reads (k a)) → reads (m ≫= k).
Proof.
  intros Hm Hk s. specialize (Hm s). unfold mbind, M_bind.
  destruct (m s) as [[a|e] s']; simpl in *; [|done]. by rewrite Hk.
Qed.

Lemma reads_attempt {E F A} (m : M (T * nat) E A) : reads m → reads (attempt (F := F) m).
Proof. intros Hm s. specialize (Hm s). unfold attempt. by destruct (m s). Qed.

Lemma reads_dev {E A} (m : M T E A) : (∀ w, wp m (λ _ w', card w' = card w) w) → reads (dev m).
Proof. intros Hm [t n]. specialize (Hm t). unfold dev, wp in *. simpl. by destruct (m t). Qed.

Lemma quiet_ret {A} (a : A) : quiet (mret a).
Proof. done. Qed.
Lemma quiet_fail {A} (e : WorkflowResult) : quiet (fail e : M (Esp32 T) WorkflowResult A).
Proof. done. Qed.

Lemma quiet_bind {A B} (m : M (Esp32 T) WorkflowResult A) (k : A → M (Esp32 T) WorkflowResult B) :
  quiet m → (∀ a, quiet (k a)) → quiet (m ≫= k).
Proof.
  intros Hm Hk s. specialize (Hm s). unfold mbind, M_bind.
  destruct (m s) as [[a|e] s']; simpl in *; [|done]. by rewrite Hk.
Qed.

Lemma quiet_attempt {A} (m : M (Esp32 T) WorkflowResult A) :
  quiet m → quiet (attempt (F := WorkflowResult) m).
Proof. intros Hm s. specialize (Hm s). unfold attempt. by destruct (m s). Qed.

Lemma quiet_modify f : (∀ s, es_transceiver (f s) = es_transceiver s) → quiet (modify f).
Proof. intros Hf s. unfold svc_card. simpl. by rewrite Hf. Qed.

Lemma quiet_gets {A} (f : Esp32 T → A) : quiet (gets f).
Proof. done. Qed.

Lemma quiet_transact {A} (body : list Z → M (T * nat) WorkflowResult A) :
  (∀ uid, reads (body uid)) → quiet (transact body).
Proof.
  intros Hb s. unfold transact, svc_card. destruct (es_transceiver s) as [t|]; [|done].
  pose proof (law_activate t) as Ha. destruct (activate t) as [[uid|] t']; simpl in *; [|by rewrite Ha].
  specialize (Hb uid (t', es_draws s)). destruct (body uid _) as [r [t2 n]]. simpl in *. by rewrite Hb, Ha.
Qed.

  Context (sdm_url_config : list Z → CryptoMode → SdmUrlOptions → result SdmUrlConfig SdmUrlError).
  Context {V : Type} (verify_sdm : Sdm → list Z → AesKey → AesKey → option V).
  Context (rng : nat → list Z) (debug_error : Error TE → list Z).

Lemma reads_ntag {A} (m : M T (Error TE) A) :
  (∀ w, wp m (λ _ w', card w' = card w) w) → reads (ntag debug_error m).
Proof.
  intros Hm s. pose proof (reads_dev m Hm s) as H. unfold ntag, lift_err.
  by destruct (dev m s).
Qed.

Lemma reads_uid7 uid : reads (require_uid7 uid).
Proof. unfold require_uid7. by destruct (copy_uid7 uid). Qed.

Lemma reads_rnd : reads (esp_gen_rnd_a rng).
Proof. done. Qed.

Lemma inspect_keeps k1 k2 w : wp (safe_inspect verify_sdm k1 k2) (λ _ w', card w' = card w) w.
Proof.
  unfold safe_inspect. eapply wp_call_bind; [apply law_uid| |naive_solver]. intros u w1 [Hw1 _].
  eapply wp_attempt_bind; [apply law_version|]. intros r w2 [Hw2 _]. rewrite <- Hw1, <- Hw2.
  unfold wp, safe_inspect_file.
  pose proof (law_file_settings_u session_default w2) as H1.
  destruct (get_file_settings_u _ w2) as [[r1 s1] w3]. destruct H1 as [Hw3 _].
  pose proof (law_read_u s1 0 (replicate 256 0) w3) as H2.
  destruct (read_file_unauthenticated s1 0 _ w3) as [[[r2 buf] s2] w4]. destruct H2 as [Hw4 _].
  destruct (ok r1) as [fs|]; [destruct (fs_sdm fs)|]; simpl; [|congruence..].
  pose proof (law_read_u s2 0 buf w4) as H3.
  destruct (read_file_unauthenticated s2 0 buf w4) as [[[r3 buf3] s3] w5].
  destruct H3 as [Hw5 _]. simpl. congruence.
Qed.

Lemma versions_keep key rnd w : wp (check_key_versions key rnd) (λ _ w', card w' = card w) w.
Proof. eapply wp_mono; [apply check_key_versions_spec|]. by intros r w' [? _]. Qed.

Lemma auth_keeps n k rnd w :
  wp (authenticate_aes session_default n k rnd) (λ _ w', card w' = card w) w.
Proof. eapply wp_mono; [apply law_auth|]. by intros r w' [? _]. Qed.

Ltac reads_step :=
  first [ apply reads_ret | apply reads_fail | apply reads_rnd | apply reads_uid7
        | apply reads_ntag; intros ?; first [apply inspect_keeps | apply versions_keep]
        | apply reads_attempt, reads_dev; intros ?; first [apply inspect_keeps | apply auth_keeps]
        | apply reads_bind; [|intros ?]
        | case_match ].

Ltac quiet_step :=
  first [ apply quiet_ret | apply quiet_fail | apply quiet_gets
        | apply quiet_modify; intros ?; repeat case_match; reflexivity
        | apply quiet_transact; intros ?; repeat reads_step
        | apply quiet_bind; [|intros ?]
        | case_match ].

Lemma quiet_inspect_with_key key : quiet (inspect_with_key rng debug_error key).
Proof. unfold inspect_with_key. repeat quiet_step. Qed.

Lemma quiet_diagnose : quiet (diagnose verify_sdm rng debug_error).
Proof. unfold diagnose, diagnose_card. repeat quiet_step. Qed.

Lemma quiet_poll_safe : quiet (poll_safe verify_sdm debug_error).
Proof. unfold poll_safe. repeat quiet_step. Qed.

Lemma quiet_inspect : quiet (esp_inspect rng debug_error).
Proof.
  unfold esp_inspect. apply quiet_bind; [apply quiet_gets|]. intros [keys|].
  - apply quiet_bind; [apply quiet_attempt, quiet_inspect_with_key|]. intros r.
    repeat first [apply quiet_inspect_with_key | quiet_step].
  - apply quiet_inspect_with_key.
Qed.

Lemma quiet_check_blank : quiet (esp_check_blank rng debug_error).
Proof.
  unfold esp_check_blank. apply quiet_bind; [apply quiet_inspect|]. intros a. repeat quiet_step.
Qed.

Lemma card_present_keeps (s : Esp32 T) : svc_card (card_present s).2 = svc_card s.
Proof.
  pose proof (quiet_transact (λ _, mret ()) (λ _, reads_ret ()) s) as H.
  unfold card_present. by destruct (transact (λ _, mret ()) s).
Qed.

Lemma poll_card_keeps b (s : Esp32 T) :
  svc_card (poll_card verify_sdm debug_error b s).2 = svc_card s.
Proof.
  unfold poll_card. destruct (es_transceiver s); [|done]. destruct b.
  - pose proof (card_present_keeps s). by destruct (card_present s).
  - pose proof (quiet_poll_safe s). destruct (poll_safe _ _ s) as [[a|e] s']; [|done].
    by destruct (ca_present a).
Qed.

Lemma hwtest_keeps n m (s : Esp32 T) :
  svc_card (hwtest_remove m (hwtest_tap verify_sdm debug_error n s)) = svc_card s.
Proof.
  assert (∀ s : Esp32 T, svc_card (hwtest_remove m s) = svc_card s) as Hr.
  { induction m as [|m IH]; intros s'; simpl; [done|].
    pose proof (card_present_keeps s') as H. destruct (card_present s') as [[] s2]; simpl in *; [|done].
    by rewrite IH. }
  rewrite Hr. clear Hr. revert s. induction n as [|n IH]; intros s; simpl; [done|].
  pose proof (quiet_poll_safe s) as H. destruct (poll_safe _ _ s) as [[a|e] s2]; simpl in *.
  - destruct (ca_present a); [done|]. by rewrite IH.
  - by rewrite IH.
Qed.

Lemma sync_from_card c (s : Esp32 T) : svc_card (sync_from c s) = svc_card s.
Proof. done. Qed.

(** ** The dispatcher *)

Local Instance esp_service : BoltyService (Esp32 T) :=
  esp32_service sdm_url_config verify_sdm rng debug_error.

Definition dev_card (d : Device (Esp32 T)) : option Card := svc_card (dv_service d).

Definition writes_card (cmd : Command) : bool :=
  match cmd with Cmd_Burn | Cmd_Wipe => true | _ => false end.

Lemma dispatch_keeps cmd d :
  writes_card cmd = false → dev_card (dispatch_command cmd d).2 = dev_card d.
Proof.
  intros Hc. destruct d as [s cfg g]. unfold dev_card.
  pose proof (quiet_inspect s) as Hi. pose proof (quiet_check_blank s) as Hb.
  destruct cmd; try done; simpl; unfold as_workflow in *.
  - by destruct (esp_inspect _ _ s).
  - by destruct (esp_check_blank _ _ s).
  - by destruct (esp_inspect _ _ s).
Qed.

(** ** What success of the dispatcher means *)

Lemma wp_dev {E A} (m : M T E A) Q (s : T * nat) :
  wp m (λ r t, Q r (t, s.2)) s.1 → wp (dev m) Q s.
Proof. unfold wp, dev. by destruct (m s.1). Qed.

Lemma wp_ntag {A} (m : M T (Error TE) A) (Q : result A WorkflowResult → T * nat → Prop) s :
  wp m (λ r t, Q (map_err (map_ntag_error debug_error) r) (t, s.2)) s.1 →
  wp (ntag debug_error m) Q s.
Proof. intros H. apply wp_lift_err, wp_dev, H. Qed.

(** A transaction happens on the card that was selected. *)
Lemma wp_transact {A} (body : list Z → M (T * nat) WorkflowResult A) Q s t :
  es_transceiver s = Some t →
  (∀ s', svc_card s' = Some (card t) → es_keys s' = es_keys s → Q (Err WR_CardNotPresent) s') →
  (∀ uid t1, card t1 = card t → (length uid = 7%nat → uid = uid_to_fixed (c_uid (card t))) →
     wp (body uid) (λ r x, ∀ s', es_transceiver s' = Some x.1 → es_config s' = es_config s →
       es_keys s' = es_keys s → Q r s') (t1, es_draws s)) →
  wp (transact body) Q s.
Proof.
  intros Hs Herr Hbody. unfold wp, transact. rewrite Hs.
  pose proof (law_activate t) as Ha. pose proof (law_activate_uid t) as Hu.
  destruct (activate t) as [[uid|] t1]; simpl in *.
  - specialize (Hbody uid t1 Ha (Hu uid eq_refl)). unfold wp in Hbody.
    destruct (body uid (t1, es_draws s)) as [r [t2 n]]. simpl in *. by apply Hbody.
  - apply Herr; [|done]. unfold svc_card. simpl. by rewrite Ha.
Qed.

Definition intended_keys (issuer : option AesKey) (keys : option CardKeys) (c : Card) (ck : CardKeys) :
    Prop :=
  match issuer with
  | Some ik =>
      ck = CardKeySet_keys (derive_keys ik (uid_to_fixed (c_uid c)) (ic_key_version IssuerConfig_default))
  | None => keys = Some ck
  end.

Lemma card_keys_for_spec issuer keys missing raw c (s : T * nat) :
  (length raw = 7%nat → raw = uid_to_fixed (c_uid c)) →
  missing ≠ WR_Success →
  wp (card_keys_for issuer keys missing raw) (λ r s', s' = s ∧ r ≠ Err WR_Success ∧
    ∀ ck, r = Ok ck → intended_keys issuer keys c ck) s.
Proof.
  intros Hraw Hmiss. unfold card_keys_for, require_uid7, copy_uid7.
  destruct issuer as [ik|]; [|destruct keys as [k|]; unfold wp; simpl; naive_solver].
  case_decide as Hl; [by unfold wp; simpl|]. apply wp_bind, wp_ret. unfold wp. simpl.
  split; [done|]. split; [done|]. intros ck [= <-]. simpl. by rewrite (Hraw Hl).
Qed.

Lemma find_current_key_spec ck (s : T * nat) :
  wp (find_current_key rng ck) (λ r s', card s'.1 = card s.1 ∧ r ≠ Err WR_Success ∧
    ∀ cur prev, r = Ok (cur, prev) → k0 (c_keys (card s.1)) = cur ∧ (cur = FACTORY_KEY ∨ cur = k0 ck)) s.
Proof.
  unfold find_current_key. apply wp_bind. unfold wp at 1, esp_gen_rnd_a. simpl.
  apply wp_bind, wp_attempt, wp_dev. eapply wp_mono; [apply law_auth|]. simpl.
  intros [s1|e] t1 [Ht1 Hk]; [apply wp_ret; simpl; naive_solver|].
  case_match; [by apply wp_fail|]. apply wp_bind. unfold wp at 1, esp_gen_rnd_a. simpl.
  apply wp_bind, wp_attempt, wp_dev. eapply wp_mono; [apply law_auth|]. simpl. rewrite Ht1.
  intros [s1|e2] t2 [Ht2 Hk2]; [apply wp_ret; simpl; naive_solver|].
  apply wp_fail. simpl. by case_match.
Qed.

Lemma map_ntag_error_fails e : map_ntag_error debug_error e ≠ WR_Success.
Proof. unfold map_ntag_error. by repeat case_match. Qed.

(** The card [c'] was burned from [c] as the configuration [cfg] asks. *)
Definition burned_as (cfg : BoltyConfig) (url : list Z) (c c' : Card) (ck : CardKeys) : Prop :=
  intended_keys (pending_issuer cfg) (pending_keys cfg) c ck ∧
  ∃ plan cur prev,
    sdm_url_config (standardize_url_template url) Aes burn_sdm_opts = Ok plan ∧
    k0 (c_keys c) = cur ∧ (cur = FACTORY_KEY ∨ cur = k0 ck) ∧
    provisioned plan (mkBurnParams url ck (ic_key_version IssuerConfig_default) cur prev) c c'.

Lemma burn_session_spec cfg url raw t1 n c :
  card t1 = c → (length raw = 7%nat → raw = uid_to_fixed (c_uid c)) →
  wp (burn_card_session sdm_url_config rng debug_error (pending_issuer cfg) (pending_keys cfg) url raw)
    (λ r x, (master_kept c (card x.1) ∨ ∃ ck, burned_as cfg url c (card x.1) ck) ∧
       r ≠ Err WR_Success ∧ ∀ uid ck, r = Ok (uid, ck) → burned_as cfg url c (card x.1) ck) (t1, n).
Proof.
  intros <- Hraw. unfold burn_card_session. apply wp_bind.
  eapply wp_mono; [by apply card_keys_for_spec|].
  intros [ck|e] ? (-> & Hne & Hck); [|by split; [left|split; [congruence|]]].
  specialize (Hck _ eq_refl). clear Hne. apply wp_bind. eapply wp_mono; [apply find_current_key_spec|].
  intros [[cur prev]|e] [t2 n2] (Ht2 & Hne & Hcur); simpl in *;
    [|rewrite Ht2; by split; [left|split; [congruence|]]].
  destruct (Hcur _ _ eq_refl) as [Hk Hor].
  apply wp_bind. unfold wp at 1, esp_gen_rnd_a. simpl. apply wp_bind, wp_ntag.
  eapply wp_mono; [apply burn_outcome|]. simpl. rewrite Ht2.
  assert (∀ c' plan, sdm_url_config (standardize_url_template url) Aes burn_sdm_opts = Ok plan →
    provisioned plan (mkBurnParams url ck (ic_key_version IssuerConfig_default) cur prev) (card t1) c' →
    burned_as cfg url (card t1) c' ck) as Hb.
  { intros c' plan ??. split; [done|]. by exists plan, cur, prev. }
  intros [uid|e] t3 [Hm Hok]; simpl.
  - apply wp_ret. destruct (Hok _ eq_refl) as (_ & _ & plan & Hp & Hprov). simpl.
    split; [right; eauto|]. split; [done|]. intros u k [= <- <-]. eauto.
  - split; [|split; [intros [= E]; by apply map_ntag_error_fails in E|done]]. destruct Hm as [?|(plan & ? & ?)]; [by left|right; eauto].
Qed.

Lemma wipe_session_spec cfg force raw t1 n c :
  card t1 = c → (length raw = 7%nat → raw = uid_to_fixed (c_uid c)) →
  wp (wipe_card_session verify_sdm rng debug_error (pending_issuer cfg) (pending_keys cfg) force raw)
    (λ r x, (master_kept c (card x.1) ∨ factory_reset c (card x.1)) ∧ r ≠ Err WR_Success ∧
       ∀ uid, r = Ok uid → uid = uid_to_fixed (c_uid c) ∧ factory_reset c (card x.1) ∧
         ∃ ck, intended_keys (pending_issuer cfg) (pending_keys cfg) c ck ∧ k0 (c_keys c) = k0 ck) (t1, n).
Proof.
  intros <- Hraw. unfold wipe_card_session. apply wp_bind.
  eapply wp_mono; [by apply card_keys_for_spec|].
  intros [ck|e] ? (-> & Hne & Hck); [|by split; [left|split; [congruence|]]].
  specialize (Hck _ eq_refl). clear Hne. apply wp_bind.
  apply (wp_mono _ (λ r x, card x.1 = card t1 ∧ ∃ b, r = Ok b)).
  { destruct force; [apply wp_ret; eauto|]. apply wp_bind, wp_attempt, wp_dev.
    eapply wp_mono; [apply inspect_keeps|]. intros [?|?] t2 Ht2; apply wp_ret; simpl; eauto. }
  intros ? [t2 n2] [Ht2 [b ->]]. simpl in Ht2. destruct b; [apply wp_fail; simpl; rewrite Ht2; by split; [left|]|].
  apply wp_bind. unfold wp at 1, esp_gen_rnd_a. simpl. apply wp_ntag.
  eapply wp_mono; [apply wipe_outcome|]. simpl. rewrite Ht2.
  intros [uid|e] t3 [Hm Hok]; simpl.
  - destruct (Hok _ eq_refl) as (-> & Hk & Hf). split; [done|]. split; [done|].
    intros u [= <-]. eauto 10.
  - split; [done|]. split; [intros [= E]; by apply map_ntag_error_fails in E|done].
Qed.

(** The guards of the dispatcher for a burn. *)
Definition burn_allowed (cfg : BoltyConfig) (url : list Z) : Prop :=
  lnurl cfg = Some url ∧ (is_Some (pending_keys cfg) ∨ is_Some (pending_issuer cfg)) ∧
  (force_unsafe cfg = true ∨ contains (lit "{mac}") url = true).

Lemma esp_burn_spec cfg url s t :
  es_transceiver s = Some t →
  wp (esp_burn sdm_url_config rng debug_error (pending_issuer cfg) (pending_keys cfg) url)
    (λ r s', ∃ c', svc_card s' = Some c' ∧ r ≠ Err WR_Success ∧
       (master_kept (card t) c' ∨ ∃ ck, burned_as cfg url (card t) c' ck) ∧
       (r = Ok () → ∃ ck, burned_as cfg url (card t) c' ck ∧ es_keys s' = Some ck)) s.
Proof.
  intros Hs. unfold esp_burn. apply wp_bind. eapply wp_transact; [done| |].
  { intros s' Hc _. exists (card t). split; [done|]. split; [done|]. split; [by left|done]. }
  intros uid t1 Ht1 Hu. eapply wp_mono; [by apply (burn_session_spec cfg)|]. simpl.
  intros r [t2 n] (Hm & Hne & Hok) s' Hs' _ _. unfold svc_card. destruct r as [[u ck]|e].
  - unfold wp, modify. simpl. rewrite Hs'. simpl. exists (card t2).
    split; [done|]. split; [done|]. split; [done|]. eauto.
  - rewrite Hs'. exists (card t2). split_and!; [done|congruence|done|done].
Qed.

Lemma esp_wipe_spec cfg s t :
  es_transceiver s = Some t →
  wp (esp_wipe verify_sdm rng debug_error (pending_issuer cfg) (pending_keys cfg))
    (λ r s', ∃ c', svc_card s' = Some c' ∧ r ≠ Err WR_Success ∧
       (master_kept (card t) c' ∨ factory_reset (card t) c') ∧
       (r = Ok () → factory_reset (card t) c' ∧ es_keys s' = None ∧
          ca_state (es_last_card s') = CardState_Blank ∧
          ∃ ck, intended_keys (pending_issuer cfg) (pending_keys cfg) (card t) ck ∧
            k0 (c_keys (card t)) = k0 ck)) s.
Proof.
  intros Hs. unfold esp_wipe. apply wp_bind. unfold wp at 1, gets. simpl.
  apply wp_bind. eapply wp_transact; [done| |].
  { intros s' Hc _. exists (card t). split; [done|]. split; [done|]. split; [by left|done]. }
  intros uid t1 Ht1 Hu. eapply wp_mono; [by apply (wipe_session_spec cfg)|]. simpl.
  intros r [t2 n] (Hm & Hne & Hok) s' Hs' _ _. unfold svc_card. destruct r as [u|e].
  - destruct (Hok _ eq_refl) as (_ & Hf & Hck). unfold wp, modify. simpl. rewrite Hs'. simpl.
    exists (card t2). split_and!; [done..|eauto].
  - rewrite Hs'. exists (card t2). split_and!; [done|congruence|done|done].
Qed.

(** C22. What the dispatcher does to a card for [burn], on every outcome. The
    card is touched only when a URL and keys or an issuer are staged and the URL
    carries the {mac} marker (or force is on); at any interruption K0 is still
    the old one or the card is completely provisioned; and success is reported
    only for a card provisioned at version 1 with exactly the intended keys:
    those derived from the staged issuer key and the UID of the card that was
    burned, or else the staged keys. *)
Theorem dispatch_burn_outcome (d d' : Device (Esp32 T)) (t : T) (r : WorkflowResult) :
  es_transceiver (dv_service d) = Some t →
  dispatch_command Cmd_Burn d = (r, d') →
  ∃ c', dev_card d' = Some c' ∧
    (c' = card t ∨ ∃ url, burn_allowed (dv_config d) url ∧
       (master_kept (card t) c' ∨ ∃ ck, burned_as (dv_config d) url (card t) c' ck)) ∧
    (r = WR_Success → ∃ url ck, burn_allowed (dv_config d) url ∧
       burned_as (dv_config d) url (card t) c' ck ∧ es_keys (dv_service d') = Some ck).
Proof.
  destruct d as [s cfg g]. intros Ht. simpl. unfold burn_allowed, dev_card.
  assert (svc_card s = Some (card t)) as Hc by (unfold svc_card; simpl in Ht; by rewrite Ht).
  destruct (lnurl cfg) as [url|]; [|intros [= <- <-]; exists (card t); naive_solver].
  destruct (bool_decide (is_Some (pending_keys cfg) ∨ is_Some (pending_issuer cfg))) eqn:Hk.
  2:{ apply bool_decide_eq_false in Hk.
      assert (pending_keys cfg = None ∧ pending_issuer cfg = None) as [-> ->].
      { destruct (pending_keys cfg), (pending_issuer cfg); naive_solver. }
      intros [= <- <-]. exists (card t). naive_solver. }
  apply bool_decide_eq_true in Hk.
  destruct (negb (force_unsafe cfg) && negb (contains (lit "{mac}") url)) eqn:Hg.
  { intros Hr. assert (d' = mkDevice s cfg g ∧ r ≠ WR_Success) as [-> Hne].
    { destruct (pending_keys cfg), (pending_issuer cfg); by injection Hr as <- <-. }
    exists (card t). naive_solver. }
  assert (force_unsafe cfg = true ∨ contains (lit "{mac}") url = true) as Hg'.
  { destruct (force_unsafe cfg); [by left|]. destruct (contains _ url); [by right|done]. }
  pose proof (esp_burn_spec cfg url s t Ht) as Hb. unfold wp in Hb.
  unfold as_workflow. destruct (esp_burn _ _ _ _ _ _ s) as [rb s']. simpl in Hb.
  destruct Hb as (c' & Hc' & Hne & Hm & Hok). intros Hr.
  assert (dv_service d' = s' ∧ r = match rb with Ok _ => WR_Success | Err e => e end) as [-> ->].
  { destruct (pending_keys cfg), (pending_issuer cfg); try (by injection Hr as <- <-). naive_solver. }
  exists c'. split; [done|]. split; [right; exists url; eauto|]. intros Hs.
  destruct rb as [[]|e]; [|congruence]. destruct (Hok eq_refl) as (ck & ? & ?). eauto 10.
Qed.

(** C23. What the dispatcher does to a card for [wipe]: at any interruption K0 is
    still the old one or the card is back in its delivery state, and success is
    reported only in the second case, after authenticating with the master key
    derived for that card's UID (or the staged one); the service then shows the
    card as blank and forgets the keys. *)
Theorem dispatch_wipe_outcome (d d' : Device (Esp32 T)) (t : T) (r : WorkflowResult) :
  es_transceiver (dv_service d) = Some t →
  dispatch_command Cmd_Wipe d = (r, d') →
  ∃ c', dev_card d' = Some c' ∧
    (master_kept (card t) c' ∨ factory_reset (card t) c') ∧
    (r = WR_Success → factory_reset (card t) c' ∧ es_keys (dv_service d') = None ∧
       ca_state (es_last_card (dv_service d')) = CardState_Blank ∧
       ∃ ck, intended_keys (pending_issuer (dv_config d)) (pending_keys (dv_config d)) (card t) ck ∧
         k0 (c_keys (card t)) = k0 ck).
Proof.
  destruct d as [s cfg g]. intros Ht. simpl. unfold dev_card.
  pose proof (esp_wipe_spec cfg s t Ht) as Hw. unfold wp in Hw.
  unfold as_workflow. destruct (esp_wipe _ _ _ _ _ s) as [rb s']. simpl in Hw.
  destruct Hw as (c' & Hc' & Hne & Hm & Hok). intros [= <- <-]. simpl.
  exists c'. split; [done|]. split; [done|]. intros Hs.
  destruct rb as [[]|e]; [auto|congruence].
Qed.

Definition card_versions (c : Card) : list Z :=
  map (λ n, get_ver n (c_vers c)) [Key0; Key1; Key2; Key3; Key4].

Lemma assess_card_blank uid vs issuers :
  ca_state (assess_card uid vs issuers) = CardState_Blank → Forall (λ v, v = KEY_VERSION_BLANK) vs.
Proof.
  unfold assess_card. destruct (forallb _ vs) eqn:Hb; [intros _; by apply forallb_blank|].
  by destruct (match_issuer _ _ _) as [[]|].
Qed.

(** A completed inspection reports on the card in the field, opened with [key]. *)
Definition inspected (c : Card) (key : AesKey) (a : CardAssessment) : Prop :=
  k0 (c_keys c) = key ∧
  (ca_state a = CardState_Blank → Forall (λ v, v = KEY_VERSION_BLANK) (card_versions c)).

Lemma inspect_with_key_spec key s t :
  es_transceiver s = Some t →
  wp (inspect_with_key rng debug_error key) (λ r s', svc_card s' = Some (card t) ∧
    es_keys s' = es_keys s ∧ r ≠ Err WR_Success ∧ ∀ a, r = Ok a → inspected (card t) key a) s.
Proof.
  intros Hs. unfold inspect_with_key. apply wp_bind. eapply wp_transact; [done| |].
  { intros s' Hc Hk. naive_solver. }
  intros raw t1 Ht1 Hu. apply wp_bind. unfold require_uid7, copy_uid7.
  case_decide; [apply wp_fail; intros s' Hs' Hc Hk; unfold svc_card; rewrite Hs'; simpl; rewrite Ht1;
    split_and!; done|].
  apply wp_ret, wp_bind. unfold wp at 1, esp_gen_rnd_a. simpl. apply wp_bind, wp_ntag.
  eapply wp_mono; [apply check_key_versions_spec|]. simpl. rewrite Ht1.
  intros [vs|e] t2 [Ht2 Hvs]; simpl.
  - destruct (Hvs _ eq_refl) as [Hk0 ->]. apply wp_ret. intros s' Hs' Hc Hk.
    apply wp_bind. unfold wp at 1, gets. simpl. apply wp_bind. unfold wp at 1, modify. simpl.
    apply wp_ret. unfold svc_card. simpl. rewrite Hs'. simpl. rewrite Ht2.
    split_and!; [done..|]. intros a [= <-]. split; [done|].
    apply (assess_card_blank _ (card_versions (card t))).
  - intros s' Hs' Hc Hk. unfold svc_card. rewrite Hs'. simpl. rewrite Ht2. split_and!; [done..| |done].
    intros [= E]. by apply map_ntag_error_fails in E.
Qed.

(** [check] tells the truth about blankness: when it reports success, the
    card in the field opens with the loaded master key or with the factory key
    and all five of its key versions are the blank version; whatever it reports,
    the card is unchanged. *)
Theorem check_blank_truthful (d d' : Device (Esp32 T)) (t : T) (r : WorkflowResult) :
  es_transceiver (dv_service d) = Some t →
  dispatch_command Cmd_Check d = (r, d') →
  dev_card d' = Some (card t) ∧
  (r = WR_Success → Forall (λ v, v = KEY_VERSION_BLANK) (card_versions (card t)) ∧
    (k0 (c_keys (card t)) = FACTORY_KEY ∨
     ∃ keys, es_keys (dv_service d) = Some keys ∧ k0 (c_keys (card t)) = k0 keys)).
Proof.
  destruct d as [s cfg g]. intros Ht. simpl. unfold dev_card.
  assert (wp (esp_check_blank rng debug_error) (λ r s', svc_card s' = Some (card t) ∧
    r ≠ Err WR_Success ∧ (r = Ok () → ∃ key a, inspected (card t) key a ∧ ca_state a = CardState_Blank ∧
      (key = FACTORY_KEY ∨ ∃ keys, es_keys s = Some keys ∧ key = k0 keys))) s) as H.
  { unfold esp_check_blank. apply wp_bind.
    apply (wp_mono _ (λ r s', svc_card s' = Some (card t) ∧ r ≠ Err WR_Success ∧
      ∀ a, r = Ok a → ∃ key, inspected (card t) key a ∧
        (key = FACTORY_KEY ∨ ∃ keys, es_keys s = Some keys ∧ key = k0 keys))).
    - unfold esp_inspect. apply wp_bind. unfold wp at 1, gets. simpl.
      destruct (es_keys s) as [keys|] eqn:Ek.
      + apply wp_bind, wp_attempt. eapply wp_mono; [by apply inspect_with_key_spec|].
        intros r1 s1 (Hc1 & Hk1 & Hne & Hok). unfold svc_card in Hc1.
        destruct (es_transceiver s1) as [t1|] eqn:Hs1; [|done]. injection Hc1 as Hc1.
        assert (wp (inspect_with_key rng debug_error FACTORY_KEY) (λ r s', svc_card s' = Some (card t) ∧
          r ≠ Err WR_Success ∧ ∀ a, r = Ok a → ∃ key, inspected (card t) key a ∧
          (key = FACTORY_KEY ∨ ∃ keys0, Some keys = Some keys0 ∧ key = k0 keys0)) s1) as Hf.
        { eapply wp_mono; [by apply inspect_with_key_spec|]. rewrite Hc1.
          intros r2 s2 (? & ? & ? & ?). split_and!; eauto. }
        assert (svc_card s1 = Some (card t)) as Hs1' by (unfold svc_card; rewrite Hs1; simpl; congruence).
        destruct r1 as [a|[]]; try done; try (apply wp_fail; split_and!; congruence || done).
        apply wp_ret. split_and!; [done..|]. intros a' [= <-]. eauto 10.
      + eapply wp_mono; [by apply inspect_with_key_spec|].
        intros r2 s2 (? & ? & ? & ?). split_and!; eauto.
    - intros [a|e] s1 (Hc1 & Hne & Hok); [|split_and!; congruence || done].
      destruct (Hok _ eq_refl) as (key & Hi & Hkey).
      case_decide; [apply wp_ret|apply wp_fail]; (split; [done|]); (split; [done|]); [eauto 10|done]. }
  unfold wp in H. unfold as_workflow. destruct (esp_check_blank _ _ s) as [rb s']. simpl in H.
  destruct H as (Hc & Hne & Hok). intros [= <- <-]. split; [done|]. intros Hr.
  destruct rb as [[]|e]; [|congruence].
  destruct (Hok eq_refl) as (key & a & [Hk Hb] & Hs & Hor). split; [auto|]. naive_solver.
Qed.
(** ** The main loop *)

  Context (verified_uid : V → option (list Z)).

Lemma quiet_picc : quiet (picc verify_sdm verified_uid debug_error).
Proof. unfold picc. repeat quiet_step. Qed.

  Context (network : Command → WorkflowResult) (tap_polls remove_polls : nat) (has_buttons : bool).

  Local Notation step := (fw_step sdm_url_config verify_sdm verified_uid rng debug_error network
    tap_polls remove_polls has_buttons).
  Local Notation run := (fw_run sdm_url_config verify_sdm verified_uid rng debug_error network
    tap_polls remove_polls has_buttons).

Definition fw_card (f : Firmware T) : option Card := dev_card (fw_dev f).

Lemma dispatch_and_sync_keeps cmd d :
  writes_card cmd = false →
  dev_card (dispatch_and_sync sdm_url_config verify_sdm rng debug_error cmd d).2 = dev_card d.
Proof.
  intros Hc. unfold dispatch_and_sync. pose proof (dispatch_keeps cmd d Hc) as H.
  unfold esp_service in H. unfold service. by destruct (dispatch_command cmd d).
Qed.

(** A line that is not a burn or wipe sentence. *)
Definition harmless_line (text : list Z) : Prop :=
  ¬ denotes text Cmd_Burn ∧ ¬ denotes text Cmd_Wipe.

Lemma harmless_command text c : harmless_line text → parse_command text = Ok c → writes_card c = false.
Proof. intros [Hb Hw] Hp%denotes_of_parse. by destruct c. Qed.

Lemma handle_line_keeps text mode d :
  harmless_line text →
  dev_card (handle_line sdm_url_config verify_sdm verified_uid rng debug_error network has_buttons
    text mode d).2 = dev_card d.
Proof.
  intros Hh. unfold handle_line. destruct (parse_command text) as [c|e] eqn:Hp; [|done].
  pose proof (harmless_command _ _ Hh Hp) as Hc.
  pose proof (dispatch_and_sync_keeps c d Hc) as Hd.
  pose proof (quiet_picc (dv_service d)) as Hpi. pose proof (quiet_diagnose (dv_service d)) as Hdi.
  unfold on_service, dev_card in *.
  destruct c; try done; simpl;
    try (by destruct (dispatch_and_sync _ _ _ _ _ d)).
  - by destruct (picc _ _ _ _).
  - by destruct (diagnose _ _ _ _).
  - by destruct has_buttons.
Qed.

Lemma console_line_keeps text f :
  harmless_line text →
  fw_card (console_line sdm_url_config verify_sdm verified_uid rng debug_error network tap_polls
    remove_polls has_buttons text f) = fw_card f.
Proof.
  intros Hh. unfold console_line, fw_card. simpl.
  destruct (parse_pre_dispatch_command text) as [cmd|].
  - destruct cmd; try done. simpl. apply hwtest_keeps.
  - pose proof (handle_line_keeps text (fw_mode f) (fw_dev f) Hh) as H.
    by destruct (handle_line _ _ _ _ _ _ _ _ _ _) as [[r m] d].
Qed.

Lemma ble_keeps cmd d :
  dev_card (process_ble_command sdm_url_config verify_sdm rng debug_error cmd d).2 = dev_card d ∧
  dv_config (process_ble_command sdm_url_config verify_sdm rng debug_error cmd d).2 = dv_config d.
Proof.
  unfold process_ble_command. destruct (parse_command cmd) as [c|]; [|done].
  pose proof (dispatch_keeps c d) as H. unfold esp_service in H. unfold service.
  destruct c; try done; (split; [specialize (H eq_refl); by destruct (dispatch_command _ d)|]);
    destruct d as [s cfg g]; simpl; try done.
  - by destruct (as_workflow _ s).
  - by destruct (esp_inspect _ _ s).
Qed.

(** What a step needs not to be a request to write the card. *)
Definition no_write_request (ev : FwEvent) : Prop :=
  match ev with
  | Fw_SubmitJob _ => False
  | Fw_Buttons front side => front ≠ Ev_Click ∧ side ≠ Ev_Click
  | _ => True
  end.

(** The bytes the console received, and the lines the assembler made of them. *)
Definition console_bytes (evs : list FwEvent) : list Z :=
  omap (λ ev, match ev with Fw_Byte b => Some b | _ => None end) evs.

(** The line a console byte completes. *)
Definition completed_line (ev : FwEvent) (f : Firmware T) : option (list Z) :=
  match ev with
  | Fw_Byte b =>
      match (feed MAX_LINE_LEN (fw_assembler f) b).1 with Some (Line text) => Some text | _ => None end
  | _ => None
  end.

(** A step that runs a pending job, follows a click or completes a burn or wipe
    sentence is a reason for the card to change; no other step changes it. *)
Definition fw_cause (ev : FwEvent) (f : Firmware T) : Prop :=
  match ev with
  | Fw_Buttons front side => front = Ev_Click ∨ side = Ev_Click
  | Fw_RunJob => job_status (fw_job f) = Job_Pending
  | _ => ∃ text, completed_line ev f = Some text ∧ (denotes text Cmd_Burn ∨ denotes text Cmd_Wipe)
  end.

Lemma step_card ev f : ¬ fw_cause ev f → fw_card (step ev f) = fw_card f.
Proof.
  intros Hn. destruct ev as [b|cmd| | | |front side]; simpl in *.
  - unfold console_byte. destruct (feed _ _ b) as [[[text|]|] a]; simpl in *; try done.
    rewrite console_line_keeps; [done|]. split; intros Hd; apply Hn; eauto.
  - apply ble_keeps.
  - pose proof (poll_card_keeps (fw_announced f) (dv_service (fw_dev f))) as H.
    by destruct (poll_card _ _ _ _) as [[o a] s].
  - done.
  - unfold process_rest_job. by destruct (job_status (fw_job f)).
  - unfold handle_button_events. destruct (button_mode_of_byte _); rewrite !decide_False by tauto; done.
Qed.

(** Only a submission makes a job pending. *)
Lemma step_job ev f :
  (∀ cmd, ev ≠ Fw_SubmitJob cmd) → job_status (fw_job (step ev f)) = Job_Pending →
  fw_job (step ev f) = fw_job f.
Proof.
  intros Hev. destruct ev as [b|cmd| |cmd| |front side]; simpl; try done.
  - unfold console_byte. destruct (feed _ _ b) as [[[text|]|] a]; simpl; try done.
    unfold console_line. destruct (parse_pre_dispatch_command text) as [[]|]; try done.
    by destruct (handle_line _ _ _ _ _ _ _ _ _ _) as [[r m] d].
  - by destruct (poll_card _ _ _ _) as [[o a] s].
  - by destruct (Hev cmd).
  - unfold process_rest_job. destruct (job_status (fw_job f)) eqn:E, (job_command (fw_job f)); try done.
    by destruct (dispatch_and_sync _ _ _ _ _ _).
  - unfold handle_button_events. by destruct (button_mode_of_byte _), (decide (front = Ev_Click)).
Qed.

Lemma step_assembler ev f :
  fw_assembler (step ev f) =
    match ev with Fw_Byte b => (feed MAX_LINE_LEN (fw_assembler f) b).2 | _ => fw_assembler f end.
Proof.
  destruct ev as [b|cmd| |cmd| |front side]; simpl; try done.
  - unfold console_byte. destruct (feed _ _ b) as [[[text|]|] a]; simpl; try done.
    unfold console_line. destruct (parse_pre_dispatch_command text) as [[]|]; try done.
    by destruct (handle_line _ _ _ _ _ _ _ _ _ _) as [[r m] d].
  - by destruct (poll_card _ _ _ _) as [[o a] s].
  - unfold process_rest_job. destruct (job_status (fw_job f)), (job_command (fw_job f)); try done.
    by destruct (dispatch_and_sync _ _ _ _ _ _).
  - unfold handle_button_events. by destruct (button_mode_of_byte _), (decide (front = Ev_Click)).
Qed.

Lemma step_keeps ev f :
  no_write_request ev → job_status (fw_job f) ≠ Job_Pending →
  (∀ b text, ev = Fw_Byte b → (feed MAX_LINE_LEN (fw_assembler f) b).1 = Some (Line text) →
     harmless_line text) →
  fw_card (step ev f) = fw_card f ∧ job_status (fw_job (step ev f)) ≠ Job_Pending ∧
  fw_assembler (step ev f) =
    match ev with Fw_Byte b => (feed MAX_LINE_LEN (fw_assembler f) b).2 | _ => fw_assembler f end.
Proof.
  intros Hev Hj Hline. split; [|split; [|apply step_assembler]].
  - apply step_card. destruct ev as [b|cmd| | | |front side]; cbn [fw_cause completed_line];
      [|by intros (? & ? & _)..|done|by intros [?|?]; destruct Hev].
    intros (text & Ht & Hd). specialize (Hline b text eq_refl).
    destruct (feed _ _ b) as [[[text'|]|] a]; simplify_eq/=. destruct (Hline eq_refl). tauto.
  - intros Hp. apply Hj. rewrite <- (step_job ev f); [done| |done]. by intros cmd ->.
Qed.

(** Nothing but an explicit request writes to the card. Run the main loop
    over any interleaving of console bytes, BLE commands, poll ticks, job-runner
    ticks and button samples: if no line the console assembled is a burn or wipe
    command, no job was submitted or pending, and no button was clicked, then
    everything stored on the card is as it was. In particular polling, BLE,
    inspection, diagnosis, overlong lines and malformed commands never write. *)
Theorem firmware_card_guard (evs : list FwEvent) (f : Firmware T) :
  Forall no_write_request evs → job_status (fw_job f) ≠ Job_Pending →
  (∀ text, In (Line text) (feed_all MAX_LINE_LEN (fw_assembler f) (console_bytes evs)) →
     harmless_line text) →
  fw_card (run evs f) = fw_card f.
Proof.
  revert f. induction evs as [|ev evs IH]; intros f Hev Hj Hl; [done|].
  apply Forall_cons in Hev as [Hev Hevs]. simpl.
  destruct (step_keeps ev f Hev Hj) as (Hc & Hj' & Ha).
  { intros b text -> Hf. apply Hl. simpl. destruct (feed _ _ b) as [o a]. simpl in Hf. subst o. by left. }
  rewrite IH; [done..|]. intros text Hin. rewrite Ha in Hin. apply Hl.
  destruct ev; simpl; try done.
  destruct (feed _ _ b) as [[e|] a]; simpl in *; [by right|done].
Qed.

End firmware.

(** ** Two observations on the code

    The force lever writes the shared configuration only; the copy that [wipe]
    reads is refreshed after the next dispatched command, so the first wipe after
    [force off] still runs unguarded. And the BLE arm sends [picc] and
    [diagnose] to the dispatcher, which answers success without a card. *)

Section observations.
  Context {T TE : Type} {D : NtagDevice T TE} {R : CardReader T} `{C : AesCrypto}.
  Context (sdm_url_config : list Z → CryptoMode → SdmUrlOptions → result SdmUrlConfig SdmUrlError).
  Context {V : Type} (verify_sdm : Sdm → list Z → AesKey → AesKey → option V).
  Context (rng : nat → list Z) (debug_error : Error TE → list Z).

Lemma force_lever_lags tap rem (f : Firmware T) :
  let f' := handle_pre_dispatch verify_sdm debug_error tap rem Pre_ForceOff f in
  force_unsafe (dv_config (fw_dev f')) = false ∧
  force_unsafe (es_config (dv_service (fw_dev f'))) = force_unsafe (es_config (dv_service (fw_dev f))).
Proof. done. Qed.

Lemma ble_picc_silent cmd (d : Device (Esp32 T)) :
  parse_command cmd = Ok Cmd_Picc ∨ parse_command cmd = Ok Cmd_Diagnose →
  process_ble_command sdm_url_config verify_sdm rng debug_error cmd d = (Some WR_Success, d).
Proof. unfold process_ble_command. destruct d. by intros [-> | ->]. Qed.
End observations.

(** ** Instances on the simulated card *)

#[export] Instance sim_reader : CardReader Sim :=
  λ w, (Some (uid_to_fixed (c_uid (sim_card w))), w).

#[export] Instance sim_reader_laws : ReaderLaws sim_laws sim_reader.
Proof. split; [done|]. by intros t uid [= <-] _. Qed.

(** Keys are staged, so that no derivation is needed. *)
Definition staged_config : BoltyConfig :=
  mkBoltyConfig (Some (lit "card.example/?p={picc:uid+ctr}&c={mac}")) None (Some sample_keys) None
    None None false.

Definition toy_aes : AesCrypto := Build_AesCrypto (λ _ m, m) (λ _ b, b) (λ _ b, b).

Definition sample_rng (n : nat) : list Z := replicate 16 (Z.of_nat n).
Definition no_verify (_ : Sdm) (_ : list Z) (_ _ : AesKey) : option (list Z) := None.
Definition no_debug (_ : Error SimError) : list Z := [].

Definition device_of (w : Sim) : Device (Esp32 Sim) :=
  mkDevice (Esp32_new (Some w) staged_config None) staged_config ValidityGate_new.

#[local] Instance sim_service : BoltyService (Esp32 Sim) :=
  esp32_service (C := toy_aes) sample_planner no_verify sample_rng no_debug.

Definition burned_device : Device (Esp32 Sim) := (dispatch_command Cmd_Burn (device_of sim_factory)).2.
Definition wiped_device : Device (Esp32 Sim) := (dispatch_command Cmd_Wipe burned_device).2.

Lemma dispatch_burn_outcome_witness :
  (dispatch_command Cmd_Burn (device_of sim_factory)).1 = WR_Success ∧
  ∃ c', dev_card burned_device = Some c' ∧
    ∃ url ck, burn_allowed staged_config url ∧
      burned_as (C := toy_aes) sample_planner staged_config url (card sim_factory) c' ck ∧
      es_keys (dv_service burned_device) = Some ck.
Proof.
  assert (dispatch_command Cmd_Burn (device_of sim_factory) = (WR_Success, burned_device)) as H
    by (vm_compute; reflexivity).
  destruct (dispatch_burn_outcome (C := toy_aes) sample_planner no_verify sample_rng no_debug
    (device_of sim_factory) burned_device sim_factory WR_Success eq_refl H) as (c' & Hc & _ & Hs).
  split; [by rewrite H|]. exists c'. split; [exact Hc|]. exact (Hs eq_refl).
Defined.

Lemma dispatch_wipe_outcome_witness :
  (dispatch_command Cmd_Wipe burned_device).1 = WR_Success ∧
  ∃ t c', es_transceiver (dv_service burned_device) = Some t ∧
    dev_card wiped_device = Some c' ∧ factory_reset (card t) c'.
Proof.
  assert (dispatch_command Cmd_Wipe burned_device = (WR_Success, wiped_device)) as H
    by (vm_compute; reflexivity).
  destruct (es_transceiver (dv_service burned_device)) as [t|] eqn:Ht; [|vm_compute in Ht; discriminate].
  destruct (dispatch_wipe_outcome (C := toy_aes) sample_planner no_verify sample_rng no_debug
    burned_device wiped_device t WR_Success Ht H) as (c' & Hc & _ & Hs).
  split; [by rewrite H|]. exists t, c'. split; [done|]. split; [exact Hc|]. exact (proj1 (Hs eq_refl)).
Defined.

Lemma check_blank_truthful_witness :
  (dispatch_command Cmd_Check (device_of sim_factory)).1 = WR_Success ∧
  Forall (λ v, v = KEY_VERSION_BLANK) (card_versions (card sim_factory)).
Proof.
  destruct (dispatch_command Cmd_Check (device_of sim_factory)) as [r d'] eqn:H.
  assert (r = WR_Success) as -> by (vm_compute in H; injection H as <- _; reflexivity).
  split; [reflexivity|].
  exact (proj1 (proj2 (check_blank_truthful (C := toy_aes) sample_planner no_verify sample_rng no_debug
    (device_of sim_factory) d' sim_factory WR_Success eq_refl H) eq_refl)).
Defined.

Definition boot_firmware (w : Sim) : Firmware Sim :=
  mkFirmware (device_of w) LineAssembler_new false false 0 Op_Idle JobSlot_new.

(** A session that polls, inspects over the console and BLE, and mistypes. *)
Definition idle_session : list FwEvent :=
  [Fw_Poll] ++ (Fw_Byte <$> lit "inspect" ++ [10]) ++ [Fw_Ble (lit "check"); Fw_RunJob] ++
  (Fw_Byte <$> lit "wipe now" ++ [13; 10]) ++ [Fw_Buttons Ev_LongPress Ev_None; Fw_Poll].

Lemma firmware_card_guard_witness :
  fw_card (fw_run (C := toy_aes) sample_planner no_verify Some sample_rng no_debug (λ _, WR_Success)
    3 3 true idle_session (boot_firmware sim_factory)) = Some (card sim_factory).
Proof.
  apply (firmware_card_guard (C := toy_aes) sample_planner no_verify sample_rng no_debug Some
    (λ _, WR_Success) 3 3 true idle_session (boot_firmware sim_factory)).
  - repeat constructor; discriminate.
  - discriminate.
  - intros text Hin.
    assert (∃ e, parse_command text = Ok Cmd_Inspect ∨ parse_command text = Err e) as [e He].
    { vm_compute in Hin. destruct Hin as [[= <-]|[[= <-]|[]]]; eexists;
        [left; vm_compute; reflexivity | right; vm_compute; reflexivity]. }
    split; intros Hd; apply parse_of_denotes in Hd; destruct He as [He|He]; congruence.
Unshelve. exact UnknownCommand.
Defined.
