(* ===== verification/Rest.v ===== *)
(** * The HTTP interface of the firmware

    [apps/bolty-esp32/src/rest.rs]: bearer-token authorisation, the write rate
    limiter, request bodies, the small JSON reader and writer, and the thirteen
    handlers.  The HTTP server of ESP-IDF is the interface [HttpConn]; the
    microsecond timer is an argument read once per call.  The job slot itself is
    in [Firmware], whose main loop runs the submitted job. *)

From Equations Require Import Equations.
From S2P Require Import Prelude Str Hex Derivation Assessment Commands Workflow Firmware.

(** A JSON literal, with apostrophes for the double quotes. *)
Definition jlit (s : string) : list Z := (λ c, if decide (c = 39) then 34 else c) <$> lit s.

(** ** Rate limiter *)

Definition WRITE_COOLDOWN_US : Z := 5000000.

Record RateLimiter : Type := mkRateLimiter { last_write_us : Z }.
Definition RateLimiter_new : RateLimiter := mkRateLimiter 0.

(** [check_write] at timer value [now]: the error is the number of seconds to wait. *)
Definition check_write (now : Z) (rl : RateLimiter) : result () Z :=
  let elapsed := now - last_write_us rl in
  if decide (elapsed < WRITE_COOLDOWN_US) then
    let remaining_us := WRITE_COOLDOWN_US - elapsed in
    Err (Z.quot remaining_us 1000000 + 1)
  else Ok ().

Definition record_write (now : Z) (rl : RateLimiter) : RateLimiter := mkRateLimiter now.

Definition JobCommand_as_str (c : JobCommand) : list Z :=
  match c with Job_Burn => lit "burn" | Job_Wipe => lit "wipe" end.

(** ** JSON output *)

Definition escape_char (ch : list Z) : list Z :=
  if decide (ch = [92]) then [92; 92]
  else if decide (ch = [34]) then [92; 34]
  else if decide (ch = [10]) then [92; 110]
  else if decide (ch = [13]) then [92; 114]
  else if decide (ch = [9]) then [92; 116]
  else ch.

Fixpoint push_escaped_chars (cap : nat) (cs : list (list Z)) : M (list Z) () () :=
  match cs with
  | [] => mret ()
  | ch :: cs => push cap (escape_char ch) ;; push_escaped_chars cap cs
  end.

(** The [for ch in value.chars()] loop, which stops at the first character that
    does not fit. *)
Definition push_escaped_json (cap : nat) (value : list Z) : M (list Z) () () :=
  push_escaped_chars cap (chars value).

Definition push_json_key (cap : nat) (key : list Z) : M (list Z) () () :=
  push cap [34] ;; push_escaped_json cap key ;; push cap (jlit "':").

Definition push_json_string (cap : nat) (value : list Z) : M (list Z) () () :=
  push cap [34] ;; push_escaped_json cap value ;; push cap [34].

(** [write!(out, "{byte:02X}")] pads with one write and prints with another. *)
Definition write_02X (cap : nat) (b : Z) : M (list Z) () () :=
  if decide (b < 16) then push cap [48] ;; push cap [hex_upper b]
  else push cap [hex_upper (Z.shiftr b 4); hex_upper (Z.land b 0xf)].

Fixpoint push_uid_hex (cap : nat) (uid : list Z) : M (list Z) () () :=
  match uid with
  | [] => mret ()
  | byte :: uid => write_02X cap byte ;; push_uid_hex cap uid
  end.

(** [let _ = f(&mut out)]. *)
Definition ignoring (f : M (list Z) () ()) (out : list Z) : list Z := (f out).2.

Definition uid_hex_string (status : ServiceStatus) : list Z :=
  match ss_last_uid status with
  | Some uid => ignoring (push_uid_hex 32 uid) []
  | None => []
  end.

Definition json_ok (extra : list Z) : list Z :=
  let out := put 512 [] (jlit "{'ok':true") in
  let out := match extra with [] => out | _ => put 512 (put 512 out (lit ",")) extra end in
  put 512 out (lit "}").

Definition json_err (msg : list Z) : list Z :=
  let out := put 256 [] (jlit "{'ok':false,'error':'") in
  let out := ignoring (push_escaped_json 256 msg) out in
  put 256 out (jlit "'}").

Definition json_err_hint (msg hint : list Z) : list Z :=
  let out := put 256 [] (jlit "{'ok':false,'error':'") in
  let out := ignoring (push_escaped_json 256 msg) out in
  let out := put 256 out (jlit "','hint':'") in
  let out := ignoring (push_escaped_json 256 hint) out in
  put 256 out (jlit "'}").

(** [{}] of a [bool]. *)
Definition show_bool (b : bool) : list Z := if b then lit "true" else lit "false".

Definition json_status (status : ServiceStatus) : list Z :=
  let uid := uid_hex_string status in
  let extra := ignoring (push_json_key 480 (lit "nfc_ready")) [] in
  let extra := ignoring (push 480 (show_bool (ss_nfc_ready status))) extra in
  let extra := put 480 extra (lit ",") in
  let extra := ignoring (push_json_key 480 (lit "uid")) extra in
  let extra := ignoring (push_json_string 480 (match uid with [] => lit "none" | _ => uid end)) extra in
  let extra := put 480 extra (lit ",") in
  let extra := ignoring (push_json_key 480 (lit "lnurl")) extra in
  let extra := ignoring (push_json_string 480 (default (lit "none") (ss_lnurl status))) extra in
  json_ok extra.

Definition workflow_result_json (r : WorkflowResult) : list Z :=
  match r with
  | WR_Success => put 128 [] (jlit "'success'")
  | WR_CardNotPresent => put 128 [] (jlit "'card_not_present'")
  | WR_AuthFailed => put 128 [] (jlit "'auth_failed'")
  | WR_AuthDelay => put 128 [] (jlit "'auth_delay'")
  | WR_WipeRefused => put 128 [] (jlit "'wipe_refused'")
  | WR_Error msg =>
      let prefix := put 128 [] (jlit "'error: ") in
      let prefix := ignoring (push_escaped_json 128 msg) prefix in
      put 128 prefix [34]
  end.

Definition status_message (status : Z) : list Z :=
  if decide (status = 200) then lit "OK"
  else if decide (status = 400) then lit "Bad Request"
  else if decide (status = 401) then lit "Unauthorized"
  else if decide (status = 404) then lit "Not Found"
  else if decide (status = 413) then lit "Payload Too Large"
  else if decide (status = 429) then lit "Too Many Requests"
  else lit "Internal Server Error".

Definition workflow_error_message (r : WorkflowResult) : list Z :=
  match r with
  | WR_Success => lit "success"
  | WR_CardNotPresent => lit "card not present — place an NTAG424 card on the reader"
  | WR_AuthFailed => lit "authentication failed — wrong issuer key or card already blank"
  | WR_AuthDelay =>
      lit "authentication delay — send AuthFirst repeatedly in the same connection to clear"
  | WR_WipeRefused => lit "wipe refused — card may already be blank or in inconsistent state"
  | WR_Error _ => lit "operation failed — check card state with diagnose"
  end.

(** ** JSON input *)

(** The scan of [extract_json_string] for the closing quote: the bytes before it. *)
Fixpoint scan_string (escaped : bool) (content : list Z) : option (list Z) :=
  match content with
  | [] => None
  | byte :: rest =>
      if bool_decide (byte = 92) && negb escaped then cons byte <$> scan_string true rest
      else if bool_decide (byte = 34) && negb escaped then Some []
      else cons byte <$> scan_string false rest
  end.

Definition extract_json_string (body key : list Z) : option (list Z) :=
  pattern ← push_str 32 [] ([34] ++ key ++ [34]);
  key_start ← find pattern body;
  let after_key := drop (key_start + length pattern) body in
  colon ← find (lit ":") after_key;
  let after_colon := trim_start (drop (colon + 1) after_key) in
  if negb (starts_with [34] after_colon) then None
  else scan_string false (drop 1 after_colon).

Definition parse_key_field (body key : list Z) : result AesKey (list Z) :=
  value ←? ok_or (extract_json_string body key)
    (if decide (key = lit "k0") then lit "missing k0"
     else if decide (key = lit "k1") then lit "missing k1"
     else if decide (key = lit "k2") then lit "missing k2"
     else if decide (key = lit "k3") then lit "missing k3"
     else if decide (key = lit "k4") then lit "missing k4"
     else lit "missing key field");
  map_err (λ _, lit "invalid hex key") (AesKey_from_hex value).

Definition parse_card_keys (body : list Z) : result CardKeys (list Z) :=
  a ←? parse_key_field body (lit "k0");
  b ←? parse_key_field body (lit "k1");
  c ←? parse_key_field body (lit "k2");
  d ←? parse_key_field body (lit "k3");
  e ←? parse_key_field body (lit "k4");
  Ok (mkCardKeys a b c d e).

(** ** Tokens *)

Inductive TokenScope : Type := Scope_Read | Scope_Write.
#[export] Instance TokenScope_eq_dec : EqDecision TokenScope.
Proof. solve_decision. Defined.

(** Byte-wise comparison without early exit, over the longer of the two. *)
Definition rest_constant_time_eq (expected provided : list Z) : bool :=
  let diff := Z.lxor (Z.of_nat (length expected)) (Z.of_nat (length provided)) in
  let max_len := (length expected `max` length provided)%nat in
  let diff := fold_left
    (λ diff index, Z.lor diff (Z.lxor (nth index expected 0) (nth index provided 0)))
    (seq 0 max_len) diff in
  bool_decide (diff = 0).

Definition scope_token (scope : TokenScope) (c : BoltyConfig) : option (list Z) :=
  match scope with
  | Scope_Read => rest_read_token c
  | Scope_Write => rest_write_token c
  end.

(** ** The HTTP server *)

Definition EspIOError : Type := Z.

(** What ends a handler early: an I/O error, or a Rust panic. *)
Inductive HandlerError : Type := Esp_Io (e : EspIOError) | Panicked.

#[export] Instance HandlerError_eq_dec : EqDecision HandlerError.
Proof. solve_decision. Defined.

Inductive ReadBodyError : Type := RB_Io (e : EspIOError) | RB_TooLarge | RB_InvalidUtf8.

(** A connection of type [K] with one pending request. *)
Class HttpConn (K : Type) : Type := {
  req_header : list Z → K → option (list Z);
  req_content_len : K → option Z;
  req_read : nat → M K EspIOError (list Z);
  req_into_response : Z → list Z → list (list Z * list Z) → M K EspIOError ();
  resp_write_all : list Z → M K EspIOError () }.

(** [Read::read] fills at most the buffer it is given. *)
Class HttpLaws {K} (H : HttpConn K) : Prop := {
  law_read n k bs k' : req_read n k = (Ok bs, k') → (length bs ≤ n)%nat }.

Definition MAX_BODY_LEN : nat := 512.
Definition JSON_CONTENT_TYPE : list Z * list Z := (lit "Content-Type", lit "application/json").

Section body.
  Context {K : Type} {H : HttpConn K}.

(** The [while read < length] loop; [got] is [bytes[..read]].  The room left in
    the buffer shrinks at every turn. *)
Equations read_loop (len : nat) (got : list Z) (k : K) : result (list Z) EspIOError * K
  by wf (len - length got)%nat lt :=
read_loop len got k with decide (length got < len)%nat => {
  | right _ => (Ok got, k);
  | left Hlt with req_read (len - length got) k => {
      | (Err e, k') => (Err e, k');
      | (Ok [], k') => (Ok got, k');
      | (Ok (b :: bs), k') => read_loop len (got ++ b :: bs) k' } }.
Next Obligation. intros. rewrite length_app. simpl. lia. Qed.

(** [length as usize] keeps 32 bits on the target. *)
Definition read_body (k : K) : result (list Z) ReadBodyError * K :=
  match req_content_len k with
  | None => (Ok [], k)
  | Some len =>
      let len := Z.to_nat (u32 len) in
      if decide (MAX_BODY_LEN < len)%nat then (Err RB_TooLarge, k)
      else
        match read_loop len [] k with
        | (Err e, k) => (Err (RB_Io e), k)
        | (Ok bytes, k) =>
            match from_utf8 bytes with
            | None => (Err RB_InvalidUtf8, k)
            | Some body =>
                match push_str MAX_BODY_LEN [] body with
                | None => (Err RB_TooLarge, k)
                | Some out => (Ok out, k)
                end
            end
        end
  end.

Definition bearer_token (k : K) : result (option (list Z)) HandlerError :=
  match req_header (lit "Authorization") k with
  | None => Ok None
  | Some header =>
      if decide (length header < 7)%nat then Ok None
      else if negb (is_char_boundary header 7) then Err Panicked
      else if negb (eq_ignore_ascii_case (take 7 header) (lit "Bearer ")) then Ok None
      else Ok (Some (drop 7 header))
  end.
End body.

(** ** Server state

    The mutexes of the source guard the four shared objects; a poisoned one makes
    [lock] fail for good. *)

Inductive Mutex : Type := Mx_Config | Mx_Service | Mx_Limiter | Mx_Job.

(** [RestBoltyService]: a service that takes over the shared configuration. *)
Class RestBoltyService (S : Type) : Type := rest_sync_from : BoltyConfig → S → S.

Record Rest (S K : Type) : Type := mkRest {
  rs_dev : Device S;
  rs_limiter : RateLimiter;
  rs_job : JobSlot;
  rs_ticks : nat;
  rs_conn : K }.
Arguments mkRest {S K} _ _ _ _ _.
Arguments rs_dev {S K} _.
Arguments rs_limiter {S K} _.
Arguments rs_job {S K} _.
Arguments rs_ticks {S K} _.
Arguments rs_conn {S K} _.

Inductive Method : Type := Get | Post.

Inductive Endpoint : Type :=
| Ep_Status | Ep_Uid | Ep_Check | Ep_Keys | Ep_Url | Ep_Burn | Ep_Wipe | Ep_KeyVer | Ep_Ndef
| Ep_Diagnose | Ep_Inspect | Ep_JobSubmit | Ep_JobStatus.

#[export] Instance Method_eq_dec : EqDecision Method.
Proof. solve_decision. Defined.
#[export] Instance Endpoint_eq_dec : EqDecision Endpoint.
Proof. solve_decision. Defined.

(** The handlers registered by [RestServer::start]. *)
Definition routes : list (list Z * Method * Endpoint) :=
  [ (lit "/api/status", Get, Ep_Status); (lit "/api/uid", Get, Ep_Uid);
    (lit "/api/check", Get, Ep_Check); (lit "/api/keys", Post, Ep_Keys);
    (lit "/api/url", Post, Ep_Url); (lit "/api/burn", Post, Ep_Burn);
    (lit "/api/wipe", Post, Ep_Wipe); (lit "/api/keyver", Get, Ep_KeyVer);
    (lit "/api/ndef", Get, Ep_Ndef); (lit "/api/diagnose", Get, Ep_Diagnose);
    (lit "/api/inspect", Get, Ep_Inspect); (lit "/api/job", Post, Ep_JobSubmit);
    (lit "/api/job", Get, Ep_JobStatus) ].

Section rest.
  Context {S K : Type} {B : BoltyService S} {RB : RestBoltyService S} {H : HttpConn K}.
  (** The timer at its [n]-th reading, and which mutexes can be locked. *)
  Context (esp_timer_get_time : nat → Z) (lock : Mutex → bool).

  Local Notation St := (Rest S K).
  Local Notation Handler := (M St HandlerError ()).

Definition conn {A} (m : M K EspIOError A) : M St HandlerError A := λ s,
  let '(r, k) := m (rs_conn s) in
  (map_err Esp_Io r, mkRest (rs_dev s) (rs_limiter s) (rs_job s) (rs_ticks s) k).

Definition peek {A} (f : St → A) : M St HandlerError A := λ s, (Ok (f s), s).
Definition update (f : St → St) : Handler := λ s, (Ok (), f s).

Definition set_dev (d : Device S) (s : St) : St :=
  mkRest d (rs_limiter s) (rs_job s) (rs_ticks s) (rs_conn s).

Definition timer : M St HandlerError Z := λ s,
  (Ok (esp_timer_get_time (rs_ticks s)),
   mkRest (rs_dev s) (rs_limiter s) (rs_job s) (1 + rs_ticks s) (rs_conn s)).

(** ** Responses *)

(** A complete 2xx response is evidence for the rollback gate. *)
Definition note_evidence : Handler := update (λ s,
  let d := rs_dev s in
  set_dev (mkDevice (dv_service d) (dv_config d) (note_serve_evidence (dv_gate d)).2) s).

Definition respond_json (status : Z) (body : list Z) : Handler :=
  conn (req_into_response status (status_message status) [JSON_CONTENT_TYPE]) ;;
  sent ← attempt (conn (resp_write_all body));
  (if is_ok sent && bool_decide (200 ≤ status < 300) then note_evidence else mret ()) ;;
  match sent with Ok _ => mret () | Err e => fail e end.

Definition respond_rate_limited (retry_secs : Z) : Handler :=
  let body := json_err_hint (lit "rate limited") (lit "wait before sending another write request") in
  let retry_header := ignoring (push 32 (show_uint retry_secs)) [] in
  conn (req_into_response 429 (status_message 429)
          [JSON_CONTENT_TYPE; (lit "Retry-After", retry_header)]) ;;
  conn (resp_write_all body).

(** ** Guards *)

Definition is_authorized (scope : TokenScope) : M St HandlerError bool := λ s,
  if negb (lock Mx_Config) then (Ok false, s)
  else
    match scope_token scope (dv_config (rs_dev s)) with
    | None => (Ok true, s)
    | Some expected =>
        match bearer_token (rs_conn s) with
        | Err e => (Err e, s)
        | Ok None => (Ok false, s)
        | Ok (Some provided) => (Ok (rest_constant_time_eq expected provided), s)
        end
    end.

Definition check_rate_limit : M St HandlerError (result () Z) :=
  if lock Mx_Limiter then
    now ← timer; peek (λ s, check_write now (rs_limiter s))
  else mret (Ok ()).

Definition record_rate_limit : Handler :=
  if lock Mx_Limiter then
    now ← timer;
    update (λ s, mkRest (rs_dev s) (record_write now (rs_limiter s)) (rs_job s) (rs_ticks s) (rs_conn s))
  else mret ().

(** The opening of every handler: [401] unless the token of the scope matches. *)
Definition authorized (scope : TokenScope) (k : Handler) : Handler :=
  allowed ← is_authorized scope;
  if negb allowed then
    respond_json 401 (json_err_hint (lit "unauthorized") (lit "set a token via serial: token <value>"))
  else k.

(** ... followed, in the writing handlers, by the rate limiter. *)
Definition rate_limited (k : Handler) : Handler :=
  r ← check_rate_limit;
  match r with Err retry_secs => respond_rate_limited retry_secs | Ok _ => k end.

(** The [match read_body(..)] of the handlers that take a body. *)
Definition with_body (k : list Z → Handler) : Handler := λ s,
  let '(r, c) := read_body (rs_conn s) in
  let s := mkRest (rs_dev s) (rs_limiter s) (rs_job s) (rs_ticks s) c in
  match r with
  | Ok body => k body s
  | Err RB_TooLarge =>
      respond_json 413 (json_err_hint (lit "request too large") (lit "max 512 bytes")) s
  | Err RB_InvalidUtf8 =>
      respond_json 400 (json_err_hint (lit "invalid utf-8 body")
        (lit "ensure Content-Type is application/json")) s
  | Err (RB_Io error) => fail (Esp_Io error) s
  end.

Definition with_state {A} (f : Device S → A * Device S) : M St HandlerError (result A (list Z)) := λ s,
  if negb (lock Mx_Config) then (Ok (Err (lit "config unavailable")), s)
  else if negb (lock Mx_Service) then (Ok (Err (lit "service unavailable")), s)
  else let '(a, d) := f (rs_dev s) in (Ok (Ok a), set_dev d s).

(** The closure every handler gives to [with_state]. *)
Definition dispatch_sync (cmd : Command) (d : Device S) : WorkflowResult * Device S :=
  let '(result, d) := dispatch_command cmd d in
  (result, mkDevice (rest_sync_from (dv_config d) (dv_service d)) (dv_config d) (dv_gate d)).

(** [service.lock().map(|s| s.get_status()).unwrap_or_default()]. *)
Definition status_or_default : M St HandlerError ServiceStatus := peek (λ s,
  if lock Mx_Service then svc_get_status (dv_service (rs_dev s)) else ServiceStatus_default).

(** [match service.lock() { Ok(service) => service.get_status(), Err(_) => return 500 }]. *)
Definition with_status (k : ServiceStatus → Handler) : Handler := λ s,
  if lock Mx_Service then k (svc_get_status (dv_service (rs_dev s))) s
  else respond_json 500 (json_err_hint (lit "service unavailable")
         (lit "NFC reader may not be initialized")) s.

(** The last two arms of the handlers' final [match result]. *)
Definition respond_other (r : result WorkflowResult (list Z)) : Handler :=
  match r with
  | Ok other => respond_json 200 (json_err (workflow_error_message other))
  | Err message => respond_json 500 (json_err message)
  end.

(** ** Handlers *)

Definition handle_status : Handler :=
  authorized Scope_Read (with_status (λ status, respond_json 200 (json_status status))).

Definition handle_uid : Handler :=
  authorized Scope_Read (with_status (λ status,
    match ss_last_uid status with
    | None => respond_json 200 (json_err_hint (lit "no uid") (lit "place a card on the reader"))
    | Some uid =>
        let uid_hex := ignoring (push_uid_hex 32 uid) [] in
        let extra := ignoring (push_json_key 64 (lit "uid")) [] in
        let extra := ignoring (push_json_string 64 uid_hex) extra in
        respond_json 200 (json_ok extra)
    end)).

Definition handle_check : Handler :=
  authorized Scope_Read (
    result ← with_state (dispatch_sync Cmd_Check);
    match result with
    | Ok WR_Success => respond_json 200 (json_ok (jlit "'blank':true"))
    | Ok (WR_Error message) =>
        if decide (message = lit "card not blank")
        then respond_json 200 (json_ok (jlit "'blank':false"))
        else respond_other result
    | _ => respond_other result
    end).

Definition handle_keys : Handler :=
  authorized Scope_Write (rate_limited (with_body (λ body,
    match parse_card_keys body with
    | Err message => respond_json 400 (json_err message)
    | Ok keys =>
        result ← with_state (dispatch_sync (Cmd_SetKeys keys));
        match result with
        | Ok WR_Success => record_rate_limit ;; respond_json 200 (json_ok [])
        | _ => respond_other result
        end
    end))).

Definition handle_url : Handler :=
  authorized Scope_Write (rate_limited (with_body (λ body,
    match extract_json_string body (lit "url") with
    | None => respond_json 400 (json_err_hint (lit "missing url") (jlit "send JSON: {'url':'https://...'}"))
    | Some url =>
        match push_str LNURL_CAP [] url with
        | None => respond_json 400 (json_err_hint (lit "url too long") (lit "max 256 characters"))
        | Some url =>
            result ← with_state (dispatch_sync (Cmd_SetUrl url));
            match result with
            | Ok WR_Success => record_rate_limit ;; respond_json 200 (json_ok [])
            | _ => respond_other result
            end
        end
    end))).

Definition handle_action (command : Command) : Handler :=
  authorized Scope_Write (rate_limited (
    result ← with_state (dispatch_sync command);
    match result with
    | Ok WR_Success => record_rate_limit ;; respond_json 200 (json_ok (jlit "'status':'done'"))
    | Ok _ => respond_json 200 (jlit "{'ok':false,'status':'error'}")
    | Err _ => respond_json 500 (jlit "{'ok':false,'status':'error'}")
    end)).

(** [(slot.id + 1, slot.submit(cmd))]: the reported id is computed before the
    submission. *)
Definition submit_job (cmd : JobCommand) : M St HandlerError (option (Z * bool)) := λ s,
  if lock Mx_Job then
    let id := u32 (job_id (rs_job s) + 1) in
    let '(accepted, slot) := submit cmd (rs_job s) in
    (Ok (Some (id, accepted)), mkRest (rs_dev s) (rs_limiter s) slot (rs_ticks s) (rs_conn s))
  else (Ok None, s).

Definition handle_job_submit : Handler :=
  authorized Scope_Write (rate_limited (with_body (λ body,
    match extract_json_string body (lit "command") with
    | None =>
        respond_json 400 (json_err_hint (lit "missing command") (jlit "send JSON: {'command':'burn'}"))
    | Some cmd_str =>
        match JobCommand_from_str cmd_str with
        | None =>
            respond_json 400 (json_err_hint (lit "invalid command") (jlit "must be 'burn' or 'wipe'"))
        | Some cmd =>
            r ← submit_job cmd;
            match r with
            | None => respond_json 500 (json_err (lit "job slot unavailable"))
            | Some (id, accepted) =>
                if negb accepted then
                  respond_json 409 (json_err_hint (lit "job in progress")
                    (lit "poll GET /api/job for completion"))
                else
                  record_rate_limit ;;
                  respond_json 201
                    (jlit "{'ok':true,'job_id':" ++ show_uint id ++
                     jlit ",'status':'pending','command':'" ++ JobCommand_as_str cmd ++ jlit "'}")
            end
        end
    end))).

Definition job_status_str (s : JobStatus) : list Z :=
  match s with
  | Job_Idle => lit "idle" | Job_Pending => lit "pending"
  | Job_Running => lit "running" | Job_Completed => lit "completed"
  end.

Definition job_status_body (slot : JobSlot) : list Z :=
  let cmd_str := default (lit "none") (JobCommand_as_str <$> job_command slot) in
  let result_str :=
    match job_result slot with
    | Some r => workflow_result_json r
    | None => put 128 [] (lit "null")
    end in
  jlit "{'ok':true,'job_id':" ++ show_uint (job_id slot) ++ jlit ",'status':'" ++
  job_status_str (job_status slot) ++ jlit "','command':'" ++ cmd_str ++ jlit "','result':" ++
  result_str ++ lit "}".

Definition handle_job_status : Handler :=
  authorized Scope_Read (λ s,
    if lock Mx_Job then respond_json 200 (job_status_body (rs_job s)) s
    else respond_json 500 (json_err (lit "job slot unavailable")) s).

Definition handle_keyver : Handler :=
  authorized Scope_Read (
    result ← with_state (dispatch_sync Cmd_KeyVer);
    match result with
    | Ok WR_Success =>
        status ← status_or_default;
        respond_json 200
          (jlit "{'ok':true,'nfc_ready':" ++ show_bool (ss_nfc_ready status) ++ jlit ",'uid':'" ++
           uid_hex_string status ++ jlit "'}")
    | _ => respond_other result
    end).

Definition handle_ndef : Handler :=
  authorized Scope_Read (
    result ← with_state (dispatch_sync Cmd_Ndef);
    match result with
    | Ok WR_Success => respond_json 200 (json_ok (jlit "'ndef':'read'"))
    | _ => respond_other result
    end).

Definition handle_diagnose : Handler :=
  authorized Scope_Read (
    result ← with_state (dispatch_sync Cmd_Diagnose);
    match result with
    | Ok WR_Success => respond_json 200 (json_ok (jlit "'state':'ok'"))
    | _ => respond_other result
    end).

Definition inspect_body (status : ServiceStatus) : list Z :=
  let lnurl :=
    match ss_lnurl status with
    | Some configured => ignoring (push_escaped_json 128 configured) []
    | None => []
    end in
  jlit "{'ok':true,'nfc_ready':" ++ show_bool (ss_nfc_ready status) ++ jlit ",'uid':'" ++
  uid_hex_string status ++ jlit "','lnurl':'" ++ lnurl ++ jlit "'}".

Definition handle_inspect : Handler :=
  authorized Scope_Read (
    result ← with_state (dispatch_sync Cmd_Inspect);
    status ← status_or_default;
    match result with
    | Ok WR_Success => respond_json 200 (inspect_body status)
    | _ => respond_other result
    end).

Definition handle (ep : Endpoint) : Handler :=
  match ep with
  | Ep_Status => handle_status
  | Ep_Uid => handle_uid
  | Ep_Check => handle_check
  | Ep_Keys => handle_keys
  | Ep_Url => handle_url
  | Ep_Burn => handle_action Cmd_Burn
  | Ep_Wipe => handle_action Cmd_Wipe
  | Ep_KeyVer => handle_keyver
  | Ep_Ndef => handle_ndef
  | Ep_Diagnose => handle_diagnose
  | Ep_Inspect => handle_inspect
  | Ep_JobSubmit => handle_job_submit
  | Ep_JobStatus => handle_job_status
  end.
End rest.
