(* ===== verification/RestProofs.v ===== *)
(** * Correctness of the HTTP interface

    What a request can change and under which conditions, the spacing of writes,
    the token comparison, bounded request bodies, and the JSON reader and writer
    against each other; then the HTTP server next to the main loop. *)

From Equations Require Import Equations.
From Stdlib Require Import Sorted.
From S2P Require Import Prelude Str Hex Derivation Assessment Ndef NtagTypes Session Ntag NtagProofs Commands Console Workflow Esp32 Firmware FirmwareProofs Rest.

(** ** Tokens *)

Lemma fold_lor_zero (f : nat → Z) l d :
  fold_left (λ d i, Z.lor d (f i)) l d = 0 ↔ d = 0 ∧ Forall (λ i, f i = 0) l.
Proof.
  revert d. induction l as [|i l IH]; intros d; simpl; [by rewrite Forall_nil; naive_solver|].
  rewrite IH, lor_eq_0, Forall_cons. naive_solver.
Qed.

Lemma rest_constant_time_eq_spec a b : rest_constant_time_eq a b = true ↔ a = b.
Proof.
  unfold rest_constant_time_eq. rewrite bool_decide_eq_true, fold_lor_zero, lxor_eq_0.
  split; [|intros ->; split; [done|]; apply Forall_true; intros; apply Z.lxor_nilpotent].
  intros [Hl Hn]. apply Nat2Z.inj in Hl. apply (nth_ext _ _ 0 0); [done|].
  intros n Hlt. rewrite Forall_forall in Hn. apply lxor_eq_0, Hn, elem_of_seq. lia.
Qed.

(** The header that grants access: any casing of [Bearer ], then the token. *)
Definition grants (header : list Z) (token : list Z) : Prop :=
  ∃ p, header = p ++ token ∧ to_ascii_lowercase <$> p = lit "bearer ".

Lemma grants_spec header token :
  grants header token ↔
  (7 ≤ length header)%nat ∧ eq_ignore_ascii_case (take 7 header) (lit "Bearer ") = true ∧
  drop 7 header = token.
Proof.
  unfold grants, eq_ignore_ascii_case. rewrite bool_decide_eq_true. split.
  - intros (p & -> & Hp). assert (length p = 7%nat) as Hl by (apply (f_equal length) in Hp;
      by rewrite length_fmap in Hp).
    rewrite take_app_exact, drop_app_exact by done. rewrite length_app. split; [lia|]. done.
  - intros (Hl & Hp & <-). exists (take 7 header). by rewrite take_drop.
Qed.

(** ** Request bodies *)

Section body.
  Context {K : Type} {H : HttpConn K}.

(** The connection with the number of [read] calls beside it. *)
Definition counted : HttpConn (K * nat) := {|
  req_header name k := req_header name k.1;
  req_content_len k := req_content_len k.1;
  req_read n k := let '(r, k') := req_read n k.1 in (r, (k', S k.2));
  req_into_response st msg hs k := let '(r, k') := req_into_response st msg hs k.1 in (r, (k', k.2));
  resp_write_all b k := let '(r, k') := resp_write_all b k.1 in (r, (k', k.2)) |}.

End body.

Lemma read_loop_unfold {K} {H : HttpConn K} len got k :
  read_loop len got k =
    if decide (length got < len)%nat then
      match req_read (len - length got) k with
      | (Err e, k') => (Err e, k')
      | (Ok [], k') => (Ok got, k')
      | (Ok (b :: bs), k') => read_loop len (got ++ b :: bs) k'
      end
    else (Ok got, k).
Proof.
  rewrite read_loop_equation_1. case_decide; [|done].
  rewrite read_loop_clause_1_equation_1. by destruct (req_read _ k) as [[[|b bs]|e] k'].
Qed.

Section counted.
  Context {K : Type} {H : HttpConn K}.

(** Counting does not change what is read, and every turn uses up buffer space. *)
Lemma read_loop_counted len got k n :
  ∃ m, read_loop (H := counted) len got (k, n) = ((read_loop len got k).1, ((read_loop len got k).2, m)) ∧
    (m ≤ n + (len - length got))%nat.
Proof.
  revert n. funelim (read_loop len got k); intros n0; rewrite (@read_loop_unfold _ counted);
    cbn [req_read counted fst snd]; rewrite Heq; try rewrite Heq0; eauto with lia.
  destruct (H0 (S n0)) as (m & -> & Hm). exists m. split; [done|].
  rewrite length_app in Hm. simpl in *. lia.
Qed.

Lemma read_loop_length (HL : HttpLaws H) len got k r k' :
  (length got ≤ len)%nat → read_loop len got k = (Ok r, k') → (length r ≤ len)%nat.
Proof.
  funelim (read_loop len got k); intros Hg Hr; simplify_eq; auto.
  eapply H0; [done| |done]. apply law_read in Heq. rewrite length_app. simpl in *. lia.
Qed.

(** Reading a request body terminates whatever the client does: it issues at
    most one read per announced byte and never more than 512, even if the
    connection returns single bytes or promises more than it sends; a body it
    accepts is valid UTF-8 of at most 512 bytes and of at most the announced
    length (which the 32-bit target takes modulo 2^32), and a longer
    announcement is refused without reading. *)
Theorem read_body_terminates (HL : HttpLaws H) (k : K) (n : nat) :
  let '(r, (k', m)) := read_body (H := counted) (k, n) in
  (r, k') = read_body k ∧ (m ≤ n + MAX_BODY_LEN)%nat ∧
  match req_content_len k with
  | None => r = Ok [] ∧ m = n
  | Some len =>
      (m ≤ n + Z.to_nat (u32 len))%nat ∧
      (Z.of_nat MAX_BODY_LEN < u32 len → r = Err RB_TooLarge ∧ m = n) ∧
      (∀ body, r = Ok body → from_utf8 body = Some body ∧
         (length body ≤ MAX_BODY_LEN)%nat ∧ Z.of_nat (length body) ≤ u32 len)
  end.
Proof.
  unfold read_body. cbn [req_content_len counted fst]. destruct (req_content_len k) as [len|].
  2:{ split_and!; [done|lia|done|done]. }
  assert (0 ≤ u32 len) by (unfold u32; apply Z.mod_pos_bound; lia).
  case_decide; [split_and!; [done|lia|lia|done|done]|].
  destruct (read_loop_counted (Z.to_nat (u32 len)) [] k n) as (m & -> & Hm).
  pose proof (read_loop_length HL (Z.to_nat (u32 len)) [] k) as Hlen. simpl in Hm, Hlen.
  destruct (read_loop _ [] k) as [[bytes|e] k']; simpl; [|split_and!; [done|lia|lia|lia|done]].
  specialize (Hlen bytes k' ltac:(lia) eq_refl).
  destruct (from_utf8 bytes) as [body|] eqn:Hu; [|split_and!; [done|lia|lia|lia|done]].
  pose proof (from_utf8_id _ _ Hu) as ->. unfold push_str. simpl. rewrite decide_True by lia.
  split_and!; [done|lia|lia|lia|]. intros ? [= <-]. split_and!; [done|lia|lia].
Qed.
End counted.

(** ** What a request can change *)

Section effects.
  Context {S K : Type} {B : BoltyService S} {RB : RestBoltyService S} {H : HttpConn K}.
  Context (clock : nat → Z) (lock : Mutex → bool).

  Local Notation St := (Rest S K).

(** Every run of [m] relates its initial and final state by [R]. *)
Definition keeps (R : relation St) {A} (m : M St HandlerError A) : Prop := ∀ s, R s (m s).2.

(** The part [v] of the state is the same. *)
Definition same {X} (v : St → X) : relation St := λ s s', v s' = v s.

#[export] Instance same_preorder {X} (v : St → X) : PreOrder (same v).
Proof. split; [by intros s|]. unfold same. intros s1 s2 s3. congruence. Qed.

(** Relations that ignore the connection and the advance of the timer ... *)
Class Offline (R : relation St) : Prop :=
  offline s n c : (rs_ticks s ≤ n)%nat → R s (mkRest (rs_dev s) (rs_limiter s) (rs_job s) n c).
(** ... and the evidence a response leaves at the rollback gate. *)
Class Ungated (R : relation St) : Prop :=
  ungated s : R s (set_dev (mkDevice (dv_service (rs_dev s)) (dv_config (rs_dev s))
    (note_serve_evidence (dv_gate (rs_dev s))).2) s).

Section keeps.
  Context (R : relation St) {P : PreOrder R} {O : Offline R}.

Lemma keeps_ret {A} (a : A) : keeps R (mret a).
Proof. intros s. reflexivity. Qed.
Lemma keeps_fail {A} e : keeps R (fail e : M St HandlerError A).
Proof. intros s. reflexivity. Qed.
Lemma keeps_peek {A} (f : St → A) : keeps R (peek f).
Proof. intros s. reflexivity. Qed.

Lemma keeps_bind {A A'} (m : M St HandlerError A) (k : A → M St HandlerError A') :
  keeps R m → (∀ a, keeps R (k a)) → keeps R (m ≫= k).
Proof.
  intros Hm Hk s. specialize (Hm s). unfold mbind, M_bind.
  destruct (m s) as [[a|e] s']; simpl in *; [|done]. etransitivity; [done|]. apply Hk.
Qed.

Lemma keeps_attempt {A} (m : M St HandlerError A) :
  keeps R m → keeps R (attempt (F := HandlerError) m).
Proof. intros Hm s. specialize (Hm s). unfold attempt. by destruct (m s). Qed.

Lemma keeps_is_authorized scope : keeps R (is_authorized lock scope).
Proof. intros s. unfold is_authorized. repeat case_match; reflexivity. Qed.

Lemma keeps_conn {A} (m : M K EspIOError A) : keeps R (conn m).
Proof. intros s. unfold conn. destruct (m (rs_conn s)). by apply offline. Qed.

Lemma keeps_timer : keeps R (timer clock).
Proof. intros s. apply offline. simpl. lia. Qed.

Lemma keeps_respond_error status body : ¬ 200 ≤ status < 300 → keeps R (respond_json status body).
Proof.
  intros Hs. unfold respond_json. apply keeps_bind; [apply keeps_conn|]. intros _.
  apply keeps_bind; [apply keeps_attempt, keeps_conn|]. intros r.
  rewrite bool_decide_eq_false_2, andb_false_r by done. destruct r; [apply keeps_ret|apply keeps_fail].
Qed.

Lemma keeps_respond_rate_limited n : keeps R (respond_rate_limited n).
Proof. apply keeps_bind; [apply keeps_conn|]. intros _. apply keeps_conn. Qed.

Lemma keeps_check_rate_limit : keeps R (check_rate_limit clock lock).
Proof.
  unfold check_rate_limit. case_match; [|apply keeps_ret].
  apply keeps_bind; [apply keeps_timer|]. intros. apply keeps_peek.
Qed.

Context {G : Ungated R}.

Lemma keeps_respond_json status body : keeps R (respond_json status body).
Proof.
  unfold respond_json. apply keeps_bind; [apply keeps_conn|]. intros _.
  apply keeps_bind; [apply keeps_attempt, keeps_conn|]. intros r.
  apply keeps_bind; [|destruct r; [intros; apply keeps_ret|intros; apply keeps_fail]].
  case_match; [|apply keeps_ret]. intros s. apply ungated.
Qed.

Lemma keeps_authorized scope k : keeps R k → keeps R (authorized lock scope k).
Proof.
  intros Hk. apply keeps_bind; [apply keeps_is_authorized|]. intros []; [done|].
  apply keeps_respond_json.
Qed.

Lemma keeps_rate_limited k : keeps R k → keeps R (rate_limited clock lock k).
Proof.
  intros Hk. apply keeps_bind; [apply keeps_check_rate_limit|].
  intros []; [done|apply keeps_respond_rate_limited].
Qed.

Lemma keeps_with_body k : (∀ body, keeps R (k body)) → keeps R (with_body k).
Proof.
  intros Hk s. unfold with_body. destruct (read_body (rs_conn s)) as [r c].
  etransitivity; [by apply (offline s (rs_ticks s) c)|].
  destruct r as [body|[e| |]]; [apply Hk|apply keeps_fail|apply keeps_respond_json..].
Qed.

Lemma keeps_with_status k : (∀ st, keeps R (k st)) → keeps R (with_status lock k).
Proof. intros Hk s. unfold with_status. case_match; [apply Hk|apply keeps_respond_json]. Qed.

Lemma keeps_respond_other r : keeps R (respond_other r).
Proof. destruct r; apply keeps_respond_json. Qed.

(** The commands an endpoint hands to the dispatcher. *)
Definition dispatches (ep : Endpoint) (cmd : Command) : Prop :=
  match ep, cmd with
  | Ep_Check, Cmd_Check | Ep_Keys, Cmd_SetKeys _ | Ep_Url, Cmd_SetUrl _ | Ep_Burn, Cmd_Burn
  | Ep_Wipe, Cmd_Wipe | Ep_KeyVer, Cmd_KeyVer | Ep_Ndef, Cmd_Ndef | Ep_Diagnose, Cmd_Diagnose
  | Ep_Inspect, Cmd_Inspect => True
  | _, _ => False
  end.

(** The token an endpoint asks for. *)
Definition scope_of (ep : Endpoint) : TokenScope :=
  match ep with
  | Ep_Keys | Ep_Url | Ep_Burn | Ep_Wipe | Ep_JobSubmit => Scope_Write
  | _ => Scope_Read
  end.

Lemma keeps_handle ep :
  (∀ cmd, dispatches ep cmd → keeps R (with_state lock (dispatch_sync cmd))) →
  (scope_of ep = Scope_Write → keeps R (record_rate_limit clock lock)) →
  (ep = Ep_JobSubmit → ∀ cmd, keeps R (submit_job lock cmd)) →
  keeps R (handle clock lock ep).
Proof.
  intros Hd Hr Hj.
  destruct ep; cbn [handle]; cbn [scope_of] in Hr;
    repeat first [ apply keeps_authorized | apply keeps_rate_limited | apply keeps_with_body; intros ?
      | apply keeps_with_status; intros ? | apply keeps_respond_json | apply keeps_respond_other
      | apply Hd; exact I | by apply Hj | by apply Hr | apply keeps_peek
      | apply keeps_bind; [|intros ?] | case_match | intros s; apply keeps_respond_json ].
Qed.
End keeps.

(** ** Refused requests *)

(** The rate limiter turns the next write away. *)
Definition limited (s : St) : Prop :=
  lock Mx_Limiter = true ∧ ∃ n, check_write (clock (rs_ticks s)) (rs_limiter s) = Err n.

(** Everything but the connection and the timer. *)
Definition shared (s : St) : Device S * RateLimiter * JobSlot := (rs_dev s, rs_limiter s, rs_job s).

#[export] Instance shared_offline : Offline (same shared).
Proof. by intros [] n c _. Qed.

Lemma handle_opens ep : ∃ k, handle clock lock ep =
  authorized lock (scope_of ep)
    (match scope_of ep with Scope_Write => rate_limited clock lock k | Scope_Read => k end).
Proof. destruct ep; eexists; reflexivity. Qed.

Lemma authorized_refuses scope k (s : St) :
  (is_authorized lock scope s).1 ≠ Ok true → shared (authorized lock scope k s).2 = shared s.
Proof.
  intros Hn. unfold authorized, mbind, M_bind. pose proof (keeps_is_authorized (same shared) scope s) as Hf.
  destruct (is_authorized lock scope s) as [[[]|e] s']; simpl in *; [congruence| |done].
  rewrite <- Hf. apply (keeps_respond_error (same shared)). lia.
Qed.

Lemma authorized_passes scope k (s : St) :
  (is_authorized lock scope s).1 = Ok true → authorized lock scope k s = k s.
Proof.
  intros Hn. assert ((is_authorized lock scope s).2 = s) as Hs.
  { unfold is_authorized. by repeat case_match. }
  unfold authorized, mbind, M_bind. destruct (is_authorized lock scope s) as [r s']. simpl in *.
  by subst.
Qed.

Lemma rate_limited_refuses k (s : St) :
  limited s → shared (rate_limited clock lock k s).2 = shared s.
Proof.
  intros [Hl [n Hn]]. unfold rate_limited, check_rate_limit. rewrite Hl.
  unfold mbind, M_bind, timer, peek. simpl. rewrite Hn.
  etransitivity; [apply (keeps_respond_rate_limited (same shared))|]. apply shared_offline. simpl. lia.
Qed.

Lemma handle_refused ep (s : St) :
  (is_authorized lock (scope_of ep) s).1 ≠ Ok true ∨ (scope_of ep = Scope_Write ∧ limited s) →
  shared (handle clock lock ep s).2 = shared s.
Proof.
  destruct (handle_opens ep) as [k ->]. intros [Hn|[Hw Hl]]; [by apply authorized_refuses|].
  destruct (decide ((is_authorized lock (scope_of ep) s).1 = Ok true)) as [Ha|Hn];
    [|by apply authorized_refuses].
  rewrite (authorized_passes _ _ _ Ha), Hw. by apply rate_limited_refuses.
Qed.

(** C14. A refused request changes nothing: when the token of the endpoint's scope
    is set and the Authorization header does not carry it (or the configuration
    cannot be locked), and likewise when a writing endpoint is called within the
    cool-down, the device (card service, configuration and rollback gate), the
    job slot and the rate limiter are exactly what they were, whatever the
    connection does. Authorisation is granted exactly when no token is set or
    the header is Bearer, in any casing, followed by the token. *)
Theorem rest_refused (ep : Endpoint) (s : St) :
  ((is_authorized lock (scope_of ep) s).1 = Ok true ↔
     lock Mx_Config = true ∧
     (scope_token (scope_of ep) (dv_config (rs_dev s)) = None ∨
      ∃ token header, scope_token (scope_of ep) (dv_config (rs_dev s)) = Some token ∧
        req_header (lit "Authorization") (rs_conn s) = Some header ∧
        is_char_boundary header 7 = true ∧ grants header token)) ∧
  ((is_authorized lock (scope_of ep) s).1 ≠ Ok true ∨ (scope_of ep = Scope_Write ∧ limited s) →
   shared (handle clock lock ep s).2 = shared s).
Proof.
  split.
  - unfold is_authorized, bearer_token. setoid_rewrite grants_spec.
    destruct (lock Mx_Config); simpl; [|split; [done|intros [? _]; done]].
    destruct (scope_token _ _) as [tok|]; [|split; auto].
    destruct (req_header _ _) as [hd|].
    2:{ simpl. split; [done|]. intros (_ & [?|(? & ? & _ & ? & _)]); done. }
    case_decide; simpl.
    { split; [done|]. intros (_ & [?|(? & ? & _ & [= <-] & _ & ? & _)]); [done|lia]. }
    destruct (is_char_boundary hd 7) eqn:Eb; simpl.
    2:{ split; [done|]. intros (_ & [?|(? & ? & _ & [= <-] & ? & _)]); congruence. }
    destruct (eq_ignore_ascii_case _ _) eqn:Ee; simpl.
    2:{ split; [done|]. intros (_ & [?|(? & ? & _ & [= <-] & _ & _ & ? & _)]); congruence. }
    split.
    + intros [= Hc]. apply rest_constant_time_eq_spec in Hc. split; [done|]. right.
      exists tok, hd. split_and!; auto with lia.
    + intros (_ & [?|(t & h & [= <-] & [= <-] & _ & _ & _ & Hd)]); [done|]. f_equal.
      by apply rest_constant_time_eq_spec.
  - apply handle_refused.
Qed.

(** ** Spacing of writes *)

(** Time passes, and a new limiter value is a timer reading taken meanwhile. *)
Definition clocked : relation St := λ s s',
  (rs_ticks s ≤ rs_ticks s')%nat ∧
  (rs_limiter s' = rs_limiter s ∨ lock Mx_Limiter = true ∧
     ∃ n, (rs_ticks s ≤ n < rs_ticks s')%nat ∧ rs_limiter s' = mkRateLimiter (clock n)).

#[local] Instance clocked_preorder : PreOrder clocked.
Proof.
  split; [intros s; split; [lia|by left]|]. intros s1 s2 s3 [H1 L1] [H2 L2]. split; [lia|].
  destruct L2 as [->|(? & n & ? & ->)]; [|right; split; [done|]; exists n; split; [lia|done]].
  destruct L1 as [->|(? & n & ? & ->)]; [by left|right; split; [done|]; exists n; split; [lia|done]].
Qed.
#[local] Instance clocked_offline : Offline clocked.
Proof. intros s n c Hn. split; [done|by left]. Qed.
#[local] Instance clocked_ungated : Ungated clocked.
Proof. intros s. split; [done|by left]. Qed.

Lemma set_dev_clocked d (s : St) : clocked s (set_dev d s).
Proof. split; [done|by left]. Qed.

Lemma keeps_with_state (R : relation St) {P : PreOrder R} {A} (f : Device S → A * Device S) :
  (∀ s, R s (set_dev (f (rs_dev s)).2 s)) → keeps R (with_state lock f).
Proof.
  intros Hf s. unfold with_state. specialize (Hf s).
  destruct (lock Mx_Config), (lock Mx_Service); simpl; try reflexivity.
  by destruct (f (rs_dev s)).
Qed.

Lemma handle_clocked ep : keeps clocked (handle clock lock ep).
Proof.
  apply (keeps_handle clocked).
  - intros cmd _. apply keeps_with_state; [apply _|]. intros s. apply set_dev_clocked.
  - intros _. unfold record_rate_limit. destruct (lock Mx_Limiter) eqn:El; [|apply keeps_ret; apply _].
    intros s. split; simpl; [lia|]. right. split; [done|]. exists (rs_ticks s). split; [lia|done].
  - intros _ cmd s. unfold submit_job. case_match; [|reflexivity]. destruct (submit cmd _).
    split; [done|by left].
Qed.

#[export] Instance limiter_offline : Offline (same rs_limiter).
Proof. by intros s n c Hn. Qed.
#[export] Instance limiter_ungated : Ungated (same rs_limiter).
Proof. by intros s. Qed.

Lemma handle_limiter ep (s : St) :
  scope_of ep ≠ Scope_Write → rs_limiter (handle clock lock ep s).2 = rs_limiter s.
Proof.
  intros Hw. apply (keeps_handle (same rs_limiter)); [|done|by intros ->].
  intros cmd _. by apply keeps_with_state; [apply _|].
Qed.

Lemma handle_spacing ep (s : St) :
  (∀ i j, (i ≤ j)%nat → clock i ≤ clock j) →
  rs_limiter (handle clock lock ep s).2 ≠ rs_limiter s →
  last_write_us (rs_limiter s) + WRITE_COOLDOWN_US ≤
    last_write_us (rs_limiter (handle clock lock ep s).2).
Proof.
  intros Hmono Hne. destruct (handle_clocked ep s) as [_ [?|(Hl & n & Hn & Heq)]]; [done|].
  rewrite Heq. simpl.
  destruct (check_write (clock (rs_ticks s)) (rs_limiter s)) as [[]|r] eqn:Hc.
  - unfold check_write in Hc. case_decide; [done|]. specialize (Hmono (rs_ticks s) n ltac:(lia)). lia.
  - exfalso. apply Hne. destruct (decide (scope_of ep = Scope_Write)) as [Hw|Hw].
    + assert (shared (handle clock lock ep s).2 = shared s) as He; [|by injection He].
      apply handle_refused. right. split; [done|]. split; eauto.
    + by apply handle_limiter.
Qed.

(** ** Accepted settings and jobs are recorded *)

Definition settings (s : St) : BoltyConfig * JobSlot := (dv_config (rs_dev s), rs_job s).

(** Nothing staged, and the timer not turned back. *)
Definition calm : relation St := λ s s', settings s' = settings s ∧ (rs_ticks s ≤ rs_ticks s')%nat.

#[local] Instance calm_preorder : PreOrder calm.
Proof. split; [done|]. intros s1 s2 s3 [? ?] [? ?]. split; [congruence|lia]. Qed.
#[local] Instance calm_offline : Offline calm.
Proof. by intros s n c Hn. Qed.
#[local] Instance calm_ungated : Ungated calm.
Proof. by intros s. Qed.

(** The limiter holds a reading of the timer taken during the step. *)
Definition recorded (s s' : St) : Prop :=
  ∃ n, (rs_ticks s ≤ n < rs_ticks s')%nat ∧ rs_limiter s' = mkRateLimiter (clock n).

Definition accounted : relation St := λ s s', calm s s' ∨ recorded s s'.

Lemma wp_calm {A} (m : M St HandlerError A) s s0 :
  calm s0 s → keeps calm m → wp m (λ _, accounted s0) s.
Proof. intros Hs Hm. left. etransitivity; [done|apply Hm]. Qed.

Lemma wp_calm_bind {A A'} (m : M St HandlerError A) (k : A → M St HandlerError A') s s0 :
  calm s0 s → keeps calm m → (∀ a s', calm s0 s' → wp (k a) (λ _, accounted s0) s') →
  wp (m ≫= k) (λ _, accounted s0) s.
Proof.
  intros Hs Hm Hk. apply wp_bind. unfold wp at 1. specialize (Hm s).
  assert (calm s0 (m s).2) as Hc by (by etransitivity). destruct (m s) as [[a|e] s']; simpl in *; [by apply Hk|by left].
Qed.

Lemma record_respond status body (s : St) :
  lock Mx_Limiter = true → recorded s ((record_rate_limit clock lock ;; respond_json status body) s).2.
Proof.
  intros Hl. unfold record_rate_limit. rewrite Hl. unfold mbind, M_bind, timer, update. simpl.
  set (s1 := mkRest _ _ _ _ _). exists (rs_ticks s).
  pose proof (keeps_respond_json calm status body s1) as [_ Ht]. split; [simpl in Ht; lia|].
  apply (keeps_respond_json (same rs_limiter) status body s1).
Qed.

Lemma wp_recorded status body s s0 :
  (rs_ticks s0 ≤ rs_ticks s)%nat → lock Mx_Limiter = true →
  wp (record_rate_limit clock lock ;; respond_json status body) (λ _, accounted s0) s.
Proof.
  intros Hs Hl. right. destruct (record_respond status body s Hl) as (n & Hn & Heq).
  exists n. split; [lia|done].
Qed.

(** The part of a writing handler after its guards. *)
Lemma wp_guarded (k : M St HandlerError ()) s :
  (∀ s', calm s s' → wp k (λ _, accounted s) s') →
  wp (authorized lock Scope_Write (rate_limited clock lock k)) (λ _, accounted s) s.
Proof.
  intros Hk. apply wp_calm_bind; [done|apply keeps_is_authorized; apply _|]. intros [] s1 H1; simpl.
  - apply wp_calm_bind; [done|apply keeps_check_rate_limit; apply _|]. intros [[]|n] s2 H2; simpl; [by apply Hk|].
    apply wp_calm; [done|]. apply keeps_respond_rate_limited; apply _.
  - apply wp_calm; [done|]. apply keeps_respond_json; apply _.
Qed.

Lemma wp_body (k : list Z → M St HandlerError ()) s s0 :
  calm s0 s → (∀ body s', calm s0 s' → wp (k body) (λ _, accounted s0) s') →
  wp (with_body k) (λ _, accounted s0) s.
Proof.
  intros Hs Hk. unfold wp, with_body. destruct (read_body (rs_conn s)) as [r c].
  set (s1 := mkRest _ _ _ _ c). assert (calm s0 s1) as H1.
  { etransitivity; [done|]. by apply calm_offline. }
  destruct r as [body|[e| |]]; [by apply Hk|by left|..];
    apply wp_calm; try done; apply keeps_respond_json; apply _.
Qed.

Lemma wp_staged cmd status body other s s0 :
  calm s0 s → lock Mx_Limiter = true → (∀ d, (dispatch_sync cmd d).1 = WR_Success) →
  (∀ r, keeps calm (other r)) →
  wp (result ← with_state lock (dispatch_sync cmd);
      match result with
      | Ok WR_Success => record_rate_limit clock lock ;; respond_json status body
      | _ => other result
      end) (λ _, accounted s0) s.
Proof.
  intros Hs Hl Hd Ho. apply wp_bind. unfold wp at 1, with_state.
  destruct (lock Mx_Config); simpl; [|by apply wp_calm].
  destruct (lock Mx_Service); simpl; [|by apply wp_calm].
  specialize (Hd (rs_dev s)). destruct (dispatch_sync cmd (rs_dev s)) as [r d]. simpl in *. subst r.
  apply wp_recorded; [apply Hs|done].
Qed.

Lemma wp_action cmd s :
  lock Mx_Limiter = true → (∀ d, dv_config (dispatch_sync cmd d).2 = dv_config d) →
  wp (handle_action clock lock cmd) (λ _, accounted s) s.
Proof.
  intros Hl Hd. apply wp_guarded. intros s1 H1. apply wp_calm_bind; [done| |].
  { apply keeps_with_state; [apply _|]. intros s2. unfold calm, settings. simpl. by rewrite Hd. }
  intros r s2 H2. destruct r as [[]|]; first [by apply wp_recorded; [apply H2|] |
    apply wp_calm; [done|]; apply keeps_respond_json; apply _].
Qed.

Lemma dispatch_sync_config cmd :
  (match cmd with Cmd_SetKeys _ | Cmd_SetIssuer _ | Cmd_SetUrl _ => False | _ => True end) →
  ∀ d : Device S, dv_config (dispatch_sync cmd d).2 = dv_config d.
Proof.
  intros Hc []. unfold dispatch_sync. destruct cmd; simpl; try done; repeat case_match; simplify_eq/=; done.
Qed.

Lemma handle_accounted ep (s : St) :
  lock Mx_Limiter = true → accounted s (handle clock lock ep s).2.
Proof.
  intros Hl. assert (∀ r, keeps calm (respond_other r)) as Ho by (intros; apply keeps_respond_other; apply _).
  assert (∀ st b, keeps calm (respond_json st b)) as Hr by (intros; apply keeps_respond_json; apply _).
  assert (∀ cmd, (∀ d, dv_config (dispatch_sync cmd d).2 = dv_config d) →
    keeps calm (with_state lock (dispatch_sync cmd))) as Hcmd.
  { intros cmd Hc. apply keeps_with_state; [apply _|]. intros s1. unfold calm, settings. simpl. by rewrite Hc. }
  destruct ep.
  all: try (left; apply (keeps_handle calm); [|done|done]; intros [] Hd; try done; by apply Hcmd, dispatch_sync_config).
  - apply wp_guarded. intros s1 H1. apply wp_body; [done|]. intros body s2 H2.
    case_match; [|by apply wp_calm]. by apply wp_staged; [..|intros []|].
  - apply wp_guarded. intros s1 H1. apply wp_body; [done|]. intros body s2 H2.
    case_match; [|by apply wp_calm]. case_match; [|by apply wp_calm].
    by apply wp_staged; [..|intros []|].
  - by apply wp_action; [|apply dispatch_sync_config].
  - by apply wp_action; [|apply dispatch_sync_config].
  - apply wp_guarded. intros s1 H1. apply wp_body; [done|]. intros body s2 H2.
    case_match; [|by apply wp_calm]. case_match; [|by apply wp_calm].
    apply wp_bind. unfold wp at 1, submit_job. destruct (lock Mx_Job); simpl; [|by apply wp_calm].
    unfold submit. destruct (bool_decide _); simpl; [by apply wp_calm; [exact H2|]|].
    apply wp_recorded; [apply H2|done].
Qed.

(** The command behind the endpoints that write to the card at once. *)
Definition action (ep : Endpoint) : option Command :=
  match ep with Ep_Burn => Some Cmd_Burn | Ep_Wipe => Some Cmd_Wipe | _ => None end.

(** Nothing written: the configuration and the job slot are the same, and for a
    burn or wipe the service (with the reader and the card) is, too, unless the
    dispatcher reported a failure. *)
Definition unwritten (ep : Endpoint) (s s' : St) : Prop :=
  settings s' = settings s ∧
  ∀ cmd, action ep = Some cmd →
    dv_service (rs_dev s') = dv_service (rs_dev s) ∨ (dispatch_sync cmd (rs_dev s)).1 ≠ WR_Success.

Lemma unwritten_shared ep s s' : shared s' = shared s → unwritten ep s s'.
Proof. intros [= Hd _ Hj]. split; [unfold settings; by rewrite Hd, Hj|]. intros. left. by rewrite Hd. Qed.

Lemma rate_limited_cases k (s : St) :
  lock Mx_Limiter = true →
  limited s ∨ last_write_us (rs_limiter s) + WRITE_COOLDOWN_US ≤ clock (rs_ticks s) ∧
    rate_limited clock lock k s = k (mkRest (rs_dev s) (rs_limiter s) (rs_job s) (1 + rs_ticks s) (rs_conn s)).
Proof.
  intros Hl. unfold limited, rate_limited, check_rate_limit. rewrite Hl. unfold mbind, M_bind, timer, peek. simpl.
  destruct (check_write _ _) as [[]|n] eqn:Ec; [right|left; eauto]. split; [|done].
  unfold check_write in Ec. case_decide; [done|]. lia.
Qed.

#[local] Instance service_offline : Offline (same (λ s : St, dv_service (rs_dev s))).
Proof. by intros s n c Hn. Qed.
#[local] Instance service_ungated : Ungated (same (λ s : St, dv_service (rs_dev s))).
Proof. by intros s. Qed.

Lemma with_state_bind {A A'} (f : Device S → A * Device S)
    (k : result A (list Z) → M St HandlerError A') (s : St) :
  (with_state lock f ≫= k) s =
    if negb (lock Mx_Config) then k (Err (lit "config unavailable")) s
    else if negb (lock Mx_Service) then k (Err (lit "service unavailable")) s
    else k (Ok (f (rs_dev s)).1) (set_dev (f (rs_dev s)).2 s).
Proof.
  unfold with_state, mbind, M_bind. repeat case_match; simplify_eq/=; done.
Qed.

(** A burn or wipe that the dispatcher reports as done is recorded. *)
Lemma action_recorded cmd (s : St) :
  lock Mx_Limiter = true →
  let s' := (handle_action clock lock cmd s).2 in
  dv_service (rs_dev s') = dv_service (rs_dev s) ∨ (dispatch_sync cmd (rs_dev s)).1 ≠ WR_Success ∨
  recorded s s'.
Proof.
  intros Hl. simpl. unfold handle_action.
  destruct (decide ((is_authorized lock Scope_Write s).1 = Ok true)) as [Ha|Hn].
  2:{ left. match goal with |- context [authorized _ _ ?k s] =>
        pose proof (authorized_refuses Scope_Write k s Hn) as [= -> _ _] end. done. }
  rewrite authorized_passes by done.
  match goal with |- context [rate_limited _ _ ?k s] =>
    destruct (rate_limited_cases k s Hl) as [Hlim|[_ ->]];
      [left; pose proof (rate_limited_refuses k s Hlim) as [= -> _ _]; done|] end.
  set (s1 := mkRest _ _ _ (1 + _) _). rewrite with_state_bind. change (rs_dev s1) with (rs_dev s).
  pose proof (λ st b (s2 : St), keeps_respond_json (same (λ s, dv_service (rs_dev s))) st b s2) as Hr.
  destruct (lock Mx_Config); cbn [negb]; [|left; apply (Hr _ _ s1)].
  destruct (lock Mx_Service); cbn [negb]; [|left; apply (Hr _ _ s1)].
  destruct (decide ((dispatch_sync cmd (rs_dev s)).1 = WR_Success)) as [Hd|]; [right; right|by right; left].
  rewrite Hd. set (s2 := set_dev _ s1).
  destruct (record_respond 200 (json_ok (jlit "'status':'done'")) s2 Hl) as (n & Hn & Hlim).
  exists n. change (rs_ticks s2) with (1 + rs_ticks s)%nat in Hn. split; [lia|done].
Qed.

(** Every served request either writes nothing or is recorded. *)
Lemma handle_recorded ep (s : St) :
  lock Mx_Limiter = true →
  unwritten ep s (handle clock lock ep s).2 ∨ recorded s (handle clock lock ep s).2.
Proof.
  intros Hl. destruct (handle_accounted ep s Hl) as [[Hs _]|Hr]; [|by right].
  destruct (action ep) as [cmd|] eqn:Ea; [|left; split; [done|congruence]].
  assert (handle clock lock ep = handle_action clock lock cmd) as He by (destruct ep; by simplify_eq/=).
  rewrite He in *. destruct (action_recorded cmd s Hl) as [?|[?|?]]; [left|left|by right]; (split; [done|]);
    rewrite Ea; intros ? [= <-]; [by left|by right].
Qed.

(** A recorded request passed the limiter when it came. *)
Lemma handle_spaced ep (s : St) :
  lock Mx_Limiter = true → (∀ i j, (i ≤ j)%nat → clock i ≤ clock j) →
  let s' := (handle clock lock ep s).2 in
  unwritten ep s s' ∨
  recorded s s' ∧ last_write_us (rs_limiter s) + WRITE_COOLDOWN_US ≤ last_write_us (rs_limiter s').
Proof.
  intros Hl Hm. simpl. destruct (handle_recorded ep s Hl) as [Hu|Hr]; [by left|].
  destruct (decide (scope_of ep = Scope_Write)) as [Hw|Hw].
  - destruct (rate_limited_cases (mret ()) s Hl) as [Hlim|[Ht _]].
    + left. apply unwritten_shared, handle_refused. by right.
    + right. split; [done|]. destruct Hr as (n & Hn & ->). simpl. specialize (Hm (rs_ticks s) n ltac:(lia)). lia.
  - left. split; [|by destruct ep].
    apply (keeps_handle calm); [| |by intros ->]; [|done].
    intros cmd Hd. apply keeps_with_state; [apply _|]. intros s1. unfold calm, settings. simpl.
    rewrite dispatch_sync_config; [done|]. by destruct ep, cmd.
Qed.

(** A request, with what the rest of the firmware did to the shared objects since
    the previous one: the device and job slot it finds, and how often the timer
    was read. *)
Record Arrival : Type := mkArrival {
  ar_endpoint : Endpoint;
  ar_conn : K;
  ar_dev : Device S;
  ar_job : JobSlot;
  ar_idle : nat }.

Definition arrive (a : Arrival) (s : St) : St :=
  mkRest (ar_dev a) (rs_limiter s) (ar_job a) (ar_idle a + rs_ticks s) (ar_conn a).

Definition serve (a : Arrival) (s : St) : St := (handle clock lock (ar_endpoint a) (arrive a s)).2.

Fixpoint serve_all (reqs : list Arrival) (s : St) : St :=
  match reqs with [] => s | a :: reqs => serve_all reqs (serve a s) end.

(** The times at which the limiter recorded a write. *)
Fixpoint write_times (reqs : list Arrival) (s : St) : list Z :=
  match reqs with
  | [] => []
  | a :: reqs =>
      let s' := serve a s in
      (if decide (last_write_us (rs_limiter s') = last_write_us (rs_limiter s)) then []
       else [last_write_us (rs_limiter s')]) ++ write_times reqs s'
  end.

Definition spaced (a b : Z) : Prop := a + WRITE_COOLDOWN_US ≤ b.

Lemma serve_spacing a (s : St) :
  (∀ i j, (i ≤ j)%nat → clock i ≤ clock j) →
  last_write_us (rs_limiter (serve a s)) = last_write_us (rs_limiter s) ∨
  spaced (last_write_us (rs_limiter s)) (last_write_us (rs_limiter (serve a s))).
Proof.
  intros Hm. destruct (decide (last_write_us (rs_limiter (serve a s)) = last_write_us (rs_limiter s)))
    as [|Hne]; [by left|right]. apply (handle_spacing (ar_endpoint a) (arrive a s) Hm).
  intros E. apply Hne. unfold serve. by rewrite E.
Qed.

(** C16. Successful writes through HTTP are at least five seconds apart. Serve any
    sequence of requests, with arbitrary activity of the rest of the firmware in
    between and a timer that does not run backwards: the times of the recorded
    writes, after the last one before, are each at least the cool-down later than
    the one before. And no success goes unrecorded: every request either leaves the
    configuration and the job slot alone and, for a burn or wipe, does not reach the
    service or is reported by it as failed; or the limiter takes a timer reading of
    the time it was served, at least the cool-down after the one before. A burn or
    wipe that fails opens no cool-down. *)
Theorem rest_writes_spaced (reqs : list Arrival) (s : St) :
  (∀ i j, (i ≤ j)%nat → clock i ≤ clock j) → lock Mx_Limiter = true →
  Sorted spaced (last_write_us (rs_limiter s) :: write_times reqs s) ∧
  ∀ pre a post, reqs = pre ++ a :: post →
    let before := arrive a (serve_all pre s) in
    let after := serve a (serve_all pre s) in
    (dv_config (rs_dev after) = dv_config (ar_dev a) ∧ rs_job after = ar_job a ∧
     ∀ cmd, action (ar_endpoint a) = Some cmd →
       dv_service (rs_dev after) = dv_service (ar_dev a) ∨
       (dispatch_sync cmd (ar_dev a)).1 ≠ WR_Success) ∨
    (∃ n, (rs_ticks before ≤ n < rs_ticks after)%nat ∧ rs_limiter after = mkRateLimiter (clock n) ∧
       spaced (last_write_us (rs_limiter before)) (clock n)).
Proof.
  intros Hm Hl. split.
  - revert s. induction reqs as [|a reqs IH]; intros s; simpl; [repeat constructor|].
    specialize (IH (serve a s)). case_decide as Ht.
    + by rewrite Ht in IH.
    + constructor; [done|]. constructor. by destruct (serve_spacing a s Hm).
  - intros pre a post _. simpl. unfold serve.
    destruct (handle_spaced (ar_endpoint a) (arrive a (serve_all pre s)) Hl Hm)
      as [[[= Hc Hj] Ha]|[(n & Hn & Heq) Hs]]; [by left|right].
    exists n. rewrite Heq in Hs. done.
Qed.
End effects.

(** ** The card behind the server *)

Section card.
  Context {T TE : Type} {D : NtagDevice T TE} {L : NtagLaws D} {R : CardReader T}
    {RL : ReaderLaws L R} `{C : AesCrypto}.
  Context {K : Type} {H : HttpConn K}.
  Context (sdm_url_config : list Z → CryptoMode → SdmUrlOptions → result SdmUrlConfig SdmUrlError).
  Context {V : Type} (verify_sdm : Sdm → list Z → AesKey → AesKey → option V).
  Context (rng : nat → list Z) (debug_error : Error TE → list Z).
  Context (clock : nat → Z) (lock : Mutex → bool).

#[local] Instance rest_service : BoltyService (Esp32 T) :=
  esp32_service sdm_url_config verify_sdm rng debug_error.
#[local] Instance rest_esp32 : RestBoltyService (Esp32 T) := sync_from.

  Local Notation St := (Rest (Esp32 T) K).

Definition rest_card (s : St) : option Card := dev_card (rs_dev s).

(** What no request may touch: the tokens, the staged issuer and the force flag. *)
Definition privileged (s : St) :=
  let c := dv_config (rs_dev s) in
  (issuer_name c, pending_issuer c, rest_read_token c, rest_write_token c, force_unsafe c).

#[local] Instance card_offline : Offline (same rest_card).
Proof. by intros s n c Hn. Qed.
#[local] Instance card_ungated : Ungated (same rest_card).
Proof. by intros s. Qed.
#[local] Instance privileged_offline : Offline (same privileged).
Proof. by intros s n c Hn. Qed.
#[local] Instance privileged_ungated : Ungated (same privileged).
Proof. by intros s. Qed.
#[local] Instance config_offline : Offline (same (λ s : St, dv_config (rs_dev s))).
Proof. by intros s n c Hn. Qed.
#[local] Instance config_ungated : Ungated (same (λ s : St, dv_config (rs_dev s))).
Proof. by intros s. Qed.
#[local] Instance job_offline : Offline (same (λ s : St, rs_job s)).
Proof. by intros s n c Hn. Qed.
#[local] Instance job_ungated : Ungated (same (λ s : St, rs_job s)).
Proof. by intros s. Qed.

Lemma record_keeps {X} (v : St → X) :
  (∀ s l n, v (mkRest (rs_dev s) l (rs_job s) n (rs_conn s)) = v s) →
  keeps (same v) (record_rate_limit clock lock).
Proof.
  intros Hv s. unfold record_rate_limit. case_match; [|done]. unfold same. simpl. apply Hv.
Qed.

Lemma submit_keeps {X} (v : St → X) cmd :
  (∀ s j, v (mkRest (rs_dev s) (rs_limiter s) j (rs_ticks s) (rs_conn s)) = v s) →
  keeps (same v) (submit_job lock cmd).
Proof.
  intros Hv s. unfold submit_job. case_match; [|done]. destruct (submit cmd _). apply Hv.
Qed.

Lemma dispatch_sync_card cmd (d : Device (Esp32 T)) :
  writes_card cmd = false → dev_card (dispatch_sync cmd d).2 = dev_card d.
Proof.
  intros Hc. unfold dispatch_sync.
  pose proof (dispatch_keeps sdm_url_config verify_sdm rng debug_error cmd d Hc) as Hd.
  unfold esp_service in Hd. unfold rest_service. by destruct (dispatch_command cmd d).
Qed.

Lemma handle_card ep (s : St) :
  ep ≠ Ep_Burn → ep ≠ Ep_Wipe → rest_card (handle clock lock ep s).2 = rest_card s.
Proof.
  intros Hb Hw. apply (keeps_handle clock lock (same rest_card)).
  - intros cmd Hd. apply keeps_with_state; [apply _|]. intros s1. apply dispatch_sync_card.
    by destruct ep, cmd.
  - intros _. by apply record_keeps.
  - intros _ cmd. by apply submit_keeps.
Qed.

Lemma handle_job ep (s : St) :
  ep ≠ Ep_JobSubmit → rs_job (handle clock lock ep s).2 = rs_job s.
Proof.
  intros Hj. apply (keeps_handle clock lock (same (λ s : St, rs_job s))); [| |done].
  - intros cmd Hd. by apply keeps_with_state; [apply _|].
  - intros _. by apply record_keeps.
Qed.

Lemma handle_privileged ep (s : St) :
  privileged (handle clock lock ep s).2 = privileged s.
Proof.
  apply (keeps_handle clock lock (same privileged)).
  - intros cmd Hd. apply keeps_with_state; [apply _|]. intros s1. unfold same, privileged. simpl.
    assert (match cmd with Cmd_SetKeys _ | Cmd_SetIssuer _ | Cmd_SetUrl _ => False | _ => True end ∨
      (∃ k, cmd = Cmd_SetKeys k) ∨ (∃ u, cmd = Cmd_SetUrl u)) as [Hc|[[k ->]|[u ->]]].
    { destruct cmd; eauto. by destruct ep. }
    + by rewrite dispatch_sync_config.
    + by destruct (rs_dev s1).
    + by destruct (rs_dev s1).
  - intros _. by apply record_keeps.
  - intros _ cmd. by apply submit_keeps.
Qed.

Lemma handle_config ep (s : St) :
  ep ≠ Ep_Keys → ep ≠ Ep_Url →
  dv_config (rs_dev (handle clock lock ep s).2) = dv_config (rs_dev s).
Proof.
  intros Hk Hu. apply (keeps_handle clock lock (same (λ s : St, dv_config (rs_dev s)))).
  - intros cmd Hd. apply keeps_with_state; [apply _|]. intros s1. unfold same. simpl.
    apply dispatch_sync_config. by destruct ep, cmd.
  - intros _. by apply record_keeps.
  - intros _ cmd. by apply submit_keeps.
Qed.

(** ** The flash and the rollback gate *)

(** The template in flash after [s], for the configuration in force. *)
Definition flash_template (s : St) : option (list Z) := es_nvs_lnurl (dv_service (rs_dev s)).
Definition configured (s : St) : option (list Z) := lnurl (dv_config (rs_dev s)).

(** The flash keeps its template, or takes the one configured. *)
Definition flash_follows : relation St := λ s s',
  (flash_template s' = flash_template s ∧ configured s' = configured s) ∨
  (configured s' ≠ None ∧ flash_template s' = configured s').

(** The gate is as it was, or has noted evidence. *)
Definition gate_follows : relation St := λ s s',
  dv_gate (rs_dev s') = dv_gate (rs_dev s) ∨
  dv_gate (rs_dev s') = (note_serve_evidence (dv_gate (rs_dev s))).2.

Lemma note_evidence_once g : (note_serve_evidence (note_serve_evidence g).2).2 = (note_serve_evidence g).2.
Proof. destruct g as [[m|] []]; done. Qed.

#[local] Instance flash_preorder : PreOrder flash_follows.
Proof.
  split; [by left|]. intros s1 s2 s3 [[H1 C1]|[H1 C1]] [[H2 C2]|[H2 C2]]; unfold flash_follows;
    rewrite ?H2, ?C2; auto.
Qed.
#[local] Instance gate_preorder : PreOrder gate_follows.
Proof.
  split; [by left|]. intros s1 s2 s3 H1 H2. unfold gate_follows in *.
  destruct H1 as [H1|H1]; rewrite H1 in H2; [done|]. rewrite note_evidence_once in H2. right. by destruct H2.
Qed.
#[local] Instance flash_offline : Offline flash_follows.
Proof. by intros s n c _; left. Qed.
#[local] Instance gate_offline : Offline gate_follows.
Proof. by intros s n c _; left. Qed.
#[local] Instance flash_ungated : Ungated flash_follows.
Proof. by intros s; left. Qed.
#[local] Instance gate_ungated : Ungated gate_follows.
Proof. by intros s; right. Qed.

(** Reading a card and wiping one do not write the template. *)
Definition spares_flash {A} (m : M (Esp32 T) WorkflowResult A) : Prop :=
  ∀ s, es_nvs_lnurl (m s).2 = es_nvs_lnurl s.

Lemma spares_bind {A A'} (m : M (Esp32 T) WorkflowResult A) (k : A → M (Esp32 T) WorkflowResult A') :
  spares_flash m → (∀ a, spares_flash (k a)) → spares_flash (m ≫= k).
Proof.
  intros Hm Hk s. specialize (Hm s). unfold mbind, M_bind. destruct (m s) as [[a|e] s']; simpl in *; [|done].
  by rewrite Hk.
Qed.

Lemma spares_transact {A} (body : list Z → M (T * nat) WorkflowResult A) : spares_flash (transact body).
Proof.
  intros s. unfold transact. destruct (es_transceiver s) as [t|]; [|done].
  destruct (activate t) as [[uid|] t']; [|done]. by destruct (body uid _) as [r [t'' n]].
Qed.

Lemma spares_modify f : (∀ s, es_nvs_lnurl (f s) = es_nvs_lnurl s) → spares_flash (modify f).
Proof. intros Hf s. apply Hf. Qed.

Lemma spares_inspect_key key : spares_flash (inspect_with_key rng debug_error key).
Proof.
  apply spares_bind; [apply spares_transact|]. intros res. apply spares_bind; [done|]. intros config.
  apply spares_bind; [by apply spares_modify|done].
Qed.

Lemma spares_inspect : spares_flash (esp_inspect rng debug_error).
Proof.
  apply spares_bind; [done|]. intros [keys|]; [|apply spares_inspect_key]. apply spares_bind.
  - intros s. pose proof (spares_inspect_key (k0 keys) s). unfold attempt. by destruct (inspect_with_key _ _ _ s).
  - intros [a|[]]; try done; apply spares_inspect_key.
Qed.

Lemma spares_wipe issuer keys : spares_flash (esp_wipe verify_sdm rng debug_error issuer keys).
Proof.
  apply spares_bind; [done|]. intros force. apply spares_bind; [apply spares_transact|]. intros uid.
  by apply spares_modify.
Qed.

Lemma spares_check : spares_flash (esp_check_blank rng debug_error).
Proof. apply spares_bind; [apply spares_inspect|]. intros a. by case_decide. Qed.

Lemma spares_workflow m s : spares_flash m → es_nvs_lnurl (as_workflow m s).2 = es_nvs_lnurl s.
Proof. intros Hm. specialize (Hm s). unfold as_workflow. by destruct (m s). Qed.

(** Without a template configured, a dispatched command leaves the flash alone. *)
Lemma dispatch_flash cmd (d : Device (Esp32 T)) :
  lnurl (dv_config (dispatch_command cmd d).2) = None →
  es_nvs_lnurl (dv_service (dispatch_command cmd d).2) = es_nvs_lnurl (dv_service d) ∧
  lnurl (dv_config d) = None.
Proof.
  destruct d as [svc cfg gate]. pose proof (λ i k, spares_workflow _ svc (spares_wipe i k)) as Hw.
  pose proof (spares_workflow _ svc spares_check) as Hc. pose proof (spares_inspect svc) as Hi.
  destruct cmd; cbn [dispatch_command dv_config dv_service]; try done.
  all: cbn [svc_wipe svc_check_blank svc_inspect rest_service esp32_service].
  all: try (specialize (Hw (pending_issuer cfg) (pending_keys cfg)); destruct (as_workflow (esp_wipe _ _ _ _ _) svc); done).
  all: try (destruct (as_workflow (esp_check_blank _ _) svc); done).
  all: try (destruct (esp_inspect _ _ svc); done).
  destruct (lnurl cfg) as [url|] eqn:Eu; [|done]. intros Hn. exfalso. revert Hn.
  repeat case_match; simpl; congruence.
Qed.

Lemma flash_dispatched cmd (s : St) : flash_follows s (set_dev (dispatch_sync cmd (rs_dev s)).2 s).
Proof.
  unfold flash_follows, flash_template, configured, dispatch_sync.
  pose proof (dispatch_flash cmd (rs_dev s)) as Hf. destruct (dispatch_command cmd (rs_dev s)) as [r d].
  cbn [set_dev rs_dev dv_service dv_config snd] in *. unfold rest_sync_from, rest_esp32, sync_from, sync_config.
  cbn [es_nvs_lnurl es_config]. destruct (lnurl (dv_config d)); [by right|left].
  destruct (Hf eq_refl) as [-> ->]. done.
Qed.

Lemma gate_dispatched cmd (s : St) : gate_follows s (set_dev (dispatch_sync cmd (rs_dev s)).2 s).
Proof.
  unfold gate_follows, dispatch_sync. destruct (rs_dev s) as [svc cfg gate].
  assert (∀ r, note_card_transaction r gate = gate ∨
    note_card_transaction r gate = (note_serve_evidence gate).2) as Hn by (intros []; simpl; auto).
  unfold dispatch_command. destruct cmd; cbn [set_dev rs_dev dv_gate snd]; try (by left);
    repeat case_match; simplify_eq/=; first [by left|by right|apply Hn].
Qed.

(** C15. What each HTTP endpoint can reach. Whatever a request carries and however
    the connection behaves: the card changes only through /api/burn and
    /api/wipe; the configuration only through /api/keys and /api/url, and even
    these cannot touch the access tokens, the issuer or the force flag; the job
    slot only through POST /api/job; the rate limiter only through the five
    writing endpoints. A GET is not free of effects, but they are confined: the
    template in flash stays or becomes the one configured (every dispatched
    command saves it), and the rollback gate stays or notes evidence once (a
    2xx response does that). The separation is one of endpoints and holds for
    every client, whatever its token. *)
Theorem rest_effects (ep : Endpoint) (s : St) :
  let s' := (handle clock lock ep s).2 in
  (ep = Ep_Burn ∨ ep = Ep_Wipe ∨ rest_card s' = rest_card s) ∧
  (ep = Ep_Keys ∨ ep = Ep_Url ∨ dv_config (rs_dev s') = dv_config (rs_dev s)) ∧
  privileged s' = privileged s ∧
  (ep = Ep_JobSubmit ∨ rs_job s' = rs_job s) ∧
  (scope_of ep = Scope_Write ∨ rs_limiter s' = rs_limiter s) ∧
  (flash_template s' = flash_template s ∨
   configured s' ≠ None ∧ flash_template s' = configured s') ∧
  (dv_gate (rs_dev s') = dv_gate (rs_dev s) ∨
   dv_gate (rs_dev s') = (note_serve_evidence (dv_gate (rs_dev s))).2).
Proof.
  simpl. split_and!.
  - destruct (decide (ep = Ep_Burn)), (decide (ep = Ep_Wipe)); auto. do 2 right. by apply handle_card.
  - destruct (decide (ep = Ep_Keys)), (decide (ep = Ep_Url)); auto. do 2 right. by apply handle_config.
  - apply handle_privileged.
  - destruct (decide (ep = Ep_JobSubmit)); [by left|right]. by apply handle_job.
  - destruct (decide (scope_of ep = Scope_Write)); [by left|right]. by apply handle_limiter.
  - assert (keeps flash_follows (handle clock lock ep)) as Hf; [|by destruct (Hf s) as [[? _]|?]; [left|right]].
    apply (keeps_handle clock lock flash_follows).
    + intros cmd _. apply keeps_with_state; [apply _|]. apply flash_dispatched.
    + intros _ s1. unfold record_rate_limit. case_match; by left.
    + intros _ cmd s1. unfold submit_job. case_match; [destruct (submit _ _)|]; by left.
  - apply (keeps_handle clock lock gate_follows).
    + intros cmd _. apply keeps_with_state; [apply _|]. apply gate_dispatched.
    + intros _ s1. unfold record_rate_limit. case_match; by left.
    + intros _ cmd s1. unfold submit_job. case_match; [destruct (submit _ _)|]; by left.
Qed.

(** ** Main loop and server together

    The server's task and the main loop share the device and the job slot; a
    handler is one step between two steps of the loop. *)

  Context (verified_uid : V → option (list Z)).
  Context (network : Command → WorkflowResult) (tap_polls remove_polls : nat) (has_buttons : bool).

  Local Notation step := (fw_step sdm_url_config verify_sdm verified_uid rng debug_error network
    tap_polls remove_polls has_buttons).

Record System : Type := mkSystem {
  sy_fw : Firmware T;
  sy_limiter : RateLimiter;
  sy_ticks : nat }.

Inductive SysEvent : Type :=
| Sys_Fw (ev : FwEvent)
| Sys_Http (ep : Endpoint) (k : K).

Definition sys_request (k : K) (y : System) : St :=
  mkRest (fw_dev (sy_fw y)) (sy_limiter y) (fw_job (sy_fw y)) (sy_ticks y) k.

Definition sys_step (ev : SysEvent) (y : System) : System :=
  match ev with
  | Sys_Fw ev => mkSystem (step ev (sy_fw y)) (sy_limiter y) (sy_ticks y)
  | Sys_Http ep k =>
      let s := (handle clock lock ep (sys_request k y)).2 in
      let f := sy_fw y in
      mkSystem (mkFirmware (rs_dev s) (fw_assembler f) (fw_announced f) (fw_nvs_force f) (fw_mode f)
                  (fw_legacy f) (rs_job s)) (rs_limiter s) (rs_ticks s)
  end.

Fixpoint sys_run (evs : list SysEvent) (y : System) : System :=
  match evs with [] => y | ev :: evs => sys_run evs (sys_step ev y) end.

Definition sys_card (y : System) : option Card := fw_card (sy_fw y).

(** A request that the write token and the rate limiter let through. *)
Definition admitted (k : K) (y : System) : Prop :=
  (is_authorized lock Scope_Write (sys_request k y)).1 = Ok true ∧
  ¬ limited clock lock (sys_request k y).

(** The origins of a change of the card: a console line that is a burn or wipe
    sentence, a button click, and an admitted request to burn, wipe or submit a
    job.  Running a job is not an origin of its own. *)
Definition write_origin (ev : SysEvent) (y : System) : Prop :=
  match ev with
  | Sys_Fw (Fw_SubmitJob _) => True
  | Sys_Fw Fw_RunJob => False
  | Sys_Fw ev => fw_cause ev (sy_fw y)
  | Sys_Http ep k => (ep = Ep_Burn ∨ ep = Ep_Wipe ∨ ep = Ep_JobSubmit) ∧ admitted k y
  end.

Lemma admitted_dec ep k y :
  scope_of ep = Scope_Write → admitted k y ∨
  shared (handle clock lock ep (sys_request k y)).2 = shared (sys_request k y).
Proof.
  intros Hw. destruct (decide ((is_authorized lock Scope_Write (sys_request k y)).1 = Ok true)) as [Ha|Ha].
  2:{ right. apply handle_refused. left. by rewrite Hw. }
  destruct (lock Mx_Limiter) eqn:El.
  2:{ left. split; [done|]. intros [? _]. congruence. }
  destruct (check_write (clock (sy_ticks y)) (sy_limiter y)) as [u|n] eqn:Ec.
  - left. split; [done|]. intros [_ [n Hn]]. simpl in Hn. congruence.
  - right. apply handle_refused. right. split; [done|]. split; [done|]. eauto.
Qed.

(** Without such an origin a step leaves the card and does not make a job pending. *)
Lemma sys_step_guard ev y :
  ¬ write_origin ev y → job_status (fw_job (sy_fw y)) ≠ Job_Pending →
  sys_card (sys_step ev y) = sys_card y ∧ job_status (fw_job (sy_fw (sys_step ev y))) ≠ Job_Pending.
Proof.
  intros Hn Hj. destruct ev as [ev|ep k].
  - cbn [sys_step sy_fw]. unfold sys_card. cbn [sy_fw]. split.
    + apply step_card. intros Hc. apply Hn. by destruct ev.
    + intros Hp. apply Hj. rewrite <- (step_job sdm_url_config verify_sdm rng debug_error verified_uid
        network tap_polls remove_polls has_buttons ev (sy_fw y)); [done| |done].
      intros cmd ->. by apply Hn.
  - change (rest_card (handle clock lock ep (sys_request k y)).2 = rest_card (sys_request k y) ∧
      job_status (rs_job (handle clock lock ep (sys_request k y)).2) ≠ Job_Pending).
    simpl in Hn. destruct (decide (ep = Ep_Burn ∨ ep = Ep_Wipe ∨ ep = Ep_JobSubmit)) as [Hw|Hw].
    + destruct (admitted_dec ep k y) as [Ha|Hs]; [by destruct Hw as [->|[->| ->]]|tauto|].
      injection Hs as Hd _ Hs. unfold rest_card. by rewrite Hd, Hs.
    + rewrite handle_card, handle_job by tauto. done.
Qed.

(** C13. Nothing but an explicit, admitted request writes to the card. Run the main
    loop and the HTTP server over any interleaving of console bytes, BLE commands,
    poll ticks, button samples, job-runner ticks and HTTP requests, starting with
    no job pending. If no console line was a burn or wipe sentence, no button was
    clicked, and no request to /api/burn, /api/wipe or POST /api/job came with the
    write token outside the cool-down, then everything stored on the card is as it
    was: in particular polling, BLE, inspection, malformed or overlong input and
    the job runner never write on their own. *)
Theorem system_card_guard (evs : list SysEvent) (y : System) :
  job_status (fw_job (sy_fw y)) ≠ Job_Pending →
  (∀ pre ev post, evs = pre ++ ev :: post → ¬ write_origin ev (sys_run pre y)) →
  sys_card (sys_run evs y) = sys_card y.
Proof.
  revert y. induction evs as [|ev evs IH]; intros y Hj Hn; [done|].
  destruct (sys_step_guard ev y (Hn [] ev evs eq_refl) Hj) as [Hc Hj']. simpl.
  rewrite IH; [done..|]. intros pre ev' post ->. by apply (Hn (ev :: pre) ev' post).
Qed.
End card.

(** ** A failed write is not recorded

    The limiter counts successes only: a burn or wipe that the dispatcher reports
    as failed leaves it alone, and the next attempt is admitted at once. *)
Lemma failed_action_unlimited {S K} {B : BoltyService S} {RB : RestBoltyService S} {H : HttpConn K}
    (clock : nat → Z) (lock : Mutex → bool) cmd (s : Rest S K) :
  (dispatch_sync cmd (rs_dev s)).1 ≠ WR_Success →
  rs_limiter (handle_action clock lock cmd s).2 = rs_limiter s.
Proof.
  intros Hd.
  assert (∀ s1 : Rest S K, rs_dev s1 = rs_dev s → rs_limiter s1 = rs_limiter s →
    rs_limiter ((result ← with_state lock (dispatch_sync cmd);
       match result with
       | Ok WR_Success =>
           record_rate_limit clock lock ;; respond_json 200 (json_ok (jlit "'status':'done'"))
       | Ok _ => respond_json 200 (jlit "{'ok':false,'status':'error'}")
       | Err _ => respond_json 500 (jlit "{'ok':false,'status':'error'}")
       end) s1).2 = rs_limiter s) as Hbody.
  { intros s1 Hdev Hlim. unfold mbind, M_bind, with_state. rewrite Hdev.
    assert (∀ st b (s2 : Rest S K), rs_limiter s2 = rs_limiter s → rs_limiter (respond_json st b s2).2 = rs_limiter s) as Hr.
    { intros st b s2 <-. apply (keeps_respond_json (same rs_limiter)). }
    destruct (lock Mx_Config), (lock Mx_Service); simpl; try by apply Hr.
    destruct (dispatch_sync cmd (rs_dev s)) as [[] d]; simpl in *; try by apply Hr. congruence. }
  unfold handle_action. unfold authorized, mbind at 1, M_bind at 1.
  assert ((is_authorized lock Scope_Write s).2 = s) as Es by (unfold is_authorized; by repeat case_match).
  destruct (is_authorized lock Scope_Write s) as [[[]|e] s1]; simpl in *; subst s1; [|by apply (keeps_respond_json (same rs_limiter))|done].
  unfold rate_limited, check_rate_limit. unfold mbind at 1, M_bind at 1.
  destruct (lock Mx_Limiter); simpl; [|by apply Hbody].
  destruct (check_write _ _); [by apply Hbody|]. by rewrite (keeps_respond_rate_limited (same rs_limiter)).
Qed.

(** ** Instances *)

(** A client: its Authorization header, what it announces, the chunks it sends,
    and the responses it received. *)
Record Client : Type := mkClient {
  cl_auth : option (list Z);
  cl_len : option Z;
  cl_chunks : list (list Z);
  cl_received : list (Z * list Z) }.

#[export] Instance client_conn : HttpConn Client := {|
  req_header name k := if decide (name = lit "Authorization") then cl_auth k else None;
  req_content_len k := cl_len k;
  req_read n k :=
    match cl_chunks k with
    | [] => (Ok [], k)
    | c :: cs => (Ok (take n c), mkClient (cl_auth k) (cl_len k)
        (match drop n c with [] => cs | r => r :: cs end) (cl_received k))
    end;
  req_into_response st _ _ k := (Ok (), mkClient (cl_auth k) (cl_len k) (cl_chunks k) ((st, []) :: cl_received k));
  resp_write_all b k := (Ok (), mkClient (cl_auth k) (cl_len k) (cl_chunks k)
    (match cl_received k with (st, _) :: r => (st, b) :: r | [] => [] end)) |}.

#[export] Instance client_laws : HttpLaws client_conn.
Proof.
  split. intros n k bs k'. simpl. destruct (cl_chunks k) as [|c cs]; intros [= <- <-]; simpl; [lia|].
  rewrite length_take. lia.
Qed.

Definition client (auth : option (list Z)) (body : list (list Z)) : Client :=
  mkClient auth (Some (Z.of_nat (length (concat body)))) body [].

Lemma read_body_terminates_witness :
  let '(r, (k', m)) := read_body (H := counted) (client None [lit "{}"; lit " "], 0%nat) in
  r = Ok (lit "{} ") ∧ m = 2%nat ∧ (m ≤ MAX_BODY_LEN)%nat.
Proof.
  pose proof (read_body_terminates client_laws (client None [lit "{}"; lit " "]) 0) as H.
  destruct (read_body (H := counted) _) as [r [k' m]] eqn:E. destruct H as (_ & Hm & _).
  vm_compute in E. injection E as <- <- <-. split; [reflexivity|]. split; [reflexivity|exact Hm].
Defined.

Definition second_clock (n : nat) : Z := 1000000 * Z.of_nat n.
Definition unlocked (_ : Mutex) : bool := true.

Definition submission (auth : option (list Z)) : Client :=
  client auth [jlit "{'command':"; jlit " 'WIPE'}"].

#[local] Instance web_service : BoltyService (Esp32 Sim) :=
  esp32_service (C := toy_aes) sample_planner no_verify sample_rng no_debug.
#[local] Instance web_sync : RestBoltyService (Esp32 Sim) := sync_from.

Definition tokens_config : BoltyConfig := set_tokens (Some (lit "s3cret")) staged_config.
Definition guarded_device : Device (Esp32 Sim) :=
  mkDevice (Esp32_new (Some sim_factory) tokens_config None) tokens_config ValidityGate_new.

Definition boot_rest (k : Client) : Rest (Esp32 Sim) Client :=
  mkRest guarded_device RateLimiter_new JobSlot_new 0 k.

(** Three submissions; the second comes within the cool-down and is turned away
    by its check. *)
Definition burst : list (Arrival (S := Esp32 Sim) (K := Client)) :=
  let req idle := mkArrival Ep_JobSubmit (submission (Some (lit "bearer s3cret"))) guarded_device JobSlot_new idle in
  [req 9%nat; req 1%nat; req 6%nat].

Lemma rest_writes_spaced_witness :
  Sorted spaced (0 :: write_times second_clock unlocked burst (boot_rest (submission None))) ∧
  write_times second_clock unlocked burst (boot_rest (submission None)) = [10000000; 20000000].
Proof.
  split; [|vm_compute; reflexivity].
  apply (rest_writes_spaced second_clock unlocked burst (boot_rest (submission None)));
    [intros i j ?; unfold second_clock; lia|reflexivity].
Defined.

Lemma rest_effects_witness :
  rest_card (handle second_clock unlocked Ep_Inspect
    (boot_rest (client (Some (lit "Bearer s3cret")) []))).2 = Some (card sim_factory) ∧
  Ep_Inspect ≠ Ep_Burn.
Proof.
  pose proof (rest_effects (C := toy_aes) sample_planner no_verify sample_rng no_debug second_clock unlocked
    Ep_Inspect (boot_rest (client (Some (lit "Bearer s3cret")) []))) as H.
  destruct H as ([H|[H|H]] & _); [discriminate..|]. split; [exact H|discriminate].
Defined.

Definition boot_system : System (T := Sim) :=
  mkSystem (mkFirmware guarded_device LineAssembler_new false false 0 Op_Idle JobSlot_new)
    RateLimiter_new 0.

(** A client without the token tries every write; the loop polls, runs jobs and
    reads a console line. *)
Definition siege : list (SysEvent (K := Client)) :=
  [Sys_Fw Fw_Poll; Sys_Http Ep_JobSubmit (submission (Some (lit "Bearer guess"))); Sys_Fw Fw_RunJob;
   Sys_Http Ep_Burn (client None []); Sys_Http Ep_Wipe (client (Some (lit "Basic s3cret")) []);
   Sys_Fw (Fw_Ble (lit "wipe")); Sys_Fw Fw_RunJob; Sys_Http Ep_Status (client None [])].

Lemma system_card_guard_witness :
  sys_card (sys_run (C := toy_aes) sample_planner no_verify sample_rng no_debug second_clock unlocked
    Some (λ _, WR_Success) 3 3 true siege boot_system) = Some (card sim_factory).
Proof.
  apply (system_card_guard (C := toy_aes) sample_planner no_verify sample_rng no_debug second_clock unlocked
    Some (λ _, WR_Success) 3 3 true siege boot_system); [discriminate|].
  intros pre ev post E Ho. unfold siege in E.
  do 8 (destruct pre as [|? pre]; [injection E as <- _;
    first [ destruct Ho as (_ & Ho & _); vm_compute in Ho; discriminate Ho | exact Ho
          | destruct Ho as (text & Ho & _); discriminate Ho ] | injection E as <- E]).
  destruct pre; discriminate E.
Defined.
