(* ===== verification/RestJson.v ===== *)
(** * The JSON of the HTTP interface

    The writer [push_escaped_json] and the reader [extract_json_string] of
    [apps/bolty-esp32/src/rest.rs] against each other and against a reference
    for JSON strings. *)

From S2P Require Import Prelude Str Hex Derivation Assessment Commands Workflow Firmware Rest.

(** ** Characters of valid UTF-8 *)

Lemma utf8_head n s : utf8_valid n s = true → match s with c :: _ => is_cont c = false | [] => True end.
Proof.
  destruct n, s as [|a s]; simpl; try done. unfold is_cont. intros Hv.
  apply bool_decide_eq_false. intros Hc.
  rewrite decide_False in Hv by lia. destruct s as [|b s]; [done|].
  rewrite decide_False in Hv by lia. destruct s as [|c s]; [done|].
  rewrite decide_False in Hv by lia. destruct s as [|d s]; [done|].
  rewrite !bool_decide_eq_false_2 in Hv by lia. done.
Qed.

Lemma chars_cons a s : chars (a :: s) =
  match chars s with
  | (d :: r) :: gs => if is_cont d then (a :: d :: r) :: gs else [a] :: (d :: r) :: gs
  | gs => [a] :: gs
  end.
Proof. done. Qed.

(** A byte followed by continuation bytes and then a character boundary. *)
Lemma chars_group a g s :
  Forall (λ c, is_cont c = true) g → match s with c :: _ => is_cont c = false | [] => True end →
  chars (a :: g ++ s) = (a :: g) :: chars s.
Proof.
  intros Hg Hs. revert a. induction Hg as [|b g Hb Hg IH]; intros a.
  - simpl. destruct (chars s) as [|[|d r] gs] eqn:Es; [done|done|].
    pose proof (concat_chars s) as E. rewrite Es in E. destruct s as [|c s]; [done|].
    simplify_eq/=. by rewrite Hs.
  - cbn [app]. rewrite chars_cons, IH. by rewrite Hb.
Qed.

(** The escapes byte by byte: in valid UTF-8 the escaped characters stand alone. *)
Definition escape_byte (c : Z) : list Z := escape_char [c].
Definition escape (s : list Z) : list Z := c ← s; escape_byte c.

Lemma escape_cons c s : escape (c :: s) = escape_byte c ++ escape s.
Proof. done. Qed.

Lemma escape_char_group a g : 0x7F < a → escape_char (a :: g) = a :: g.
Proof. intros. unfold escape_char. repeat (rewrite decide_False by naive_solver lia). done. Qed.

Lemma escape_byte_high a : 0x7F < a → escape_byte a = [a].
Proof. apply escape_char_group. Qed.

Lemma cont_high c : is_cont c = true → 0x7F < c.
Proof. unfold is_cont. rewrite bool_decide_eq_true. lia. Qed.

Lemma escape_chars n s :
  utf8_valid n s = true → concat (escape_char <$> chars s) = escape s.
Proof.
  revert s. induction n as [|n IH]; intros s Hv.
  { simpl in Hv. apply bool_decide_eq_true in Hv as ->. done. }
  destruct s as [|a s]; [done|]. cbn [utf8_valid] in Hv.
  assert (∀ g r, Forall (λ c, is_cont c = true) g → utf8_valid n r = true → 0x7F < a →
    concat (escape_char <$> chars (a :: g ++ r)) = escape (a :: g ++ r)) as Hgroup.
  { intros g r Hg Hr Ha. rewrite chars_group by (done || by eapply utf8_head). simpl.
    rewrite escape_char_group, IH by done. unfold escape. simpl. rewrite escape_byte_high by done.
    simpl. f_equal. clear Hr. induction Hg as [|c g Hc _ IHg]; [done|]. simpl.
    rewrite escape_byte_high by (by apply cont_high). simpl. by rewrite IHg. }
  case_decide as Ha.
  { pose proof (chars_group a [] s) as Hc. simpl app in Hc. rewrite Hc by (done || by eapply utf8_head).
    simpl. by rewrite IH. }
  destruct s as [|b s]; [done|]. case_decide.
  { apply andb_true_iff in Hv as [Hb Hv]. apply (Hgroup [b]); [by repeat constructor|done|lia]. }
  destruct s as [|c s]; [done|]. case_decide.
  { apply andb_true_iff in Hv as [Hb Hv]. apply andb_true_iff in Hb as [Hb Hc].
    apply (Hgroup [b; c]); [|done|lia]. constructor; [|by repeat constructor].
    unfold is_cont. rewrite bool_decide_eq_true. rewrite !orb_true_iff, !bool_decide_eq_true in Hb. lia. }
  destruct s as [|d s]; [done|].
  apply andb_true_iff in Hv as [Hb Hv]. apply andb_true_iff in Hb as [Hb Hd].
  apply andb_true_iff in Hb as [Hb Hc].
  assert (0x7F < a ∧ is_cont b = true) as [Ha' Hb'].
  { unfold is_cont. rewrite bool_decide_eq_true. rewrite !orb_true_iff, !bool_decide_eq_true in Hb. lia. }
  apply (Hgroup [b; c; d]); [by repeat constructor|done|done].
Qed.

(** ** Writing *)

Lemma push_escaped_fits cap cs out :
  (length out + length (concat (escape_char <$> cs)) ≤ cap)%nat →
  push_escaped_chars cap cs out = (Ok (), out ++ concat (escape_char <$> cs)).
Proof.
  revert out. induction cs as [|ch cs IH]; intros out Hf; [by rewrite app_nil_r|].
  rewrite fmap_cons in *. cbn [concat push_escaped_chars] in *. rewrite length_app in Hf.
  unfold mbind, M_bind, push, push_str.
  rewrite decide_True by lia. rewrite IH by (rewrite length_app; lia). by rewrite <- app_assoc.
Qed.

Lemma push_escaped_json_fits cap s out :
  from_utf8 s = Some s → (length out + length (escape s) ≤ cap)%nat →
  ignoring (push_escaped_json cap s) out = out ++ escape s.
Proof.
  unfold from_utf8. destruct (utf8_valid (length s) s) eqn:Hv; [|done]. intros _ Hf.
  unfold ignoring, push_escaped_json. rewrite <- (escape_chars _ _ Hv) in *.
  by rewrite push_escaped_fits.
Qed.

(** ** Reading *)

(** A JSON string body decoded, for the escapes that are used here. *)
Fixpoint unescape (s : list Z) : option (list Z) :=
  match s with
  | [] => Some []
  | c :: s =>
      if decide (c = 92) then
        match s with
        | e :: s =>
            c ← (if decide (e = 92) then Some 92 else if decide (e = 34) then Some 34
                 else if decide (e = 110) then Some 10 else if decide (e = 114) then Some 13
                 else if decide (e = 116) then Some 9 else None);
            cons c <$> unescape s
        | [] => None
        end
      else if decide (c = 34) then None
      else cons c <$> unescape s
  end.

Lemma unescape_escape s : unescape (escape s) = Some s.
Proof.
  induction s as [|c s IH]; [done|]. rewrite escape_cons. unfold escape_byte, escape_char.
  repeat case_decide; simplify_eq/=; try by rewrite IH.
  rewrite !decide_False by naive_solver. by rewrite IH.
Qed.

Lemma scan_escaped s rest : scan_string false (escape s ++ 34 :: rest) = Some (escape s).
Proof.
  induction s as [|c s IH]; [done|]. rewrite escape_cons, <- app_assoc.
  unfold escape_byte, escape_char. repeat case_decide; simplify_eq/=; try by rewrite IH.
  rewrite !bool_decide_eq_false_2 by naive_solver. simpl. by rewrite IH.
Qed.

(** A text without quotes and backslashes is read as it is. *)
Lemma scan_plain s rest :
  Forall (λ c, c ≠ 34 ∧ c ≠ 92) s → scan_string false (s ++ 34 :: rest) = Some s.
Proof.
  induction 1 as [|c s [Hq Hb] _ IH]; simpl; [done|].
  rewrite !bool_decide_eq_false_2 by done. simpl. by rewrite IH.
Qed.

(** What follows the first occurrence of a pattern. *)
Definition after (p s : list Z) : option (list Z) := (λ n, drop (n + length p) s) <$> find p s.

Lemma after_here p s : after p (p ++ s) = Some s.
Proof.
  unfold after. rewrite find_here; simpl; [by rewrite drop_app_length|].
  apply starts_with_spec. by exists s.
Qed.

Lemma after_skip p c s : starts_with p (c :: s) = false → after p (c :: s) = after p s.
Proof.
  intros Hs. unfold after. cbn [find]. rewrite Hs. by destruct (find p s).
Qed.

Lemma after_free q p a s :
  Forall (λ c, c ≠ q) a → after (q :: p) (a ++ s) = after (q :: p) s.
Proof.
  induction 1 as [|c a Hc _ IH]; [done|]. simpl app. rewrite after_skip; [done|].
  unfold starts_with. simpl. by rewrite decide_False.
Qed.

Lemma extract_after body key :
  (length key ≤ 30)%nat →
  extract_json_string body key =
    (r ← after ([34] ++ key ++ [34]) body;
     r ← after (lit ":") r;
     if negb (starts_with [34] (trim_start r)) then None
     else scan_string false (drop 1 (trim_start r))).
Proof.
  intros Hk. unfold extract_json_string, push_str. rewrite decide_True by (rewrite !length_app; simpl; lia).
  cbn [mbind option_bind]. unfold after. rewrite !app_nil_l.
  destruct (find ([34] ++ key ++ [34]) body) as [n|]; [|done]. cbn [fmap option_fmap option_map].
  cbn [mbind option_bind]. by destruct (find (lit ":") _).
Qed.

(** A field [key: value] as the writers lay it out. *)
Lemma extract_field body key value rest :
  (length key ≤ 30)%nat → after ([34] ++ key ++ [34]) body = Some (jlit ":'" ++ value ++ rest) →
  extract_json_string body key = scan_string false (value ++ rest).
Proof.
  intros Hk Ha. rewrite extract_after by done. rewrite Ha.
  change (jlit ":'" ++ value ++ rest) with (lit ":" ++ 34 :: value ++ rest).
  cbn [mbind option_bind]. rewrite after_here. cbn [mbind option_bind].
  assert (trim_start (34 :: value ++ rest) = 34 :: value ++ rest) as ->; [done|]. done.
Qed.

(** ** Error replies *)

Definition err_prefix : list Z := jlit "{'ok':false,'error':'".

Lemma json_err_fits msg :
  from_utf8 msg = Some msg → (length (escape msg) ≤ 233)%nat →
  json_err msg = err_prefix ++ escape msg ++ jlit "'}".
Proof.
  intros Hu Hf. unfold json_err. rewrite (put_fits 256 []) by (vm_compute; lia). rewrite app_nil_l.
  fold err_prefix. assert (length err_prefix = 21%nat) as Hl by done.
  rewrite push_escaped_json_fits by (done || lia).
  rewrite put_fits; [by rewrite <- app_assoc|]. rewrite length_app.
  change (length (jlit "'}")) with 2%nat. lia.
Qed.

(** Skips the fixed text in front of a pattern. *)
Ltac skip_text := repeat (rewrite after_skip by reflexivity).

(** Error replies survive their own reader: for every UTF-8 message whose
    escaped form fits the 256-byte buffer, the reply of [json_err] read back with
    [extract_json_string] gives the escaped message, and decoding the escapes
    gives the message; so no text in a message can end the string early or forge
    another field. *)
Theorem json_err_roundtrip (msg : list Z) :
  from_utf8 msg = Some msg → (length (escape msg) ≤ 233)%nat →
  extract_json_string (json_err msg) (lit "error") = Some (escape msg) ∧
  unescape (escape msg) = Some msg.
Proof.
  intros Hu Hf. split; [|apply unescape_escape]. rewrite json_err_fits by done.
  rewrite (extract_field _ (lit "error") (escape msg) (jlit "'}")); [by apply scan_escaped|simpl; lia|].
  unfold err_prefix. change (jlit "{'ok':false,'error':'") with
    (jlit "{'ok':false," ++ jlit "'error'" ++ jlit ":'"). rewrite <- !app_assoc.
  generalize (jlit ":'" ++ escape msg ++ jlit "'}"). intros r.
  change (jlit "'error'") with ([34] ++ lit "error" ++ [34]).
  assert (∀ x, jlit "{'ok':false," ++ x = 123 :: 34 :: 111 :: 107 :: 34 :: 58 :: 102 :: 97 :: 108 :: 115 :: 101 :: 44 :: x) as -> by done.
  skip_text. apply after_here.
Qed.

(** ** Keys in a request *)

Lemma encode_hex_plain l : bytes l → Forall (λ c, c ≠ 34 ∧ c ≠ 92 ∧ c ≠ 107) (encode_hex l).
Proof.
  assert (∀ n, is_nibble n → hex_digit n ≠ 34 ∧ hex_digit n ≠ 92 ∧ hex_digit n ≠ 107) as Hd.
  { intros n Hn. rewrite hex_digit_val by done. unfold is_nibble in Hn. case_decide; lia. }
  induction 1 as [|b l Hb _ IH]; [constructor|]. rewrite encode_hex_cons.
  repeat constructor; [apply Hd..|done]; auto with bolty.
Qed.

Lemma AesKey_roundtrip k : array 16 k → AesKey_from_hex (encode_hex k) = Ok k.
Proof.
  intros [Hl Hb]. unfold AesKey_from_hex. rewrite <- Hl. by apply hex_decode_encode.
Qed.

(** One member ["k<d>":"<hex>"] of the object. *)
Definition key_member (d : Z) (k : AesKey) : list Z :=
  [34; 107; d; 34] ++ jlit ":'" ++ encode_hex k ++ [34].

(** A body as a client writes it. *)
Definition keys_body (ks : CardKeys) : list Z :=
  lit "{" ++ key_member 48 (k0 ks) ++ lit "," ++ key_member 49 (k1 ks) ++ lit "," ++
  key_member 50 (k2 ks) ++ lit "," ++ key_member 51 (k3 ks) ++ lit "," ++ key_member 52 (k4 ks) ++ lit "}".

Lemma after_member d e k rest :
  d ≠ e → e ≠ 34 → bytes k →
  after [34; 107; d; 34] (key_member e k ++ lit "," ++ rest) = after [34; 107; d; 34] rest.
Proof.
  intros Hde He Hk. pose proof (encode_hex_plain k Hk) as Hh. unfold key_member. rewrite <- !app_assoc.
  change (jlit ":'" ++ encode_hex k ++ [34] ++ lit "," ++ rest) with
    (58 :: 34 :: encode_hex k ++ 34 :: 44 :: rest). simpl app.
  assert (∀ x y, starts_with [34; 107; d; 34] (x :: y) = true → x = 34) as Hq.
  { intros x y. unfold starts_with. simpl. by case_decide. }
  rewrite after_skip by (unfold starts_with; simpl; by rewrite decide_False).
  do 2 (rewrite after_skip by (apply not_true_is_false; by intros ?%Hq)).
  rewrite after_skip by done. rewrite after_skip by done.
  rewrite after_skip.
  2:{ destruct Hh as [|h l (_ & _ & Hh) _]; unfold starts_with; simpl; [done|]. by rewrite decide_False. }
  rewrite (after_free 34 [107; d; 34]) by (eapply Forall_impl; [done|]; simpl; tauto).
  by rewrite !after_skip.
Qed.

Lemma parse_member body d k rest :
  array 16 k → after [34; 107; d; 34] body = Some (jlit ":'" ++ encode_hex k ++ 34 :: rest) →
  parse_key_field body [107; d] = Ok k.
Proof.
  intros Hk Ha. unfold parse_key_field.
  rewrite (extract_field body [107; d] (encode_hex k) (34 :: rest)) by (done || simpl; lia).
  rewrite scan_plain; [cbn [ok_or and_then]; by rewrite AesKey_roundtrip|].
  destruct Hk as [_ Hb]. eapply Forall_impl; [by apply encode_hex_plain|]. simpl. tauto.
Qed.

Definition valid_keys (ks : CardKeys) : Prop :=
  array 16 (k0 ks) ∧ array 16 (k1 ks) ∧ array 16 (k2 ks) ∧ array 16 (k3 ks) ∧ array 16 (k4 ks).

(** Reads one key: skips the brace and the members before it. *)
Ltac member H Hb Hm :=
  erewrite (parse_member _ _ _ _ H);
  [cbn [and_then]|rewrite Hb; repeat (rewrite after_member by (lia || auto)); apply Hm].

(** Keys sent to /api/keys arrive unchanged: the parser reads the JSON object
    with the five keys in lower-case hex back to exactly these keys; the search
    for a field name never stops inside another field. *)
Theorem parse_card_keys_roundtrip (ks : CardKeys) :
  valid_keys ks → parse_card_keys (keys_body ks) = Ok ks.
Proof.
  intros (H0 & H1 & H2 & H3 & H4). unfold parse_card_keys.
  assert (∀ d x, after [34; 107; d; 34] (lit "{" ++ x) = after [34; 107; d; 34] x) as Hb.
  { intros d x. simpl app. by rewrite after_skip. }
  assert (∀ d k x, after [34; 107; d; 34] (key_member d k ++ x) =
    Some (jlit ":'" ++ encode_hex k ++ 34 :: x)) as Hm.
  { intros d k x. unfold key_member. rewrite <- !app_assoc, after_here. done. }
  assert (∀ k, array 16 k → bytes k) as Ha by (by intros k [_ ?]).
  unfold keys_body.
  change (lit "k0") with [107; 48]. change (lit "k1") with [107; 49]. change (lit "k2") with [107; 50].
  change (lit "k3") with [107; 51]. change (lit "k4") with [107; 52].
  member H0 Hb Hm. member H1 Hb Hm. member H2 Hb Hm. member H3 Hb Hm. member H4 Hb Hm.
  by destruct ks.
Qed.

(** ** The status reply *)

Lemma push_fits cap s out :
  (length out + length s ≤ cap)%nat → push cap s out = (Ok (), out ++ s).
Proof. intros. unfold push, push_str. by rewrite decide_True. Qed.

Lemma escaped_fits cap s out :
  from_utf8 s = Some s → (length out + length (escape s) ≤ cap)%nat →
  push_escaped_json cap s out = (Ok (), out ++ escape s).
Proof.
  unfold from_utf8. destruct (utf8_valid (length s) s) eqn:Hv; [|done]. intros _ Hf.
  unfold push_escaped_json. rewrite <- (escape_chars _ _ Hv) in *. by rewrite push_escaped_fits.
Qed.

Lemma push_quoted_fits cap s e out :
  from_utf8 s = Some s → (length out + length (escape s) + 1 + length e ≤ cap)%nat →
  ignoring (push cap [34] ;; push_escaped_json cap s ;; push cap e) out = out ++ 34 :: escape s ++ e.
Proof.
  intros Hu Hf. unfold ignoring, mbind, M_bind.
  rewrite push_fits by (simpl; lia). rewrite escaped_fits by (rewrite ?length_app; simpl; done || lia).
  rewrite push_fits by (rewrite !length_app; simpl; lia). simpl. by rewrite <- !app_assoc.
Qed.

Lemma push_json_string_fits cap s out :
  from_utf8 s = Some s → (length out + length (escape s) + 2 ≤ cap)%nat →
  ignoring (push_json_string cap s) out = out ++ 34 :: escape s ++ [34].
Proof. intros. apply push_quoted_fits; [done|simpl; lia]. Qed.

Lemma push_json_key_fits cap s out :
  from_utf8 s = Some s → (length out + length (escape s) + 3 ≤ cap)%nat →
  ignoring (push_json_key cap s) out = out ++ 34 :: escape s ++ jlit "':".
Proof. intros. apply push_quoted_fits; [done|]. change (length (jlit "':")) with 2%nat. lia. Qed.

Definition plain (s : list Z) : Prop := Forall (λ c, 32 ≤ c ≤ 126 ∧ c ≠ 34 ∧ c ≠ 92) s.

Lemma plain_utf8 s : plain s → from_utf8 s = Some s.
Proof. intros Hp. apply from_utf8_ascii. eapply Forall_impl; [done|]. simpl. lia. Qed.

Lemma plain_escape s : plain s → escape s = s.
Proof.
  induction 1 as [|c s Hc _ IH]; [done|]. rewrite escape_cons, IH. unfold escape_byte, escape_char.
  by repeat (rewrite decide_False by naive_solver lia).
Qed.

(** The characters of a shown UID: upper-case hex digits, or "none". *)
Definition uidish (s : list Z) : Prop := Forall (λ c, 48 ≤ c ≤ 70 ∨ c = 101 ∨ c = 110 ∨ c = 111) s.

Lemma uidish_plain s : uidish s → plain s.
Proof. intros Hs. eapply Forall_impl; [done|]. simpl. lia. Qed.

Lemma hex_upper_uidish n :
  is_nibble n → 48 ≤ hex_upper n ≤ 70 ∨ hex_upper n = 101 ∨ hex_upper n = 110 ∨ hex_upper n = 111.
Proof.
  intros H. left. apply nibble_cases in H.
  repeat (apply elem_of_cons in H as [->|H]; [vm_compute; intuition discriminate|]).
  by apply not_elem_of_nil in H.
Qed.

Lemma push_uid_hex_fits cap uid out :
  bytes uid → (length out + 2 * length uid ≤ cap)%nat →
  ∃ h, push_uid_hex cap uid out = (Ok (), out ++ h) ∧ uidish h ∧ length h = (2 * length uid)%nat.
Proof.
  intros Hb. revert out. induction Hb as [|b uid Hb _ IH]; intros out Hf.
  { exists []. rewrite app_nil_r. split; [done|]. split; [constructor|done]. }
  assert (∃ x y, write_02X cap b out = (Ok (), out ++ [x; y]) ∧ uidish [x; y]) as (x & y & Hw & Hp).
  { unfold write_02X. simpl in Hf. case_decide.
    - exists 48, (hex_upper b). split.
      + unfold mbind, M_bind. rewrite push_fits by (simpl; lia). rewrite push_fits by (rewrite length_app; simpl; lia).
        by rewrite <- app_assoc.
      + apply Forall_cons. split; [lia|]. apply Forall_singleton, hex_upper_uidish.
        unfold is_nibble, is_u8 in *. lia.
    - exists (hex_upper (Z.shiftr b 4)), (hex_upper (Z.land b 0xf)). rewrite push_fits by (simpl; lia).
      split; [done|]. apply Forall_cons. split; [|apply Forall_singleton];
        cbn beta; apply hex_upper_uidish; auto with bolty. }
  simpl push_uid_hex. unfold mbind, M_bind. rewrite Hw.
  destruct (IH (out ++ [x; y])) as (h & -> & Hh & Hl); [rewrite length_app; simpl in *; lia|].
  exists (x :: y :: h). rewrite <- app_assoc. split; [done|]. split; [|simpl in *; lia].
  change (x :: y :: h) with ([x; y] ++ h). by apply Forall_app.
Qed.

Lemma uid_hex_string_plain st :
  (∀ uid, ss_last_uid st = Some uid → array 7 uid) →
  uidish (uid_hex_string st) ∧ (length (uid_hex_string st) ≤ 14)%nat.
Proof.
  intros Hu. unfold uid_hex_string, ignoring. destruct (ss_last_uid st) as [uid|]; [|by split; [constructor|simpl; lia]].
  destruct (Hu uid eq_refl) as [Hl Hb].
  destruct (push_uid_hex_fits 32 uid [] Hb) as (h & -> & Hp & Hh); [simpl; lia|]. simpl. split; [done|lia].
Qed.

(** What [json_status] writes before the URL. *)
Definition status_prefix (ready : bool) (uid : list Z) : list Z :=
  jlit "{'ok':true,'nfc_ready':" ++ show_bool ready ++ jlit ",'uid':'" ++ uid ++ jlit "','lnurl'".

Lemma json_status_fits st :
  (∀ uid, ss_last_uid st = Some uid → array 7 uid) →
  let url := default (lit "none") (ss_lnurl st) in
  from_utf8 url = Some url → (length (escape url) ≤ 429)%nat →
  ∃ uid, uidish uid ∧ json_status st =
    status_prefix (ss_nfc_ready st) uid ++ jlit ":'" ++ escape url ++ jlit "'}".
Proof.
  intros Hu url Hv Hf. destruct (uid_hex_string_plain st Hu) as [Hp Hl].
  set (shown := match uid_hex_string st with [] => lit "none" | _ => uid_hex_string st end).
  assert (uidish shown ∧ (length shown ≤ 14)%nat) as [Hsu Hsl].
  { unfold shown. destruct (uid_hex_string st); [|done]. split; [|simpl; lia].
    unfold uidish. apply (bool_decide_unpack _). by vm_compute. }
  pose proof (uidish_plain _ Hsu) as Hsp.
  exists shown. split; [done|]. unfold json_status. fold shown url.
  set (e4 := ignoring (push_json_key 480 (lit "uid")) _).
  assert (e4 = jlit "'nfc_ready':" ++ show_bool (ss_nfc_ready st) ++ jlit ",'uid':") as ->
    by (unfold e4; by destruct (ss_nfc_ready st)).
  remember (jlit "'nfc_ready':" ++ show_bool (ss_nfc_ready st) ++ jlit ",'uid':") as a eqn:Ea.
  assert (length a ≤ 24)%nat as Ha by (rewrite Ea; destruct (ss_nfc_ready st); vm_compute; lia).
  rewrite (push_json_string_fits 480 shown a), (plain_escape shown) by
    (try apply plain_utf8; rewrite ?plain_escape by done; done || lia).
  clearbody shown.
  rewrite (put_fits 480 (a ++ _)) by (rewrite length_app; simpl; rewrite length_app; simpl; lia).
  remember ((a ++ 34 :: shown ++ [34]) ++ lit ",") as b eqn:Eb.
  assert (length b ≤ 41)%nat as Hb by
    (rewrite Eb, !length_app; simpl; rewrite length_app; simpl; lia).
  rewrite (push_json_key_fits 480 (lit "lnurl") b) by
    (done || (change (length (escape (lit "lnurl"))) with 5%nat; lia)).
  change (34 :: escape (lit "lnurl") ++ jlit "':") with (jlit "'lnurl':").
  remember (b ++ jlit "'lnurl':") as c eqn:Ec.
  assert (length c ≤ 49)%nat as Hc by
    (rewrite Ec, length_app; change (length (jlit "'lnurl':")) with 8%nat; lia).
  rewrite push_json_string_fits by (done || lia).
  remember (c ++ 34 :: escape url ++ [34]) as e eqn:Ee.
  assert (length e ≤ 480)%nat as He by (rewrite Ee, length_app; simpl; rewrite length_app; simpl; lia).
  assert (json_ok e = jlit "{'ok':true" ++ lit "," ++ e ++ lit "}") as ->.
  { unfold json_ok. assert (e ≠ []) by (rewrite Ee; by destruct c). destruct e as [|x y]; [done|].
    rewrite (put_fits 512 []), (put_fits 512 _ (lit ",")) by (vm_compute; lia).
    rewrite (put_fits 512 _ (x :: y)), put_fits by (rewrite ?length_app; simpl in *; lia).
    by rewrite <- !app_assoc. }
  rewrite Ee, Ec, Eb, Ea. unfold status_prefix. rewrite <- !app_assoc. simpl.
  by rewrite <- !app_assoc.
Qed.

Lemma after_status ready uid rest :
  uidish uid → after ([34] ++ lit "lnurl" ++ [34]) (status_prefix ready uid ++ rest) = Some rest.
Proof.
  intros Hu. unfold status_prefix. rewrite <- !app_assoc.
  change (jlit "{'ok':true,'nfc_ready':") with ([123; 34; 111; 107; 34; 58; 116; 114; 117; 101; 44; 34;
    110; 102; 99; 95; 114; 101; 97; 100; 121; 34; 58]).
  change (jlit "','lnurl'" ++ rest) with (34 :: 44 :: ([34] ++ lit "lnurl" ++ [34]) ++ rest).
  remember (([34] ++ lit "lnurl" ++ [34]) ++ rest) as tail eqn:Et.
  cbn [app]. skip_text.
  assert (∀ x, after ([34] ++ lit "lnurl" ++ [34]) (show_bool ready ++ x) =
    after ([34] ++ lit "lnurl" ++ [34]) x) as ->.
  { intros x. destruct ready; cbn [show_bool]; by apply (after_free 34); vm_compute; repeat constructor. }
  change (jlit ",'uid':'") with [44; 34; 117; 105; 100; 34; 58; 34]. cbn [app]. skip_text.
  rewrite after_skip.
  2:{ change (lit "lnurl") with [108; 110; 117; 114; 108].
      destruct Hu as [|c u Hc _]; unfold starts_with; simpl; [done|]. by rewrite decide_False by lia. }
  etransitivity; [apply (after_free 34 (lit "lnurl" ++ [34]) uid); eapply Forall_impl; [done|]; simpl; lia|].
  skip_text. rewrite Et. apply after_here.
Qed.

(** A URL set over HTTP is reported as it was sent: the parser of /api/url
    reads a URL of at most 256 printable characters without quotes and
    backslashes exactly as the client wrote it, and a status reply for a service
    that holds it, with any UID, gives the same text back under "lnurl". *)
Theorem url_report_roundtrip (url : list Z) (ready : bool) (uid : option (list Z)) :
  plain url → (length url ≤ LNURL_CAP)%nat → (∀ u, uid = Some u → array 7 u) →
  extract_json_string (jlit "{'url':'" ++ url ++ jlit "'}") (lit "url") = Some url ∧
  push_str LNURL_CAP [] url = Some url ∧
  extract_json_string (json_status (mkServiceStatus uid ready (Some url))) (lit "lnurl") = Some url.
Proof.
  intros Hp Hl Hu. unfold LNURL_CAP in *. split; [|split].
  - rewrite (extract_field _ (lit "url") url (jlit "'}")); [|simpl; lia|].
    + apply scan_plain. eapply Forall_impl; [done|]. simpl. tauto.
    + change (jlit "{'url':'" ++ url ++ jlit "'}") with
        (123 :: ([34] ++ lit "url" ++ [34]) ++ (jlit ":'" ++ url ++ jlit "'}")).
      rewrite after_skip by done. apply after_here.
  - by apply heapless_from_spec.
  - destruct (json_status_fits (mkServiceStatus uid ready (Some url))) as (shown & Hs & ->).
    + done.
    + simpl. by apply plain_utf8.
    + simpl. rewrite plain_escape by done. lia.
    + simpl. rewrite (plain_escape url) by done.
      rewrite (extract_field _ (lit "lnurl") url (jlit "'}")); [|simpl; lia|by apply after_status].
      apply scan_plain. eapply Forall_impl; [done|]. simpl. tauto.
Qed.

(** ** Instances *)

Definition odd_message : list Z := jlit "field 'k0' is missing" ++ [10; 92] ++ lit "— retry".

Lemma json_err_roundtrip_witness :
  extract_json_string (json_err odd_message) (lit "error") = Some (escape odd_message) ∧
  unescape (escape odd_message) = Some odd_message.
Proof. apply (json_err_roundtrip odd_message); [reflexivity|vm_compute; lia]. Defined.

Definition client_keys : CardKeys :=
  mkCardKeys (replicate 16 0xA0) (replicate 16 0xB1) (replicate 16 0xC2) (replicate 16 0xD3) (replicate 16 0x4F).

Lemma parse_card_keys_roundtrip_witness :
  valid_keys client_keys ∧ parse_card_keys (keys_body client_keys) = Ok client_keys.
Proof.
  assert (valid_keys client_keys) as Hv
    by (unfold valid_keys; split_and!; apply (bool_decide_unpack _); vm_compute; exact I).
  split; [exact Hv|]. exact (parse_card_keys_roundtrip client_keys Hv).
Defined.

Lemma url_report_roundtrip_witness :
  extract_json_string (json_status (mkServiceStatus (Some [4; 160; 57; 73; 56; 112; 128]) true
    (Some (lit "https://card.example/?p={picc:uid+ctr}&c={mac}")))) (lit "lnurl") =
  Some (lit "https://card.example/?p={picc:uid+ctr}&c={mac}").
Proof.
  apply (url_report_roundtrip (lit "https://card.example/?p={picc:uid+ctr}&c={mac}") true
    (Some [4; 160; 57; 73; 56; 112; 128])).
  - unfold plain. apply (bool_decide_unpack _). vm_compute. exact I.
  - vm_compute. lia.
  - intros u [= <-]. apply (bool_decide_unpack _). vm_compute. exact I.
Defined.
