(* ===== verification/Nvs.v ===== *)
(** * Settings kept in flash

    [apps/bolty-esp32/src/firmware/nvs.rs] (the key-value store of ESP-IDF behind
    the firmware's settings), [tls.rs] (who reads the certificate) and
    [crates/bolty-core/src/wifi_creds.rs] (stored Wi-Fi credentials).  The store
    is the interface [NvsApi]; its laws follow the documentation of the C
    functions: a failed write may or may not have taken effect, and only a
    committed value is sure to survive a reset. *)

From stdpp Require Import gmap.
From S2P Require Import Prelude Str Hex Assessment.

(** ** The store *)

Inductive NvsMode : Type := ReadOnly | ReadWrite.

Inductive NvsValue : Type :=
| V_u8 (v : Z) | V_u32 (v : Z) | V_str (s : list Z) | V_blob (b : list Z).

#[export] Instance NvsValue_eq_dec : EqDecision NvsValue.
Proof. solve_decision. Defined.

Definition Handle : Type := Z.
Definition EspErr : Type := Z.

(** A call that returns [ESP_OK] is [Ok] with its out-parameters.  The two calls
    of [nvs_get_str] and [nvs_get_blob], with a null pointer to learn the length
    and with a buffer, are separate operations; the length of a string counts its
    terminating NUL. *)
Class NvsApi (F : Type) : Type := {
  nvs_flash_init : M F EspErr ();
  nvs_open : NvsMode → M F EspErr Handle;
  nvs_close : Handle → F → F;
  nvs_commit : Handle → M F EspErr ();
  nvs_get_u8 : Handle → list Z → M F EspErr Z;
  nvs_get_u32 : Handle → list Z → M F EspErr Z;
  nvs_str_len : Handle → list Z → M F EspErr Z;
  nvs_get_str : Handle → list Z → Z → M F EspErr (list Z);
  nvs_blob_len : Handle → list Z → M F EspErr Z;
  nvs_get_blob : Handle → list Z → Z → M F EspErr (list Z);
  nvs_set : Handle → list Z → NvsValue → M F EspErr () }.

(** The C string in a zero-padded buffer. *)
Fixpoint c_string (buf : list Z) : list Z :=
  match buf with
  | [] => []
  | c :: buf => if decide (c = 0) then [] else c :: c_string buf
  end.

(** ** nvs.rs *)

Section nvs.
  Context {F : Type} {N : NvsApi F}.

(** The static [NVS_READY] and the flash. *)
Record Flash : Type := mkFlash { nvs_ready : bool; flash : F }.

Definition init (s : Flash) : Flash :=
  if nvs_ready s then s
  else let '(rc, f) := nvs_flash_init (flash s) in mkFlash (is_ok rc) f.

(** One call on the flash. *)
Definition on_flash {A} (m : M F EspErr A) : M Flash EspErr A := λ s,
  let '(r, f) := m (flash s) in (r, mkFlash (nvs_ready s) f).
Definition close (h : Handle) (s : Flash) : Flash := mkFlash (nvs_ready s) (nvs_close h (flash s)).

(** [nvs_open] ... [nvs_close] around a body that is left on every path; [dflt]
    is returned when the namespace cannot be opened. *)
Definition opened {A} (mode : NvsMode) (dflt : A) (body : Handle → Flash → A * Flash) (s : Flash) :
    A * Flash :=
  match on_flash (nvs_open mode) s with
  | (Err _, s) => (dflt, s)
  | (Ok h, s) => let '(a, s) := body h s in (a, close h s)
  end.

(** [init();] as the first statement. *)
Definition initialised {A} (m : Flash → A * Flash) (s : Flash) : A * Flash := m (init s).

Definition MAX_LNURL_LEN : Z := 256.
Definition MAX_BTN_MODE_LEN : Z := 16.

(** The body shared by [load_lnurl] and [load_button_mode]. *)
Definition load_str (key : list Z) (max : Z) : Flash → option (list Z) * Flash :=
  initialised (opened ReadOnly None (λ h s,
    match on_flash (nvs_str_len h key) s with
    | (Err _, s) => (None, s)
    | (Ok required, s) =>
        if decide (required = 0 ∨ max + 1 < required) then (None, s)
        else
          match on_flash (nvs_get_str h key (max + 1)) s with
          | (Err _, s) => (None, s)
          | (Ok buf, s) =>
              (str ← from_utf8 (take (length buf - 1) buf); push_str (Z.to_nat max) [] str, s)
          end
    end)).

(** The body shared by [save_lnurl] and [save_button_mode]. *)
Definition save_str (key : list Z) (max : Z) (text : list Z) (s : Flash) : bool * Flash :=
  let s := init s in
  if decide (max ≤ Z.of_nat (length text)) then (false, s)
  else
    let buf := text ++ replicate (Z.to_nat max + 1 - length text) 0 in
    opened ReadWrite false (λ h s,
      match on_flash (nvs_set h key (V_str (c_string buf))) s with
      | (Err _, s) => (false, s)
      | (Ok _, s) => let '(rc, s) := on_flash (nvs_commit h) s in (is_ok rc, s)
      end) s.

Definition load_lnurl : Flash → option (list Z) * Flash := load_str (lit "lnurl") MAX_LNURL_LEN.
Definition save_lnurl : list Z → Flash → bool * Flash := save_str (lit "lnurl") MAX_LNURL_LEN.
Definition load_button_mode : Flash → option (list Z) * Flash := load_str (lit "btn_mode") MAX_BTN_MODE_LEN.
Definition save_button_mode : list Z → Flash → bool * Flash := save_str (lit "btn_mode") MAX_BTN_MODE_LEN.

(** A numeric setting: set, and commit if that went well. *)
Definition save_num (key : list Z) (v : NvsValue) : Flash → () * Flash :=
  initialised (opened ReadWrite () (λ h s,
    match on_flash (nvs_set h key v) s with
    | (Ok _, s) => ((), (on_flash (nvs_commit h) s).2)
    | (Err _, s) => ((), s)
    end)).

Definition save_force_flag (force : bool) : Flash → () * Flash :=
  save_num (lit "force") (V_u8 (if force then 1 else 0)).

Definition load_force_flag : Flash → bool * Flash :=
  initialised (opened ReadOnly false (λ h s,
    match on_flash (nvs_get_u8 h (lit "force")) s with
    | (Ok value, s) => (bool_decide (value ≠ 0), s)
    | (Err _, s) => (false, s)
    end)).

Definition load_boot_count : Flash → Z * Flash :=
  initialised (opened ReadOnly 0 (λ h s,
    match on_flash (nvs_get_u32 h (lit "bootcnt")) s with
    | (Ok value, s) => (value, s)
    | (Err _, s) => (0, s)
    end)).

Definition save_boot_count (count : Z) : Flash → () * Flash :=
  save_num (lit "bootcnt") (V_u32 count).

(** Both values are set, whatever the first call returned. *)
Definition save_crash_info (reason boot_count : Z) : Flash → () * Flash :=
  initialised (opened ReadWrite () (λ h s,
    let '(rc_reason, s) := on_flash (nvs_set h (lit "crashrsn") (V_u8 reason)) s in
    let '(rc_boot, s) := on_flash (nvs_set h (lit "crashboot") (V_u32 boot_count)) s in
    ((), if is_ok rc_reason && is_ok rc_boot then (on_flash (nvs_commit h) s).2 else s))).

Definition load_crash_info : Flash → option (Z * Z) * Flash :=
  initialised (opened ReadOnly None (λ h s,
    let '(rc_reason, s) := on_flash (nvs_get_u8 h (lit "crashrsn")) s in
    let '(rc_boot, s) := on_flash (nvs_get_u32 h (lit "crashboot")) s in
    (match rc_reason, rc_boot with
     | Ok reason, Ok boot_count => Some (reason, boot_count)
     | _, _ => None
     end, s))).

Definition MAX_CERT_DER_LEN : Z := 2048.
Definition MAX_KEY_DER_LEN : Z := 2048.

Definition save_cert_der (cert key : list Z) (s : Flash) : bool * Flash :=
  if decide (MAX_CERT_DER_LEN < Z.of_nat (length cert) ∨ MAX_KEY_DER_LEN < Z.of_nat (length key))
  then (false, s)
  else
    initialised (opened ReadWrite false (λ h s,
      let '(rc_cert, s) := on_flash (nvs_set h (lit "certder") (V_blob cert)) s in
      let '(rc_key, s) := on_flash (nvs_set h (lit "keyder") (V_blob key)) s in
      if is_ok rc_cert && is_ok rc_key
      then let '(rc, s) := on_flash (nvs_commit h) s in (is_ok rc, s)
      else (false, s))) s.

(** Length, then content, of one blob of at most [max] bytes. *)
Definition read_blob (h : Handle) (key : list Z) (max : Z) (s : Flash) : option (list Z) * Flash :=
  match on_flash (nvs_blob_len h key) s with
  | (Err _, s) => (None, s)
  | (Ok len, s) =>
      if decide (len = 0 ∨ max < len) then (None, s)
      else let '(r, s) := on_flash (nvs_get_blob h key len) s in (ok r, s)
  end.

Definition load_cert_der : Flash → option (list Z * list Z) * Flash :=
  initialised (opened ReadOnly None (λ h s,
    match read_blob h (lit "certder") MAX_CERT_DER_LEN s with
    | (None, s) => (None, s)
    | (Some cert, s) =>
        match read_blob h (lit "keyder") MAX_KEY_DER_LEN s with
        | (None, s) => (None, s)
        | (Some key, s) => (Some (cert, key), s)
        end
    end)).

Definition has_cert : Flash → bool * Flash :=
  initialised (opened ReadOnly false (λ h s,
    match on_flash (nvs_blob_len h (lit "certder")) s with
    | (Ok len, s) => (bool_decide (0 < len), s)
    | (Err _, s) => (false, s)
    end)).

Definition save_ota_pubkey (key : list Z) : Flash → bool * Flash :=
  initialised (opened ReadWrite false (λ h s,
    match on_flash (nvs_set h (lit "otakey") (V_blob key)) s with
    | (Ok _, s) => let '(rc, s) := on_flash (nvs_commit h) s in (is_ok rc, s)
    | (Err _, s) => (false, s)
    end)).

Definition load_ota_pubkey : Flash → option (list Z) * Flash :=
  initialised (opened ReadOnly None (λ h s,
    match on_flash (nvs_blob_len h (lit "otakey")) s with
    | (Err _, s) => (None, s)
    | (Ok len, s) =>
        if decide (len ≠ 32) then (None, s)
        else let '(r, s) := on_flash (nvs_get_blob h (lit "otakey") 32) s in (ok r, s)
    end)).

(** ** tls.rs: the pair the HTTP server starts with *)

Definition server_cert_and_key : Flash → option (list Z * list Z) * Flash := load_cert_der.
Definition is_provisioned : Flash → bool * Flash := has_cert.
End nvs.
Arguments Flash : clear implicits.
Arguments mkFlash {F} _ _.

(** ** wifi_creds.rs *)

Definition KEY_SSID : list Z := lit "ssid".
Definition KEY_PASS : list Z := lit "pass".

Definition decode_creds_blob (cap : nat) (bytes : list Z) : option (list Z) :=
  str ← from_utf8 bytes; heapless_from cap str.

Definition decode_creds_pair (ssid_bytes pass_bytes : option (list Z)) : option (list Z * list Z) :=
  s ← ssid_bytes;
  ssid ← decode_creds_blob 32 s;
  p ← pass_bytes;
  password ← decode_creds_blob 64 p;
  Some (ssid, password).

(** ** What the store promises

    [nvs_stored] is what a read returns, [nvs_durable] what a read after a reset
    would return. *)

Class NvsLaws {F} (N : NvsApi F) : Type := {
  nvs_handles : F → list Handle;
  nvs_stored : F → list Z → option NvsValue;
  nvs_durable : F → list Z → option NvsValue;
  same_nvs f f' := nvs_handles f' = nvs_handles f ∧
    (∀ k, nvs_stored f' k = nvs_stored f k) ∧ (∀ k, nvs_durable f' k = nvs_durable f k);
  law_init f : wp nvs_flash_init (λ _ f', same_nvs f f') f;
  law_open mode f : wp (nvs_open mode) (λ r f',
    nvs_handles f' = (match r with Ok h => h :: nvs_handles f | Err _ => nvs_handles f end) ∧
    (∀ k, nvs_stored f' k = nvs_stored f k) ∧ (∀ k, nvs_durable f' k = nvs_durable f k)) f;
  law_close h hs f : nvs_handles f = h :: hs →
    nvs_handles (nvs_close h f) = hs ∧
    (∀ k, nvs_stored (nvs_close h f) k = nvs_stored f k) ∧
    (∀ k, nvs_durable (nvs_close h f) k = nvs_durable f k);
  law_get_u8 h k f : h ∈ nvs_handles f →
    wp (nvs_get_u8 h k) (λ r f', same_nvs f f' ∧ ∀ v, r = Ok v → nvs_stored f k = Some (V_u8 v)) f;
  law_get_u32 h k f : h ∈ nvs_handles f →
    wp (nvs_get_u32 h k) (λ r f', same_nvs f f' ∧ ∀ v, r = Ok v → nvs_stored f k = Some (V_u32 v)) f;
  law_str_len h k f : h ∈ nvs_handles f →
    wp (nvs_str_len h k) (λ r f', same_nvs f f' ∧
      ∀ n, r = Ok n → ∃ s, nvs_stored f k = Some (V_str s) ∧ n = Z.of_nat (length s) + 1) f;
  law_get_str h k cap f : h ∈ nvs_handles f →
    wp (nvs_get_str h k cap) (λ r f', same_nvs f f' ∧
      ∀ b, r = Ok b → ∃ s, nvs_stored f k = Some (V_str s) ∧ b = s ++ [0]) f;
  law_blob_len h k f : h ∈ nvs_handles f →
    wp (nvs_blob_len h k) (λ r f', same_nvs f f' ∧
      ∀ n, r = Ok n → ∃ b, nvs_stored f k = Some (V_blob b) ∧ n = Z.of_nat (length b)) f;
  law_get_blob h k cap f : h ∈ nvs_handles f →
    wp (nvs_get_blob h k cap) (λ r f', same_nvs f f' ∧
      ∀ b, r = Ok b → nvs_stored f k = Some (V_blob b)) f;
  law_set h k v f : h ∈ nvs_handles f →
    wp (nvs_set h k v) (λ r f', nvs_handles f' = nvs_handles f ∧
      (∀ k', k' ≠ k → nvs_stored f' k' = nvs_stored f k' ∧ nvs_durable f' k' = nvs_durable f k') ∧
      (r = Ok () → nvs_stored f' k = Some v) ∧
      (nvs_stored f' k = nvs_stored f k ∨ nvs_stored f' k = Some v) ∧
      (nvs_durable f' k = nvs_durable f k ∨ nvs_durable f' k = Some v)) f;
  law_commit h f : h ∈ nvs_handles f →
    wp (nvs_commit h) (λ r f', nvs_handles f' = nvs_handles f ∧
      (∀ k, nvs_stored f' k = nvs_stored f k) ∧
      (∀ k, nvs_durable f' k = nvs_durable f k ∨ nvs_durable f' k = nvs_stored f k) ∧
      (r = Ok () → ∀ k, nvs_durable f' k = nvs_stored f k)) f }.

(** A store whose reads do not fail. *)
Class NvsLive {F} {N : NvsApi F} (L : NvsLaws N) : Prop := {
  live_open f : is_ok (nvs_open ReadOnly f).1 = true;
  live_str_len h k f s : h ∈ nvs_handles f → nvs_stored f k = Some (V_str s) →
    is_ok (nvs_str_len h k f).1 = true;
  live_get_str h k cap f s : h ∈ nvs_handles f → nvs_stored f k = Some (V_str s) →
    Z.of_nat (length s) + 1 ≤ cap → is_ok (nvs_get_str h k cap f).1 = true;
  live_get_u8 h k f v : h ∈ nvs_handles f → nvs_stored f k = Some (V_u8 v) →
    is_ok (nvs_get_u8 h k f).1 = true;
  live_get_u32 h k f v : h ∈ nvs_handles f → nvs_stored f k = Some (V_u32 v) →
    is_ok (nvs_get_u32 h k f).1 = true;
  live_blob_len h k f b : h ∈ nvs_handles f → nvs_stored f k = Some (V_blob b) →
    is_ok (nvs_blob_len h k f).1 = true;
  live_get_blob h k cap f b : h ∈ nvs_handles f → nvs_stored f k = Some (V_blob b) →
    Z.of_nat (length b) ≤ cap → is_ok (nvs_get_blob h k cap f).1 = true }.

Section frames.
  Context {F : Type} {N : NvsApi F} {L : NvsLaws N}.

  Local Notation St := (Flash F).

Definition fhandles (s : St) : list Handle := nvs_handles (flash s).
Definition fstored (s : St) : list Z → option NvsValue := nvs_stored (flash s).
Definition fdurable (s : St) : list Z → option NvsValue := nvs_durable (flash s).

(** Handles as before, and outside the keys [K] nothing changed, except that a
    commit may have made an earlier write durable. *)
Definition within (K : list (list Z)) (s s' : St) : Prop :=
  fhandles s' = fhandles s ∧
  ∀ k, k ∉ K → fstored s' k = fstored s k ∧
    (fdurable s' k = fdurable s k ∨ fdurable s' k = fstored s k).

#[export] Instance within_preorder K : PreOrder (within K).
Proof.
  split; [intros s; split; auto|]. intros s1 s2 s3 [H1 K1] [H2 K2]. split; [congruence|].
  intros k Hk. destruct (K1 k Hk) as [? [?|?]], (K2 k Hk) as [? [?|?]]; split; (congruence || (left; congruence) || (right; congruence)).
Qed.

Lemma within_same K (s : St) f' : same_nvs (flash s) f' → within K s (mkFlash (nvs_ready s) f').
Proof. intros (H1 & H2 & H3). split; [done|]. intros k _. split; [apply H2|left; apply H3]. Qed.

Lemma within_init K (s : St) : within K s (init s).
Proof.
  unfold init. destruct (nvs_ready s) eqn:Hr; [reflexivity|]. pose proof (law_init (flash s)) as Hi.
  unfold wp in Hi. destruct (nvs_flash_init (flash s)) as [rc f]. destruct Hi as (H1 & H2 & H3).
  split; [done|]. intros k _. split; [apply H2|left; apply H3].
Qed.

(** A call that stays within [K] while the handle is open. *)
Definition tame (K : list (list Z)) (h : Handle) {A} (m : M St EspErr A) : Prop :=
  ∀ s, h ∈ fhandles s → within K s (m s).2.

Lemma tame_call K h {A} (m : M F EspErr A) (Q : result A EspErr → F → F → Prop) :
  (∀ f, h ∈ nvs_handles f → wp m (λ r f', same_nvs f f' ∧ Q r f f') f) → tame K h (on_flash m).
Proof.
  intros Hm s Hs. specialize (Hm (flash s) Hs). unfold wp in Hm. unfold on_flash.
  destruct (m (flash s)) as [r f']. apply within_same, Hm.
Qed.

Lemma tame_set K h k v : k ∈ K → tame K h (on_flash (nvs_set h k v)).
Proof.
  intros Hk s Hs. pose proof (law_set h k v (flash s) Hs) as Hm. unfold wp in Hm. unfold on_flash.
  destruct (nvs_set h k v (flash s)) as [r f']. destruct Hm as (H1 & H2 & _). split; [done|].
  intros k' Hk'. destruct (H2 k'); [by intros ->|]. auto.
Qed.

Lemma tame_commit K h : tame K h (on_flash (nvs_commit h)).
Proof.
  intros s Hs. pose proof (law_commit h (flash s) Hs) as Hm. unfold wp in Hm. unfold on_flash.
  destruct (nvs_commit h (flash s)) as [r f']. destruct Hm as (H1 & H2 & H3 & _). split; [done|].
  intros k _. split; [apply H2|apply H3].
Qed.

(** A body between [nvs_open] and [nvs_close]. *)
Definition tame_body (K : list (list Z)) {A} (body : Handle → St → A * St) : Prop :=
  ∀ h s, h ∈ fhandles s → within K s (body h s).2.

Lemma opened_within K {A} mode (dflt : A) body s :
  tame_body K body → within K s (opened mode dflt body s).2.
Proof.
  intros Hb. unfold opened, on_flash. pose proof (law_open mode (flash s)) as Ho. unfold wp in Ho.
  destruct (nvs_open mode (flash s)) as [[h|e] f]; simpl in *; destruct Ho as (H1 & H2 & H3).
  2:{ split; [done|]. intros k _. split; [apply H2|left; apply H3]. }
  specialize (Hb h (mkFlash (nvs_ready s) f)). destruct (body h _) as [a s'].
  destruct Hb as [Hh Hk]; [unfold fhandles; simpl; rewrite H1; by left|]. simpl in *.
  unfold fhandles in Hh. simpl in Hh. rewrite H1 in Hh.
  destruct (law_close h _ _ Hh) as (C1 & C2 & C3). split; [done|].
  intros k Hnk. destruct (Hk k Hnk) as [Hs Hd]. unfold fstored, fdurable, close in *. simpl in *.
  rewrite C2, C3, Hs, H2. split; [done|]. by rewrite H2, H3 in Hd.
Qed.

Lemma initialised_within K {A} (m : St → A * St) s :
  (∀ s, within K s (m s).2) → within K s (initialised m s).2.
Proof. intros Hm. etransitivity; [apply within_init|apply Hm]. Qed.

Lemma tame_run K {A} h (m : M St EspErr A) s : tame K h m → h ∈ fhandles s →
  within K s (m s).2 ∧ h ∈ fhandles (m s).2.
Proof. intros Hm Hs. split; [by apply Hm|]. destruct (Hm s Hs) as [-> _]. done. Qed.
End frames.

(** Symbolic execution of a body: each call stays within the keys. *)
Ltac nvs_call K :=
  match goal with
  | Hs : ?h ∈ fhandles ?s |- context [on_flash ?m ?s] =>
      let H := fresh "Hcall" in
      assert (tame K h (on_flash m)) as H by
        first [ apply tame_set; set_solver | apply tame_commit
              | eapply tame_call; intros; first [ by apply law_get_u8 | by apply law_get_u32
                | by apply law_str_len | by apply law_get_str | by apply law_blob_len
                | by apply law_get_blob ] ];
      let W := fresh "W" in let Hs' := fresh "Hs" in
      destruct (tame_run K h (on_flash m) s H Hs) as [W Hs'];
      destruct (on_flash m s) as [[?|?] ?]; simpl in W, Hs'; simpl; clear H Hs
  end.

Ltac nvs_frame K :=
  repeat first [ case_decide | nvs_call K | case_match ]; simpl;
  repeat (etransitivity; [eassumption|]); try reflexivity.

Lemma c_string_pad text n : Forall (λ c, c ≠ 0) text → c_string (text ++ replicate (S n) 0) = text.
Proof. induction 1 as [|c l Hc _ IH]; [done|]. cbn [app c_string]. rewrite decide_False by done. by rewrite IH. Qed.

(** ** Which values a key can hold afterwards *)

Section values.
  Context {F : Type} {N : NvsApi F} {L : NvsLaws N}.

  Local Notation St := (Flash F).

(** [k] holds the value of an entry of [W]. *)
Definition wrote (W : list (list Z * NvsValue)) (k : list Z) (o : option NvsValue) : Prop :=
  ∃ v, (k, v) ∈ W ∧ o = Some v.

(** Handles as before; a key reads as before or as an entry of [W], and after a
    reset would read as one of the three: what it held durably, what it held, an
    entry of [W]. *)
Definition writes (W : list (list Z * NvsValue)) (s s' : St) : Prop :=
  fhandles s' = fhandles s ∧
  ∀ k, (fstored s' k = fstored s k ∨ wrote W k (fstored s' k)) ∧
    (fdurable s' k = fdurable s k ∨ fdurable s' k = fstored s k ∨ wrote W k (fdurable s' k)).

#[export] Instance writes_preorder W : PreOrder (writes W).
Proof.
  split; [intros s; split; auto|]. intros s1 s2 s3 [H1 K1] [H2 K2]. split; [congruence|].
  intros k. destruct (K1 k) as [A1 B1], (K2 k) as [A2 B2].
  split; [destruct A2 as [->|A2]; [exact A1|by right]|].
  destruct B2 as [-> | [-> | B2]]; [exact B1| |by right; right].
  destruct A1 as [->|A1]; [by right; left|by right; right].
Qed.

Lemma writes_mono W W' (s s' : St) : W ⊆ W' → writes W s s' → writes W' s s'.
Proof.
  intros HW [Hh Hk]. split; [done|]. intros k. unfold wrote in *. destruct (Hk k) as [A B].
  split; [naive_solver|]. destruct B as [|[|]]; naive_solver.
Qed.

Lemma within_writes W (s s' : St) : within [] s s' → writes W s s'.
Proof. intros [Hh Hk]. split; [done|]. intros k. destruct (Hk k) as [? [?|?]]; [set_solver|..]; auto. Qed.

Lemma writes_set W h k v (s : St) : (k, v) ∈ W → h ∈ fhandles s → writes W s (on_flash (nvs_set h k v) s).2.
Proof.
  intros HW Hs. pose proof (law_set h k v (flash s) Hs) as Hm. unfold wp, on_flash in *.
  destruct (nvs_set h k v (flash s)) as [r f']. destruct Hm as (H1 & H2 & _ & H3 & H4). split; [done|].
  intros k'. unfold fstored, fdurable. simpl in *. unfold wrote. destruct (decide (k' = k)) as [->|Hk].
  - split; [destruct H3 as [->| ->]; eauto|]. destruct H4 as [->| ->]; eauto.
  - destruct (H2 k' Hk) as [-> ->]. auto.
Qed.

Lemma writes_commit W h (s : St) : h ∈ fhandles s → writes W s (on_flash (nvs_commit h) s).2.
Proof. intros Hs. apply within_writes, (tame_commit [] h s Hs). Qed.

Lemma writes_opened W {A} mode (d : A) body (s : St) :
  (∀ h s, h ∈ fhandles s → writes W s (body h s).2) → writes W s (opened mode d body s).2.
Proof.
  intros Hb. unfold opened, on_flash. pose proof (law_open mode (flash s)) as Ho. unfold wp in Ho.
  destruct (nvs_open mode (flash s)) as [[h|e] f]; simpl in *; destruct Ho as (H1 & H2 & H3).
  2:{ split; [done|]. intros k. unfold fstored, fdurable. simpl. rewrite H2, H3. auto. }
  specialize (Hb h (mkFlash (nvs_ready s) f)). destruct (body h _) as [a s'].
  destruct Hb as [Hh Hk]; [unfold fhandles; simpl; rewrite H1; by left|]. simpl in *.
  unfold fhandles in Hh. simpl in Hh. rewrite H1 in Hh.
  destruct (law_close h _ _ Hh) as (C1 & C2 & C3). split; [done|].
  intros k. specialize (Hk k). unfold fstored, fdurable, close in *. simpl in *.
  by rewrite C2, C3, <- H2, <- H3.
Qed.

Lemma writes_handle W h (s s' : St) : writes W s s' → h ∈ fhandles s → h ∈ fhandles s'.
Proof. by intros [-> _]. Qed.

Lemma writes_init W (s : St) : writes W s (init s).
Proof. apply within_writes, within_init. Qed.

Lemma save_num_writes key v (s : St) : writes [(key, v)] s (save_num key v s).2.
Proof.
  unfold save_num, initialised. etransitivity; [apply writes_init|]. apply writes_opened. intros h s1 Hs.
  pose proof (writes_set [(key, v)] h key v s1 ltac:(set_solver) Hs) as W1.
  destruct (on_flash (nvs_set h key v) s1) as [[[]|e] s2]; simpl in *; [|done].
  etransitivity; [exact W1|]. apply writes_commit. by eapply writes_handle.
Qed.

Lemma save_str_writes key max text (s : St) :
  0 ≤ max → Forall (λ c, c ≠ 0) text → writes [(key, V_str text)] s (save_str key max text s).2.
Proof.
  intros Hm Ht. unfold save_str. etransitivity; [apply writes_init|]. case_decide; [reflexivity|].
  apply writes_opened. intros h s1 Hs.
  replace (Z.to_nat max + 1 - length text)%nat with (S (Z.to_nat max - length text)) by lia.
  rewrite c_string_pad by done.
  pose proof (writes_set [(key, V_str text)] h key (V_str text) s1 ltac:(set_solver) Hs) as W1.
  destruct (on_flash (nvs_set h key _) s1) as [[[]|e] s2]; simpl in *; [|done].
  etransitivity; [exact W1|]. pose proof (writes_commit [(key, V_str text)] h s2) as W2.
  destruct (on_flash (nvs_commit h) s2) as [rc s3]. apply W2. by eapply writes_handle.
Qed.

Lemma save_crash_writes reason boot (s : St) :
  writes [(lit "crashrsn", V_u8 reason); (lit "crashboot", V_u32 boot)] s (save_crash_info reason boot s).2.
Proof.
  unfold save_crash_info, initialised. etransitivity; [apply writes_init|]. apply writes_opened. intros h s1 Hs.
  set (W := [(lit "crashrsn", V_u8 reason); (lit "crashboot", V_u32 boot)]).
  pose proof (writes_set W h (lit "crashrsn") (V_u8 reason) s1 ltac:(set_solver) Hs) as W1.
  destruct (on_flash (nvs_set h (lit "crashrsn") _) s1) as [rc1 s2]. simpl in W1.
  pose proof (writes_handle _ _ _ _ W1 Hs) as Hs2.
  pose proof (writes_set W h (lit "crashboot") (V_u32 boot) s2 ltac:(set_solver) Hs2) as W2.
  destruct (on_flash (nvs_set h (lit "crashboot") _) s2) as [rc2 s3]. simpl in W2.
  etransitivity; [exact W1|]. etransitivity; [exact W2|]. simpl. destruct (_ && _); [|reflexivity].
  apply writes_commit. by eapply writes_handle.
Qed.
End values.

Section ops.
  Context {F : Type} {N : NvsApi F} {L : NvsLaws N}.

(** ** Every operation *)

Inductive NvsOp : Type :=
| N_LoadLnurl | N_SaveLnurl (url : list Z) | N_LoadButtonMode | N_SaveButtonMode (mode : list Z)
| N_LoadForce | N_SaveForce (b : bool) | N_LoadBoot | N_SaveBoot (n : Z)
| N_LoadCrash | N_SaveCrash (reason boot : Z) | N_LoadCert | N_SaveCert (cert key : list Z) | N_HasCert
| N_LoadOtaKey | N_SaveOtaKey (key : list Z).

Definition run_op (op : NvsOp) (s : Flash F) : Flash F :=
  match op with
  | N_LoadLnurl => (load_lnurl s).2
  | N_SaveLnurl url => (save_lnurl url s).2
  | N_LoadButtonMode => (load_button_mode s).2
  | N_SaveButtonMode mode => (save_button_mode mode s).2
  | N_LoadForce => (load_force_flag s).2
  | N_SaveForce b => (save_force_flag b s).2
  | N_LoadBoot => (load_boot_count s).2
  | N_SaveBoot n => (save_boot_count n s).2
  | N_LoadCrash => (load_crash_info s).2
  | N_SaveCrash reason boot => (save_crash_info reason boot s).2
  | N_LoadCert => (load_cert_der s).2
  | N_SaveCert cert key => (save_cert_der cert key s).2
  | N_HasCert => (has_cert s).2
  | N_LoadOtaKey => (load_ota_pubkey s).2
  | N_SaveOtaKey key => (save_ota_pubkey key s).2
  end.

(** The keys an operation may write. *)
Definition op_keys (op : NvsOp) : list (list Z) :=
  match op with
  | N_SaveLnurl _ => [lit "lnurl"]
  | N_SaveButtonMode _ => [lit "btn_mode"]
  | N_SaveForce _ => [lit "force"]
  | N_SaveBoot _ => [lit "bootcnt"]
  | N_SaveCrash _ _ => [lit "crashrsn"; lit "crashboot"]
  | N_SaveCert _ _ => [lit "certder"; lit "keyder"]
  | N_SaveOtaKey _ => [lit "otakey"]
  | _ => []
  end.

Lemma save_str_within key max text (s : Flash F) : within [key] s (save_str key max text s).2.
Proof.
  unfold save_str. etransitivity; [apply within_init|]. case_decide; [reflexivity|].
  apply opened_within. intros h s1 Hs. nvs_frame [key].
Qed.

Lemma load_str_within key max (s : Flash F) : within [] s (load_str key max s).2.
Proof. apply initialised_within. intros s1. apply opened_within. intros h s2 Hs. nvs_frame (@nil (list Z)). Qed.

Lemma run_op_within op (s : Flash F) : within (op_keys op) s (run_op op s).
Proof.
  destruct op; cbn [run_op op_keys]; try apply load_str_within; try apply save_str_within.
  all: try (apply initialised_within; intros s1; apply opened_within; intros h s2 Hs).
  all: try (nvs_frame (@nil (list Z)); fail).
  - nvs_frame [lit "force"].
  - nvs_frame [lit "bootcnt"].
  - nvs_frame [lit "crashrsn"; lit "crashboot"].
  - unfold read_blob. nvs_frame (@nil (list Z)).
  - unfold save_cert_der. case_decide; [reflexivity|]. apply initialised_within; intros s1.
    apply opened_within; intros h s2 Hs. nvs_frame [lit "certder"; lit "keyder"].
  - nvs_frame [lit "otakey"].
Qed.

Fixpoint run_ops (ops : list NvsOp) (s : Flash F) : Flash F :=
  match ops with [] => s | op :: ops => run_ops ops (run_op op s) end.

(** The settings layer never leaks or misuses a handle and never touches a
    setting it was not asked to write: after any sequence of loads and saves, with
    any of the underlying calls failing, the open handles are those from before
    (every handle opened is closed exactly once and used only while open), and
    every key outside the ones written by the sequence reads as before. *)
Theorem nvs_ops_disciplined (ops : list NvsOp) (s : Flash F) :
  fhandles (run_ops ops s) = fhandles s ∧
  ∀ k, k ∉ ops ≫= op_keys → fstored (run_ops ops s) k = fstored s k.
Proof.
  revert s. induction ops as [|op ops IH]; intros s; [done|]. simpl.
  destruct (IH (run_op op s)) as [IH1 IH2]. destruct (run_op_within op s) as [H1 H2].
  split; [congruence|]. intros k Hk. rewrite elem_of_app in Hk.
  rewrite IH2 by tauto. apply H2. tauto.
Qed.

(** ** Saved values are found again *)

Lemma opened_read {A} (LL : NvsLive L) (d : A) body (s : Flash F) :
  ∃ h s1, h ∈ fhandles s1 ∧ (∀ k, fstored s1 k = fstored s k) ∧
    (opened ReadOnly d body s).1 = (body h s1).1.
Proof.
  unfold opened, on_flash. pose proof (law_open ReadOnly (flash s)) as Ho. unfold wp in Ho.
  pose proof (live_open (flash s)) as Hl.
  destruct (nvs_open ReadOnly (flash s)) as [[h|e] f]; [|done]. simpl in *. destruct Ho as (H1 & H2 & H3).
  exists h, (mkFlash (nvs_ready s) f). split; [unfold fhandles; simpl; rewrite H1; by left|].
  split; [apply H2|]. by destruct (body h _).
Qed.

Lemma opened_write {A} K mode (d a : A) body (s s' : Flash F) :
  tame_body K body → opened mode d body s = (a, s') → a ≠ d →
  ∃ h s1 s2, h ∈ fhandles s1 ∧ (∀ k, fstored s1 k = fstored s k) ∧ body h s1 = (a, s2) ∧
    ∀ k, fstored s' k = fstored s2 k ∧ fdurable s' k = fdurable s2 k.
Proof.
  intros Hb. unfold opened, on_flash. pose proof (law_open mode (flash s)) as Ho. unfold wp in Ho.
  destruct (nvs_open mode (flash s)) as [[h|e] f]; simpl in *; destruct Ho as (H1 & H2 & H3);
    [|by intros [= <- <-]].
  specialize (Hb h (mkFlash (nvs_ready s) f)). destruct (body h _) as [a' s2] eqn:Eb.
  intros [= -> <-] _. exists h, (mkFlash (nvs_ready s) f), s2.
  assert (h ∈ fhandles (mkFlash (nvs_ready s) f)) as Hin by (unfold fhandles; simpl; rewrite H1; by left).
  destruct (Hb Hin) as [Hh _]. unfold fhandles in Hh. simpl in Hh. rewrite H1 in Hh.
  destruct (law_close h _ _ Hh) as (C1 & C2 & C3). split_and!; [done|apply H2|done|].
  intros k. unfold fstored, fdurable, close. simpl. by rewrite C2, C3.
Qed.

(** A set that worked, and a commit that worked. *)
Lemma set_ok h k v (s s' : Flash F) :
  h ∈ fhandles s → on_flash (nvs_set h k v) s = (Ok (), s') →
  h ∈ fhandles s' ∧ fstored s' k = Some v ∧ ∀ k', k' ≠ k → fstored s' k' = fstored s k'.
Proof.
  intros Hs. pose proof (law_set h k v (flash s) Hs) as Hm. unfold wp, on_flash in *.
  destruct (nvs_set h k v (flash s)) as [r f']. intros [= -> <-]. destruct Hm as (H1 & H2 & H3 & _).
  unfold fhandles, fstored. simpl in *. rewrite H1. split; [done|]. split; [auto|]. intros k' Hk. by apply H2.
Qed.

Lemma commit_ok h (s s' : Flash F) :
  h ∈ fhandles s → on_flash (nvs_commit h) s = (Ok (), s') →
  ∀ k, fstored s' k = fstored s k ∧ fdurable s' k = fstored s k.
Proof.
  intros Hs. pose proof (law_commit h (flash s) Hs) as Hm. unfold wp, on_flash in *.
  destruct (nvs_commit h (flash s)) as [r f']. intros [= -> <-]. destruct Hm as (H1 & H2 & H3 & H4).
  intros k. split; [apply H2|by apply H4].
Qed.

Lemma save_str_true key max text (s s' : Flash F) :
  0 ≤ max → Forall (λ c, c ≠ 0) text → save_str key max text s = (true, s') →
  Z.of_nat (length text) < max ∧ fstored s' key = Some (V_str text) ∧ fdurable s' key = Some (V_str text).
Proof.
  intros Hm Ht. unfold save_str. case_decide; [done|]. intros Hs. split; [lia|].
  eapply (opened_write [key]) in Hs as (h & s1 & s2 & Hh & _ & Hb & Hv); [|intros ???; nvs_frame [key]|done].
  destruct (on_flash (nvs_set h key _) s1) as [[[]|e] s3] eqn:Es; [|done].
  replace (Z.to_nat max + 1 - length text)%nat with (S (Z.to_nat max - length text)) in Es by lia.
  rewrite c_string_pad in Es by done. apply set_ok in Es as (Hh3 & Hs3 & _); [|done].
  destruct (on_flash (nvs_commit h) s3) as [[[]|e] s4] eqn:Ec; simpl in Hb; [|done].
  injection Hb as <-. destruct (commit_ok _ _ _ Hh3 Ec key) as [E1 E2]. destruct (Hv key) as [-> ->].
  by rewrite E1, E2, Hs3.
Qed.

Ltac open_read LL h s1 Hh Hs1 :=
  match goal with
  | |- (opened ReadOnly ?d ?body ?s).1 = _ =>
      destruct (opened_read LL d body s) as (h & s1 & Hh & Hs1 & ->)
  end.

Lemma same_stored {A} (m : M F EspErr A) h (Q : result A EspErr → F → Prop) (s : Flash F) :
  h ∈ fhandles s →
  (h ∈ nvs_handles (flash s) → wp m (λ r f', same_nvs (flash s) f' ∧ Q r f') (flash s)) →
  let '(r, s') := on_flash m s in
  h ∈ fhandles s' ∧ (∀ k, fstored s' k = fstored s k) ∧ Q r (flash s') ∧ r = (m (flash s)).1.
Proof.
  intros Hs Hm. specialize (Hm Hs). unfold wp, on_flash in *. destruct (m (flash s)) as [r f'].
  destruct Hm as [(H1 & H2 & H3) Hq]. unfold fhandles, fstored in *. simpl in *. rewrite H1. done.
Qed.

Lemma load_str_live (LL : NvsLive L) key max text (s : Flash F) :
  0 ≤ max → fstored s key = Some (V_str text) → from_utf8 text = Some text →
  Z.of_nat (length text) ≤ max → (load_str key max s).1 = Some text.
Proof.
  intros Hm Hst Hu Hl. unfold load_str, initialised.
  assert (fstored (init s) key = Some (V_str text)) as Hi.
  { destruct (within_init [] s) as [_ Hw]. destruct (Hw key) as [-> _]; [set_solver|done]. }
  open_read LL h s1 Hh Hs1.
  assert (fstored s1 key = Some (V_str text)) as H1 by (by rewrite Hs1).
  pose proof (same_stored (nvs_str_len h key) h _ s1 Hh (law_str_len h key (flash s1))) as Hlen.
  pose proof (live_str_len h key (flash s1) text Hh H1) as Hok.
  destruct (on_flash (nvs_str_len h key) s1) as [[n|e] s2]; destruct Hlen as (Hh2 & Hs2 & Hn & Hr);
    rewrite <- Hr in Hok; [|done].
  destruct (Hn n eq_refl) as (t' & Ht' & ->). unfold fstored in H1. rewrite H1 in Ht'. injection Ht' as <-.
  rewrite decide_False by lia.
  assert (nvs_stored (flash s2) key = Some (V_str text)) as H2 by (rewrite <- H1; apply Hs2).
  pose proof (same_stored (nvs_get_str h key (max + 1)) h _ s2 Hh2 (law_get_str h key (max + 1) (flash s2))) as Hget.
  pose proof (live_get_str h key (max + 1) (flash s2) text Hh2 H2 ltac:(lia)) as Hok2.
  destruct (on_flash (nvs_get_str h key (max + 1)) s2) as [[b|e] s3]; destruct Hget as (_ & _ & Hb & Hr2);
    rewrite <- Hr2 in Hok2; [|done].
  destruct (Hb b eq_refl) as (t' & Ht' & ->). rewrite H2 in Ht'. injection Ht' as <-. simpl.
  rewrite length_app. simpl. replace (length text + 1 - 1)%nat with (length text) by lia.
  rewrite take_app_length, Hu. simpl. unfold push_str. simpl. by rewrite decide_True by lia.
Qed.

Lemma init_stored (s : Flash F) k : fstored (init s) k = fstored s k.
Proof. destruct (within_init [] s) as [_ Hw]. apply Hw. set_solver. Qed.

Lemma read_blob_live (LL : NvsLive L) h key max b (s : Flash F) :
  h ∈ fhandles s → fstored s key = Some (V_blob b) → b ≠ [] → Z.of_nat (length b) ≤ max →
  let '(r, s') := read_blob h key max s in
  r = Some b ∧ h ∈ fhandles s' ∧ ∀ k, fstored s' k = fstored s k.
Proof.
  intros Hh Hst Hne Hl. unfold read_blob.
  pose proof (same_stored (nvs_blob_len h key) h _ s Hh (law_blob_len h key (flash s))) as Hlen.
  pose proof (live_blob_len h key (flash s) b Hh Hst) as Hok.
  destruct (on_flash (nvs_blob_len h key) s) as [[n|e] s2]; destruct Hlen as (Hh2 & Hs2 & Hn & Hr);
    rewrite <- Hr in Hok; [|done].
  destruct (Hn n eq_refl) as (b' & Hb' & ->). unfold fstored in Hst. rewrite Hst in Hb'. injection Hb' as <-.
  rewrite decide_False by (destruct b; simpl in *; [done|lia]).
  assert (nvs_stored (flash s2) key = Some (V_blob b)) as H2 by (rewrite <- Hst; apply Hs2).
  pose proof (same_stored (nvs_get_blob h key (Z.of_nat (length b))) h _ s2 Hh2
    (law_get_blob h key (Z.of_nat (length b)) (flash s2))) as Hget.
  pose proof (live_get_blob h key (Z.of_nat (length b)) (flash s2) b Hh2 H2 ltac:(lia)) as Hok2.
  destruct (on_flash (nvs_get_blob h key _) s2) as [[b'|e] s3]; destruct Hget as (Hh3 & Hs3 & Hb & Hr2);
    rewrite <- Hr2 in Hok2; [|done].
  specialize (Hb b' eq_refl). rewrite H2 in Hb. injection Hb as <-. simpl.
  split_and!; [done|done|]. intros k. by rewrite Hs3, Hs2.
Qed.

Lemma load_cert_live (LL : NvsLive L) cert key (s : Flash F) :
  fstored s (lit "certder") = Some (V_blob cert) → fstored s (lit "keyder") = Some (V_blob key) →
  cert ≠ [] → key ≠ [] → Z.of_nat (length cert) ≤ 2048 → Z.of_nat (length key) ≤ 2048 →
  (load_cert_der s).1 = Some (cert, key).
Proof.
  intros Hc Hk Hcn Hkn Hcl Hkl. unfold load_cert_der, initialised. open_read LL h s1 Hh Hs1.
  pose proof (read_blob_live LL h (lit "certder") MAX_CERT_DER_LEN cert s1 Hh) as H1.
  rewrite Hs1, init_stored in H1. specialize (H1 Hc Hcn Hcl).
  destruct (read_blob h (lit "certder") _ s1) as [r s2]. destruct H1 as (-> & Hh2 & Hs2).
  pose proof (read_blob_live LL h (lit "keyder") MAX_KEY_DER_LEN key s2 Hh2) as H2.
  rewrite Hs2, Hs1, init_stored in H2. specialize (H2 Hk Hkn Hkl).
  destruct (read_blob h (lit "keyder") _ s2) as [r s3]. by destruct H2 as (-> & _).
Qed.

Lemma save_cert_true cert key (s s' : Flash F) :
  save_cert_der cert key s = (true, s') →
  Z.of_nat (length cert) ≤ 2048 ∧ Z.of_nat (length key) ≤ 2048 ∧
  (fstored s' (lit "certder") = Some (V_blob cert) ∧ fstored s' (lit "keyder") = Some (V_blob key)) ∧
  (fdurable s' (lit "certder") = Some (V_blob cert) ∧ fdurable s' (lit "keyder") = Some (V_blob key)).
Proof.
  unfold save_cert_der, MAX_CERT_DER_LEN, MAX_KEY_DER_LEN. case_decide; [done|]. intros Hs.
  split; [lia|]. split; [lia|]. unfold initialised in Hs.
  eapply (opened_write [lit "certder"; lit "keyder"]) in Hs as (h & s1 & s2 & Hh & _ & Hb & Hv);
    [|intros ???; nvs_frame [lit "certder"; lit "keyder"]|done].
  destruct (on_flash (nvs_set h (lit "certder") _) s1) as [[[]|e] s3] eqn:E1;
    destruct (on_flash (nvs_set h (lit "keyder") _) s3) as [[[]|e'] s4] eqn:E2; simpl in Hb; try done.
  destruct (on_flash (nvs_commit h) s4) as [[[]|e] s5] eqn:Ec; simpl in Hb; [|done]. injection Hb as <-.
  apply set_ok in E1 as (Hh3 & Hc3 & _); [|done]. apply set_ok in E2 as (Hh4 & Hk4 & Ho4); [|done].
  pose proof (commit_ok _ _ _ Hh4 Ec) as Hcm.
  assert (fstored s4 (lit "certder") = Some (V_blob cert)) as Hc4 by (rewrite Ho4; done).
  destruct (Hv (lit "certder")) as [-> ->], (Hv (lit "keyder")) as [-> ->].
  destruct (Hcm (lit "certder")) as [-> ->], (Hcm (lit "keyder")) as [-> ->]. done.
Qed.

Lemma save_ota_true key (s s' : Flash F) :
  save_ota_pubkey key s = (true, s') →
  fstored s' (lit "otakey") = Some (V_blob key) ∧ fdurable s' (lit "otakey") = Some (V_blob key).
Proof.
  unfold save_ota_pubkey, initialised. intros Hs.
  eapply (opened_write [lit "otakey"]) in Hs as (h & s1 & s2 & Hh & _ & Hb & Hv);
    [|intros ???; nvs_frame [lit "otakey"]|done].
  destruct (on_flash (nvs_set h _ _) s1) as [[[]|e] s3] eqn:E1; [|done].
  destruct (on_flash (nvs_commit h) s3) as [[[]|e] s4] eqn:Ec; simpl in Hb; [|done]. injection Hb as <-.
  apply set_ok in E1 as (Hh3 & Hc3 & _); [|done]. destruct (Hv (lit "otakey")) as [-> ->].
  destruct (commit_ok _ _ _ Hh3 Ec (lit "otakey")) as [-> ->]. done.
Qed.

Lemma load_ota_live (LL : NvsLive L) key (s : Flash F) :
  fstored s (lit "otakey") = Some (V_blob key) → length key = 32%nat →
  (load_ota_pubkey s).1 = Some key.
Proof.
  intros Hk Hl. unfold load_ota_pubkey, initialised. open_read LL h s1 Hh Hs1.
  rewrite <- init_stored, <- Hs1 in Hk.
  pose proof (read_blob_live LL h (lit "otakey") 32 key s1 Hh Hk) as H1.
  assert (key ≠ []) as Hne by (by intros ->). specialize (H1 Hne ltac:(lia)). unfold read_blob in H1.
  pose proof (same_stored (nvs_blob_len h (lit "otakey")) h _ s1 Hh (law_blob_len h _ (flash s1))) as Hlen.
  destruct (on_flash (nvs_blob_len h (lit "otakey")) s1) as [[n|e] s2]; [|by destruct H1].
  destruct Hlen as (_ & _ & Hn & _). destruct (Hn n eq_refl) as (b & Hb & ->).
  unfold fstored in Hk. rewrite Hk in Hb. injection Hb as <-.
  rewrite decide_False in H1 by lia. rewrite decide_False by lia.
  replace 32 with (Z.of_nat (length key)) by lia.
  destruct (on_flash (nvs_get_blob h _ _) s2) as [r s3]. by destruct H1 as (-> & _).
Qed.

Lemma load_boot_live (LL : NvsLive L) (s : Flash F) :
  (load_boot_count s).1 = match fstored s (lit "bootcnt") with Some (V_u32 n) => n | _ => 0 end.
Proof.
  unfold load_boot_count, initialised. open_read LL h s1 Hh Hs1. rewrite <- init_stored, <- Hs1.
  pose proof (same_stored (nvs_get_u32 h (lit "bootcnt")) h _ s1 Hh (law_get_u32 h _ (flash s1))) as Hg.
  pose proof (λ v, live_get_u32 h (lit "bootcnt") (flash s1) v Hh) as Hl.
  destruct (on_flash (nvs_get_u32 h _) s1) as [[n|e] s2]; destruct Hg as (_ & _ & Hn & Hr); rewrite <- Hr in Hl.
  - unfold fstored. by rewrite (Hn n eq_refl).
  - simpl. destruct (fstored s1 (lit "bootcnt")) as [[| n | |]|] eqn:E; try done. by specialize (Hl n E).
Qed.

Lemma load_force_live (LL : NvsLive L) (s : Flash F) :
  (load_force_flag s).1 = match fstored s (lit "force") with Some (V_u8 v) => bool_decide (v ≠ 0) | _ => false end.
Proof.
  unfold load_force_flag, initialised. open_read LL h s1 Hh Hs1. rewrite <- init_stored, <- Hs1.
  pose proof (same_stored (nvs_get_u8 h (lit "force")) h _ s1 Hh (law_get_u8 h _ (flash s1))) as Hg.
  pose proof (λ v, live_get_u8 h (lit "force") (flash s1) v Hh) as Hl.
  destruct (on_flash (nvs_get_u8 h _) s1) as [[n|e] s2]; destruct Hg as (_ & _ & Hn & Hr); rewrite <- Hr in Hl.
  - unfold fstored. by rewrite (Hn n eq_refl).
  - simpl. destruct (fstored s1 (lit "force")) as [[n | | |]|] eqn:E; try done. by specialize (Hl n E).
Qed.

(** A string that was loaded is the string that is stored. *)
Lemma load_str_sound key max text (s : Flash F) :
  (load_str key max s).1 = Some text → fstored s key = Some (V_str text).
Proof.
  unfold load_str, initialised, opened, on_flash. rewrite <- init_stored. generalize (init s). clear s. intros s.
  pose proof (law_open ReadOnly (flash s)) as Ho. unfold wp in Ho.
  destruct (nvs_open ReadOnly (flash s)) as [[h|e] f]; [|done]. simpl in *. destruct Ho as (H1 & H2 & _).
  assert (h ∈ nvs_handles f) as Hh by (rewrite H1; by left).
  pose proof (law_str_len h key f Hh) as Hn. unfold wp in Hn. destruct (nvs_str_len h key f) as [[n|e] f2]; [|done].
  destruct Hn as [(Hh2 & Hs2 & _) _]. simpl in *. case_decide; [done|]. rewrite <- Hh2 in Hh.
  pose proof (law_get_str h key (max + 1) f2 Hh) as Hg. unfold wp in Hg.
  destruct (nvs_get_str h key (max + 1) f2) as [[b|e] f3]; [|done]. destruct Hg as [_ Hb]. simpl in *.
  destruct (Hb b eq_refl) as (t & Ht & ->). rewrite length_app. simpl.
  replace (length t + 1 - 1)%nat with (length t) by lia. rewrite take_app_length.
  intros (u & Hu & Hp)%bind_Some. apply from_utf8_id in Hu as <-. unfold push_str in Hp. simpl in Hp.
  case_decide; simplify_eq. unfold fstored. by rewrite <- H2, <- Hs2.
Qed.

(** A save that reports success is durable and is what the next load returns:
    for the URL template, the button mode, the TLS certificate with its key and
    the update key, a true result means that the value survives a reset, and on a
    store whose reads work the matching load returns exactly what was saved. The
    strings must be UTF-8 without NUL, the certificate and key not empty. *)
Theorem nvs_save_load (LL : NvsLive L) (s s' : Flash F) :
  (∀ url, Forall (λ c, c ≠ 0) url → from_utf8 url = Some url → save_lnurl url s = (true, s') →
     fdurable s' (lit "lnurl") = Some (V_str url) ∧ (load_lnurl s').1 = Some url) ∧
  (∀ mode, Forall (λ c, c ≠ 0) mode → from_utf8 mode = Some mode → save_button_mode mode s = (true, s') →
     fdurable s' (lit "btn_mode") = Some (V_str mode) ∧ (load_button_mode s').1 = Some mode) ∧
  (∀ cert key, cert ≠ [] → key ≠ [] → save_cert_der cert key s = (true, s') →
     fdurable s' (lit "certder") = Some (V_blob cert) ∧ fdurable s' (lit "keyder") = Some (V_blob key) ∧
     (server_cert_and_key s').1 = Some (cert, key)) ∧
  (∀ key, length key = 32%nat → save_ota_pubkey key s = (true, s') →
     fdurable s' (lit "otakey") = Some (V_blob key) ∧ (load_ota_pubkey s').1 = Some key).
Proof.
  split_and!.
  - intros url Hn Hu Hs. apply save_str_true in Hs as (Hl & Hst & Hd); [|done|done]. split; [done|].
    apply load_str_live; auto; [done|lia].
  - intros mode Hn Hu Hs. apply save_str_true in Hs as (Hl & Hst & Hd); [|done|done]. split; [done|].
    apply load_str_live; auto; [done|lia].
  - intros cert key Hc Hk Hs. apply save_cert_true in Hs as (Hcl & Hkl & [Hsc Hsk] & [Hdc Hdk]).
    split_and!; [done|done|]. by apply load_cert_live.
  - intros key Hl Hs. apply save_ota_true in Hs as [Hst Hd]. split; [done|]. by apply load_ota_live.
Qed.
End ops.

(** ** A simulated store

    Writes and commits succeed until a budget runs out; reads always work. *)

Record SimFlash : Type := mkSimFlash {
  sf_handles : list Handle;
  sf_map : gmap (list Z) NvsValue;
  sf_durable : gmap (list Z) NvsValue;
  sf_next : Z;
  sf_writes : nat }.

Definition sf_get {A} (h : Handle) (k : list Z) (f : NvsValue → option A) : M SimFlash EspErr A := λ s,
  (match (sf_map s !! k) ≫= f with
   | Some a => if decide (h ∈ sf_handles s) then Ok a else Err 2
   | None => Err 1
   end, s).

Definition sf_close (h : Handle) (s : SimFlash) : SimFlash :=
  mkSimFlash (match sf_handles s with x :: hs => if decide (x = h) then hs else x :: hs | [] => [] end)
    (sf_map s) (sf_durable s) (sf_next s) (sf_writes s).

#[export] Instance sim_nvs : NvsApi SimFlash := {|
  nvs_flash_init s := (Ok (), s);
  nvs_open _ s :=
    (Ok (sf_next s), mkSimFlash (sf_next s :: sf_handles s) (sf_map s) (sf_durable s) (sf_next s + 1) (sf_writes s));
  nvs_close := sf_close;
  nvs_commit h s :=
    match sf_writes s with
    | O => (Err 3, s)
    | S n => (Ok (), mkSimFlash (sf_handles s) (sf_map s) (sf_map s) (sf_next s) n)
    end;
  nvs_get_u8 h k := sf_get h k (λ v, match v with V_u8 x => Some x | _ => None end);
  nvs_get_u32 h k := sf_get h k (λ v, match v with V_u32 x => Some x | _ => None end);
  nvs_str_len h k := sf_get h k (λ v, match v with V_str x => Some (Z.of_nat (length x) + 1) | _ => None end);
  nvs_get_str h k cap := sf_get h k (λ v,
    match v with V_str x => if decide (Z.of_nat (length x) + 1 ≤ cap) then Some (x ++ [0]) else None | _ => None end);
  nvs_blob_len h k := sf_get h k (λ v, match v with V_blob x => Some (Z.of_nat (length x)) | _ => None end);
  nvs_get_blob h k cap := sf_get h k (λ v,
    match v with V_blob x => if decide (Z.of_nat (length x) ≤ cap) then Some x else None | _ => None end);
  nvs_set h k v s :=
    match sf_writes s with
    | O => (Err 3, s)
    | S n => (Ok (), mkSimFlash (sf_handles s) (<[k := v]> (sf_map s)) (sf_durable s) (sf_next s) n)
    end |}.

Lemma sf_get_pure {A} h k (f : NvsValue → option A) s : (sf_get h k f s).2 = s.
Proof. done. Qed.

Lemma sf_get_ok {A} h k (f : NvsValue → option A) s a :
  (sf_get h k f s).1 = Ok a → ∃ v, sf_map s !! k = Some v ∧ f v = Some a.
Proof. unfold sf_get. simpl. destruct (sf_map s !! k) as [v|]; simpl; [|done]. repeat case_match; naive_solver. Qed.

#[export] Instance sim_nvs_laws : NvsLaws sim_nvs.
Proof.
  refine {| nvs_handles := sf_handles; nvs_stored s k := sf_map s !! k; nvs_durable s k := sf_durable s !! k |}.
  - done.
  - done.
  - intros h hs f Hh. simpl. unfold sf_close. rewrite Hh. by rewrite decide_True.
  - intros h k f _. split; [done|]. intros v Hv. apply sf_get_ok in Hv as (x & -> & Hx). by destruct x; simplify_eq.
  - intros h k f _. split; [done|]. intros v Hv. apply sf_get_ok in Hv as (x & -> & Hx). by destruct x; simplify_eq.
  - intros h k f _. split; [done|]. intros v Hv. apply sf_get_ok in Hv as (x & -> & Hx).
    destruct x; simplify_eq. eauto.
  - intros h k cap f _. split; [done|]. intros v Hv. apply sf_get_ok in Hv as (x & -> & Hx).
    destruct x; simplify_eq. case_decide; simplify_eq. eauto.
  - intros h k f _. split; [done|]. intros v Hv. apply sf_get_ok in Hv as (x & -> & Hx).
    destruct x; simplify_eq. eauto.
  - intros h k cap f _. split; [done|]. intros v Hv. apply sf_get_ok in Hv as (x & -> & Hx).
    destruct x; simplify_eq. case_decide; simplify_eq. eauto.
  - intros h k v f _. unfold wp. simpl. destruct (sf_writes f); simpl; [by split_and!; auto|].
    rewrite lookup_insert_eq. split; [done|]. split; [|auto]. intros k' Hk. by rewrite lookup_insert_ne.
  - intros h f _. unfold wp. simpl. destruct (sf_writes f); simpl; split_and!; auto; done.
Defined.

Lemma sf_get_live {A} h k (f : NvsValue → option A) s v :
  h ∈ sf_handles s → sf_map s !! k = Some v → is_Some (f v) → is_ok (sf_get h k f s).1 = true.
Proof.
  intros Hh Hk [a Ha]. unfold sf_get. simpl. rewrite Hk. simpl. rewrite Ha. by rewrite decide_True.
Qed.

#[export] Instance sim_nvs_live : NvsLive sim_nvs_laws.
Proof.
  split.
  - done.
  - intros h k f s Hh Hk. by eapply sf_get_live.
  - intros h k cap f s Hh Hk Hc. eapply sf_get_live; [done|done|]. simpl. by rewrite decide_True.
  - intros h k f v Hh Hk. by eapply sf_get_live.
  - intros h k f v Hh Hk. by eapply sf_get_live.
  - intros h k f b Hh Hk. by eapply sf_get_live.
  - intros h k cap f b Hh Hk Hc. eapply sf_get_live; [done|done|]. simpl. by rewrite decide_True.
Qed.

Definition fresh_flash (writes : nat) : Flash SimFlash := mkFlash false (mkSimFlash [] ∅ ∅ 1 writes).

Definition setup_ops : list NvsOp :=
  [N_SaveLnurl (lit "https://card.example/?c={mac}"); N_LoadLnurl; N_SaveCert (replicate 8 1) (replicate 9 2);
   N_SaveCrash 4 17; N_LoadCert; N_HasCert; N_SaveForce true].

Lemma nvs_ops_disciplined_witness :
  fhandles (run_ops setup_ops (fresh_flash 4)) = [] ∧
  fstored (run_ops setup_ops (fresh_flash 4)) (lit "bootcnt") = None.
Proof.
  destruct (nvs_ops_disciplined setup_ops (fresh_flash 4)) as [Hh Hk]. split; [exact Hh|].
  apply Hk. apply (bool_decide_unpack _). vm_compute. exact I.
Defined.

Lemma nvs_save_load_witness :
  let s := fresh_flash 5 in
  let s' := (save_lnurl (lit "https://card.example/?c={mac}") s).2 in
  fdurable s' (lit "lnurl") = Some (V_str (lit "https://card.example/?c={mac}")) ∧
  (load_lnurl s').1 = Some (lit "https://card.example/?c={mac}").
Proof.
  apply (nvs_save_load sim_nvs_live (fresh_flash 5) (save_lnurl (lit "https://card.example/?c={mac}") (fresh_flash 5)).2).
  - apply (bool_decide_unpack _). vm_compute. exact I.
  - reflexivity.
  - reflexivity.
Defined.

(** ** Two observations

    A power loss or a full flash between the two writes of a certificate leaves
    the new certificate beside the old key, and the loader pairs them. And the
    longest URL the configuration can hold, 256 bytes, cannot be saved. *)
Lemma cert_pair_torn :
  let s := (save_cert_der [1] [2] (fresh_flash 4)).2 in
  let '(saved, s') := save_cert_der [3] [4] s in
  saved = false ∧ (load_cert_der s').1 = Some ([3], [2]).
Proof. vm_compute. done. Qed.

Lemma longest_url_not_saved url (s : Flash SimFlash) :
  length url = 256%nat → (save_lnurl url s).1 = false.
Proof. intros Hl. unfold save_lnurl, save_str, MAX_LNURL_LEN. by rewrite decide_True by lia. Qed.

(** ** Stored Wi-Fi credentials *)

(** Stored credentials come back exactly or not at all: a pair decodes if and
    only if both halves are present, valid UTF-8 and within 32 and 64 bytes, and
    then to the stored bytes; a missing, truncated or foreign half makes the
    whole pair absent. *)
Theorem decode_creds_pair_spec (s p : option (list Z)) (ssid password : list Z) :
  decode_creds_pair s p = Some (ssid, password) ↔
  s = Some ssid ∧ p = Some password ∧ from_utf8 ssid = Some ssid ∧ from_utf8 password = Some password ∧
  (length ssid ≤ 32)%nat ∧ (length password ≤ 64)%nat.
Proof.
  assert (∀ cap b x, decode_creds_blob cap b = Some x ↔
    b = x ∧ from_utf8 x = Some x ∧ (length x ≤ cap)%nat) as Hd.
  { intros cap b x. unfold decode_creds_blob. split.
    - intros (y & Hy & Hx)%bind_Some. pose proof (from_utf8_id _ _ Hy) as ->.
      apply heapless_from_spec in Hx as [-> Hl]. done.
    - intros (-> & Hu & Hl). rewrite Hu. simpl. by apply heapless_from_spec. }
  unfold decode_creds_pair. split.
  - intros (a & -> & (x & Hx%Hd & (b & -> & (y & Hy%Hd & [= -> ->])%bind_Some)%bind_Some)%bind_Some)%bind_Some.
    naive_solver.
  - intros (-> & -> & Hu1 & Hu2 & H1 & H2). simpl.
    rewrite (proj2 (Hd 32%nat ssid ssid)) by done. simpl. by rewrite (proj2 (Hd 64%nat password password)).
Qed.
