(* ===== verification/Iso14443.v ===== *)
(** * ISO 14443-4 reader session

    [crates/iso14443-session/src/lib.rs]: CRC_A, and the PCD side of the block
    protocol (chaining, frame-size limits, recovery, waiting-time extension). The
    block codec and the protocol automaton are those of the [iso14443] crate, a
    parameter here ([Iso14443Api]); the card behind the transceiver answers each
    frame by an arbitrary function of the frames sent so far, and the transceiver
    grants or refuses each request to set its timeout. *)

From S2P Require Import Prelude.

(** ** CRC_A *)

Definition POLY : Z := 0x8408.

(** One bit of the reflected shift register. *)
Definition crc_bit (crc : Z) : Z :=
  if decide (Z.land crc 1 ≠ 0) then Z.lxor (Z.shiftr crc 1) POLY else Z.shiftr crc 1.

Definition crc_bits (n : nat) (crc : Z) : Z := Nat.iter n crc_bit crc.
Definition crc_byte (crc b : Z) : Z := crc_bits 8 (Z.lxor crc b).

Definition crc_register (crc : Z) (data : list Z) : Z := foldl crc_byte crc data.

Definition crc_a (data : list Z) : Z * Z :=
  let crc := crc_register 0x6363 data in (u8 (Z.land crc 0xFF), u8 (Z.shiftr crc 8)).

Definition append_crc_a (data : list Z) : list Z :=
  let '(c1, c2) := crc_a data in data ++ [c1; c2].

(** ** The session *)

Definition MAX_RETRIES : nat := 2.

Inductive PcdError : Type :=
| Pcd_Transceiver | Pcd_Protocol | Pcd_FrameSize | Pcd_OutOfFuel.

(** What the session uses of the [iso14443] crate: blocks with their codec, and
    the protocol handler with state [H]. *)
Class Iso14443Api (Block H : Type) : Type := {
  to_bytes_without_crc : Block → result (list Z) PcdError;
  block_from_crc_verified : list Z → result Block PcdError;
  block_try_from : list Z → result Block PcdError;
  has_cid : Block → bool;
  is_deselect : Block → bool;
  is_wtx : Block → bool;
  payload : Block → list Z;
  begin_exchange : H → H;
  build_iblock : list Z → bool → M H PcdError Block;
  build_rnak : M H PcdError Block;
  build_deselect : M H PcdError Block;
  process_received : Block → M H PcdError (list Z + Block + bool) }.

(** [Action]: [Complete], [Reply], and the two acknowledgements of a sent chain
    block ([true] for [ChainingAck], [false] for [ChainingRetransmit]). *)
Local Notation Complete d := (inl (inl d)).
Local Notation Reply b := (inl (inr b)).
Local Notation Chaining ack := (inr ack).

(** The session with the transceiver it drives: the frames put on the air, the
    transceiver's timeout, and the requests to change it so far, each with its
    outcome. *)
Record Pcd (H : Type) : Type := mkPcd {
  hw_crc : bool;
  fsc : Z;
  fsd : Z;
  handler : H;
  base_fwt_ms : Z;
  sent : list (list Z);
  timeout_ms : Z;
  sets : list (Z * bool) }.
Arguments mkPcd {H} _ _ _ _ _ _ _ _.
Arguments hw_crc {H} _.
Arguments fsc {H} _.
Arguments fsd {H} _.
Arguments handler {H} _.
Arguments base_fwt_ms {H} _.
Arguments sent {H} _.
Arguments timeout_ms {H} _.
Arguments sets {H} _.

Section session.
  Context {Block H : Type} {A : Iso14443Api Block H}.
  (** The card and the air: the answer to the last frame of a history. *)
  Context (air : list (list Z) → option (list Z)).
  (** The answer of the transceiver to a request to set its timeout, after these
      frames and requests: the timeout is set, or the request fails, and the
      timeout is the one given. *)
  Context (timer : list (list Z) → list (Z * bool) → Z → result () Z).

  Local Notation P := (M (Pcd H) PcdError).

Definition on_handler {X} (m : M H PcdError X) : P X := λ s,
  let '(r, h) := m (handler s) in
  (r, mkPcd (hw_crc s) (fsc s) (fsd s) h (base_fwt_ms s) (sent s) (timeout_ms s) (sets s)).

Definition try_set_timeout_ms (ms : Z) : M (Pcd H) () () := λ s,
  let '(r, now, done) := match timer (sent s) (sets s) ms with
                         | Ok _ => (Ok (), ms, true)
                         | Err held => (Err (), held, false)
                         end in
  (r, mkPcd (hw_crc s) (fsc s) (fsd s) (handler s) (base_fwt_ms s) (sent s) now (sets s ++ [(ms, done)])).

Definition transceive (frame : list Z) : P (list Z) := λ s,
  let sent' := sent s ++ [frame] in
  (match air sent' with Some resp => Ok resp | None => Err Pcd_Transceiver end,
   mkPcd (hw_crc s) (fsc s) (fsd s) (handler s) (base_fwt_ms s) sent' (timeout_ms s) (sets s)).

Definition get_state : P (Pcd H) := λ s, (Ok s, s).

Definition of_result {X} (r : result X PcdError) : P X :=
  match r with Ok x => mret x | Err e => fail e end.

Definition transceive_block (block : Block) : P Block :=
  s ← get_state;
  data ← of_result (to_bytes_without_crc block);
  let frame := if hw_crc s then data else append_crc_a data in
  resp ← transceive frame;
  let effective := Z.of_nat (length resp) + (if hw_crc s then 2 else 0) in
  if decide (fsd s < effective) then fail Pcd_FrameSize else
  of_result (if hw_crc s then block_from_crc_verified resp else block_try_from resp).

(** The retry loop of [transceive_with_recovery]; [retries] are left. *)
Fixpoint recover (retries : nat) (block : Block) (receiving_chain : bool) : P Block :=
  match retries with
  | O => fail Pcd_Protocol
  | S retries =>
      again ← (if receiving_chain then mret block else on_handler build_rnak);
      r ← attempt (transceive_block again);
      match r with
      | Ok resp => mret resp
      | Err _ => recover retries block receiving_chain
      end
  end.

Definition transceive_with_recovery (block : Block) (receiving_chain : bool) : P Block :=
  r ← attempt (transceive_block block);
  match r with
  | Ok resp => mret resp
  | Err _ => recover MAX_RETRIES block receiving_chain
  end.

(** The echo of an S(WTX) runs under the extended timeout, and the base timeout is
    asked for on both outcomes; the results of the two requests are discarded. *)
Definition reply_round (reply : Block) : P Block :=
  s ← get_state;
  let base := base_fwt_ms s in
  if is_wtx reply && bool_decide (0 < base) then
    let wtxm := default 1 (head (payload reply)) in
    let extended := Z.max (u32 (wtxm * base)) base in
    _ ← attempt (try_set_timeout_ms extended);
    r ← attempt (transceive_with_recovery reply true);
    _ ← attempt (try_set_timeout_ms base);
    of_result r
  else transceive_with_recovery reply true.

(** A card can ask for more time or chain for ever: [fuel] bounds the rounds. *)
Fixpoint collect_response (fuel : nat) (block : Block) : P (list Z) :=
  match fuel with
  | O => fail Pcd_OutOfFuel
  | S fuel =>
      action ← on_handler (process_received block);
      match action with
      | Complete data => mret data
      | Reply reply => block ← reply_round reply; collect_response fuel block
      | Chaining _ => fail Pcd_Protocol
      end
  end.

(** The send loop of [exchange] from [offset]; [fuel] bounds the blocks, a card
    can ask for the same block for ever. *)
Fixpoint send_chain (fuel : nat) (apdu : list Z) (max_inf offset : nat) : P Block :=
  match fuel with
  | O => fail Pcd_OutOfFuel
  | S fuel =>
      let end_ := Nat.min (offset + max_inf) (length apdu) in
      let chaining := bool_decide (end_ < length apdu)%nat in
      iblock ← on_handler (build_iblock (take (end_ - offset) (drop offset apdu)) chaining);
      resp ← transceive_with_recovery iblock false;
      if (chaining : bool) then
        action ← on_handler (process_received resp);
        match action with
        | Chaining true => send_chain fuel apdu max_inf end_
        | Chaining false => send_chain fuel apdu max_inf offset
        | _ => fail Pcd_Protocol
        end
      else mret resp
  end.

Definition exchange (fuel : nat) (apdu : list Z) : P (list Z) :=
  _ ← on_handler (λ h, (Ok (), begin_exchange h));
  probe ← on_handler (build_iblock [] false);
  s ← get_state;
  let overhead := 1 + (if has_cid probe then 1 else 0) + 2 in
  let max_inf := Z.max 0 (fsc s - overhead) in
  if decide (max_inf = 0) then fail Pcd_Protocol else
  if decide (apdu = []) then fail Pcd_Protocol else
  first ← send_chain fuel apdu (Z.to_nat max_inf) 0;
  collect_response fuel first.

Definition deselect : P () :=
  block ← on_handler build_deselect;
  r ← attempt (transceive_block block);
  match r with
  | Ok resp =>
      if is_deselect resp then mret () else
      resp ← transceive_block block;
      if is_deselect resp then mret () else fail Pcd_Protocol
  | Err _ =>
      resp ← transceive_block block;
      if is_deselect resp then mret () else fail Pcd_Protocol
  end.
End session.

(** ** Setting up a session *)

(** The session without its transceiver ([PcdSession]), and the transceiver. *)
Record PcdSession (H : Type) : Type := mkPcdSession {
  ps_hw_crc : bool; ps_fsc : Z; ps_fsd : Z; ps_handler : H; ps_base_fwt_ms : Z }.
Arguments mkPcdSession {H} _ _ _ _ _.
Arguments ps_hw_crc {H} _.
Arguments ps_fsc {H} _.
Arguments ps_fsd {H} _.
Arguments ps_handler {H} _.
Arguments ps_base_fwt_ms {H} _.

Record Transceiver : Type := mkTransceiver {
  tx_sent : list (list Z); tx_timeout_ms : Z; tx_sets : list (Z * bool) }.

(** A call of a session over a transceiver works on both. *)
Definition over_transceiver {H} (s : PcdSession H) (t : Transceiver) : Pcd H :=
  mkPcd (ps_hw_crc s) (ps_fsc s) (ps_fsd s) (ps_handler s) (ps_base_fwt_ms s) (tx_sent t) (tx_timeout_ms t) (tx_sets t).

(** What the setup uses of the [iso14443] crate: the RATS parameter byte, the frame
    size of an FSDI, the parser of the ATS, the frame size of its FSCI, and a fresh
    protocol handler. *)
Class AtsView (Ats : Type) : Type := fsci_fsc : Ats → Z.
Class SetupApi (Ats H : Type) : Type := {
  rats_param : Z → Z → Z;
  fsdi_fsd : Z → Z;
  ats_from_crc_verified : list Z → result Ats PcdError;
  ats_try_from : list Z → result Ats PcdError;
  handler_new : option Z → H }.

Section setup.
  Context {Ats H : Type} {V : AtsView Ats} {A : SetupApi Ats H}.
  Context (air : list (list Z) → option (list Z)) (enable_hw_crc : bool).

Definition from_connect (fsdi cid : Z) : M Transceiver PcdError (PcdSession H * Ats) := λ t,
  let rats_byte := rats_param fsdi cid in
  let data := if enable_hw_crc then [0xe0; rats_byte] else append_crc_a [0xe0; rats_byte] in
  let t := mkTransceiver (tx_sent t ++ [data]) (tx_timeout_ms t) (tx_sets t) in
  (match air (tx_sent t) with
   | None => Err Pcd_Transceiver
   | Some resp =>
       ats ←? (if enable_hw_crc then ats_from_crc_verified resp else ats_try_from resp);
       Ok (mkPcdSession enable_hw_crc (fsci_fsc ats) (fsdi_fsd fsdi) (handler_new (Some cid)) 0, ats)
   end, t).

Definition from_ats (ats : Ats) (cid : option Z) (hw : bool) : PcdSession H :=
  mkPcdSession hw (fsci_fsc ats) (fsci_fsc ats) (handler_new cid) 0.
End setup.

Definition set_fsd {H} (fsd : Z) (s : PcdSession H) : PcdSession H :=
  mkPcdSession (ps_hw_crc s) (ps_fsc s) fsd (ps_handler s) (ps_base_fwt_ms s).
Definition set_fsc {H} (fsc : Z) (s : PcdSession H) : PcdSession H :=
  mkPcdSession (ps_hw_crc s) fsc (ps_fsd s) (ps_handler s) (ps_base_fwt_ms s).
Definition set_base_fwt_ms {H} (ms : Z) (s : PcdSession H) : PcdSession H :=
  mkPcdSession (ps_hw_crc s) (ps_fsc s) (ps_fsd s) (ps_handler s) ms.

(** ** CRC_A is an error-detecting code *)

Definition is_u16 (z : Z) : Prop := 0 ≤ z < 2 ^ 16.

(** The inverse of [crc_bit]: bit 15 tells whether the polynomial was added. *)
Definition crc_unbit (y : Z) : Z :=
  if Z.testbit y 15 then Z.lor (Z.shiftl (Z.lxor y POLY) 1) 1 else Z.shiftl y 1.

Definition crc_bit_ok (x : Z) : bool :=
  Z.eqb (crc_unbit (crc_bit x)) x && Z.leb 0 (crc_bit x) && Z.ltb (crc_bit x) (2 ^ 16).

(** [p] on the [n] integers from [x] on. *)
Fixpoint check_from (p : Z → bool) (n : nat) (x : Z) : bool :=
  match n with O => true | S n => p x && check_from p n (x + 1) end.

Lemma check_from_spec p n x y :
  check_from p n x = true → x ≤ y < x + Z.of_nat n → p y = true.
Proof.
  revert x. induction n as [|n IH]; intros x; simpl check_from; [lia|].
  intros [Hx Hn]%andb_prop Hy. destruct (decide (y = x)) as [->|]; [done|].
  apply (IH (x + 1)); [done|lia].
Qed.

Lemma crc_bit_u16 x : is_u16 x → crc_unbit (crc_bit x) = x ∧ is_u16 (crc_bit x).
Proof.
  intros Hx. assert (check_from crc_bit_ok (Z.to_nat (2 ^ 16)) 0 = true) as Ht
    by (vm_compute; reflexivity).
  apply (check_from_spec _ _ _ x) in Ht; [|unfold is_u16 in Hx; lia].
  unfold crc_bit_ok in Ht. apply andb_prop in Ht as [[He Hl]%andb_prop Hu].
  apply Z.eqb_eq in He. apply Z.leb_le in Hl. apply Z.ltb_lt in Hu. done.
Qed.

Lemma crc_bits_u16 n x : is_u16 x → is_u16 (crc_bits n x).
Proof. intros Hx. unfold crc_bits. induction n; simpl; [done|]. by apply crc_bit_u16. Qed.

Lemma crc_bits_inj n x y :
  is_u16 x → is_u16 y → crc_bits n x = crc_bits n y → x = y.
Proof.
  intros Hx Hy. induction n as [|n IH]; [done|]. intros He. apply IH.
  change (crc_bit (crc_bits n x) = crc_bit (crc_bits n y)) in He.
  destruct (crc_bit_u16 (crc_bits n x)) as [<- _]; [by apply crc_bits_u16|].
  destruct (crc_bit_u16 (crc_bits n y)) as [<- _]; [by apply crc_bits_u16|].
  by rewrite He.
Qed.

#[local] Opaque crc_bits.

Lemma lxor_u16 x y : is_u16 x → is_u16 y → is_u16 (Z.lxor x y).
Proof. by apply lxor_lt_pow2. Qed.

Lemma u8_u16 b : is_u8 b → is_u16 b.
Proof. unfold is_u8, is_u16. lia. Qed.

Lemma crc_byte_u16 c b : is_u16 c → is_u8 b → is_u16 (crc_byte c b).
Proof. intros. apply crc_bits_u16, lxor_u16; auto using u8_u16. Qed.

Lemma crc_register_u16 c data : is_u16 c → bytes data → is_u16 (crc_register c data).
Proof.
  intros Hc Hd. revert c Hc. induction Hd as [|b data Hb _ IH]; intros c Hc; [done|].
  simpl. by apply IH, crc_byte_u16.
Qed.

Lemma crc_byte_inj c c' b b' :
  is_u16 c → is_u16 c' → is_u8 b → is_u8 b' → crc_byte c b = crc_byte c' b' →
  Z.lxor c b = Z.lxor c' b'.
Proof.
  intros Hc Hc' Hb Hb' He. apply (crc_bits_inj 8 (Z.lxor c b) (Z.lxor c' b')).
  - apply lxor_u16; [exact Hc|by apply u8_u16].
  - apply lxor_u16; [exact Hc'|by apply u8_u16].
  - exact He.
Qed.

#[local] Opaque crc_byte.

(** Equal data keep different registers different. *)
Lemma crc_register_inj c c' data :
  is_u16 c → is_u16 c' → bytes data → crc_register c data = crc_register c' data → c = c'.
Proof.
  intros Hc Hc' Hd. revert c c' Hc Hc'. induction Hd as [|b data Hb _ IH]; intros c c' Hc Hc'; [done|].
  simpl. intros He%IH; [|by apply crc_byte_u16..]. apply crc_byte_inj in He; [|done..].
  apply (f_equal (λ z, Z.lxor z b)) in He.
  by rewrite !Z.lxor_assoc, !Z.lxor_nilpotent, !Z.lxor_0_r in He.
Qed.

Lemma crc_register_change c pre b b' post :
  is_u16 c → bytes pre → is_u8 b → is_u8 b' → bytes post →
  crc_register c (pre ++ b :: post) = crc_register c (pre ++ b' :: post) → b = b'.
Proof.
  intros Hc Hpre Hb Hb' Hpost. unfold crc_register. rewrite !foldl_app. simpl.
  fold (crc_register c pre). intros He.
  assert (is_u16 (crc_register c pre)) as Hr by by apply crc_register_u16.
  apply crc_register_inj in He; [|by apply crc_byte_u16..|done].
  apply crc_byte_inj in He; [|done..].
  apply (f_equal (Z.lxor (crc_register c pre))) in He.
  by rewrite <- !Z.lxor_assoc, !Z.lxor_nilpotent, !Z.lxor_0_l in He.
Qed.

(** Eight even steps shift a byte out. *)
Lemma crc_bits_high h : 0 ≤ h < 2 ^ 8 → crc_bits 8 (Z.shiftl h 8) = h.
Proof.
  intros Hh.
  assert (check_from (λ h, Z.eqb (crc_bits 8 (Z.shiftl h 8)) h) 256 0 = true) as Ht
    by (vm_compute; reflexivity).
  apply (check_from_spec _ _ _ h) in Ht; [|lia]. by apply Z.eqb_eq.
Qed.

Lemma split_u16 r :
  is_u16 r →
  let lo := u8 (Z.land r 0xFF) in let hi := u8 (Z.shiftr r 8) in
  is_u8 lo ∧ is_u8 hi ∧ Z.lxor r lo = Z.shiftl hi 8.
Proof.
  intros Hr lo hi. unfold is_u16 in Hr.
  assert (lo = r mod 2 ^ 8) as Hlo.
  { unfold lo, u8. change 0xFF with (Z.ones 8). rewrite Z.land_ones by lia. by rewrite Z.mod_mod. }
  assert (hi = r / 2 ^ 8) as Hhi.
  { unfold hi, u8. rewrite Z.shiftr_div_pow2 by lia. apply Z.mod_small.
    split; [apply Z.div_pos; lia|apply Z.div_lt_upper_bound; lia]. }
  split; [apply u8_is_u8|]. split; [apply u8_is_u8|].
  rewrite Hlo, Hhi. apply Z.bits_inj'. intros n Hn.
  rewrite Z.lxor_spec, Z.shiftl_spec, Z.testbit_mod_pow2 by lia.
  destruct (Z.ltb_spec n 8); simpl.
  - rewrite xorb_nilpotent. symmetry. apply Z.testbit_neg_r. lia.
  - rewrite xorb_false_r, Z.div_pow2_bits by lia. f_equal. lia.
Qed.

#[local] Transparent crc_byte crc_bits.

(** CRC_A protects a frame: the checksum register over a frame with its
    checksum appended ends at zero, and over any such frame with one byte
    replaced, in the data or in the checksum, it does not. *)
Theorem crc_a_guards (data : list Z) :
  bytes data →
  crc_register 0x6363 (append_crc_a data) = 0 ∧
  ∀ pre b post b', append_crc_a data = pre ++ b :: post → is_u8 b' → b' ≠ b →
    crc_register 0x6363 (pre ++ b' :: post) ≠ 0.
Proof.
  intros Hd. assert (is_u16 0x6363) as H0 by (unfold is_u16; lia).
  pose proof (crc_register_u16 _ _ H0 Hd) as Hr.
  destruct (split_u16 _ Hr) as (Hlo & Hhi & Hx).
  assert (crc_register 0x6363 (append_crc_a data) = 0) as Hz.
  { unfold append_crc_a, crc_a. unfold crc_register at 1. rewrite foldl_app.
    fold (crc_register 0x6363 data). simpl foldl. unfold crc_byte at 2. rewrite Hx, crc_bits_high by done.
    unfold crc_byte. by rewrite Z.lxor_nilpotent. }
  split; [done|]. intros pre b post b' Happ Hb' Hne Heq.
  assert (bytes (append_crc_a data)) as Hw.
  { unfold append_crc_a, crc_a. apply Forall_app. split; [done|].
    by apply Forall_cons; split; [|apply Forall_cons; split; [|apply Forall_nil]]. }
  rewrite Happ in Hw, Hz. apply Forall_app in Hw as [Hpre [Hb Hpost]%Forall_cons].
  apply Hne. symmetry. apply (crc_register_change 0x6363 pre b b' post); [done..|]. by rewrite Hz, Heq.
Qed.

Lemma crc_a_guards_witness :
  crc_register 0x6363 (append_crc_a [0xE0; 0x50]) = 0 ∧
  crc_register 0x6363 [0xE0; 0x51; 0xBC; 0xA5] ≠ 0.
Proof.
  assert (bytes [0xE0; 0x50]) as Hb by (apply (bool_decide_unpack _); vm_compute; exact I).
  destruct (crc_a_guards _ Hb) as [Hz Hc]. split; [exact Hz|].
  apply (Hc [0xE0] 0x50 [0xBC; 0xA5] 0x51); [vm_compute; reflexivity| |discriminate].
  apply (bool_decide_unpack _). vm_compute. exact I.
Defined.

(** ** The session stays within the negotiated limits *)

(** What the session relies on of the block layer: an I-block is a header byte,
    the optional CID byte and the data; supervisory blocks and replies have at
    most three bytes; and whether a CID is used does not change. *)
Class Iso14443Laws {Block H} (A : Iso14443Api Block H) : Type := {
  handler_cid : H → bool;
  law_begin h : handler_cid (begin_exchange h) = handler_cid h;
  law_iblock inf c h : wp (build_iblock inf c) (λ r h', handler_cid h' = handler_cid h ∧
    ∀ b, r = Ok b → has_cid b = handler_cid h ∧
      ∀ d, to_bytes_without_crc b = Ok d →
        length d = (1 + (if handler_cid h then 1 else 0) + length inf)%nat) h;
  law_rnak h : wp build_rnak (λ r h', handler_cid h' = handler_cid h ∧
    ∀ b d, r = Ok b → to_bytes_without_crc b = Ok d → (length d ≤ 3)%nat) h;
  law_received b h : wp (process_received b) (λ r h', handler_cid h' = handler_cid h ∧
    ∀ b' d, r = Ok (Reply b') → to_bytes_without_crc b' = Ok d → (length d ≤ 3)%nat) h }.

Section limits.
  Context {Block H : Type} {A : Iso14443Api Block H} {L : Iso14443Laws A}.
  Context (air : list (list Z) → option (list Z)) (timer : list (list Z) → list (Z * bool) → Z → result () Z).

(** A frame with its two checksum bytes fits the card's limit. *)
Definition frame_fits (s : Pcd H) (frame : list Z) : Prop :=
  Z.of_nat (length frame) + (if hw_crc s then 2 else 0) ≤ fsc s.

(** From [s] to [s'] the parameters are the same and only fitting frames were
    sent. *)
Definition within (s s' : Pcd H) : Prop :=
  hw_crc s' = hw_crc s ∧ fsc s' = fsc s ∧ fsd s' = fsd s ∧ base_fwt_ms s' = base_fwt_ms s ∧
  handler_cid (handler s') = handler_cid (handler s) ∧
  ∃ frames, sent s' = sent s ++ frames ∧ Forall (frame_fits s) frames.

#[local] Instance within_preorder : PreOrder within.
Proof.
  split.
  - intros s. repeat split. exists []. by rewrite app_nil_r.
  - intros s1 s2 s3 (Hc & Hs & ? & ? & ? & f1 & Hf1 & Hall1) (? & ? & ? & ? & ? & f2 & Hf2 & Hall2).
    repeat split; try congruence. exists (f1 ++ f2). rewrite Hf2, Hf1, app_assoc. split; [done|].
    apply Forall_app. split; [done|]. eapply Forall_impl; [done|]. unfold frame_fits. intros f.
    by rewrite Hc, Hs.
Qed.

(** From [s] to [s'] the timeout was left alone, or the last request made was for
    the base time, and was granted or is known to have failed. *)
Definition restored (s s' : Pcd H) : Prop :=
  ∃ reqs, sets s' = sets s ++ reqs ∧ (reqs = [] → timeout_ms s' = timeout_ms s) ∧
    ∀ ms granted, last reqs = Some (ms, granted) →
      ms = base_fwt_ms s ∧ (granted = true → timeout_ms s' = base_fwt_ms s).

Lemma restored_quiet s s' : sets s' = sets s → timeout_ms s' = timeout_ms s → restored s s'.
Proof. intros Hs Ht. exists []. by rewrite app_nil_r. Qed.

Lemma restored_refl s : restored s s.
Proof. by apply restored_quiet. Qed.

Lemma restored_trans s1 s2 s3 : within s1 s2 → restored s1 s2 → restored s2 s3 → restored s1 s3.
Proof.
  intros (_ & _ & _ & Hb & _) (r1 & Hs1 & Hn1 & Hl1) (r2 & Hs2 & Hn2 & Hl2). exists (r1 ++ r2).
  rewrite Hs2, Hs1, app_assoc. split; [done|]. rewrite Hb in Hl2. split.
  - intros [-> ->]%app_eq_nil. by rewrite Hn2, Hn1.
  - intros ms g. rewrite last_app. destruct (last r2) as [[ms' g']|] eqn:E; [intros [= <- <-]; by apply Hl2|].
    apply last_None in E. subst r2. rewrite (Hn2 eq_refl). apply Hl1.
Qed.

(** A step that keeps to the limits and puts the timeout back. *)
Definition tame {X} (m : M (Pcd H) PcdError X) (s : Pcd H) : Prop :=
  wp m (λ _ s', within s s' ∧ restored s s') s.

Lemma wp_tame_bind {X Y} (m : M (Pcd H) PcdError X) (k : X → M (Pcd H) PcdError Y) s :
  tame m s →
  (∀ x s', m s = (Ok x, s') → within s s' → tame (k x) s') →
  tame (m ≫= k) s.
Proof.
  intros Hm Hk. apply wp_bind. unfold tame, wp in *.
  destruct (m s) as [[x|e] s']; simpl in *; [|done]. destruct Hm as [Hw Ht].
  destruct (Hk x s' eq_refl Hw) as [Hw' Ht']. split; [by etrans|by eapply restored_trans].
Qed.

Lemma tame_here {X} (m : M (Pcd H) PcdError X) s : (m s).2 = s → tame m s.
Proof. intros Hm. unfold tame, wp. rewrite Hm. split; [done|apply restored_refl]. Qed.

Lemma tame_ret {X} (x : X) s : tame (mret x) s.
Proof. by apply tame_here. Qed.
Lemma tame_fail {X} e s : tame (fail e : M (Pcd H) PcdError X) s.
Proof. by apply tame_here. Qed.
Lemma tame_result {X} (r : result X PcdError) s : tame (of_result r) s.
Proof. apply tame_here. by destruct r. Qed.
Lemma tame_attempt {X} (m : M (Pcd H) PcdError X) s : tame m s → tame (attempt m) s.
Proof. unfold tame, wp, attempt. by destruct (m s). Qed.

Lemma tame_handler {X} (m : M H PcdError X) s :
  wp m (λ _ h', handler_cid h' = handler_cid (handler s)) (handler s) → tame (on_handler m) s.
Proof.
  unfold tame, wp, on_handler. destruct (m (handler s)) as [r h']. simpl. intros Hc.
  split; [|by apply restored_quiet]. repeat split; [done|]. exists []. by rewrite app_nil_r.
Qed.

(** Sending a block whose encoding fits. *)
Definition block_fits (s : Pcd H) (b : Block) : Prop :=
  ∀ d, to_bytes_without_crc b = Ok d → Z.of_nat (length d) + 2 ≤ fsc s.

Lemma block_fits_within s s' b : within s s' → block_fits s b → block_fits s' b.
Proof. intros (_ & Hf & _) Hb d Hd. rewrite Hf. by apply Hb. Qed.

Lemma append_crc_length d : length (append_crc_a d) = (length d + 2)%nat.
Proof. unfold append_crc_a. destruct (crc_a d). by rewrite length_app. Qed.

(** Sending does not touch the timeout. *)
Lemma transceive_block_tame b s : block_fits s b → tame (transceive_block air b) s.
Proof.
  intros Hb. unfold transceive_block. apply wp_tame_bind; [by apply tame_here|]. intros s0 s1 [= <- <-] _.
  destruct (to_bytes_without_crc b) as [d|] eqn:Hd; [|by apply tame_here]. specialize (Hb d Hd).
  apply wp_tame_bind; [by apply tame_here|]. intros d' s1 [= <- <-] _.
  apply wp_tame_bind.
  { unfold tame, wp, transceive. simpl. split; [|by apply restored_quiet]. repeat split.
    eexists. split; [done|]. apply Forall_singleton. unfold frame_fits.
    destruct (hw_crc s); rewrite ?append_crc_length; lia. }
  intros resp s2 _ _. case_decide; [apply tame_fail|apply tame_result].
Qed.

Lemma recover_tame n b rc s : 16 ≤ fsc s → block_fits s b → tame (recover air n b rc) s.
Proof.
  revert s. induction n as [|n IH]; intros s Hfsc Hb; simpl; [apply tame_fail|].
  apply wp_tame_bind.
  { destruct rc; [apply tame_ret|]. apply tame_handler. eapply wp_mono; [apply law_rnak|]. by intros ?? [? _]. }
  intros again s1 Hrun Hw1.
  assert (block_fits s1 again) as Ha.
  { destruct rc; [injection Hrun as <- _; by eapply block_fits_within|].
    intros d Hd. pose proof (law_rnak (handler s)) as Hr. unfold wp, on_handler in *.
    destruct (build_rnak (handler s)) as [[x|] h']; [|done]. injection Hrun as -> _.
    destruct Hr as [_ Hr]. specialize (Hr again d eq_refl Hd).
    destruct Hw1 as (_ & -> & _). lia. }
  apply wp_tame_bind; [by apply tame_attempt, transceive_block_tame|].
  intros [resp|e] s2 _ Hw2; [apply tame_ret|]. apply IH.
  - destruct Hw1 as (_ & Hf1 & _), Hw2 as (_ & -> & _). by rewrite Hf1.
  - eapply block_fits_within; [|done]. by etrans.
Qed.

Lemma recovery_tame b rc s :
  16 ≤ fsc s → block_fits s b → tame (transceive_with_recovery air b rc) s.
Proof.
  intros Hfsc Hb. unfold transceive_with_recovery.
  apply wp_tame_bind; [by apply tame_attempt, transceive_block_tame|].
  intros [resp|e] s1 _ Hw; [apply tame_ret|].
  apply recover_tame; [|by eapply block_fits_within]. by destruct Hw as (_ & -> & _).
Qed.

(** The standing condition: the smallest frame size of the standard. *)
Definition settled (s : Pcd H) : Prop := 16 ≤ fsc s.

Lemma settled_within s s' : within s s' → settled s → settled s'.
Proof. intros (_ & Hf & _) ?. unfold settled. by rewrite Hf. Qed.

(** A request to the timer is recorded, and nothing else changes but the timeout. *)
Lemma set_timeout_within ms s :
  let s' := (try_set_timeout_ms timer ms s).2 in
  within s s' ∧ ∃ granted, sets s' = sets s ++ [(ms, granted)] ∧ (granted = true → timeout_ms s' = ms).
Proof.
  unfold try_set_timeout_ms. destruct (timer _ _ _); simpl; (split; [|eexists; split; [done|by intros]]);
    repeat split; exists []; by rewrite app_nil_r.
Qed.

(** The retries around a block make no request to the timer. *)
Definition untimed {X} (m : M (Pcd H) PcdError X) : Prop := ∀ s, sets (m s).2 = sets s.

Lemma untimed_bind {X Y} (m : M (Pcd H) PcdError X) (k : X → M (Pcd H) PcdError Y) :
  untimed m → (∀ x, untimed (k x)) → untimed (m ≫= k).
Proof.
  intros Hm Hk s. specialize (Hm s). unfold mbind, M_bind. destruct (m s) as [[x|e] s']; simpl in *; [|done].
  by rewrite Hk.
Qed.
Lemma untimed_attempt {F X} (m : M (Pcd H) F X) : (∀ s, sets (m s).2 = sets s) → untimed (attempt m).
Proof. intros Hm s. specialize (Hm s). unfold attempt. by destruct (m s). Qed.
Lemma untimed_result {X} (r : result X PcdError) : untimed (of_result r).
Proof. by destruct r. Qed.

Lemma transceive_block_untimed b : untimed (transceive_block air b).
Proof.
  apply untimed_bind; [done|]. intros s. apply untimed_bind; [apply untimed_result|]. intros d.
  apply untimed_bind; [done|]. intros resp. cbv zeta. case_decide; [done|apply untimed_result].
Qed.

Lemma recovery_untimed b rc : untimed (transceive_with_recovery air b rc).
Proof.
  apply untimed_bind; [apply untimed_attempt, transceive_block_untimed|]. intros [resp|e]; [done|].
  generalize MAX_RETRIES. intros n. induction n as [|n IH]; simpl; [done|].
  apply untimed_bind.
  { destruct rc; [done|]. intros s. unfold on_handler. by destruct (build_rnak (handler s)). }
  intros again. apply untimed_bind; [apply untimed_attempt, transceive_block_untimed|]. by intros [resp|e'].
Qed.

Lemma wp_of_result {X} (r : result X PcdError) Q (s : Pcd H) : Q r s → wp (of_result r) Q s.
Proof. by destruct r. Qed.

Lemma reply_round_tame b s : settled s → block_fits s b → tame (reply_round air timer b) s.
Proof.
  intros Hfsc Hb. unfold reply_round. apply wp_tame_bind; [by apply tame_here|].
  intros s0 s1 [= <- <-] _. destruct (is_wtx b && _); [|by apply recovery_tame].
  set (ext := Z.max _ _). destruct (set_timeout_within ext s) as [Hw1 (g1 & Hs1 & _)].
  apply wp_bind, wp_attempt. unfold wp at 1. set (s1 := (try_set_timeout_ms timer ext s).2) in *.
  apply wp_bind, wp_attempt, wp_remember. eapply wp_mono.
  { apply recovery_tame; [by eapply settled_within|by eapply block_fits_within]. }
  intros r s2 [Hw2 _] Hrun. pose proof (recovery_untimed b true s1) as Hs2. rewrite Hrun in Hs2. simpl in Hs2.
  destruct (set_timeout_within (base_fwt_ms s) s2) as [Hw3 (g3 & Hs3 & Ht3)].
  apply wp_bind, wp_attempt. unfold wp at 1.
  set (s3 := (try_set_timeout_ms timer (base_fwt_ms s) s2).2) in *.
  apply wp_of_result. split; [by do 2 (etrans; [done|])|].
  exists [(ext, g1); (base_fwt_ms s, g3)]. rewrite Hs3, Hs2, Hs1, <- app_assoc. split; [done|].
  split; [done|]. intros ms g [= <- <-]. done.
Qed.

Lemma collect_response_tame fuel b s :
  settled s → tame (collect_response air timer fuel b) s.
Proof.
  revert b s. induction fuel as [|fuel IH]; intros b s Hs; simpl; [apply tame_fail|].
  apply wp_tame_bind.
  { apply tame_handler. eapply wp_mono; [apply law_received|]. by intros ?? [? _]. }
  intros action s1 Hrun Hw1. pose proof (settled_within _ _ Hw1 Hs) as Hs1.
  destruct action as [[data|reply]|ack]; [apply tame_ret| |apply tame_fail].
  assert (block_fits s1 reply) as Hb.
  { intros d Hd. pose proof (law_received b (handler s)) as Hr. unfold wp, on_handler in *.
    destruct (process_received b (handler s)) as [[x|] h']; [|done]. injection Hrun as -> _.
    destruct Hr as [_ Hr]. specialize (Hr reply d eq_refl Hd). unfold settled in Hs1. lia. }
  apply wp_tame_bind; [by apply reply_round_tame|]. intros b2 s2 _ Hw2.
  apply IH. by eapply settled_within.
Qed.

Lemma send_chain_tame fuel apdu max_inf offset s :
  settled s →
  Z.of_nat max_inf + 3 + (if handler_cid (handler s) then 1 else 0) ≤ fsc s →
  tame (send_chain air fuel apdu max_inf offset) s.
Proof.
  revert offset s. induction fuel as [|fuel IH]; intros offset s Hs Hmax; simpl; [apply tame_fail|].
  set (inf := take _ _).
  assert (length inf ≤ max_inf)%nat as Hinf by (unfold inf; rewrite length_take; lia).
  set (chaining := bool_decide _).
  apply wp_tame_bind.
  { apply tame_handler. eapply wp_mono; [apply law_iblock|]. by intros ?? [? _]. }
  intros iblock s1 Hrun Hw1. pose proof (settled_within _ _ Hw1 Hs) as Hs1.
  assert (block_fits s1 iblock) as Hb.
  { intros d Hd. pose proof (law_iblock inf chaining (handler s)) as Hr. unfold wp, on_handler in *.
    destruct (build_iblock inf chaining (handler s)) as [[x|] h']; [|done]. injection Hrun as -> _.
    destruct Hr as [_ Hr]. destruct (Hr iblock eq_refl) as [_ Hlen]. specialize (Hlen d Hd).
    destruct Hw1 as (_ & -> & _). destruct (handler_cid (handler s)); lia. }
  apply wp_tame_bind; [by apply recovery_tame|]. intros resp s2 _ Hw2.
  pose proof (settled_within _ _ Hw2 Hs1) as Hs2.
  destruct chaining; [|apply tame_ret]. apply wp_tame_bind.
  { apply tame_handler. eapply wp_mono; [apply law_received|]. by intros ?? [? _]. }
  intros action s3 _ Hw3. pose proof (settled_within _ _ Hw3 Hs2) as Hs3.
  assert (Z.of_nat max_inf + 3 + (if handler_cid (handler s3) then 1 else 0) ≤ fsc s3) as Hmax3.
  { assert (within s s3) as (_ & -> & _ & _ & -> & _) by (do 2 (etrans; [done|]); done). done. }
  destruct action as [[?|?]|[]]; try apply tame_fail; by apply IH.
Qed.

Lemma exchange_tame fuel apdu s : settled s → tame (exchange air timer fuel apdu) s.
Proof.
  intros Hs. unfold exchange. apply wp_tame_bind.
  { apply tame_handler. apply law_begin. }
  intros _ s1 _ Hw1. pose proof (settled_within _ _ Hw1 Hs) as Hs1.
  apply wp_tame_bind.
  { apply tame_handler. eapply wp_mono; [apply law_iblock|]. by intros ?? [? _]. }
  intros probe s2 Hrun Hw2. pose proof (settled_within _ _ Hw2 Hs1) as Hs2.
  assert (has_cid probe = handler_cid (handler s2)) as Hcid.
  { pose proof (law_iblock [] false (handler s1)) as Hr. unfold wp, on_handler in *.
    destruct (build_iblock [] false (handler s1)) as [[x|] h']; [|done]. injection Hrun as -> <-.
    destruct Hr as [Hh Hr]. simpl in *. rewrite Hh. by apply Hr. }
  apply wp_tame_bind; [by apply tame_here|]. intros s3 s4 [= <- <-] _.
  case_decide as Hm; [apply tame_fail|]. case_decide; [apply tame_fail|].
  apply wp_tame_bind.
  { apply send_chain_tame; [done|]. rewrite Hcid in Hm |- *.
    destruct (handler_cid (handler s2)); lia. }
  intros first s5 _ Hw5. apply collect_response_tame. by eapply settled_within.
Qed.

(** The exchange of an APDU respects the card's limits on every path:
    whatever the card answers and however often blocks are repeated, every frame
    put on the air fits the frame size the card announced (checksum included).
    The timeout is left alone, or the last request of the exchange, successful or
    not, is for the base waiting time; a transceiver that refuses it keeps the
    time it has ([restore_lost]). *)
Theorem exchange_within_limits (fuel : nat) (apdu : list Z) (s : Pcd H) :
  settled s →
  let s' := (exchange air timer fuel apdu s).2 in
  restored s s' ∧
  ∃ frames, sent s' = sent s ++ frames ∧ Forall (frame_fits s) frames.
Proof.
  intros Hs. by destruct (exchange_tame fuel apdu s Hs) as [(_ & _ & _ & _ & _ & Hfr) Ht].
Qed.
End limits.

(** ** Recovery is bounded *)

Section recovery.
  Context {Block H : Type} {A : Iso14443Api Block H}.
  Context (air : list (list Z) → option (list Z)).

Definition encode (hw : bool) (b : Block) : list Z :=
  match to_bytes_without_crc b with
  | Ok d => if hw then d else append_crc_a d
  | Err _ => []
  end.

(** At most [n] frames went out, all of them [b] when the same block must be
    repeated; an accepted answer is the last one, within the reader's limit. *)
Definition bounded (n : nat) (same : option Block) (s : Pcd H) (r : result Block PcdError) (s' : Pcd H) :
    Prop :=
  hw_crc s' = hw_crc s ∧ fsd s' = fsd s ∧
  ∃ frames, sent s' = sent s ++ frames ∧ (length frames ≤ n)%nat ∧
    (∀ b, same = Some b → Forall (λ f, f = encode (hw_crc s) b) frames) ∧
    (∀ b, r = Ok b → ∃ resp, air (sent s') = Some resp ∧
       Z.of_nat (length resp) + (if hw_crc s then 2 else 0) ≤ fsd s).

Lemma bounded_none n same s e : bounded n same s (Err e) s.
Proof. repeat split. exists []. rewrite app_nil_r. split_and!; [done|simpl; lia|done|done]. Qed.

Lemma bounded_trans n m same s e s1 r s2 :
  bounded n same s (Err e) s1 → bounded m same s1 r s2 → bounded (n + m) same s r s2.
Proof.
  intros (Hh1 & Hf1 & fr1 & Hs1 & Hl1 & Ha1 & _) (Hh2 & Hf2 & fr2 & Hs2 & Hl2 & Ha2 & Hr2).
  split; [congruence|]. split; [congruence|]. exists (fr1 ++ fr2).
  rewrite Hs2, Hs1, app_assoc, length_app. rewrite Hh1, Hf1 in *. split_and!; [done|lia| |].
  - intros b ->. apply Forall_app. auto.
  - intros b Hb. rewrite <- Hs1, <- Hs2. eauto.
Qed.

Lemma transceive_block_bounded b same s :
  (∀ b', same = Some b' → b' = b) →
  wp (transceive_block air b) (bounded 1 same s) s.
Proof.
  intros Hb. unfold transceive_block. apply wp_bind. unfold wp at 1, get_state. simpl.
  apply wp_bind. destruct (to_bytes_without_crc b) as [d|e] eqn:Hd; [|apply wp_fail, bounded_none].
  apply wp_ret, wp_bind. unfold wp at 1, transceive.
  set (frame := if hw_crc s then d else append_crc_a d).
  assert (∀ r, (∀ b0, r = Ok b0 → ∃ resp, air (sent s ++ [frame]) = Some resp ∧
    Z.of_nat (length resp) + (if hw_crc s then 2 else 0) ≤ fsd s) →
    bounded 1 same s r (mkPcd (hw_crc s) (fsc s) (fsd s) (handler s) (base_fwt_ms s)
      (sent s ++ [frame]) (timeout_ms s) (sets s))) as Hbd.
  { intros r Hr. repeat split. exists [frame]. split_and!; [done|simpl; lia| |done].
    intros b' ->%Hb. apply Forall_singleton. unfold encode. by rewrite Hd. }
  destruct (air (sent s ++ [frame])) as [resp|] eqn:Hair; simpl; [|by apply Hbd].
  case_decide as Hlen; [apply wp_fail, Hbd; done|].
  apply wp_of_result, Hbd. intros b0 _. exists resp. split; [done|lia].
Qed.

Lemma recover_bounded n b rc s :
  wp (recover air n b rc) (bounded n (if rc then Some b else None) s) s.
Proof.
  revert s. induction n as [|n IH]; intros s; simpl; [apply wp_fail, bounded_none|].
  set (same := if rc then Some b else None). apply wp_bind.
  apply (wp_mono _ (λ r s1, hw_crc s1 = hw_crc s ∧ fsd s1 = fsd s ∧ sent s1 = sent s ∧
    ∀ again, r = Ok again → ∀ b', same = Some b' → b' = again)).
  { unfold same. destruct rc; [apply wp_ret; split_and!; [done..|naive_solver]|].
    unfold wp, on_handler. by destruct (build_rnak (handler s)). }
  intros [again|e] s1 (Hh & Hf & Hs & Ha).
  2:{ split; [done|]. split; [done|]. exists []. rewrite app_nil_r.
      split_and!; [done|simpl; lia|done|done]. }
  assert (∀ m r s2, bounded m same s1 r s2 → bounded m same s r s2) as Hre.
  { intros m r s2 (Hh2 & Hf2 & Hrest). rewrite Hh, Hf, Hs in *. by split_and!. }
  apply wp_bind, wp_attempt. eapply wp_mono; [apply (transceive_block_bounded _ same); by apply Ha|].
  intros [resp|e] s2 Hb2%Hre.
  - apply wp_ret. destruct Hb2 as (? & ? & fr & ? & ? & ? & ?). split_and!; [done..|].
    exists fr. split_and!; [done|lia|done|done].
  - eapply wp_mono; [apply IH|]. intros r s3 Hb3.
    exact (bounded_trans 1 n same s e s2 r s3 Hb2 Hb3).
Qed.

(** Error recovery is bounded and conservative: for a block and whatever
    the air does, at most three frames are sent; while receiving a chain every
    one of them is the same block, with the same block number (rule 5); and an
    answer is accepted only if it is the answer to the last frame and within the
    frame size the reader announced. *)
Theorem recovery_bounded (b : Block) (receiving_chain : bool) (s : Pcd H) :
  let '(r, s') := transceive_with_recovery air b receiving_chain s in
  ∃ frames, sent s' = sent s ++ frames ∧ (length frames ≤ 3)%nat ∧
    (receiving_chain = true → Forall (λ f, f = encode (hw_crc s) b) frames) ∧
    (∀ resp_block, r = Ok resp_block → ∃ resp, air (sent s') = Some resp ∧
       Z.of_nat (length resp) + (if hw_crc s then 2 else 0) ≤ fsd s).
Proof.
  assert (wp (transceive_with_recovery air b receiving_chain)
    (bounded 3 (if receiving_chain then Some b else None) s) s) as Hw.
  { unfold transceive_with_recovery. set (same := if receiving_chain then _ else _).
    apply wp_bind, wp_attempt. eapply wp_mono.
    { apply (transceive_block_bounded _ same). unfold same. destruct receiving_chain; naive_solver. }
    intros [resp|e] s1 Hb1.
    - apply wp_ret. destruct Hb1 as (? & ? & fr & ? & ? & ? & ?). split_and!; [done..|].
      exists fr. split_and!; [done|lia|done|done].
    - eapply wp_mono; [apply recover_bounded|]. intros r s2 Hb2.
      exact (bounded_trans 1 2 same s e s1 r s2 Hb1 Hb2). }
  unfold wp in Hw. destruct (transceive_with_recovery _ _ _ _) as [r s'].
  destruct Hw as (_ & _ & fr & Hs & Hl & Hsame & Hr). exists fr. split_and!; [done|done| |done].
  intros ->. by apply Hsame.
Qed.
End recovery.

(** ** A small block layer *)

(** Blocks without their checksum; I-blocks carry the chaining bit, S(WTX) is
    0xF2, R(ACK) is 0xA2. *)
#[local] Instance toy_api : Iso14443Api (list Z) () := {|
  to_bytes_without_crc b := Ok b;
  block_from_crc_verified resp := Ok resp;
  block_try_from resp := Ok (take (length resp - 2) resp);
  has_cid _ := false;
  is_deselect b := bool_decide (b = [0xC2]);
  is_wtx b := bool_decide (head b = Some 0xF2);
  payload b := tail b;
  begin_exchange h := h;
  build_iblock inf chaining h := (Ok ((if chaining then 0x12 else 0x02) :: inf), h);
  build_rnak h := (Ok [0xB2], h);
  build_deselect h := (Ok [0xC2], h);
  process_received b h :=
    (match b with
     | 0x02 :: data => Ok (inl (inl data))
     | 0xF2 :: _ => Ok (inl (inr (take 2 b)))
     | 0xA2 :: _ => Ok (inr true)
     | _ => Err Pcd_Protocol
     end, h) |}.

#[local] Program Instance toy_iso_laws : Iso14443Laws toy_api := {| handler_cid _ := false |}.
Next Obligation. done. Qed.
Next Obligation.
  intros inf c h. unfold wp. simpl. split; [done|]. intros b [= <-]. split; [done|]. by intros d [= <-].
Qed.
Next Obligation.
  intros h. unfold wp. simpl. split; [done|]. intros b d [= <-] [= <-]. simpl. lia.
Qed.
Next Obligation.
  intros b h. unfold wp. simpl. split; [done|]. intros b' d Hr [= <-]. simpl in Hr.
  repeat case_match; simplify_eq; simpl; rewrite ?length_take; lia.
Qed.

(** A card that acknowledges a chain, asks for more time, and answers. *)
Definition toy_air (sent : list (list Z)) : option (list Z) :=
  match length sent with
  | 1%nat => Some [0xA2]
  | 2%nat => None
  | 3%nat => Some [0xF2; 3]
  | _ => Some [0x02; 0x90; 0x00]
  end.

Definition toy_pcd : Pcd () := mkPcd true 16 64 () 20 [] 20 [].

(** A timer that obeys, and one that refuses its second request and keeps the time
    it has. *)
Definition obeying (_ : list (list Z)) (_ : list (Z * bool)) (_ : Z) : result () Z := Ok ().
Definition refusing (_ : list (list Z)) (reqs : list (Z * bool)) (_ : Z) : result () Z :=
  match reqs with [(held, _)] => Err held | _ => Ok () end.

Lemma exchange_within_limits_witness :
  let run := exchange toy_air obeying 10 (replicate 20 7) toy_pcd in
  run.1 = Ok [0x90; 0x00] ∧ length (sent run.2) = 4%nat ∧ timeout_ms run.2 = 20 ∧
  restored toy_pcd run.2 ∧ ∃ frames, sent run.2 = sent toy_pcd ++ frames ∧ Forall (frame_fits toy_pcd) frames.
Proof.
  split; [vm_compute; reflexivity|]. split; [vm_compute; reflexivity|]. split; [vm_compute; reflexivity|].
  apply (exchange_within_limits toy_air obeying 10 (replicate 20 7) toy_pcd). discriminate.
Defined.

(** A refused restore goes unnoticed: the exchange succeeds, and the next one runs
    under the extended timeout. *)
Example restore_lost :
  let '(r, s) := exchange toy_air refusing 10 (replicate 20 7) toy_pcd in
  r = Ok [0x90; 0x00] ∧ sets s = [(60, true); (20, false)] ∧ timeout_ms s = 60.
Proof. vm_compute. done. Qed.
