(* ===== verification/Readers.v ===== *)
(** * Reader front ends

    [crates/pn532-transport/src/lib.rs] and [crates/bolty-pn532/src/lib.rs] (the
    PN532 device and transport) and the activation ladder of
    [crates/bolty-mfrc522/src/lib.rs]. The chips answer by an arbitrary function
    of the commands sent so far; a request to the PN532 carries the longest response
    the caller has room for, which depends on the buffer size [BUF] of the driver. *)

From S2P Require Import Prelude.

(** ** APDU responses *)

Record Response : Type := mkResponse { rsp_data : list Z; sw1 : Z; sw2 : Z }.

(** [split_response], the same function in both crates. *)
Definition split_response (response : list Z) : result Response nat :=
  if decide (length response < 2)%nat then Err (length response) else
  let split := (length response - 2)%nat in
  Ok (mkResponse (take split response) (nth split response 0) (nth (split + 1) response 0)).

(** ** PN532 *)

Inductive Pn532Error : Type := NotInitialized | NoCard | Communication | BufferOverflow.

#[export] Instance Pn532Error_eq_dec : EqDecision Pn532Error.
Proof. solve_decision. Defined.

(** The requests of the driver crate the device uses. *)
Inductive Request : Type :=
| GetFirmwareVersion | SamConfiguration
| InListPassiveTarget
| InDataExchange (target : Z) (data : list Z)
| InRelease (target : Z).

(** A level of the reset pin, or a call of [Pn532::process] with the longest
    response it may return. *)
Inductive ChipCmd : Type :=
| Rst_Low | Rst_High
| Process (request : Request) (response_len : Z).

Definition PN532_BUF_SIZE : Z := 64.
Definition max_response_len (buf : Z) : Z := Z.max 0 (buf - 9).

Record Pn532Device : Type := mkPn532 {
  target_num : option Z;
  initialized : bool;
  pn_uid : option (list Z);
  chip_log : list ChipCmd }.

Definition Pn532Device_new : Pn532Device := mkPn532 None false None [].

(** [get_firmware_version]: the version of a PN532 (IC 0x32). *)
Definition parse_firmware (response : list Z) : result (Z * Z) Pn532Error :=
  if decide ((length response < 4)%nat ∨ head response ≠ Some 0x32) then Err Communication
  else Ok (nth 1 response 0, nth 2 response 0).

(** [inlist_passive_target]: target number and UID of the first target; a UID
    that runs past the response is empty. *)
Definition parse_inlist (response : list Z) : option (Z * list Z) :=
  let targets_found := default 0 (head response) in
  if decide (targets_found = 0) then None else
  let target_num := nth 1 response 0 in
  let uid_len := Z.to_nat (nth 5 response 0) in
  Some (target_num, default [] (get_range response 6 (6 + uid_len))).

Definition parse_exchange (result_ : list Z) : result (list Z) Pn532Error :=
  if decide (default 0xff (head result_) ≠ 0) then Err Communication else Ok (tail result_).

Section pn532.
  (** The driver, with a buffer of [BUF] bytes: what the last command of a history
      returns; [None] is an error. *)
  Context (BUF : Z) (chip : list ChipCmd → option (list Z)).

  Local Notation P := (M Pn532Device Pn532Error).

Definition issue (cmd : ChipCmd) : P (list Z) := λ d,
  let log := chip_log d ++ [cmd] in
  (match chip log with Some r => Ok r | None => Err Communication end,
   mkPn532 (target_num d) (initialized d) (pn_uid d) log).

Definition process (request : Request) (response_len : Z) : P (list Z) := issue (Process request response_len).

Definition of_parse {A} (r : result A Pn532Error) : P A :=
  match r with Ok a => mret a | Err e => fail e end.

Definition set_initialized : P () := λ d,
  (Ok (), mkPn532 (target_num d) true (pn_uid d) (chip_log d)).

Definition init_with_delay : P () :=
  _ ← issue Rst_Low;
  _ ← issue Rst_High;
  resp ← process GetFirmwareVersion 4;
  _ ← of_parse (parse_firmware resp);
  _ ← process SamConfiguration 0;
  set_initialized.

Definition detect_card (d : Pn532Device) : bool * Pn532Device :=
  if negb (initialized d) then (false, d) else
  match process InListPassiveTarget (Z.min (max_response_len BUF) 20) d with
  | (Ok resp, d) =>
      match parse_inlist resp with
      | Some (target, uid) => (true, mkPn532 (Some target) (initialized d) (Some uid) (chip_log d))
      | None => (false, mkPn532 None (initialized d) None (chip_log d))
      end
  | (Err _, d) => (false, mkPn532 None (initialized d) None (chip_log d))
  end.

Definition exchange_apdu (apdu : list Z) : P (list Z) := λ d,
  if negb (initialized d) then (Err NotInitialized, d) else
  match target_num d with
  | None => (Err NoCard, d)
  | Some target =>
      (r ← process (InDataExchange target apdu) (max_response_len BUF); of_parse (parse_exchange r)) d
  end.

Definition release_card (d : Pn532Device) : Pn532Device :=
  match target_num d with
  | None => d
  | Some target =>
      let '(_, d) := process (InRelease target) 0 d in
      mkPn532 None (initialized d) None (chip_log d)
  end.

(** ** The PN532 transport *)

Inductive Pn532TransportError : Type :=
| Pt_Device (e : Pn532Error) | Pt_InvalidResponseLength (n : nat) | Pt_NoCard.

Record Pn532Transport : Type := mkPn532Transport {
  pt_device : Pn532Device;
  pt_uid : option (list Z) }.

Local Notation X := (M Pn532Transport Pn532TransportError).

Definition finish_activation : X () := λ s,
  let '(found, d) := detect_card (pt_device s) in
  if found then (Ok (), mkPn532Transport d (pn_uid d))
  else (Err Pt_NoCard, mkPn532Transport d (pt_uid s)).

(** An activation, by the way the device is initialized when it is not yet. *)
Definition activate_by (init : P ()) : X () := λ s,
  let d := pt_device s in
  let '(r, d) := (if initialized d then (Ok (), d) else init d) in
  match r with
  | Err e => (Err (Pt_Device e), mkPn532Transport d (pt_uid s))
  | Ok _ => finish_activation (mkPn532Transport d (pt_uid s))
  end.

Definition activate_with_delay : X () := activate_by init_with_delay.

(** [init] has a delay to use on the ESP32 only; elsewhere [activate] works on a
    device that something else has initialized. *)
Definition init_host : P () := fail NotInitialized.
Definition activate_host : X () := activate_by init_host.

Definition release (s : Pn532Transport) : Pn532Transport :=
  mkPn532Transport (release_card (pt_device s)) None.

Definition transmit (apdu : list Z) : X Response := λ s,
  let '(r, d) := exchange_apdu apdu (pt_device s) in
  (match r with
   | Err e => Err (Pt_Device e)
   | Ok response => map_err Pt_InvalidResponseLength (split_response response)
   end, mkPn532Transport d (pt_uid s)).

Definition get_uid : X (list Z) := λ s, (ok_or (pt_uid s) Pt_NoCard, s).

(** ** Properties *)

(** The target the chip has selected, by its command history. *)
Fixpoint selected (rev_log : list ChipCmd) : option Z :=
  match rev_log with
  | [] => None
  | Process InListPassiveTarget _ :: before =>
      match chip (reverse rev_log) with
      | Some resp => fst <$> parse_inlist resp
      | None => None
      end
  | Process (InRelease _) _ :: _ | Rst_Low :: _ => None
  | _ :: before => selected before
  end.

(** The chip was reset, identified itself and was configured. *)
Definition configured_by (log : list ChipCmd) : Prop :=
  ∃ pre post resp, log = pre ++ [Process GetFirmwareVersion 4; Process SamConfiguration 0] ++ post ∧
    chip (pre ++ [Process GetFirmwareVersion 4]) = Some resp ∧ is_ok (parse_firmware resp) = true ∧
    chip (pre ++ [Process GetFirmwareVersion 4; Process SamConfiguration 0]) ≠ None.

(** Every exchange of a history went to the target selected at that point, on a
    configured chip, with room for what the buffer holds. *)
Definition exchanges_ok (log : list ChipCmd) : Prop :=
  ∀ pre target data n post, log = pre ++ Process (InDataExchange target data) n :: post →
    selected (reverse pre) = Some target ∧ configured_by pre ∧ n = max_response_len BUF.

Record device_inv (d : Pn532Device) : Prop := {
  inv_target : ∀ t, target_num d = Some t → selected (reverse (chip_log d)) = Some t;
  inv_uid : target_num d = None ↔ pn_uid d = None;
  inv_fresh : initialized d = false → target_num d = None;
  inv_init : initialized d = true → configured_by (chip_log d);
  inv_exchanges : exchanges_ok (chip_log d) }.

Lemma configured_app log cmds : configured_by log → configured_by (log ++ cmds).
Proof.
  intros (pre & post & resp & -> & H). exists pre, (post ++ cmds), resp. split; [|done].
  by rewrite <- !app_assoc.
Qed.

Lemma exchanges_snoc log cmd :
  exchanges_ok log →
  (∀ t data n, cmd = Process (InDataExchange t data) n →
     selected (reverse log) = Some t ∧ configured_by log ∧ n = max_response_len BUF) →
  exchanges_ok (log ++ [cmd]).
Proof.
  intros Hok Hcmd pre t data n post Heq.
  destruct (decide (post = [])) as [->|Hne].
  - apply app_inj_tail in Heq as [-> Hc]. by apply (Hcmd t data n).
  - destruct (exists_last Hne) as (post' & c & ->).
    rewrite app_comm_cons, app_assoc in Heq. apply app_inj_tail in Heq as [-> _]. by eapply Hok.
Qed.

(** A command that neither selects nor exchanges. *)
Lemma selected_other log cmd :
  (match cmd with Process InListPassiveTarget _ | Process (InRelease _) _ | Rst_Low => False | _ => True end) →
  selected (reverse (log ++ [cmd])) = selected (reverse log).
Proof. rewrite reverse_snoc. by destruct cmd as [| |[] n]. Qed.

Lemma reverse_reverse_snoc {B} (l : list B) x : reverse (x :: reverse l) = l ++ [x].
Proof. by rewrite reverse_cons, reverse_involutive. Qed.

Lemma init_inv d : initialized d = false → device_inv d → device_inv (init_with_delay d).2.
Proof.
  intros Hi [Ht Hu Hf Hc He]. specialize (Hf Hi). destruct d as [t i u log]. simpl in *. subst.
  assert (∀ cmds, Forall (λ c, match c with Process (InDataExchange _ _) _ => False | _ => True end) cmds →
    exchanges_ok (log ++ cmds)) as Hex.
  { intros cmds. revert He. generalize log. clear.
    induction cmds as [|c cmds IH]; intros log He; [by rewrite app_nil_r|].
    intros [Hc Hcs]%Forall_cons. change (c :: cmds) with ([c] ++ cmds). rewrite app_assoc.
    apply IH; [|done]. apply exchanges_snoc; [done|]. by intros t data n ->. }
  assert (∀ b cmds, Forall (λ c, match c with Process (InDataExchange _ _) _ => False | _ => True end) cmds →
    (b = true → configured_by (log ++ cmds)) → device_inv (mkPn532 None b u (log ++ cmds))) as Hinv.
  { intros b cmds Hcmds Hb. split; simpl; [done|done|done|done|by apply Hex]. }
  unfold init_with_delay, process, issue, mbind, M_bind. simpl. rewrite <- !app_assoc. simpl.
  destruct (chip _); [|apply Hinv; [by repeat constructor|done]].
  destruct (chip _); [|apply Hinv; [by repeat constructor|done]].
  destruct (chip (log ++ [Rst_Low; Rst_High; Process GetFirmwareVersion 4])) as [resp|] eqn:Hv;
    [|apply Hinv; [by repeat constructor|done]].
  destruct (parse_firmware resp) eqn:Hp; simpl; [|apply Hinv; [by repeat constructor|done]].
  rewrite <- !app_assoc. simpl.
  destruct (chip (log ++ [Rst_Low; Rst_High; Process GetFirmwareVersion 4; Process SamConfiguration 0])) eqn:Hs; simpl;
    [|apply Hinv; [by repeat constructor|done]].
  apply Hinv; [by repeat constructor|]. intros _.
  exists (log ++ [Rst_Low; Rst_High]), [], resp. rewrite <- !app_assoc. simpl.
  by rewrite Hv, Hs, Hp.
Qed.

Lemma detect_inv d : device_inv d → device_inv (detect_card d).2.
Proof.
  intros [Ht Hu Hf Hc He]. unfold detect_card. destruct (initialized d) eqn:Hi; simpl; [|by split; rewrite ?Hi].
  set (cmd := Process InListPassiveTarget (Z.min (max_response_len BUF) 20)).
  assert (exchanges_ok (chip_log d ++ [cmd])) as Hex by by apply exchanges_snoc.
  assert (configured_by (chip_log d ++ [cmd])) as Hcf by by apply configured_app, Hc.
  destruct (chip (chip_log d ++ [cmd])) as [resp|] eqn:Hr;
    [destruct (parse_inlist resp) as [[t uid]|] eqn:Hp|]; split; simpl; try done.
  - intros t' [= <-]. rewrite reverse_snoc. simpl. fold cmd. by rewrite reverse_reverse_snoc, Hr, Hp.
  - congruence.
Qed.

Lemma exchange_inv apdu d : device_inv d → device_inv (exchange_apdu apdu d).2.
Proof.
  intros Hd. pose proof Hd as [Ht Hu Hf Hc He]. unfold exchange_apdu.
  destruct (initialized d) eqn:Hi; simpl; [|done]. destruct (target_num d) as [t|] eqn:Htn; [|done].
  unfold mbind, M_bind, process, issue.
  assert (device_inv (mkPn532 (target_num d) (initialized d) (pn_uid d)
    (chip_log d ++ [Process (InDataExchange t apdu) (max_response_len BUF)]))) as Hinv.
  { split; simpl.
    - intros t' Ht'. rewrite selected_other by done. apply Ht. congruence.
    - by rewrite Htn.
    - congruence.
    - intros _. by apply configured_app, Hc.
    - apply exchanges_snoc; [done|]. intros t' data' n [= <- <- <-]. auto. }
  destruct (chip _) as [resp|]; simpl; [|done]. by destruct (parse_exchange resp).
Qed.

Lemma release_inv d : device_inv d → device_inv (release_card d).
Proof.
  intros Hd. pose proof Hd as [Ht Hu Hf Hc He]. unfold release_card.
  destruct (target_num d) as [t|] eqn:Htn; [|done]. split; simpl; try done.
  - intros Hi. by apply configured_app, Hc.
  - by apply exchanges_snoc.
Qed.

Inductive TransportOp : Type := Op_Activate | Op_Transmit (apdu : list Z) | Op_Release | Op_GetUid.

Definition transport_step (op : TransportOp) (s : Pn532Transport) : Pn532Transport :=
  match op with
  | Op_Activate => (activate_with_delay s).2
  | Op_Transmit apdu => (transmit apdu s).2
  | Op_Release => release s
  | Op_GetUid => (get_uid s).2
  end.

Lemma transport_step_inv op s :
  device_inv (pt_device s) → device_inv (pt_device (transport_step op s)).
Proof.
  intros Hd. destruct op as [|apdu| |]; simpl.
  - unfold activate_with_delay, activate_by, finish_activation.
    assert (device_inv (if initialized (pt_device s) then (Ok () : result () Pn532Error, pt_device s)
      else init_with_delay (pt_device s)).2) as Hi.
    { destruct (initialized (pt_device s)) eqn:E; [done|by apply init_inv]. }
    destruct (if initialized _ then _ else _) as [[[]|e] d]; simpl in *; [|done].
    apply detect_inv in Hi. by destruct (detect_card d) as [[] d'].
  - pose proof (exchange_inv apdu _ Hd). unfold transmit. by destruct (exchange_apdu _ _).
  - by apply release_inv.
  - done.
Qed.

(** The PN532 transport never talks to a card it has not selected: over any
    sequence of activations, APDUs and releases on a fresh device, and however
    the chip answers, every data exchange it was sent was addressed to the target
    that its own command history shows as selected at that moment, on a chip that
    had identified itself as a PN532 and been configured, with the response length
    that its buffer allows. *)
Theorem pn532_exchange_guarded (ops : list TransportOp) :
  let s := foldl (λ s op, transport_step op s) (mkPn532Transport Pn532Device_new None) ops in
  exchanges_ok (chip_log (pt_device s)) ∧ device_inv (pt_device s).
Proof.
  intros s. assert (device_inv (pt_device s)) as Hd; [|split; [apply Hd|done]].
  unfold s. clear s. assert (device_inv Pn532Device_new) as Hnew.
  { split; simpl; try done. intros pre t data n post Heq. by destruct pre. }
  revert Hnew. change Pn532Device_new with (pt_device (mkPn532Transport Pn532Device_new None)) at 1.
  generalize (mkPn532Transport Pn532Device_new None).
  induction ops as [|op ops IH]; intros s Hs; [done|]. simpl. by apply IH, transport_step_inv.
Qed.
End pn532.

(** ** MFRC522 activation *)

Definition ACTIVATION_ATTEMPTS : nat := 4.

Inductive MfCmd : Type :=
| Mf_Prepare | Mf_Settle | Mf_Wakeup | Mf_Rats | Mf_HwCrc | Mf_SetTimeout (ms : Z).

Inductive MfError : Type :=
| Mf_Mfrc522 | Mf_Activation | Mf_Protocol | Mf_InvalidCid | Mf_InvalidResponseLength (n : nat)
| Mf_InvalidUidLength (n : nat) | Mf_UnsupportedTag.

#[export] Instance MfError_eq_dec : EqDecision MfError.
Proof. solve_decision. Defined.

Definition is_retryable_activation_error (e : MfError) : bool :=
  match e with Mf_UnsupportedTag | Mf_InvalidUidLength _ | Mf_InvalidCid => false | _ => true end.

(** The parts of the answers the ladder looks at: SAK and UID of an activation,
    frame size and waiting time of an ATS. *)
Record Activation : Type := mkActivation { iso14443_4_compliant : bool; act_uid : list Z }.
Record Ats : Type := mkAts { ats_fsc : Z; ats_fwt_us : Z }.

Record Mfrc522Transport : Type := mkMfrc522 {
  mf_uid : list Z; mf_fsc : Z; mf_fsd : Z; mf_base_fwt_ms : Z }.

Definition validate_uid (uid : list Z) : result () MfError :=
  if decide (length uid = 4%nat ∨ length uid = 7%nat) then Ok ()
  else Err (Mf_InvalidUidLength (length uid)).

Definition frame_wait_time_ms (ats : Ats) : Z :=
  let us := u32 (ats_fwt_us ats) in if decide (us = 0) then 5 else us / 1000 + 10.

(** The waiting-time index of TB(1) in a serialized ATS. *)
Definition fwi_from_ats (bytes : list Z) : option Z :=
  t0 ← bytes !! 1%nat;
  let i := if decide (Z.land t0 0x10 ≠ 0) then 3%nat else 2%nat in
  if decide (Z.land t0 0x20 = 0) then None else
  tb ← bytes !! i;
  Some (Z.shiftr tb 4).

Definition frame_wait_time_ms_no_std (ats_bytes : list Z) : Z :=
  let fwi := default 4 (fwi_from_ats ats_bytes) in
  let us := 302 * Z.shiftl 1 fwi in u32 (us / 1000) + 10.

Section mfrc522.
  (** The front end, by the commands given to it so far. *)
  Context (mf_ok : list MfCmd → bool) (mf_wakeup : list MfCmd → option Activation)
    (mf_rats : list MfCmd → option Ats).

  Local Notation P := (M (list MfCmd) MfError).

Definition mf_cmd (c : MfCmd) : P () := λ log,
  let log := log ++ [c] in (if mf_ok log then Ok () else Err Mf_Mfrc522, log).
Definition mf_note (c : MfCmd) : P () := λ log, (Ok (), log ++ [c]).
Definition mf_wake : P Activation := λ log,
  let log := log ++ [Mf_Wakeup] in (ok_or (mf_wakeup log) Mf_Activation, log).
Definition mf_connect : P Ats := λ log,
  let log := log ++ [Mf_Rats] in (ok_or (mf_rats log) Mf_Protocol, log).
Definition mf_result {A} (r : result A MfError) : P A :=
  match r with Ok a => mret a | Err e => fail e end.

Definition from_activation (activation : Activation) : P Mfrc522Transport :=
  if negb (iso14443_4_compliant activation) then fail Mf_UnsupportedTag else
  _ ← mf_result (validate_uid (act_uid activation));
  ats ← mf_connect;
  _ ← mf_cmd Mf_HwCrc;
  let limit := Z.min (ats_fsc ats) 64 in
  let fwt_ms := frame_wait_time_ms ats in
  _ ← mf_cmd (Mf_SetTimeout fwt_ms);
  mret (mkMfrc522 (act_uid activation) limit limit fwt_ms).

Definition activate_after_prepare : P Mfrc522Transport :=
  activation ← mf_wake;
  from_activation activation.

Definition mf_activate : P Mfrc522Transport :=
  _ ← mf_cmd Mf_Prepare;
  activate_after_prepare.

(** The retry loop; [last_err] is the error of the last round. *)
Fixpoint activation_rounds (attempts : nat) (last_err : option MfError) : P Mfrc522Transport :=
  match attempts with
  | O => fail (default Mf_Mfrc522 last_err)
  | S attempts =>
      r ← attempt (mf_cmd Mf_Prepare);
      match r with
      | Err e => activation_rounds attempts (Some e)
      | Ok _ =>
          _ ← mf_note Mf_Settle;
          w ← attempt mf_wake;
          match w with
          | Ok activation => from_activation activation
          | Err e => activation_rounds attempts (Some e)
          end
      end
  end.

Definition activate_with_delays : P Mfrc522Transport := activation_rounds ACTIVATION_ATTEMPTS None.

(** A round that ended without an answer to the wake-up. *)
Definition failed_round (round : list MfCmd) : Prop :=
  round = [Mf_Prepare] ∨ round = [Mf_Prepare; Mf_Settle; Mf_Wakeup].

(** The commands after the wake-up was answered: none of them is another
    wake-up or a reset of the front end. *)
Definition session_setup (cmds : list MfCmd) : Prop :=
  Forall (λ c, c ≠ Mf_Prepare ∧ c ≠ Mf_Wakeup ∧ c ≠ Mf_Settle) cmds.

Definition activation_outcome (n : nat) (log : list MfCmd) (r : result Mfrc522Transport MfError)
    (log' : list MfCmd) : Prop :=
  ∃ rounds, Forall failed_round rounds ∧
    ((log' = log ++ concat rounds ∧ length rounds = n ∧ is_ok r = false) ∨
     (∃ setup, (length rounds < n)%nat ∧ session_setup setup ∧
        log' = log ++ concat rounds ++ [Mf_Prepare; Mf_Settle; Mf_Wakeup] ++ setup ∧
        ∀ t, r = Ok t → (length (mf_uid t) = 4%nat ∨ length (mf_uid t) = 7%nat) ∧
          mf_fsc t ≤ 64 ∧ mf_fsd t ≤ 64 ∧ 0 < mf_base_fwt_ms t ∧
          last setup = Some (Mf_SetTimeout (mf_base_fwt_ms t)))).

Lemma frame_wait_positive ats : 0 < frame_wait_time_ms ats.
Proof.
  unfold frame_wait_time_ms, u32. case_decide; [lia|].
  pose proof (Z.mod_pos_bound (ats_fwt_us ats) (2 ^ 32)).
  assert (0 ≤ ats_fwt_us ats mod 2 ^ 32 / 1000) by (apply Z.div_pos; lia). lia.
Qed.

Lemma from_activation_spec a log :
  wp (from_activation a) (λ r log', ∃ setup, session_setup setup ∧ log' = log ++ setup ∧
    ∀ t, r = Ok t → (length (mf_uid t) = 4%nat ∨ length (mf_uid t) = 7%nat) ∧
      mf_fsc t ≤ 64 ∧ mf_fsd t ≤ 64 ∧ 0 < mf_base_fwt_ms t ∧
      last setup = Some (Mf_SetTimeout (mf_base_fwt_ms t))) log.
Proof.
  assert (∀ r : result Mfrc522Transport MfError, is_ok r = false → ∀ setup, session_setup setup → ∃ setup0,
    session_setup setup0 ∧ log ++ setup = log ++ setup0 ∧
    ∀ t, r = Ok t → (length (mf_uid t) = 4%nat ∨ length (mf_uid t) = 7%nat) ∧
      mf_fsc t ≤ 64 ∧ mf_fsd t ≤ 64 ∧ 0 < mf_base_fwt_ms t ∧
      last setup0 = Some (Mf_SetTimeout (mf_base_fwt_ms t))) as Hfail.
  { intros r Hr setup Hs. exists setup. split_and!; [done..|]. by intros t ->. }
  assert (∀ c : MfCmd, c ≠ Mf_Prepare → c ≠ Mf_Wakeup → c ≠ Mf_Settle → session_setup [c]) as H1
    by (intros; by apply Forall_singleton).
  unfold from_activation. destruct (iso14443_4_compliant a); simpl.
  2:{ apply wp_fail. exists []. rewrite app_nil_r. split_and!; [by apply Forall_nil|done|done]. }
  unfold validate_uid. apply wp_bind. case_decide as Hu; simpl.
  2:{ apply wp_fail. exists []. rewrite app_nil_r. split_and!; [by apply Forall_nil|done|done]. }
  apply wp_ret, wp_bind. unfold wp at 1, mf_connect. simpl.
  destruct (mf_rats _) as [ats|]; simpl; [|by apply Hfail, H1].
  apply wp_bind. unfold wp at 1, mf_cmd. rewrite <- app_assoc. simpl.
  destruct (mf_ok _); simpl; [|apply Hfail; [done|]; by repeat apply Forall_cons_2].
  apply wp_bind. unfold wp at 1, mf_cmd. rewrite <- app_assoc. simpl.
  destruct (mf_ok _); simpl; [|apply Hfail; [done|]; by repeat apply Forall_cons_2].
  apply wp_ret. eexists. split; [|split; [done|]]; [by repeat apply Forall_cons_2|].
  intros t [= <-]. simpl. split_and!; [done|lia|lia|apply frame_wait_positive|done].
Qed.

Lemma activation_rounds_spec n e log :
  wp (activation_rounds n e) (activation_outcome n log) log.
Proof.
  revert e log. induction n as [|n IH]; intros e log; simpl.
  { apply wp_fail. exists []. split; [done|]. left. by rewrite app_nil_r. }
  assert (∀ round e', failed_round round → wp (activation_rounds n e') (activation_outcome (S n) log)
    (log ++ round)) as Hnext.
  { intros round e' Hr. eapply wp_mono; [apply IH|]. intros r log' (rounds & Hall & Hout).
    exists (round :: rounds). split; [by constructor|]. simpl.
    destruct Hout as [(-> & Hn & Hok)|(setup & Hn & Hs & -> & Ht)].
    - left. rewrite <- app_assoc. split_and!; [done|lia|done].
    - right. exists setup. rewrite <- !app_assoc. split_and!; [lia|done|done|done]. }
  apply wp_bind, wp_attempt. unfold wp at 1, mf_cmd. simpl. destruct (mf_ok _); simpl.
  2:{ apply Hnext. by left. }
  apply wp_bind. unfold wp at 1, mf_note. simpl.
  apply wp_bind, wp_attempt. unfold wp at 1, mf_wake. simpl. rewrite <- !app_assoc. simpl.
  destruct (mf_wakeup _) as [a|]; simpl; [|apply Hnext; by right].
  eapply wp_mono; [apply from_activation_spec|]. intros r log' (setup & Hs & -> & Ht).
  exists []. split; [done|]. right. exists setup. rewrite <- app_assoc. simpl.
  split_and!; [lia|done|done|done].
Qed.

(** The activation ladder of the MFRC522 front end: it makes at most four
    rounds, each at most one wake-up after its own front-end reset; the first
    answered wake-up goes straight into session setup, with no further wake-up or
    reset; and an activated transport has a 4- or 7-byte UID, frame limits within
    the 64-byte FIFO, and the reader's timeout set to its positive base waiting
    time as the last command. *)
Theorem mfrc522_activation_ladder (log : list MfCmd) :
  let '(r, log') := activate_with_delays log in activation_outcome 4 log r log'.
Proof.
  pose proof (activation_rounds_spec ACTIVATION_ATTEMPTS None log) as H. unfold wp in H.
  unfold activate_with_delays. by destruct (activation_rounds _ _ log).
Qed.
End mfrc522.

Lemma split_response_ok data s1 s2 :
  split_response (data ++ [s1; s2]) = Ok (mkResponse data s1 s2).
Proof.
  unfold split_response. rewrite length_app. simpl.
  rewrite decide_False by lia. replace (length data + 2 - 2)%nat with (length data) by lia.
  rewrite take_app_length, !app_nth2 by lia.
  replace (length data - length data)%nat with 0%nat by lia.
  by replace (length data + 1 - length data)%nat with 1%nat by lia.
Qed.
