(* ===== verification/ReaderLink.v ===== *)
(** * The readers under the commands

    [impl Transport] of [crates/bolty-pn532/src/lib.rs] and of
    [crates/bolty-mfrc522/src/lib.rs]: the two reader front ends as transports of the
    commands ([Wire]) and the workflows ([Ntag]).  A run of any workflows over a
    PN532 that relays is the run over the card as seen [through] its driver, which
    loses answers longer than its buffer has room for; when all fit, it is the run
    over the card itself.  Over the MFRC522 every frame of a run stays within the
    limits of the activation. *)

From S2P Require Import Prelude Str Hex Derivation Picc NtagTypes Ndef FileSettings SdmUrl Session Channel Wire EmuCard Ntag TransportSim NtagProofs Tap Iso14443 Readers.

(** What a transport hands to the commands. *)
Definition to_apdu {S E} (m : M S E Response) : M S (Fault E) Rapdu := λ s,
  let '(r, s) := m s in
  (match r with
   | Ok x => Ok (mkRapdu (rsp_data x) (Readers.sw1 x) (Readers.sw2 x))
   | Err e => Err (Fault_Error e)
   end, s).

(** ** PN532 *)

Section pn532.
  Context (BUF : Z) (chip : list ChipCmd → option (list Z)).

#[export] Instance pn532_apdu : Apdu Pn532Transport Pn532TransportError := {|
  apdu_transmit apdu := to_apdu (Readers.transmit BUF chip apdu);
  apdu_get_uid := lift_err Fault_Error Readers.get_uid |}.

Definition pn532_new : Pn532Transport := mkPn532Transport Pn532Device_new None.

(** Any run over the PN532 is a sequence of transport operations, so it keeps the
    invariant of the device. *)
Lemma pn532_transmit_inv apdu :
  preserves (λ s, device_inv BUF chip (pt_device s)) (apdu_transmit (Apdu := pn532_apdu) apdu).
Proof.
  intros s Hs. pose proof (transport_step_inv BUF chip (Op_Transmit apdu) s Hs) as Hi. simpl in *. unfold to_apdu.
  by destruct (Readers.transmit BUF chip apdu s).
Qed.
End pn532.

(** A card in the field: how it answers APDUs, and the UID of its activation. *)
Definition held {T TE} (respond : list Z → M T (Fault TE) Rapdu) (uid : list Z) : Apdu T TE :=
  {| apdu_transmit := respond; apdu_get_uid := mret uid |}.

Definition fault_some {TE} (e : Fault TE) : Fault (option TE) :=
  match e with Fault_Error e => Fault_Error (Some e) | Fault_Panic => Fault_Panic end.

(** The card behind a driver that takes the APDUs of [takes] and has room for
    responses of [room] bytes: status, data and status word.  An APDU it does not
    take never reaches the card; an answer that does not fit is lost, after the
    card has done its work. *)
Definition through {T TE} (takes : list Z → bool) (room : Z) (respond : list Z → M T (Fault TE) Rapdu)
    (apdu : list Z) : M T (Fault (option TE)) Rapdu := λ w,
  if negb (takes apdu) then (Err (Fault_Error None), w) else
  match respond apdu w with
  | (Ok r, w) => (if decide (3 + Z.of_nat (length (ra_data r)) ≤ room) then Ok r else Err (Fault_Error None), w)
  | (Err e, w) => (Err (fault_some e), w)
  end.

(** The chip and its driver do their work: the driver returns the response the chip
    sends ([raw]) if it has room for it; the chip identifies itself as a PN532 and
    takes its configuration, lists the card as [target] with its UID, and relays to
    it the APDUs the driver takes; [serve] is the card after a history of commands.
    An answer the card does not give is an error status or no response at all. *)
Record relaying {T TE} (respond : list Z → M T (Fault TE) Rapdu) (takes : list Z → bool)
    (raw chip : list ChipCmd → option (list Z)) (serve : list ChipCmd → T) (target : Z) (uid : list Z) : Prop := {
  relay_room log req n :
    chip (log ++ [Process req n]) =
      (r ← raw (log ++ [Process req n]); if decide (Z.of_nat (length r) ≤ n) then Some r else None);
  relay_reset log c : c = Rst_Low ∨ c = Rst_High → is_Some (chip (log ++ [c]));
  relay_config log n : raw (log ++ [Process SamConfiguration n]) = Some [];
  relay_firmware log n : ∃ r v, raw (log ++ [Process GetFirmwareVersion n]) = Some r ∧ length r = 4%nat ∧ parse_firmware r = Ok v;
  relay_inlist log n : ∃ r, raw (log ++ [Process InListPassiveTarget n]) = Some r ∧ (length r ≤ 20)%nat ∧
    parse_inlist r = Some (target, uid);
  relay_exchange log t data n :
    if takes data then
      match (respond data (serve log)).1 with
      | Ok r => raw (log ++ [Process (InDataExchange t data) n]) = Some (0 :: ra_data r ++ [ra_sw1 r; ra_sw2 r])
      | Err _ => ∀ r, raw (log ++ [Process (InDataExchange t data) n]) = Some r → head r ≠ Some 0
      end
    else raw (log ++ [Process (InDataExchange t data) n]) = None;
  relay_served log t data n :
    serve (log ++ [Process (InDataExchange t data) n]) = if takes data then (respond data (serve log)).2 else serve log;
  relay_other log c : (∀ t data n, c ≠ Process (InDataExchange t data) n) → serve (log ++ [c]) = serve log }.

(** Results that agree up to the error a transport reports. *)
Definition same_result {A TE1 TE2} : result A (Error TE1) → result A (Error TE2) → Prop :=
  res_sim (error_map (λ _, ())) (error_map (λ _, ())) eq.

Section relay.
  Context {C : AesCrypto} {T TE : Type} (respond : list Z → M T (Fault TE) Rapdu) (takes : list Z → bool).
  Context (BUF : Z) (raw chip : list ChipCmd → option (list Z)) (serve : list ChipCmd → T) (target : Z) (uid : list Z).
  Context (HR : relaying respond takes raw chip serve target uid).

Abbreviation room := (max_response_len BUF).

(** The transport with the card selected, and the card as the chip has left it. *)
Definition selected_card (s : Pn532Transport) (w : T) : Prop :=
  initialized (pt_device s) = true ∧ target_num (pt_device s) = Some target ∧ pt_uid s = Some uid ∧
  w = serve (chip_log (pt_device s)).

Lemma pn532_relays :
  TransportSim (pn532_apdu BUF chip) (held (through takes room respond) uid) selected_card (λ _, ()) (λ _, ()).
Proof.
  split; [| |done].
  2:{ intros s w Hs. pose proof Hs as (_ & _ & Hu & _). unfold lift_err, Readers.get_uid. simpl. by rewrite Hu. }
  intros apdu [[t i u log] pu] w (Hi & Ht & Hu & ->). simpl in *. subst.
  unfold to_apdu, Readers.transmit, exchange_apdu. simpl. unfold mbind, M_bind, process, issue. simpl.
  pose proof (relay_exchange _ _ _ _ _ _ _ HR log target apdu room) as Hx.
  pose proof (relay_served _ _ _ _ _ _ _ HR log target apdu room) as Hs.
  rewrite (relay_room _ _ _ _ _ _ _ HR). unfold through.
  destruct (takes apdu); simpl; [|by rewrite Hx; simpl; rewrite <- Hs].
  destruct (respond apdu (serve log)) as [[r|e] w'] eqn:Hr; simpl in *.
  - rewrite Hx. simpl. rewrite length_app. simpl. case_decide as Hl.
    + rewrite decide_True by lia. simpl. rewrite split_response_ok. simpl. split; [by destruct r|done].
    + rewrite decide_False by lia. simpl. by split.
  - destruct (raw _) as [r|] eqn:Hc; simpl; [|by split]. case_decide; simpl; [|by split].
    specialize (Hx r eq_refl). unfold of_parse, parse_exchange.
    rewrite decide_True by (destruct r; simpl in *; congruence). simpl. by split.
Qed.

(** With room for every answer, and a driver that takes every APDU, nothing is lost. *)
Definition roomy : Prop :=
  (∀ apdu, takes apdu = true) ∧
  ∀ apdu w r, (respond apdu w).1 = Ok r → 3 + Z.of_nat (length (ra_data r)) ≤ room.

Lemma through_roomy :
  roomy → TransportSim (held (through takes room respond) uid) (held respond uid) eq (λ _, ()) (λ _, ()).
Proof.
  intros [Ht Hr]. split; [|by intros s w ->|done]. intros apdu s w ->. simpl. unfold through. rewrite Ht. simpl.
  specialize (Hr apdu w). destruct (respond apdu w) as [[r|e] w']; simpl in *; [|done].
  by rewrite decide_True by auto.
Qed.

Lemma served_idle log : Forall (λ c, ∀ t data n, c ≠ Process (InDataExchange t data) n) log → serve log = serve [].
Proof.
  induction log as [|c log IH] using rev_ind; [done|]. intros [Hl Hc]%Forall_app.
  rewrite (relay_other _ _ _ _ _ _ _ HR) by (by inversion Hc). by apply IH.
Qed.

Lemma pn532_activates :
  20 ≤ room →
  let '(r, s) := activate_with_delay BUF chip pn532_new in
  r = Ok () ∧ selected_card s (serve []) ∧ device_inv BUF chip (pt_device s).
Proof.
  intros Hroom. assert (device_inv BUF chip (pt_device (activate_with_delay BUF chip pn532_new).2)) as Hinv.
  { apply (transport_step_inv BUF chip Op_Activate). split; simpl; try done. intros pre t data n post Heq. by destruct pre. }
  revert Hinv. unfold activate_with_delay, activate_by, finish_activation, pn532_new, init_with_delay. simpl.
  unfold mbind, M_bind, process, issue. simpl.
  destruct (relay_reset _ _ _ _ _ _ _ HR [] Rst_Low) as [r1 Hr1]; [auto|]. rewrite app_nil_l in Hr1. rewrite Hr1.
  destruct (relay_reset _ _ _ _ _ _ _ HR [Rst_Low] Rst_High) as [r2 Hr2]; [auto|]. simpl in Hr2. rewrite Hr2.
  destruct (relay_firmware _ _ _ _ _ _ _ HR [Rst_Low; Rst_High] 4) as (r3 & v & Hr3 & Hl3 & Hv).
  pose proof (relay_room _ _ _ _ _ _ _ HR [Rst_Low; Rst_High] GetFirmwareVersion 4) as H3. rewrite Hr3 in H3. simpl in H3.
  rewrite decide_True in H3 by lia. rewrite H3. simpl. rewrite Hv. simpl.
  pose proof (relay_room _ _ _ _ _ _ _ HR [Rst_Low; Rst_High; Process GetFirmwareVersion 4] SamConfiguration 0) as H4.
  rewrite (relay_config _ _ _ _ _ _ _ HR) in H4. simpl in H4. rewrite H4. simpl.
  unfold detect_card, process, issue. simpl. set (n := Z.min room 20).
  set (log4 := [Rst_Low; Rst_High; Process GetFirmwareVersion 4; Process SamConfiguration 0]).
  destruct (relay_inlist _ _ _ _ _ _ _ HR log4 n) as (r5 & Hr5 & Hl5 & Hp).
  pose proof (relay_room _ _ _ _ _ _ _ HR log4 InListPassiveTarget n) as H5. rewrite Hr5 in H5. simpl in H5.
  rewrite decide_True in H5 by (unfold n; lia). rewrite H5, Hp. simpl. intros Hinv.
  split_and!; [done| |done]. split_and!; [done..|]. simpl. symmetry. apply served_idle. by repeat constructor.
Qed.

(** C34. What the PN532 lets through. Let the driver return exactly the responses its
    buffer has room for, and the chip identify itself, list the card and relay to it
    the APDUs the driver takes; and let the buffer have room for the listing of a
    card. Then activation succeeds, and any sequence of workflows (burn, wipe,
    preflight, inspection, key versions, the counter probe) run over the PN532 gives
    the results, up to the text of a transport error, and leaves the card in the
    state of the same workflows run on the card seen [through] that driver, where an
    answer of more than the buffer size less 12 bytes of data is lost; every exchange
    the chip was sent was for the target its own history shows as selected, with the
    response length the buffer allows. If the driver takes every APDU and no answer
    is too long, then these are also the results and the state of the workflows on
    the card itself. *)
Theorem pn532_transparent (planner : list Z → CryptoMode → SdmUrlOptions → result SdmUrlConfig SdmUrlError)
    {V : Type} (verify_sdm : Sdm → list Z → AesKey → AesKey → option V) (compat : bool) (js : list Job) :
  20 ≤ max_response_len BUF →
  let run {S E} (AP : Apdu S E) s := run_jobs planner verify_sdm (D := wire_device (AP := AP) compat) js s in
  let '(r, s) := activate_with_delay BUF chip pn532_new in
  let '(over, s') := run (pn532_apdu BUF chip) s in
  let '(seen, w') := run (held (through takes (max_response_len BUF) respond) uid) (serve []) in
  let '(direct, w) := run (held respond uid) (serve []) in
  r = Ok () ∧ Forall2 same_result over seen ∧ serve (chip_log (pt_device s')) = w' ∧
  exchanges_ok BUF chip (chip_log (pt_device s')) ∧
  (roomy → Forall2 same_result seen direct ∧ w' = w).
Proof.
  intros Hroom. pose proof (pn532_activates Hroom) as Ha.
  destruct (activate_with_delay BUF chip pn532_new) as [r s]. destruct Ha as (-> & Hs & Hi).
  pose proof pn532_relays as HT. cbv zeta.
  set (seen_apdu := held (through takes room respond) uid) in *.
  pose proof (run_jobs_sim planner verify_sdm selected_card (λ _, ()) (λ _, ()) (D1 := wire_device (AP := pn532_apdu BUF chip) compat)
    (D2 := wire_device (AP := seen_apdu) compat) js s (serve []) Hs) as [Hr Hs'].
  pose proof (run_jobs_preserves planner verify_sdm (A := pn532_apdu BUF chip) compat (λ s, device_inv BUF chip (pt_device s)) js s
    (pn532_transmit_inv BUF chip) (λ s Hs, Hs) Hi) as Hi'.
  assert (roomy → Forall2 same_result (run_jobs planner verify_sdm (D := wire_device (AP := seen_apdu) compat) js (serve [])).1
      (run_jobs planner verify_sdm (D := wire_device (AP := held respond uid) compat) js (serve [])).1 ∧
    (run_jobs planner verify_sdm (D := wire_device (AP := seen_apdu) compat) js (serve [])).2 =
      (run_jobs planner verify_sdm (D := wire_device (AP := held respond uid) compat) js (serve [])).2) as Hroomy.
  { intros H. pose proof (through_roomy H) as HT2.
    exact (run_jobs_sim planner verify_sdm eq (λ _, ()) (λ _, ()) (D1 := wire_device (AP := seen_apdu) compat)
      (D2 := wire_device (AP := held respond uid) compat) js (serve []) (serve []) eq_refl). }
  destruct (run_jobs _ _ (D := wire_device (AP := pn532_apdu BUF chip) compat) js s) as [over s'],
    (run_jobs _ _ (D := wire_device (AP := seen_apdu) compat) js (serve [])) as [seen w'],
    (run_jobs _ _ (D := wire_device (AP := held respond uid) compat) js (serve [])) as [direct w].
  simpl in *. destruct Hs' as (_ & _ & _ & ->). split_and!; [done..| |done]. apply Hi'.
Qed.
End relay.

(** A chip that relays to a card that was in state [w] when it was powered, and its
    driver. *)
Section relay_chip.
  Context {T TE : Type} (respond : list Z → M T (Fault TE) Rapdu) (w : T) (target : Z) (uid : list Z).

Definition served (log : list ChipCmd) : T :=
  foldl (λ w c, match c with Process (InDataExchange _ data) _ => (respond data w).2 | _ => w end) w log.

Definition relay_raw (log : list ChipCmd) : option (list Z) :=
  match last log with
  | Some (Process GetFirmwareVersion _) => Some [0x32; 1; 6; 7]
  | Some (Process InListPassiveTarget _) => Some ([1; target; 0x00; 0x44; 0x20; Z.of_nat (length uid)] ++ uid)
  | Some (Process (InDataExchange _ data) _) =>
      match (respond data (served (removelast log))).1 with
      | Ok r => Some (0 :: ra_data r ++ [ra_sw1 r; ra_sw2 r])
      | Err _ => Some [0x01]
      end
  | _ => Some []
  end.

Definition relay_chip (log : list ChipCmd) : option (list Z) :=
  match last log with
  | Some (Process _ n) => r ← relay_raw log; if decide (Z.of_nat (length r) ≤ n) then Some r else None
  | _ => relay_raw log
  end.

Lemma relay_chip_relays :
  (length uid ≤ 14)%nat → relaying respond (λ _, true) relay_raw relay_chip served target uid.
Proof.
  intros Huid. split; unfold relay_chip, relay_raw.
  - intros log req n. by rewrite !last_snoc.
  - intros log c Hc. rewrite !last_snoc. by destruct Hc as [-> | ->].
  - intros log n. by rewrite last_snoc.
  - intros log n. rewrite last_snoc. by eexists _, _.
  - intros log n. rewrite last_snoc. eexists. split; [done|]. split; [simpl; lia|]. unfold parse_inlist. simpl.
    rewrite Nat2Z.id. unfold get_range. rewrite decide_True by (simpl; lia).
    simpl. by rewrite Nat.sub_0_r, firstn_all.
  - intros log t data n. rewrite last_snoc, removelast_last. destruct (respond data (served log)).1; [done|].
    by intros r [= <-].
  - intros log t data n. unfold served. by rewrite foldl_snoc.
  - intros log c Hc. unfold served. rewrite foldl_snoc. destruct c as [| |[] n]; try done. by destruct (Hc target0 data n).
Qed.
End relay_chip.

(** ** MFRC522 *)

Record Mfrc522Link (H : Type) : Type := mkLink { ml_pcd : Pcd H; ml_uid : list Z }.
Arguments mkLink {H} _ _.
Arguments ml_pcd {H} _.
Arguments ml_uid {H} _.

#[export] Instance ats_view : AtsView Ats := ats_fsc.

Section mfrc522.
  Context {Block H : Type} {A : Iso14443Api Block H} {L : Iso14443Laws A} {B : SetupApi Ats H}.
  Context (air : list (list Z) → option (list Z)) (timer : list (list Z) → list (Z * bool) → Z → result () Z) (fuel : nat).

Definition mf_transmit (apdu : list Z) : M (Mfrc522Link H) MfError Response := λ s,
  let '(r, p) := exchange air timer fuel apdu (ml_pcd s) in
  (match r with
   | Err _ => Err Mf_Protocol
   | Ok response => map_err Mf_InvalidResponseLength (split_response response)
   end, mkLink p (ml_uid s)).

Definition mf_get_uid : M (Mfrc522Link H) MfError (list Z) := λ s, (Ok (ml_uid s), s).

#[export] Instance mfrc522_apdu : Apdu (Mfrc522Link H) MfError := {|
  apdu_transmit apdu := to_apdu (mf_transmit apdu);
  apdu_get_uid := lift_err Fault_Error mf_get_uid |}.

(** The transport at the end of [from_activation], for the parsed ATS: no CID, the
    hardware's checksum, and both limits within the 64 bytes of the FIFO. *)
Definition mfrc522_link (uid : list Z) (ats : Ats) (t : Transceiver) : Mfrc522Link H :=
  let session := from_ats ats None true in
  let session := set_fsc (Z.min (fsci_fsc ats) 64) session in
  let session := set_fsd (Z.min (fsci_fsc ats) 64) session in
  mkLink (over_transceiver (set_base_fwt_ms (frame_wait_time_ms ats) session) t) uid.

(** What every exchange keeps, from a state [s0] on. *)
Definition link_inv (s0 s : Mfrc522Link H) : Prop :=
  within (ml_pcd s0) (ml_pcd s) ∧ restored (ml_pcd s0) (ml_pcd s) ∧ ml_uid s = ml_uid s0.

Lemma mfrc522_transmit_inv s0 apdu :
  settled (ml_pcd s0) → preserves (link_inv s0) (apdu_transmit (Apdu := mfrc522_apdu) apdu).
Proof.
  intros H0 s (Hw & Ht & Hu). simpl. unfold to_apdu, mf_transmit.
  pose proof (exchange_tame air timer fuel apdu (ml_pcd s) (settled_within _ _ Hw H0)) as [Hw' Ht'].
  destruct (exchange _ _ _ _ _) as [r p]. simpl in *.
  split; simpl; [by eapply (within_preorder.(PreOrder_Transitive))|]. split; [by eapply restored_trans|done].
Qed.
End mfrc522.

Section activated.
  Context (mf_ok : list MfCmd → bool) (mf_wakeup : list MfCmd → option Activation) (mf_rats : list MfCmd → option Ats).

(** A transport comes from the ATS the card answered with, and the last command
    before it was the one that set the timeout. *)
Definition from_ats_of (r : result Mfrc522Transport MfError) (log' : list MfCmd) : Prop :=
  ∀ u, r = Ok u → ∃ log1 ats, mf_rats log1 = Some ats ∧ mf_fsc u = Z.min (ats_fsc ats) 64 ∧ mf_fsd u = Z.min (ats_fsc ats) 64 ∧
    mf_base_fwt_ms u = frame_wait_time_ms ats ∧ last log' = Some (Mf_SetTimeout (frame_wait_time_ms ats)).

Lemma from_activation_ats a log : wp (from_activation mf_ok mf_rats a) from_ats_of log.
Proof.
  unfold from_activation. destruct (iso14443_4_compliant a); simpl; [|by apply wp_fail].
  unfold validate_uid. apply wp_bind. case_decide; simpl; [|by apply wp_fail].
  apply wp_ret, wp_bind. unfold wp at 1, mf_connect. destruct (mf_rats _) as [ats|] eqn:Hats; simpl; [|done].
  apply wp_bind. unfold wp at 1, mf_cmd. destruct (mf_ok _); simpl; [|done].
  apply wp_bind. unfold wp at 1, mf_cmd. destruct (mf_ok _); simpl; [|done].
  apply wp_ret. intros u [= <-]. eexists _, ats. split; [exact Hats|]. by rewrite last_snoc.
Qed.

Lemma activation_rounds_ats n e log : wp (activation_rounds mf_ok mf_wakeup mf_rats n e) from_ats_of log.
Proof.
  revert e log. induction n as [|n IH]; intros e log; simpl; [by apply wp_fail|].
  apply wp_bind, wp_attempt. unfold wp at 1, mf_cmd. simpl. destruct (mf_ok _); simpl; [|apply IH].
  apply wp_bind. unfold wp at 1, mf_note. simpl.
  apply wp_bind, wp_attempt. unfold wp at 1, mf_wake. simpl.
  destruct (mf_wakeup _); simpl; [apply from_activation_ats|apply IH].
Qed.
End activated.

Section workflows.
  Context {C : AesCrypto} {Block H : Type} {A : Iso14443Api Block H} {L : Iso14443Laws A} {B : SetupApi Ats H}.
  Context (air : list (list Z) → option (list Z)) (timer : list (list Z) → list (Z * bool) → Z → result () Z) (fuel : nat).
  Context (mf_ok : list MfCmd → bool) (mf_wakeup : list MfCmd → option Activation) (mf_rats : list MfCmd → option Ats).
  Context (planner : list Z → CryptoMode → SdmUrlOptions → result SdmUrlConfig SdmUrlError).
  Context {V : Type} (verify_sdm : Sdm → list Z → AesKey → AesKey → option V).

Abbreviation run_over js s := (run_jobs planner verify_sdm
  (D := wire_device (AP := mfrc522_apdu (Block := Block) (H := H) air timer fuel) false) js s).

(** C35. Workflows over the MFRC522 stay within the limits of the activation. When the
    activation ladder succeeds, on a card whose frame size is one of the standard, the
    session is set up for the frame size of the answer to select, cut to the reader's
    64 bytes, with the timeout the front end was last given; and then, whatever the
    card answers over any sequence of workflows, and whichever requests to the timer
    fail, every frame put on the air fits that size with its checksum, and the UID at
    the end is that of the activation. Without a request the timeout is still the
    base waiting time; otherwise the last request was for the base time, and if the
    front end granted it, the timeout is back there. (The code discards a refusal, and
    the extended time then stays: [restore_lost].) *)
Theorem mfrc522_workflows_fit (log log' : list MfCmd) (u : Mfrc522Transport) (js : list Job) (before : list (list Z)) :
  (∀ log ats, mf_rats log = Some ats → 16 ≤ ats_fsc ats) →
  activate_with_delays mf_ok mf_wakeup mf_rats log = (Ok u, log') →
  ∃ log1 ats, mf_rats log1 = Some ats ∧ last log' = Some (Mf_SetTimeout (frame_wait_time_ms ats)) ∧
    let base := frame_wait_time_ms ats in
    let s := mfrc522_link (mf_uid u) ats (mkTransceiver before base []) in
    let s' := (run_over js s).2 in
    fsc (ml_pcd s) = mf_fsc u ∧ fsd (ml_pcd s) = mf_fsd u ∧ base_fwt_ms (ml_pcd s) = mf_base_fwt_ms u ∧
    ml_uid s' = mf_uid u ∧
    (sets (ml_pcd s') = [] → timeout_ms (ml_pcd s') = base) ∧
    (∀ ms granted, last (sets (ml_pcd s')) = Some (ms, granted) →
       ms = base ∧ (granted = true → timeout_ms (ml_pcd s') = base)) ∧
    ∃ frames, sent (ml_pcd s') = before ++ frames ∧
      Forall (λ f, Z.of_nat (length f) + 2 ≤ Z.min (ats_fsc ats) 64) frames.
Proof.
  intros Hats Hact. pose proof (activation_rounds_ats mf_ok mf_wakeup mf_rats ACTIVATION_ATTEMPTS None log) as Ha.
  destruct (wp_run _ _ _ _ _ Ha Hact u eq_refl) as (log1 & ats & Hr & Hc & Hd & Hb & Hl).
  exists log1, ats. split; [done|]. split; [done|]. intros base s s'. pose proof (Hats _ _ Hr) as H16.
  assert (settled (ml_pcd s)) as Hs by (unfold settled; simpl; unfold fsci_fsc, ats_view; lia).
  assert (link_inv s s) as Hi.
  { split; [apply (within_preorder.(PreOrder_Reflexive))|]. split; [apply restored_refl|done]. }
  pose proof (run_jobs_preserves planner verify_sdm false (link_inv s) js s
    (λ apdu, mfrc522_transmit_inv air timer fuel s apdu Hs) (λ s Hs, Hs) Hi)
    as ((_ & _ & _ & _ & _ & frames & Hsent & Hfit) & (reqs & Hreqs & Hnone & Hlast) & Hu).
  simpl in Hreqs, Hnone, Hlast. fold s' in Hsent, Hreqs, Hnone, Hlast, Hu.
  split_and!; [by rewrite Hc|by rewrite Hd|by rewrite Hb|exact Hu| | |].
  - rewrite Hreqs. exact Hnone.
  - rewrite Hreqs. exact Hlast.
  - exists frames. split; [exact Hsent|]. exact Hfit.
Qed.
End workflows.

(** ** Instances *)

Section instances.
  #[local] Existing Instances toy_crypto.

(** Burning and wiping the emulated card over the PN532. *)
Definition pn532_emulated : list ChipCmd → option (list Z) := relay_chip mock_transmit mock_new 1 EMU_UID.

Definition life : list Job := [Job_Burn tap_params (replicate 16 9); Job_Wipe (bp_keys tap_params) (replicate 16 7)].

Definition pn532_life (buf : Z) : list (result (Outcome ()) (Error (Fault Pn532TransportError))) * Pn532Transport :=
  run_jobs sdm_url_config (λ _ _ _ _, None) (D := wire_device (AP := pn532_apdu buf pn532_emulated) false) life
    (activate_with_delay buf pn532_emulated pn532_new).2.

(** A driver with a buffer for the longest answer of the card carries the whole life. *)
Example pn532_life_runs : (pn532_life 300).1 = [Ok (Out_Uid EMU_UID); Ok (Out_Uid EMU_UID)].
Proof. vm_compute. reflexivity. Qed.

(** The buffer of this repository has room for 52 bytes of data: the burn fails when
    it reads back the message it has written. *)
Example pn532_burn_fails :
  head (pn532_life PN532_BUF_SIZE).1 =
    Some (Err (E_Session (SE_Transport (Fault_Error (Pt_Device Communication))))).
Proof. vm_compute. reflexivity. Qed.

Lemma pn532_transparent_witness :
  let run {S E} (AP : Apdu S E) s := run_jobs sdm_url_config (λ _ _ _ _, None : option ()) (D := wire_device (AP := AP) false) life s in
  let '(r, s) := activate_with_delay PN532_BUF_SIZE pn532_emulated pn532_new in
  let '(over, s') := run (pn532_apdu PN532_BUF_SIZE pn532_emulated) s in
  let '(seen, w') := run (held (through (λ _, true) (max_response_len PN532_BUF_SIZE) mock_transmit) EMU_UID) (served mock_transmit mock_new []) in
  let '(direct, w) := run (held mock_transmit EMU_UID) (served mock_transmit mock_new []) in
  r = Ok () ∧ Forall2 same_result over seen ∧ served mock_transmit mock_new (chip_log (pt_device s')) = w' ∧
  exchanges_ok PN532_BUF_SIZE pn532_emulated (chip_log (pt_device s')) ∧
  (roomy mock_transmit (λ _, true) PN532_BUF_SIZE → Forall2 same_result seen direct ∧ w' = w).
Proof.
  apply (pn532_transparent mock_transmit (λ _, true) PN532_BUF_SIZE (relay_raw mock_transmit mock_new 1 EMU_UID) pn532_emulated
    (served mock_transmit mock_new) 1 EMU_UID).
  - apply relay_chip_relays. apply (bool_decide_unpack _). vm_compute. exact I.
  - vm_compute. discriminate.
Defined.

(** The card is taken away: the next activation fails, and until [release] the
    transport still answers with the UID of the card that is gone. *)
Definition card_removed (log : list ChipCmd) : option (list Z) :=
  if decide (length log ≤ 5)%nat then pn532_emulated log else Some [0].

Example stale_uid :
  let s := (activate_with_delay 64 card_removed pn532_new).2 in
  let '(r, s') := activate_with_delay 64 card_removed s in
  r = Err Pt_NoCard ∧ pn_uid (pt_device s') = None ∧ (Readers.get_uid s').1 = Ok EMU_UID ∧
  (Readers.transmit 64 card_removed [0x90] s').1 = Err (Pt_Device NoCard).
Proof. vm_compute. done. Qed.

#[local] Existing Instances toy_api toy_iso_laws.

#[local] Instance toy_setup : SetupApi Ats () := {|
  rats_param fsdi cid := Z.lor (Z.shiftl fsdi 4) cid;
  fsdi_fsd _ := 64;
  ats_from_crc_verified _ := Ok (mkAts 32 0);
  ats_try_from _ := Ok (mkAts 32 0);
  handler_new _ := () |}.

(** A card with frames of 32 bytes. *)
Definition small_card (log : list MfCmd) : option Ats := Some (mkAts 32 0).

Lemma mfrc522_workflows_fit_witness :
  let u := mkMfrc522 [4; 1; 2; 3] 32 32 5 in
  ∃ log1 ats, small_card log1 = Some ats ∧
    last [Mf_Prepare; Mf_Settle; Mf_Wakeup; Mf_Rats; Mf_HwCrc; Mf_SetTimeout 5] = Some (Mf_SetTimeout (frame_wait_time_ms ats)) ∧
    let base := frame_wait_time_ms ats in
    let s := mfrc522_link (mf_uid u) ats (mkTransceiver [] base []) in
    let s' := (run_jobs sdm_url_config (λ _ _ _ _, None : option ())
      (D := wire_device (AP := mfrc522_apdu (Block := list Z) toy_air refusing 10) false) life s).2 in
    fsc (ml_pcd s) = mf_fsc u ∧ fsd (ml_pcd s) = mf_fsd u ∧ base_fwt_ms (ml_pcd s) = mf_base_fwt_ms u ∧
    ml_uid s' = mf_uid u ∧
    (sets (ml_pcd s') = [] → timeout_ms (ml_pcd s') = base) ∧
    (∀ ms granted, last (sets (ml_pcd s')) = Some (ms, granted) →
       ms = base ∧ (granted = true → timeout_ms (ml_pcd s') = base)) ∧
    ∃ frames, sent (ml_pcd s') = [] ++ frames ∧
      Forall (λ f, Z.of_nat (length f) + 2 ≤ Z.min (ats_fsc ats) 64) frames.
Proof.
  apply (mfrc522_workflows_fit toy_air refusing 10 (λ _, true) (λ _, Some (mkActivation true [4; 1; 2; 3])) small_card
    sdm_url_config (λ _ _ _ _, None : option ()) []).
  - intros log ats [= <-]. simpl. lia.
  - reflexivity.
Defined.

(** The reader announced frames of 64 bytes, and refuses one of 40 from a card whose
    own limit is 32: the receive limit is the card's frame size. *)
Example announced_frame_refused :
  let s := ml_pcd (mfrc522_link [4; 1; 2; 3] (mkAts 32 0) (mkTransceiver [] 5 [])) in
  (exchange (λ _, Some (0x02 :: replicate 39 0)) obeying 10 [0x90] s).1 = Err Pcd_Protocol ∧
  (exchange (λ _, Some (0x02 :: replicate 39 0)) obeying 10 [0x90] (over_transceiver (set_fsd 64 (from_ats (mkAts 32 0) None true)) (mkTransceiver [] 5 []))).1 =
    Ok (replicate 39 0).
Proof. vm_compute. done. Qed.
End instances.
