(* ===== verification/Nucula.v ===== *)
(** * The nucula board

    [apps/bolty-esp32/src/firmware_nucula.rs] with the reader bridge
    [crates/bolty-pn7160/src/lib.rs] and the station manager
    [apps/bolty-esp32/src/wifi.rs]: a second, smaller firmware whose console can
    look at a card and set up the network, and must not be able to change a card.

    The NFC controller, the Wi-Fi driver and the credential store are classes;
    what the console prints is the trace [nu_out]. *)

From S2P Require Import Prelude Str Hex NtagTypes Session Ntag NtagProofs Console Commands Workflow Readers Nvs.

(** ** bolty-pn7160 *)

Inductive DriverError : Type := BufferTooSmall | Drv_Other (code : Z).

(** The NCI driver: [power_on] and [transmit_apdu] fill a buffer and return how
    much they wrote. *)
Class Pn7160Driver (D : Type) : Type := {
  drv_init : M D DriverError ();
  drv_power_on : list Z → D → result nat DriverError * list Z * D;
  drv_transmit_apdu : list Z → list Z → D → result nat DriverError * list Z * D;
  drv_uid : D → list Z;
  drv_session_active : D → bool }.

Inductive Pn7160Error : Type :=
| Pn_Init (e : DriverError)
| Pn_PowerOn (e : DriverError)
| Pn_Exchange (e : DriverError)
| Pn_InvalidResponseLength (n : nat).

Definition APDU_RESPONSE_BUF : nat := 258.

Record Pn7160Transport (D : Type) : Type := mkPn7160 { pt_driver : D; pt_uid : list Z; pt_atr : list Z }.
Arguments mkPn7160 {D} _ _ _.
Arguments pt_driver {D} _.
Arguments pt_uid {D} _.
Arguments pt_atr {D} _.

Section pn7160.
  Context {D : Type} `{!Pn7160Driver D}.

Definition pn_power_on : M (Pn7160Transport D) Pn7160Error () := λ t,
  let '(r, atr, d) := drv_power_on (replicate 33 0) (pt_driver t) in
  match r with
  | Err e => (Err (Pn_PowerOn e), mkPn7160 d (pt_uid t) (pt_atr t))
  | Ok n =>
      match get_range atr 0 n with
      | None => (Err (Pn_PowerOn BufferTooSmall), mkPn7160 d (pt_uid t) (pt_atr t))
      | Some atr => (Ok (), mkPn7160 d (drv_uid d) atr)
      end
  end.

Definition new_initialized (driver : D) : result (Pn7160Transport D) Pn7160Error :=
  match drv_init driver with
  | (Err e, _) => Err (Pn_Init e)
  | (Ok _, d) => Ok (mkPn7160 d [] [])
  end.

(** [activate] gives up the driver when there is no card. *)
Definition pn_activate (driver : D) : result (Pn7160Transport D) Pn7160Error :=
  t ←? new_initialized driver;
  match pn_power_on t with (Ok _, t) => Ok t | (Err e, _) => Err e end.

Definition pn_release (t : Pn7160Transport D) : D := pt_driver t.

Definition pn_session_active (t : Pn7160Transport D) : bool := drv_session_active (pt_driver t).

Definition pn_transmit (apdu : list Z) : M (Pn7160Transport D) Pn7160Error Response := λ t,
  let '(r, buf, d) := drv_transmit_apdu apdu (replicate APDU_RESPONSE_BUF 0) (pt_driver t) in
  let t := mkPn7160 d (pt_uid t) (pt_atr t) in
  (match r with
   | Err e => Err (Pn_Exchange e)
   | Ok n =>
       match get_range buf 0 n with
       | None => Err (Pn_Exchange BufferTooSmall)
       | Some rsp => map_err Pn_InvalidResponseLength (split_response rsp)
       end
   end, t).

Definition pn_get_uid : M (Pn7160Transport D) Pn7160Error (list Z) := λ t, (Ok (pt_uid t), t).
End pn7160.

(** What the firmware needs of its reader. *)
Class NfcReader (T : Type) : Type := {
  rd_power_on : M T Pn7160Error ();
  rd_session_active : T → bool;
  rd_uid : T → list Z;
  rd_atr : T → list Z }.

#[export] Instance pn7160_reader {D} `{!Pn7160Driver D} : NfcReader (Pn7160Transport D) := {|
  rd_power_on := pn_power_on;
  rd_session_active := pn_session_active;
  rd_uid := pt_uid;
  rd_atr := pt_atr |}.

(** ** wifi.rs *)

Inductive WifiCall : Type :=
| Wc_IsConnected | Wc_Disconnect | Wc_IsStarted | Wc_Stop
| Wc_SetConfiguration (ssid password : list Z)
| Wc_Start | Wc_Connect | Wc_WaitNetifUp | Wc_MdnsTake | Wc_MdnsSetHostname | Wc_MdnsSetInstanceName
| Wc_MdnsDrop | Wc_MdnsAddService (port : Z)
| Wc_GetIpInfo.

#[export] Instance WifiCall_eq_dec : EqDecision WifiCall.
Proof. solve_decision. Defined.

Inductive WifiError : Type := SsidTooLong | PasswordTooLong | Wifi_Esp (code : Z).

(** The answer to a call, by the history of calls; for the two questions it
    carries the boolean, for the others it is ignored. *)
Class WifiDriver : Type := {
  wifi_rc : list WifiCall → result bool Z;
  wifi_ip : list WifiCall → option (list Z) }.

(** What the manager has asked of the driver, and whether it holds the mDNS
    service ([mdns : Option<EspMdns>]). *)
Record WifiManager : Type := mkWifiManager { wm_calls : list WifiCall; wm_mdns : bool }.

Section wifi.
  Context `{!WifiDriver} (mdns_enabled : bool).

Definition wcall (c : WifiCall) : M WifiManager WifiError bool := λ m,
  let h := wm_calls m ++ [c] in
  (map_err Wifi_Esp (wifi_rc h), mkWifiManager h (wm_mdns m)).

(** [self.mdns = None], which stops the service when there was one. *)
Definition drop_mdns (m : WifiManager) : WifiManager :=
  if mdns_enabled && wm_mdns m then mkWifiManager (wm_calls m ++ [Wc_MdnsDrop]) false else m.

Definition copy_ssid (value : list Z) : result (list Z) WifiError := ok_or (push_str SSID_CAP [] value) SsidTooLong.
Definition copy_password (value : list Z) : result (list Z) WifiError :=
  ok_or (push_str PASSWORD_CAP [] value) PasswordTooLong.

(** The opening of [connect], and all of [disconnect]. *)
Definition wifi_disconnect : M WifiManager WifiError ()  := λ m,
 (connected ← wcall Wc_IsConnected;
  _ ← (if (connected : bool) then wcall Wc_Disconnect else mret false);
  started ← wcall Wc_IsStarted;
  _ ← (if (started : bool) then wcall Wc_Stop else mret false);
  mret ()) (drop_mdns m).

Definition wifi_of {A} (r : result A WifiError) : M WifiManager WifiError A := λ m, (r, m).

(** [self.mdns = Some(mdns)]. *)
Definition keep_mdns : M WifiManager WifiError () := λ m, (Ok (), mkWifiManager (wm_calls m) true).

Definition start_mdns : M WifiManager WifiError () :=
  _ ← wcall Wc_MdnsTake;
  _ ← wcall Wc_MdnsSetHostname;
  _ ← wcall Wc_MdnsSetInstanceName;
  keep_mdns.

Definition advertise_http_service (port : Z) : M WifiManager WifiError () := λ m,
  if mdns_enabled && wm_mdns m then (wcall (Wc_MdnsAddService port) ≫= λ _, mret ()) m else (Ok (), m).

Definition wifi_connect (ssid password : list Z) : M WifiManager WifiError () :=
  _ ← wifi_disconnect;
  wifi_ssid ← wifi_of (copy_ssid ssid);
  wifi_password ← wifi_of (copy_password password);
  _ ← wcall (Wc_SetConfiguration wifi_ssid wifi_password);
  _ ← wcall Wc_Start;
  _ ← wcall Wc_Connect;
  _ ← wcall Wc_WaitNetifUp;
  _ ← (if mdns_enabled then start_mdns else mret ());
  _ ← wcall Wc_GetIpInfo;
  mret ().

Definition manager_ip (m : WifiManager) : option (list Z) := wifi_ip (wm_calls m).
End wifi.

(** ** The credential store

    [EspNvs] in the namespace of this firmware; [get_blob] fails when the blob
    does not fit the buffer. *)
Class BlobStore (N : Type) : Type := {
  set_blob : list Z → list Z → N → result () Z * N;
  get_blob : list Z → nat → N → result (option (list Z)) Z }.

Record Network (N : Type) : Type := mkNetwork {
  nw_manager : option WifiManager;
  nw_creds : option N;
  nw_ota_spawned : bool }.
Arguments mkNetwork {N} _ _ _.
Arguments nw_manager {N} _.
Arguments nw_creds {N} _.
Arguments nw_ota_spawned {N} _.

(** [Network::degraded]. *)
Definition degraded {N} : Network N := mkNetwork None None false.

Record Nucula (T N : Type) : Type := mkNucula {
  nu_reader : option T;
  nu_net : Network N;
  nu_gate : ValidityGate;
  nu_asm : LineAssembler;
  nu_out : list (list Z) }.
Arguments mkNucula {T N} _ _ _ _ _.
Arguments nu_reader {T N} _.
Arguments nu_net {T N} _.
Arguments nu_gate {T N} _.
Arguments nu_asm {T N} _.
Arguments nu_out {T N} _.

(** ** firmware_nucula.rs, built with the features wifi and ota-server *)

Definition BOARD_NAME : list Z := lit "nucula (ESP32-C3 + PN7160)".
Definition ESP_ERR_INVALID_STATE : Z := 0x103.

Fixpoint uid_hex_from (first : bool) (uid out : list Z) : list Z :=
  match uid with
  | [] => out
  | byte :: uid =>
      let out := if first then out else put 32 out (lit ":") in
      uid_hex_from false uid (put 32 out [hex_upper (Z.shiftr byte 4); hex_upper (Z.land byte 0xf)])
  end.

Definition uid_hex (uid : list Z) : list Z := uid_hex_from true uid [].

Section nucula.
  Context {T TE N V : Type} `{!NfcReader T} {ND : NtagDevice T TE} `{!WifiDriver} `{!BlobStore N}.
  Context (verify_sdm : Sdm → list Z → AesKey → AesKey → option V).
  Context (mdns_enabled : bool) (build_epoch : list Z).
  (** The [Debug] and [Display] texts of errors. *)
  Context (debug_wifi : WifiError → list Z) (display_esp : Z → list Z) (debug_pn : Pn7160Error → list Z)
    (debug_ntag : Error TE → list Z).

  Local Notation St := (Nucula T N).

(** *** Console *)

Definition say (text : list Z) (s : St) : St :=
  mkNucula (nu_reader s) (nu_net s) (nu_gate s) (nu_asm s) (nu_out s ++ [text]).

Definition say_ok (message : list Z) : St → St := say (put 384 (lit "[OK] ") message).
Definition say_fail (message : list Z) : St → St := say (put 384 (lit "[FAIL] ") message).

Definition ok_fmt (parts : list (list Z)) : St → St := say_ok (write_parts 384 [] parts).

Definition set_net (n : Network N) (s : St) : St := mkNucula (nu_reader s) n (nu_gate s) (nu_asm s) (nu_out s).
Definition set_reader (r : T) (s : St) : St := mkNucula (Some r) (nu_net s) (nu_gate s) (nu_asm s) (nu_out s).
Definition set_asm (a : LineAssembler) (s : St) : St := mkNucula (nu_reader s) (nu_net s) (nu_gate s) a (nu_out s).

(** [ota_validity::note_serve_evidence] on the global gate. *)
Definition evidence (s : St) : St :=
  mkNucula (nu_reader s) (nu_net s) (note_serve_evidence (nu_gate s)).2 (nu_asm s) (nu_out s).

(** *** Network *)

(** [save_wifi_creds]: the second blob is written only if the first was. *)
Definition save_wifi_creds (ssid password : list Z) (s : St) : result () Z * St :=
  match nw_creds (nu_net s) with
  | None => (Err ESP_ERR_INVALID_STATE, s)
  | Some nvs =>
      let put_net nvs := set_net (mkNetwork (nw_manager (nu_net s)) (Some nvs) (nw_ota_spawned (nu_net s))) s in
      match set_blob KEY_SSID ssid nvs with
      | (Err e, nvs) => (Err e, put_net nvs)
      | (Ok _, nvs) => let '(r, nvs) := set_blob KEY_PASS password nvs in (r, put_net nvs)
      end
  end.

Definition load_wifi_creds (s : St) : option (list Z * list Z) :=
  nvs ← nw_creds (nu_net s);
  ssid ← ok (get_blob KEY_SSID 32 nvs);
  ssid ← ssid;
  password ← ok (get_blob KEY_PASS 64 nvs);
  password ← password;
  decode_creds_pair (Some ssid) (Some password).

Definition report (verbose : bool) (s : St) : St :=
  match nw_manager (nu_net s) with
  | None => say (lit "wifi: manager unavailable") s
  | Some m =>
      match manager_ip m with
      | None => say_fail (lit "wifi: no ip (not connected)") s
      | Some ip =>
          let s := say_ok (lit "wifi: connected ip=" ++ ip) s in
          if nw_ota_spawned (nu_net s) then s
          else
            let s := set_net (mkNetwork (nw_manager (nu_net s)) (nw_creds (nu_net s)) true) s in
            if verbose then say (lit "ota: server listening on :3232") s else s
      end
  end.

Definition connect (ssid password : list Z) (s : St) : St :=
  match nw_manager (nu_net s) with
  | None => say_fail (lit "wifi manager unavailable") s
  | Some manager =>
      match push_str SSID_CAP [] ssid, push_str PASSWORD_CAP [] password with
      | Some ssid, Some password =>
          let '(r, manager) := wifi_connect mdns_enabled ssid password manager in
          let s := set_net (mkNetwork (Some manager) (nw_creds (nu_net s)) (nw_ota_spawned (nu_net s))) s in
          match r with
          | Err e => say_fail (lit "wifi connect failed: " ++ debug_wifi e) s
          | Ok _ =>
              let '(saved, s) := save_wifi_creds ssid password s in
              let s := match saved with
                | Err e => say_fail (put 96 (lit "wifi connected but creds NOT stored: ") (display_esp e)) s
                | Ok _ => s
                end in
              report true s
          end
      | _, _ => say_fail (lit "ssid too long (max 32) or password too long (max 64)") s
      end
  end.

Definition autoconnect (s : St) : St :=
  match load_wifi_creds s with
  | None => say (lit "wifi: no stored credentials (use: wifi <ssid> <pass>)") s
  | Some (ssid, password) => connect ssid password s
  end.

(** *** Commands *)

Definition cmd_status (s : St) : St :=
  match nu_reader s with
  | None => say (lit "nfc=missing (bring-up failed at boot)") s
  | Some r =>
      say (lit "nfc=ok session=" ++ (if rd_session_active r then lit "active" else lit "idle") ++ lit " uid=" ++
           (if rd_session_active r then uid_hex (rd_uid r) else [])) s
  end.

Definition cmd_poll (s : St) : St :=
  match nu_reader s with
  | None => say_fail (lit "nfc unavailable") s
  | Some r =>
      match rd_power_on r with
      | (Ok _, r) =>
          evidence (say_ok (lit "card up: uid=" ++ uid_hex (rd_uid r) ++ lit " atr_len=" ++
            show_uint (Z.of_nat (length (rd_atr r)))) (set_reader r s))
      | (Err e, r) => say_fail (lit "no card / power-on failed: " ++ debug_pn e) (set_reader r s)
      end
  end.

(** [!reader.session_active() && reader.power_on().is_err()]: [true] when there is
    no card. *)
Definition no_card (r : T) : bool * T :=
  if rd_session_active r then (false, r)
  else let '(x, r) := rd_power_on r in (negb (is_ok x), r).

Definition cmd_uid (s : St) : St :=
  match nu_reader s with
  | None => say_fail (lit "nfc unavailable") s
  | Some r =>
      let '(missing, r) := no_card r in
      let s := set_reader r s in
      if missing then say_fail (lit "no card on antenna") s
      else evidence (say_ok (lit "uid=" ++ uid_hex (rd_uid r)) s)
  end.

Definition sdm_label (result : SafeInspectResult V) (across : option (SafeInspectResult V)) : list Z :=
  match si_sdm_mirroring result with
  | Off => lit "off"
  | Mirroring_Unknown => lit "unknown"
  | within =>
      match si_ndef_bytes result, across ≫= si_ndef_bytes with
      | Some first, Some second => if decide (first ≠ second) then lit "live" else lit "static"
      | _, _ => if decide (within = Live) then lit "live" else lit "static"
      end
  end.

Definition cmd_inspect (s : St) : St :=
  match nu_reader s with
  | None => say_fail (lit "nfc unavailable") s
  | Some r =>
      let '(missing, r) := no_card r in
      if missing then say_fail (lit "no card on antenna") (set_reader r s)
      else
        match safe_inspect verify_sdm None None r with
        | (Err e, r) => say_fail (lit "inspect failed: " ++ debug_ntag e) (set_reader r s)
        | (Ok result, r) =>
            let '(across, r) := match rd_power_on r with
              | (Ok _, r) => let '(x, r) := safe_inspect verify_sdm None None r in (ok x, r)
              | (Err _, r) => (None, r)
              end in
            let s := set_reader r s in
            let ndef_len := match si_ndef_bytes result with Some b => length b | None => 0%nat end in
            let s := say (write_parts 384 [] [lit "uid="; uid_hex (si_uid result); lit " ndef_bytes=";
              show_uint (Z.of_nat ndef_len)]) s in
            evidence (say (lit "sdm=" ++ sdm_label result across) s)
        end
  end.

Definition handle_line (input : list Z) (s : St) : bool * St :=
  let command := trim input in
  if decide (command = []) then (true, s)
  else
    let '(head, rest) := match split_once 32 command with
      | Some (head, rest) => (head, Some rest)
      | None => (command, None)
      end in
    let word := to_ascii_lowercase <$> head in
    if decide (word = lit "help" ∨ word = lit "?") then
      (true, say (lit "commands: help | ver | status | poll | uid | inspect | wifi | ip") s)
    else if decide (word = lit "ver") then
      (true, say (lit "fw=bolty-esp32 board=" ++ BOARD_NAME ++ lit " built=" ++ build_epoch) s)
    else if decide (word = lit "status") then (true, cmd_status s)
    else if decide (word = lit "poll") then (true, cmd_poll s)
    else if decide (word = lit "uid") then (true, cmd_uid s)
    else if decide (word = lit "inspect") then (true, cmd_inspect s)
    else if decide (word = lit "wifi") then
      match rest ≫= split_once 32 with
      | None => (true, say_fail (lit "usage: wifi <ssid> <password>") s)
      | Some (ssid, password) => (true, connect (trim ssid) (trim password) s)
      end
    else if decide (word = lit "ip") then (true, report true s)
    else (false, s).

(** One byte of the console loop. *)
Definition console_step (byte : Z) (s : St) : St :=
  let '(ev, a) := feed MAX_LINE_LEN (nu_asm s) byte in
  let s := set_asm a s in
  match ev with
  | Some Overflow => say_fail (lit "command too long") s
  | Some (Line text) =>
      let '(handled, s) := handle_line text s in
      if (handled : bool) then s else ok_fmt [lit "unknown command: "; text] s
  | None => s
  end.

(** Bring-up: the reader is kept when there is no card. *)
Definition bring_up (init : result T Pn7160Error) (bus_ok : bool) (s : St) : St :=
  if negb bus_ok then
    say_fail (lit "console continues without NFC (check VEN/IRQ wiring)")
      (say_fail (lit "PN7160 I2C bring-up failed (see log)") s)
  else
    match init with
    | Err _ => say_fail (lit "PN7160 NCI init failed (see log)") s
    | Ok r =>
        match rd_power_on r with
        | (Ok _, r) => say_ok (lit "PN7160 reader up (NCI ladder + ISO-DEP power-on)") (set_reader r s)
        | (Err _, r) => say (lit "PN7160 up, no card at boot (kept — insert and run nfc)") (set_reader r s)
        end
    end.

(** [main] up to the loop, then the bytes the console delivers. *)
Definition boot (init : result T Pn7160Error) (bus_ok : bool) (net : Network N) (gate : ValidityGate) : St :=
  let s := mkNucula None net gate LineAssembler_new [] in
  let s := say (lit "[BOOT] bolty nucula frontend (issue #115)") s in
  let s := ok_fmt [lit "[BOOT] board="; BOARD_NAME; lit " built="; build_epoch] s in
  autoconnect (bring_up init bus_ok s).

Definition run_console (input : list Z) (s : St) : St := fold_left (λ s b, console_step b s) input s.
End nucula.

(** ** Properties *)

(** Activating a card is not a command to it. *)
Class NfcReaderLaws {T TE} `{!NfcReader T} {ND : NtagDevice T TE} (L : NtagLaws ND) : Prop :=
  law_power_on (r : T) : card (rd_power_on r).2 = card r.

(** What the store promises of a write that succeeded. *)
Class BlobStoreLaws {N} (B : BlobStore N) : Prop := {
  law_set_get k v n n' cap : set_blob k v n = (Ok (), n') → (length v ≤ cap)%nat → get_blob k cap n' = Ok (Some v);
  law_set_other k v n n' k' cap : set_blob k v n = (Ok (), n') → k' ≠ k → get_blob k' cap n' = get_blob k' cap n }.

Section properties.
  Context {T TE N V : Type} {RD : NfcReader T} {ND : NtagDevice T TE} {L : NtagLaws ND} {RL : NfcReaderLaws L}.
  Context {WD : WifiDriver} {B : BlobStore N}.
  Context (verify_sdm : Sdm → list Z → AesKey → AesKey → option V).
  Context (mdns_enabled : bool) (build_epoch : list Z).
  Context (debug_wifi : WifiError → list Z) (display_esp : Z → list Z) (debug_pn : Pn7160Error → list Z)
    (debug_ntag : Error TE → list Z).

  Local Notation St := (Nucula T N).
  Local Notation handle_line := (handle_line verify_sdm mdns_enabled build_epoch debug_wifi display_esp debug_pn debug_ntag).
  Local Notation console_step := (console_step verify_sdm mdns_enabled build_epoch debug_wifi display_esp debug_pn debug_ntag).
  Local Notation run_console := (run_console verify_sdm mdns_enabled build_epoch debug_wifi display_esp debug_pn debug_ntag).
  Local Notation connect := (connect mdns_enabled debug_wifi display_esp).
  Local Notation autoconnect := (autoconnect mdns_enabled debug_wifi display_esp).
  Local Notation boot := (boot mdns_enabled build_epoch debug_wifi display_esp).

Definition reader_card (s : St) : option Card := card <$> nu_reader s.

(** A card answered: the activation succeeded, or a session was already open. *)
Definition card_answers (s : St) : Prop :=
  ∃ r, nu_reader s = Some r ∧ (rd_session_active r = true ∨ is_ok (rd_power_on r).1 = true).

(** The card is the same, and evidence was only noted if a card answered. *)
Definition harmless (s s' : St) : Prop :=
  reader_card s' = reader_card s ∧ (nu_gate s' = nu_gate s ∨ card_answers s ∧ nu_gate s' = (note_serve_evidence (nu_gate s)).2).

(** Steps that concern neither the reader nor the gate. *)
Definition aside (s s' : St) : Prop := nu_reader s' = nu_reader s ∧ nu_gate s' = nu_gate s.

Lemma aside_harmless s s' : aside s s' → harmless s s'.
Proof. intros [Hr Hg]. unfold harmless, reader_card. rewrite Hr, Hg. auto. Qed.

Lemma report_aside v s : aside s (report v s).
Proof.
  unfold report. destruct (nw_manager _); [|done]. destruct (manager_ip _); [|done].
  destruct (nw_ota_spawned _); [done|]. by destruct v.
Qed.

Lemma save_aside ssid pass s : aside s (save_wifi_creds ssid pass s).2.
Proof.
  unfold save_wifi_creds. destruct (nw_creds _) as [nvs|]; [|done].
  destruct (set_blob _ ssid nvs) as [[[]|e] nvs1]; [|done]. by destruct (set_blob _ pass nvs1).
Qed.

Lemma aside_trans s1 s2 s3 : aside s1 s2 → aside s2 s3 → aside s1 s3.
Proof. unfold aside. intros [-> ->] [-> ->]. done. Qed.

Lemma connect_aside ssid pass s : aside s (connect ssid pass s).
Proof.
  unfold Nucula.connect. destruct (nw_manager _) as [m|]; [|done].
  destruct (push_str SSID_CAP [] ssid) as [ss|]; [|done]. destruct (push_str PASSWORD_CAP [] pass) as [pw|]; [|done].
  destruct (wifi_connect _ ss pw m) as [[[]|e] m1]; [|done]. set (s1 := set_net _ s).
  pose proof (save_aside ss pw s1) as Hs. destruct (save_wifi_creds ss pw s1) as [[[]|e] s2]; simpl in Hs.
  - eapply aside_trans; [|apply report_aside]. eapply aside_trans; [|exact Hs]. done.
  - eapply aside_trans; [|apply report_aside]. eapply aside_trans; [|exact Hs]. done.
Qed.

Lemma no_card_card r : card (no_card r).2 = card r.
Proof.
  unfold no_card. destruct (rd_session_active r); [done|]. pose proof (law_power_on r) as H.
  by destruct (rd_power_on r).
Qed.

Lemma no_card_answers s r : nu_reader s = Some r → (no_card r).1 = false → card_answers s.
Proof.
  intros Hr Hn. exists r. split; [done|]. unfold no_card in Hn.
  destruct (rd_session_active r); [by left|]. right. destruct (rd_power_on r) as [x r']. simpl in *.
  by apply negb_false_iff in Hn.
Qed.

Lemma poll_harmless s : harmless s (cmd_poll debug_pn s).
Proof.
  unfold cmd_poll. destruct (nu_reader s) as [r|] eqn:Er; [|by apply aside_harmless].
  pose proof (law_power_on r) as Hc. unfold harmless, reader_card, card_answers. rewrite Er.
  destruct (rd_power_on r) as [[[]|e] r'] eqn:Ep; simpl in *; rewrite Hc; (split; [done|]); [|by left].
  right. split; [|done]. exists r. rewrite Ep. auto.
Qed.

Lemma uid_harmless s : harmless s (cmd_uid s).
Proof.
  unfold cmd_uid. destruct (nu_reader s) as [r|] eqn:Er; [|by apply aside_harmless].
  pose proof (no_card_card r) as Hc. pose proof (no_card_answers s r Er) as Ha.
  destruct (no_card r) as [[] r']; simpl in *; unfold harmless, reader_card; rewrite Er; simpl; rewrite Hc.
  - split; [done|by left].
  - split; [done|]. right. auto.
Qed.

Lemma inspect_harmless s : harmless s (cmd_inspect verify_sdm debug_ntag s).
Proof.
  unfold cmd_inspect. destruct (nu_reader s) as [r|] eqn:Er; [|by apply aside_harmless].
  pose proof (no_card_card r) as Hc. pose proof (no_card_answers s r Er) as Ha.
  destruct (no_card r) as [[] r1]; simpl in Hc, Ha; unfold harmless, reader_card; rewrite Er.
  { simpl. rewrite Hc. split; [done|by left]. }
  pose proof (safe_inspect_spec verify_sdm None None r1) as [H1 _].
  destruct (safe_inspect verify_sdm None None r1) as [[res|e] r2]; simpl in H1.
  2:{ simpl. rewrite H1, Hc. split; [done|by left]. }
  pose proof (law_power_on r2) as H2. destruct (rd_power_on r2) as [[[]|e] r3]; simpl in H2.
  - pose proof (safe_inspect_spec verify_sdm None None r3) as [H3 _].
    destruct (safe_inspect verify_sdm None None r3) as [x r4]. simpl in *.
    rewrite H3, H2, H1, Hc. split; [done|right; auto].
  - simpl. rewrite H2, H1, Hc. split; [done|right; auto].
Qed.

Lemma handle_line_harmless input s : harmless s (handle_line input s).2.
Proof.
  unfold Nucula.handle_line. case_decide; [by apply aside_harmless|].
  destruct (match split_once 32 (trim input) with Some _ => _ | None => _ end) as [head rest].
  case_decide; [by apply aside_harmless|]. case_decide; [by apply aside_harmless|].
  case_decide; [apply aside_harmless; unfold cmd_status; simpl; by destruct (nu_reader s)|].
  case_decide; [apply poll_harmless|]. case_decide; [apply uid_harmless|].
  case_decide; [apply inspect_harmless|].
  case_decide.
  { destruct (rest ≫= split_once 32) as [[ssid pass]|]; apply aside_harmless; [apply connect_aside|done]. }
  case_decide; [apply aside_harmless, report_aside|by apply aside_harmless].
Qed.

Lemma console_step_harmless b s : harmless s (console_step b s).
Proof.
  unfold Nucula.console_step. destruct (feed _ (nu_asm s) b) as [[[text|]|] a]; try by apply aside_harmless.
  pose proof (handle_line_harmless text (set_asm a s)) as H. destruct (handle_line text _) as [[] s1]; done.
Qed.

(** The nucula console cannot change a card or vouch for itself: over any
    bytes typed at it, including malformed and overlong lines, everything stored
    on the card stays as it was; the image-validity gate is only ever advanced by
    serve evidence, at a moment when a card answered an activation or a session
    was open; and neither booting nor connecting to a stored network touches the
    gate. *)
Theorem nucula_harmless (input : list Z) (s : St) (init : result T Pn7160Error) (bus_ok : bool)
    (net : Network N) (gate : ValidityGate) :
  reader_card (run_console input s) = reader_card s ∧
  (∀ pre b post, input = pre ++ b :: post →
     let before := run_console pre s in
     let after := console_step b before in
     nu_gate after = nu_gate before ∨
     card_answers before ∧ nu_gate after = (note_serve_evidence (nu_gate before)).2) ∧
  nu_gate (boot init bus_ok net gate) = gate ∧
  (∀ r, init = Ok r → bus_ok = true → reader_card (boot init bus_ok net gate) = Some (card r)).
Proof.
  split; [|split; [|split]].
  - revert s. induction input as [|b input IH]; intros s; [done|]. unfold Nucula.run_console in *. simpl.
    rewrite IH. apply console_step_harmless.
  - intros pre b post _. cbv zeta. apply console_step_harmless.
  - unfold Nucula.boot, Nucula.autoconnect. set (s0 := ok_fmt _ _).
    assert (nu_gate (bring_up init bus_ok s0) = gate) as Hg.
    { unfold bring_up. destruct bus_ok; [|done]. destruct init as [r|e]; [|done].
      by destruct (rd_power_on r) as [[[]|e] r']. }
    destruct (load_wifi_creds _) as [[ssid pass]|]; [|done]. by rewrite (proj2 (connect_aside ssid pass _)).
  - intros r -> ->. unfold Nucula.boot, Nucula.autoconnect. set (s0 := ok_fmt _ _).
    assert (reader_card (bring_up (Ok r) true s0) = Some (card r)) as Hc.
    { unfold bring_up, reader_card. simpl. pose proof (law_power_on r) as H.
      destruct (rd_power_on r) as [[[]|e] r']; simpl in *; by rewrite H. }
    destruct (load_wifi_creds _) as [[ssid pass]|]; [|done].
    unfold reader_card in *. by rewrite (proj1 (connect_aside ssid pass _)).
Qed.

(** Credentials that were saved are the ones the next boot uses. *)
Theorem wifi_creds_roundtrip {BL : BlobStoreLaws B} (ssid password : list Z) (s s' : St) :
  from_utf8 ssid = Some ssid → from_utf8 password = Some password →
  (length ssid ≤ 32)%nat → (length password ≤ 64)%nat →
  save_wifi_creds ssid password s = (Ok (), s') → load_wifi_creds s' = Some (ssid, password).
Proof.
  intros Hs Hp Ls Lp. unfold save_wifi_creds, load_wifi_creds. destruct (nw_creds (nu_net s)) as [nvs|]; [|done].
  destruct (set_blob KEY_SSID ssid nvs) as [[[]|e] n1] eqn:E1; [|done].
  destruct (set_blob KEY_PASS password n1) as [[[]|e] n2] eqn:E2; [|done]. intros [= <-]. simpl.
  rewrite (law_set_other _ _ _ _ KEY_SSID _ E2) by (by vm_compute). rewrite (law_set_get _ _ _ _ _ E1) by done. simpl.
  rewrite (law_set_get _ _ _ _ _ E2) by done. simpl. unfold decode_creds_pair, decode_creds_blob. simpl.
  rewrite Hs, Hp. simpl. unfold heapless_from, push_str. simpl.
  by rewrite !decide_True by (simpl; unfold SSID_CAP, PASSWORD_CAP; lia).
Qed.

(** A chain of driver calls that succeeded has made each of them. *)
Lemma wcall_inv {A} (k : bool → M WifiManager WifiError A) c h b a m' :
  (wcall c ≫= k) (mkWifiManager h b) = (Ok a, m') → ∃ x, k x (mkWifiManager (h ++ [c]) b) = (Ok a, m').
Proof.
  unfold mbind, M_bind, wcall. simpl. destruct (wifi_rc (h ++ [c])) as [x|e]; [|done]. intros Hk. by exists x.
Qed.

Lemma wcall_if_inv {A} (k : bool → M WifiManager WifiError A) (x : bool) c h b a m' :
  ((if x then wcall c else mret false) ≫= k) (mkWifiManager h b) = (Ok a, m') →
  ∃ y, k y (mkWifiManager (h ++ if x then [c] else []) b) = (Ok a, m').
Proof. destruct x; [apply wcall_inv|]. rewrite app_nil_r. intros Hk. by exists false. Qed.

Lemma wifi_of_inv {A X} (r : result X WifiError) (k : X → M WifiManager WifiError A) m a m' :
  (wifi_of r ≫= k) m = (Ok a, m') → ∃ x, r = Ok x ∧ k x m = (Ok a, m').
Proof. unfold mbind, M_bind, wifi_of. destruct r as [x|e]; [|done]. intros Hk. by exists x. Qed.

Lemma wbind_inv {A X} (f : M WifiManager WifiError X) (k : X → M WifiManager WifiError A) m a m' :
  (f ≫= k) m = (Ok a, m') → ∃ x m1, f m = (Ok x, m1) ∧ k x m1 = (Ok a, m').
Proof. unfold mbind, M_bind. destruct (f m) as [[x|e] m1]; [|done]. intros Hk. by exists x, m1. Qed.

(** What leaving the current network asks of the driver. *)
Definition left_calls (mdns connected started : bool) : list WifiCall :=
  (if mdns_enabled && mdns then [Wc_MdnsDrop] else []) ++
  [Wc_IsConnected] ++ (if connected then [Wc_Disconnect] else []) ++
  [Wc_IsStarted] ++ (if started then [Wc_Stop] else []).

Lemma disconnect_inv h b m' :
  wifi_disconnect mdns_enabled (mkWifiManager h b) = (Ok (), m') → ∃ connected started : bool,
    m' = mkWifiManager (h ++ left_calls b connected started) (b && negb mdns_enabled).
Proof.
  unfold wifi_disconnect. assert (drop_mdns mdns_enabled (mkWifiManager h b) =
    mkWifiManager (h ++ if mdns_enabled && b then [Wc_MdnsDrop] else []) (b && negb mdns_enabled)) as ->.
  { unfold drop_mdns. simpl. destruct mdns_enabled, b; simpl; by rewrite ?app_nil_r. }
  intros [c [? [s [? [= <-]]%wcall_if_inv]%wcall_inv]%wcall_if_inv]%wcall_inv.
  exists c, s. unfold left_calls. by rewrite <- !app_assoc.
Qed.

Lemma mdns_inv h b m' : (if mdns_enabled then start_mdns else mret ()) (mkWifiManager h b) = (Ok (), m') →
  m' = mkWifiManager
    (h ++ if mdns_enabled then [Wc_MdnsTake; Wc_MdnsSetHostname; Wc_MdnsSetInstanceName] else [])
    (mdns_enabled || b).
Proof.
  destruct mdns_enabled; [|intros [= <-]; by rewrite app_nil_r].
  intros [? [? [? [= <-]]%wcall_inv]%wcall_inv]%wcall_inv. by rewrite <- !app_assoc.
Qed.

(** A successful connection has left the old network first, its mDNS service
    included, and configured exactly the given credentials before starting. *)
Theorem wifi_connect_trace (ssid password : list Z) (h : list WifiCall) (mdns : bool) (m' : WifiManager) :
  wifi_connect mdns_enabled ssid password (mkWifiManager h mdns) = (Ok (), m') →
  ∃ connected started : bool, wm_calls m' = h ++ left_calls mdns connected started ++
    [Wc_SetConfiguration ssid password; Wc_Start; Wc_Connect; Wc_WaitNetifUp] ++
    (if mdns_enabled then [Wc_MdnsTake; Wc_MdnsSetHostname; Wc_MdnsSetInstanceName] else []) ++ [Wc_GetIpInfo].
Proof.
  unfold wifi_connect. intros ([] & m1 & (c & s & ->)%disconnect_inv & Hk)%wbind_inv.
  apply wifi_of_inv in Hk as (s1 & Hs & Hk). apply wifi_of_inv in Hk as (p1 & Hp & Hk).
  apply wcall_inv in Hk as [? Hk]. apply wcall_inv in Hk as [? Hk]. apply wcall_inv in Hk as [? Hk].
  apply wcall_inv in Hk as [? Hk]. apply wbind_inv in Hk as ([] & m2 & ->%mdns_inv & Hk).
  apply wcall_inv in Hk as [? [= <-]]. exists c, s. simpl.
  unfold copy_ssid, copy_password, push_str in *. destruct (decide _); [|done]. destruct (decide _); [|done].
  injection Hs as <-. injection Hp as <-. rewrite <- !app_assoc. by destruct mdns_enabled.
Qed.
End properties.

(** ** Simulated hardware *)

(** A reader in front of the simulated card; activation drops its session. *)
#[local] Instance sim_reader : NfcReader Sim := {|
  rd_power_on w :=
    match sim_budget w with
    | Some 0%nat => (Err (Pn_PowerOn (Drv_Other 1)), w)
    | b => (Ok (), mkSim (sim_card w) None b)
    end;
  rd_session_active w := bool_decide (is_Some (sim_auth w));
  rd_uid w := match c_uid (sim_card w) with Uid_Fixed b => b | Uid_Random b => b end;
  rd_atr _ := [0x75; 0x77] |}.

#[local] Instance sim_reader_laws : NfcReaderLaws (ND := sim_device) sim_laws.
Proof. intros w. simpl. by destruct (sim_budget w) as [[|n]|]. Qed.

(** A store that accepts a given number of writes. *)
#[local] Instance sim_blobs : BlobStore (list (list Z * list Z) * nat) := {|
  set_blob k v n :=
    match n.2 with O => (Err 1, n) | S more => (Ok (), ((k, v) :: n.1, more)) end;
  get_blob k cap n :=
    match list_find (λ e, e.1 = k) n.1 with
    | None => Ok None
    | Some (_, e) => if decide (length e.2 ≤ cap)%nat then Ok (Some e.2) else Err 2
    end |}.

#[local] Instance sim_blobs_laws : BlobStoreLaws sim_blobs.
Proof.
  split.
  - intros k v [n []] n' cap; simpl; [done|]. intros [= <-] Hl. simpl. by rewrite !decide_True.
  - intros k v [n []] n' k' cap; simpl; [done|]. intros [= <-] Hk. simpl. rewrite decide_False by done.
    destruct (list_find _ n) as [[i e]|]; done.
Qed.

(** A driver on which every call succeeds and nothing is connected yet. *)
#[local] Instance sim_wifi : WifiDriver := {|
  wifi_rc _ := Ok false;
  wifi_ip h := if decide (Wc_Connect ∈ h) then Some (lit "10.0.0.7") else None |}.

Definition sim_verify : Sdm → list Z → AesKey → AesKey → option () := λ _ _ _ _, None.
Definition sim_text {A} : A → list Z := λ _, lit "error".

Definition sim_console : list Z → Nucula Sim (list (list Z * list Z) * nat) → Nucula Sim (list (list Z * list Z) * nat) :=
  run_console sim_verify true (lit "0") sim_text sim_text sim_text sim_text.

Definition sim_boot (creds : list (list Z * list Z) * nat) : Nucula Sim (list (list Z * list Z) * nat) :=
  boot true (lit "0") sim_text sim_text (Ok sim_factory) true (mkNetwork (Some (mkWifiManager [] false)) (Some creds) false)
    (ValidityGate_new).

Lemma nucula_harmless_witness :
  reader_card (sim_console (lit "uid" ++ [10] ++ lit "wipe" ++ [10]) (sim_boot ([], 2%nat))) = Some factory_card ∧
  drop 4 (nu_out (sim_console (lit "uid" ++ [10] ++ lit "wipe" ++ [10]) (sim_boot ([], 2%nat)))) =
    [lit "[OK] uid=04:10:65:FA:96:73:80"; lit "[OK] unknown command: wipe"].
Proof.
  split; [|by vm_compute]. unfold sim_console.
  rewrite (proj1 (nucula_harmless (L := sim_laws) sim_verify true (lit "0") sim_text sim_text sim_text sim_text
    _ _ (Ok sim_factory) true degraded (ValidityGate_new))). by vm_compute.
Defined.

Lemma wifi_creds_roundtrip_witness :
  load_wifi_creds (save_wifi_creds (lit "home") (lit "secret") (sim_boot ([], 2%nat))).2 = Some (lit "home", lit "secret").
Proof. apply (wifi_creds_roundtrip (lit "home") (lit "secret") (sim_boot ([], 2%nat)));
    first [by vm_compute|vm_compute; lia]. Defined.

(** The pair is two blobs, and a write that fails between them leaves the new
    network with the old password, which loads as if it were a pair. *)
Example wifi_creds_torn :
  let s := (save_wifi_creds (lit "cafe") (lit "guest")
    (save_wifi_creds (lit "home") (lit "secret") (sim_boot ([], 3%nat))).2) in
  s.1 = Err 1 ∧ load_wifi_creds s.2 = Some (lit "cafe", lit "secret").
Proof. by vm_compute. Qed.
