(* ===== verification/Ble.v ===== *)
(** * The BLE command service

    [apps/bolty-esp32/src/ble.rs]: the GATT events that build the service, the
    table of connected peers, the command queue and the notifications, with the
    loop in [firmware.rs] that drains the queue.

    The Bluetooth stack is the class [BleStack]: it answers calls by their
    history. Its callbacks run on another task; where the code takes the lock
    several times, the events that may come in between are arguments. *)

From S2P Require Import Prelude Str Hex Derivation Assessment Ndef NtagTypes Session Ntag NtagProofs Commands Console Workflow Esp32 Firmware FirmwareProofs.

Inductive BtUuid : Type := Uuid16 (u : Z) | Uuid128 (u : Z).

#[export] Instance BtUuid_eq_dec : EqDecision BtUuid.
Proof. solve_decision. Defined.

Definition APP_ID : Z := 0.
Definition MAX_CONNECTIONS : nat := 2.
Definition CMD_QUEUE_SIZE : nat := 8.
Definition CMD_CAP : nat := 256.
Definition SERVICE_UUID : Z := 0xb017000000001000800000805f9b34fb.
Definition CMD_CHAR_UUID : Z := 0xb017000100001000800000805f9b34fb.
Definition RSP_CHAR_UUID : Z := 0xb017000200001000800000805f9b34fb.
Definition CCCD_UUID : Z := 0x2902.

Record Connection : Type := mkConnection { cn_peer : list Z; cn_conn_id : Z; cn_subscribed : bool }.

Inductive BleCall : Type :=
| Bc_StartAdvertising
| Bc_SetDeviceName (name : list Z)
| Bc_SetAdvConf (service : BtUuid)
| Bc_CreateService (gatt_if : Z) (service : BtUuid)
| Bc_StartService (service_handle : Z)
| Bc_AddCharacteristic (service_handle : Z) (uuid : BtUuid)
| Bc_AddDescriptor (service_handle : Z) (uuid : BtUuid)
| Bc_SendResponse (gatt_if conn_id trans_id : Z)
| Bc_Notify (gatt_if conn_id handle : Z) (value : list Z).

(** Whether the stack accepts its latest call. *)
Class BleStack : Type := ble_rc : list BleCall → result () Z.

Record Ble : Type := mkBle {
  bl_gatt_if : option Z;
  bl_service_handle : option Z;
  bl_cmd_handle : option Z;
  bl_rsp_handle : option Z;
  bl_rsp_cccd_handle : option Z;
  bl_connections : list Connection;
  bl_cmd_queue : list (list Z);
  bl_calls : list BleCall }.

Definition Ble_default : Ble := mkBle None None None None None [] [] [].

Inductive GattsEvent : Type :=
| Ev_ServiceRegistered (status_ok : bool) (app_id : Z)
| Ev_ServiceCreated (status_ok : bool) (service_handle : Z)
| Ev_CharacteristicAdded (status_ok : bool) (attr_handle service_handle : Z) (char_uuid : BtUuid)
| Ev_DescriptorAdded (status_ok : bool) (attr_handle : Z) (descr_uuid : BtUuid)
| Ev_PeerConnected (conn_id : Z) (addr : list Z)
| Ev_PeerDisconnected (addr : list Z)
| Ev_Write (conn_id trans_id : Z) (addr : list Z) (handle offset : Z) (need_rsp : bool) (value : list Z)
| Ev_Mtu (mtu : Z)
| Ev_OtherGatts.

(** ** The state behind the lock *)

Definition set_gatt_if (g : Z) (s : Ble) : Ble :=
  mkBle (Some g) (bl_service_handle s) (bl_cmd_handle s) (bl_rsp_handle s) (bl_rsp_cccd_handle s)
    (bl_connections s) (bl_cmd_queue s) (bl_calls s).
Definition set_service (h : Z) (s : Ble) : Ble :=
  mkBle (bl_gatt_if s) (Some h) (bl_cmd_handle s) (bl_rsp_handle s) (bl_rsp_cccd_handle s)
    (bl_connections s) (bl_cmd_queue s) (bl_calls s).
Definition set_cmd_handle (h : Z) (s : Ble) : Ble :=
  mkBle (bl_gatt_if s) (bl_service_handle s) (Some h) (bl_rsp_handle s) (bl_rsp_cccd_handle s)
    (bl_connections s) (bl_cmd_queue s) (bl_calls s).
Definition set_rsp_handle (h : Z) (s : Ble) : Ble :=
  mkBle (bl_gatt_if s) (bl_service_handle s) (bl_cmd_handle s) (Some h) (bl_rsp_cccd_handle s)
    (bl_connections s) (bl_cmd_queue s) (bl_calls s).
Definition set_cccd_handle (h : Z) (s : Ble) : Ble :=
  mkBle (bl_gatt_if s) (bl_service_handle s) (bl_cmd_handle s) (bl_rsp_handle s) (Some h)
    (bl_connections s) (bl_cmd_queue s) (bl_calls s).
Definition set_connections (cs : list Connection) (s : Ble) : Ble :=
  mkBle (bl_gatt_if s) (bl_service_handle s) (bl_cmd_handle s) (bl_rsp_handle s) (bl_rsp_cccd_handle s)
    cs (bl_cmd_queue s) (bl_calls s).
Definition set_queue (q : list (list Z)) (s : Ble) : Ble :=
  mkBle (bl_gatt_if s) (bl_service_handle s) (bl_cmd_handle s) (bl_rsp_handle s) (bl_rsp_cccd_handle s)
    (bl_connections s) q (bl_calls s).

(** [heapless::Vec::push] and [Deque::push_back], their errors ignored. *)
Definition push_bounded {A} (cap : nat) (x : A) (l : list A) : list A :=
  if decide (length l < cap)%nat then l ++ [x] else l.

(** [swap_remove] at the first connection of a peer. *)
Definition swap_remove {A} (i : nat) (l : list A) : list A :=
  match last l with
  | Some x => take (length l - 1) (<[i:=x]> l)
  | None => l
  end.

Definition remove_peer (addr : list Z) (cs : list Connection) : list Connection :=
  match list_find (λ c, cn_peer c = addr) cs with
  | Some (i, _) => swap_remove i cs
  | None => cs
  end.

(** [iter_mut().find(|c| c.conn_id == conn_id)]. *)
Fixpoint subscribe (conn_id : Z) (on : bool) (cs : list Connection) : list Connection :=
  match cs with
  | [] => []
  | c :: cs =>
      if decide (cn_conn_id c = conn_id) then mkConnection (cn_peer c) (cn_conn_id c) on :: cs
      else c :: subscribe conn_id on cs
  end.

Definition command_text (value : list Z) : list Z := put CMD_CAP [] (trim (default [] (from_utf8 value))).

Section ble.
  Context `{!BleStack}.

Definition bcall (c : BleCall) : M Ble Z () := λ s,
  let h := bl_calls s ++ [c] in
  (ble_rc h, mkBle (bl_gatt_if s) (bl_service_handle s) (bl_cmd_handle s) (bl_rsp_handle s) (bl_rsp_cccd_handle s)
     (bl_connections s) (bl_cmd_queue s) h).

Definition modify (f : Ble → Ble) : M Ble Z () := λ s, (Ok (), f s).

(** *** Events *)

Definition on_gap_event (configured : option bool) : M Ble Z () :=
  match configured with
  | Some true => bcall Bc_StartAdvertising
  | _ => mret ()
  end.

Definition on_service_registered (gatt_if : Z) (status_ok : bool) (app_id : Z) : M Ble Z () :=
  if status_ok && bool_decide (app_id = APP_ID) then
    _ ← modify (set_gatt_if gatt_if);
    _ ← bcall (Bc_SetDeviceName (lit "Bolty"));
    _ ← bcall (Bc_SetAdvConf (Uuid128 SERVICE_UUID));
    bcall (Bc_CreateService gatt_if (Uuid128 SERVICE_UUID))
  else mret ().

Definition on_service_created (status_ok : bool) (service_handle : Z) : M Ble Z () :=
  if status_ok then
    _ ← modify (set_service service_handle);
    _ ← bcall (Bc_StartService service_handle);
    _ ← bcall (Bc_AddCharacteristic service_handle (Uuid128 CMD_CHAR_UUID));
    bcall (Bc_AddCharacteristic service_handle (Uuid128 RSP_CHAR_UUID))
  else mret ().

Definition on_characteristic_added (status_ok : bool) (attr_handle service_handle : Z) (uuid : BtUuid) : M Ble Z () := λ s,
  if negb status_ok then (Ok (), s)
  else if decide (bl_service_handle s ≠ Some service_handle) then (Ok (), s)
  else if decide (uuid = Uuid128 CMD_CHAR_UUID) then (Ok (), set_cmd_handle attr_handle s)
  else if decide (uuid = Uuid128 RSP_CHAR_UUID) then
    bcall (Bc_AddDescriptor service_handle (Uuid16 CCCD_UUID)) (set_rsp_handle attr_handle s)
  else (Ok (), s).

Definition on_descriptor_added (status_ok : bool) (attr_handle : Z) (uuid : BtUuid) : M Ble Z () :=
  if status_ok && bool_decide (uuid = Uuid16 CCCD_UUID) then modify (set_cccd_handle attr_handle) else mret ().

(** What a write does to the state, before the reply. *)
Definition accept_write (conn_id handle offset : Z) (value : list Z) (s : Ble) : Ble :=
  if decide (Some handle = bl_rsp_cccd_handle s) then
    match value with
    | [lo; hi] =>
        if decide (offset = 0) then
          set_connections (subscribe conn_id (bool_decide (lo + 256 * hi ≠ 0)) (bl_connections s)) s
        else s
    | _ => s
    end
  else if decide (Some handle = bl_cmd_handle s) then
    set_queue (push_bounded CMD_QUEUE_SIZE (command_text value) (bl_cmd_queue s)) s
  else s.

Definition on_write (gatt_if conn_id trans_id handle offset : Z) (need_rsp : bool) (value : list Z) : M Ble Z () := λ s,
  let s := accept_write conn_id handle offset value s in
  if need_rsp then (Ok (), (bcall (Bc_SendResponse gatt_if conn_id trans_id) s).2) else (Ok (), s).

Definition on_gatts_event (gatt_if : Z) (event : GattsEvent) : M Ble Z () :=
  match event with
  | Ev_ServiceRegistered status_ok app_id => on_service_registered gatt_if status_ok app_id
  | Ev_ServiceCreated status_ok h => on_service_created status_ok h
  | Ev_CharacteristicAdded status_ok a h uuid => on_characteristic_added status_ok a h uuid
  | Ev_DescriptorAdded status_ok a uuid => on_descriptor_added status_ok a uuid
  | Ev_PeerConnected conn_id addr =>
      modify (λ s, set_connections (push_bounded MAX_CONNECTIONS (mkConnection addr conn_id false) (bl_connections s)) s)
  | Ev_PeerDisconnected addr => modify (λ s, set_connections (remove_peer addr (bl_connections s)) s)
  | Ev_Write conn_id trans_id _ handle offset need_rsp value =>
      on_write gatt_if conn_id trans_id handle offset need_rsp value
  | Ev_Mtu _ | Ev_OtherGatts => mret ()
  end.

(** What the callbacks do to the state: their errors are dropped ([let _ =]). *)
Inductive BleEvent : Type := Be_Gap (configured : option bool) | Be_Gatts (gatt_if : Z) (event : GattsEvent).

Definition ble_event (e : BleEvent) (s : Ble) : Ble :=
  match e with
  | Be_Gap configured => (on_gap_event configured s).2
  | Be_Gatts gatt_if event => (on_gatts_event gatt_if event s).2
  end.

Definition ble_events (es : list BleEvent) (s : Ble) : Ble := fold_left (λ s e, ble_event e s) es s.

(** *** Used by the main loop *)

Definition poll_command (s : Ble) : option (list Z) * Ble :=
  match bl_cmd_queue s with
  | [] => (None, s)
  | cmd :: q => (Some cmd, set_queue q s)
  end.

Definition notify_all (gi rh : Z) (msg : list Z) : list Z → Ble → Ble :=
  fix go conns s := match conns with
  | [] => s
  | conn_id :: conns => go conns (bcall (Bc_Notify gi conn_id rh msg) s).2
  end.

(** [send_response] takes the lock three times; [es1] and [es2] are the events
    that come between. *)
Definition send_response (es1 es2 : list BleEvent) (msg : list Z) (s : Ble) : Ble :=
  let gatt_if := bl_gatt_if s in
  let s := ble_events es1 s in
  let rsp_handle := bl_rsp_handle s in
  match gatt_if, rsp_handle with
  | Some gi, Some rh =>
      let s := ble_events es2 s in
      notify_all gi rh msg (cn_conn_id <$> filter (λ c, cn_subscribed c = true) (bl_connections s)) s
  | _, _ => s
  end.

(** *** Waiting for the service

    [ticks k] and [seen k] are the tick counter and the state when the loop
    looks for the [k]-th time; [now - start] wraps in a release build. *)
Definition is_ready (s : Ble) : bool := bool_decide (is_Some (bl_cmd_handle s) ∧ is_Some (bl_rsp_cccd_handle s)).

Fixpoint wait_loop (ticks : nat → Z) (seen : nat → Ble) (start timeout_ticks : Z) (fuel k : nat) : option bool :=
  match fuel with
  | O => None
  | S fuel =>
      if is_ready (seen k) then Some true
      else if decide (timeout_ticks < u32 (ticks k - start)) then Some false
      else wait_loop ticks seen start timeout_ticks fuel (S k)
  end.

Definition wait_for_ready (ticks : nat → Z) (seen : nat → Ble) (start timeout_ms : Z) (fuel : nat) : option bool :=
  wait_loop ticks seen start (u32 (timeout_ms `div` 10)) fuel 0.
End ble.

(** ** The queue is a bounded first-in first-out buffer *)

Inductive BleOp : Type := Bo_Event (e : BleEvent) | Bo_Poll.

(** The abstract buffer: a full one drops what it is offered. *)
Inductive FifoOp : Type := Fifo_Offer (cmd : list Z) | Fifo_Take | Fifo_Idle.

Definition fifo_step (op : FifoOp) (q : list (list Z)) : option (list Z) * list (list Z) :=
  match op with
  | Fifo_Offer cmd => (None, if decide (length q < 8)%nat then q ++ [cmd] else q)
  | Fifo_Take => (head q, tail q)
  | Fifo_Idle => (None, q)
  end.

Fixpoint fifo_run (ops : list FifoOp) (q : list (list Z)) : list (list Z) * list (list Z) :=
  match ops with
  | [] => ([], q)
  | op :: ops =>
      let '(o, q) := fifo_step op q in
      let '(os, q) := fifo_run ops q in
      (match o with Some cmd => cmd :: os | None => os end, q)
  end.

Section ble_facts.
  Context {BS : BleStack}.

Fixpoint ble_run (ops : list BleOp) (s : Ble) : list (list Z) * Ble :=
  match ops with
  | [] => ([], s)
  | Bo_Event e :: ops => ble_run ops (ble_event e s)
  | Bo_Poll :: ops =>
      let '(cmd, s) := poll_command s in
      let '(cmds, s) := ble_run ops s in
      (match cmd with Some cmd => cmd :: cmds | None => cmds end, s)
  end.

(** A write to the command characteristic: the trimmed text of valid UTF-8, the
    empty command for anything else or for a text that is too long. *)
Definition offered (e : BleEvent) (s : Ble) : FifoOp :=
  match e with
  | Be_Gatts _ (Ev_Write _ _ _ handle _ _ value) =>
      if bool_decide (Some handle ≠ bl_rsp_cccd_handle s ∧ Some handle = bl_cmd_handle s)
      then Fifo_Offer (put 256 [] (trim (default [] (from_utf8 value)))) else Fifo_Idle
  | _ => Fifo_Idle
  end.

(** The abstract reading of a run. *)
Fixpoint fifo_view (ops : list BleOp) (s : Ble) : list FifoOp :=
  match ops with
  | [] => []
  | Bo_Event e :: ops => offered e s :: fifo_view ops (ble_event e s)
  | Bo_Poll :: ops => Fifo_Take :: fifo_view ops (poll_command s).2
  end.

(** What calls to the stack leave alone. *)
Definition kept (s : Ble) : option Z * option Z * option Z * option Z * option Z * list Connection * list (list Z) :=
  (bl_gatt_if s, bl_service_handle s, bl_cmd_handle s, bl_rsp_handle s, bl_rsp_cccd_handle s, bl_connections s, bl_cmd_queue s).

Lemma bcall_kept c s : kept (bcall c s).2 = kept s.
Proof. done. Qed.

Lemma bcall_chain_kept c (k : () → M Ble Z ()) s :
  (∀ s', kept s' = kept s → kept (k () s').2 = kept s) → kept ((bcall c ≫= k) s).2 = kept s.
Proof.
  intros Hk. unfold mbind, M_bind, bcall. destruct (ble_rc _) as [[]|e]; [by apply Hk|done].
Qed.

Lemma registered_kept g s :
  kept ((_ ← bcall (Bc_SetDeviceName (lit "Bolty")); _ ← bcall (Bc_SetAdvConf (Uuid128 SERVICE_UUID));
         bcall (Bc_CreateService g (Uuid128 SERVICE_UUID))) s).2 = kept s.
Proof.
  apply bcall_chain_kept. intros s1 H1. rewrite <- H1. apply bcall_chain_kept. intros s2 H2. by rewrite bcall_kept.
Qed.

Lemma created_kept h s :
  kept ((_ ← bcall (Bc_StartService h); _ ← bcall (Bc_AddCharacteristic h (Uuid128 CMD_CHAR_UUID));
         bcall (Bc_AddCharacteristic h (Uuid128 RSP_CHAR_UUID))) s).2 = kept s.
Proof.
  apply bcall_chain_kept. intros s1 H1. rewrite <- H1. apply bcall_chain_kept. intros s2 H2. by rewrite bcall_kept.
Qed.

(** The effect of every event on the state the service keeps. *)
Definition effect (e : BleEvent) (s : Ble) : Ble :=
  match e with
  | Be_Gap _ => s
  | Be_Gatts g (Ev_ServiceRegistered ok app_id) => if ok && bool_decide (app_id = APP_ID) then set_gatt_if g s else s
  | Be_Gatts _ (Ev_ServiceCreated ok h) => if ok then set_service h s else s
  | Be_Gatts _ (Ev_CharacteristicAdded ok a h uuid) =>
      if ok && bool_decide (bl_service_handle s = Some h) then
        if decide (uuid = Uuid128 CMD_CHAR_UUID) then set_cmd_handle a s
        else if decide (uuid = Uuid128 RSP_CHAR_UUID) then set_rsp_handle a s else s
      else s
  | Be_Gatts _ (Ev_DescriptorAdded ok a uuid) => if ok && bool_decide (uuid = Uuid16 CCCD_UUID) then set_cccd_handle a s else s
  | Be_Gatts _ (Ev_PeerConnected c addr) =>
      set_connections (push_bounded MAX_CONNECTIONS (mkConnection addr c false) (bl_connections s)) s
  | Be_Gatts _ (Ev_PeerDisconnected addr) => set_connections (remove_peer addr (bl_connections s)) s
  | Be_Gatts _ (Ev_Write c _ _ handle offset _ value) => accept_write c handle offset value s
  | Be_Gatts _ (Ev_Mtu _) | Be_Gatts _ Ev_OtherGatts => s
  end.

Lemma ble_event_effect e s : kept (ble_event e s) = kept (effect e s).
Proof.
  destruct e as [[[]|]|g ev]; [done..|]. destruct ev as [ok app|ok h|ok a h uuid|ok a uuid|c addr|addr|c t ad h off nr v| |];
    try done; simpl; unfold on_service_registered, on_service_created, on_characteristic_added, on_descriptor_added, on_write.
  - destruct (ok && _); [|done]. unfold mbind, M_bind, modify. apply registered_kept.
  - destruct ok; [|done]. unfold mbind, M_bind, modify. apply created_kept.
  - destruct ok; [|done]. cbn [negb andb]. destruct (decide (bl_service_handle s = Some h)) as [E|E].
    + rewrite decide_False, bool_decide_eq_true_2 by (done || by intros []). by repeat case_decide.
    + by rewrite decide_True, bool_decide_eq_false_2.
  - by destruct (ok && _).
  - by destruct nr.
Qed.

Lemma effect_queue e s : fifo_step (offered e s) (bl_cmd_queue s) = (None, bl_cmd_queue (effect e s)).
Proof.
  destruct e as [|g ev]; [done|].
  destruct ev as [ok app|ok h|ok a h uuid|ok a uuid|c addr|addr|c t ad h off nr v| |]; try done; simpl.
  - by destruct (ok && _).
  - by destruct ok.
  - destruct (ok && _); [|done]. by repeat case_decide.
  - by destruct (ok && _).
  - unfold accept_write. destruct (decide (Some h = bl_rsp_cccd_handle s)) as [E|E].
    + rewrite bool_decide_eq_false_2 by tauto. destruct v as [|lo [|hi [|]]]; try done. by case_decide.
    + destruct (decide (Some h = bl_cmd_handle s)) as [E'|E'].
      * by rewrite bool_decide_eq_true_2.
      * by rewrite bool_decide_eq_false_2 by tauto.
Qed.

Lemma ble_event_queue e s : fifo_step (offered e s) (bl_cmd_queue s) = (None, bl_cmd_queue (ble_event e s)).
Proof. rewrite effect_queue. pose proof (ble_event_effect e s) as H. unfold kept in H. injection H as _ _ _ _ _ _ ->. done. Qed.

Definition offer (op : FifoOp) : option (list Z) := match op with Fifo_Offer cmd => Some cmd | _ => None end.

Lemma fifo_run_accounts ops q out q' : fifo_run ops q = (out, q') →
  sublist (out ++ q') (q ++ omap offer ops) ∧ ((length q ≤ 8)%nat → (length q' ≤ 8)%nat).
Proof.
  revert q out q'. induction ops as [|op ops IH]; intros q out q'; simpl.
  { intros [= <- <-]. by rewrite app_nil_r. }
  destruct (fifo_step op q) as [o q1] eqn:E1. destruct (fifo_run ops q1) as [os q2] eqn:E2.
  intros [= <- <-]. destruct (IH _ _ _ E2) as [H1 H2]. destruct op as [cmd| |]; simpl in *; injection E1 as <- <-.
  - case_decide as Hd.
    + rewrite <- app_assoc in H1. split; [done|]. intros Hl. apply H2. rewrite length_app. simpl. lia.
    + split; [|done]. etrans; [exact H1|]. apply sublist_app; [done|]. by apply sublist_cons.
  - destruct q as [|cmd q]; simpl in *; [done|]. split; [by apply sublist_skip|]. intros Hl. apply H2. lia.
  - done.
Qed.

(** The command queue: whatever events the Bluetooth stack delivers and
    however they interleave with polling, the commands the main loop receives
    are those of a first-in first-out buffer of eight, offered the trimmed text
    of each write to the command characteristic. So every command polled or
    still waiting was waiting before or was written by a peer, in that order,
    none is made up or repeated, and the queue never outgrows its eight places. *)
Theorem ble_queue_fifo (ops : list BleOp) (s : Ble) :
  let '(cmds, s') := ble_run ops s in
  fifo_run (fifo_view ops s) (bl_cmd_queue s) = (cmds, bl_cmd_queue s') ∧
  sublist (cmds ++ bl_cmd_queue s') (bl_cmd_queue s ++ omap offer (fifo_view ops s)) ∧
  ((length (bl_cmd_queue s) ≤ CMD_QUEUE_SIZE)%nat → (length (bl_cmd_queue s') ≤ CMD_QUEUE_SIZE)%nat).
Proof.
  assert (∀ cmds s', ble_run ops s = (cmds, s') →
    fifo_run (fifo_view ops s) (bl_cmd_queue s) = (cmds, bl_cmd_queue s')) as Hrun.
  { revert s. induction ops as [|[e|] ops IH]; intros s cmds s'; simpl; [by intros [= <- <-]| |].
    - intros H. rewrite ble_event_queue, (IH _ _ _ H). done.
    - unfold poll_command. destruct (bl_cmd_queue s) as [|cmd q] eqn:Eq; simpl.
      + destruct (ble_run ops s) as [cs s1] eqn:E. intros [= <- <-]. rewrite <- Eq at 1. by rewrite (IH _ _ _ E).
      + destruct (ble_run ops (set_queue q s)) as [cs s1] eqn:E. intros [= <- <-].
        pose proof (IH _ _ _ E) as H. simpl in H. by rewrite H. }
  destruct (ble_run ops s) as [cmds s'] eqn:E. specialize (Hrun _ _ eq_refl). split; [done|].
  exact (fifo_run_accounts _ _ _ _ Hrun).
Qed.

(** A command that reaches the main loop fits its buffer. *)
Lemma offered_fits e s cmd : offered e s = Fifo_Offer cmd → (length cmd ≤ CMD_CAP)%nat.
Proof.
  destruct e as [|g [| | | | | |c t ad h off nr v| |]]; try done. simpl. case_bool_decide; [|done]. intros [= <-].
  unfold put, push, push_str, CMD_CAP. case_decide; simpl in *; lia.
Qed.

(** ** Who is notified *)

(** The state after a history, latest event first. *)
Definition after (older : list BleEvent) : Ble := ble_events (reverse older) Ble_default.

Lemma after_cons e older : after (e :: older) = ble_event e (after older).
Proof. unfold after, ble_events. rewrite reverse_cons, fold_left_app. done. Qed.

(** Whether a connection is subscribed, read off the history: the last write to
    the configuration descriptor decides, a new connection starts without. *)
Fixpoint sub_of (conn : Z) (hist : list BleEvent) : bool :=
  match hist with
  | [] => false
  | Be_Gatts _ (Ev_PeerConnected c _) :: older => if decide (c = conn) then false else sub_of conn older
  | Be_Gatts _ (Ev_Write c _ _ handle offset _ [lo; hi]) :: older =>
      if decide (c = conn ∧ Some handle = bl_rsp_cccd_handle (after older) ∧ offset = 0)
      then bool_decide (lo + 256 * hi ≠ 0) else sub_of conn older
  | _ :: older => sub_of conn older
  end.

Definition conn_ids (s : Ble) : list Z := cn_conn_id <$> bl_connections s.

(** The stack does not give a new connection the number of one in the table. *)
Fixpoint fresh_ids (hist : list BleEvent) : Prop :=
  match hist with
  | [] => True
  | e :: older => fresh_ids older ∧
      match e with Be_Gatts _ (Ev_PeerConnected c _) => c ∉ conn_ids (after older) | _ => True end
  end.

Lemma insert_middle {A} (a b : list A) x y : <[length a := x]> (a ++ y :: b) = a ++ x :: b.
Proof. rewrite <- (Nat.add_0_r (length a)) at 1. by rewrite insert_app_r. Qed.

Lemma swap_remove_delete {A} i (l : list A) : (i < length l)%nat → swap_remove i l ≡ₚ delete i l.
Proof.
  intros Hi. destruct (lookup_lt_is_Some_2 l i Hi) as [y Hy]. destruct (list_elem_of_split_length l i y Hy) as (a & b & -> & ->).
  rewrite delete_middle. unfold swap_remove. destruct b as [|x b _] using rev_ind.
  - rewrite last_snoc, length_app. simpl. by rewrite app_nil_r, insert_middle, take_app_exact by lia.
  - replace (a ++ y :: b ++ [x]) with ((a ++ y :: b) ++ [x]) by (by rewrite <- app_assoc).
    rewrite last_snoc, <- app_assoc. simpl. rewrite insert_middle.
    replace (a ++ x :: b ++ [x]) with ((a ++ x :: b) ++ [x]) by (by rewrite <- app_assoc).
    rewrite take_app_exact by (rewrite !length_app; simpl; rewrite !length_app; simpl; lia).
    f_equiv. apply Permutation_cons_append.
Qed.

Lemma remove_peer_sub addr cs : ∃ gone, cs ≡ₚ gone ++ remove_peer addr cs.
Proof.
  unfold remove_peer. destruct (list_find _ cs) as [[i c]|] eqn:E; [|by exists []].
  apply list_find_Some in E as (Hl & _ & _). exists [c].
  rewrite swap_remove_delete by (by eapply lookup_lt_Some). by apply delete_Permutation.
Qed.

Lemma subscribe_ids c on cs : cn_conn_id <$> subscribe c on cs = cn_conn_id <$> cs.
Proof. induction cs as [|x cs IH]; [done|]. cbn [subscribe]. case_decide; rewrite !fmap_cons; [done|]. by rewrite IH. Qed.

Lemma subscribe_elem c on cs x : NoDup (cn_conn_id <$> cs) → x ∈ subscribe c on cs →
  ∃ y, y ∈ cs ∧ cn_conn_id x = cn_conn_id y ∧
    cn_subscribed x = if decide (cn_conn_id y = c) then on else cn_subscribed y.
Proof.
  induction cs as [|z cs IH]; simpl; [by intros _ ?%not_elem_of_nil|]. intros [Hz Hn]%NoDup_cons.
  destruct (decide (cn_conn_id z = c)) as [E|E]; intros [->|Hx]%elem_of_cons.
  - exists z. split; [by left|]. split; [done|]. by rewrite decide_True.
  - exists x. split; [by right|]. split; [done|]. rewrite decide_False; [done|]. intros E'. apply Hz.
    rewrite E, <- E'. by apply list_elem_of_fmap_2.
  - exists z. split; [by left|]. split; [done|]. by rewrite decide_False.
  - destruct (IH Hn Hx) as (y & Hy & H1 & H2). exists y. split; [by right|done].
Qed.

Definition table_ok (hist : list BleEvent) (cs : list Connection) : Prop :=
  (length cs ≤ MAX_CONNECTIONS)%nat ∧ NoDup (cn_conn_id <$> cs) ∧
  ∀ c, c ∈ cs → cn_subscribed c = sub_of (cn_conn_id c) hist.

Lemma table_ok_stays e hist cs :
  (∀ c, c ∈ cs → sub_of (cn_conn_id c) (e :: hist) = sub_of (cn_conn_id c) hist) →
  table_ok hist cs → table_ok (e :: hist) cs.
Proof. intros Hs (H1 & H2 & H3). split_and!; [done|done|]. intros c Hc. by rewrite Hs, H3. Qed.

Lemma ble_event_connections e s : bl_connections (ble_event e s) = bl_connections (effect e s).
Proof. pose proof (ble_event_effect e s) as H. unfold kept in H. injection H as _ _ _ _ _ -> _. done. Qed.

Lemma table_ok_connect g c addr hist : c ∉ conn_ids (after hist) → table_ok hist (bl_connections (after hist)) →
  table_ok (Be_Gatts g (Ev_PeerConnected c addr) :: hist)
    (push_bounded MAX_CONNECTIONS (mkConnection addr c false) (bl_connections (after hist))).
Proof.
  intros Hc (H1 & H2 & H3).
  assert (∀ x, x ∈ bl_connections (after hist) → cn_conn_id x ≠ c) as Hne.
  { intros x Hx <-. apply Hc. by apply list_elem_of_fmap_2. }
  unfold push_bounded. case_decide as Hd.
  - split_and!.
    + rewrite length_app. simpl. lia.
    + rewrite fmap_app. apply NoDup_app. split_and!; [done| |apply NoDup_singleton].
      intros x Hx ->%list_elem_of_singleton. done.
    + intros x [Hx | ->%list_elem_of_singleton]%elem_of_app; simpl; [|by rewrite decide_True].
      rewrite decide_False; [by apply H3|]. intros E. by apply (Hne x).
  - apply table_ok_stays; [|done]. intros x Hx. simpl. rewrite decide_False; [done|]. intros E. by apply (Hne x).
Qed.

Lemma table_ok_disconnect g addr hist cs : table_ok hist cs →
  table_ok (Be_Gatts g (Ev_PeerDisconnected addr) :: hist) (remove_peer addr cs).
Proof.
  intros (H1 & H2 & H3). destruct (remove_peer_sub addr cs) as [gone Hp]. split_and!.
  - apply Permutation_length in Hp. rewrite length_app in Hp. lia.
  - rewrite Hp, fmap_app in H2. by apply NoDup_app in H2 as (_ & _ & ?).
  - intros c Hc. simpl. apply H3. rewrite Hp. apply elem_of_app. by right.
Qed.

Lemma table_ok_write g c t ad handle off nr v hist : table_ok hist (bl_connections (after hist)) →
  table_ok (Be_Gatts g (Ev_Write c t ad handle off nr v) :: hist)
    (bl_connections (accept_write c handle off v (after hist))).
Proof.
  intros Ht. unfold accept_write. destruct (decide (Some handle = bl_rsp_cccd_handle (after hist))) as [E|E].
  - destruct v as [|lo [|hi [|]]]; try (by apply table_ok_stays).
    destruct (decide (off = 0)) as [->|Ho].
    + simpl. destruct Ht as (H1 & H2 & H3). split_and!.
      * rewrite <- (length_fmap cn_conn_id), subscribe_ids, length_fmap. done.
      * by rewrite subscribe_ids.
      * intros x Hx. destruct (subscribe_elem _ _ _ _ H2 Hx) as (y & Hy & Hi & Hs). simpl. rewrite Hs, Hi.
        destruct (decide (cn_conn_id y = c)) as [Hyc|Hne]; [by rewrite decide_True|].
        rewrite decide_False by (by intros (Hcy & _)). by apply H3.
    + apply table_ok_stays; [|done]. intros x _. simpl. by rewrite decide_False by tauto.
  - assert (∀ x, sub_of x (Be_Gatts g (Ev_Write c t ad handle off nr v) :: hist) = sub_of x hist) as Hs.
    { intros x. destruct v as [|lo [|hi [|]]]; try done. simpl. by rewrite decide_False by tauto. }
    assert (bl_connections (if decide (Some handle = bl_cmd_handle (after hist))
      then set_queue (push_bounded CMD_QUEUE_SIZE (command_text v) (bl_cmd_queue (after hist))) (after hist)
      else after hist) = bl_connections (after hist)) as -> by (by case_decide).
    apply table_ok_stays; [|done]. auto.
Qed.

Lemma table_invariant hist : fresh_ids hist → table_ok hist (bl_connections (after hist)).
Proof.
  induction hist as [|e hist IH].
  { intros _. split_and!; simpl; [unfold MAX_CONNECTIONS; lia|constructor|]. intros c Hc. by apply not_elem_of_nil in Hc. }
  intros [Hf He]. specialize (IH Hf). rewrite after_cons, ble_event_connections.
  destruct e as [cf|g ev]; [by apply table_ok_stays|].
  destruct ev as [ok app|ok h|ok a h uuid|ok a uuid|c addr|addr|c t ad h off nr v| |]; simpl;
    try (by apply table_ok_stays).
  - destruct (ok && _); by apply table_ok_stays.
  - destruct ok; by apply table_ok_stays.
  - destruct (ok && _); [|by apply table_ok_stays]. repeat case_decide; by apply table_ok_stays.
  - destruct (ok && _); by apply table_ok_stays.
  - by apply table_ok_connect.
  - by apply table_ok_disconnect.
  - by apply table_ok_write.
Qed.

Lemma notify_all_calls gi rh msg ids s :
  bl_calls (notify_all gi rh msg ids s) = bl_calls s ++ ((λ c, Bc_Notify gi c rh msg) <$> ids).
Proof.
  revert s. induction ids as [|c ids IH]; intros s; simpl; [by rewrite app_nil_r|].
  rewrite IH. simpl. by rewrite <- app_assoc.
Qed.

Lemma ble_events_after es older : ble_events es (after older) = after (reverse es ++ older).
Proof.
  unfold after, ble_events. rewrite reverse_app, reverse_involutive, fold_left_app. done.
Qed.

(** Who hears an answer: after any history of Bluetooth events in which the
    stack reuses no number of a live connection, and with any events arriving
    while the answer is being sent, the answer goes out unaltered, once to each
    connection in the table that is subscribed according to the history (its
    last write to the configuration descriptor enabled notifications, and it has
    not reconnected since), and to nobody else; before the service is set up it
    goes to nobody. The table holds at most two connections. *)
Theorem ble_notifies_subscribers (hist es1 es2 : list BleEvent) (msg : list Z) :
  let now := reverse es2 ++ reverse es1 ++ hist in
  fresh_ids now →
  let sent := ((λ c, Bc_Notify (default 0 (bl_gatt_if (after hist))) c
                 (default 0 (bl_rsp_handle (after (reverse es1 ++ hist)))) msg) <$>
               filter (λ c, sub_of c now = true) (conn_ids (after now))) in
  bl_calls (send_response es1 es2 msg (after hist)) =
    match bl_gatt_if (after hist), bl_rsp_handle (after (reverse es1 ++ hist)) with
    | Some _, Some _ => bl_calls (after now) ++ sent
    | _, _ => bl_calls (after (reverse es1 ++ hist))
    end ∧
  NoDup (conn_ids (after now)) ∧ (length (conn_ids (after now)) ≤ MAX_CONNECTIONS)%nat.
Proof.
  cbv zeta. intros Hf. destruct (table_invariant _ Hf) as (H1 & H2 & H3).
  split; [|split; [done|by unfold conn_ids; rewrite length_fmap]].
  unfold send_response. rewrite !ble_events_after. destruct (bl_gatt_if (after hist)) as [gi|]; [|done].
  destruct (bl_rsp_handle _) as [rh|]; [|done]. rewrite notify_all_calls. f_equal. simpl. f_equal.
  unfold conn_ids. clear H1 H2. induction (bl_connections _) as [|c cs IH]; [done|].
  rewrite fmap_cons, !filter_cons. rewrite <- (H3 c) by (by left).
  rewrite <- IH by (intros; apply H3; by right). by case_decide.
Qed.

(** Waiting for the service returns: if the tick counter moves between two
    looks, by at least one tick and by less than half its range, the wait ends
    after at most as many rounds as the timeout has ticks, also when the 32-bit
    counter wraps meanwhile. It answers yes only if the service was seen ready,
    and no only if it was not ready at any look and more than the timeout has
    passed. *)
Theorem wait_for_ready_returns (ticks elapsed : nat → Z) (seen : nat → Ble) (start timeout_ms : Z) (fuel : nat) :
  0 ≤ timeout_ms < 10 * 2 ^ 31 →
  (∀ k, ticks k = u32 (start + elapsed k)) → 0 ≤ elapsed 0%nat < 2 ^ 31 →
  (∀ k, elapsed k + 1 ≤ elapsed (S k) ≤ elapsed k + 2 ^ 31) →
  timeout_ms `div` 10 + 1 < Z.of_nat fuel →
  ∃ b k, wait_for_ready ticks seen start timeout_ms fuel = Some b ∧
    if b : bool then is_ready (seen k) = true
    else timeout_ms `div` 10 < elapsed k ∧ ∀ j, (j ≤ k)%nat → is_ready (seen j) = false.
Proof.
  intros Ht Htick He0 Hstep Hfuel. unfold wait_for_ready.
  assert (0 ≤ timeout_ms `div` 10 < 2 ^ 31) as Hq by (split; [apply Z.div_pos; lia|apply Z.div_lt_upper_bound; lia]).
  unfold u32 at 1. rewrite Z.mod_small by lia. set (T := timeout_ms `div` 10) in *.
  assert (∀ n k, 0 ≤ elapsed k ≤ T + 2 ^ 31 → T + 1 - elapsed k < Z.of_nat n →
    (∀ j, (j < k)%nat → is_ready (seen j) = false) → (0 < n)%nat →
    ∃ b k', wait_loop ticks seen start T n k = Some b ∧
      if b : bool then is_ready (seen k') = true
      else T < elapsed k' ∧ ∀ j, (j ≤ k')%nat → is_ready (seen j) = false) as Hloop.
  { induction n as [|n IH]; intros k Hk Hn Hj Hpos; [lia|]. simpl.
    destruct (is_ready (seen k)) eqn:Er; [by exists true, k|].
    assert (∀ j, (j ≤ k)%nat → is_ready (seen j) = false) as Hj'.
    { intros j Hle. destruct (decide (j = k)) as [->|]; [done|]. apply Hj. lia. }
    assert (u32 (ticks k - start) = elapsed k) as Hu.
    { rewrite Htick. unfold u32. rewrite Zminus_mod_idemp_l. replace (start + elapsed k - start) with (elapsed k) by lia.
      apply Z.mod_small. lia. }
    rewrite Hu. case_decide as Hd; [by exists false, k|]. pose proof (Hstep k).
    apply IH; [lia|lia| |lia]. intros j Hlt. apply Hj'. lia. }
  apply Hloop; [lia|lia|lia|lia].
Qed.
End ble_facts.

(** ** The main loop's share *)

(** [{u:02X?}] of a byte array. *)
Fixpoint debug_bytes (first : bool) (u : list Z) : list Z :=
  match u with
  | [] => []
  | b :: u => (if first then [] else lit ", ") ++ [hex_upper (Z.shiftr b 4); hex_upper (Z.land b 0xf)] ++ debug_bytes false u
  end.

Definition debug_uid (u : list Z) : list Z := lit "[" ++ debug_bytes true u ++ lit "]".

Section loop.
  Context {BS : BleStack}.
  Context {T TE : Type} {D : NtagDevice T TE} {R : CardReader T} `{C : AesCrypto}.
  Context (sdm_url_config : list Z → CryptoMode → SdmUrlOptions → result SdmUrlConfig SdmUrlError).
  Context {V : Type} (verify_sdm : Sdm → list Z → AesKey → AesKey → option V).
  Context (rng : nat → list Z) (debug_error : Error TE → list Z).
  (** [{other:?}] of a workflow result. *)
  Context (debug_result : WorkflowResult → list Z).

  Local Notation Dev := (Device (Esp32 T)).

(** The text [process_ble_command] answers with. *)
Definition ble_response (cmd : list Z) (d : Dev) : list Z * Dev :=
  let status := es_status (dv_service d) in
  let '(r, d) := process_ble_command sdm_url_config verify_sdm rng debug_error cmd d in
  (match parse_command cmd with
   | Err _ => lit "[FAIL] unknown command: " ++ cmd
   | Ok Cmd_Status =>
       lit "[OK] nfc=" ++ (if ss_nfc_ready status then lit "true" else lit "false") ++ lit " uid=" ++
       from_option debug_uid (lit "---") (ss_last_uid status)
   | Ok Cmd_Uid => lit "[OK] " ++ from_option debug_uid (lit "no card") (ss_last_uid status)
   | Ok (Cmd_Inspect | Cmd_Diagnose | Cmd_Picc | Cmd_Check) =>
       match r with
       | Some WR_Success => lit "[OK] done"
       | Some other => lit "[FAIL] " ++ debug_result other
       | None => []
       end
   | Ok (Cmd_Burn | Cmd_Wipe | Cmd_SetKeys _ | Cmd_SetIssuer _ | Cmd_SetUrl _ | Cmd_SetToken _) =>
       lit "[FAIL] write commands blocked via BLE (issue #34)"
   | Ok _ => lit "[FAIL] command not available via BLE"
   end, d).

(** [while let Some(cmd) = bt.poll_command()]: [env k] are the events that come
    while the [k]-th command is processed and answered. *)
Fixpoint ble_loop (fuel : nat) (env : nat → list BleEvent * list BleEvent * list BleEvent) (k : nat)
    (s : Ble) (d : Dev) : option (Ble * Dev) :=
  match fuel with
  | O => None
  | S fuel =>
      match poll_command s with
      | (None, s) => Some (s, d)
      | (Some cmd, s) =>
          let '(es0, es1, es2) := env k in
          let '(msg, d) := ble_response cmd d in
          ble_loop fuel env (S k) (send_response es1 es2 msg (ble_events es0 s)) d
      end
  end.
End loop.

Section loop_facts.
  Context {BS : BleStack}.
  Context {T TE : Type} {D : NtagDevice T TE} {L : NtagLaws D} {R : CardReader T} {RL : ReaderLaws L R} `{C : AesCrypto}.
  Context (sdm_url_config : list Z → CryptoMode → SdmUrlOptions → result SdmUrlConfig SdmUrlError).
  Context {V : Type} (verify_sdm : Sdm → list Z → AesKey → AesKey → option V).
  Context (rng : nat → list Z) (debug_error : Error TE → list Z) (debug_result : WorkflowResult → list Z).

  Local Notation Dev := (Device (Esp32 T)).
  Local Notation loop := (ble_loop sdm_url_config verify_sdm rng debug_error debug_result).

Lemma notify_all_kept gi rh msg ids s : kept (notify_all gi rh msg ids s) = kept s.
Proof. revert s. induction ids as [|c ids IH]; intros s; [done|]. simpl. by rewrite IH. Qed.

(** Whatever peers write, draining the queue changes neither the card nor the
    configuration; and when no events come meanwhile it empties the queue in as
    many rounds as it has commands. *)
Theorem ble_loop_harmless fuel env k (s : Ble) (d : Dev) :
  (∀ s' d', loop fuel env k s d = Some (s', d') → dev_card d' = dev_card d ∧ dv_config d' = dv_config d) ∧
  ((∀ k, env k = ([], [], [])) → (length (bl_cmd_queue s) < fuel)%nat →
    ∃ s' d', loop fuel env k s d = Some (s', d') ∧ bl_cmd_queue s' = []).
Proof.
  revert k s d. induction fuel as [|fuel IH]; intros k s d; [split; [done|lia]|]. simpl. unfold poll_command.
  destruct (bl_cmd_queue s) as [|cmd q] eqn:Eq.
  { split; [by intros s' d' [= <- <-]|]. intros _ _. by exists s, d. }
  destruct (env k) as [[es0 es1] es2] eqn:Ee.
  pose proof (ble_keeps sdm_url_config verify_sdm rng debug_error cmd d) as [Hk1 Hk2]. unfold ble_response.
  destruct (process_ble_command _ _ _ _ cmd d) as [r d1]. simpl in Hk1, Hk2. split.
  - intros s' d' [H1 H2]%(proj1 (IH _ _ _)). by rewrite H1, H2.
  - intros Hq Hl. rewrite Hq in Ee. injection Ee as <- <- <-. apply (proj2 (IH _ _ _)); [done|].
    simpl in Hl. unfold send_response. simpl. destruct (bl_gatt_if s), (bl_rsp_handle s); simpl; try lia.
    match goal with |- context [notify_all ?a ?b ?m ?c ?t] => pose proof (notify_all_kept a b m c t) as Hn end.
    unfold kept in Hn. injection Hn as _ _ _ _ _ _ ->. simpl. lia.
Qed.
End loop_facts.

(** ** Concrete runs *)

#[local] Instance stack_ok : BleStack := λ _, Ok ().

Definition setup : list BleEvent :=
  [Be_Gatts 3 (Ev_ServiceRegistered true 0); Be_Gatts 3 (Ev_ServiceCreated true 40);
   Be_Gatts 3 (Ev_CharacteristicAdded true 42 40 (Uuid128 CMD_CHAR_UUID));
   Be_Gatts 3 (Ev_CharacteristicAdded true 44 40 (Uuid128 RSP_CHAR_UUID));
   Be_Gatts 3 (Ev_DescriptorAdded true 45 (Uuid16 CCCD_UUID))].

Definition write_to (conn handle : Z) (value : list Z) : BleEvent :=
  Be_Gatts 3 (Ev_Write conn 1 [conn] handle 0 true value).

Definition two_peers : list BleEvent :=
  setup ++ [Be_Gap (Some true); Be_Gatts 3 (Ev_PeerConnected 0 [10]); Be_Gatts 3 (Ev_PeerConnected 1 [11]);
            write_to 1 45 [1; 0]].

Lemma ble_queue_fifo_witness :
  ∃ s, ble_run ((Bo_Event <$> two_peers) ++ [Bo_Event (write_to 0 42 (lit " uid ")); Bo_Event (write_to 1 42 [0xFF]);
      Bo_Poll; Bo_Poll; Bo_Poll]) Ble_default = ([lit "uid"; []], s) ∧ (length (bl_cmd_queue s) ≤ 8)%nat.
Proof.
  pose proof (ble_queue_fifo ((Bo_Event <$> two_peers) ++ [Bo_Event (write_to 0 42 (lit " uid "));
    Bo_Event (write_to 1 42 [0xFF]); Bo_Poll; Bo_Poll; Bo_Poll]) Ble_default) as H.
  destruct (ble_run _ _) as [cmds s] eqn:E. exists s. split.
  - vm_compute in E |- *. injection E as <- <-. done.
  - apply H. simpl. lia.
Defined.

Lemma ble_notifies_subscribers_witness :
  bl_calls (send_response [] [] (lit "[OK] done") (after (reverse two_peers))) =
    bl_calls (after (reverse two_peers)) ++ [Bc_Notify 3 1 44 (lit "[OK] done")].
Proof.
  destruct (ble_notifies_subscribers (reverse two_peers) [] [] (lit "[OK] done")) as [H _].
  - vm_compute. split_and!; try done; intros H; repeat (apply elem_of_cons in H as [H|H]; [done|]); by apply not_elem_of_nil in H.
  - etrans; [exact H|]. vm_compute. reflexivity.
Defined.

Lemma wait_for_ready_returns_witness :
  wait_for_ready (λ k, u32 (2 ^ 32 - 5 + 10 * Z.of_nat k)) (λ _, Ble_default) (2 ^ 32 - 5) 5000 502 = Some false.
Proof.
  destruct (wait_for_ready_returns (λ k, u32 (2 ^ 32 - 5 + 10 * Z.of_nat k)) (λ k, 10 * Z.of_nat k) (λ _, Ble_default)
    (2 ^ 32 - 5) 5000 502) as (b & k & H & Hb); [lia|done|lia|intros k; lia|vm_compute; done|].
  rewrite H. destruct b; [|done]. vm_compute in Hb. done.
Defined.
