(* ===== verification/Display.v ===== *)
(** * Panel, power chip and on-screen results

    [apps/bolty-esp32/src/display.rs] with its register map [axp192_map.rs], and
    the console helpers that write on the panel
    ([firmware/console_commands.rs]).

    The power chip behind I2C1 is the class [Pmu] with the laws of a register
    file; the panel is the trace of drawing commands; [None] is a panic. *)

From S2P Require Import Prelude Str Hex Console Commands Workflow.

(** ** axp192_map.rs *)

Definition REG_POWER_STATUS : Z := 0x01.
Definition REG_DCDC1_VOLTAGE : Z := 0x10.
Definition REG_POWER_OUT_CTL : Z := 0x12.
Definition REG_CHARGE_CTL1 : Z := 0x33.
Definition REG_PEK_KEY_MODE : Z := 0x36.
Definition REG_ADC_EN_1 : Z := 0x82.
Definition REG_GPIO0_FUNCTION : Z := 0x90.
Definition REG_GPIO0_LDO_VOLTAGE : Z := 0x91.
Definition REG_LDO2_LDO3_VOLTAGE : Z := 0x28.
Definition REG_BATT_VOLTAGE_H : Z := 0x78.
Definition REG_BATT_VOLTAGE_L : Z := 0x79.

(** ** The power chip *)

(** [I2cDriver] at the address of the AXP192: [write] of a register and its
    value, [write_read] of one register. *)
Class Pmu (B : Type) : Type := {
  i2c_write : Z → Z → M B () ();
  i2c_write_read : Z → M B () Z }.

(** The bus driver kept in [I2C1_DRIVER], and the screen kept in [SCREEN]. *)
Definition Msg : Type := list Z.

Section pmu.
  Context {B : Type} `{!Pmu B}.

Definition axp192_write_reg (reg val : Z) : M B Msg () :=
  lift_err (λ _, lit "axp192 i2c write failed") (i2c_write reg val).

Definition read_reg (reg : Z) (msg : Msg) : M B Msg Z := lift_err (λ _, msg) (i2c_write_read reg).

Definition POWER_BITS : Z := 0x4D.
Definition GROVE_BIT : Z := Z.shiftl 1 2.

(** [!(1 << 2)] on a byte. *)
Definition NOT_GROVE_BIT : Z := 255 - GROVE_BIT.

Definition init_axp192 : M B Msg () :=
  _ ← axp192_write_reg REG_LDO2_LDO3_VOLTAGE 0xCC;
  ctl ← read_reg REG_POWER_OUT_CTL (lit "axp192 i2c read failed");
  _ ← axp192_write_reg REG_POWER_OUT_CTL (Z.lor ctl POWER_BITS);
  _ ← axp192_write_reg REG_ADC_EN_1 0xFF;
  _ ← axp192_write_reg REG_CHARGE_CTL1 0xC0;
  _ ← axp192_write_reg REG_PEK_KEY_MODE 0x0C;
  _ ← axp192_write_reg REG_GPIO0_LDO_VOLTAGE 0xF0;
  _ ← axp192_write_reg REG_GPIO0_FUNCTION 0x02;
  grove ← read_reg REG_DCDC1_VOLTAGE (lit "axp192 grove read failed");
  _ ← axp192_write_reg REG_DCDC1_VOLTAGE (Z.lor grove GROVE_BIT);
  verify ← read_reg REG_POWER_OUT_CTL (lit "axp192 verify failed");
  if decide (Z.land verify POWER_BITS ≠ POWER_BITS) then fail (lit "axp192 power enable verify failed")
  else mret ().

(** The body of [grove_5v] once the driver is there. *)
Definition grove_switch (enable : bool) : M B Msg bool :=
  reg ← read_reg REG_DCDC1_VOLTAGE (lit "axp192 i2c read failed");
  let desired := if enable then Z.lor reg GROVE_BIT else Z.land reg NOT_GROVE_BIT in
  _ ← axp192_write_reg REG_DCDC1_VOLTAGE desired;
  verify ← read_reg REG_DCDC1_VOLTAGE (lit "axp192 verify read failed");
  if decide (Z.land verify GROVE_BIT ≠ Z.land desired GROVE_BIT) then fail (lit "axp192 grove verify mismatch")
  else mret (bool_decide (Z.land verify GROVE_BIT ≠ 0)).

(** A lock on [I2C1_DRIVER]: nothing runs when there is no driver. *)
Definition with_driver {A} (m : M B Msg A) : M (option B) Msg A := λ d,
  match d with
  | None => (Err (lit "axp192 driver unavailable"), None)
  | Some b => let '(r, b) := m b in (r, Some b)
  end.

Definition grove_5v (enable : bool) : M (option B) Msg bool := with_driver (grove_switch enable).

Definition grove_5v_status : M (option B) Msg bool :=
  with_driver (reg ← read_reg REG_DCDC1_VOLTAGE (lit "axp192 i2c read failed");
               mret (bool_decide (Z.land reg GROVE_BIT ≠ 0))).

(** The ADC value of the two registers, in units of 1.1 mV. *)
Definition battery_mv (hi lo : Z) : Z :=
  let raw := Z.lor (Z.shiftl hi 4) (Z.shiftr lo 4) in (raw * 11) `div` 10.

Definition read_battery_mv : option B → option Z * option B := λ d,
  let '(r, d) := with_driver (hi ← read_reg REG_BATT_VOLTAGE_H [];
                              lo ← read_reg REG_BATT_VOLTAGE_L [];
                              mret (battery_mv hi lo)) d in
  (ok r, d).

Definition is_usb_powered : option B → bool * option B := λ d,
  let '(r, d) := with_driver (reg ← read_reg REG_POWER_STATUS [];
                              mret (bool_decide (Z.land reg (Z.shiftl 1 5) ≠ 0))) d in
  (match r with Ok powered => powered | Err _ => false end, d).
End pmu.

(** ** The panel *)

Inductive DisplayMode : Type := Mode_Idle | Mode_Burn | Mode_Wipe | Mode_Error.

Inductive Color : Type := GREEN | CSS_GRAY | YELLOW | RED | CYAN | WHITE | BLACK | CSS_RED | Rgb565 (r g b : Z).

#[export] Instance Color_eq_dec : EqDecision Color.
Proof. solve_decision. Defined.

(** A filled rectangle of the width of the panel, and a line of text in the 6x10
    font with its top at a point. *)
Inductive Draw : Type :=
| Fill (y height : Z) (color : Color)
| Text (text : list Z) (x y : Z) (color : Color) (background : option Color).

#[export] Instance Draw_eq_dec : EqDecision Draw.
Proof. solve_decision. Defined.

Definition LCD_H_RES : Z := 135.
Definition LCD_V_RES : Z := 240.
Definition EVENT_LEN : nat := 22.

Record ScreenState : Type := mkScreenState {
  ss_board : list Z;
  ss_nfc_ready : bool;
  ss_card_uid : list Z;
  ss_card_state : list Z;
  ss_wifi_ip : list Z;
  ss_event : list Z;
  ss_last_cmd : list Z;
  ss_last_result : list Z;
  ss_mode : DisplayMode;
  ss_battery_pct : Z;
  ss_usb_power : bool }.

Definition ScreenState_new (board : list Z) : ScreenState :=
  mkScreenState board false [] (lit "none") [] [] [] [] Mode_Idle 255 false.

Record Screen : Type := mkScreen { sc_state : ScreenState; sc_dirty : bool; sc_drawn : list Draw }.

(** *** redraw *)

Definition lh : Z := 12.
Definition margin : Z := 2.
Definition max_chars : nat := Z.to_nat (LCD_H_RES `div` 6).

Definition clear_line (y : Z) : Draw := Fill y lh BLACK.

Definition mode_bar (mode : DisplayMode) : Color * list Z :=
  match mode with
  | Mode_Idle => (Rgb565 0 40 0, lit "IDLE")
  | Mode_Burn => (Rgb565 31 41 0, lit "BURN")
  | Mode_Wipe => (Rgb565 31 0 20, lit "WIPE")
  | Mode_Error => (CSS_RED, lit "ERR")
  end.

Definition battery_label (st : ScreenState) : list Z :=
  if decide (ss_battery_pct st = 255) then write_parts 12 [] [lit "  USB"]
  else write_parts 12 [] [show_uint (ss_battery_pct st); lit "%"; if ss_usb_power st then lit "+" else []].

(** [&text[..max]] of a text longer than [max]: [None] is the panic of a slice
    inside a character. *)
Definition cut (text : list Z) : option (list Z) :=
  if decide (max_chars < length text)%nat then
    if is_char_boundary text max_chars then Some (take max_chars text) else None
  else Some text.

Definition row (n : Z) (text : list Z) (color : Color) : Draw := Text text margin (n * lh) color None.

(** A row that is only cleared when its text is empty. *)
Definition cut_row (n : Z) (content text : list Z) (color : Color) : option (list Draw) :=
  match content with
  | [] => Some [clear_line (n * lh)]
  | _ => text ← cut text; Some [clear_line (n * lh); row n text color]
  end.

Definition state_color (card_state : list Z) : Color :=
  if decide (card_state = lit "blank" ∨ card_state = lit "none") then CSS_GRAY
  else if decide (card_state = lit "provisioned") then YELLOW
  else RED.

Definition result_color (result : list Z) : Color :=
  if starts_with (lit "OK") result then GREEN else if starts_with (lit "FAIL") result then RED else WHITE.

(** A label with its value, grey dashes when there is none. *)
Definition value_row (n : Z) (label value : list Z) : list Draw :=
  match value with
  | [] => [clear_line (n * lh); row n (write_parts 32 [] [label; lit "---"]) CSS_GRAY]
  | _ => [clear_line (n * lh); row n (write_parts 32 [] [label; value]) YELLOW]
  end.

Definition frame (version : list Z) (st : ScreenState) : option (list Draw) :=
  let '(bar_color, mode_label) := mode_bar (ss_mode st) in
  let batt := battery_label st in
  let batt_x := LCD_H_RES - Z.of_nat (length batt) * 6 - 2 in
  let bar := [Fill 0 lh bar_color; Text mode_label margin 0 WHITE (Some bar_color);
              Text batt batt_x 0 WHITE (Some bar_color)] in
  let l1 := write_parts 32 [] [ss_board st; lit " NFC:"; if ss_nfc_ready st then lit "OK" else lit "--"] in
  let l3 := write_parts 24 [] [lit "State: "; ss_card_state st] in
  event ← cut_row 5 (ss_event st) (ss_event st) GREEN;
  command ← cut_row 6 (ss_last_cmd st) (write_parts 24 [] [lit "> "; ss_last_cmd st]) CYAN;
  result ← cut_row 7 (ss_last_result st) (ss_last_result st) (result_color (ss_last_result st));
  let footer := write_parts 24 [] [lit "bolty v"; version] in
  Some (bar ++
    [clear_line lh; row 1 l1 GREEN] ++ value_row 2 (lit "UID: ") (ss_card_uid st) ++
    [clear_line (3 * lh); row 3 l3 (state_color (ss_card_state st))] ++
    value_row 4 (lit "WiFi: ") (ss_wifi_ip st) ++ event ++ command ++ result ++
    [clear_line (LCD_V_RES - lh - 2); Text footer margin (LCD_V_RES - lh - 2) CSS_GRAY None]).

(** *** Updates *)

(** The percentage shown for a battery voltage. *)
Definition battery_pct (mv : Z) : Z :=
  if decide (mv ≤ 3000) then 0 else if decide (4200 ≤ mv) then 100 else u8 ((mv - 3000) `div` 12).

Section screen.
  Context (version : list Z).

Definition redraw (sc : Screen) : option Screen :=
  fr ← frame version (sc_state sc); Some (mkScreen (sc_state sc) (sc_dirty sc) (sc_drawn sc ++ fr)).

(** [with_screen] on [SCREEN]: nothing happens before the panel is there. *)
Definition with_screen (f : Screen → Screen) (d : option Screen) : option (option Screen) :=
  match d with
  | None => Some None
  | Some sc =>
      let sc := f sc in
      if sc_dirty sc then sc ← redraw (mkScreen (sc_state sc) false (sc_drawn sc)); Some (Some sc)
      else Some (Some sc)
  end.

Definition change (f : ScreenState → ScreenState) (sc : Screen) : Screen := mkScreen (f (sc_state sc)) true (sc_drawn sc).

Definition set_nfc_ready (ready : bool) : option Screen → option (option Screen) :=
  with_screen (change (λ s, mkScreenState (ss_board s) ready (ss_card_uid s) (ss_card_state s) (ss_wifi_ip s)
    (ss_event s) (ss_last_cmd s) (ss_last_result s) (ss_mode s) (ss_battery_pct s) (ss_usb_power s))).

(** [set_card] and the change [clear_card] makes. *)
Definition put_card (uid state : list Z) (s : ScreenState) : ScreenState :=
  mkScreenState (ss_board s) (ss_nfc_ready s) (put 16 [] uid) state (ss_wifi_ip s)
    (ss_event s) (ss_last_cmd s) (ss_last_result s) (ss_mode s) (ss_battery_pct s) (ss_usb_power s).

Definition set_card (uid state : list Z) : option Screen → option (option Screen) := with_screen (change (put_card uid state)).

Definition clear_card : option Screen → option (option Screen) :=
  with_screen (λ sc,
    if decide (ss_card_uid (sc_state sc) ≠ [] ∨ ss_card_state (sc_state sc) ≠ lit "none")
    then change (put_card [] (lit "none")) sc else sc).

Definition put_wifi (ip : list Z) (s : ScreenState) : ScreenState :=
  mkScreenState (ss_board s) (ss_nfc_ready s) (ss_card_uid s) (ss_card_state s) (put 16 [] ip)
    (ss_event s) (ss_last_cmd s) (ss_last_result s) (ss_mode s) (ss_battery_pct s) (ss_usb_power s).

Definition set_wifi (ip : list Z) : option Screen → option (option Screen) := with_screen (change (put_wifi ip)).

Definition clear_wifi : option Screen → option (option Screen) :=
  with_screen (λ sc, if decide (ss_wifi_ip (sc_state sc) ≠ []) then change (put_wifi []) sc else sc).

Definition set_event (event : list Z) : option Screen → option (option Screen) :=
  with_screen (change (λ s, mkScreenState (ss_board s) (ss_nfc_ready s) (ss_card_uid s) (ss_card_state s) (ss_wifi_ip s)
    (put EVENT_LEN [] event) (ss_last_cmd s) (ss_last_result s) (ss_mode s) (ss_battery_pct s) (ss_usb_power s))).

(** Character by character, up to the first that does not fit. *)
Definition push_chars (text : list Z) : list Z := write_parts EVENT_LEN [] (chars text).

Definition set_command_result (cmd result : list Z) : option Screen → option (option Screen) :=
  with_screen (change (λ s, mkScreenState (ss_board s) (ss_nfc_ready s) (ss_card_uid s) (ss_card_state s) (ss_wifi_ip s)
    (ss_event s) (push_chars cmd) (push_chars result) (ss_mode s) (ss_battery_pct s) (ss_usb_power s))).

Definition set_mode (mode : DisplayMode) : option Screen → option (option Screen) :=
  with_screen (change (λ s, mkScreenState (ss_board s) (ss_nfc_ready s) (ss_card_uid s) (ss_card_state s) (ss_wifi_ip s)
    (ss_event s) (ss_last_cmd s) (ss_last_result s) mode (ss_battery_pct s) (ss_usb_power s))).

(** The closure of [update_battery]. *)
Definition set_battery (pct : Z) (usb : bool) : option Screen → option (option Screen) :=
  with_screen (λ sc,
    if decide (ss_battery_pct (sc_state sc) ≠ pct ∨ ss_usb_power (sc_state sc) ≠ usb) then
      change (λ s, mkScreenState (ss_board s) (ss_nfc_ready s) (ss_card_uid s) (ss_card_state s) (ss_wifi_ip s)
        (ss_event s) (ss_last_cmd s) (ss_last_result s) (ss_mode s) pct usb) sc
    else sc).

Context {B : Type} `{!Pmu B}.

(** [I2C1_DRIVER] and [SCREEN]. *)
Record Display : Type := mkDisplay { dp_driver : option B; dp_screen : option Screen }.

Definition update_battery (d : Display) : option Display :=
  let '(mv, drv) := read_battery_mv (dp_driver d) in
  let '(pct, usb, drv) := match mv with
    | Some mv => let '(usb, drv) := is_usb_powered drv in (battery_pct mv, usb, drv)
    | None => (255, false, drv)
    end in
  sc ← set_battery pct usb (dp_screen d);
  Some (mkDisplay drv sc).

(** *** init *)

Inductive InitStep : Type :=
| Step_SpiDriver | Step_SpiDevice | Step_Dc | Step_Rst | Step_Backlight | Step_Mipidsi | Step_Clear | Step_BacklightOn.

Definition step_message (st : InitStep) : Msg :=
  match st with
  | Step_SpiDriver => lit "spi2 driver failed"
  | Step_SpiDevice => lit "spi2 device failed"
  | Step_Dc => lit "dc pin failed"
  | Step_Rst => lit "rst pin failed"
  | Step_Backlight => lit "bl pin failed"
  | Step_Mipidsi => lit "display init failed"
  | Step_Clear => lit "clear failed"
  | Step_BacklightOn => lit "backlight failed"
  end.

(** The [?] chain over the peripherals; [hw] says which calls succeed. *)
Fixpoint init_steps (hw : InitStep → bool) (steps : list InitStep) : result () Msg :=
  match steps with
  | [] => Ok ()
  | st :: steps => if hw st then init_steps hw steps else Err (step_message st)
  end.

Definition init (bus : option B) (hw : InitStep → bool) (board : list Z) (d : Display) : result () Msg * Display :=
  match bus with
  | None => (Err (lit "axp192 i2c failed"), d)
  | Some axp =>
      match init_axp192 axp with
      | (Err e, _) => (Err e, d)
      | (Ok _, axp) =>
          let d := mkDisplay (Some axp) (dp_screen d) in
          match init_steps hw [Step_SpiDriver; Step_SpiDevice; Step_Dc; Step_Rst; Step_Backlight; Step_Mipidsi;
                               Step_Clear; Step_BacklightOn] with
          | Err e => (Err e, d)
          | Ok _ => (Ok (), mkDisplay (dp_driver d)
              (Some (mkScreen (ScreenState_new board) true [Fill 0 LCD_V_RES BLACK])))
          end
      end
  end.

(** ** Results on the panel: console_commands.rs *)

Fixpoint until_ws (fuel : nat) (s : list Z) : list Z :=
  match fuel, s with
  | S fuel, c :: r => match strip_any ws_encodings s with Some _ => [] | None => c :: until_ws fuel r end
  | _, _ => []
  end.

(** The first item of [split_whitespace]. *)
Definition command_name_from_line (line : list Z) : list Z :=
  match until_ws (length line) (trim_start line) with
  | [] => lit "command"
  | name => name
  end.

Definition command_error_message (error : CommandError) : list Z :=
  match error with
  | UnknownCommand => lit "unknown command"
  | InvalidArgs => lit "invalid arguments"
  | MissingArgs => lit "missing arguments"
  end.

Definition command_name (command : Command) : list Z :=
  match command with
  | Cmd_Help => lit "help"
  | Cmd_Status => lit "status"
  | Cmd_Uid => lit "uid"
  | Cmd_I2cScan => lit "i2cscan"
  | Cmd_SetKeys _ => lit "keys"
  | Cmd_SetIssuer _ | Cmd_Issuer => lit "issuer"
  | Cmd_SetUrl _ => lit "url"
  | Cmd_Burn => lit "burn"
  | Cmd_Wipe => lit "wipe"
  | Cmd_Ndef => lit "ndef"
  | Cmd_Auth => lit "auth"
  | Cmd_Ver => lit "ver"
  | Cmd_KeyVer => lit "keyver"
  | Cmd_Inspect => lit "inspect"
  | Cmd_Picc => lit "picc"
  | Cmd_Diagnose => lit "diagnose"
  | Cmd_HwInfo => lit "hwinfo"
  | Cmd_Check => lit "check"
  | Cmd_DummyBurn => lit "dummyburn"
  | Cmd_Reset => lit "reset"
  | Cmd_DeriveKeys => lit "derivekeys"
  | Cmd_SetWifi _ _ => lit "wifi"
  | Cmd_WifiOff => lit "wifi off"
  | Cmd_Ota _ _ => lit "ota"
  | Cmd_ButtonMode | Cmd_ButtonModeSet _ => lit "button-mode"
  | Cmd_SetToken _ => lit "token"
  end.

Definition set_display_result (cmd_name status message : list Z) : option Screen → option (option Screen) :=
  set_command_result cmd_name (write_parts 64 [] [status; lit ": "; message]).

Definition set_display_ok (cmd_name message : list Z) : option Screen → option (option Screen) :=
  set_display_result cmd_name (lit "OK") message.
Definition set_display_fail (cmd_name message : list Z) : option Screen → option (option Screen) :=
  set_display_result cmd_name (lit "FAIL") message.

Definition set_display_workflow_result (cmd_name : list Z) (result : WorkflowResult) :
    option Screen → option (option Screen) :=
  match result with
  | WR_Success => set_display_ok cmd_name (lit "success")
  | WR_CardNotPresent => set_display_fail cmd_name (lit "card not present")
  | WR_AuthFailed => set_display_fail cmd_name (lit "authentication failed")
  | WR_AuthDelay => set_display_fail cmd_name (lit "auth delay")
  | WR_WipeRefused => set_display_fail cmd_name (lit "wipe refused")
  | WR_Error message => set_display_fail cmd_name message
  end.

(** The refusal at the head of [handle_line]. *)
Definition show_refusal (line : list Z) : option Screen → option (option Screen) :=
  match parse_command line with
  | Ok _ => Some
  | Err err => set_display_fail (command_name_from_line line) (command_error_message err)
  end.
End screen.
Arguments Display : clear implicits.
Arguments mkDisplay {B} _ _.

(** ** What the chip promises *)

(** Registers the chip changes by itself: status and converter readings. *)
Definition volatile (r : Z) : bool := bool_decide (r ∈ [REG_POWER_STATUS; REG_BATT_VOLTAGE_H; REG_BATT_VOLTAGE_L]).

(** Reading returns what the register holds. A write touches one register, which
    then holds the value or, if the chip did not take it, what it held before,
    whatever the bus reported. *)
Class PmuLaws {B} (P : Pmu B) : Type := {
  regs : B → Z → Z;
  law_pmu_write r v b : wp (i2c_write r v) (λ _ b',
    (∀ r', r' ≠ r → volatile r' = false → regs b' r' = regs b r') ∧
    (volatile r = false → regs b' r = v ∨ regs b' r = regs b r)) b;
  law_pmu_read r b : wp (i2c_write_read r) (λ x b',
    (∀ r', volatile r' = false → regs b' r' = regs b r') ∧
    ∀ v, x = Ok v → is_u8 v ∧ (volatile r = false → v = regs b r)) b }.

Section pmu_facts.
  Context {B : Type} {P : Pmu B} {L : PmuLaws P}.

(** Only the registers of [rs] may have changed. *)
Definition within (rs : list Z) (b b' : B) : Prop := ∀ r, r ∉ rs → volatile r = false → regs b' r = regs b r.

Lemma within_refl rs b : within rs b b.
Proof. by intros r _ _. Qed.

Lemma within_trans rs b1 b2 b3 : within rs b1 b2 → within rs b2 b3 → within rs b1 b3.
Proof. intros H1 H2 r Hr Hv. rewrite H2, H1 by done. done. Qed.

Lemma wp_write_reg rs r v Q b :
  r ∈ rs → volatile r = false →
  (∀ b' e, within rs b b' → Q (Err e) b') →
  (∀ b', within [r] b b' → regs b' r = v ∨ regs b' r = regs b r → Q (Ok ()) b') →
  wp (axp192_write_reg r v) Q b.
Proof.
  intros Hr Hv He Hok. apply wp_lift_err. eapply wp_mono; [apply law_pmu_write|].
  intros x b' [H1 H2]. destruct x as [[]|e]; simpl.
  - apply Hok; [|by apply H2]. intros r' Hn Hv'. apply H1; [set_solver|done].
  - apply He. intros r' Hn Hv'. apply H1; [|done]. set_solver.
Qed.

Definition same (b b' : B) : Prop := ∀ r, volatile r = false → regs b' r = regs b r.

Lemma wp_read_reg r msg Q b :
  volatile r = false →
  (∀ b', same b b' → Q (Err msg) b') →
  (∀ b', same b b' → is_u8 (regs b r) → Q (Ok (regs b r)) b') →
  wp (read_reg r msg) Q b.
Proof.
  intros Hv He Hok. apply wp_lift_err. eapply wp_mono; [apply law_pmu_read|].
  intros x b' [H1 H2]. destruct x as [v|e]; simpl; [|by apply He].
  destruct (H2 v eq_refl) as [Hu Hx]. rewrite (Hx Hv) in *. by apply Hok.
Qed.

Lemma grove_bit_on z : Z.testbit z 2 = bool_decide (Z.land z GROVE_BIT ≠ 0).
Proof.
  unfold GROVE_BIT. change (Z.shiftl 1 2) with (2 ^ 2). symmetry. destruct (Z.testbit z 2) eqn:E.
  - apply bool_decide_eq_true. intros H0. apply (f_equal (λ x, Z.testbit x 2)) in H0.
    rewrite Z.land_spec, E, Z.bits_0 in H0. done.
  - apply bool_decide_eq_false. intros H0. apply H0. apply Z.bits_inj'. intros n Hn.
    rewrite Z.land_spec, Z.bits_0, Z.pow2_bits_eqb by lia. destruct (Z.eqb_spec 2 n) as [<-|]; [by rewrite E|].
    by rewrite andb_false_r.
Qed.

(** The value [grove_5v] writes. *)
Definition grove_value (enable : bool) (reg : Z) : Z :=
  if enable then Z.lor reg GROVE_BIT else Z.land reg NOT_GROVE_BIT.

Lemma grove_value_bits enable reg n : is_u8 reg → 0 ≤ n →
  Z.testbit (grove_value enable reg) n = if decide (n = 2) then enable else Z.testbit reg n.
Proof.
  intros Hu Hn. unfold grove_value, GROVE_BIT, NOT_GROVE_BIT, is_u8 in *. change (Z.shiftl 1 2) with (2 ^ 2).
  destruct enable.
  - rewrite Z.lor_spec, Z.pow2_bits_eqb by lia. case_decide as E; destruct (Z.eqb_spec 2 n); try lia. apply orb_false_r.
  - replace (255 - GROVE_BIT) with (Z.ldiff (Z.ones 8) (2 ^ 2)) by (vm_compute; done).
    rewrite Z.land_spec, Z.ldiff_spec, Z.pow2_bits_eqb by lia.
    case_decide as E; destruct (Z.eqb_spec 2 n); try lia; simpl.
    destruct (decide (n < 8)).
    + rewrite Z.ones_spec_low by lia. by rewrite !andb_true_r.
    + rewrite Z.ones_spec_high by lia. rewrite andb_false_r. symmetry.
      apply Z.bits_above_log2; [lia|]. destruct (decide (reg = 0)) as [->|]; [simpl; lia|].
      apply Z.log2_lt_pow2; [lia|]. apply Z.lt_le_trans with (2 ^ 8); [lia|]. apply Z.pow_le_mono_r; lia.
Qed.

Definition other_bits_kept (b b' : B) : Prop :=
  ∀ n, 0 ≤ n → n ≠ 2 → Z.testbit (regs b' REG_DCDC1_VOLTAGE) n = Z.testbit (regs b REG_DCDC1_VOLTAGE) n.

(** Switching the Grove supply changes nothing but its bit: over any bus, on
    success and on every failure, all other registers and all other bits of the
    shared register keep their values, and success means that the bit was read
    back as requested. Without a driver nothing happens. *)
Theorem grove_5v_switches (enable : bool) (d : option B) :
  wp (grove_5v enable) (λ r d',
    match d, d' with
    | None, None => r = Err (lit "axp192 driver unavailable")
    | Some b, Some b' => within [REG_DCDC1_VOLTAGE] b b' ∧ other_bits_kept b b' ∧
        ∀ v, r = Ok v → v = enable ∧ Z.testbit (regs b' REG_DCDC1_VOLTAGE) 2 = enable
    | _, _ => False
    end) d.
Proof.
  unfold grove_5v, wp, with_driver. destruct d as [b|]; [|done].
  set (Q := λ (r : result bool Msg) b', within [REG_DCDC1_VOLTAGE] b b' ∧ other_bits_kept b b' ∧
    ∀ v, r = Ok v → v = enable ∧ Z.testbit (regs b' REG_DCDC1_VOLTAGE) 2 = enable).
  assert (wp (grove_switch enable) Q b) as HQ; [|unfold wp in HQ; by destruct (grove_switch enable b)].
  set (P0 := λ b', within [REG_DCDC1_VOLTAGE] b b' ∧ other_bits_kept b b').
  assert (∀ b1 b2, same b1 b2 → P0 b1 → P0 b2) as Hsame.
  { intros b1 b2 Hs [Hw Hb]. split; [intros r Hr Hvol; rewrite Hs by done; by apply Hw|].
    intros n Hn Hn2. rewrite Hs by done. by apply Hb. }
  assert (∀ e b', P0 b' → Q (Err e) b') as Herr by (intros e b' []; done).
  unfold grove_switch. apply wp_bind, wp_read_reg; [done|..].
  { intros b1 H1. by apply Herr, (Hsame b). }
  intros b1 H1 Hu. cbv zeta. fold (grove_value enable (regs b REG_DCDC1_VOLTAGE)). set (v := grove_value _ _).
  apply wp_bind. apply wp_lift_err. eapply wp_mono; [apply law_pmu_write|]. intros x b2 [H2 Hv2].
  assert (P0 b2) as Hp2.
  { split; [intros r Hr Hvol; rewrite H2, H1 by (done || set_solver); done|]. intros n Hn Hn2.
    destruct (Hv2 eq_refl) as [-> | ->]; [|by rewrite H1]. unfold v. rewrite grove_value_bits by done.
    by rewrite decide_False. }
  destruct x as [[]|e]; simpl; [|by apply Herr].
  apply wp_bind, wp_read_reg; [done|intros b3 H3; by apply Herr, (Hsame b2)|].
  intros b3 H3 Hu3. destruct (Hsame _ _ H3 Hp2) as [Hw3 Hb3].
  assert (Z.testbit v 2 = enable) as Hv by (unfold v; by rewrite grove_value_bits).
  case_decide as E; [by apply wp_fail|]. apply wp_ret. split_and!; [done..|].
  intros w [= <-]. rewrite <- grove_bit_on, grove_bit_on, E, <- grove_bit_on, Hv. split; [done|].
  rewrite H3, grove_bit_on, E, <- grove_bit_on, Hv by done. done.
Qed.

(** *** Power-up *)

Definition INIT_REGS : list Z :=
  [REG_LDO2_LDO3_VOLTAGE; REG_POWER_OUT_CTL; REG_ADC_EN_1; REG_CHARGE_CTL1; REG_PEK_KEY_MODE;
   REG_GPIO0_LDO_VOLTAGE; REG_GPIO0_FUNCTION; REG_DCDC1_VOLTAGE].

(** The two registers that switch supplies. *)
Definition SWITCHES : list Z := [REG_POWER_OUT_CTL; REG_DCDC1_VOLTAGE].

(** Nothing outside the init table changed, and no supply was switched off. *)
Definition powered_up (b b' : B) : Prop :=
  within INIT_REGS b b' ∧ ∀ r, r ∈ SWITCHES → Z.land (regs b r) (regs b' r) = regs b r.

Lemma powered_up_refl b : powered_up b b.
Proof. split; [apply within_refl|]. intros r _. apply Z.land_diag. Qed.

Lemma powered_up_same b b1 b2 : same b1 b2 → powered_up b b1 → powered_up b b2.
Proof.
  intros Hs [Hw Hk]. split; [intros r Hr Hv; rewrite Hs by done; by apply Hw|].
  intros r Hr. rewrite Hs; [by apply Hk|]. set_solver.
Qed.

Lemma land_lor_kept a c bits : Z.land a c = a → Z.land a (Z.lor c bits) = a.
Proof.
  intros Ha. rewrite Z.land_lor_distr_r, Ha. apply Z.bits_inj'. intros n _.
  rewrite Z.lor_spec, Z.land_spec. by destruct (Z.testbit a n), (Z.testbit bits n).
Qed.

(** A write of the init sequence: to a register that switches nothing, or adding
    bits to what a switching register holds. *)
Lemma powered_up_write b b1 r v (Q : result () Msg → B → Prop) :
  powered_up b b1 → r ∈ INIT_REGS → (r ∈ SWITCHES → ∃ bits, v = Z.lor (regs b1 r) bits) →
  (∀ x b2, powered_up b b2 → Q x b2) → wp (axp192_write_reg r v) Q b1.
Proof.
  intros [Hw Hk] Hr Hv HQ. apply wp_lift_err. eapply wp_mono; [apply law_pmu_write|]. intros x b2 [H1 H2].
  assert (volatile r = false) as Hvol by set_solver. apply HQ. split.
  - intros r' Hr' Hv'. rewrite H1 by (done || set_solver). by apply Hw.
  - intros r' Hr'. destruct (decide (r' = r)) as [->|Hne]; [|rewrite H1 by (done || set_solver); by apply Hk].
    destruct (H2 Hvol) as [-> | ->]; [|by apply Hk]. destruct (Hv Hr') as [bits ->].
    by apply land_lor_kept, Hk.
Qed.

Lemma powered_up_read b b1 r msg (Q : result Z Msg → B → Prop) :
  powered_up b b1 → volatile r = false → (∀ e b2, powered_up b b2 → Q (Err e) b2) →
  (∀ b2, powered_up b b2 → regs b2 r = regs b1 r → Q (Ok (regs b2 r)) b2) → wp (read_reg r msg) Q b1.
Proof.
  intros Hp Hv He Hok. apply wp_read_reg; [done|intros b2 Hs; by apply He, (powered_up_same _ b1)|].
  intros b2 Hs _. rewrite <- (Hs r Hv). apply Hok; [by apply (powered_up_same _ b1)|]. by apply Hs.
Qed.

Ltac write_plain := apply wp_bind; eapply powered_up_write; [eassumption|set_solver|set_solver|];
  intros [[]|?e] ?b2 ?Hp; [|done].
Ltac write_bits := apply wp_bind; eapply powered_up_write; [eassumption|set_solver|eauto|];
  intros [[]|?e] ?b2 ?Hp; [|done].
Ltac read_it := apply wp_bind; eapply powered_up_read; [eassumption|done|done|]; intros ?b2 ?Hp _.

Lemma init_axp192_spec b : wp init_axp192 (λ r b', powered_up b b' ∧
  (r = Ok () → Z.land (regs b' REG_POWER_OUT_CTL) POWER_BITS = POWER_BITS)) b.
Proof.
  pose proof (powered_up_refl b) as Hp0. unfold init_axp192.
  write_plain. read_it. write_bits. write_plain. write_plain. write_plain. write_plain. write_plain.
  read_it. write_bits. read_it. case_decide as E; [by apply wp_fail|]. by apply wp_ret.
Qed.

Lemma init_steps_ok hw steps : init_steps hw steps = Ok () ↔ Forall (λ st, hw st = true) steps.
Proof.
  induction steps as [|st steps IH]; simpl; [by split; [constructor|]|].
  rewrite Forall_cons. destruct (hw st); [rewrite IH; naive_solver|]. split; [done|by intros [? _]].
Qed.

(** Bringing the panel up: whatever the bus and the peripherals do, the
    power chip is changed only in the registers of the init table, no supply
    that was on is switched off, and a failure leaves the screen as it was.
    Success means that the required supplies were read back as enabled, every
    peripheral answered, the power-chip driver is kept for later use, and the
    screen is the empty one, waiting for its first frame. *)
Theorem display_init_powers (b : B) (hw : InitStep → bool) (board : list Z) (d : Display B) :
  let '(r, d') := init (Some b) hw board d in
  powered_up b (init_axp192 b).2 ∧
  match r with
  | Err _ => dp_screen d' = dp_screen d ∧ (dp_driver d' = dp_driver d ∨ dp_driver d' = Some (init_axp192 b).2)
  | Ok _ => (∀ st, hw st = true) ∧ dp_driver d' = Some (init_axp192 b).2 ∧
      Z.land (regs (init_axp192 b).2 REG_POWER_OUT_CTL) POWER_BITS = POWER_BITS ∧
      dp_screen d' = Some (mkScreen (ScreenState_new board) true [Fill 0 LCD_V_RES BLACK])
  end.
Proof.
  unfold init. pose proof (init_axp192_spec b) as Hs. unfold wp in Hs.
  destruct (init_axp192 b) as [[[]|e] b'] eqn:Ei; cbn -[init_steps] in Hs |- *; destruct Hs as [Hp Hok]; [|by auto].
  destruct (init_steps hw _) as [[]|e] eqn:Es; cbn -[init_steps]; [|by auto].
  apply init_steps_ok in Es. split_and!; [done| |done|by apply Hok|done].
  rewrite !Forall_cons in Es. intros []; tauto.
Qed.
End pmu_facts.

(** ** The battery *)

Lemma battery_mv_bounds hi lo : is_u8 hi → is_u8 lo →
  battery_mv hi lo = ((16 * hi + lo `div` 16) * 11) `div` 10 ∧ 0 ≤ battery_mv hi lo ≤ 4504.
Proof.
  unfold is_u8, battery_mv. intros Hh Hl. cbv zeta.
  assert (0 ≤ lo `div` 16 < 16) as Hlo by (split; [apply Z.div_pos; lia|apply Z.div_lt_upper_bound; lia]).
  assert (Z.lor (Z.shiftl hi 4) (Z.shiftr lo 4) = 16 * hi + lo `div` 16) as ->.
  { rewrite Z.shiftr_div_pow2 by lia. change (2 ^ 4) with 16.
    pose proof (Z.add_lor_land (lo `div` 16) (Z.shiftl hi 4)) as Ha.
    rewrite land_shiftl_disjoint in Ha by lia. rewrite Z.lor_comm.
    rewrite Z.shiftl_mul_pow2 in * by lia. lia. }
  split; [done|]. split; [apply Z.div_pos; lia|]. apply Z.lt_succ_r, Z.div_lt_upper_bound; lia.
Qed.

(** The battery gauge: for every pair of converter bytes the percentage is
    between 0 and 100, so it never collides with 255, the mark for an unreadable
    battery; the narrowing to a byte loses nothing; and a higher converter value
    never shows a lower percentage. *)
Theorem battery_pct_sound (hi lo hi' lo' : Z) :
  is_u8 hi → is_u8 lo → is_u8 hi' → is_u8 lo' →
  let pct := battery_pct (battery_mv hi lo) in
  0 ≤ pct ≤ 100 ∧
  (3000 < battery_mv hi lo < 4200 → pct = (battery_mv hi lo - 3000) `div` 12) ∧
  (16 * hi + lo `div` 16 ≤ 16 * hi' + lo' `div` 16 → pct ≤ battery_pct (battery_mv hi' lo')).
Proof.
  intros H1 H2 H3 H4. cbv zeta.
  assert (∀ mv, 3000 < mv < 4200 → 0 ≤ (mv - 3000) `div` 12 ≤ 99) as Hd.
  { intros mv Hmv. split; [apply Z.div_pos; lia|]. assert ((mv - 3000) `div` 12 < 100); [|lia].
    apply Z.div_lt_upper_bound; lia. }
  assert (∀ mv, 3000 < mv < 4200 → u8 ((mv - 3000) `div` 12) = (mv - 3000) `div` 12) as Hu.
  { intros mv Hmv. apply u8_id. pose proof (Hd mv Hmv). unfold is_u8. lia. }
  destruct (battery_mv_bounds hi lo H1 H2) as [E B1]. destruct (battery_mv_bounds hi' lo' H3 H4) as [E' B2].
  unfold battery_pct. split; [|split].
  - repeat case_decide; [lia|lia|]. rewrite Hu by lia. pose proof (Hd (battery_mv hi lo)). lia.
  - intros Hmv. rewrite !decide_False by lia. apply Hu. lia.
  - intros Hle. assert (battery_mv hi lo ≤ battery_mv hi' lo') as Hmv.
    { rewrite E, E'. apply Z.div_le_mono; lia. }
    repeat case_decide; rewrite ?Hu by lia; try lia.
    + pose proof (Hd (battery_mv hi' lo')). lia.
    + pose proof (Hd (battery_mv hi lo)). lia.
    + apply Z.div_le_mono; lia.
Qed.

(** ** The screen *)

Inductive ScreenCall : Type :=
| Sc_NfcReady (ready : bool)
| Sc_Card (uid state : list Z)
| Sc_ClearCard
| Sc_Wifi (ip : list Z)
| Sc_ClearWifi
| Sc_Event (event : list Z)
| Sc_CommandResult (cmd result : list Z)
| Sc_Mode (mode : DisplayMode)
| Sc_Battery (mv : option Z) (usb : bool).

(** What [update_battery] shows for a reading. *)
Definition shown_pct (mv : option Z) : Z := match mv with Some mv => battery_pct mv | None => 255 end.

Definition fits (st : ScreenState) : Prop :=
  (length (ss_card_uid st) ≤ 16)%nat ∧ (length (ss_wifi_ip st) ≤ 16)%nat ∧ (length (ss_event st) ≤ EVENT_LEN)%nat ∧
  (length (ss_last_cmd st) ≤ EVENT_LEN)%nat ∧ (length (ss_last_result st) ≤ EVENT_LEN)%nat.

(** The command row, two characters longer than the name, can be cut. *)
Definition cuttable (cmd : list Z) : Prop := (length cmd ≤ 20)%nat ∨ is_char_boundary cmd 20 = true.

Section screen_facts.
  Context (version : list Z).

Definition screen_call (c : ScreenCall) : option Screen → option (option Screen) :=
  match c with
  | Sc_NfcReady ready => set_nfc_ready version ready
  | Sc_Card uid state => set_card version uid state
  | Sc_ClearCard => clear_card version
  | Sc_Wifi ip => set_wifi version ip
  | Sc_ClearWifi => clear_wifi version
  | Sc_Event event => set_event version event
  | Sc_CommandResult cmd result => set_command_result version cmd result
  | Sc_Mode mode => set_mode version mode
  | Sc_Battery mv usb => set_battery version (shown_pct mv) usb
  end.

Fixpoint run_calls (cs : list ScreenCall) (d : option Screen) : option (option Screen) :=
  match cs with
  | [] => Some d
  | c :: cs => d ← screen_call c d; run_calls cs d
  end.

(** The last frame on the panel is the frame of the state. *)
Definition shows (sc : Screen) : Prop :=
  sc_dirty sc = false ∧ ∃ before fr, frame version (sc_state sc) = Some fr ∧ sc_drawn sc = before ++ fr.

Lemma put_length cap s : (length (put cap [] s) ≤ cap)%nat.
Proof. unfold put, push, push_str. case_decide; simpl in *; lia. Qed.

Lemma push_chars_length text : (length (push_chars text) ≤ EVENT_LEN)%nat.
Proof. apply write_parts_length. simpl. lia. Qed.

Lemma cut_short text : (length text ≤ 22)%nat → cut text = Some text.
Proof. intros Hl. unfold cut. change max_chars with 22%nat. rewrite decide_False by lia. done. Qed.

Lemma cut_row_short n content text color : (length text ≤ 22)%nat → is_Some (cut_row n content text color).
Proof. intros Hl. unfold cut_row. destruct content; [by eexists|]. rewrite cut_short by done. by eexists. Qed.

Lemma boundary_shift p s n : is_char_boundary (p ++ s) (length p + n) = is_char_boundary s n.
Proof.
  unfold is_char_boundary. rewrite lookup_app_r by lia. replace (length p + n - length p)%nat with n by lia.
  destruct (s !! n); [done|]. apply bool_decide_ext. rewrite length_app. lia.
Qed.

(** A frame can be drawn exactly when the command row can be cut. *)
Lemma frame_drawable st : fits st → is_Some (frame version st) ↔ cuttable (ss_last_cmd st).
Proof.
  intros (_ & _ & He & Hc & Hr). unfold frame, EVENT_LEN in *. destruct (mode_bar _) as [bar label]. cbv zeta.
  destruct (cut_row_short 5 (ss_event st) (ss_event st) GREEN He) as [ev ->]. cbn [mbind option_bind].
  destruct (cut_row_short 7 (ss_last_result st) (ss_last_result st) (result_color (ss_last_result st)) Hr)
    as [rs Hrs].
  set (text := write_parts 24 [] [lit "> "; ss_last_cmd st]).
  assert (text = lit "> " ++ ss_last_cmd st) as Ht.
  { unfold text. rewrite write_parts_fits; simpl; rewrite app_nil_r; [done|]. lia. }
  assert (is_Some (cut_row 6 (ss_last_cmd st) text CYAN) ↔ cuttable (ss_last_cmd st)) as Hcut.
  { unfold cuttable. destruct (ss_last_cmd st) as [|c cmd]; [split; [by left; simpl; lia|by eexists]|].
    unfold cut_row, cut. change max_chars with 22%nat. rewrite Ht. case_decide as Hd.
    - change 22%nat with (length (lit "> ") + 20)%nat at 1. rewrite boundary_shift.
      destruct (is_char_boundary (c :: cmd) 20); [split; [by right|by eexists]|].
      split; [by intros [? ?]|]. intros [H|H]; [|done]. rewrite length_app in Hd. simpl in *. lia.
    - rewrite length_app in Hd. simpl in Hd. split; [left; simpl; lia|by eexists]. }
  rewrite <- Hcut. destruct (cut_row 6 _ text CYAN) as [cr|]; [|by split; intros [? ?]].
  cbn [mbind option_bind]. rewrite Hrs.
  split; intros _; by eexists.
Qed.

(** Every call sets the state and redraws it, or leaves a clean screen alone. *)
Lemma with_screen_cases f sc :
  with_screen version f (Some sc) =
    if sc_dirty (f sc) then
      (λ fr, Some (mkScreen (sc_state (f sc)) false (sc_drawn (f sc) ++ fr))) <$> frame version (sc_state (f sc))
    else Some (Some (f sc)).
Proof. unfold with_screen, redraw. destruct (sc_dirty (f sc)); [|done]. simpl. by destruct (frame _ _). Qed.

(** A screen whose next frame can be drawn. *)
Definition ready (sc : Screen) : Prop :=
  fits (sc_state sc) ∧ cuttable (ss_last_cmd (sc_state sc)) ∧ (sc_dirty sc = true ∨ shows sc).

(** The change a call makes, as a function of the screen. *)
Lemma with_screen_shows f sc r :
  ready sc → (f sc = sc ∨ ∃ st, f sc = mkScreen st true (sc_drawn sc) ∧ fits st) →
  with_screen version f (Some sc) = r →
  match r with
  | Some (Some sc') => fits (sc_state sc') ∧ shows sc' ∧ sc_state sc' = sc_state (f sc) ∧
      (sc_dirty (f sc) = false → sc_drawn sc' = sc_drawn sc)
  | Some None => False
  | None => ¬ cuttable (ss_last_cmd (sc_state (f sc)))
  end.
Proof.
  intros (Hf & Hc & Hd) Hfx <-. rewrite with_screen_cases.
  assert (fits (sc_state (f sc)) ∧ sc_drawn (f sc) = sc_drawn sc) as [Hfit Hdr].
  { destruct Hfx as [-> |(st & -> & ?)]; done. }
  pose proof (frame_drawable _ Hfit) as Hfr. destruct (sc_dirty (f sc)) eqn:Ed.
  - destruct (frame version (sc_state (f sc))) as [fr|] eqn:Ef; simpl.
    + split_and!; [done| |done|done]. split; [done|]. by exists (sc_drawn (f sc)), fr.
    + intros Hcut. apply Hfr in Hcut as [? ?]. done.
  - destruct Hfx as [Hs|(st & Hs & _)]; rewrite Hs in *; [|done]. destruct Hd as [Hd|Hd]; [congruence|].
    split_and!; [done|done|done|done].
Qed.

Definition new_cmd (c : ScreenCall) (st : ScreenState) : list Z :=
  match c with Sc_CommandResult cmd _ => push_chars cmd | _ => ss_last_cmd st end.

Lemma screen_call_change c sc : fits (sc_state sc) → ∃ f, screen_call c = with_screen version f ∧
  (f sc = sc ∨ ∃ st, f sc = mkScreen st true (sc_drawn sc) ∧ fits st) ∧
  ss_last_cmd (sc_state (f sc)) = new_cmd c (sc_state sc).
Proof.
  intros (H1 & H2 & H3 & H4 & H5).
  destruct c; eexists; (split; [reflexivity|]); unfold change; simpl; repeat case_decide; simpl;
    (split; [|done]); try (by left); right; eexists; (split; [reflexivity|]);
    unfold fits, put_card, put_wifi; simpl; split_and!; simpl; try done; try lia;
    try apply put_length; apply push_chars_length.
Qed.

Lemma screen_call_shows c sc : ready sc →
  match screen_call c (Some sc) with
  | Some (Some sc') => fits (sc_state sc') ∧ shows sc' ∧ cuttable (new_cmd c (sc_state sc)) ∧
      ss_last_cmd (sc_state sc') = new_cmd c (sc_state sc)
  | Some None => False
  | None => ¬ cuttable (new_cmd c (sc_state sc))
  end.
Proof.
  intros Hr. destruct (screen_call_change c sc) as (f & -> & Hf & Hc); [by destruct Hr|].
  pose proof (with_screen_shows f sc _ Hr Hf eq_refl) as Hs. rewrite Hc in Hs.
  destruct (with_screen version f (Some sc)) as [[sc'|]|]; [|done|done].
  destruct Hs as (H1 & H2 & H3 & _). rewrite H3, Hc. split; [by rewrite <- H3|]. split; [done|]. split; [|done].
  rewrite <- Hc, <- H3. destruct H2 as (_ & before & fr & Hfr & _). by apply frame_drawable.
Qed.

Lemma shows_ready sc : fits (sc_state sc) → shows sc → ready sc.
Proof.
  intros Hf Hs. split_and!; [done| |by right]. destruct Hs as (_ & before & fr & Hfr & _).
  by apply frame_drawable.
Qed.

(** The panel shows the state: from a fresh or a shown screen, whatever calls
    follow, every buffer stays within its capacity, and after the last call the
    last frame on the panel is exactly the frame of the current state. Drawing
    panics in one case only, and always then: the name of a command is longer
    than twenty bytes and the twentieth is inside a character. *)
Theorem screen_shows_state (calls : list ScreenCall) (sc : Screen) :
  ready sc →
  match run_calls calls (Some sc) with
  | Some (Some sc') => fits (sc_state sc') ∧ (calls ≠ [] → shows sc')
  | Some None => False
  | None => True
  end ∧
  (run_calls calls (Some sc) = None ↔ ∃ cmd result, Sc_CommandResult cmd result ∈ calls ∧ ¬ cuttable (push_chars cmd)).
Proof.
  revert sc. induction calls as [|c calls IH]; intros sc Hr.
  { simpl. split; [by destruct Hr|]. split; [done|]. intros (? & ? & H & _). by apply not_elem_of_nil in H. }
  pose proof (screen_call_shows c sc Hr) as Hc. cbn [run_calls].
  destruct (screen_call c (Some sc)) as [[sc1|]|]; [|done|]; cbn [mbind option_bind].
  - destruct Hc as (Hf & Hs & Hcut & _). destruct (IH sc1 (shows_ready _ Hf Hs)) as [H1 H2]. split.
    + destruct calls as [|c' calls]; [simpl; by auto|].
      destruct (run_calls (c' :: calls) (Some sc1)) as [[sc2|]|]; [|done|done].
      destruct H1 as [? H1]. split; [done|]. intros _. by apply H1.
    + rewrite H2. split; intros (cmd & r & Hin & Hn); exists cmd, r; (split; [|done]); [by right|].
      apply elem_of_cons in Hin as [<-|]; done.
  - split; [done|]. split; [|done]. intros _. destruct Hr as (_ & Hcut & _).
    destruct c; simpl in Hc; try done. exists cmd, result. split; [by left|done].
Qed.
End screen_facts.

(** ** Concrete runs *)

Lemma fresh_ready version board : ready version (mkScreen (ScreenState_new board) true []).
Proof. split_and!; [|left; simpl; lia|by left]. unfold fits. simpl. unfold EVENT_LEN. lia. Qed.

Definition demo_screen : Screen := mkScreen (ScreenState_new (lit "M5StickC")) true [].

Lemma screen_shows_state_witness :
  ∃ sc, run_calls (lit "0.1") [Sc_Battery (Some 3900) true; Sc_CommandResult (lit "burn") (lit "OK: burn complete")]
    (Some demo_screen) = Some (Some sc) ∧ shows (lit "0.1") sc.
Proof.
  pose proof (screen_shows_state (lit "0.1")
    [Sc_Battery (Some 3900) true; Sc_CommandResult (lit "burn") (lit "OK: burn complete")]
    demo_screen (fresh_ready _ _)) as [H1 H2].
  destruct (run_calls _ _ (Some demo_screen)) as [[sc|]|]; [|done|].
  - exists sc. split; [done|]. by apply H1.
  - destruct H2 as [H2 _]. destruct (H2 eq_refl) as (cmd & r & Hin & Hn). exfalso. apply Hn. left.
    apply elem_of_cons in Hin as [|Hin]; [done|]. apply list_elem_of_singleton in Hin. injection Hin as -> ->.
    vm_compute. lia.
Defined.

Lemma battery_pct_sound_witness : battery_pct (battery_mv 0xDD 0x80) = 74.
Proof.
  destruct (battery_pct_sound 0xDD 0x80 0xDD 0x80) as (_ & H & _); [unfold is_u8; lia..|].
  rewrite H; vm_compute; split; done.
Defined.

(** A register file as a bus that works. *)
#[local] Instance sim_pmu : Pmu (Z → Z) := {|
  i2c_write r v b := (Ok (), if decide (0 ≤ v < 256) then (λ r', if decide (r' = r) then v else b r') else b);
  i2c_write_read r b := (Ok (u8 (b r)), b) |}.

#[local] Instance sim_pmu_laws : PmuLaws sim_pmu.
Proof.
  refine {| regs b r := u8 (b r) |}.
  - intros r v b. unfold wp. simpl. split.
    + intros r' Hr _. case_decide; [|done]. by rewrite decide_False.
    + intros _. case_decide; [|by right]. left. rewrite decide_True by done. apply u8_id. unfold is_u8. lia.
  - intros r b. unfold wp. simpl. split; [done|]. intros v [= <-]. split; [apply u8_is_u8|done].
Defined.

Lemma grove_5v_switches_witness :
  (grove_5v true (Some (λ _, 0x58))).1 = Ok true ∧ (grove_5v false (Some (λ _, 0x5C))).1 = Ok false.
Proof.
  pose proof (grove_5v_switches true (Some (λ _, 0x58))) as H1.
  pose proof (grove_5v_switches false (Some (λ _, 0x5C))) as H2. unfold wp in *.
  destruct (grove_5v true (Some (λ _, 0x58))) as [[v1|] [b1|]] eqn:E1; try (vm_compute in E1; congruence).
  destruct (grove_5v false (Some (λ _, 0x5C))) as [[v2|] [b2|]] eqn:E2; try (vm_compute in E2; congruence).
  destruct H1 as (_ & _ & H1). destruct H2 as (_ & _ & H2).
  destruct (H1 v1 eq_refl) as [-> _]. destruct (H2 v2 eq_refl) as [-> _]. done.
Defined.

Lemma display_init_powers_witness :
  Z.land (regs (init_axp192 (λ _, 0)).2 REG_POWER_OUT_CTL) POWER_BITS = POWER_BITS.
Proof.
  pose proof (display_init_powers (λ _, 0) (λ _, true) (lit "M5StickC") (mkDisplay None None)) as H.
  destruct (init _ _ _ _) as [[[]|e] d] eqn:E; [tauto|vm_compute in E; congruence].
Defined.

(** The names of parsed commands always fit; a line that is refused is shown
    under its own first word. *)
Lemma command_name_short c : (length (command_name c) ≤ 20)%nat.
Proof. destruct c; vm_compute; lia. Qed.

(** Nineteen letters and one byte above 0x7F typed at the console: the byte is
    stored as a two-byte character, the line is refused, and showing the refusal
    cuts that character in half. *)
Example refused_line_panics :
  let typed := replicate 19 97 ++ [0xC3] in
  feed_all MAX_LINE_LEN LineAssembler_new (typed ++ [10]) = [Line (replicate 19 97 ++ [0xC3; 0x83])] ∧
  show_refusal (lit "0.1") (replicate 19 97 ++ [0xC3; 0x83]) (Some demo_screen) = None.
Proof. vm_compute. done. Qed.
