(* ===== verification/Stm32.v ===== *)
(** * The STM32 board support

    [apps/bolty-stm32/src/main.rs]: the I2C and SPI adapters that carry the
    reader drivers, the countdown timer of the PN532 driver, the reset sequence
    and the bus scan.

    The hardware abstraction layer is a history of calls and the answers it
    gives by history. *)

From S2P Require Import Prelude.

(** ** I2C: [Eh1I2c] *)

Inductive I2cOp : Type := I2c_Write (w : list Z) | I2c_Read (r : list Z).

(** What the HAL's [write] and [write_iter_read] put on the bus; for a read, how
    many bytes are asked for. *)
Inductive I2cCall : Type := Ic_Write (address : Z) (w : list Z) | Ic_WriteRead (address : Z) (w : list Z) (n : nat).

(** An error, or the bytes read (none for a write). *)
Class I2cHal : Type := i2c_rc : list I2cCall → result (list Z) Z.

Section i2c.
  Context `{!I2cHal}.

(** A call, and the buffer as it fills it. *)
Definition i2c_call (c : I2cCall) (buf : list Z) (h : list I2cCall) : result () Z * list Z * list I2cCall :=
  let h := h ++ [c] in
  match i2c_rc h with
  | Ok got => (Ok (), take (length buf) (got ++ drop (length got) buf), h)
  | Err e => (Err e, buf, h)
  end.

(** The sequential path: each operation a transaction of its own. *)
Fixpoint i2c_each (address : Z) (ops : list I2cOp) (h : list I2cCall) : result () Z * list I2cOp * list I2cCall :=
  match ops with
  | [] => (Ok (), [], h)
  | I2c_Write w :: ops =>
      let '(r, _, h) := i2c_call (Ic_Write address w) [] h in
      match r with
      | Err e => (Err e, I2c_Write w :: ops, h)
      | Ok _ => let '(r, ops, h) := i2c_each address ops h in (r, I2c_Write w :: ops, h)
      end
  | I2c_Read buf :: ops =>
      let '(r, buf, h) := i2c_call (Ic_WriteRead address [] (length buf)) buf h in
      match r with
      | Err e => (Err e, I2c_Read buf :: ops, h)
      | Ok _ => let '(r, ops, h) := i2c_each address ops h in (r, I2c_Read buf :: ops, h)
      end
  end.

Definition i2c_transaction (address : Z) (ops : list I2cOp) (h : list I2cCall) : result () Z * list I2cOp * list I2cCall :=
  match ops with
  | [I2c_Write w] => let '(r, _, h) := i2c_call (Ic_Write address w) [] h in (r, ops, h)
  | [I2c_Write w; I2c_Read buf] =>
      let '(r, buf, h) := i2c_call (Ic_WriteRead address w (length buf)) buf h in (r, [I2c_Write w; I2c_Read buf], h)
  | _ => i2c_each address ops h
  end.

(** *** The bus scan of [init] *)

(** [for addr in 1..=0x7F]: how many answered, and whether [want] did. *)
Fixpoint scan (addrs : list Z) (want : Z) (found : Z) (seen : bool) (h : list I2cCall) : Z * bool * list I2cCall :=
  match addrs with
  | [] => (found, seen, h)
  | addr :: addrs =>
      let '(r, _, h) := i2c_call (Ic_Write addr []) [] h in
      if is_ok r then scan addrs want (u8 (found + 1)) (seen || bool_decide (addr = want)) h
      else scan addrs want found seen h
  end.

Definition i2c_scan (want : Z) (h : list I2cCall) : Z * bool * list I2cCall := scan (seqZ 1 0x7F) want 0 false h.

(** The transceiver is constructed only if its address answered; [from_i2c] is the
    driver's constructor with its version check. *)
Definition init_mfrc522 {X} (want : Z) (from_i2c : list I2cCall → option X) (h : list I2cCall) : option X :=
  let '(_, seen, h) := i2c_scan want h in if seen then from_i2c h else None.
End i2c.

(** ** SPI: [SpiByteIo] and [CsSpi] *)

(** A non-blocking call answers, fails, or asks to be called again. *)
Inductive nb (A : Type) : Type := Nb_Ok (a : A) | Nb_Other (code : Z) | Nb_WouldBlock.
Arguments Nb_Ok {A} _.
Arguments Nb_Other {A} _.
Arguments Nb_WouldBlock {A}.

Fixpoint nb_block {A} (fuel : nat) (poll : nat → nb A) (k : nat) : option (result A Z) :=
  match fuel with
  | O => None
  | S fuel =>
      match poll k with
      | Nb_Ok a => Some (Ok a)
      | Nb_Other e => Some (Err e)
      | Nb_WouldBlock => nb_block fuel poll (S k)
      end
  end.

(** [Spi::byte_transfer]: shift a byte out, then wait for the one shifted in. *)
Definition spi_byte (fuel : nat) (write_nonblocking : nat → nb ()) (read_nonblocking : nat → nb Z) : option (result Z Z) :=
  match nb_block fuel write_nonblocking 0 with
  | None => None
  | Some (Err e) => Some (Err e)
  | Some (Ok _) => nb_block fuel read_nonblocking 0
  end.

Inductive SpiOp : Type :=
| Spi_Read (buf : list Z)
| Spi_Write (words : list Z)
| Spi_Transfer (read write : list Z)
| Spi_TransferInPlace (buf : list Z)
| Spi_DelayNs (ns : Z).

Inductive SpiCall : Type := Cs_Low | Cs_High | Spi_Byte (out : Z).

Inductive SpiAdapterError : Type := Bus (code : Z) | Cs.

(** The byte shifted in, or an error; the byte is ignored for the pin. *)
Class SpiHal : Type := spi_rc : list SpiCall → result Z Z.

Section spi.
  Context `{!SpiHal}.

Definition set_cs (c : SpiCall) : M (list SpiCall) SpiAdapterError () := λ h,
  let h := h ++ [c] in (match spi_rc h with Ok _ => Ok () | Err _ => Err Cs end, h).

Definition byte_transfer (out : Z) : M (list SpiCall) SpiAdapterError Z := λ h,
  let h := h ++ [Spi_Byte out] in (map_err Bus (spi_rc h), h).

(** Bytes shifted out in turn, with what comes in. *)
Fixpoint shift_out (out : list Z) : M (list SpiCall) SpiAdapterError (list Z) :=
  match out with
  | [] => mret []
  | b :: out => x ← byte_transfer b; xs ← shift_out out; mret (x :: xs)
  end.

(** The bytes an operation shifts out. In [Transfer] the write bytes are only
    sent while the read buffer has room; then dummies fill it. *)
Definition shifted (op : SpiOp) : list Z :=
  match op with
  | Spi_Read buf => replicate (length buf) 0
  | Spi_Write words => words
  | Spi_Transfer read write => take (length read) write ++ replicate (length read - length write) 0
  | Spi_TransferInPlace buf => buf
  | Spi_DelayNs _ => []
  end.

(** The operation with its buffer filled. *)
Definition filled (op : SpiOp) (got : list Z) : SpiOp :=
  match op with
  | Spi_Read _ => Spi_Read got
  | Spi_Transfer _ write => Spi_Transfer got write
  | Spi_TransferInPlace _ => Spi_TransferInPlace got
  | op => op
  end.

Fixpoint spi_ops (ops : list SpiOp) : M (list SpiCall) SpiAdapterError (list SpiOp) :=
  match ops with
  | [] => mret []
  | Spi_DelayNs _ :: _ => fail Cs
  | op :: ops => got ← shift_out (shifted op); rest ← spi_ops ops; mret (filled op got :: rest)
  end.

(** One assertion of the chip select around all operations, released on every
    path. *)
Definition spi_transaction (ops : list SpiOp) : M (list SpiCall) SpiAdapterError (list SpiOp) :=
  _ ← set_cs Cs_Low;
  result ← attempt (spi_ops ops);
  _ ← set_cs Cs_High;
  match result with Ok ops => mret ops | Err e => fail e end.
End spi.

(** ** [BlockingTimer] *)

Definition TIMER_SLICE_US : Z := 1000.

(** The remaining microseconds, and the cycles waited so far. *)
Record BlockingTimer : Type := mkTimer { remaining_us : Z; waited : list Z }.

Definition timer_start (micros : Z) (t : BlockingTimer) : BlockingTimer := mkTimer (u32 micros) (waited t).

(** [true] is [Ok(())], [false] is [WouldBlock]. *)
Definition timer_wait (t : BlockingTimer) : bool * BlockingTimer :=
  if decide (remaining_us t = 0) then (true, t)
  else
    let step := Z.min TIMER_SLICE_US (remaining_us t) in
    let left := remaining_us t - step in
    (bool_decide (left = 0), mkTimer left (waited t ++ [u32 (step * 168)])).

(** A caller that polls until the deadline. *)
Fixpoint timer_block (fuel : nat) (t : BlockingTimer) : option (nat * BlockingTimer) :=
  match fuel with
  | O => None
  | S fuel =>
      let '(done, t) := timer_wait t in
      if (done : bool) then Some (1%nat, t) else (λ r, (S r.1, r.2)) <$> timer_block fuel t
  end.

(** ** The PN532 probe *)

Inductive PortCall : Type := Rst_Low | Rst_High | Delay (cycles : Z) | GetFirmwareVersion.

(** [probe]: [fw] answers the version request by history. *)
Definition probe {X} (fw : list PortCall → option X) (h : list PortCall) : option X * list PortCall :=
  let h := h ++ [Rst_Low; Delay (u32 (100 * 168000)); Rst_High; Delay (u32 (500 * 168000)); GetFirmwareVersion] in
  (fw h, h).

(** ** Properties *)

Section i2c_facts.
  Context {IH : I2cHal}.

(** What an operation list asks of the bus. *)
Definition op_call (address : Z) (op : I2cOp) : I2cCall :=
  match op with
  | I2c_Write w => Ic_Write address w
  | I2c_Read buf => Ic_WriteRead address [] (length buf)
  end.

Definition calls_of (address : Z) (ops : list I2cOp) : list I2cCall :=
  match ops with
  | [I2c_Write w; I2c_Read buf] => [Ic_WriteRead address w (length buf)]
  | _ => op_call address <$> ops
  end.

(** Same operations, read buffers of the same size. *)
Definition op_shape (op : I2cOp) : I2cOp :=
  match op with I2c_Write w => I2c_Write w | I2c_Read buf => I2c_Read (replicate (length buf) 0) end.

Lemma i2c_call_spec c buf h :
  let '(r, buf', h') := i2c_call c buf h in
  h' = h ++ [c] ∧ length buf' = length buf.
Proof.
  unfold i2c_call. destruct (i2c_rc _) as [got|e]; [|done]. split; [done|].
  rewrite length_take, length_app, length_drop. lia.
Qed.

Lemma i2c_each_spec address ops h :
  let '(r, ops', h') := i2c_each address ops h in
  op_shape <$> ops' = op_shape <$> ops ∧
  ∃ done rest, h' = h ++ done ∧ op_call address <$> ops = done ++ rest ∧ (r = Ok () → rest = []).
Proof.
  revert h. induction ops as [|[w|buf] ops IH']; intros h; cbn [i2c_each].
  - split; [done|]. exists [], []. by rewrite app_nil_r.
  - pose proof (i2c_call_spec (Ic_Write address w) [] h) as Hc.
    destruct (i2c_call (Ic_Write address w) [] h) as [[[[]|e] b1] h1]; destruct Hc as [-> Hb].
    + specialize (IH' (h ++ [Ic_Write address w])). destruct (i2c_each address ops _) as [[r ops'] h'].
      destruct IH' as [Hs (dn & rest & -> & Hd & Hr)]. split; [by rewrite !fmap_cons, Hs|].
      exists (Ic_Write address w :: dn), rest. by rewrite <- app_assoc, fmap_cons, Hd.
    + split; [done|]. by exists [Ic_Write address w], (op_call address <$> ops).
  - pose proof (i2c_call_spec (Ic_WriteRead address [] (length buf)) buf h) as Hc.
    destruct (i2c_call _ buf h) as [[[[]|e] b1] h1]; destruct Hc as [-> Hb].
    + specialize (IH' (h ++ [Ic_WriteRead address [] (length buf)])). destruct (i2c_each address ops _) as [[r ops'] h'].
      destruct IH' as [Hs (dn & rest & -> & Hd & Hr)]. split; [by rewrite !fmap_cons, Hs; simpl; rewrite Hb|].
      exists (Ic_WriteRead address [] (length buf) :: dn), rest. by rewrite <- app_assoc, fmap_cons, Hd.
    + split; [by rewrite !fmap_cons; simpl; rewrite Hb|].
      by exists [Ic_WriteRead address [] (length buf)], (op_call address <$> ops).
Qed.

(** The I2C adapter loses nothing: for any operation list and any answers of
    the bus, the transfers made are a prefix, in order, of those the list asks
    for (a single combined transfer for a write followed by a read), all of them
    when it reports success; no operation is dropped, repeated or reordered, and
    read buffers keep their size. *)
Theorem i2c_transaction_complete (address : Z) (ops : list I2cOp) (h : list I2cCall) :
  let '(r, ops', h') := i2c_transaction address ops h in
  op_shape <$> ops' = op_shape <$> ops ∧
  ∃ done rest, h' = h ++ done ∧ calls_of address ops = done ++ rest ∧ (r = Ok () → rest = []).
Proof.
  pose proof (i2c_each_spec address ops h) as He.
  destruct ops as [|[w|buf] [|[w'|buf'] [|op ops]]]; try done; cbn [i2c_transaction].
  - pose proof (i2c_call_spec (Ic_Write address w) [] h) as Hc.
    destruct (i2c_call _ [] h) as [[r b1] h1]. destruct Hc as [-> _]. split; [done|].
    exists [Ic_Write address w], []. done.
  - pose proof (i2c_call_spec (Ic_WriteRead address w (length buf')) buf' h) as Hc.
    destruct (i2c_call _ buf' h) as [[r b1] h1]. destruct Hc as [-> Hb]. split; [by rewrite !fmap_cons; simpl; rewrite Hb|].
    exists [Ic_WriteRead address w (length buf')], []. done.
Qed.

(** *** The scan *)

(** Whether an address answers when the scan reaches it. *)
Definition answers (h : list I2cCall) (before : list Z) (addr : Z) : bool :=
  is_ok (i2c_rc (h ++ ((λ a, Ic_Write a []) <$> before ++ [addr]))).

Fixpoint answering (h : list I2cCall) (before addrs : list Z) : list Z :=
  match addrs with
  | [] => []
  | a :: addrs => (if answers h before a then [a] else []) ++ answering h (before ++ [a]) addrs
  end.

Lemma scan_spec addrs want found seen h before :
  0 ≤ found → found + Z.of_nat (length addrs) < 256 →
  scan addrs want found seen (h ++ ((λ a, Ic_Write a []) <$> before)) =
    (found + Z.of_nat (length (answering h before addrs)),
     seen || bool_decide (want ∈ answering h before addrs),
     h ++ ((λ a, Ic_Write a []) <$> before ++ addrs)).
Proof.
  revert found seen before. induction addrs as [|a addrs IH']; intros found seen before H0 Hl; cbn [scan answering].
  { rewrite app_nil_r. simpl. rewrite orb_false_r. f_equal. f_equal. lia. }
  unfold i2c_call. simpl length in Hl.
  assert (∀ x, h ++ ((λ a, Ic_Write a []) <$> before) ++ [Ic_Write x []] = h ++ ((λ a, Ic_Write a []) <$> before ++ [x])) as Hx
    by (intros x; by rewrite fmap_app).
  unfold answers. rewrite <- !app_assoc, Hx. destruct (i2c_rc _) as [got|e]; cbn [is_ok].
  - unfold u8. rewrite Z.mod_small by lia. rewrite IH' by lia. rewrite <- app_assoc. simpl. f_equal. f_equal; [lia|].
    rewrite <- orb_assoc. f_equal. destruct (decide (a = want)) as [->|Hne].
    + rewrite bool_decide_eq_true_2 by done. symmetry. apply bool_decide_eq_true_2. by left.
    + rewrite bool_decide_eq_false_2 by done. simpl. apply bool_decide_ext. rewrite elem_of_cons. naive_solver.
  - rewrite IH' by lia. rewrite <- app_assoc. done.
Qed.

(** The scan asks every address from 1 to 127 once, in order; its count is exact
    and it finds the reader exactly when the reader answered. *)
Theorem i2c_scan_exact (want : Z) (h : list I2cCall) :
  i2c_scan want h =
    (Z.of_nat (length (answering h [] (seqZ 1 127))), bool_decide (want ∈ answering h [] (seqZ 1 127)),
     h ++ ((λ a, Ic_Write a []) <$> seqZ 1 127)).
Proof.
  unfold i2c_scan. change 0x7F with 127. rewrite <- (app_nil_r h) at 1.
  change (h ++ []) with (h ++ ((λ a, Ic_Write a []) <$> [])). rewrite scan_spec; [done|lia|].
  rewrite length_seqZ. lia.
Qed.
End i2c_facts.

Section spi_facts.
  Context {SH : SpiHal}.

(** The bytes of a failed or finished run of transfers are a prefix of those due. *)
Lemma shift_out_spec out h : wp (shift_out out) (λ r h', ∃ sent rest,
  h' = h ++ (Spi_Byte <$> sent) ∧ out = sent ++ rest ∧
  ∀ got, r = Ok got → rest = [] ∧ length got = length out) h.
Proof.
  revert h. induction out as [|b out IH]; intros h; simpl.
  { apply wp_ret. exists [], []. rewrite app_nil_r. split_and!; [done|done|]. by intros got [= <-]. }
  apply wp_bind. unfold wp at 1, byte_transfer. simpl. destruct (spi_rc _) as [x|e]; simpl.
  2:{ exists [b], out. done. }
  apply wp_bind. eapply wp_mono; [apply IH|]. intros r h1 (sent & rest & -> & -> & Hr).
  assert ((h ++ [Spi_Byte b]) ++ (Spi_Byte <$> sent) = h ++ (Spi_Byte <$> b :: sent)) as -> by (by rewrite <- app_assoc).
  destruct r as [got|e]; [|by exists (b :: sent), rest]. destruct (Hr got eq_refl) as [-> Hl].
  apply wp_ret. exists (b :: sent), []. split_and!; [done|done|]. intros g [= <-]. simpl. by rewrite Hl.
Qed.

Definition spi_shape (op : SpiOp) : SpiOp :=
  match op with
  | Spi_Read buf => Spi_Read (replicate (length buf) 0)
  | Spi_Transfer read write => Spi_Transfer (replicate (length read) 0) write
  | Spi_TransferInPlace buf => Spi_TransferInPlace (replicate (length buf) 0)
  | op => op
  end.

Lemma filled_shape op got : length got = length (shifted op) → spi_shape (filled op got) = spi_shape op.
Proof.
  destruct op; simpl; try done; rewrite ?length_replicate; try (by intros ->).
  rewrite length_app, length_take, length_replicate. intros Hl. do 2 f_equal. lia.
Qed.

Lemma spi_ops_spec ops h : wp (spi_ops ops) (λ r h', ∃ sent rest,
  h' = h ++ (Spi_Byte <$> sent) ∧ mjoin (shifted <$> ops) = sent ++ rest ∧
  ∀ ops', r = Ok ops' → rest = [] ∧ spi_shape <$> ops' = spi_shape <$> ops) h.
Proof.
  revert h. induction ops as [|op ops IH]; intros h.
  { apply wp_ret. exists [], []. rewrite app_nil_r. split_and!; [done|done|]. by intros got [= <-]. }
  assert (wp (got ← shift_out (shifted op); rest ← spi_ops ops; mret (filled op got :: rest)) (λ r h', ∃ sent rest,
    h' = h ++ (Spi_Byte <$> sent) ∧ mjoin (shifted <$> op :: ops) = sent ++ rest ∧
    ∀ ops', r = Ok ops' → rest = [] ∧ spi_shape <$> ops' = spi_shape <$> op :: ops) h) as Hop.
  { apply wp_bind. eapply wp_mono; [apply shift_out_spec|]. intros r h1 (s1 & r1 & -> & Hs1 & Hr1).
    rewrite fmap_cons. change (mjoin (shifted op :: (shifted <$> ops))) with (shifted op ++ mjoin (shifted <$> ops)).
    destruct r as [got|e].
    2:{ exists s1, (r1 ++ mjoin (shifted <$> ops)). split_and!; [done|by rewrite Hs1, <- app_assoc|done]. }
    destruct (Hr1 got eq_refl) as [-> Hl]. rewrite app_nil_r in Hs1.
    apply wp_bind. eapply wp_mono; [apply IH|]. intros r h2 (s2 & r2 & -> & Hs2 & Hr2).
    assert ((h ++ (Spi_Byte <$> s1)) ++ (Spi_Byte <$> s2) = h ++ (Spi_Byte <$> s1 ++ s2)) as ->
      by (by rewrite fmap_app, <- app_assoc).
    rewrite Hs2, Hs1. destruct r as [ops'|e].
    2:{ exists (s1 ++ s2), r2. split_and!; [done|by rewrite <- app_assoc|done]. }
    destruct (Hr2 ops' eq_refl) as [-> Hsh]. apply wp_ret. exists (s1 ++ s2), []. split_and!; [done|by rewrite <- app_assoc|].
    intros o [= <-]. split; [done|]. by rewrite !fmap_cons, Hsh, filled_shape. }
  destruct op; try exact Hop. apply wp_fail. exists [], (mjoin (shifted <$> Spi_DelayNs ns :: ops)).
  rewrite app_nil_r. done.
Qed.

(** The SPI adapter frames every transaction: if the chip select cannot be
    lowered nothing else happens; otherwise all bytes go out between one
    lowering and one raising of the chip select, which is raised on every path,
    bus errors and refused delays included. The bytes sent are a prefix of those
    the operations call for, all of them on success, and the buffers keep their
    sizes. *)
Theorem spi_transaction_framed (ops : list SpiOp) (h : list SpiCall) :
  wp (spi_transaction ops) (λ r h',
    match spi_rc (h ++ [Cs_Low]) with
    | Err _ => r = Err Cs ∧ h' = h ++ [Cs_Low]
    | Ok _ => ∃ sent rest,
        h' = h ++ [Cs_Low] ++ (Spi_Byte <$> sent) ++ [Cs_High] ∧ mjoin (shifted <$> ops) = sent ++ rest ∧
        ∀ ops', r = Ok ops' → rest = [] ∧ spi_shape <$> ops' = spi_shape <$> ops
    end) h.
Proof.
  unfold spi_transaction. apply wp_bind. unfold wp at 1, set_cs. simpl. destruct (spi_rc (h ++ [Cs_Low])) as [x|e]; [|done].
  apply wp_bind, wp_attempt. eapply wp_mono; [apply spi_ops_spec|]. intros r h1 (sent & rest & -> & Hs & Hr).
  apply wp_bind. unfold wp at 1. simpl.
  assert (((h ++ [Cs_Low]) ++ (Spi_Byte <$> sent)) ++ [Cs_High] = h ++ [Cs_Low] ++ (Spi_Byte <$> sent) ++ [Cs_High]) as ->
    by (by rewrite <- !app_assoc).
  destruct (spi_rc _) as [y|e]; [|by exists sent, rest].
  destruct r as [ops'|e]; [apply wp_ret|apply wp_fail]; exists sent, rest; split_and!; try done.
Qed.
End spi_facts.

(** *** Timer *)

Definition sum (l : list Z) : Z := foldr Z.add 0 l.

Lemma sum_snoc l x : sum (l ++ [x]) = sum l + x.
Proof. induction l as [|y l IH]; simpl in *; [unfold sum; simpl; lia|]. unfold sum in *. simpl. lia. Qed.

(** Whole slices left, rounded up. *)
Definition slices (us : Z) : Z := (us + 999) `div` 1000.

(** The countdown timer keeps its deadline: started with any number of
    microseconds, a caller that polls it until it fires is called back after
    each slice of at most a millisecond, so it polls once per started
    millisecond (once for zero), the delays add up to exactly the time asked
    for, truncated to 32 bits, and no single delay overflows its cycle count. *)
Theorem timer_keeps_deadline (micros : Z) (t : BlockingTimer) (fuel : nat) :
  slices (u32 micros) < Z.of_nat fuel →
  ∃ polls t', timer_block fuel (timer_start micros t) = Some (polls, t') ∧
    Z.of_nat polls = Z.max 1 (slices (u32 micros)) ∧ remaining_us t' = 0 ∧
    sum (waited t') = sum (waited t) + 168 * u32 micros ∧
    ∃ new, waited t' = waited t ++ new ∧ Forall (λ c, 0 < c ≤ 168000) new.
Proof.
  assert (∀ n us w, 0 ≤ us < 2 ^ 32 → slices us < Z.of_nat n →
    ∃ polls t', timer_block n (mkTimer us w) = Some (polls, t') ∧
      Z.of_nat polls = Z.max 1 (slices us) ∧ remaining_us t' = 0 ∧ sum (waited t') = sum w + 168 * us ∧
      ∃ new, waited t' = w ++ new ∧ Forall (λ c, 0 < c ≤ 168000) new) as Hrun.
  { induction n as [|n IH]; intros us w Hus Hn.
    { assert (0 ≤ slices us) by (apply Z.div_pos; lia). lia. }
    cbn [timer_block]. unfold timer_wait. cbn [remaining_us waited].
    destruct (decide (us = 0)) as [->|Hne].
    { exists 1%nat, (mkTimer 0 w). split_and!; [done|vm_compute; done|done|simpl; lia|].
      exists []. by rewrite app_nil_r. }
    unfold TIMER_SLICE_US. set (step := Z.min 1000 us).
    assert (u32 (step * 168) = step * 168) as -> by (unfold u32; apply Z.mod_small; lia).
    case_bool_decide as Hd.
    - exists 1%nat, (mkTimer (us - step) (w ++ [step * 168])). cbn [remaining_us waited].
      assert (slices us = 1) as -> by (unfold slices; symmetry; apply (Z.div_unique _ _ _ (us - 1)); lia).
      split_and!; [done|lia|done|rewrite sum_snoc; lia|]. exists [step * 168]. split; [done|].
      repeat constructor; lia.
    - assert (slices us = slices (us - step) + 1) as Hs.
      { unfold slices. replace (us + 999) with ((us - step + 999) + 1 * 1000) by lia. rewrite Z.div_add by lia. done. }
      destruct (IH (us - step) (w ++ [step * 168])) as (polls & t' & -> & Hp & Hr & Hsum & new & Hw & Hf); [lia|lia|].
      assert (1 ≤ slices (us - step)) as H1 by (apply Z.div_le_lower_bound; lia).
      exists (S polls), t'. split_and!; [done|lia|done|rewrite Hsum, sum_snoc; lia|].
      exists ((step * 168) :: new). rewrite Hw, <- app_assoc. split; [done|]. constructor; [lia|done]. }
  intros Hf. apply Hrun; [|done]. apply Z.mod_pos_bound. lia.
Qed.

Lemma timer_keeps_deadline_witness :
  timer_block 52 (timer_start 50000 (mkTimer 0 [])) ≠ None ∧ slices (u32 50000) = 50.
Proof.
  destruct (timer_keeps_deadline 50000 (mkTimer 0 []) 52) as (polls & t' & -> & _); [vm_compute; done|].
  split; [done|vm_compute; done].
Defined.

(** A blocking byte exchange returns as soon as both halves have answered. *)
Lemma nb_block_returns {A} (poll : nat → nb A) n k fuel :
  (∀ j, (k ≤ j < k + n)%nat → poll j = Nb_WouldBlock) → poll (k + n)%nat ≠ Nb_WouldBlock → (n < fuel)%nat →
  nb_block fuel poll k =
    match poll (k + n)%nat with Nb_Ok a => Some (Ok a) | Nb_Other e => Some (Err e) | Nb_WouldBlock => None end.
Proof.
  revert k fuel. induction n as [|n IH]; intros k [|fuel] Hb Hn Hf; [lia| |lia|]; cbn [nb_block].
  - rewrite Nat.add_0_r in *. by destruct (poll k).
  - rewrite Hb by lia. rewrite (IH (S k)); [by rewrite Nat.add_succ_comm| |by rewrite Nat.add_succ_comm|lia].
    intros j Hj. apply Hb. lia.
Qed.

(** The module is out of reset, and has had half a second to settle, before the
    first request. *)
Lemma probe_resets_first {X} (fw : list PortCall → option X) h :
  (probe fw h).2 = h ++ [Rst_Low; Delay 16800000; Rst_High; Delay 84000000; GetFirmwareVersion].
Proof. done. Qed.

(** ** Concrete runs *)

#[local] Instance spi_loopback : SpiHal := λ h,
  match last h with Some (Spi_Byte b) => Ok b | _ => Ok 0 end.

(** A transfer whose write part is longer than its read part loses the excess:
    here the second byte never reaches the bus. *)
Example transfer_drops_excess :
  spi_transaction [Spi_Transfer [0] [0xD4; 0x02]] [] =
    (Ok [Spi_Transfer [0xD4] [0xD4; 0x02]], [Cs_Low; Spi_Byte 0xD4; Cs_High]).
Proof. vm_compute. reflexivity. Qed.

Example delay_refused_releases :
  spi_transaction [Spi_Write [1]; Spi_DelayNs 5; Spi_Write [2]] [] = (Err Cs, [Cs_Low; Spi_Byte 1; Cs_High]).
Proof. vm_compute. reflexivity. Qed.
