(* ===== verification/Serial.v ===== *)
(** * What the console says

    [firmware/serial_console.rs] (lines written to the serial port),
    [firmware/diagnostics_commands.rs] and the printing half of
    [firmware/console_commands.rs]: the transcript of a console command, line by
    line and with the results it puts on the panel, over the state changes of
    [Firmware.handle_line].

    A piece that does not fit its [heapless::String] is dropped together with
    everything after it, and the error is ignored: which replies can lose text is
    part of what is proved. *)

From S2P Require Import Prelude Str Hex Derivation Assessment Ndef NtagTypes Session Ntag NtagProofs Commands Console Workflow Esp32 Firmware FirmwareProofs Display.

(** ** serial_console.rs: the port *)

(** [read] of one byte ([None] when it does not return 1) and [write], with the
    count it returns. *)
Class Stdio (W : Type) : Type := {
  sys_read : W → option Z * W;
  sys_write : list Z → W → Z * W }.

Section port.
  Context {W : Type} `{!Stdio W}.

Definition read_byte_nonblocking : W → option Z * W := sys_read.

(** [None] when the bytes pending exceed the fuel. *)
Fixpoint flush_rx (fuel : nat) (w : W) : option W :=
  match fuel with
  | O => None
  | S fuel => match sys_read w with (Some _, w) => flush_rx fuel w | (None, w) => Some w end
  end.

(** The loop of [write_all] over the bytes still to be written. Each round that
    goes on writes at least one of them. *)
Fixpoint write_loop (fuel : nat) (bytes : list Z) (w : W) : W :=
  match fuel, bytes with
  | S fuel, _ :: _ =>
      let '(rc, w) := sys_write bytes w in
      if decide (rc ≤ 0) then w else write_loop fuel (drop (Z.to_nat rc) bytes) w
  | _, _ => w
  end.

Definition write_all (bytes : list Z) : W → W := write_loop (length bytes) bytes.

Definition line (text : list Z) (w : W) : W := write_all [13; 10] (write_all text w).
End port.

(** ** Transcripts *)

(** A console line, or a result put on the panel (boards with a display). *)
Inductive Out : Type := Line (text : list Z) | Show (call : ScreenCall).

Definition say_ok (message : list Z) : Out := Line (write_parts 300 [] [lit "[OK] "; message]).
Definition say_fail (message : list Z) : Out := Line (write_parts 300 [] [lit "[FAIL] "; message]).

(** [{byte:02X}] and [{flag}]. *)
Definition hex2 (byte : Z) : list Z := [hex_upper (Z.shiftr byte 4); hex_upper (Z.land byte 0xf)].
Definition show_bool (b : bool) : list Z := if b then lit "true" else lit "false".

(** [push_uid_hex] into a [String<32>]. *)
Definition push_uid_hex (uid : list Z) : list Z := write_parts 32 [] (hex2 <$> uid).

Definition say_card (a : CardAssessment) : Out :=
  let uid := match ca_uid a with
    | Some raw_uid => push_uid_hex (take (Z.to_nat (ca_uid_len a)) raw_uid)
    | None => []
    end in
  Line (write_parts 96 [] [lit "[CARD] uid="; uid; lit " state="; card_state_label (ca_state a)]).

(** *** Results on the panel *)

Definition show_result (cmd_name status message : list Z) : Out :=
  Show (Sc_CommandResult cmd_name (write_parts 64 [] [status; lit ": "; message])).
Definition show_ok (cmd_name message : list Z) : Out := show_result cmd_name (lit "OK") message.
Definition show_fail (cmd_name message : list Z) : Out := show_result cmd_name (lit "FAIL") message.

Definition show_workflow_result (cmd_name : list Z) (result : WorkflowResult) : Out :=
  match result with
  | WR_Success => show_ok cmd_name (lit "success")
  | WR_CardNotPresent => show_fail cmd_name (lit "card not present")
  | WR_AuthFailed => show_fail cmd_name (lit "authentication failed")
  | WR_AuthDelay => show_fail cmd_name (lit "auth delay")
  | WR_WipeRefused => show_fail cmd_name (lit "wipe refused")
  | WR_Error message => show_fail cmd_name message
  end.

Definition print_workflow_result (result : WorkflowResult) : list Out :=
  match result with
  | WR_Success => [say_ok (lit "success")]
  | WR_CardNotPresent => [say_fail (lit "card not present")]
  | WR_AuthFailed => [say_fail (lit "authentication failed")]
  | WR_AuthDelay =>
      [say_fail (lit "AUTH DELAY (0x91AD): Card authentication failure counter triggered.");
       Line (lit "Remove card from reader field for several seconds and retry.");
       Line (lit "Ensure you are using the correct key.")]
  | WR_WipeRefused => [say_fail (lit "wipe refused")]
  | WR_Error message => [say_fail message]
  end.

(** Both, in the order of the error arms. *)
Definition report_result (cmd_name : list Z) (result : WorkflowResult) : list Out :=
  show_workflow_result cmd_name result :: print_workflow_result result.

(** ** The I2C bus *)

(** Whether an address acknowledges the byte [0x00]. *)
Class I2cBus (B : Type) : Type := i2c_probe : Z → B → bool * B.

(** The parts of the service the card operations do not use. *)
Record Hw (B : Type) : Type := mkHw {
  hw_raw_i2c : option B;
  hw_last_i2c_scan : list Z;
  hw_display_init_ok : bool;
  hw_i2c_baudrate : Z }.
Arguments mkHw {B} _ _ _ _.
Arguments hw_raw_i2c {B} _.
Arguments hw_last_i2c_scan {B} _.
Arguments hw_display_init_ok {B} _.
Arguments hw_i2c_baudrate {B} _.

Section bus.
  Context {B : Type} `{!I2cBus B}.

Fixpoint scan_from (addresses : list Z) (b : B) : list Z * B :=
  match addresses with
  | [] => ([], b)
  | a :: addresses =>
      let '(ack, b) := i2c_probe a b in
      let '(found, b) := scan_from addresses b in
      (if ack then a :: found else found, b)
  end.

(** [0x03..=0x77]. *)
Definition SCAN_RANGE : list Z := Z.of_nat <$> seq 3 117.
Definition scan_i2c_bus : B → list Z * B := scan_from SCAN_RANGE.

(** Once the reader owns the bus, the result of the last scan is repeated. *)
Definition i2c_scan (hw : Hw B) : list Z * Hw B :=
  match hw_raw_i2c hw with
  | Some b =>
      let '(found, b) := scan_i2c_bus b in
      (found, mkHw (Some b) found (hw_display_init_ok hw) (hw_i2c_baudrate hw))
  | None => (hw_last_i2c_scan hw, hw)
  end.
End bus.

(** The addresses found, separated by [sep]. *)
Fixpoint push_addresses (cap : nat) (sep : list Z) (first : bool) (found out : list Z) : list Z :=
  match found with
  | [] => out
  | a :: found =>
      let out := if first then out else put cap out sep in
      push_addresses cap sep false found (write_parts cap out [lit "0x"; hex2 a])
  end.

(** ** diagnostics_commands.rs *)

Section diagnostics.
  (** Features of the build. *)
  Context (has_buttons has_wifi has_rest has_ota : bool).

Definition print_help : list Out :=
  [Line (lit "Commands: help status uid i2cscan hwinfo keys <k0..k4> issuer [hex] url <lnurl> burn wipe inspect picc diagnose check crashlog hwtest force [on|off] grove [on|off]")] ++
  (if has_buttons then [Line (lit "Buttons: button-mode [simple|legacy]")] else []) ++
  (if has_wifi then [Line (lit "WiFi: wifi <ssid> <password> | wifi off")] else []) ++
  (if has_rest then [Line (lit "TLS: provision-cert")] else []) ++
  (if has_ota then [Line (lit "OTA: ota <url> <sig> | provision-ota-key <hex64>")] else []).

Definition print_boot_banner : list Out := Line (lit "=== Bolty Ready ===") :: print_help.

Definition i2c_scan_text (found : list Z) : list Z :=
  let text := lit "i2cscan: found " in
  if decide (found = []) then put MAX_LINE_LEN text (lit "none")
  else push_addresses MAX_LINE_LEN (lit ", ") true found text.

Definition print_i2c_scan (found : list Z) : list Out :=
  [say_ok (i2c_scan_text found); show_ok (lit "i2cscan") (i2c_scan_text found)].

Definition print_hwinfo {B} (hw : Hw B) (nfc_ready : bool) : list Out :=
  [Line (lit "=== Hardware Info ===");
   Line (write_parts MAX_LINE_LEN []
     [lit "display_init="; if hw_display_init_ok hw then lit "ok" else lit "FAIL"; lit " i2c_baudrate=";
      show_uint (hw_i2c_baudrate hw); lit "Hz nfc_ready="; show_bool nfc_ready]);
   say_ok (let text := lit "i2c_devices: " in
     if decide (hw_last_i2c_scan hw = []) then put MAX_LINE_LEN text (lit "none (check cable, power, pull-ups)")
     else push_addresses MAX_LINE_LEN (lit ", ") true (hw_last_i2c_scan hw) text)].

(** The part of a verified SDM message that is printed. *)
Context {V : Type} (verified_ctr : V → option Z).

Definition counter_text (read_ctr : option Z) : list Z :=
  match read_ctr with Some value => show_uint value | None => lit "none" end.

Definition uid_text (uid : list Z) : list Z := write_parts 96 [] [lit "uid="; push_uid_hex uid].

Definition print_picc (r : result (PiccResult (V := V)) WorkflowResult) : list Out :=
  match r with
  | Ok result =>
      [say_ok (uid_text (si_uid (pr_inspect result)));
       match si_ndef_bytes (pr_inspect result) with
       | Some bytes => Line (write_parts MAX_LINE_LEN [] [lit "ndef="; ndef_ascii bytes])
       | None => Line (lit "ndef=unavailable")
       end;
       match si_sdm_verification (pr_inspect result) with
       | Some verification =>
           Line (write_parts 160 [] [lit "sdm=ok uid_match="; show_bool (default false (pr_uid_match result));
             lit " read_ctr="; counter_text (verified_ctr verification)])
       | None => Line (lit "sdm=unverified")
       end;
       Line (write_parts 96 [] [lit "keys_loaded="; show_bool (pr_keys_loaded result); lit " keys_confirmed=";
         show_bool (pr_keys_confirmed result)]);
       say_ok (lit "picc complete");
       show_ok (lit "picc") (lit "picc complete")]
  | Err err => report_result (lit "picc") err
  end.

Definition diagnose_state_label (state : DiagnoseState) : list Z :=
  match state with
  | D_Blank => lit "BLANK"
  | D_Provisioned => lit "PROVISIONED"
  | D_AuthDelay => lit "AUTH_DELAY"
  | D_Inconsistent => lit "INCONSISTENT"
  end.

(** Bytes 3 and 4 of the first two version frames. *)
Definition version_text (v : Version) : list Z :=
  write_parts 96 []
    [lit "version=hw "; show_uint (nth 3 (ver_part1 v) 0); lit "."; show_uint (nth 4 (ver_part1 v) 0); lit " sw ";
     show_uint (nth 3 (ver_part2 v) 0); lit "."; show_uint (nth 4 (ver_part2 v) 0)].

Definition is_some {A} (o : option A) : bool := if o then true else false.

Definition print_diagnose (r : result (DiagnoseResult (V := V)) WorkflowResult) : list Out :=
  match r with
  | Ok result =>
      [say_ok (uid_text (si_uid (dr_inspect result)));
       match si_version (dr_inspect result) with
       | Some version => Line (version_text version)
       | None => Line (lit "version=unavailable")
       end;
       Line (write_parts 128 []
         [lit "file_settings="; show_bool (is_some (si_file_settings (dr_inspect result)));
          lit " ndef="; show_bool (is_some (si_ndef_bytes (dr_inspect result)));
          lit " zero_key_attempted="; show_bool (dr_zero_key_attempted result);
          lit " zero_key_auth_ok="; show_bool (dr_zero_key_auth_ok result)]);
       Line (write_parts 64 [] [lit "classification="; diagnose_state_label (dr_state result)]);
       say_ok (lit "diagnose complete");
       show_ok (lit "diagnose") (lit "diagnose complete")]
  | Err err => report_result (lit "diagnose") err
  end.

Definition status_text (status : ServiceStatus) : list Z :=
  let uid := match ss_last_uid status with Some last_uid => push_uid_hex last_uid | None => [] end in
  write_parts 320 []
    [lit "nfc_ready="; show_bool (Workflow.ss_nfc_ready status); lit " uid="; if decide (uid = []) then lit "none" else uid;
     lit " lnurl="; match ss_lnurl status with Some l => l | None => lit "none" end].

Definition print_status (status : ServiceStatus) : list Out :=
  [say_ok (status_text status); show_ok (lit "status") (status_text status)].

Definition print_uid (status : ServiceStatus) : list Out :=
  match ss_last_uid status with
  | Some last_uid => [say_ok (push_uid_hex last_uid); show_ok (lit "uid") (push_uid_hex last_uid)]
  | None => [say_fail (lit "no uid"); show_fail (lit "uid") (lit "no uid")]
  end.

Definition print_inspect (last_card : CardAssessment) (result : WorkflowResult) : list Out :=
  match result with
  | WR_Success =>
      [say_card last_card; say_ok (lit "inspect complete"); show_ok (lit "inspect") (lit "inspect complete")]
  | other => report_result (lit "inspect") other
  end.
End diagnostics.

(** ** console_commands.rs: the reply to a command *)

Section replies.
  Context {T TE : Type} {D : NtagDevice T TE} {R : CardReader T} `{C : AesCrypto}.
  Context (sdm_url_config : list Z → CryptoMode → SdmUrlOptions → result SdmUrlConfig SdmUrlError).
  Context {V : Type} (verify_sdm : Sdm → list Z → AesKey → AesKey → option V)
    (verified_uid : V → option (list Z)) (verified_ctr : V → option Z).
  Context (rng : nat → list Z) (debug_error : Error TE → list Z).
  (** The outcome of the network commands and what they print. *)
  Context (network : Command → WorkflowResult) (network_report : Command → list Out).
  Context (has_buttons has_wifi has_rest has_ota : bool).
  Context {B : Type} `{!I2cBus B}.

  Local Notation Dev := (Device (Esp32 T)).

Definition print_command_result (s : Esp32 T) (command : Command) (result : WorkflowResult) : list Out :=
  match command, result with
  | Cmd_Check, WR_Success =>
      [say_card (es_last_card s); say_ok (lit "card is blank"); show_ok (command_name command) (lit "card is blank")]
  | Cmd_SetKeys _, WR_Success =>
      [say_ok (lit "keys staged");
       Line (lit "[ADVANCED] Raw keys override the standard Bolt Card");
       Line (lit "deterministic key derivation (boltcard.org spec).");
       Line (lit "Prefer: 'issuer <hex>' + 'burn' for correct key derivation.");
       Line (lit "       from CardKey = CMAC(IssuerKey, 2D003F75 || UID || ver)");
       show_ok (command_name command) (lit "keys staged")]
  | Cmd_SetIssuer _, WR_Success =>
      [say_ok (lit "issuer staged"); show_ok (command_name command) (lit "issuer staged")]
  | Cmd_SetUrl _, WR_Success =>
      [say_ok (lit "lnurl staged"); show_ok (command_name command) (lit "lnurl staged")]
  | Cmd_Burn, WR_Success =>
      [say_ok (lit "burn complete"); show_ok (command_name command) (lit "burn complete")]
  | Cmd_Wipe, WR_Success =>
      [say_ok (lit "wipe complete"); show_ok (command_name command) (lit "wipe complete")]
  | _, other => report_result (command_name command) other
  end.

(** The event shown after a successful card command. *)
Definition success_event (command : Command) (result : WorkflowResult) : list Out :=
  match result with
  | WR_Success =>
      match command with
      | Cmd_Inspect => [Show (Sc_Event (lit "inspect complete"))]
      | Cmd_Burn => [Show (Sc_Event (lit "burn complete"))]
      | Cmd_Wipe => [Show (Sc_Event (lit "wipe complete"))]
      | Cmd_Check => [Show (Sc_Event (lit "card is blank"))]
      | _ => []
      end
  | _ => []
  end.

(** The last match of [handle_line]. *)
Definition print_dispatched (s : Esp32 T) (command : Command) (result : WorkflowResult) : list Out :=
  match command with
  | Cmd_Help =>
      print_help has_buttons has_wifi has_rest has_ota ++ [say_ok (lit "help"); show_ok (lit "help") (lit "help")]
  | Cmd_Status => print_status (es_status s)
  | Cmd_Uid => print_uid (es_status s)
  | Cmd_Inspect => print_inspect (es_last_card s) result ++ success_event command result
  | _ => print_command_result s command result ++ success_event command result
  end.

Definition no_buttons : list Out := [say_fail (lit "buttons not available on this board")].

(** [handle_line] with everything it prints. *)
Definition handle_line_io (text : list Z) (mode : Z) (hw : Hw B) (d : Dev) : list Out * Z * Hw B * Dev :=
  match parse_command text with
  | Err err =>
      ([say_fail (command_error_message err); show_fail (command_name_from_line text) (command_error_message err)],
       mode, hw, d)
  | Ok command =>
      match command with
      | Cmd_SetWifi _ _ | Cmd_WifiOff | Cmd_Ota _ _ => (network_report command, mode, hw, d)
      | Cmd_ButtonMode =>
          (if has_buttons
           then [say_ok (match button_mode_of_byte mode with
                  | Simple => lit "button mode: simple" | Legacy => lit "button mode: legacy" end)]
           else no_buttons, mode, hw, d)
      | Cmd_ButtonModeSet m =>
          if has_buttons
          then ([say_ok (lit "button mode set"); show_ok (lit "button-mode") (lit "mode set")],
                byte_of_button_mode m, hw, d)
          else (no_buttons, mode, hw, d)
      | Cmd_SetToken token =>
          ([say_ok (if token then lit "token set" else lit "token cleared")], mode, hw, on_config (set_tokens token) d)
      | Cmd_I2cScan => let '(found, hw) := i2c_scan hw in (print_i2c_scan found, mode, hw, d)
      | Cmd_HwInfo => (print_hwinfo hw (Workflow.ss_nfc_ready (es_status (dv_service d))), mode, hw, d)
      | Cmd_Picc =>
          let '(r, d) := on_service (picc verify_sdm verified_uid debug_error) d in
          (print_picc verified_ctr r, mode, hw, d)
      | Cmd_Diagnose =>
          let '(r, d) := on_service (diagnose verify_sdm rng debug_error) d in (print_diagnose r, mode, hw, d)
      | _ =>
          let '(result, d) := dispatch_and_sync sdm_url_config verify_sdm rng debug_error command d in
          (print_dispatched (dv_service d) command result, mode, hw, d)
      end
  end.

(** *** Verdicts *)

Definition begins (prefix : list Z) (o : Out) : bool :=
  match o with Line text => bool_decide (take (length prefix) text = prefix) | Show _ => false end.
Definition says_ok (outs : list Out) : bool := existsb (begins (lit "[OK] ")) outs.
Definition says_fail (outs : list Out) : bool := existsb (begins (lit "[FAIL] ")) outs.
End replies.

(** ** The port *)

(** What [write] promises: the count it returns is at most what it was given,
    and so many bytes went out. *)
Class StdioLaws {W} (P : Stdio W) : Type := {
  sent : W → list Z;
  law_write bytes w : let '(rc, w') := sys_write bytes w in
    rc ≤ Z.of_nat (length bytes) ∧ sent w' = sent w ++ take (Z.to_nat rc) bytes }.

Section port_facts.
  Context {W : Type} {P : Stdio W} {L : StdioLaws P}.

Lemma write_loop_sent fuel bytes (w : W) :
  (length bytes ≤ fuel)%nat →
  ∃ n, sent (write_loop fuel bytes w) = sent w ++ take n bytes ∧
    (n = length bytes ∨ ∃ w1, (sys_write (drop n bytes) w1).1 ≤ 0).
Proof.
  revert bytes w. induction fuel as [|fuel IH]; intros bytes w Hl.
  { destruct bytes; simpl in Hl; [|lia]. exists 0%nat. simpl. rewrite app_nil_r. auto. }
  destruct bytes as [|b bytes]; [exists 0%nat; simpl; rewrite app_nil_r; auto|].
  cbn [write_loop]. pose proof (law_write (b :: bytes) w) as Hw.
  destruct (sys_write (b :: bytes) w) as [rc w'] eqn:Ew. destruct Hw as [Hrc Hs]. case_decide as Hd.
  - exists 0%nat. rewrite Hs. replace (Z.to_nat rc) with 0%nat by lia. split; [done|].
    right. exists w. simpl. by rewrite Ew.
  - destruct (IH (drop (Z.to_nat rc) (b :: bytes)) w') as (n & Hn & Hend).
    { rewrite length_drop. lia. }
    exists (Z.to_nat rc + n)%nat. rewrite Hn, Hs, <- app_assoc, take_take_drop. split; [done|].
    rewrite length_drop in Hend. rewrite <- drop_drop. destruct Hend as [->|Hend]; [left; lia|by right].
Qed.

(** Writing a line never loses bytes in the middle and never writes them twice:
    what reaches the port is a prefix of the line and its line break, and it is
    all of it unless a write failed. *)
Theorem line_sent (text : list Z) (w : W) :
  (∀ bytes w1, bytes ≠ [] → 0 < (sys_write bytes w1).1) → sent (line text w) = sent w ++ text ++ [13; 10].
Proof.
  intros Hlive. unfold line, write_all.
  assert (∀ bytes w1, sent (write_loop (length bytes) bytes w1) = sent w1 ++ bytes) as Hall.
  { intros bytes w1. destruct (write_loop_sent (length bytes) bytes w1 ltac:(lia)) as (n & -> & Hn).
    f_equal. destruct Hn as [->|[w2 Hw]]; [apply firstn_all|].
    destruct (decide (drop n bytes = [])) as [He|He].
    - apply take_ge. apply (f_equal length) in He. rewrite length_drop in He. simpl in He. lia.
    - specialize (Hlive _ w2 He). lia. }
  rewrite !Hall. by rewrite <- app_assoc.
Qed.
End port_facts.

(** ** Reading the verdict off a transcript *)

Lemma write_parts_head cap p ps :
  (length p ≤ cap)%nat → ∃ r, write_parts cap [] (p :: ps) = p ++ r.
Proof.
  intros Hl. cbn [write_parts]. unfold push_str. simpl. rewrite decide_True by lia.
  clear Hl. generalize p. induction ps as [|q ps IH]; intros out; [exists []; simpl; by rewrite app_nil_r|].
  cbn [write_parts]. unfold push_str. case_decide; [|exists []; by rewrite app_nil_r].
  destruct (IH (out ++ q)) as [r ->]. exists (q ++ r). by rewrite app_assoc.
Qed.

Lemma begins_app prefix p r :
  (length prefix ≤ length p)%nat → begins prefix (Line (p ++ r)) = bool_decide (take (length prefix) p = prefix).
Proof. intros Hp. unfold begins. by rewrite take_app_le. Qed.

Lemma begins_parts prefix cap p ps :
  (length p ≤ cap)%nat → (length prefix ≤ length p)%nat →
  begins prefix (Line (write_parts cap [] (p :: ps))) = bool_decide (take (length prefix) p = prefix).
Proof. intros Hc Hp. destruct (write_parts_head cap p ps Hc) as [r ->]. by apply begins_app. Qed.

Lemma begins_say_ok m : begins (lit "[OK] ") (say_ok m) = true.
Proof. unfold say_ok. rewrite begins_parts by (simpl; lia). done. Qed.
Lemma begins_say_fail m : begins (lit "[FAIL] ") (say_fail m) = true.
Proof. unfold say_fail. rewrite begins_parts by (simpl; lia). done. Qed.

Lemma ok_not_fail m : begins (lit "[FAIL] ") (say_ok m) = false.
Proof.
  unfold say_ok, begins. destruct (write_parts_head 300 (lit "[OK] ") [m]) as [r ->]; [simpl; lia|].
  apply bool_decide_eq_false_2. vm_compute (lit _). cbn. congruence.
Qed.
Lemma fail_not_ok m : begins (lit "[OK] ") (say_fail m) = false.
Proof. unfold say_fail. rewrite begins_parts by (simpl; lia). done. Qed.

Lemma card_no_verdict a : begins (lit "[OK] ") (say_card a) = false ∧ begins (lit "[FAIL] ") (say_card a) = false.
Proof. unfold say_card. rewrite !begins_parts by (simpl; lia). done. Qed.

Lemma other_line prefix cap p ps c : (length p ≤ cap)%nat → head p = Some c → head prefix ≠ Some c → prefix ≠ [] →
  begins prefix (Line (write_parts cap [] (p :: ps))) = false.
Proof.
  intros Hc Hh Hn He. unfold begins. destruct (write_parts_head cap p ps Hc) as [r ->].
  apply bool_decide_eq_false_2. destruct p as [|c' p], prefix as [|d prefix]; try done.
  simpl in *. congruence.
Qed.

(** A transcript with verdict [b]: it says OK exactly if [b], and FAIL otherwise. *)
Definition verdict (b : bool) (outs : list Out) : Prop := says_ok outs = b ∧ says_fail outs = negb b.

Definition succeeded (r : WorkflowResult) : bool := match r with WR_Success => true | _ => false end.

Ltac verdict_line :=
  match goal with
  | |- context [begins (lit "[OK] ") (say_ok ?m)] => rewrite (begins_say_ok m)
  | |- context [begins (lit "[FAIL] ") (say_ok ?m)] => rewrite (ok_not_fail m)
  | |- context [begins (lit "[OK] ") (say_fail ?m)] => rewrite (fail_not_ok m)
  | |- context [begins (lit "[FAIL] ") (say_fail ?m)] => rewrite (begins_say_fail m)
  | |- context [begins (lit "[OK] ") (say_card ?a)] => rewrite (proj1 (card_no_verdict a))
  | |- context [begins (lit "[FAIL] ") (say_card ?a)] => rewrite (proj2 (card_no_verdict a))
  | |- context [begins ?pre (Line (write_parts ?cap [] (?p :: ?ps)))] =>
      rewrite (other_line pre cap p ps (hd 0 p)) by (vm_compute; first [done | lia])
  | |- context [begins ?pre (Line (lit ?s ++ ?r))] =>
      rewrite (begins_app pre (lit s) r) by (vm_compute; lia);
      match goal with |- context [bool_decide ?P] => replace (bool_decide P) with false by (vm_compute; reflexivity) end
  | |- context [begins ?pre (Line (lit ?s))] =>
      replace (begins pre (Line (lit s))) with false by (vm_compute; reflexivity)
  | |- context [begins ?pre (Show ?c)] => change (begins pre (Show c)) with false
  end.

Ltac verdict :=
  unfold verdict, says_ok, says_fail, show_ok, show_fail, show_result; cbn [existsb app];
  repeat verdict_line; rewrite ?orb_true_r; done.

Lemma report_verdict name r : verdict (succeeded r) (report_result name r).
Proof. unfold report_result. destruct r; cbn [print_workflow_result show_workflow_result]; verdict. Qed.

Lemma verdict_app_show b outs c : verdict b outs → verdict b (outs ++ [Show c]).
Proof. unfold verdict, says_ok, says_fail. rewrite !existsb_app. simpl. by rewrite !orb_false_r. Qed.

Lemma verdict_app_nil b outs : verdict b outs → verdict b (outs ++ []).
Proof. by rewrite app_nil_r. Qed.

Lemma success_event_verdict b outs c r : verdict b outs → verdict b (outs ++ success_event c r).
Proof.
  intros H. unfold success_event.
  destruct r; [destruct c|..]; first [by apply verdict_app_show | by apply verdict_app_nil].
Qed.

Lemma picc_verdict {V} (ctr : V → option Z) r : verdict (succeeded (to_workflow r)) (print_picc ctr r).
Proof.
  destruct r as [res|e]; [|apply report_verdict]. cbn [print_picc to_workflow succeeded].
  destruct (si_ndef_bytes _), (si_sdm_verification _); verdict.
Qed.

Lemma diagnose_verdict {V} (r : result (DiagnoseResult (V := V)) WorkflowResult) :
  verdict (succeeded (to_workflow r)) (print_diagnose r).
Proof.
  destruct r as [res|e]; [|apply report_verdict]. cbn [print_diagnose to_workflow succeeded].
  unfold version_text. destruct (si_version _); verdict.
Qed.

(** The commands whose replies are printed by the network code. *)
Definition is_network (c : Command) : bool :=
  match c with Cmd_SetWifi _ _ | Cmd_WifiOff | Cmd_Ota _ _ => true | _ => false end.

Section reply_facts.
  Context {T TE : Type} {D : NtagDevice T TE} {R : CardReader T} `{C : AesCrypto}.
  Context (sdm_url_config : list Z → CryptoMode → SdmUrlOptions → result SdmUrlConfig SdmUrlError).
  Context {V : Type} (verify_sdm : Sdm → list Z → AesKey → AesKey → option V)
    (verified_uid : V → option (list Z)) (verified_ctr : V → option Z).
  Context (rng : nat → list Z) (debug_error : Error TE → list Z).
  Context (network : Command → WorkflowResult) (network_report : Command → list Out).
  Context (has_buttons has_wifi has_rest has_ota : bool).
  Context {B : Type} {IB : I2cBus B}.

  Local Notation handle := (handle_line sdm_url_config verify_sdm verified_uid rng debug_error network has_buttons).
  Local Notation handle_io :=
    (handle_line_io sdm_url_config verify_sdm verified_uid verified_ctr rng debug_error network_report
       has_buttons has_wifi has_rest has_ota).

Lemma help_verdict outs b : verdict b outs → verdict b (print_help has_buttons has_wifi has_rest has_ota ++ outs).
Proof.
  intros [H1 H2]. unfold verdict, says_ok, says_fail in *. rewrite !existsb_app, H1, H2.
  destruct has_buttons, has_wifi, has_rest, has_ota; split; reflexivity.
Qed.

(** [uid] fails when no card was seen; every other command as it returned. *)
Definition reply_good (command : Command) (result : WorkflowResult) (s : Esp32 T) : bool :=
  match command with
  | Cmd_Uid => is_some (ss_last_uid (es_status s))
  | Cmd_Help | Cmd_Status => true
  | _ => succeeded result
  end.

Lemma dispatched_verdict (s : Esp32 T) command result :
  verdict (reply_good command result s) (print_dispatched has_buttons has_wifi has_rest has_ota s command result).
Proof.
  destruct command; cbn [print_dispatched reply_good]; try apply success_event_verdict.
  all: try (cbn [print_command_result]; destruct result; first [apply report_verdict | verdict]).
  - apply help_verdict. verdict.
  - unfold print_uid. destruct (ss_last_uid _); verdict.
  - unfold print_status. verdict.
  - unfold print_inspect. destruct result; first [apply report_verdict | verdict].
Qed.

Lemma dispatch_local_success command (d : Device (Esp32 T)) :
  (command = Cmd_Uid ∨ command = Cmd_Help ∨ command = Cmd_Status) →
  (dispatch_and_sync sdm_url_config verify_sdm rng debug_error command d).1 = WR_Success.
Proof. destruct d. by intros [->|[->| ->]]. Qed.

Lemma succeeded_spec r : succeeded r = true ↔ r = WR_Success.
Proof. by destruct r. Qed.

Lemma reply_good_spec command result (s : Esp32 T) :
  (command = Cmd_Uid ∨ command = Cmd_Help ∨ command = Cmd_Status → result = WR_Success) →
  reply_good command result s = true ↔
  result = WR_Success ∧ ¬ (command = Cmd_Uid ∧ ss_last_uid (es_status s) = None).
Proof.
  intros Hl. destruct command; cbn [reply_good]; rewrite ?succeeded_spec;
    try (split; [intros Hr; split; [first [exact Hr | tauto]|by intros [? _]]|by intros [? _]]).
  rewrite (Hl (or_introl eq_refl)). destruct (ss_last_uid _); simpl; split; [|done|done|].
  - intros _. split; [done|]. by intros [_ ?].
  - intros [_ Hn]. by destruct Hn.
Qed.

Lemma verdict_spec b outs (P : Prop) : verdict b outs → (b = true ↔ P) →
  says_fail outs = negb (says_ok outs) ∧ (says_ok outs = true ↔ P).
Proof. by intros [-> ->]. Qed.

(** The cases of [handle_line] that go through [dispatch_command]. *)
Lemma dispatched_reply command (d : Device (Esp32 T)) :
  let '(result, d') := dispatch_and_sync sdm_url_config verify_sdm rng debug_error command d in
  let outs := print_dispatched has_buttons has_wifi has_rest has_ota (dv_service d') command result in
  says_fail outs = negb (says_ok outs) ∧
  (says_ok outs = true ↔ result = WR_Success ∧
     ¬ (command = Cmd_Uid ∧ ss_last_uid (es_status (dv_service d')) = None)).
Proof.
  pose proof (dispatch_local_success command d) as Hl.
  destruct (dispatch_and_sync _ _ _ _ command d) as [result d'].
  eapply verdict_spec; [apply dispatched_verdict|]. by apply reply_good_spec.
Qed.

Lemma reply_case (command : Command) outs b r (s : Esp32 T) :
  verdict b outs → (b = true ↔ r = WR_Success) → command ≠ Cmd_Uid →
  says_fail outs = negb (says_ok outs) ∧
  (says_ok outs = true ↔ @Ok _ CommandError r = Ok WR_Success ∧
     ¬ (@Ok _ CommandError command = Ok Cmd_Uid ∧ ss_last_uid (es_status s) = None)).
Proof.
  intros Hv Hb Hc. eapply verdict_spec; [done|]. rewrite Hb. split.
  - intros ->. split; [done|]. by intros [[= ?] _].
  - by intros [[= ->] _].
Qed.

(** The console reports what the command did. For every line that is not a
    network command, the command runs exactly as without its printing, and the
    transcript says OK if and only if the command succeeded and FAIL if and only
    if it did not, never both and never neither; the one reply that is stricter
    than the command is [uid] before any card was seen, which fails. *)
Theorem console_verdict (text : list Z) (mode : Z) (hw : Hw B) (d : Device (Esp32 T)) :
  (∀ c, parse_command text = Ok c → is_network c = false) →
  let '(r, mode', d') := handle text mode d in
  let '(outs, mode_io, _, d_io) := handle_io text mode hw d in
  mode_io = mode' ∧ d_io = d' ∧ says_fail outs = negb (says_ok outs) ∧
  (says_ok outs = true ↔ r = Ok WR_Success ∧
     ¬ (parse_command text = Ok Cmd_Uid ∧ ss_last_uid (es_status (dv_service d')) = None)).
Proof.
  intros Hnet. unfold handle_line, handle_line_io. destruct (parse_command text) as [command|err].
  2:{ split; [done|]. split; [done|]. eapply verdict_spec; [verdict|]. split; [done|]. by intros [? _]. }
  specialize (Hnet command eq_refl).
  assert (∀ d' r (outs : list Out), dispatch_and_sync sdm_url_config verify_sdm rng debug_error command d = (r, d') →
    outs = print_dispatched has_buttons has_wifi has_rest has_ota (dv_service d') command r →
    says_fail outs = negb (says_ok outs) ∧
    (says_ok outs = true ↔ @Ok _ CommandError r = Ok WR_Success ∧
       ¬ (@Ok _ CommandError command = Ok Cmd_Uid ∧ ss_last_uid (es_status (dv_service d')) = None))) as Hd.
  { intros d' r outs Hr ->. pose proof (dispatched_reply command d) as H. rewrite Hr in H.
    destruct H as [H1 H2]. split; [done|]. rewrite H2. split; intros [Ha Hb]; split; naive_solver. }
  destruct command; try discriminate Hnet;
    try (destruct (dispatch_and_sync _ _ _ _ _ d) as [r d'] eqn:Er; split; [done|]; split; [done|]; by apply Hd);
    clear Hd.
  - destruct (i2c_scan hw) as [found hw']. split; [done|]. split; [done|].
    by eapply reply_case; [unfold print_i2c_scan; verdict|..].
  - destruct (on_service _ d) as [r d']. split; [done|]. split; [done|].
    eapply reply_case; [apply picc_verdict|apply succeeded_spec|done].
  - destruct (on_service _ d) as [r d']. split; [done|]. split; [done|].
    eapply reply_case; [apply diagnose_verdict|apply succeeded_spec|done].
  - split; [done|]. split; [done|]. by eapply reply_case; [unfold print_hwinfo; verdict|..].
  - split; [done|]. split; [done|]. unfold no_buttons. destruct has_buttons.
    + by eapply reply_case; [verdict|..].
    + eapply reply_case; [verdict|split; [done|]|done]. discriminate.
  - unfold no_buttons. destruct has_buttons; (split; [done|]; split; [done|]).
    + by eapply reply_case; [verdict|..].
    + eapply reply_case; [verdict|split; [done|]|done]. discriminate.
  - split; [done|]. split; [done|]. by eapply reply_case; [destruct token; verdict|..].
Qed.
End reply_facts.

(** ** Instances *)

(** A bus on which two addresses answer. *)
#[export] Instance sim_bus : I2cBus (list Z) := λ a b, (bool_decide (a ∈ b), b).

Definition sim_hw : Hw (list Z) := mkHw (Some [0x28; 0x34]) [] true 100000.

Lemma console_verdict_witness :
  let '(outs, _, _, d') := handle_line_io (C := toy_aes) sample_planner no_verify Some (λ _, None) sample_rng no_debug
    (λ _, []) true false false false (lit "burn") 0 sim_hw (device_of sim_factory) in
  d' = (handle_line (C := toy_aes) sample_planner no_verify Some sample_rng no_debug (λ _, WR_Success) true
    (lit "burn") 0 (device_of sim_factory)).2 ∧ says_fail outs = negb (says_ok outs).
Proof.
  pose proof (console_verdict (C := toy_aes) sample_planner no_verify Some (λ _, None) sample_rng no_debug
    (λ _, WR_Success) (λ _, []) true false false false (lit "burn") 0 sim_hw (device_of sim_factory)) as H.
  assert (∀ c, parse_command (lit "burn") = Ok c → is_network c = false) as Hn.
  { intros c Hc. vm_compute in Hc. by injection Hc as <-. }
  specialize (H Hn).
  destruct (handle_line _ _ _ _ _ _ _ (lit "burn") _ _) as [[r m] d'].
  destruct (handle_line_io _ _ _ _ _ _ _ _ _ _ _ (lit "burn") _ _ _) as [[[outs m1] hw1] d1].
  destruct H as (_ & -> & Hf & _). exact (conj eq_refl Hf).
Defined.

(** A burn on the simulated card and the two shapes of [uid], evaluated. *)
Definition transcript (text : list Z) (d : Device (Esp32 Sim)) : list (list Z) :=
  omap (λ o, match o with Line t => Some t | Show _ => None end)
    (handle_line_io (C := toy_aes) sample_planner no_verify Some (λ _, None) sample_rng no_debug (λ _, [])
       true false false false text 0 sim_hw d).1.1.1.

Example transcript_examples :
  transcript (lit "burn") (device_of sim_factory) = [lit "[OK] burn complete"] ∧
  transcript (lit "uid") (device_of sim_factory) = [lit "[FAIL] no uid"] ∧
  transcript (lit "i2cscan") (device_of sim_factory) = [lit "[OK] i2cscan: found 0x28, 0x34"] ∧
  transcript (lit "nonsense") (device_of sim_factory) = [lit "[FAIL] unknown command"].
Proof. vm_compute. done. Qed.

(** ** What fits the buffers *)

Lemma hex_parts_length uid : length (concat (hex2 <$> uid)) = (2 * length uid)%nat.
Proof. induction uid as [|b uid IH]; [done|]. rewrite fmap_cons. cbn [concat]. rewrite length_app, IH. simpl. lia. Qed.

Lemma push_uid_fits uid : (length uid ≤ 16)%nat → push_uid_hex uid = concat (hex2 <$> uid).
Proof. intros Hl. unfold push_uid_hex. by rewrite write_parts_fits by (rewrite hex_parts_length; simpl; lia). Qed.

Lemma show_bool_length b : (length (show_bool b) ≤ 5)%nat.
Proof. destruct b; simpl; lia. Qed.

Lemma say_ok_fits m : (length m ≤ 295)%nat → say_ok m = Line (lit "[OK] " ++ m).
Proof.
  intros Hl. unfold say_ok. rewrite write_parts_fits by (simpl; rewrite app_nil_r; lia). simpl. by rewrite app_nil_r.
Qed.

Lemma say_ok_overflow m : (295 < length m)%nat → say_ok m = Line (lit "[OK] ").
Proof.
  intros Hl. unfold say_ok. cbn [write_parts]. unfold push_str. rewrite decide_True by (simpl; lia).
  rewrite decide_False by (simpl; lia). done.
Qed.

Definition full_status (ready : bool) (uid url : list Z) : list Z :=
  concat [lit "nfc_ready="; show_bool ready; lit " uid="; concat (hex2 <$> uid); lit " lnurl="; url].

Lemma status_text_full ready uid url :
  length uid = 7%nat → (length url ≤ 256)%nat →
  status_text (mkServiceStatus (Some uid) ready (Some url)) = full_status ready uid url.
Proof.
  intros Hu Hl. unfold status_text. cbn [ss_last_uid Workflow.ss_nfc_ready ss_lnurl].
  rewrite push_uid_fits by lia. rewrite decide_False.
  2:{ intros He. apply (f_equal length) in He. rewrite hex_parts_length in He. simpl in He. lia. }
  rewrite write_parts_fits; [done|]. pose proof (hex_parts_length uid) as Hx.
  cbn [concat]. rewrite !length_app, Hx. simpl.
  pose proof (show_bool_length ready). lia.
Qed.

Lemma full_status_length ready uid url :
  length uid = 7%nat → length (full_status ready uid url) = (if ready then 40 + length url else 41 + length url)%nat.
Proof.
  intros Hu. unfold full_status. cbn [concat]. rewrite !length_app, hex_parts_length, Hu.
  destruct ready; simpl; lia.
Qed.

(** The status reply carries the whole URL template up to 254 bytes; for the
    longest one, 256 bytes, the reply is the bare word OK. *)
Theorem status_reply_complete ready uid url :
  length uid = 7%nat → (length url ≤ 256)%nat →
  print_status (mkServiceStatus (Some uid) ready (Some url)) !! 0%nat =
    Some (Line (lit "[OK] " ++ if decide (length (full_status ready uid url) ≤ 295)%nat
                              then full_status ready uid url else [])).
Proof.
  intros Hu Hl. unfold print_status. rewrite status_text_full by done. cbn [lookup list_lookup].
  generalize (full_status ready uid url). intros text. case_decide; [by rewrite say_ok_fits by lia|]. by rewrite say_ok_overflow by lia.
Qed.

Lemma longest_url_status uid url ready :
  length uid = 7%nat → length url = 256%nat →
  print_status (mkServiceStatus (Some uid) ready (Some url)) !! 0%nat = Some (Line (lit "[OK] ")).
Proof.
  intros Hu Hl. rewrite status_reply_complete by (done || lia). pose proof (full_status_length ready uid url Hu).
  rewrite decide_False; [by rewrite app_nil_r|]. destruct ready; lia.
Qed.

(** A bus on which every address answers, as one held low does. *)
Example stuck_bus_scan : say_ok (i2c_scan_text SCAN_RANGE) = Line (lit "[OK] ").
Proof. vm_compute. done. Qed.

(** [token] is a command that the help never mentions, whatever the features. *)
Lemma help_omits_token has_buttons has_wifi has_rest has_ota :
  existsb (λ o, match o with Line t => contains (lit "token") t | Show _ => false end)
    (print_help has_buttons has_wifi has_rest has_ota) = false ∧
  parse_command (lit "token secret") = Ok (Cmd_SetToken (Some (lit "secret"))).
Proof. by destruct has_buttons, has_wifi, has_rest, has_ota; vm_compute. Qed.
