(* ===== verification/CertGen.v ===== *)
(** * The device's own TLS certificate

    [apps/bolty-esp32/src/cert_gen.rs] (an RSA-2048 key and a self-signed
    certificate made with mbedTLS) and [run_provision_cert] of [firmware.rs],
    which stores them in flash.  mbedTLS is the interface [MbedTls]: what it
    returns is arbitrary, and every call made of it is recorded in order, so that
    the life of its four contexts and the certificate they describe can be read
    off the record. *)

From stdpp Require Import list.
From S2P Require Import Prelude Str Hex Serial Nvs.

(** ** mbedTLS *)

Inductive Ctx : Type := Entropy | CtrDrbg | Pk | Crt.

#[export] Instance Ctx_eq_dec : EqDecision Ctx.
Proof. solve_decision. Defined.

(** A call, with the arguments that matter; [C_fill_random] is the hardware
    random generator, which needs no context. *)
Inductive Call : Type :=
| C_init (c : Ctx)
| C_free (c : Ctx)
| C_ctr_drbg_seed (label : list Z)
| C_pk_info_from_type
| C_pk_setup
| C_rsa_gen_key (bits exponent : Z)
| C_set_version (version : Z)
| C_fill_random (n : nat)
| C_set_serial_raw (serial : list Z)
| C_set_validity (not_before not_after : list Z)
| C_set_issuer_name (name : list Z)
| C_set_subject_name (name : list Z)
| C_set_subject_key (key : Ctx)
| C_set_issuer_key (key : Ctx)
| C_set_md_alg_sha256
| C_set_subject_key_identifier
| C_set_authority_key_identifier
| C_set_basic_constraints (is_ca max_pathlen : Z)
| C_crt_der (size : nat)
| C_write_key_der (size : nat).

(** The contexts a call reads or writes; a generator seeded from an entropy
    context draws on it again whenever it is used. *)
Definition uses (c : Call) : list Ctx :=
  match c with
  | C_init _ | C_free _ | C_pk_info_from_type | C_fill_random _ => []
  | C_ctr_drbg_seed _ => [CtrDrbg; Entropy]
  | C_pk_setup => [Pk]
  | C_rsa_gen_key _ _ => [Pk; CtrDrbg; Entropy]
  | C_set_subject_key key | C_set_issuer_key key => [Crt; key]
  | C_set_version _ | C_set_serial_raw _ | C_set_validity _ _ | C_set_issuer_name _
  | C_set_subject_name _ | C_set_md_alg_sha256 | C_set_basic_constraints _ _ => [Crt]
  | C_set_subject_key_identifier | C_set_authority_key_identifier => [Crt; Pk]
  | C_crt_der _ => [Crt; Pk; CtrDrbg; Entropy]
  | C_write_key_der _ => [Pk]
  end.

(** What a certificate context holds after a series of calls. *)
Record Template : Type := mkTemplate {
  tp_version : option Z;
  tp_serial : option (list Z);
  tp_validity : option (list Z * list Z);
  tp_issuer : option (list Z);
  tp_subject : option (list Z);
  tp_issuer_key : option Ctx;
  tp_subject_key : option Ctx;
  tp_sha256 : bool;
  tp_subject_key_id : bool;
  tp_authority_key_id : bool;
  tp_basic_constraints : option (Z * Z) }.

Definition no_template : Template := mkTemplate None None None None None None None false false false None.

Definition set_field (c : Call) (t : Template) : Template :=
  let '(mkTemplate v s d i n ik sk m si ai bc) := t in
  match c with
  | C_init Crt => no_template
  | C_set_version x => mkTemplate (Some x) s d i n ik sk m si ai bc
  | C_set_serial_raw x => mkTemplate v (Some x) d i n ik sk m si ai bc
  | C_set_validity x y => mkTemplate v s (Some (x, y)) i n ik sk m si ai bc
  | C_set_issuer_name x => mkTemplate v s d (Some x) n ik sk m si ai bc
  | C_set_subject_name x => mkTemplate v s d i (Some x) ik sk m si ai bc
  | C_set_issuer_key x => mkTemplate v s d i n (Some x) sk m si ai bc
  | C_set_subject_key x => mkTemplate v s d i n ik (Some x) m si ai bc
  | C_set_md_alg_sha256 => mkTemplate v s d i n ik sk true si ai bc
  | C_set_subject_key_identifier => mkTemplate v s d i n ik sk m true ai bc
  | C_set_authority_key_identifier => mkTemplate v s d i n ik sk m si true bc
  | C_set_basic_constraints x y => mkTemplate v s d i n ik sk m si ai (Some (x, y))
  | _ => t
  end.

Definition template_of (calls : list Call) : Template := foldl (flip set_field) no_template calls.

(** The library over a state [H]: the return code of a call, random bytes, and
    the two serialisers, which return what they report as written and the buffer
    they were given, filled from its end. *)
Class MbedTls (H : Type) : Type := {
  mb_rc : Call → H → Z * H;
  mb_random : nat → H → list Z * H;
  mb_crt_der : Template → nat → H → Z * list Z * H;
  mb_key_der : nat → H → Z * list Z * H }.

(** ** cert_gen.rs *)

Definition RSA_KEY_BITS : Z := 2048.
Definition RSA_EXPONENT : Z := 65537.
Definition DER_BUF_SIZE : nat := 4096.

(** [CG_Panic] is the slice [buf[buf.len() - written..]] out of range. *)
Inductive CertGenError : Type := CG_Error (code : Z) (context : list Z) | CG_Panic.

Section cert_gen.
  Context {H : Type} {MB : MbedTls H}.

(** The library's state and the calls made so far. *)
Definition St : Type := H * list Call.

Definition call (c : Call) (s : St) : Z * St :=
  let '(rc, h) := mb_rc c s.1 in (rc, (h, s.2 ++ [c])).

(** A call whose result is not looked at. *)
Definition run (c : Call) : M St CertGenError () := λ s, (Ok (), (call c s).2).

Fixpoint free_all (cs : list Ctx) (s : St) : St :=
  match cs with
  | [] => s
  | c :: cs => free_all cs (call (C_free c) s).2
  end.

(** [if rc != ESP_OK { free...; return Err(err(rc, context)); }] *)
Definition check (c : Call) (cleanup : list Ctx) (context : list Z) : M St CertGenError () := λ s,
  let '(rc, s) := call c s in
  if decide (rc = 0) then (Ok (), s) else (Err (CG_Error rc context), free_all cleanup s).

(** [mbedtls_pk_info_from_type] returns a pointer, null for an unknown type. *)
Definition check_pk_info (cleanup : list Ctx) : M St CertGenError () := λ s,
  let '(pointer, s) := call C_pk_info_from_type s in
  if decide (pointer = 0)
  then (Err (CG_Error (-1) (lit "pk_info_from_type")), free_all cleanup s) else (Ok (), s).

Definition random_bytes (n : nat) : M St CertGenError (list Z) := λ s,
  let '(b, h) := mb_random n s.1 in (Ok b, (h, s.2 ++ [C_fill_random n])).

(** The sign bit of the first byte is cleared if it is set. *)
Definition positive_serial (serial : list Z) : list Z :=
  match serial with
  | b :: rest => (if decide (Z.land b 0x80 ≠ 0) then Z.land b 0x7f else b) :: rest
  | [] => []
  end.

(** A serialiser's result: an error is cleaned up after, otherwise the last
    [written] bytes of the buffer are copied out. *)
Definition copy_out (written : Z) (buf : list Z) (cleanup : list Ctx) (context : list Z) :
    M St CertGenError (list Z) := λ s,
  if decide (written < 0) then (Err (CG_Error written context), free_all cleanup s)
  else if decide (Z.of_nat (length buf) < written) then (Err CG_Panic, s)
  else (Ok (drop (length buf - Z.to_nat written) buf), s).

Definition crt_der (cleanup : list Ctx) : M St CertGenError (list Z) := λ s,
  let '(written, buf, h) := mb_crt_der (template_of s.2) DER_BUF_SIZE s.1 in
  copy_out written buf cleanup (lit "x509write_crt_der") (h, s.2 ++ [C_crt_der DER_BUF_SIZE]).

Definition key_der (cleanup : list Ctx) : M St CertGenError (list Z) := λ s,
  let '(written, buf, h) := mb_key_der DER_BUF_SIZE s.1 in
  copy_out written buf cleanup (lit "pk_write_key_der") (h, s.2 ++ [C_write_key_der DER_BUF_SIZE]).

Definition cleanup_with {A} (a : A) (cs : list Ctx) : M St CertGenError A := λ s, (Ok a, free_all cs s).

Definition generate_self_signed_cert : M St CertGenError (list Z * list Z) :=
  _ ← run (C_init Entropy);
  _ ← run (C_init CtrDrbg);
  _ ← check (C_ctr_drbg_seed (lit "bolty_cert_gen" ++ [0])) [CtrDrbg; Entropy] (lit "ctr_drbg_seed");
  _ ← run (C_init Pk);
  _ ← check_pk_info [Pk; CtrDrbg; Entropy];
  _ ← check C_pk_setup [Pk; CtrDrbg; Entropy] (lit "pk_setup");
  _ ← check (C_rsa_gen_key RSA_KEY_BITS RSA_EXPONENT) [Pk; CtrDrbg; Entropy] (lit "rsa_gen_key");
  _ ← run (C_init Crt);
  _ ← run (C_set_version 2);
  serial ← random_bytes 16;
  _ ← check (C_set_serial_raw (positive_serial serial)) [Crt; Pk; CtrDrbg; Entropy] (lit "set_serial_raw");
  _ ← check (C_set_validity (lit "20260101000000") (lit "20360101000000")) [Crt; Pk; CtrDrbg; Entropy]
        (lit "set_validity");
  _ ← check (C_set_issuer_name (lit "CN=bolty")) [Crt; Pk; CtrDrbg; Entropy] (lit "set_issuer_name");
  _ ← check (C_set_subject_name (lit "CN=bolty")) [Crt; Pk; CtrDrbg; Entropy] (lit "set_subject_name");
  _ ← run (C_set_subject_key Pk);
  _ ← run (C_set_issuer_key Pk);
  _ ← run C_set_md_alg_sha256;
  _ ← check C_set_subject_key_identifier [Crt; Pk; CtrDrbg; Entropy] (lit "set_subject_key_id");
  _ ← check C_set_authority_key_identifier [Crt; Pk; CtrDrbg; Entropy] (lit "set_auth_key_id");
  _ ← check (C_set_basic_constraints 0 (-1)) [Crt; Pk; CtrDrbg; Entropy] (lit "set_basic_constraints");
  cert ← crt_der [Crt; Pk; CtrDrbg; Entropy];
  key ← key_der [Crt; Pk; CtrDrbg; Entropy];
  cleanup_with (cert, key) [Crt; Pk; CtrDrbg; Entropy].
End cert_gen.
Arguments St : clear implicits.

(** ** What is promised *)

(** Contexts in the order of their initialisation, last first.  A context is
    initialised once, is in that list whenever it is used, and is freed as the
    last one initialised. *)
Definition ctx_step (live : list Ctx) (c : Call) : option (list Ctx) :=
  match c with
  | C_init x => if decide (x ∈ live) then None else Some (x :: live)
  | C_free x => match live with y :: live => if decide (x = y) then Some live else None | [] => None end
  | c => if decide (Forall (λ x, x ∈ live) (uses c)) then Some live else None
  end.

Fixpoint ctx_run (live : list Ctx) (cs : list Call) : option (list Ctx) :=
  match cs with
  | [] => Some live
  | c :: cs => live ← ctx_step live c; ctx_run live cs
  end.

(** The certificate the firmware means to make with a serial number. *)
Definition bolty_template (serial : list Z) : Template :=
  mkTemplate (Some 2) (Some serial) (Some (lit "20260101000000", lit "20360101000000"))
    (Some (lit "CN=bolty")) (Some (lit "CN=bolty")) (Some Pk) (Some Pk) true true true (Some (0, -1)).

(** The documentation of the serialisers: a non-negative result is the length of
    the encoding, which ends where the buffer ends. [mb_cert_bytes] and
    [mb_key_bytes] are the encodings. *)
Class MbedTlsLaws {H} (MB : MbedTls H) : Type := {
  mb_cert_bytes : H → Template → list Z;
  mb_key_bytes : H → list Z;
  law_random n h : array n (mb_random n h).1;
  law_crt_der t n h : let '(written, buf, _) := mb_crt_der t n h in
    0 ≤ written → ∃ pre, buf = pre ++ mb_cert_bytes h t ∧ written = Z.of_nat (length (mb_cert_bytes h t));
  law_key_der n h : let '(written, buf, _) := mb_key_der n h in
    0 ≤ written → ∃ pre, buf = pre ++ mb_key_bytes h ∧ written = Z.of_nat (length (mb_key_bytes h)) }.

Section cert_facts.
  Context {H : Type} {MB : MbedTls H}.

  Local Notation S := (St H).

Lemma call_trace c (s : S) : (call c s).2.2 = s.2 ++ [c].
Proof. unfold call. by destruct (mb_rc c s.1). Qed.

Lemma free_all_trace cs (s : S) : (free_all cs s).2 = s.2 ++ (C_free <$> cs).
Proof.
  revert s. induction cs as [|c cs IH]; intros s; simpl; [by rewrite app_nil_r|].
  rewrite IH, call_trace, <- app_assoc. done.
Qed.

Lemma wp_run_call c (Q : result () CertGenError → S → Prop) h t :
  (∀ h', Q (Ok ()) (h', t ++ [c])) → wp (run c) Q (h, t).
Proof.
  intros HQ. unfold wp, run. pose proof (call_trace c (h, t)) as Ht. simpl in *.
  destruct (call c (h, t)) as [rc [h' t']]. simpl in *. subst. apply HQ.
Qed.

Lemma wp_check c cleanup context (Q : result () CertGenError → S → Prop) h t :
  (∀ h', Q (Ok ()) (h', t ++ [c])) →
  (∀ h' rc, rc ≠ 0 → Q (Err (CG_Error rc context)) (h', (t ++ [c]) ++ (C_free <$> cleanup))) →
  wp (check c cleanup context) Q (h, t).
Proof.
  intros Hok Herr. unfold wp, check. pose proof (call_trace c (h, t)) as Ht.
  destruct (call c (h, t)) as [rc [h' t']]. simpl in *. subst. case_decide; simpl; [apply Hok|].
  pose proof (free_all_trace cleanup (h', t ++ [c])) as Hf. destruct (free_all cleanup _) as [h2 t2].
  simpl in Hf. subst. by apply Herr.
Qed.

Lemma wp_check_pk_info cleanup (Q : result () CertGenError → S → Prop) h t :
  (∀ h', Q (Ok ()) (h', t ++ [C_pk_info_from_type])) →
  (∀ h', Q (Err (CG_Error (-1) (lit "pk_info_from_type")))
           (h', (t ++ [C_pk_info_from_type]) ++ (C_free <$> cleanup))) →
  wp (check_pk_info cleanup) Q (h, t).
Proof.
  intros Hok Herr. unfold wp, check_pk_info. pose proof (call_trace C_pk_info_from_type (h, t)) as Ht.
  destruct (call C_pk_info_from_type (h, t)) as [p [h' t']]. simpl in *. subst.
  case_decide; simpl; [|apply Hok].
  pose proof (free_all_trace cleanup (h', t ++ [C_pk_info_from_type])) as Hf.
  destruct (free_all cleanup _) as [h2 t2]. simpl in Hf. subst. apply Herr.
Qed.

Lemma wp_random n (L : MbedTlsLaws MB) (Q : result (list Z) CertGenError → S → Prop) h t :
  (∀ b h', array n b → Q (Ok b) (h', t ++ [C_fill_random n])) → wp (random_bytes n) Q (h, t).
Proof.
  intros HQ. unfold wp, random_bytes. pose proof (law_random n h) as Hr. simpl.
  destruct (mb_random n h) as [b h']. by apply HQ.
Qed.

(** A serialiser that follows its documentation is copied out in full and
    without a panic. *)
Lemma copy_out_exact (bytes_of pre buf : list Z) written cleanup context (Q : result (list Z) CertGenError → S → Prop) h t :
  (0 ≤ written → buf = pre ++ bytes_of ∧ written = Z.of_nat (length bytes_of)) →
  Q (Ok bytes_of) (h, t) →
  (∀ h' , written < 0 → Q (Err (CG_Error written context)) (h', t ++ (C_free <$> cleanup))) →
  wp (copy_out written buf cleanup context) Q (h, t).
Proof.
  intros Hw Hok Herr. unfold wp, copy_out. case_decide; simpl.
  - pose proof (free_all_trace cleanup (h, t)) as Hf. destruct (free_all cleanup _) as [h2 t2].
    simpl in Hf. subst. by apply Herr.
  - destruct Hw as [-> ->]; [lia|]. rewrite length_app, decide_False by lia. simpl.
    replace (length pre + length bytes_of - Z.to_nat (Z.of_nat (length bytes_of)))%nat with (length pre) by lia.
    by rewrite drop_app_length.
Qed.

Lemma wp_crt_der (L : MbedTlsLaws MB) cleanup (Q : result (list Z) CertGenError → S → Prop) h t :
  (∀ h', Q (Ok (mb_cert_bytes h (template_of t))) (h', t ++ [C_crt_der DER_BUF_SIZE])) →
  (∀ h' rc, rc < 0 → Q (Err (CG_Error rc (lit "x509write_crt_der")))
              (h', (t ++ [C_crt_der DER_BUF_SIZE]) ++ (C_free <$> cleanup))) →
  wp (crt_der cleanup) Q (h, t).
Proof.
  intros Hok Herr. pose proof (law_crt_der (template_of t) DER_BUF_SIZE h) as Hl. unfold crt_der, wp.
  simpl. destruct (mb_crt_der _ _ _) as [[w buf] h'].
  destruct (decide (0 ≤ w)) as [Hw|Hw].
  - destruct (Hl Hw) as (pre & Hb & Hn). apply (copy_out_exact (mb_cert_bytes h (template_of t)) pre); auto.
  - apply (copy_out_exact (mb_cert_bytes h (template_of t)) []); auto. lia.
Qed.

Lemma wp_key_der (L : MbedTlsLaws MB) cleanup (Q : result (list Z) CertGenError → S → Prop) h t :
  (∀ h', Q (Ok (mb_key_bytes h)) (h', t ++ [C_write_key_der DER_BUF_SIZE])) →
  (∀ h' rc, rc < 0 → Q (Err (CG_Error rc (lit "pk_write_key_der")))
              (h', (t ++ [C_write_key_der DER_BUF_SIZE]) ++ (C_free <$> cleanup))) →
  wp (key_der cleanup) Q (h, t).
Proof.
  intros Hok Herr. pose proof (law_key_der DER_BUF_SIZE h) as Hl. unfold key_der, wp.
  simpl. destruct (mb_key_der _ _) as [[w buf] h'].
  destruct (decide (0 ≤ w)) as [Hw|Hw].
  - destruct (Hl Hw) as (pre & Hb & Hn). apply (copy_out_exact (mb_key_bytes h) pre); auto.
  - apply (copy_out_exact (mb_key_bytes h) []); auto. lia.
Qed.

Lemma positive_serial_sound serial :
  array 16 serial → array 16 (positive_serial serial) ∧ ∃ b rest, positive_serial serial = b :: rest ∧ 0 ≤ b < 128.
Proof.
  intros [Hl Hb]. destruct serial as [|b rest]; [done|]. apply Forall_cons in Hb as [Hb Hr].
  assert (0 ≤ Z.land b 0x7f < 128) as H7.
  { change 0x7f with (Z.ones 7). rewrite Z.land_ones by lia. apply Z.mod_pos_bound. lia. }
  assert (Z.land b 0x80 = 0 → b < 128) as H8.
  { intros H0. destruct (decide (b < 128)) as [|Hge]; [done|].
    assert (Z.testbit (Z.land b 0x80) 7 = true) as Ht; [|by rewrite H0, Z.bits_0 in Ht].
    rewrite Z.land_spec. change (Z.testbit 0x80 7) with true. rewrite andb_true_r.
    apply Z.testbit_true; [lia|]. unfold is_u8 in Hb. change (2 ^ 8) with 256 in Hb.
    replace (b `div` 2 ^ 7) with 1; [done|]. apply Z.div_unique with (b - 128); lia. }
  unfold is_u8 in Hb. unfold array, bytes. simpl. split.
  - split; [done|]. constructor; [|done]. unfold is_u8. case_decide; lia.
  - eexists _, _. split; [done|]. case_decide as Hc; [lia|]. split; [lia|]. apply H8.
    by destruct (decide (Z.land b 0x80 = 0)).
Qed.

Ltac cg_step :=
  first [ apply wp_run_call; intros ?
        | apply wp_check; [intros ?|intros ? ? ?; split; [by vm_compute|done]]
        | apply wp_check_pk_info; [intros ?|intros ?; split; [by vm_compute|done]] ].

(** What [generate_self_signed_cert] leaves behind. *)
Definition generated (L : MbedTlsLaws MB) (r : result (list Z * list Z) CertGenError) (s : S) : Prop :=
  ctx_run [] s.2 = Some [] ∧
  match r with
  | Ok (cert, key) => ∃ serial b rest h h', array 16 serial ∧ serial = b :: rest ∧ 0 ≤ b < 128 ∧
      cert = mb_cert_bytes h (bolty_template serial) ∧ key = mb_key_bytes h'
  | Err (CG_Error code _) => code ≠ 0
  | Err CG_Panic => False
  end.

Lemma generate_sound (L : MbedTlsLaws MB) (h : H) : wp generate_self_signed_cert (generated L) (h, []).
Proof.
  unfold generate_self_signed_cert.
  do 9 (apply wp_bind; cg_step).
  apply wp_bind. apply (wp_random 16 L). intros random h1 Hr.
  destruct (positive_serial_sound random Hr) as (Hs & b & rest & Hb & Hlt).
  generalize dependent (positive_serial random). intros serial Hs Hb.
  do 10 (apply wp_bind; cg_step).
  apply wp_bind, (wp_crt_der L); [intros h2|intros ? ? ?; split; [by vm_compute|lia]].
  apply wp_bind, (wp_key_der L); [intros h3|intros ? ? ?; split; [by vm_compute|lia]].
  unfold wp, cleanup_with. cbn [fst snd]. split; [rewrite free_all_trace; by vm_compute|].
  simpl. exists serial, b, rest. eexists _, _. split_and!; try done; [lia|lia].
Qed.
End cert_facts.

(** ** provision-cert *)

(** [{:#x}] of an [i32]: the digits of its two's complement. *)
Fixpoint show_hex_digits (fuel : nat) (z : Z) : list Z :=
  match fuel with
  | O => []
  | S fuel => (if decide (z < 16) then [] else show_hex_digits fuel (z / 16)) ++ [hex_digit (z mod 16)]
  end.
Definition show_hex (code : Z) : list Z := lit "0x" ++ show_hex_digits 8 (u32 code).

Definition cert_error_text (code : Z) (context : list Z) : list Z :=
  lit "cert generation failed at " ++ context ++ lit " (mbedTLS error " ++ show_hex code ++ lit ")".

(** The fingerprint: two digits a byte, separated by colons, in a [String<128>]. *)
Fixpoint push_fingerprint (first : bool) (hash out : list Z) : list Z :=
  match hash with
  | [] => out
  | b :: hash =>
      let out := if first then out else put 128 out (lit ":") in
      push_fingerprint false hash (put 128 out (hex2 b))
  end.

Definition fingerprint (hash : list Z) : list Z :=
  push_fingerprint true hash (lit "[CERT] SHA-256 fingerprint:" ++ [10] ++ lit "  ").

Section provision.
  Context {H : Type} {MB : MbedTls H} {F : Type} {N : NvsApi F}.
  (** [mbedtls_sha256]; [None] is a non-zero return code. *)
  Context (sha256 : list Z → option (list Z)).

(** [None] is the panic of the certificate generator. *)
Definition run_provision_cert (s : Flash F) (m : St H) : option (list Out) * Flash F * St H :=
  let start := Line (lit "[CERT] Generating RSA-2048 self-signed certificate...") in
  match generate_self_signed_cert m with
  | (Err CG_Panic, m) => (None, s, m)
  | (Err (CG_Error code context), m) =>
      (Some [start; say_fail (lit "[CERT] " ++ cert_error_text code context)], s, m)
  | (Ok (cert, key), m) =>
      let made := Line (lit "[CERT] Generated: cert=" ++ show_uint (Z.of_nat (length cert)) ++ lit " bytes, key=" ++
                        show_uint (Z.of_nat (length key)) ++ lit " bytes") in
      match save_cert_der cert key s with
      | (false, s) => (Some [start; made; say_fail (lit "[CERT] Failed to store in NVS")], s, m)
      | (true, s) =>
          (Some ([start; made] ++
             match sha256 cert with
             | None => [say_fail (lit "[CERT] SHA-256 computation failed")]
             | Some hash =>
                 [Line (fingerprint hash);
                  say_ok (lit "certificate provisioned — REST API now available");
                  Line (lit "[CERT] Reconnect WiFi or reboot to start HTTPS server")]
             end), s, m)
      end
  end.
End provision.

(** What a reader of the transcript may conclude. *)
Section provision_facts.
  Context {H : Type} {MB : MbedTls H} {F : Type} {N : NvsApi F} {L : NvsLaws N}.
  Context (sha256 : list Z → option (list Z)).

(** Provisioning a certificate, for any behaviour of mbedTLS and of the flash:
    the routine does not panic; each of the four mbedTLS contexts is initialised
    once, is alive whenever a call uses it, and is freed exactly once, in reverse
    order, on every path; and if the console says OK, the flash durably holds, and
    the HTTPS server will load, the DER encodings of a self-signed version 3
    certificate (issuer and subject bolty, the same key for both, SHA-256, not a
    certification authority, a positive 16-byte serial number) and of its key. *)
Theorem provision_cert_sound (ML : MbedTlsLaws MB) (LL : NvsLive L) (s : Flash F) (h : H) :
  (∀ h t, mb_cert_bytes h t ≠ []) → (∀ h, mb_key_bytes h ≠ []) →
  let '(outs, s', m') := run_provision_cert sha256 s (h, []) in
  ctx_run [] m'.2 = Some [] ∧
  ∃ lines, outs = Some lines ∧
  (says_ok lines = true → ∃ serial b rest h1 h2,
     array 16 serial ∧ serial = b :: rest ∧ 0 ≤ b < 128 ∧
     let cert := mb_cert_bytes h1 (bolty_template serial) in
     fdurable s' (lit "certder") = Some (V_blob cert) ∧
     fdurable s' (lit "keyder") = Some (V_blob (mb_key_bytes h2)) ∧
     (server_cert_and_key s').1 = Some (cert, mb_key_bytes h2)).
Proof.
  intros Hcn Hkn. pose proof (generate_sound ML h) as Hg. unfold wp in Hg. unfold run_provision_cert.
  destruct (generate_self_signed_cert (h, [])) as [[[cert key]|[code context|]] m]; destruct Hg as [Hrun Hr];
    simpl in Hrun, Hr; [|split; [done|]; eexists; split; [done|]|done].
  2:{ unfold says_ok. cbn [existsb]. repeat verdict_line. done. }
  destruct Hr as (serial & b & rest & h1 & h2 & Ha & Hs & Hb & -> & ->).
  destruct (save_cert_der _ _ s) as [[] s'] eqn:Es; (split; [done|]); (eexists; split; [done|]).
  2:{ unfold says_ok. cbn [existsb]. repeat verdict_line. done. }
  intros _. exists serial, b, rest, h1, h2. split; [done|]. split; [done|]. split; [done|].
  apply save_cert_true in Es as (Hcl & Hkl & [Hsc Hsk] & [Hdc Hdk]). split; [done|]. split; [done|].
  by apply load_cert_live.
Qed.
End provision_facts.

(** ** A simulated mbedTLS

    The state is the call that fails, if any; the encodings are short. *)

Definition sim_mb_rc (fails : option nat) (c : Call) (made : nat) : Z :=
  match c with
  | C_pk_info_from_type => 0x3f400000
  | _ => if decide (fails = Some made) then -0x4380 else 0
  end.

(** The failing call, by its number, and the calls made. *)
Record SimMb : Type := mkSimMb { mb_fails : option nat; mb_made : nat }.

Definition mb_next (h : SimMb) : SimMb := mkSimMb (mb_fails h) (S (mb_made h)).

Definition sim_cert_bytes (_ : SimMb) (t : Template) : list Z := [0x30; 0x82] ++ default [] (tp_serial t).
Definition sim_key_bytes (_ : SimMb) : list Z := [0x30; 0x04; 7; 7; 7; 7].

#[export] Instance sim_mb : MbedTls SimMb := {|
  mb_rc c h := (sim_mb_rc (mb_fails h) c (mb_made h), mb_next h);
  mb_random n h := (replicate n 0x81, mb_next h);
  mb_crt_der t n h :=
    let der := sim_cert_bytes h t in
    (Z.of_nat (length der), replicate (n - length der) 0 ++ der, mb_next h);
  mb_key_der n h :=
    let der := sim_key_bytes h in (Z.of_nat (length der), replicate (n - length der) 0 ++ der, mb_next h) |}.

#[export] Instance sim_mb_laws : MbedTlsLaws sim_mb.
Proof.
  refine {| mb_cert_bytes := sim_cert_bytes; mb_key_bytes := sim_key_bytes |}.
  - intros n h. split; simpl; [apply length_replicate|]. apply Forall_replicate. unfold is_u8. lia.
  - intros t n h. simpl. eauto.
  - intros n h. simpl. eauto.
Defined.

Definition provisioned : option (list Out) * Flash SimFlash * St SimMb :=
  run_provision_cert (λ _, Some (replicate 32 0xAB)) (fresh_flash 8) (mkSimMb None 0, []).

Lemma provision_cert_sound_witness :
  ctx_run [] provisioned.2.2 = Some [] ∧
  ∃ serial, (server_cert_and_key provisioned.1.2).1 =
    Some (sim_cert_bytes (mkSimMb None 0) (bolty_template serial), sim_key_bytes (mkSimMb None 0)).
Proof.
  pose proof (provision_cert_sound (λ _, Some (replicate 32 0xAB)) sim_mb_laws sim_nvs_live (fresh_flash 8)
    (mkSimMb None 0)) as Hp.
  specialize (Hp ltac:(discriminate) ltac:(discriminate)).
  assert (says_ok <$> provisioned.1.1 = Some true) as Hv by (vm_compute; reflexivity).
  unfold provisioned in *. destruct (run_provision_cert _ _ _) as [[outs s'] m'].
  destruct Hp as (Hrun & lines & Hl & Hok). split; [exact Hrun|].
  cbn [fst snd] in Hv. rewrite Hl in Hv. injection Hv as Hs.
  destruct (Hok Hs) as (serial & b & rest & h1 & h2 & _ & _ & _ & _ & _ & Hload). exists serial. exact Hload.
Defined.

(** Every call that can fail, made to fail: all contexts are freed, nothing is
    stored, and the console says so. *)
Example provision_failures :
  forallb (λ n,
    let '(outs, s, m) := run_provision_cert (λ _, Some []) (fresh_flash 8) (mkSimMb (Some n) 0, []) in
    bool_decide (ctx_run [] m.2 = Some []) &&
    (match outs with
     | Some lines => says_ok lines || bool_decide (fstored s (lit "certder") = None)
     | None => false
     end)) (seq 0 24) = true.
Proof. vm_compute. done. Qed.

(** The certificate is in place although the console says that provisioning
    failed: the fingerprint is computed after the pair was stored. *)
Example fingerprint_fails_late :
  let '(outs, s, _) := run_provision_cert (λ _, None) (fresh_flash 8) (mkSimMb None 0, []) in
  (says_fail <$> outs) = Some true ∧ (is_provisioned s).1 = true.
Proof. vm_compute. done. Qed.

(** The fingerprint of 32 bytes fits its buffer. *)
Lemma fingerprint_length hash : length hash = 32%nat → length (fingerprint hash) = 125%nat.
Proof.
  intros Hl. unfold fingerprint.
  assert (∀ (first : bool) (hash out : list Z), (length out + 3 * length hash ≤ 128 + if first then 1 else 0)%nat → hash ≠ [] →
    length (push_fingerprint first hash out) = (length out + 3 * length hash - if first then 1 else 0)%nat) as Hp.
  { clear. intros first hash. revert first. induction hash as [|b hash IH]; intros first out Hl Hn; [done|].
    cbn [push_fingerprint]. simpl in Hl.
    assert (length (put 128 (if first then out else put 128 out (lit ":")) (hex2 b)) =
      length out + 2 + if first then 0 else 1)%nat as Ho.
    { destruct first; rewrite ?(put_fits 128 out (lit ":")) by (simpl; lia);
        rewrite put_fits by (rewrite ?length_app; simpl; lia); rewrite ?length_app; simpl; lia. }
    destruct hash as [|c hash]; [cbn [push_fingerprint]; rewrite Ho; destruct first; simpl; lia|].
    rewrite IH; [rewrite Ho; destruct first; simpl; lia|rewrite Ho; destruct first; simpl in *; lia|done]. }
  rewrite Hp; [simpl; lia|simpl; lia|by intros ->].
Qed.
