(* ===== verification/Boot.v ===== *)
(** * Start-up of the M5 firmware

    The part of [main] in [apps/bolty-esp32/src/firmware.rs] before the loop, with
    the commands that report on it: which reader is found, which settings come
    back from flash, the boot counter and the crash record; [run_crashlog],
    [run_provision_ota_key] and [log_reset_reason] of [main.rs].

    Bringing up a driver is a parameter; the flash is the store of [Nvs]. *)

From S2P Require Import Prelude Str Hex Derivation Assessment Ndef NtagTypes Session Ntag NtagProofs Commands Console Workflow Esp32 Firmware FirmwareProofs Display Serial Nvs.

(** ** Reset reasons *)

(** [main.rs]: the names of [esp_reset_reason_t]. *)
Definition reset_name (r : Z) : list Z :=
  match r with
  | 0 => lit "UNKNOWN" | 1 => lit "POWERON" | 2 => lit "EXT" | 3 => lit "SW" | 4 => lit "PANIC"
  | 5 => lit "INT_WDT" | 6 => lit "TASK_WDT" | 7 => lit "WDT" | 8 => lit "DEEPSLEEP" | 9 => lit "BROWNOUT"
  | 10 => lit "SDIO" | 11 => lit "USB" | 12 => lit "JTAG" | 13 => lit "EFUSE" | 14 => lit "PWR_GLITCH"
  | 15 => lit "CPU_LOCKUP" | _ => lit "OTHER"
  end.

(** The line [log_reset_reason] logs. *)
Definition log_reset_reason (r : Z) : list Z :=
  lit "boot: reset reason " ++ show_uint r ++ lit " (" ++ reset_name r ++ lit ")".

(** [firmware.rs]: the label printed at boot and by [crashlog]. *)
Definition reset_label (r : Z) : list Z :=
  match r with
  | 1 => lit "POWERON" | 3 => lit "SW_RESET" | 4 => lit "PANIC" | 5 => lit "INT_WDT" | 6 => lit "TASK_WDT"
  | 7 => lit "WDT" | 8 => lit "DEEPSLEEP" | 9 => lit "BROWNOUT" | _ => lit "UNKNOWN"
  end.

Definition abnormal (r : Z) : bool := bool_decide (r ∈ [4; 5; 6; 7; 9]).

(** The label of a stored crash reason. *)
Definition crash_label (reason : Z) : list Z :=
  match reason with
  | 4 => lit "PANIC" | 5 => lit "INT_WDT" | 6 => lit "TASK_WDT" | 7 => lit "WDT" | 9 => lit "BROWNOUT"
  | _ => lit "UNKNOWN"
  end.

Definition u32_saturating_add (a b : Z) : Z := Z.min (2 ^ 32 - 1) (a + b).
Definition u32_saturating_sub (a b : Z) : Z := Z.max 0 (a - b).

(** ** The state after start-up *)

Record Booted (T B : Type) : Type := mkBooted {
  bt_service : Esp32 T;
  bt_hw : Hw B;
  bt_config : BoltyConfig;
  bt_nfc_ready : bool;
  bt_count : Z;
  bt_mode : Z;
  bt_out : list Out }.
Arguments mkBooted {T B} _ _ _ _ _ _ _.
Arguments bt_service {T B} _.
Arguments bt_hw {T B} _.
Arguments bt_config {T B} _.
Arguments bt_nfc_ready {T B} _.
Arguments bt_count {T B} _.
Arguments bt_mode {T B} _.
Arguments bt_out {T B} _.

Definition I2C_BAUDRATE_HZ : Z := 100000.

Section boot.
  Context {F : Type} {N : NvsApi F} {T B : Type} {IB : I2cBus B}.
  (** [Mfrc522Transceiver::from_i2c], which takes the bus. *)
  Context (from_i2c : B → option T).
  Context (nfc_i2c_addr : Z) (board_name build_epoch : list Z) (display_ok : bool).
  Context (has_buttons has_wifi has_rest has_ota : bool).

(** The scan, then the driver if the reader's address answered: what is found,
    the reader, the bus if it is still free. *)
Definition find_reader (i2c : B) : list Z * option T * option B :=
  let '(found, i2c) := scan_i2c_bus i2c in
  if existsb (λ a, bool_decide (a = nfc_i2c_addr)) found
  then (found, from_i2c i2c, None) else (found, None, Some i2c).

(** The default configuration with the template and the force flag from flash. *)
Definition restore_config (s : Flash F) : BoltyConfig * Flash F :=
  let '(url, s) := load_lnurl s in
  let '(force, s) := load_force_flag s in
  (mkBoltyConfig url None None None None None force, s).

(** [Esp32BoltyService::new], whose [sync_config] saves the template again. *)
Definition start_service (xcvr : option T) (cfg : BoltyConfig) (s : Flash F) : Esp32 T * Flash F :=
  (Esp32_new xcvr cfg (lnurl cfg),
   match lnurl cfg with Some url => (save_lnurl url s).2 | None => s end).

Definition count_boot (s : Flash F) : Z * Flash F :=
  let '(n, s) := load_boot_count s in
  let boot_count := u32_saturating_add n 1 in
  (boot_count, (save_boot_count boot_count s).2).

Definition record_crash (reason boot_count : Z) (s : Flash F) : Flash F :=
  if abnormal reason then (save_crash_info (u8 reason) (u32_saturating_sub boot_count 1) s).2 else s.

(** The stored button mode, if it is one, else simple. *)
Definition restore_mode (s : Flash F) : Z * Flash F :=
  if has_buttons then
    let '(saved, s) := load_button_mode s in
    (byte_of_button_mode (default Simple (saved ≫= ButtonMode_from_str)), s)
  else (0, s).

Definition diag_text (nfc_ready : bool) : list Z :=
  write_parts 256 []
    [lit "hw: board="; board_name; lit " i2c="; show_uint I2C_BAUDRATE_HZ; lit "Hz display=";
     if display_ok then lit "ok" else lit "FAIL"; lit " nfc="; if nfc_ready then lit "ok" else lit "missing"].

Definition scan_text (found : list Z) : list Z :=
  let text := lit "hw: i2c_scan=" in
  if decide (found = []) then put 128 text (lit "none") else push_addresses 128 (lit ",") true found text.

Definition boot_lines (count reason : Z) (nfc_ready cert : bool) (found : list Z) : list Out :=
  [Line (lit "[BOOT] #" ++ show_uint count ++ lit " reason=" ++ reset_label reason);
   Line (lit "[BOOT] firmware=ota-test-v1");
   Line (lit "[BOOT] built=" ++ build_epoch);
   Line (diag_text nfc_ready);
   Line (scan_text found)] ++
  (if has_rest
   then [Line (lit "hw: cert=" ++ if cert then lit "provisioned" else lit "NOT_PROVISIONED (run 'provision-cert')")]
   else []) ++
  print_boot_banner has_buttons has_wifi has_rest has_ota ++ [Show (Sc_Event (lit "ready"))].

(** Start-up, in the order of the code. *)
Definition boot (reason : Z) (i2c : B) (s : Flash F) : Booted T B * Flash F :=
  let '(found, xcvr, raw) := find_reader i2c in
  let nfc_ready := is_some xcvr in
  let '(cfg, s) := restore_config s in
  let '(svc, s) := start_service xcvr cfg s in
  let '(count, s) := count_boot s in
  let s := record_crash reason count s in
  let '(cert, s) := if has_rest then is_provisioned s else (false, s) in
  let '(mode, s) := restore_mode s in
  (mkBooted svc (mkHw raw found display_ok I2C_BAUDRATE_HZ) cfg nfc_ready count mode
     (Show (Sc_NfcReady nfc_ready) :: boot_lines count reason nfc_ready cert found), s).

(** The state the loop starts with; the marker of the rollback gate is installed
    before anything is served. *)
Definition loop_state (marker : () → Z) (b : Booted T B) : Firmware T :=
  mkFirmware (mkDevice (bt_service b) (bt_config b) (arm marker ValidityGate_new).2) LineAssembler_new false
    (force_unsafe (bt_config b)) (bt_mode b) Op_Idle JobSlot_new.

(** ** Commands on these settings *)

Definition run_crashlog (reason : Z) (s : Flash F) : list Out * Flash F :=
  let '(count, s) := load_boot_count s in
  let '(crash, s) := load_crash_info s in
  ([Line (lit "[CRASHLOG]");
    Line (lit "  Boot count: " ++ show_uint count);
    Line (lit "  This boot reason: " ++ reset_label reason);
    match crash with
    | Some (reason, prev_boot) =>
        Line (lit "  Last crash: " ++ crash_label reason ++ lit " on boot #" ++ show_uint prev_boot)
    | None => Line (lit "  Last crash: none")
    end;
    Line (lit "[CRASHLOG] END")], s).

(** One hexadecimal digit of the key, as the code matches it. *)
Definition key_nibble (c : Z) : option Z :=
  if decide (48 ≤ c ≤ 57) then Some (c - 48)
  else if decide (97 ≤ c ≤ 102) then Some (c - 97 + 10)
  else if decide (65 ≤ c ≤ 70) then Some (c - 65 + 10)
  else None.

(** The loop over the chunks of two; [None] is the invalid character. The byte
    missing from an odd chunk counts as zero, which is no digit. *)
Fixpoint key_bytes (i : nat) (hex key : list Z) : option (list Z) :=
  match hex with
  | [] => Some key
  | [c] => high ← key_nibble c; low ← key_nibble 0; Some (<[i := Z.lor (u8 (Z.shiftl high 4)) low]> key)
  | c :: d :: rest =>
      high ← key_nibble c;
      low ← key_nibble d;
      key_bytes (S i) rest (<[i := Z.lor (u8 (Z.shiftl high 4)) low]> key)
  end.

Definition run_provision_ota_key (key_hex : list Z) (s : Flash F) : list Out * Flash F :=
  if decide (length key_hex ≠ 64)%nat then ([say_fail (lit "expected 64-char hex Ed25519 public key")], s)
  else
    match key_bytes 0 key_hex (replicate 32 0) with
    | None => ([say_fail (lit "invalid hex character in key")], s)
    | Some key =>
        match save_ota_pubkey key s with
        | (false, s) => ([say_fail (lit "failed to store OTA key in NVS")], s)
        | (true, s) =>
            ([say_ok (lit "Ed25519 OTA signing key provisioned");
              Line (lit "[OTA] Signed firmware updates now require matching signature")], s)
        end
    end.
End boot.

(** ** What start-up keeps *)

Section boot_facts.
  Context {F : Type} {N : NvsApi F} {L : NvsLaws N} {T B : Type} {IB : I2cBus B}.
  Context (from_i2c : B → option T).
  Context (nfc_i2c_addr : Z) (board_name build_epoch : list Z) (display_ok : bool).
  Context (has_buttons has_wifi has_rest has_ota : bool).

  Local Notation start := (boot from_i2c nfc_i2c_addr board_name build_epoch display_ok
    has_buttons has_wifi has_rest has_ota).

(** Strings in the store are C strings. *)
Definition no_nul (o : option NvsValue) : Prop := ∀ t, o = Some (V_str t) → Forall (λ c, c ≠ 0) t.

(** What start-up may write: the template it loaded, the counter, the crash. *)
Definition boot_writes (url : option (list Z)) (reason count : Z) : list (list Z * NvsValue) :=
  match url with Some url => [(lit "lnurl", V_str url)] | None => [] end ++
  [(lit "bootcnt", V_u32 count)] ++
  (if abnormal reason
   then [(lit "crashrsn", V_u8 (u8 reason)); (lit "crashboot", V_u32 (u32_saturating_sub count 1))] else []).

Lemma op_writes W op (s : Flash F) : op_keys op = [] → writes W s (run_op op s).
Proof. intros Hk. apply within_writes. rewrite <- Hk. apply run_op_within. Qed.

Lemma writes_stored_other W k (s s' : Flash F) :
  writes W s s' → (∀ v, (k, v) ∉ W) → fstored s' k = fstored s k.
Proof. intros [_ Hk] HW. destruct (Hk k) as [[?|(v & Hv & _)] _]; [done|]. by destruct (HW v). Qed.

Lemma restore_config_facts (s : Flash F) :
  let '(cfg, s') := restore_config s in
  (∀ W, writes W s s') ∧ lnurl cfg = (load_lnurl s).1 ∧
  force_unsafe cfg = (load_force_flag (load_lnurl s).2).1 ∧
  (pending_keys cfg, pending_issuer cfg, rest_read_token cfg, rest_write_token cfg) = (None, None, None, None).
Proof.
  unfold restore_config. pose proof (λ W, op_writes W N_LoadLnurl s eq_refl) as W1. simpl in W1.
  destruct (load_lnurl s) as [url s1]. simpl in *.
  pose proof (λ W, op_writes W N_LoadForce s1 eq_refl) as W2. simpl in W2.
  destruct (load_force_flag s1) as [force s2]. simpl in *.
  split; [|done]. intros W. etransitivity; [apply W1|apply W2].
Qed.

Lemma start_service_writes W xcvr cfg (s : Flash F) :
  (∀ u, lnurl cfg = Some u → Forall (λ c, c ≠ 0) u ∧ (lit "lnurl", V_str u) ∈ W) →
  writes W s (start_service (T := T) xcvr cfg s).2.
Proof.
  intros Hu. unfold start_service. destruct (lnurl cfg) as [u|]; [|reflexivity]. destruct (Hu u eq_refl).
  eapply writes_mono; [|by apply save_str_writes]. set_solver.
Qed.

Lemma count_boot_writes W (s : Flash F) :
  (lit "bootcnt", V_u32 (count_boot s).1) ∈ W → writes W s (count_boot s).2.
Proof.
  unfold count_boot. pose proof (op_writes W N_LoadBoot s eq_refl) as W1. simpl in W1.
  destruct (load_boot_count s) as [n s1]. simpl in *. intros HW. etransitivity; [exact W1|].
  eapply writes_mono; [|apply save_num_writes]. set_solver.
Qed.

Lemma record_crash_writes url reason count (s : Flash F) :
  writes (boot_writes url reason count) s (record_crash reason count s).
Proof.
  unfold record_crash, boot_writes. destruct (abnormal reason); [|reflexivity].
  eapply writes_mono; [|apply save_crash_writes]. set_solver.
Qed.

Lemma report_writes W (c : bool) (s : Flash F) : writes W s (if has_rest then is_provisioned s else (c, s)).2.
Proof. destruct has_rest; [|reflexivity]. by apply (op_writes W N_HasCert). Qed.

Lemma restore_mode_writes W (s : Flash F) : writes W s (restore_mode has_buttons s).2.
Proof.
  unfold restore_mode. destruct has_buttons; [|reflexivity].
  pose proof (op_writes W N_LoadButtonMode s eq_refl) as H. simpl in H. by destruct (load_button_mode s).
Qed.

(** Start-up stays within [boot_writes], for what it loaded and counted, and each
    of its readings is taken from a state it reached that way. *)
Lemma boot_sound reason i2c (s : Flash F) :
  no_nul (fstored s (lit "lnurl")) →
  let '(b, s') := start reason i2c s in
  let W := boot_writes (lnurl (bt_config b)) reason (bt_count b) in
  writes W s s' ∧ (bt_config b, (restore_config s).2) = restore_config s ∧
  bt_service b = Esp32_new (find_reader from_i2c nfc_i2c_addr i2c).1.2 (bt_config b) (lnurl (bt_config b)) ∧
  (∃ s1, writes W s s1 ∧ bt_count b = (count_boot s1).1 ∧ ∀ k, k ≠ lit "lnurl" → fstored s1 k = fstored s k) ∧
  ∃ s2, writes W s s2 ∧ bt_mode b = (restore_mode has_buttons s2).1.
Proof.
  intros Hn. unfold boot. destruct (find_reader _ _ _) as [[found xcvr] raw].
  pose proof (restore_config_facts s) as H1. destruct (restore_config s) as [cfg s1].
  destruct H1 as (W1 & Hu & _).
  assert (∀ u, lnurl cfg = Some u → Forall (λ c, c ≠ 0) u) as Hnul.
  { intros u Hc. apply Hn. eapply load_str_sound. by rewrite <- Hc, Hu. }
  pose proof (start_service_writes [(lit "lnurl", V_str (default [] (lnurl cfg)))] xcvr cfg s1) as W2.
  pose proof (λ W, start_service_writes W xcvr cfg s1) as W2'.
  destruct (start_service xcvr cfg s1) as [svc s2] eqn:Es. simpl in W2, W2'.
  pose proof (λ W, count_boot_writes W s2) as W3. destruct (count_boot s2) as [count s3] eqn:Ec. simpl in W3.
  pose proof (record_crash_writes (lnurl cfg) reason count s3) as W4.
  set (W := boot_writes (lnurl cfg) reason count) in *.
  pose proof (report_writes W false (record_crash reason count s3)) as W5.
  destruct (if has_rest then _ else _) as [cert s5]. simpl in W5.
  pose proof (restore_mode_writes W s5) as W6. destruct (restore_mode has_buttons s5) as [mode s6] eqn:Em.
  simpl in W6. cbn [bt_config bt_count bt_mode bt_service fst snd]. fold W.
  assert (writes W s s2) as H2.
  { etransitivity; [apply W1|]. apply W2'. intros u Hc. split; [by apply Hnul|].
    unfold W, boot_writes. rewrite Hc. set_solver. }
  assert (writes W s s5) as H5.
  { etransitivity; [exact H2|]. etransitivity; [apply W3; unfold W, boot_writes; set_solver|].
    etransitivity; [exact W4|exact W5]. }
  split; [by etransitivity|]. split; [done|]. split; [by unfold start_service in Es; simplify_eq|].
  split; [|exists s5; by rewrite Em]. exists s2. rewrite Ec. split; [done|]. split; [done|].
  intros k Hk. rewrite (writes_stored_other [(lit "lnurl", V_str (default [] (lnurl cfg)))] k s1 s2).
  - apply (writes_stored_other [] k s s1); [apply W1|]. set_solver.
  - apply W2. intros u Hc. split; [by apply Hnul|]. rewrite Hc. set_solver.
  - intros v Hv. set_solver.
Qed.

(** ** Power cycles *)

(** A reset: no handles, and every key reads as its durable value. *)
Definition power_cycle (s s' : Flash F) : Prop :=
  fhandles s' = [] ∧ ∀ k, fstored s' k = fdurable s k ∧ fdurable s' k = fdurable s k.

(** A life of the device: resets with their reasons and buses, each followed by
    start-up and by the settings operations of that session. *)
Inductive life : list (Booted T B) → list NvsOp → Flash F → Flash F → Prop :=
| life_off s : life [] [] s s
| life_on reason i2c ops b bs ops' s s1 s2 s' :
    power_cycle s s1 → start reason i2c s1 = (b, s2) → life bs ops' (run_ops ops s2) s' →
    life (b :: bs) (ops ++ ops') s s'.

(** A key that reads as [v] now and after a reset. *)
Definition holds (k : list Z) (v : option NvsValue) (s : Flash F) : Prop := fstored s k = v ∧ fdurable s k = v.

(** Operations that leave it so: those on other keys, and saving the template it
    holds once more, which every dispatched command does. *)
Definition keeps (k : list Z) (v : option NvsValue) (op : NvsOp) : Prop :=
  k ∉ op_keys op ∨
  ∃ url, op = N_SaveLnurl url ∧ k = lit "lnurl" ∧ v = Some (V_str url) ∧ Forall (λ c, c ≠ 0) url.

Lemma op_holds k v op (s : Flash F) : keeps k v op → holds k v s → holds k v (run_op op s).
Proof.
  intros [Hk|(url & -> & -> & -> & Hn)] [H1 H2].
  - destruct (run_op_within op s) as [_ Hw]. destruct (Hw k Hk) as [E1 E2]. unfold holds. rewrite E1, H1.
    split; [done|]. by destruct E2 as [->| ->].
  - destruct (save_str_writes (lit "lnurl") MAX_LNURL_LEN url s) as [_ Hw]; [done|done|].
    destruct (Hw (lit "lnurl")) as [A D]. unfold holds, run_op, save_lnurl, wrote in *. split.
    + destruct A as [->|(v & Hv & ->)]; [done|]. set_solver.
    + destruct D as [->|[->|(v & Hv & ->)]]; [done|done|]. set_solver.
Qed.

Lemma ops_hold k v ops (s : Flash F) : Forall (keeps k v) ops → holds k v s → holds k v (run_ops ops s).
Proof.
  intros Hops. revert s. induction Hops as [|op ops Hop _ IH]; intros s Hs; [done|].
  apply IH. by apply op_holds.
Qed.

(** Keys start-up only reads, or writes back as they are. *)
Definition setting (k : list Z) : Prop := k ∉ [lit "bootcnt"; lit "crashrsn"; lit "crashboot"].

Lemma boot_keeps_setting reason i2c (s s1 : Flash F) k :
  no_nul (fdurable s (lit "lnurl")) → power_cycle s s1 → setting k →
  holds k (fdurable s k) (start reason i2c s1).2.
Proof.
  intros Hn [_ Hp] Hk. destruct (Hp k) as [E1 E2]. unfold setting in Hk.
  pose proof (boot_sound reason i2c s1) as Hb. rewrite (proj1 (Hp (lit "lnurl"))) in Hb. specialize (Hb Hn).
  destruct (start reason i2c s1) as [b s2]. destruct Hb as ([_ Hw] & Hc & _).
  assert (∀ o, wrote (boot_writes (lnurl (bt_config b)) reason (bt_count b)) k o → o = fdurable s k) as Hwrote.
  { intros o (v & Hv & ->). unfold boot_writes in Hv. rewrite !elem_of_app in Hv.
    destruct Hv as [Hv|[Hv|Hv]]; [|set_solver|destruct (abnormal reason); set_solver].
    destruct (lnurl (bt_config b)) as [u|] eqn:Eu; [|set_solver]. assert (k = lit "lnurl" ∧ v = V_str u) as [-> ->] by set_solver.
    rewrite <- E1. symmetry. eapply load_str_sound.
    pose proof (restore_config_facts s1) as Hr. rewrite <- Hc in Hr. destruct Hr as (_ & Hl & _).
    rewrite Eu in Hl. symmetry. exact Hl. }
  destruct (Hw k) as [A D]. cbn [fst snd]. unfold holds. split.
  - destruct A as [->|A]; [done|by apply Hwrote].
  - destruct D as [->|[->|D]]; [done|done|by apply Hwrote].
Qed.

(** The settings of a device, as start-up should find them. *)
Definition settled (url : list Z) (force : Z) (m : ButtonMode) (s : Flash F) : Prop :=
  fdurable s (lit "lnurl") = Some (V_str url) ∧ fdurable s (lit "force") = Some (V_u8 force) ∧
  fdurable s (lit "btn_mode") = Some (V_str (ButtonMode_as_str m)).

(** What start-up restored: these settings, and none of the secrets. *)
Definition restored (url : list Z) (force : Z) (m : ButtonMode) (b : Booted T B) : Prop :=
  bt_config b = mkBoltyConfig (Some url) None None None None None (bool_decide (force ≠ 0)) ∧
  ss_lnurl (es_status (bt_service b)) = Some url ∧ es_keys (bt_service b) = None ∧
  (has_buttons = true → bt_mode b = byte_of_button_mode m).

Lemma boot_restores (LL : NvsLive L) reason i2c url force m (s : Flash F) :
  Forall (λ c, c ≠ 0) url → from_utf8 url = Some url → (length url ≤ 256)%nat →
  fstored s (lit "lnurl") = Some (V_str url) → fstored s (lit "force") = Some (V_u8 force) →
  fstored s (lit "btn_mode") = Some (V_str (ButtonMode_as_str m)) →
  restored url force m (start reason i2c s).1.
Proof.
  intros Hn Hu Hl Hs Hf Hm. pose proof (boot_sound reason i2c s) as Hb.
  assert (no_nul (fstored s (lit "lnurl"))) as Hnul by (intros t Ht; rewrite Hs in Ht; by injection Ht as <-).
  specialize (Hb Hnul). destruct (start reason i2c s) as [b s']. cbn [fst].
  destruct Hb as (_ & Hc & Hsvc & _ & s2 & Hw2 & Hmode).
  pose proof (restore_config_facts s) as Hr. rewrite <- Hc in Hr. destruct Hr as (W1 & Hcl & Hcf & Hsec).
  assert ((load_lnurl s).1 = Some url) as Hload by (apply load_str_live; auto; [done|unfold MAX_LNURL_LEN; lia]).
  rewrite Hload in Hcl. rewrite load_force_live in Hcf by done.
  pose proof (within_writes [] _ _ (load_str_within (lit "lnurl") MAX_LNURL_LEN s)) as Wl.
  change (load_str _ _ s) with (load_lnurl s) in Wl.
  rewrite (writes_stored_other _ (lit "force") _ _ Wl), Hf in Hcf by set_solver.
  assert (issuer_name (bt_config b) = None) as Hi.
  { unfold restore_config in Hc. destruct (load_lnurl s), (load_force_flag _). by injection Hc as ->. }
  assert (bt_config b = mkBoltyConfig (Some url) None None None None None (bool_decide (force ≠ 0))) as Hcfg.
  { destruct (bt_config b). simpl in *. by simplify_eq. }
  rewrite Hcfg in Hsvc. unfold restored. rewrite Hsvc. split; [done|]. split; [done|]. split; [done|].
  intros Hbtn. rewrite Hmode. unfold restore_mode. rewrite Hbtn.
  assert (fstored s2 (lit "btn_mode") = Some (V_str (ButtonMode_as_str m))) as Hm2.
  { rewrite (writes_stored_other _ _ _ _ Hw2), Hm; [done|]. intros v. unfold boot_writes.
    destruct (lnurl (bt_config b)), (abnormal reason); set_solver. }
  assert ((load_button_mode s2).1 = Some (ButtonMode_as_str m)) as Hlm.
  { apply load_str_live; auto; [done|by destruct m|destruct m; vm_compute; discriminate]. }
  destruct (load_button_mode s2) as [saved s3]. simpl in Hlm. subst. by destruct m.
Qed.

(** C36. Settings survive. On a store whose reads work, once a URL template, the
    force flag and the button mode are durable, every start-up over any number of
    resets, for any reset reasons, with any of the writes in between failing,
    restores exactly these settings (and no keys, issuer key or tokens) as long as
    no command changes them, and they are durable still at the end; saving the
    same template again, as every dispatched command does, is no change. The force
    flag is a setting like the other two: [save_force_flag] writes it and
    [load_force_flag] reads it back at start-up, although [docs/security.md] says that
    only the URL and the button mode are persisted. *)
Theorem settings_survive (LL : NvsLive L) url force m bs ops (s s' : Flash F) :
  Forall (λ c, c ≠ 0) url → from_utf8 url = Some url → (length url ≤ 256)%nat →
  settled url force m s → life bs ops s s' →
  Forall (λ op, keeps (lit "lnurl") (Some (V_str url)) op ∧ keeps (lit "force") (Some (V_u8 force)) op ∧
            keeps (lit "btn_mode") (Some (V_str (ButtonMode_as_str m))) op) ops →
  Forall (restored url force m) bs ∧ settled url force m s'.
Proof.
  intros Hn Hu Hl Hs Hlife. revert Hs.
  induction Hlife as [s|reason i2c ops b bs ops' s s1 s2 s' Hp Hb _ IH]; intros Hs Hops; [auto|].
  apply Forall_app in Hops as [Hops Hops']. destruct Hs as (S1 & S2 & S3).
  assert (restored url force m b) as Hr.
  { replace b with (start reason i2c s1).1 by (by rewrite Hb). destruct Hp as [_ Hp].
    apply boot_restores; try done; rewrite (proj1 (Hp _)); done. }
  assert (∀ k v, fdurable s k = Some v → setting k → Forall (keeps k (Some v)) ops →
    fdurable (run_ops ops s2) k = Some v) as Hkeep.
  { intros k v Hk Hset Ho. apply (ops_hold k (Some v)); [done|]. rewrite <- Hk.
    replace s2 with (start reason i2c s1).2 by (by rewrite Hb). apply boot_keeps_setting; [|done|done].
    intros t Ht. rewrite S1 in Ht. by injection Ht as <-. }
  destruct IH as [IH1 IH2]; [|done|by split; [constructor|]].
  split_and!; apply Hkeep; try done; try (unfold setting; set_solver);
    (eapply Forall_impl; [exact Hops|]; naive_solver).
Qed.
(** ** The boot counter and the crash record *)

Definition count_of (o : option NvsValue) : Z := match o with Some (V_u32 n) => n | _ => 0 end.

(** The counter is a 32-bit number, and the crash on record happened in a boot
    that was counted. *)
Definition counted (s : Flash F) : Prop :=
  0 ≤ count_of (fdurable s (lit "bootcnt")) < 2 ^ 32 ∧
  ∀ c, fdurable s (lit "crashboot") = Some (V_u32 c) → 0 ≤ c ≤ count_of (fdurable s (lit "bootcnt")).

(** Every start-up counts: the number it prints is one more than the durable
    counter (up to the largest 32-bit number) and at least one, whether or not its
    writes succeed the durable counter afterwards is the old or the new number, and
    the boot named by the crash record never exceeds it. *)
Theorem boot_counts (LL : NvsLive L) reason i2c (s s1 s2 : Flash F) b :
  no_nul (fdurable s (lit "lnurl")) → counted s → power_cycle s s1 → start reason i2c s1 = (b, s2) →
  let n := count_of (fdurable s (lit "bootcnt")) in
  bt_count b = Z.min (2 ^ 32 - 1) (n + 1) ∧ 1 ≤ bt_count b ∧ counted s2 ∧
  count_of (fdurable s2 (lit "bootcnt")) ∈ [n; bt_count b].
Proof.
  intros Hn [Hc Hcr] [_ Hp] Hb n. pose proof (boot_sound reason i2c s1) as Hs.
  rewrite (proj1 (Hp (lit "lnurl"))) in Hs. specialize (Hs Hn). rewrite Hb in Hs.
  destruct Hs as ([_ Hw] & _ & _ & (s3 & _ & Hcount & Hsame) & _).
  assert (bt_count b = Z.min (2 ^ 32 - 1) (n + 1)) as Hbc.
  { rewrite Hcount. unfold count_boot. pose proof (load_boot_live LL s3) as Hl.
    destruct (load_boot_count s3) as [x s4]. simpl in *. rewrite Hsame, (proj1 (Hp _)) in Hl by done.
    unfold u32_saturating_add. rewrite Hl. done. }
  assert (1 ≤ bt_count b) as H1 by lia.
  assert (count_of (fdurable s2 (lit "bootcnt")) ∈ [n; bt_count b]) as Hcnt.
  { destruct (Hw (lit "bootcnt")) as [_ D]. rewrite (proj1 (Hp _)), (proj2 (Hp _)) in D.
    destruct D as [->|[->|(v & Hv & ->)]]; [by left|by left|]. unfold boot_writes in Hv.
    destruct (lnurl (bt_config b)), (abnormal reason); set_solver. }
  split; [done|]. split; [done|]. split; [|done].
  assert (n ≤ count_of (fdurable s2 (lit "bootcnt")) < 2 ^ 32) as Hrange by (fold n in Hc; set_solver by lia).
  split; [lia|]. intros c Hcc. destruct (Hw (lit "crashboot")) as [_ D]. rewrite (proj1 (Hp _)), (proj2 (Hp _)), Hcc in D.
  assert (c = u32_saturating_sub (bt_count b) 1 ∨ 0 ≤ c ≤ n) as [->|Hle].
  { destruct D as [D|[D|(v & Hv & [= <-])]]; [right; by apply Hcr|right; by apply Hcr|left].
    unfold boot_writes in Hv. destruct (lnurl (bt_config b)), (abnormal reason); set_solver. }
  - unfold u32_saturating_sub. lia.
  - lia.
Qed.

(** ** The update key *)

Lemma key_nibble_is c : key_nibble c = decode_hex_nibble c.
Proof. done. Qed.

Lemma decode_hex_loop_length i hex out : length (decode_hex_loop i hex out).2 = length out.
Proof.
  revert i out. remember (length hex) as n eqn:Hn. revert hex Hn.
  induction (lt_wf n) as [n _ IH]; intros hex -> i out. destruct hex as [|c [|d hex]]; [done..|].
  cbn [decode_hex_loop]. destruct (decode_hex_nibble c); [|done]. destruct (decode_hex_nibble d); [|done].
  rewrite (IH (length hex)) by (simpl; lia). apply length_insert.
Qed.

Lemma key_bytes_loop n i hex key :
  length hex = (2 * n)%nat →
  key_bytes i hex key = match decode_hex_loop i hex key with (Ok _, out) => Some out | (Err _, _) => None end.
Proof.
  revert i hex key. induction n as [|n IH]; intros i hex key Hl.
  - destruct hex; [done|simpl in Hl; lia].
  - destruct hex as [|c [|d hex]]; simpl in Hl; try lia. cbn [key_bytes decode_hex_loop]. rewrite (key_nibble_is c), (key_nibble_is d).
    destruct (decode_hex_nibble c) as [hi|]; [|done]. destruct (decode_hex_nibble d) as [lo|]; [|done]. simpl.
    apply IH. lia.
Qed.

(** Provisioning the update key agrees with the shared decoder: a line is accepted
    exactly if [decode_hex] reads it as 32 bytes, an accepted key is durable and is
    the one updates are checked with, and a refused line leaves the flash alone. *)
Theorem provision_ota_key_exact (LL : NvsLive L) (key_hex : list Z) (s : Flash F) :
  let '(outs, s') := run_provision_ota_key key_hex s in
  match decode_hex 32 key_hex with
  | Ok key => (says_ok outs = true →
      fdurable s' (lit "otakey") = Some (V_blob key) ∧ (load_ota_pubkey s').1 = Some key) ∧
      says_fail outs = negb (says_ok outs)
  | Err _ => says_ok outs = false ∧ says_fail outs = true ∧ s' = s
  end.
Proof.
  unfold run_provision_ota_key, decode_hex, decode_hex_into. rewrite length_replicate.
  case_decide as Hl.
  { rewrite decide_True by lia. unfold says_ok, says_fail. cbn [existsb]. by repeat verdict_line. }
  rewrite decide_False by lia.
  rewrite (key_bytes_loop 32) by lia.
  pose proof (decode_hex_loop_length 0 key_hex (replicate 32 0)) as Hlen.
  destruct (decode_hex_loop 0 key_hex (replicate 32 0)) as [[[]|e] key].
  2:{ unfold says_ok, says_fail. cbn [existsb]. by repeat verdict_line. }
  destruct (save_ota_pubkey key s) as [[] s'] eqn:Es.
  - split; [|verdict]. intros _. apply save_ota_true in Es as [Hst Hd]. split; [done|]. apply load_ota_live; [done..|].
    rewrite length_replicate in Hlen. exact Hlen.
  - unfold says_ok, says_fail. cbn [existsb]. repeat verdict_line. done.
Qed.
End boot_facts.

(** ** A simulated device *)

(** A reset of the simulated store. *)
Definition sim_reset (s : Flash SimFlash) : Flash SimFlash :=
  let f := flash s in mkFlash false (mkSimFlash [] (sf_durable f) (sf_durable f) (sf_next f) (sf_writes f)).

Lemma sim_reset_cycle (s : Flash SimFlash) : power_cycle s (sim_reset s).
Proof. done. Qed.

(** The reader's address is 0x28, and the driver comes up. *)
Notation sim_boot := (boot (λ _ : list Z, Some ()) 0x28 (lit "M5StickC Plus") (lit "0") true true true true false).

Definition demo_url : list Z := lit "https://card.example/?c={mac}".

(** Settings saved before the first reset. *)
Definition demo_settings : list NvsOp :=
  [N_SaveLnurl demo_url; N_SaveForce true; N_SaveButtonMode (lit "legacy")].

Definition demo_flash (writes : nat) : Flash SimFlash := run_ops demo_settings (fresh_flash writes).

(** Two sessions: a panic reset, then a power-on with a command and an inspection
    of the certificate in between, on a flash that refuses every further write. *)
Definition demo_first : Booted () (list Z) * Flash SimFlash := sim_boot 4 [0x28] (sim_reset (demo_flash 6)).
Definition demo_ops : list NvsOp := [N_SaveLnurl demo_url; N_HasCert].
Definition demo_second : Booted () (list Z) * Flash SimFlash :=
  sim_boot 1 [] (sim_reset (run_ops demo_ops demo_first.2)).

Lemma life_two r1 bus1 ops r2 bus2 b1 b2 (s s1 s2 : Flash SimFlash) :
  sim_boot r1 bus1 (sim_reset s) = (b1, s1) → sim_boot r2 bus2 (sim_reset (run_ops ops s1)) = (b2, s2) →
  life (λ _, Some ()) 0x28 (lit "M5StickC Plus") (lit "0") true true true true false [b1; b2] (ops ++ [] ++ []) s s2.
Proof.
  intros E1 E2.
  refine (life_on _ _ _ _ _ _ _ _ _ r1 bus1 ops b1 [b2] ([] ++ []) s (sim_reset s) s1 s2 (sim_reset_cycle s) E1 _).
  refine (life_on _ _ _ _ _ _ _ _ _ r2 bus2 [] b2 [] [] (run_ops ops s1) (sim_reset (run_ops ops s1)) s2 s2
    (sim_reset_cycle _) E2 _).
  exact (life_off _ _ _ _ _ _ _ _ _ s2).
Qed.

Lemma settings_survive_witness :
  Forall (restored true demo_url 1 Legacy) [demo_first.1; demo_second.1] ∧
  settled demo_url 1 Legacy demo_second.2.
Proof.
  apply (settings_survive (λ _, Some ()) 0x28 (lit "M5StickC Plus") (lit "0") true true true true false
    sim_nvs_live demo_url 1 Legacy [demo_first.1; demo_second.1] (demo_ops ++ [] ++ []) (demo_flash 6) demo_second.2).
  - apply (bool_decide_unpack _). vm_compute. exact I.
  - reflexivity.
  - apply (bool_decide_unpack _). vm_compute. exact I.
  - split; [reflexivity|]. split; reflexivity.
  - apply (life_two 4 [0x28] demo_ops 1 [] demo_first.1 demo_second.1 (demo_flash 6) demo_first.2 demo_second.2);
      [unfold demo_first|unfold demo_second]; by destruct (sim_boot _ _ _).
  - apply Forall_cons. split; [split; [right|split; left]|].
    + exists demo_url. split; [reflexivity|]. split; [reflexivity|]. split; [reflexivity|].
      apply (bool_decide_unpack _). vm_compute. exact I.
    + apply (bool_decide_unpack _). vm_compute. exact I.
    + apply (bool_decide_unpack _). vm_compute. exact I.
    + apply Forall_cons. split; [|apply Forall_nil_2]. split; [|split]; left; apply not_elem_of_nil.
Defined.

(** With writes that succeed: three resets, the second by a panic. *)
Definition boots (reasons : list Z) (s : Flash SimFlash) : Flash SimFlash :=
  foldl (λ s r, (sim_boot r [0x28] (sim_reset s)).2) s reasons.

Definition log_lines (outs : list Out) : list (list Z) :=
  omap (λ o, match o with Line t => Some t | Show _ => None end) outs.

Example crashlog_example :
  log_lines (run_crashlog 1 (boots [1; 4; 1] (fresh_flash 40))).1 =
    [lit "[CRASHLOG]"; lit "  Boot count: 3"; lit "  This boot reason: POWERON";
     lit "  Last crash: PANIC on boot #1"; lit "[CRASHLOG] END"].
Proof. vm_compute. done. Qed.

(** The two halves of a crash record are separate writes: when the flash refuses
    the second, the log pairs the new reason with the old boot. *)
Example crash_record_torn :
  let s := boots [4; 1; 1; 1] (fresh_flash 100) in
  let torn := mkFlash true (mkSimFlash [] (sf_map (flash s)) (sf_durable (flash s)) 1 1) in
  nth_error (log_lines (run_crashlog 9 (save_crash_info 9 4 torn).2).1) 3 =
    Some (lit "  Last crash: BROWNOUT on boot #0").
Proof. vm_compute. done. Qed.

(** [force off] says that the checks are on again, but nothing reports whether the
    flag was written: on a flash that refuses the write, the next start-up
    restores the flag. *)
Example force_off_lost :
  let on := (save_force_flag true (fresh_flash 2)).2 in
  let off := (save_force_flag false on).2 in
  force_unsafe (bt_config (sim_boot 1 [] (sim_reset off)).1) = true.
Proof. vm_compute. done. Qed.

(** A lock-up of the CPU and a power glitch are named at start-up and leave no
    crash record. *)
Example lockup_not_recorded :
  reset_name 15 = lit "CPU_LOCKUP" ∧ reset_label 15 = lit "UNKNOWN" ∧
  nth_error (log_lines (run_crashlog 15 (boots [1; 15] (fresh_flash 40))).1) 3 = Some (lit "  Last crash: none").
Proof. vm_compute. done. Qed.
