(* ===== verification/HwTest.v ===== *)
(** * The self-test and the timers of the M5 firmware

    [run_hwtest], the timed part of the main loop (card poll, heartbeat, battery),
    the replies to the buttons and [fatal_halt] of
    [apps/bolty-esp32/src/firmware.rs]. The clock, the delays and the button pins
    are the interface [Board]; every waiting loop runs on fuel, and the laws of the
    clock show how much is enough. *)

From Stdlib Require Import Sorting.Sorted.
From S2P Require Import Prelude Str Hex Derivation Assessment Ndef NtagTypes Session Ntag NtagProofs Commands Console Workflow Esp32 Firmware FirmwareProofs Display Serial.

(** [millis()], [FreeRtos::delay_ms] and the levels of the two buttons. *)
Class Board (W : Type) : Type := {
  millis : W → Z * W;
  delay_ms : Z → W → W;
  pins : W → (bool * bool) * W }.

(** ** Waiting *)

(** [while millis().saturating_sub(start) < limit { check; delay }]; [None] when
    the fuel runs out. *)
Section wait.
  Context {S A : Type} (now : S → Z * S) (sleep : S → S) (check : S → option A * S).

Fixpoint wait (start limit : Z) (fuel : nat) (s : S) : option (option A * S) :=
  match fuel with
  | O => None
  | Datatypes.S fuel =>
      let '(t, s) := now s in
      if decide (u64_saturating_sub t start < limit) then
        match check s with
        | (Some a, s) => Some (Some a, s)
        | (None, s) => wait start limit fuel (sleep s)
        end
      else Some (None, s)
  end.

(** [start] is read just before the loop. *)
Definition wait_for (limit : Z) (s : S) : option (option A * S) :=
  let '(start, s) := now s in wait start limit (Datatypes.S (Z.to_nat limit)) s.
End wait.

(** ** run_hwtest *)

Record HwTest (W T : Type) : Type := mkHwTest {
  ht_board : W;
  ht_buttons : option (ButtonDebounce * ButtonDebounce);
  ht_service : Esp32 T }.
Arguments mkHwTest {W T} _ _ _.
Arguments ht_board {W T} _.
Arguments ht_buttons {W T} _.
Arguments ht_service {W T} _.

Definition event_text (e : ButtonEvent) : list Z :=
  match e with Ev_None => lit "None" | Ev_Click => lit "Click" | Ev_LongPress => lit "LongPress" end.

Section hwtest.
  Context {W T TE : Type} {BD : Board W} {D : NtagDevice T TE} {R : CardReader T} `{C : AesCrypto}.
  Context {V : Type} (verify_sdm : Sdm → list Z → AesKey → AesKey → option V) (debug_error : Error TE → list Z).
  Context {B : Type} {IB : I2cBus B}.
  Context (board_name : list Z) (power : option (option Z * bool)).

  Local Notation St := (HwTest W T).

Definition on_board {A} (f : W → A * W) (s : St) : A * St :=
  let '(a, w) := f (ht_board s) in (a, mkHwTest w (ht_buttons s) (ht_service s)).

Definition ht_now : St → Z * St := on_board millis.
Definition ht_sleep (ms : Z) (s : St) : St := mkHwTest (delay_ms ms (ht_board s)) (ht_buttons s) (ht_service s).

(** [ButtonHandler::poll] at the time of its argument [millis()]. *)
Definition ht_poll (s : St) : (ButtonEvent * ButtonEvent) * St :=
  match ht_buttons s with
  | None => ((Ev_None, Ev_None), s)
  | Some (front, side) =>
      let '(t, s) := ht_now s in
      let '((front_pressed, side_pressed), s) := on_board pins s in
      let '(front_event, front) := button_update front_pressed t front in
      let '(side_event, side) := button_update side_pressed t side in
      ((front_event, side_event), mkHwTest (ht_board s) (Some (front, side)) (ht_service s))
  end.

Definition some_event (e : ButtonEvent) : option ButtonEvent := if decide (e = Ev_None) then None else Some e.

Definition press_front (s : St) : option ButtonEvent * St := let '((fe, _), s) := ht_poll s in (some_event fe, s).
Definition press_side (s : St) : option ButtonEvent * St := let '((_, se), s) := ht_poll s in (some_event se, s).

Definition with_service (svc : Esp32 T) (s : St) : St := mkHwTest (ht_board s) (ht_buttons s) svc.

Definition tap (s : St) : option (list Z) * St :=
  match poll_safe verify_sdm debug_error (ht_service s) with
  | (Ok a, svc) =>
      (if ca_present a
       then Some (match ca_uid a with
                  | Some uid => foldl (λ out b, put 32 out (hex2 b)) [] (take (Z.to_nat (ca_uid_len a)) uid)
                  | None => []
                  end)
       else None, with_service svc s)
  | (Err _, svc) => (None, with_service svc s)
  end.

Definition removed (s : St) : option () * St :=
  let '(present, svc) := card_present (ht_service s) in (if present then None else Some (), with_service svc s).

(** A step: what it prints, and whether it passed. *)
Definition Step : Type := St → option (bool * list Out * St).

(** The two button steps; the name goes into the lines and onto the panel. *)
Definition button_step (name panel prompt : list Z) (press : St → option ButtonEvent * St) : Step := λ s,
  '(event, s) ← wait_for ht_now (ht_sleep 10) press 10000 s;
  let ask := [Line (lit "[HWTEST] STEP " ++ name ++ lit ": PRESS NOW (10s)"); Show (Sc_Event prompt)] in
  match event with
  | Some e =>
      Some (true, ask ++ [Line (lit "[HWTEST]   event: " ++ event_text e);
                          Line (lit "[HWTEST] STEP " ++ name ++ lit ": PASS");
                          Show (Sc_CommandResult panel (lit "PASS"))], s)
  | None =>
      Some (false, ask ++ [Line (lit "[HWTEST] STEP " ++ name ++ lit ": FAIL (timeout)");
                           Show (Sc_CommandResult panel (lit "FAIL"))], s)
  end.

Definition front_step : Step :=
  button_step (lit "front_button") (lit "front_btn") (lit "Press FRONT btn") press_front.
Definition side_step : Step :=
  button_step (lit "side_button") (lit "side_btn") (lit "Press SIDE btn") press_side.

Definition tap_step : Step := λ s,
  '(uid, s) ← wait_for ht_now (ht_sleep 100) tap 15000 s;
  let ask := [Line (lit "[HWTEST] STEP card_tap: TAP CARD NOW (15s)"); Show (Sc_Event (lit "Tap card now"))] in
  match uid with
  | Some uid =>
      Some (true, ask ++ [Line (lit "[HWTEST] STEP card_tap: PASS uid=" ++ uid);
                          Show (Sc_CommandResult (lit "card_tap") (lit "PASS"))], s)
  | None =>
      Some (false, ask ++ [Line (lit "[HWTEST] STEP card_tap: FAIL (timeout)");
                           Show (Sc_CommandResult (lit "card_tap") (lit "FAIL"))], s)
  end.

Definition remove_step : Step := λ s,
  '(gone, s) ← wait_for ht_now (ht_sleep 100) removed 10000 s;
  let ask := [Line (lit "[HWTEST] STEP card_remove: REMOVE CARD NOW (10s)"); Show (Sc_Event (lit "Remove card"))] in
  match gone with
  | Some _ =>
      Some (true, ask ++ [Line (lit "[HWTEST] STEP card_remove: PASS");
                          Show (Sc_CommandResult (lit "card_rm") (lit "PASS"))], s)
  | None =>
      Some (false, ask ++ [Line (lit "[HWTEST] STEP card_remove: FAIL (timeout)");
                           Show (Sc_CommandResult (lit "card_rm") (lit "FAIL"))], s)
  end.

(** Steps one after the other: how many passed, what they printed. *)
Fixpoint run_steps (steps : list Step) (s : St) : option (Z * list Out * St) :=
  match steps with
  | [] => Some (0, [], s)
  | step :: steps =>
      '(ok, outs, s) ← step s;
      '(pass, outs', s) ← run_steps steps s;
      Some ((if ok : bool then 1 else 0) + pass, outs ++ outs', s)
  end.

Definition hw_header (found : list Z) (nfc display_ok : bool) (mode : Z) : list Out :=
  [Line (lit "[HWTEST] START");
   Line (lit "[HWTEST] board=" ++ board_name);
   Line (lit "[HWTEST] i2c_baudrate=100000Hz");
   Line (lit "[HWTEST] i2c_devices=" ++
         trim (foldl (λ out a, write_parts 128 out [lit "0x"; hex2 a; lit " "]) [] found));
   Line (lit "[HWTEST] nfc=" ++ if nfc then lit "ok" else lit "missing");
   Line (lit "[HWTEST] display=" ++ if display_ok then lit "ok" else lit "fail")] ++
  match power with
  | Some (mv, usb) =>
      [Line (lit "[HWTEST] battery=" ++ match mv with Some v => show_uint v | None => lit "none" end ++
             lit " usb=" ++ if usb then lit "1" else lit "0")]
  | None => []
  end ++
  [Line (lit "[HWTEST] button_mode=" ++ match button_mode_of_byte mode with Simple => lit "simple" | Legacy => lit "legacy" end);
   Show (Sc_Mode Mode_Burn); Show (Sc_Event (lit "HW TEST START"))].

Definition hw_result (pass total : Z) : list Out :=
  let score := show_uint pass ++ lit "/" ++ show_uint total in
  (if decide (total = pass)
   then [Line (lit "[HWTEST] RESULT: ALL PASS (" ++ score ++ lit ")"); Show (Sc_Mode Mode_Idle);
         Show (Sc_Event (lit "ALL TESTS PASS"))]
   else [Line (lit "[HWTEST] RESULT: " ++ score ++ lit " PASS"); Show (Sc_Mode Mode_Error);
         Show (Sc_Event (score ++ lit " PASS"))]) ++
  [Line (lit "[HWTEST] END")].

(** The routine, with the count of passed steps and of steps. *)
Definition run_hwtest (mode : Z) (hw : Hw B) (s : St) : option (list Out * (Z * Z) * Hw B * St) :=
  let '(found, hw) := i2c_scan hw in
  let header := hw_header found (is_some (es_transceiver (ht_service s))) (hw_display_init_ok hw) mode in
  let '(buttons, skip) :=
    match ht_buttons s with
    | Some _ => ([front_step; side_step], [])
    | None => ([], [Line (lit "[HWTEST] STEP buttons: SKIP (not initialized)")])
    end in
  '(pass, outs, s) ← run_steps buttons s;
  '(pass', outs', s) ← run_steps [tap_step; remove_step] s;
  let total := Z.of_nat (length buttons) + 2 in
  Some (header ++ outs ++ skip ++ outs' ++ hw_result (pass + pass') total, (pass + pass', total), hw, s).
End hwtest.

(** ** The timers of the main loop *)

Definition CARD_POLL_INTERVAL_MS : Z := 500.
Definition BATTERY_UPDATE_INTERVAL_MS : Z := 5000.
Definition HEARTBEAT_INTERVAL_MS : Z := 10000.
Definition MAIN_LOOP_DELAY_MS : Z := 10.

Definition u64_saturating_add (a b : Z) : Z := Z.min (2 ^ 64 - 1) (a + b).

Record Timers : Type := mkTimers { next_poll_at : Z; heartbeat_at : Z; next_battery_update : Z }.

Inductive Due : Type := Due_Poll | Due_Heartbeat | Due_Battery.

#[export] Instance Due_eq_dec : EqDecision Due.
Proof. solve_decision. Defined.

(** One deadline against the time of this pass. *)
Definition expire (due : Due) (interval now deadline : Z) : list Due * Z :=
  if decide (deadline ≤ now) then ([due], u64_saturating_add now interval) else ([], deadline).

(** What a pass at time [now] runs, in order. *)
Definition loop_timers (now : Z) (t : Timers) : list Due * Timers :=
  let '(poll, p) := expire Due_Poll CARD_POLL_INTERVAL_MS now (next_poll_at t) in
  let '(hb, h) := expire Due_Heartbeat HEARTBEAT_INTERVAL_MS now (heartbeat_at t) in
  let '(bat, b) := expire Due_Battery BATTERY_UPDATE_INTERVAL_MS now (next_battery_update t) in
  (poll ++ hb ++ bat, mkTimers p h b).

(** The times at which [due] runs over passes at the given times. *)
Fixpoint runs_at (due : Due) (nows : list Z) (t : Timers) : list Z :=
  match nows with
  | [] => []
  | now :: nows =>
      let '(dues, t) := loop_timers now t in
      (if decide (due ∈ dues) then [now] else []) ++ runs_at due nows t
  end.

Definition heartbeat_text (now : Z) (nfc_ready : bool) : list Z :=
  write_parts 48 []
    [lit "[HB] alive t="; show_uint now; lit "ms nfc="; if nfc_ready then lit "ok" else lit "DOWN"].

(** ** Replies to the buttons *)

Definition report_button_result (action : list Z) (result : WorkflowResult) : list Out :=
  let failed parts := [Show (Sc_Mode Mode_Error); Line (write_parts 64 [] parts)] in
  match result with
  | WR_Success =>
      [Line (write_parts 32 [] [lit "[OK] "; action; lit " complete (button)"]);
       Show (Sc_Event (action ++ lit " ok")); Show (Sc_Mode Mode_Idle)]
  | WR_CardNotPresent => failed [lit "[FAIL] "; action; lit ": no card"]
  | WR_AuthFailed => failed [lit "[FAIL] "; action; lit ": auth failed"]
  | WR_AuthDelay => failed [lit "[FAIL] "; action; lit ": auth delay"]
  | WR_WipeRefused => failed [lit "[FAIL] "; action; lit ": refused"]
  | WR_Error e => failed [lit "[FAIL] "; action; lit ": "; e]
  end.

Definition show_button_status {T} (s : Esp32 T) : list Out :=
  [say_card (es_last_card s);
   Line (write_parts 96 []
     [lit "[INFO] nfc="; if Workflow.ss_nfc_ready (es_status s) then lit "ok" else lit "--"; lit " lnurl=";
      default (lit "none") (ss_lnurl (es_status s))])].

(** The Wi-Fi manager, as the button uses it: whether it is connected, and the
    outcome of disconnecting. [None] without one. *)
Definition toggle_wifi_button (manager : option (bool * bool)) : list Out :=
  match manager with
  | Some (true, true) => [Show Sc_ClearWifi; Line (lit "[OK] wifi off (button)")]
  | Some (true, false) => [say_fail (lit "wifi disconnect failed")]
  | Some (false, _) => [say_fail (lit "wifi not configured (use serial)")]
  | None => [say_fail (lit "wifi unavailable")]
  end.

(** ** fatal_halt *)

Inductive HaltStep : Type := Log (text : list Z) | Wait (ms : Z) | EspRestart.

Definition RELOG_INTERVAL_MS : Z := 5000.
Definition MAX_ATTEMPTS : nat := 6.

Definition fatal_halt (context : list Z) : list HaltStep :=
  concat ((λ attempt : nat,
    [Log (lit "FATAL: " ++ context ++ lit " (attempt " ++ show_uint (Z.of_nat attempt) ++ lit "/6)");
     Wait RELOG_INTERVAL_MS]) <$> seq 1 MAX_ATTEMPTS) ++
  [Log (lit "FATAL: " ++ context ++ lit " — restarting device"); Wait 100; EspRestart].

(** ** Waiting ends *)

(** The clock does not run backwards, and a delay takes at least a millisecond. *)
Class BoardLaws {W} (BD : Board W) : Type := {
  time : W → Z;
  law_millis w : let '(t, w') := millis w in time w ≤ t ≤ time w';
  law_delay ms w : 10 ≤ ms → time w + 1 ≤ time (delay_ms ms w);
  law_pins w : time w ≤ time (pins w).2 }.

Section wait_facts.
  Context {S A : Type} (now : S → Z * S) (sleep : S → S) (check : S → option A * S).

(** The induction principle of a loop that returned. *)
Lemma wait_ind start limit (P : S → option A * S → Prop) :
  (∀ s t s1, now s = (t, s1) → P s (None, s1)) →
  (∀ s t s1 a s2, now s = (t, s1) → check s1 = (Some a, s2) → P s (Some a, s2)) →
  (∀ s t s1 s2 r, now s = (t, s1) → check s1 = (None, s2) → P (sleep s2) r → P s r) →
  ∀ fuel s r, wait now sleep check start limit fuel s = Some r → P s r.
Proof.
  intros H1 H2 H3. induction fuel as [|fuel IH]; intros s r; [done|]. cbn [wait].
  destruct (now s) as [t s1] eqn:E1. case_decide; [|intros [= <-]; by eapply H1].
  destruct (check s1) as [[a|] s2] eqn:E2; [intros [= <-]; by eapply H2|]. intros Hr. eapply H3; eauto.
Qed.

(** How a wait from [start] on may end: a check has an event at a time before the
    limit, or the clock reaches the limit and no check before had one. *)
Inductive polled (start limit : Z) : S → option A → S → Prop :=
| Polled_event s t s1 a s2 :
    now s = (t, s1) → u64_saturating_sub t start < limit → check s1 = (Some a, s2) →
    polled start limit s (Some a) s2
| Polled_late s t s1 :
    now s = (t, s1) → limit ≤ u64_saturating_sub t start → polled start limit s None s1
| Polled_again s t s1 s2 o s' :
    now s = (t, s1) → u64_saturating_sub t start < limit → check s1 = (None, s2) →
    polled start limit (sleep s2) o s' → polled start limit s o s'.

Definition waited (limit : Z) (s : S) (o : option A) (s' : S) : Prop :=
  ∃ start s1, now s = (start, s1) ∧ polled start limit s1 o s'.

Lemma wait_for_waited limit s o s' : wait_for now sleep check limit s = Some (o, s') → waited limit s o s'.
Proof.
  unfold wait_for. destruct (now s) as [start s1] eqn:E. intros Hw. exists start, s1. split; [done|].
  revert Hw. generalize (Datatypes.S (Z.to_nat limit)). intros fuel. clear E. revert s1.
  induction fuel as [|fuel IH]; intros s1; [done|]. cbn [wait].
  destruct (now s1) as [t s2] eqn:En. case_decide; [|intros [= <- <-]; eapply Polled_late; [done|lia]].
  destruct (check s2) as [[a|] s3] eqn:Ec; [intros [= <- <-]; by eapply Polled_event|].
  intros Hw. eapply Polled_again; eauto.
Qed.

Context (T : S → Z).
Hypothesis now_ok : ∀ s, let '(t, s') := now s in T s ≤ t ≤ T s'.
Hypothesis sleep_ok : ∀ s, T s + 1 ≤ T (sleep s).
Hypothesis check_ok : ∀ s, T s ≤ T (check s).2.

Lemma wait_returns start limit fuel s :
  Z.max 0 (limit - (T s - start)) < Z.of_nat fuel →
  ∃ r, wait now sleep check start limit fuel s = Some r ∧ T s ≤ T r.2.
Proof.
  revert s. induction fuel as [|fuel IH]; intros s Hf; [lia|]. cbn [wait].
  pose proof (now_ok s) as Hn. destruct (now s) as [t s1]. unfold u64_saturating_sub.
  case_decide; [|eexists; split; [done|simpl; lia]].
  pose proof (check_ok s1) as Hc. destruct (check s1) as [[a|] s2]; simpl in Hc; [eexists; split; [done|simpl; lia]|].
  pose proof (sleep_ok s2). destruct (IH (sleep s2)) as (r & Hr & Ht); [lia|]. exists r. split; [done|lia].
Qed.

(** A waiting loop always returns, within its limit of rounds. *)
Lemma wait_for_returns limit s :
  0 ≤ limit → ∃ r, wait_for now sleep check limit s = Some r ∧ T s ≤ T r.2.
Proof.
  intros Hl. unfold wait_for. pose proof (now_ok s) as Hn. destruct (now s) as [start s1].
  destruct (wait_returns start limit (Datatypes.S (Z.to_nat limit)) s1) as (r & Hr & Ht); [lia|].
  exists r. split; [done|lia].
Qed.
End wait_facts.

Section hwtest_facts.
  Context {W T TE : Type} {BD : Board W} {BL : BoardLaws BD} {D : NtagDevice T TE} {L : NtagLaws D}
    {R : CardReader T} {RL : ReaderLaws L R} `{C : AesCrypto}.
  Context {V : Type} (verify_sdm : Sdm → list Z → AesKey → AesKey → option V) (debug_error : Error TE → list Z).
  Context {B : Type} {IB : I2cBus B}.
  Context (board_name : list Z) (power : option (option Z * bool)).

  Local Notation St := (HwTest W T).

Definition ht_time (s : St) : Z := time (ht_board s).

Lemma ht_now_ok (s : St) : let '(t, s') := ht_now s in ht_time s ≤ t ≤ ht_time s'.
Proof.
  unfold ht_now, on_board, ht_time. pose proof (law_millis (ht_board s)) as H. by destruct (millis (ht_board s)).
Qed.

Lemma ht_sleep_ok ms (s : St) : 10 ≤ ms → ht_time s + 1 ≤ ht_time (ht_sleep ms s).
Proof. intros Hm. by apply law_delay. Qed.

Lemma ht_poll_ok (s : St) : ht_time s ≤ ht_time (ht_poll s).2 ∧ ht_service (ht_poll s).2 = ht_service s.
Proof.
  unfold ht_poll. destruct (ht_buttons s) as [[front side]|]; [|done].
  pose proof (ht_now_ok s) as Hn. unfold ht_now, on_board in *. destruct (millis (ht_board s)) as [t w].
  unfold ht_time in *. simpl in *. pose proof (law_pins w) as Hp. destruct (pins w) as [[fp sp] w']. simpl in *.
  destruct (button_update fp t front), (button_update sp t side). simpl. split; [lia|done].
Qed.

Lemma press_ok (side : bool) (s : St) :
  let s' := ((if side then press_side else press_front) s).2 in ht_time s ≤ ht_time s' ∧ ht_service s' = ht_service s.
Proof.
  pose proof (ht_poll_ok s) as H. destruct side; unfold press_side, press_front; by destruct (ht_poll s) as [[? ?] ?].
Qed.

Lemma tap_ok (s : St) : ht_time (tap verify_sdm debug_error s).2 = ht_time s.
Proof. unfold tap. by destruct (poll_safe _ _ _) as [[a|e] svc]. Qed.

Lemma removed_ok (s : St) : ht_time (removed s).2 = ht_time s.
Proof. unfold removed. by destruct (card_present _). Qed.

Lemma ht_now_service (s : St) : ht_service (ht_now s).2 = ht_service s.
Proof. unfold ht_now, on_board. by destruct (millis _). Qed.

(** Waiting for a button leaves the service alone. *)
Lemma press_service side limit (s : St) r :
  wait_for ht_now (ht_sleep 10) (if side : bool then press_side else press_front) limit s = Some r →
  ht_service r.2 = ht_service s.
Proof.
  unfold wait_for. pose proof (ht_now_service s) as Hs. destruct (ht_now s) as [start s1]. simpl in Hs.
  rewrite <- Hs. revert r. generalize s1, (Datatypes.S (Z.to_nat limit)). clear s s1 Hs. intros s fuel r.
  apply (wait_ind _ _ _ start limit (λ s r, ht_service r.2 = ht_service s)); clear s fuel r.
  - intros s t s1 E. pose proof (ht_now_service s) as H. by rewrite E in H.
  - intros s t s1 a s2 E1 E2. pose proof (ht_now_service s) as H1. rewrite E1 in H1.
    pose proof (press_ok side s1) as H2. rewrite E2 in H2. simpl in *. destruct H2 as [_ ->]. done.
  - intros s t s1 s2 r E1 E2 ->. pose proof (ht_now_service s) as H1. rewrite E1 in H1.
    pose proof (press_ok side s1) as H2. rewrite E2 in H2. simpl in *. destruct H2 as [_ ->]. done.
Qed.

(** Waiting for a card polls as the loop of [Firmware] does, some number of times. *)
Lemma tap_service limit (s : St) r :
  wait_for ht_now (ht_sleep 100) (tap verify_sdm debug_error) limit s = Some r →
  ∃ n, ht_service r.2 = hwtest_tap verify_sdm debug_error n (ht_service s).
Proof.
  unfold wait_for. pose proof (ht_now_service s) as Hs. destruct (ht_now s) as [start s1]. simpl in Hs.
  rewrite <- Hs. revert r. generalize s1, (Datatypes.S (Z.to_nat limit)). clear s s1 Hs. intros s fuel r.
  apply (wait_ind _ _ _ start limit (λ s r, ∃ n, ht_service r.2 = hwtest_tap verify_sdm debug_error n (ht_service s)));
    clear s fuel r.
  - intros s t s1 E. exists 0%nat. pose proof (ht_now_service s) as H. by rewrite E in H.
  - intros s t s1 a s2 E1 E2. exists 1%nat. pose proof (ht_now_service s) as H1. rewrite E1 in H1. simpl in *.
    rewrite <- H1. unfold tap in E2. destruct (poll_safe _ _ _) as [[b|e] svc]; [|done].
    by destruct (ca_present b); simplify_eq.
  - intros s t s1 s2 r E1 E2 [n Hn]. exists (Datatypes.S n). pose proof (ht_now_service s) as H1. rewrite E1 in H1.
    simpl in *. rewrite <- H1, Hn. unfold tap in E2. destruct (poll_safe _ _ _) as [[b|e] svc]; [|by simplify_eq].
    by destruct (ca_present b); simplify_eq.
Qed.

Lemma removed_service limit (s : St) r :
  wait_for ht_now (ht_sleep 100) removed limit s = Some r →
  ∃ n, ht_service r.2 = hwtest_remove n (ht_service s).
Proof.
  unfold wait_for. pose proof (ht_now_service s) as Hs. destruct (ht_now s) as [start s1]. simpl in Hs.
  rewrite <- Hs. revert r. generalize s1, (Datatypes.S (Z.to_nat limit)). clear s s1 Hs. intros s fuel r.
  apply (wait_ind _ _ _ start limit (λ s r, ∃ n, ht_service r.2 = hwtest_remove n (ht_service s))); clear s fuel r.
  - intros s t s1 E. exists 0%nat. pose proof (ht_now_service s) as H. by rewrite E in H.
  - intros s t s1 a s2 E1 E2. exists 1%nat. pose proof (ht_now_service s) as H1. rewrite E1 in H1. simpl in *.
    rewrite <- H1. unfold removed in E2. by destruct (card_present _) as [[] svc]; simplify_eq.
  - intros s t s1 s2 r E1 E2 [n Hn]. exists (Datatypes.S n). pose proof (ht_now_service s) as H1. rewrite E1 in H1.
    simpl in *. rewrite <- H1, Hn. unfold removed in E2. by destruct (card_present _) as [[] svc]; simplify_eq.
Qed.

(** *** What the steps print *)

Definition STEP_NAMES : list string :=
  ["front_button"%string; "side_button"%string; "card_tap"%string; "card_remove"%string].

(** The verdict a line of output gives on the step [name]. *)
Definition verdict_of (name : string) (o : Out) : option bool :=
  let step := lit "[HWTEST] STEP " ++ lit name in
  if begins (step ++ lit ": PASS") o then Some true
  else if begins (step ++ lit ": FAIL (timeout)") o then Some false else None.

Definition verdicts (name : string) (outs : list Out) : list bool := omap (verdict_of name) outs.

Definition says_all_pass (outs : list Out) : bool :=
  existsb (begins (lit "[HWTEST] RESULT: ALL PASS")) outs.

#[local] Arguments verdicts : simpl never.
#[local] Arguments says_all_pass : simpl never.

(** What a part of the output says: per step its verdicts, and whether all passed. *)
Definition report (outs : list Out) : list (list bool) * bool :=
  ((λ name, verdicts name outs) <$> STEP_NAMES, says_all_pass outs).

Lemma report_app a b :
  report (a ++ b) = (zip_with app (report a).1 (report b).1, (report a).2 || (report b).2).
Proof.
  unfold report, verdicts, says_all_pass. rewrite existsb_app. simpl. by rewrite !omap_app.
Qed.

(** A step that returns: how its wait ended, that it says so, for its own name [i]
    and no other, and how it moves the service. *)
Definition step_ok {A} (i : nat) (sleep : St → St) (check : St → option A * St) (limit : Z)
    (Q : Esp32 T → Esp32 T → Prop) (step : Step) : Prop :=
  ∀ s : St, ∃ ev outs s', step s = Some (bool_decide (is_Some ev), outs, s') ∧
    waited ht_now sleep check limit s ev s' ∧
    report outs = (<[i := [bool_decide (is_Some ev)]]> (replicate 4 []), false) ∧
    Q (ht_service s) (ht_service s').

Ltac step_done ev := exists ev; eexists _, _; (split; [reflexivity|]); split_and!; [by apply wait_for_waited|by vm_compute|done].

Lemma front_step_ok : step_ok 0 (ht_sleep 10) press_front 10000 eq (front_step (BD := BD)).
Proof.
  intros s. unfold front_step, button_step.
  destruct (wait_for_returns ht_now (ht_sleep 10) press_front ht_time ht_now_ok
    (λ s, ht_sleep_ok 10 s ltac:(lia)) (λ s, proj1 (press_ok false s)) 10000 s ltac:(lia)) as ([e s'] & Hw & _).
  pose proof (press_service false 10000 s _ Hw) as Hs. rewrite Hw. simpl in Hs. destruct e as [e|]; [step_done (Some e)|step_done (@None ButtonEvent)].
Qed.

Lemma side_step_ok : step_ok 1 (ht_sleep 10) press_side 10000 eq (side_step (BD := BD)).
Proof.
  intros s. unfold side_step, button_step.
  destruct (wait_for_returns ht_now (ht_sleep 10) press_side ht_time ht_now_ok
    (λ s, ht_sleep_ok 10 s ltac:(lia)) (λ s, proj1 (press_ok true s)) 10000 s ltac:(lia)) as ([e s'] & Hw & _).
  pose proof (press_service true 10000 s _ Hw) as Hs. rewrite Hw. simpl in Hs. destruct e as [e|]; [step_done (Some e)|step_done (@None ButtonEvent)].
Qed.

Lemma tap_step_ok :
  step_ok 2 (ht_sleep 100) (tap verify_sdm debug_error) 15000
    (λ a b, ∃ n, b = hwtest_tap verify_sdm debug_error n a) (tap_step verify_sdm debug_error (BD := BD)).
Proof.
  intros s. unfold tap_step.
  destruct (wait_for_returns ht_now (ht_sleep 100) (tap verify_sdm debug_error) ht_time ht_now_ok
    (λ s, ht_sleep_ok 100 s ltac:(lia)) (λ s, Z.eq_le_incl _ _ (eq_sym (tap_ok s))) 15000 s ltac:(lia))
    as ([u s'] & Hw & _).
  pose proof (tap_service 15000 s _ Hw) as Hs. rewrite Hw. simpl in Hs. destruct u as [u|]; [step_done (Some u)|step_done (@None (list Z))].
Qed.

Lemma remove_step_ok :
  step_ok 3 (ht_sleep 100) removed 10000 (λ a b, ∃ n, b = hwtest_remove n a) (remove_step (BD := BD)).
Proof.
  intros s. unfold remove_step.
  destruct (wait_for_returns ht_now (ht_sleep 100) removed ht_time ht_now_ok
    (λ s, ht_sleep_ok 100 s ltac:(lia)) (λ s, Z.eq_le_incl _ _ (eq_sym (removed_ok s))) 10000 s ltac:(lia))
    as ([u s'] & Hw & _).
  pose proof (removed_service 10000 s _ Hw) as Hs. rewrite Hw. simpl in Hs. destruct u as [[]|]; [step_done (Some ())|step_done (@None ())].
Qed.

Lemma header_report found nfc ok mode :
  report (hw_header board_name power found nfc ok mode) = (replicate 4 [], false).
Proof.
  unfold hw_header. destruct nfc, ok, (button_mode_of_byte mode), power as [[[mv|] []]|]; by vm_compute.
Qed.

(** The observations a run of the self-test makes, from [s] to [s']: an event or a
    timeout for each of its steps. *)
Inductive observed (s s' : St) : list (string * bool) → Prop :=
| Observed_card tapped gone s1 :
    ht_buttons s = None →
    waited ht_now (ht_sleep 100) (tap verify_sdm debug_error) 15000 s tapped s1 →
    waited ht_now (ht_sleep 100) removed 10000 s1 gone s' →
    observed s s' [("card_tap"%string, bool_decide (is_Some tapped)); ("card_remove"%string, bool_decide (is_Some gone))]
| Observed_all front side tapped gone s1 s2 s3 :
    is_Some (ht_buttons s) →
    waited ht_now (ht_sleep 10) press_front 10000 s front s1 →
    waited ht_now (ht_sleep 10) press_side 10000 s1 side s2 →
    waited ht_now (ht_sleep 100) (tap verify_sdm debug_error) 15000 s2 tapped s3 →
    waited ht_now (ht_sleep 100) removed 10000 s3 gone s' →
    observed s s' [("front_button"%string, bool_decide (is_Some front)); ("side_button"%string, bool_decide (is_Some side));
                   ("card_tap"%string, bool_decide (is_Some tapped)); ("card_remove"%string, bool_decide (is_Some gone))].

Lemma skip_report :
  report [Line (lit "[HWTEST] STEP buttons: SKIP (not initialized)")] = (replicate 4 [], false).
Proof. by vm_compute. Qed.

(** C37. The hardware self-test ends and tells the truth. With a clock that does not
    run backwards and advances with every delay, and for any behaviour of the
    buttons and the card, [run_hwtest] returns. It has observed each of its steps,
    the card's two and with buttons two more, in order: the step ends with an event
    that a poll saw before the timeout, or with the timeout after polls that saw
    none. The output gives exactly one verdict for every step, PASS if the event
    came and FAIL (timeout) if it did not; the count of passed steps is that of the
    events, and ALL PASS is printed exactly if no step timed out. What it did to the
    card service is a run of the polling loops of the main-loop model, which leaves
    the card as it was. *)
Theorem hwtest_reports (mode : Z) (hw : Hw B) (s : St) :
  ∃ steps outs pass total hw' s' n m,
    run_hwtest verify_sdm debug_error board_name power mode hw s = Some (outs, (pass, total), hw', s') ∧
    observed s s' steps ∧
    Forall (λ '(name, ok), verdicts name outs = [ok]) steps ∧
    pass = Z.of_nat (length (List.filter snd steps)) ∧ total = Z.of_nat (length steps) ∧
    (says_all_pass outs = true ↔ Forall (λ st, st.2 = true) steps) ∧
    ht_service s' = hwtest_remove m (hwtest_tap verify_sdm debug_error n (ht_service s)) ∧
    svc_card (ht_service s') = svc_card (ht_service s).
Proof.
  unfold run_hwtest. destruct (i2c_scan hw) as [found hw'].
  pose proof (header_report found (is_some (es_transceiver (ht_service s))) (hw_display_init_ok hw') mode) as Hh.
  set (header := hw_header _ _ _ _ _ _) in *. destruct (ht_buttons s) as [bs|] eqn:Hb; cbn [run_steps length Nat.add].
  - destruct (front_step_ok s) as (e1 & o1 & s1 & E1 & W1 & R1 & S1). rewrite E1. cbn [mbind option_bind].
    destruct (side_step_ok s1) as (e2 & o2 & s2 & E2 & W2 & R2 & S2). rewrite E2. cbn [mbind option_bind]. clear E1 E2.
    remember (bool_decide (is_Some e1)) as b1 eqn:B1. remember (bool_decide (is_Some e2)) as b2 eqn:B2.
    destruct (tap_step_ok s2) as (e3 & o3 & s3 & E3 & W3 & R3 & n & S3). rewrite E3. cbn [mbind option_bind].
    destruct (remove_step_ok s3) as (e4 & o4 & s4 & E4 & W4 & R4 & m & S4). rewrite E4. cbn [mbind option_bind].
    rewrite <- S2, <- S1 in S3. rewrite S3 in S4. pose proof (hwtest_keeps verify_sdm debug_error n m (ht_service s)) as Hk.
    rewrite <- S4 in Hk. clear E3 E4.
    remember (bool_decide (is_Some e3)) as b3 eqn:B3. remember (bool_decide (is_Some e4)) as b4 eqn:B4.
    eexists _, _, _, _, hw', s4, n, m. split; [reflexivity|].
    split; [rewrite B1, B2, B3, B4; by eapply Observed_all; eauto|]. rewrite <- B1, <- B2, <- B3, <- B4.
    match goal with |- context [verdicts _ ?o] => set (outs := o) end.
    assert (report outs = ([[b1]; [b2]; [b3]; [b4]], forallb id [b1; b2; b3; b4])) as Hrep.
    { unfold outs. rewrite !report_app, Hh, R1, R2, R3, R4. clear. destruct b1, b2, b3, b4; by vm_compute. }
    clearbody outs. unfold report in Hrep. simpl in Hrep. injection Hrep as V1 V2 V3 V4 HA.
    split; [by repeat (apply Forall_cons; split)|]. rewrite HA, !Forall_cons, Forall_nil. cbn [snd].
    split; [clear; by destruct b1, b2, b3, b4|]. split; [done|].
    split; [clear; destruct b1, b2, b3, b4; naive_solver|]. by rewrite <- S4.
  - cbn [mbind option_bind].
    destruct (tap_step_ok s) as (e3 & o3 & s3 & E3 & W3 & R3 & n & S3). rewrite E3. cbn [mbind option_bind].
    destruct (remove_step_ok s3) as (e4 & o4 & s4 & E4 & W4 & R4 & m & S4). rewrite E4. cbn [mbind option_bind].
    rewrite S3 in S4. pose proof (hwtest_keeps verify_sdm debug_error n m (ht_service s)) as Hk.
    rewrite <- S4 in Hk. clear E3 E4.
    remember (bool_decide (is_Some e3)) as b3 eqn:B3. remember (bool_decide (is_Some e4)) as b4 eqn:B4.
    eexists _, _, _, _, hw', s4, n, m. split; [reflexivity|].
    split; [rewrite B3, B4; by eapply Observed_card|]. rewrite <- B3, <- B4.
    match goal with |- context [verdicts _ ?o] => set (outs := o) end.
    assert (report outs = ([[]; []; [b3]; [b4]], forallb id [b3; b4])) as Hrep.
    { unfold outs. rewrite !report_app, Hh, skip_report, R3, R4. clear. destruct b3, b4; by vm_compute. }
    clearbody outs. unfold report in Hrep. simpl in Hrep. injection Hrep as V1 V2 V3 V4 HA.
    split; [by repeat (apply Forall_cons; split)|]. rewrite HA, !Forall_cons, Forall_nil. cbn [snd].
    split; [clear; by destruct b3, b4|]. split; [done|].
    split; [clear; destruct b3, b4; naive_solver|]. by rewrite <- S4.
Qed.
End hwtest_facts.

(** ** The timers *)

Definition interval_of (due : Due) : Z :=
  match due with
  | Due_Poll => CARD_POLL_INTERVAL_MS | Due_Heartbeat => HEARTBEAT_INTERVAL_MS
  | Due_Battery => BATTERY_UPDATE_INTERVAL_MS
  end.
Definition deadline (due : Due) (t : Timers) : Z :=
  match due with
  | Due_Poll => next_poll_at t | Due_Heartbeat => heartbeat_at t | Due_Battery => next_battery_update t
  end.

Lemma loop_timers_due due now t :
  let '(dues, t') := loop_timers now t in
  (due ∈ dues ↔ deadline due t ≤ now) ∧
  deadline due t' = if decide (deadline due t ≤ now) then u64_saturating_add now (interval_of due) else deadline due t.
Proof.
  unfold loop_timers, expire.
  destruct (decide (next_poll_at t ≤ now)), (decide (heartbeat_at t ≤ now)), (decide (next_battery_update t ≤ now)),
    due; simpl; (split; [|by rewrite ?decide_True, ?decide_False by done]); rewrite ?elem_of_cons, ?elem_of_nil; naive_solver.
Qed.

Lemma runs_at_cons due now nows t :
  runs_at due (now :: nows) t =
    (if decide (deadline due t ≤ now) then [now] else []) ++ runs_at due nows (loop_timers now t).2.
Proof.
  cbn [runs_at]. pose proof (loop_timers_due due now t) as H. destruct (loop_timers now t) as [dues t'].
  destruct H as [H _]. simpl. f_equal. destruct (decide (due ∈ dues)), (decide (deadline due t ≤ now)); tauto.
Qed.

(** Times the clock can show in the next 290 million years. *)
Definition sane (now : Z) : Prop := 0 ≤ now < 2 ^ 63.

Lemma next_deadline due now t : sane now →
  deadline due (loop_timers now t).2 = if decide (deadline due t ≤ now) then now + interval_of due else deadline due t.
Proof.
  intros Hn. pose proof (loop_timers_due due now t) as H. destruct (loop_timers now t) as [dues t']. destruct H as [_ H].
  cbn [snd]. rewrite H. case_decide; [|done]. unfold u64_saturating_add, sane in *.
  assert (0 ≤ interval_of due ≤ 10000) by (destruct due; vm_compute; split; discriminate). lia.
Qed.

Lemma runs_after due nows t : Forall sane nows →
  Sorted (λ a b, a + interval_of due ≤ b) (runs_at due nows t) ∧
  HdRel Z.le (deadline due t) (runs_at due nows t).
Proof.
  intros Hn. revert t. induction Hn as [|now nows Hnow _ IH]; intros t; [split; constructor|].
  rewrite runs_at_cons. destruct (IH (loop_timers now t).2) as [IH1 IH2]. rewrite next_deadline in IH2 by done.
  case_decide; simpl; [|done]. split; [|by constructor]. constructor; [done|].
  destruct (runs_at due nows _); [constructor|]. inversion IH2; subst. by constructor.
Qed.

Lemma runs_soon due gap nows q t :
  0 ≤ gap → Forall sane nows → q < deadline due t → Sorted (λ a b, b ≤ a + gap) (q :: nows) →
  Sorted (λ a b, b ≤ a + interval_of due + gap) (runs_at due nows t) ∧
  HdRel Z.ge (deadline due t + gap) (runs_at due nows t).
Proof.
  intros Hg Hn. revert q t. induction Hn as [|now nows Hnow _ IH]; intros q t Hq Hs; [split; constructor|].
  inversion Hs as [|? ? Hs' Hhd]; subst. inversion Hhd; subst. rewrite runs_at_cons.
  assert (0 < interval_of due) as Hi by (by destruct due).
  assert (now < deadline due (loop_timers now t).2) as Hd by (rewrite next_deadline by done; case_decide; lia).
  destruct (IH now (loop_timers now t).2 Hd Hs') as [IH1 IH2]. rewrite next_deadline in IH2 by done.
  case_decide; simpl; [|done]. split; [|constructor; lia]. constructor; [done|].
  destruct (runs_at due nows _); [constructor|]. inversion IH2; subst. constructor. lia.
Qed.

(** The periodic work of the main loop is neither rushed nor starved: whatever the
    times of the passes, two polls of the card are at least 500 ms apart (two
    heartbeats 10 s, two battery readings 5 s), and when passes are at most [gap]
    apart, the next one follows within the interval and one more [gap]. *)
Theorem timers_paced due nows t gap q :
  Forall sane nows → 0 ≤ gap → q < deadline due t → Sorted (λ a b, b ≤ a + gap) (q :: nows) →
  Sorted (λ a b, a + interval_of due ≤ b ≤ a + interval_of due + gap) (runs_at due nows t).
Proof.
  intros Hn Hg Hq Hs. destruct (runs_after due nows t Hn) as [H1 _].
  destruct (runs_soon due gap nows q t Hg Hn Hq Hs) as [H2 _]. revert H1 H2.
  generalize (runs_at due nows t). intros l H1. induction H1 as [|a l Hl IH Hhd]; intros H2; [constructor|].
  inversion H2 as [|? ? H2' Hhd2]; subst. constructor; [auto|].
  destruct l; [constructor|]. inversion Hhd; inversion Hhd2; subst. by constructor.
Qed.

(** ** What fits *)

Lemma show_dec_length fuel k z : 0 ≤ z < 10 ^ Z.of_nat (S k) → (length (show_dec fuel z) ≤ S k)%nat.
Proof.
  revert fuel z. induction k as [|k IH]; intros fuel z Hz; destruct fuel as [|fuel]; simpl; try lia;
    rewrite length_app; simpl; case_decide as Hd; simpl; try lia.
  pose proof (IH fuel (z / 10)) as H. assert (0 ≤ z / 10 < 10 ^ Z.of_nat (S k)); [|lia].
  replace (10 ^ Z.of_nat (S (S k))) with (10 * 10 ^ Z.of_nat (S k)) in Hz
    by (rewrite <- Z.pow_succ_r by lia; f_equal; lia).
  split; [apply Z.div_pos; lia|apply Z.div_lt_upper_bound; lia].
Qed.

(** The heartbeat line is complete at any time a 64-bit clock can show. *)
Lemma heartbeat_complete now nfc :
  0 ≤ now < 2 ^ 64 →
  heartbeat_text now nfc = lit "[HB] alive t=" ++ show_uint now ++ lit "ms nfc=" ++ if nfc then lit "ok" else lit "DOWN".
Proof.
  intros Hn. unfold heartbeat_text. pose proof (show_dec_length (S (Z.to_nat (Z.log2 now))) 19 now) as Hl.
  fold (show_uint now) in Hl. specialize (Hl ltac:(simpl; lia)).
  rewrite write_parts_fits; [destruct nfc; simpl; by rewrite ?app_nil_r|].
  cbn [concat]. rewrite !length_app. destruct nfc; simpl; lia.
Qed.

(** The button status names the URL template only up to 76 bytes; a longer one is
    left out, as if it were empty. *)
Lemma button_status_url {T} (s : Esp32 T) url ready :
  Workflow.ss_nfc_ready (es_status s) = ready → ss_lnurl (es_status s) = Some url →
  let head := lit "[INFO] nfc=" ++ (if ready then lit "ok" else lit "--") ++ lit " lnurl=" in
  show_button_status s !! 1%nat = Some (Line (head ++ if decide (length url ≤ 76)%nat then url else [])).
Proof.
  intros Hr Hu. unfold show_button_status. cbn [lookup list_lookup]. rewrite Hr, Hu. cbn [default]. f_equal. f_equal.
  destruct ready; (case_decide;
    [rewrite write_parts_fits by (cbn [concat]; rewrite !length_app; simpl; lia); cbn [concat]; by rewrite app_nil_r, <-?app_assoc
    |cbn [write_parts]; unfold push_str; rewrite !decide_True by (simpl; lia); rewrite decide_False by (simpl; lia);
     by rewrite app_nil_r]).
Qed.

(** ** A simulated board *)

(** The time, and the intervals in which each button is held. *)
Record SimBoard : Type := mkSimBoard { sb_time : Z; sb_front : list (Z * Z); sb_side : list (Z * Z) }.

Definition sb_held (spans : list (Z * Z)) (t : Z) : bool :=
  existsb (λ span, bool_decide (span.1 ≤ t < span.2)) spans.

#[export] Instance sim_board : Board SimBoard := {|
  millis w := (sb_time w, w);
  delay_ms ms w := mkSimBoard (sb_time w + Z.max 1 ms) (sb_front w) (sb_side w);
  pins w := ((sb_held (sb_front w) (sb_time w), sb_held (sb_side w) (sb_time w)), w) |}.

#[export] Instance sim_board_laws : BoardLaws sim_board.
Proof. refine {| time := sb_time |}; [intros w; simpl; lia|intros ms w Hm; simpl; lia|intros w; simpl; lia]. Defined.

(** Both buttons pressed in turn, the factory card left on the reader. *)
Definition sim_test : HwTest SimBoard Sim :=
  mkHwTest (mkSimBoard 0 [(500, 700)] [(2000, 2300)]) (Some (ButtonDebounce_new, ButtonDebounce_new))
    (dv_service (device_of sim_factory)).

#[local] Notation sim_run s :=
  (run_hwtest no_verify no_debug (lit "M5StickC Plus") (Some (Some 4100, true)) 0 sim_hw s).

Example self_test_example :
  (λ r, (r.1.1.2, r.1.1.1 !! 24%nat, r.1.1.1 !! 25%nat)) <$> sim_run sim_test =
    Some ((3, 4), Some (Line (lit "[HWTEST] STEP card_remove: REMOVE CARD NOW (10s)")), Some (Show (Sc_Event (lit "Remove card")))).
Proof. vm_compute. done. Qed.

Lemma sim_test_verdict :
  (λ r, (r.1.1.2, says_all_pass r.1.1.1)) <$> sim_run sim_test = Some ((3, 4), false).
Proof. vm_compute. done. Qed.

Lemma hwtest_reports_witness :
  ∃ steps outs hw' s', sim_run sim_test = Some (outs, (3, 4), hw', s') ∧
    observed no_verify no_debug sim_test s' steps ∧
    Forall (λ '(name, ok), verdicts name outs = [ok]) steps ∧
    length (List.filter snd steps) = 3%nat ∧ length steps = 4%nat ∧
    ¬ says_all_pass outs = true ∧ svc_card (ht_service s') = svc_card (ht_service sim_test).
Proof.
  destruct (hwtest_reports no_verify no_debug (lit "M5StickC Plus") (Some (Some 4100, true)) 0 sim_hw sim_test)
    as (steps & outs & pass & total & hw' & s' & n & m & Hr & Ho & Hv & Hp & Ht & Ha & _ & Hk).
  pose proof sim_test_verdict as Hrun. rewrite Hr in Hrun.
  cbn [fmap option_fmap option_map fst snd] in Hrun.
  injection Hrun as Hrun1 Hrun2 Hs. rewrite Hrun1, Hrun2 in *.
  exists steps, outs, hw', s'. split; [exact Hr|]. split; [exact Ho|]. split; [exact Hv|].
  split; [lia|]. split; [lia|]. split; [by rewrite Hs|exact Hk].
Defined.

(** With no reader at all the card is reported as removed: the last step passes
    without a card ever having been seen. *)
Example removal_without_reader :
  (λ r, r.1.1.2) <$> sim_run (mkHwTest (mkSimBoard 0 [] []) None (Esp32_new None staged_config None)) = Some (1, 2).
Proof. vm_compute. done. Qed.

(** The heartbeat of a loop whose reader came up reports it as good for ever: the
    flag it prints is the one of the start-up. *)
Definition heartbeats (nfc_ready_at_boot : bool) (nows : list Z) (t : Timers) : list (list Z) :=
  (λ now, heartbeat_text now nfc_ready_at_boot) <$> runs_at Due_Heartbeat nows t.

Example heartbeat_example :
  heartbeats true [0; 10; 9990; 10000; 20010] (mkTimers 0 0 0) =
    [lit "[HB] alive t=0ms nfc=ok"; lit "[HB] alive t=10000ms nfc=ok"; lit "[HB] alive t=20010ms nfc=ok"].
Proof. vm_compute. done. Qed.
